(* ===== verification/_CoqProject ===== *)
-Q . S2P
Prelude.v
Stream.v
Crc32.v
SimProto.v
QuicTime.v
Alarm.v
Clock.v
ArenaPtr.v
StdMap.v
Bbr.v
BbrSafe.v
BbrInv.v
BbrProps.v
BbrStarve.v
BbrDemo.v
FramerTypes.v
FramerNumbers.v
FramerAppend.v
FramerProcess.v
FramerIetf.v
FramerPacket.v
FramerWire.v
FramerCodec.v
FramerConcrete.v
FramerStream.v
FramerFrames.v
FramerIetfFrames.v
FramerIetfAck.v
FramerData.v
FramerHeader.v
FramerPackets.v
FramerSafe.v
FramerIetfSafe.v
FramerPacketSafe.v
FramerAck.v
Platform.v
Posix.v
RazorPosix.v
Cmdline.v
CmdlineProps.v
AppHeader.v
BbrApps.v
BbrAppProps.v
BbrAppDemo.v
Network.v
BbrSystem.v
BbrSystemDemo.v
QuicReceiver.v
QuicSender.v
QuicProps.v
QuicAcks.v
QuicSystem.v
QuicVideo.v
QuicDemo.v
QuicSystemDemo.v
Mininet.v
MininetMsgs.v
MininetProps.v
MininetVideo.v
MininetSafe.v
FakeRtp.v
VideoGen.v
MininetDemo.v
Programs.v
ProgramsProps.v
ProgramsLive.v
ProgramsDemo.v
MininetPrograms.v
MininetSafeDemo.v
TestPrograms.v
TestReceived.v
