(* ===== verification/Prelude.v ===== *)
(** * Verification of the stupid_simple transport experiments

    The repository holds two families of programs that send and receive over
    UDP, and the pieces they are made of.

    - [src/scoped_ptr]: classes taken out of a QUIC library - time values,
      alarms, clocks, an owning pointer.
    - [src/quic-test/myquic]: a QUIC framer that stands alone, and three
      programs around it ([MyQuicSender], [MyQuicVideoSender],
      [MyQuicReceiver]) that exchange numbered packets and ack frames.
    - [src/quic-test/mybbr]: a congestion controller of the BBR kind, its
      pacing, and three programs that use it.
    - [src/quic-test/net] and [src/mininet-webrtc/razor]: addresses, datagrams;
      a byte stream, a checksum and a message protocol.
    - [src/quic-test/test_fun]: the main programs of all these, over an option
      parser ([cmdline.h]).
    - [src/mininet-webrtc]: two end points that let WebRTC's congestion control
      run over that protocol, the module that stands between them, and their main
      programs.

    ** Conventions

    An integer of [w] bits is a [Z] reduced by [wrap w] or [swrap w] where the
    code's type reduces it (signed overflow, undefined in C++, wraps); a byte is
    a [Z] below 256.  A method is a computation [M state result]: [Ok] for a
    return, [Fail] for a result of [false] or -1, [Stuck] for behaviour the
    language does not define - an access outside a buffer, a null or dangling
    pointer, a failed assertion.  The state survives a failure as the object's
    members do.  A loop that is not bounded by its data takes fuel and ends in
    [Fail] or [Stuck] without it; the theorem on it says how much is enough.
    An exception is the left of a sum ([string + A]).  Where a method must return
    from every good state, [safe I Q m] of [MininetSafe] says so and is closed
    under the monad's operations; [always] and [completes] below say it where
    the states before and after matter.
    Constructors and methods keep the names of the source; where two classes
    have a method of the same name one carries its class in front
    ([Sender_Process], [Receiver_Process]) or is told apart by its file.

    What belongs to a library or to the system is a class of operations
    ([SentPackets], [Webrtc], [Sockets] ...) with, where a theorem needs it, a
    second class of documented laws ([SentPacketsOk] ...).  The [*Demo] files
    and [FramerConcrete] give instances of all of them, and run the theorems on
    them.

    ** The files

    - [Prelude]: integers, bytes in both orders, the monad, buffers.
      [StdMap]: [std::map] with integer keys.
    - [Stream] ([razor/cf_stream]), [Crc32] ([razor/cf_crc32]), [SimProto]
      ([razor/sim_proto]).  A stream is a byte queue: what is written is what is
      read, in either byte order, and no sequence of operations leaves the
      buffer.  The checksum is the bit-serial one and tells any change confined to
      four consecutive bytes.  Messages survive the wire; those altered in up to
      four consecutive bytes, before the checksum or in it, are rejected; decoding
      anything stays in bounds.
    - [QuicTime], [Alarm], [Clock], [ArenaPtr] ([scoped_ptr]; [my_quic_clock.h]
      repeats [sys_clock.h]).  An alarm and its scheduler are one pending
      deadline; calibration finds the offset of the clocks; programs that use
      owning pointers only never free twice.
    - [FramerTypes] (the framer's state, frames and the library it needs),
      [FramerNumbers], [FramerAppend], [FramerProcess], [FramerIetf],
      [FramerPacket]: every method of [my_quic_framer.cc].  [FramerWire] and
      [FramerCodec] are the proof library: which bytes a method appends, what it
      parses.  [FramerStream], [FramerFrames], [FramerData], [FramerHeader],
      [FramerPackets]: a data packet built and protected by one framer is
      processed by its peer, which calls back with the frames in order.
      [FramerAck]: ack frames, whole, cut short and cut to nothing.
      [FramerIetfFrames], [FramerIetfAck]: the IETF frames, which the source
      writes and reads but never dispatches: each is read back as it was
      written, except an ack, whose intervals are all read as long as the first.
      [FramerSafe], [FramerIetfSafe]: [ProcessFrameData] and the readers of IETF
      frames cope with any bytes.  Their loops get one unit of fuel for each byte
      left in the reader, and each round reads one at least.
      [FramerPacketSafe]: [ProcessPacket] copes with any datagram and leaves the
      framer ready for the next, so with any sequence of them.
    - [Bbr] (the controller over a heap of linked clusters, and the pacing),
      [BbrSafe] and [BbrInv] (ownership, links and accounting as an invariant of
      every call), [BbrProps], [BbrStarve], [BbrDemo]: no call uses a deleted
      cluster, the bytes of the clusters are those of their packets, the pacing
      rate is kept, and when the search for the minimum round trip ends; on
      paths longer than that search it never does.
    - [Platform] ([net/posix.c], [razor/posix.c], [net/socket]): addresses,
      datagrams, the [Socket] interface and [UdpSocket].  [Posix], [RazorPosix]
      (the rest of the two copies of [posix.c]): what creates and configures
      sockets, the wrappers of threads, locks and time, the local address; who
      owns a descriptor.  [AppHeader]
      ([my_quic_header], [my_quic_utils], [fakevideogenerator], [my_proto.h]):
      the packet header, the splitting of frames, the source, the log files.
    - [BbrApps], [BbrAppProps], [BbrAppDemo]: the programs of [mybbr].  A packet
      sent, acknowledged and processed reaches the controller under its number;
      which losses the receiver logs; when the loop is safe.  [Network]: what
      the system promises a program at one end of a network, and worlds that
      record what passed through their socket.  [BbrSystem], [BbrSystemDemo]:
      the sender, the receiver and a network as one step relation; in every
      reachable state the packets answered are those received, and those
      acknowledged to the controller are among them.
    - [QuicReceiver] ([my_quic_receiver], [quic_framer_visitor]), [QuicSender]
      ([my_quic_sender]), [QuicVideo] ([my_quic_video_sender]), [QuicProps],
      [QuicDemo].  What the receiver's manager reports reaches the sender's
      interval by interval; when the receiver answers; which datagrams a sender
      can take; that retransmissions end, and when they do not.  [QuicAcks]:
      whatever frame is sent, cut short or empty, the sender's manager hears of
      its intervals only.  [QuicSystem], [QuicSystemDemo]: the same for sender,
      receiver and network as [BbrSystem], with the managers' histories.
    - [Mininet] ([mininet-webrtc/sender], [receiver]), [MininetMsgs],
      [MininetProps], [MininetVideo], [MininetDemo].  Frames are queued whole as
      segments; what becomes of a segment, of feedback and of a ping; padding
      ends and what it counts; the statistics of round trips.  The padding loop
      gets one unit of fuel more than it sends pads.  [VideoGen]
      ([mininet-webrtc/fakevideosource]): the generator of frames, an instance of
      the class [VideoSource]; its single-precision quotient is the integer one.
      [MininetSafe]: all calls of either end complete, in any order, whatever
      arrives.  [FakeRtp] ([fake_rtp_rtcp_impl]): the module WebRTC calls refines
      a sender and an identifier.  [MininetPrograms] ([t_sender], [t_receiver]):
      how long the programs run; a list of what other threads do after each
      round bounds the rounds.  [MininetSafeDemo].
    - [Cmdline] ([cmdline.h]): the option parser, options of any type behind one
      dispatch, as the class hierarchy has them.  [CmdlineProps]: the command lines
      it accepts are those of a grammar; what is written is what is read; no
      program makes [get] misread an option's type; quoting.
    - [Programs] ([test_fun]), [ProgramsProps], [ProgramsLive], [ProgramsDemo]:
      the main programs - options, socket, object, loop.  What a command line
      sets a sender to do; that the video sender exits when its time is up.
    - [TestPrograms] ([scoped_ptr/main.cpp], [test_thread_module.cc],
      [mininet-webrtc/test]), [TestReceived] ([t_recv_packet_manager.cc]): the
      demonstration programs.  How often the polled alarm fires; what the
      programs print; that the manager's ack frame is read back.

    The components meet in theorems of composition: framer, sender and receiver
    in [quic_ack_delivered]; controller, pacing and both programs in
    [bbr_ack_loop], and over any network in [bbr_system_safe] and, for the QUIC
    programs, [quic_system_safe]; parser, socket,
    controller and program in [bbr_video_sender_ends]; stream, checksum, protocol and both end points in
    [segment_transport], [ping_measures], [feedback_delivered] and [ends_survive];
    those with the generator and the main programs in [emulation_run_time].

    ** Assumptions and bounds

    The framer runs on a little-endian machine ([FramerTypes]); the stream takes
    the byte order of the machine as a parameter.  [OnError] gets the framer by
    pointer but is taken not to modify it.  The length of a stream frame's data
    is the library's 16-bit one.  Allocation may fail in [bin_stream_init] and
    nowhere else.  The fuel of the doubling loop of [bin_stream_resize] is 64, a
    round per bit.  Streams are below 2^62 bytes, clocks below 2^62
    microseconds, round trips below 2^28 ms, packet numbers of the QUIC programs
    below 2^48, the longest their header encodes.  The bytes of a local array
    that is sent before it is written are a parameter ([beyond], [Stack]).
    Methods do not interleave: the locks, and the data shared without one
    between WebRTC's threads and the main thread, are not modelled; in
    [MininetPrograms] and [TestPrograms] other threads act between the rounds of
    the loop.

    ** Not modelled

    What the system and the libraries do behind their classes: QUIC's, WebRTC,
    the calls of [pthread] and of the kernel.  The branch of [posix.c] for
    [SU_SERVER], which is not defined.  The multiplications of a time by a
    [double].  The programs that print a constant, one on WebRTC's task queue
    ([t_task_queue.cc], [clang_cmake/test.cc]), and [t_bbr_sender.cc], which does
    not compile.  What programs print other than numbers.  The logging macros. *)

From stdpp Require Export base option list numbers strings.
From Stdlib Require Export ZArith Lia.

Open Scope Z_scope.

Declare Scope net_scope.
Delimit Scope net_scope with net.
Open Scope net_scope.

Create HintDb wire.
Create HintDb bytes.
Create Rewrite HintDb lens.

(** ** Machine integers

    A [w]-bit unsigned integer is a [Z] in [0, 2^w); the C++ conversions and
    the unsigned operators reduce modulo [2^w]. *)

Definition wrap (w z : Z) : Z := z mod 2 ^ w.

Definition swrap (w z : Z) : Z := (z + 2 ^ (w - 1)) mod 2 ^ w - 2 ^ (w - 1).

Abbreviation u8 := (wrap 8).
Abbreviation u16 := (wrap 16).
Abbreviation u32 := (wrap 32).
Abbreviation u64 := (wrap 64).
Abbreviation s8 := (swrap 8).
Abbreviation s16 := (swrap 16).
Abbreviation s32 := (swrap 32).
Abbreviation s64 := (swrap 64).

Definition in_u (w z : Z) : Prop := 0 <= z < 2 ^ w.

Definition in_s (w z : Z) : Prop := - 2 ^ (w - 1) <= z < 2 ^ (w - 1).

Definition b2z (b : bool) : Z := if b then 1 else 0.

(** [mask & x != 0], the C idiom for testing flag bits. *)
Definition has_bits (x mask : Z) : bool := negb (Z.land x mask =? 0).

Lemma wrap_range w z : 0 <= w -> in_u w (wrap w z).
Proof. intros. apply Z.mod_pos_bound. lia. Qed.

Lemma wrap_id w z : in_u w z -> wrap w z = z.
Proof. intros. by apply Z.mod_small. Qed.

(** One period below and above the range. *)
Lemma wrap_neg w z : 0 <= w -> - 2 ^ w <= z < 0 -> wrap w z = z + 2 ^ w.
Proof.
  intros. unfold wrap. rewrite <- (Z_mod_plus_full z 1), Z.mul_1_l. apply Z.mod_small. lia.
Qed.

Lemma wrap_over w z : 0 <= w -> 2 ^ w <= z < 2 * 2 ^ w -> wrap w z = z - 2 ^ w.
Proof.
  intros. unfold wrap. rewrite <- (Z_mod_plus_full z (-1)).
  replace (z + -1 * 2 ^ w) with (z - 2 ^ w) by lia. apply Z.mod_small. lia.
Qed.

Lemma wrap_idemp w z : 0 <= w -> wrap w (wrap w z) = wrap w z.
Proof. intros. by apply wrap_id, wrap_range. Qed.

Lemma swrap_id w z : 0 < w -> in_s w z -> swrap w z = z.
Proof.
  unfold in_s, swrap. intros Hw Hz.
  assert (2 ^ w = 2 * 2 ^ (w - 1)) as E
    by (rewrite <- Z.pow_succ_r by lia; f_equal; lia).
  rewrite Z.mod_small; lia.
Qed.

Lemma swrap_range w z : 0 < w -> in_s w (swrap w z).
Proof.
  unfold in_s, swrap. intros Hw.
  assert (2 ^ w = 2 * 2 ^ (w - 1)) as E
    by (rewrite <- Z.pow_succ_r by lia; f_equal; lia).
  pose proof (Z.mod_pos_bound (z + 2 ^ (w - 1)) (2 ^ w)). lia.
Qed.

(** The wrapped value of a small literal width; [lia] needs the power as a
    literal. *)
Ltac unfold_int :=
  unfold in_u, in_s, wrap, swrap in *;
  change (2 ^ 8) with 256 in *;
  change (2 ^ 16) with 65536 in *;
  change (2 ^ 32) with 4294967296 in *;
  change (2 ^ 62) with 4611686018427387904 in *;
  change (2 ^ 64) with 18446744073709551616 in *.

Ltac int_lia :=
  unfold_int; Z.to_euclidean_division_equations; lia.

(** Reading back a two's complement value through its unsigned image. *)
Lemma swrap_wrap w z : 0 < w -> swrap w (wrap w z) = swrap w z.
Proof.
  intros. unfold swrap, wrap.
  by rewrite Zplus_mod_idemp_l.
Qed.

(** ** Bytes *)

Abbreviation byte_ok := (in_u 8).
Abbreviation bytes_ok := (Forall (in_u 8)).

(** [be_bytes n v]: the low [n] bytes of [v], most significant first (network
    byte order); [le_bytes] least significant first. *)
Fixpoint be_bytes (n : nat) (v : Z) : list Z :=
  match n with
  | O => []
  | S m => u8 (Z.shiftr v (8 * Z.of_nat m)) :: be_bytes m v
  end.

Definition be_val (bs : list Z) : Z := foldl (fun acc b => acc * 256 + b) 0 bs.

Definition le_bytes (n : nat) (v : Z) : list Z := rev (be_bytes n v).

Definition le_val (bs : list Z) : Z := be_val (rev bs).

Lemma be_bytes_length n v : length (be_bytes n v) = n.
Proof. induction n; simpl; auto. Qed.

Lemma le_bytes_length n v : length (le_bytes n v) = n.
Proof. unfold le_bytes. by rewrite length_rev, be_bytes_length. Qed.

Lemma be_bytes_ok n v : bytes_ok (be_bytes n v).
Proof. induction n; simpl; constructor; auto. by apply wrap_range. Qed.

Lemma le_bytes_ok n v : bytes_ok (le_bytes n v).
Proof. unfold le_bytes. apply Forall_rev, be_bytes_ok. Qed.

Lemma foldl_be_acc bs a :
  foldl (fun acc b => acc * 256 + b) a bs = a * 256 ^ Z.of_nat (length bs) + be_val bs.
Proof.
  unfold be_val. revert a. induction bs as [|b bs IH]; intros a.
  - cbn [foldl length]. change (Z.of_nat 0) with 0. rewrite Z.pow_0_r. ring.
  - cbn [foldl length]. rewrite IH, (IH (0 * 256 + b)).
    rewrite Nat2Z.inj_succ, Z.pow_succ_r by lia. ring.
Qed.

Lemma be_val_cons b bs : be_val (b :: bs) = b * 256 ^ Z.of_nat (length bs) + be_val bs.
Proof. unfold be_val at 1. simpl. by rewrite foldl_be_acc. Qed.

Lemma be_val_app xs ys :
  be_val (xs ++ ys) = be_val xs * 256 ^ Z.of_nat (length ys) + be_val ys.
Proof. unfold be_val at 1. rewrite foldl_app. by rewrite foldl_be_acc. Qed.

Lemma pow256 n : 0 <= n -> 256 ^ n = 2 ^ (8 * n).
Proof. intros. by rewrite Z.pow_mul_r by lia. Qed.

Lemma be_val_range bs : bytes_ok bs -> in_u (8 * Z.of_nat (length bs)) (be_val bs).
Proof.
  induction 1 as [|b bs Hb Hbs IH].
  - split; [done|reflexivity].
  - rewrite be_val_cons. unfold in_u in *. cbn [length].
    rewrite Nat2Z.inj_succ.
    replace (8 * Z.succ (Z.of_nat (length bs)))
      with (8 + 8 * Z.of_nat (length bs)) by lia.
    rewrite Z.pow_add_r, pow256 by lia. nia.
Qed.

Lemma be_val_bytes n v : be_val (be_bytes n v) = wrap (8 * Z.of_nat n) v.
Proof.
  induction n as [|n IH].
  - unfold wrap. simpl. by rewrite Z.mod_1_r.
  - cbn [be_bytes]. rewrite be_val_cons, be_bytes_length, IH. unfold wrap.
    rewrite Nat2Z.inj_succ, pow256, Z.shiftr_div_pow2 by lia.
    replace (8 * Z.succ (Z.of_nat n)) with (8 * Z.of_nat n + 8) by lia.
    rewrite Z.pow_add_r, Z.rem_mul_r by lia. ring.
Qed.

Lemma le_val_bytes n v : le_val (le_bytes n v) = wrap (8 * Z.of_nat n) v.
Proof. unfold le_val, le_bytes. by rewrite rev_involutive, be_val_bytes. Qed.

Lemma be_val_bytes_id n v :
  in_u (8 * Z.of_nat n) v -> be_val (be_bytes n v) = v.
Proof. intros. by rewrite be_val_bytes, wrap_id. Qed.

Lemma be_bytes_val bs : bytes_ok bs -> be_bytes (length bs) (be_val bs) = bs.
Proof.
  assert (forall n a v, 0 <= v < 2 ^ (8 * Z.of_nat n) ->
    be_bytes n (a * 2 ^ (8 * Z.of_nat n) + v) = be_bytes n v) as Hhi.
  { induction n as [|n IH]; intros a v Hv; [done|]. cbn [be_bytes].
    rewrite Nat2Z.inj_succ in *.
    replace (8 * Z.succ (Z.of_nat n)) with (8 + 8 * Z.of_nat n) in * by lia.
    rewrite Z.pow_add_r in * by lia. f_equal.
    - unfold wrap. rewrite !Z.shiftr_div_pow2 by lia.
      rewrite Z.mul_assoc, Z.div_add_l by lia.
      by rewrite Z.add_comm, Z_mod_plus_full.
    - set (p := 2 ^ (8 * Z.of_nat n)) in *.
      assert (0 < p) by (subst p; lia).
      rewrite (Z.div_mod v p), Z.mul_assoc, (Z.mul_comm p), Z.add_assoc, <- Z.mul_add_distr_r by lia.
      rewrite !IH by (apply Z.mod_pos_bound; lia). done. }
  induction 1 as [|b bs Hb Hbs IH]; [done|].
  cbn [length be_bytes]. rewrite be_val_cons, pow256 by lia.
  pose proof (be_val_range bs Hbs) as Hr. unfold in_u in *.
  f_equal; [|by rewrite Hhi].
  rewrite Z.shiftr_div_pow2 by lia.
  rewrite Z.div_add_l, (Z.div_small (be_val bs)) by lia.
  rewrite Z.add_0_r. by apply wrap_id.
Qed.

Lemma be_bytes_wrap n w v : 8 * Z.of_nat n <= w -> be_bytes n (wrap w v) = be_bytes n v.
Proof.
  intros Hw.
  rewrite <- (be_bytes_val (be_bytes n (wrap w v))), <- (be_bytes_val (be_bytes n v))
    by apply be_bytes_ok.
  rewrite !be_bytes_length, !be_val_bytes. f_equal. unfold wrap.
  rewrite Z.mod_mod_divide; [done|].
  exists (2 ^ (w - 8 * Z.of_nat n)). rewrite <- Z.pow_add_r by lia. f_equal. lia.
Qed.

#[export] Hint Resolve be_bytes_ok le_bytes_ok : bytes.
#[export] Hint Rewrite be_bytes_length le_bytes_length : lens.

(** ** Computations that may fail

    [Ok]: normal return.  [Fail]: the C++ function returns [false] (or 0, or
    [nullptr]).  [Stuck]: the execution has no defined continuation - a memory
    access out of bounds, a null dereference, or the model's fuel exhausted;
    the theorems show where it cannot occur. *)

Inductive res (A : Type) : Type :=
  | Ok (a : A)
  | Fail
  | Stuck.
Arguments Ok {A} a.
Arguments Fail {A}.
Arguments Stuck {A}.

(** A state-passing computation; the state survives a failure, as the
    object's fields do in C++. *)
Definition M (St A : Type) : Type := St -> res A * St.

#[export] Instance M_ret St : MRet (M St) := fun A a s => (Ok a, s).

#[export] Instance M_fmap St : FMap (M St) := fun A B f m s =>
  match m s with
  | (Ok a, s') => (Ok (f a), s')
  | (Fail, s') => (Fail, s')
  | (Stuck, s') => (Stuck, s')
  end.

#[export] Instance M_bind St : MBind (M St) := fun A B f m s =>
  match m s with
  | (Ok a, s') => f a s'
  | (Fail, s') => (Fail, s')
  | (Stuck, s') => (Stuck, s')
  end.

Definition mfail {St A} : M St A := fun s => (Fail, s).
Definition mstuck {St A} : M St A := fun s => (Stuck, s).
Definition mget {St} : M St St := fun s => (Ok s, s).
Definition mput {St} (s : St) : M St unit := fun _ => (Ok tt, s).
Definition mmodify {St} (f : St -> St) : M St unit := fun s => (Ok tt, f s).

(** An access whose bounds the C code does not check. *)
Definition massert {St} (b : bool) : M St unit := fun s => if b then (Ok tt, s) else (Stuck, s).

(** [for (i = 0; i < n; ++i) body(i)]. *)
Fixpoint mfor {St} (n : nat) (i : nat) (body : nat -> M St unit) : M St unit :=
  match n with
  | O => mret tt
  | S n' => body i ;; mfor n' (S i) body
  end.

Section MonadLaws.
Context {St A B C : Type}.

Lemma M_left_id (a : A) (f : A -> M St B) s : (mret a ≫= f) s = f a s.
Proof. done. Qed.

Lemma M_right_id (m : M St A) s : (m ≫= mret) s = m s.
Proof. unfold mbind, M_bind. by destruct (m s) as [[]]. Qed.

Lemma M_assoc (m : M St A) (f : A -> M St B) (g : B -> M St C) s :
  ((m ≫= f) ≫= g) s = (m ≫= (fun a => f a ≫= g)) s.
Proof. unfold mbind, M_bind. by destruct (m s) as [[]]. Qed.

Lemma M_bind_ok (m : M St A) (f : A -> M St B) s a s' :
  m s = (Ok a, s') -> (m ≫= f) s = f a s'.
Proof. intros E. unfold mbind, M_bind. by rewrite E. Qed.

Lemma M_bind_fail (m : M St A) (f : A -> M St B) s s' :
  m s = (Fail, s') -> (m ≫= f) s = (Fail, s').
Proof. intros E. unfold mbind, M_bind. by rewrite E. Qed.

Lemma M_bind_stuck (m : M St A) (f : A -> M St B) s s' :
  m s = (Stuck, s') -> (m ≫= f) s = (Stuck, s').
Proof. intros E. unfold mbind, M_bind. by rewrite E. Qed.

Lemma M_bind_inv (m : M St A) (f : A -> M St B) s b s' :
  (m ≫= f) s = (Ok b, s') -> exists a s1, m s = (Ok a, s1) /\ f a s1 = (Ok b, s').
Proof.
  unfold mbind, M_bind. destruct (m s) as [[a| |] s1] eqn:E; naive_solver.
Qed.
End MonadLaws.

(** Inverts a successful run of a sequence of computations. *)
Ltac m_inv :=
  repeat match goal with
  | H : (_ ≫= _) _ = (Ok _, _) |- _ =>
      let a := fresh "a" in let s := fresh "s" in let E := fresh "E" in
      apply M_bind_inv in H as (a & s & E & H)
  | H : mret _ _ = (_, _) |- _ => injection H as; subst
  | H : (Ok _, _) = (Ok _, _) |- _ => injection H as; subst
  | H : (Fail, _) = (Ok _, _) |- _ => discriminate H
  | H : (Stuck, _) = (Ok _, _) |- _ => discriminate H
  end.

(** ** Computations that always complete *)

Create HintDb completes.

Section Completes.
Context {St : Type}.

(** [m] completes in every state, and takes it to a related one. *)
Definition always (R : St -> St -> Prop) {A} (m : M St A) : Prop :=
  forall s, exists a s', m s = (Ok a, s') /\ R s s'.

(** [m] completes in every state where [I] holds, and [I] holds afterwards. *)
Definition completes (I : St -> Prop) (R : St -> St -> Prop) {A} (m : M St A) : Prop :=
  forall s, I s -> exists a s', m s = (Ok a, s') /\ I s' /\ R s s'.

Context (I : St -> Prop) (R : St -> St -> Prop) `{!PreOrder R}.

Lemma always_bind {A B} (m : M St A) (f : A -> M St B) : always R m -> (forall a, always R (f a)) -> always R (m ≫= f).
Proof.
  intros Hm Hf s. destruct (Hm s) as (a & s1 & E1 & H1). destruct (Hf a s1) as (b & s2 & E2 & H2).
  exists b, s2. rewrite (M_bind_ok _ _ _ _ _ E1). split; [done|by etrans].
Qed.

Lemma always_ret {A} (a : A) : always R (mret a).
Proof. intros s. by exists a, s. Qed.

Lemma always_get : always R mget.
Proof. intros s. by exists s, s. Qed.

Lemma always_modify f : (forall s, R s (f s)) -> always R (mmodify f).
Proof. intros H s. by exists tt, (f s). Qed.

Lemma completes_bind {A B} (m : M St A) (f : A -> M St B) :
  completes I R m -> (forall a, completes I R (f a)) -> completes I R (m ≫= f).
Proof.
  intros Hm Hf s Hs. destruct (Hm s Hs) as (a & s1 & E1 & I1 & H1). destruct (Hf a s1 I1) as (b & s2 & E2 & I2 & H2).
  exists b, s2. rewrite (M_bind_ok _ _ _ _ _ E1). split; [done|]. split; [done|by etrans].
Qed.

Lemma completes_ret {A} (a : A) : completes I R (mret a).
Proof. intros s Hs. by exists a, s. Qed.

(** Reading the state: the rest may use that it is the state. *)
Lemma completes_get {A} (f : St -> M St A) :
  (forall s, I s -> exists a s', f s s = (Ok a, s') /\ I s' /\ R s s') -> completes I R (mget ≫= f).
Proof. intros Hf s Hs. exact (Hf s Hs). Qed.

Lemma completes_modify f : (forall s, I s -> I (f s) /\ R s (f s)) -> completes I R (mmodify f).
Proof. intros H s Hs. destruct (H s Hs). by exists tt, (f s). Qed.

Lemma always_completes (Q : St -> St -> Prop) {A} (m : M St A) : always Q m ->
  (forall s s', Q s s' -> I s -> I s' /\ R s s') -> completes I R m.
Proof. intros Hm HQ s Hs. destruct (Hm s) as (a & s' & E & H). exists a, s'. split; [done|]. by destruct (HQ s s'). Qed.

End Completes.

(** Takes a computation apart; its calls are looked up among the hints. *)
Ltac always_steps := repeat first
  [ solve [auto with completes]
  | apply always_ret; exact _
  | apply always_get; exact _
  | apply always_bind; [exact _| |intros]
  | apply always_modify; intros; solve [done | by split_and!]
  | match goal with |- always _ (match ?x with _ => _ end) => destruct x end ].

(** ** Lists *)

Definition zlen {A} (l : list A) : Z := Z.of_nat (length l).

Definition ztake {A} (n : Z) (l : list A) : list A := take (Z.to_nat n) l.
Definition zdrop {A} (n : Z) (l : list A) : list A := drop (Z.to_nat n) l.

Lemma zlen_app {A} (l k : list A) : zlen (l ++ k) = zlen l + zlen k.
Proof. unfold zlen. rewrite length_app. lia. Qed.

Lemma zlen_cons {A} (x : A) l : zlen (x :: l) = 1 + zlen l.
Proof. unfold zlen. cbn [length]. lia. Qed.

Lemma zlen_nil {A} : zlen (@nil A) = 0.
Proof. done. Qed.

Lemma zlen_nonneg {A} (l : list A) : 0 <= zlen l.
Proof. unfold zlen. lia. Qed.

Lemma zlen_be n v : zlen (be_bytes n v) = Z.of_nat n.
Proof. unfold zlen. by rewrite be_bytes_length. Qed.

Lemma ztake_app {A} (l k : list A) : ztake (zlen l) (l ++ k) = l.
Proof. unfold ztake, zlen. rewrite Nat2Z.id. by rewrite take_app_length. Qed.

Lemma zdrop_app {A} (l k : list A) : zdrop (zlen l) (l ++ k) = k.
Proof. unfold zdrop, zlen. rewrite Nat2Z.id. by rewrite drop_app_length. Qed.

Lemma ztake_drop {A} n (l : list A) : ztake n l ++ zdrop n l = l.
Proof. apply take_drop. Qed.

Lemma zdrop_0 {A} (l : list A) : zdrop 0 l = l.
Proof. done. Qed.

Lemma ztake_zlen {A} (l : list A) : ztake (zlen l) l = l.
Proof. unfold ztake, zlen. rewrite Nat2Z.id. by rewrite firstn_all. Qed.

Lemma zlen_ztake {A} n (l : list A) : 0 <= n <= zlen l -> zlen (ztake n l) = n.
Proof. unfold ztake, zlen. intros. rewrite length_take. lia. Qed.

Lemma zlen_zdrop {A} n (l : list A) : 0 <= n <= zlen l -> zlen (zdrop n l) = zlen l - n.
Proof. unfold zdrop, zlen. intros. rewrite length_drop. lia. Qed.

#[export] Hint Rewrite @zlen_app @zlen_cons @zlen_nil zlen_be : lens.

(** Overwriting [bs] at offset [off] of a buffer; [None] when it does not fit
    ([memcpy] into a fixed buffer). *)
Definition store {A} (buf : list A) (off : Z) (bs : list A) : option (list A) :=
  if (0 <=? off) && (off + zlen bs <=? zlen buf)
  then Some (ztake off buf ++ bs ++ zdrop (off + zlen bs) buf)
  else None.

(** Reading [n] elements at offset [off]. *)
Definition load {A} (buf : list A) (off n : Z) : option (list A) :=
  if (0 <=? off) && (0 <=? n) && (off + n <=? zlen buf)
  then Some (ztake n (zdrop off buf))
  else None.

Lemma store_ok {A} (pre mid post bs : list A) off :
  off = zlen pre -> zlen mid = zlen bs ->
  store (pre ++ mid ++ post) off bs = Some (pre ++ bs ++ post).
Proof.
  intros -> Hm. unfold store.
  pose proof (zlen_nonneg pre). pose proof (zlen_nonneg post).
  rewrite (proj2 (Z.leb_le _ _)), (proj2 (Z.leb_le _ _)) by (rewrite ?zlen_app; lia).
  cbn [andb]. rewrite ztake_app. do 3 f_equal.
  rewrite <- Hm, <- zlen_app, app_assoc. apply zdrop_app.
Qed.

Lemma load_ok {A} (pre mid post : list A) off n :
  off = zlen pre -> n = zlen mid -> load (pre ++ mid ++ post) off n = Some mid.
Proof.
  intros -> ->. unfold load.
  pose proof (zlen_nonneg pre). pose proof (zlen_nonneg mid). pose proof (zlen_nonneg post).
  rewrite !(proj2 (Z.leb_le _ _)) by (rewrite ?zlen_app; lia).
  cbn [andb]. rewrite zdrop_app. by rewrite ztake_app.
Qed.

Lemma load_0 {A} (buf : list A) off :
  0 <= off <= zlen buf -> load buf off 0 = Some [].
Proof.
  intros. unfold load. rewrite !(proj2 (Z.leb_le _ _)) by lia. done.
Qed.

Lemma store_length {A} (buf buf' : list A) off bs :
  store buf off bs = Some buf' -> zlen buf' = zlen buf.
Proof.
  unfold store. pose proof (zlen_nonneg bs).
  destruct (_ && _) eqn:E; [|done].
  apply andb_true_iff in E as [E1%Z.leb_le E2%Z.leb_le].
  intros [= <-]. rewrite !zlen_app, zlen_ztake, zlen_zdrop by lia. lia.
Qed.

Lemma load_length {A} (buf : list A) off n bs : load buf off n = Some bs -> zlen bs = n.
Proof.
  unfold load. destruct (_ && _) eqn:E; [|done].
  rewrite !andb_true_iff, !Z.leb_le in E. intros [= <-].
  rewrite zlen_ztake; [done|]. rewrite zlen_zdrop; lia.
Qed.

(** Splitting a buffer at two offsets. *)
Lemma split3 {A} (l : list A) a n :
  0 <= a -> 0 <= n -> a + n <= zlen l ->
  exists pre mid post, l = pre ++ mid ++ post /\ zlen pre = a /\ zlen mid = n.
Proof.
  intros. exists (ztake a l), (ztake n (zdrop a l)), (zdrop n (zdrop a l)).
  rewrite !ztake_drop. split; [done|].
  rewrite !zlen_ztake by (rewrite ?zlen_zdrop by lia; lia). done.
Qed.
