(* ===== verification/Stream.v ===== *)
(** * The binary stream of [mininet-webrtc/razor/cf_stream.c]

    A growable buffer with a read and a write cursor.  Pointers into the buffer
    are offsets, [NULL] is no offset; an access outside the buffer is [Stuck].
    The abstract view is a byte queue: [content] is what has been written since
    the last rewind, [pending] what is left to read; [writes] and [reads] are
    the specifications the codecs of [SimProto] are proved against. *)

From S2P Require Import Prelude.

(** ** Platform: byte order of the machine and the C allocator *)

Class Platform := {
  (** the machine stores the most significant byte first *)
  host_big : bool;
  (** [malloc]: [None] when it returns NULL; the contents are unspecified *)
  malloc : Z -> option (list Z);
  (** [realloc] of a live buffer; the code never checks its result, and a NULL
      result is not modelled *)
  realloc : list Z -> Z -> list Z;
}.

Class PlatformOk (P : Platform) : Prop := {
  malloc_ok : forall n d, 0 <= n -> malloc n = Some d -> zlen d = n /\ bytes_ok d;
  realloc_len : forall d n, 0 <= n -> zlen (realloc d n) = n;
  realloc_bytes : forall d n, bytes_ok d -> bytes_ok (realloc d n);
  realloc_prefix : forall d n k, 0 <= k <= zlen d -> k <= n ->
    ztake k (realloc d n) = ztake k d;
}.

(** The object representation of an [n]-byte unsigned integer. *)
Definition host_bytes `{Platform} (n : nat) (v : Z) : list Z :=
  if host_big then be_bytes n v else le_bytes n v.

Definition host_val `{Platform} (bs : list Z) : Z :=
  if host_big then be_val bs else le_val bs.

Definition MAX_BIN_SIZE : Z := 10485760 * 10.
Definition READ_DATA_ERROR : Z := 0xffff.
Definition MAX_MTU_SIZE : Z := 1476.
Definition DEFAULT_PACKET_SIZE : Z := 1024.
Definition BIN_STREAM_MAGIC : Z := 0x019ef8f09867cda6.
Definition NULL : Z := -1.

Record bin_stream_t := mkStream {
  data : list Z;
  size : Z;
  rptr : Z;
  rsize : Z;
  wptr : Z;
  used : Z;
  magic : Z;
}.

Section Operations.
Context `{P : Platform}.

(** The static [big_endian]: -1 until the first [bin_stream_init]. *)
Definition init_big_endian (be : Z) : Z :=
  if be =? -1 then
    match host_bytes 2 0x0100 with
    | 0x01 :: _ => 1
    | _ => 0
    end
  else be.

Definition bin_stream_init (old : bin_stream_t) : Z * bin_stream_t :=
  let size := DEFAULT_PACKET_SIZE in
  match malloc size with
  | None => (-1, mkStream [] size (rptr old) (rsize old) (wptr old) (used old) (magic old))
  | Some d => (0, mkStream d size 0 0 0 0 0)
  end.

Definition bin_stream_destroy (s : bin_stream_t) : bin_stream_t :=
  mkStream [] 0 NULL 0 NULL 0 (magic s).

Definition bin_stream_rewind (s : bin_stream_t) (reset : Z) : bin_stream_t :=
  let s := if reset =? 1 then mkStream (data s) (size s) (rptr s) (rsize s) 0 0 (magic s) else s in
  mkStream (data s) (size s) 0 0 (wptr s) (used s) (magic s).

Definition bin_stream_reduce (s : bin_stream_t) : bin_stream_t :=
  if DEFAULT_PACKET_SIZE * 2 <? size s
  then mkStream (realloc (data s) DEFAULT_PACKET_SIZE) DEFAULT_PACKET_SIZE 0 0 0 0 (magic s)
  else s.

Definition bin_stream_reset (s : bin_stream_t) (flag : Z) : bin_stream_t :=
  let m := if flag =? 1 then BIN_STREAM_MAGIC else 0 in
  let s := mkStream (data s) (size s) (rptr s) (rsize s) (wptr s) (used s) m in
  bin_stream_reduce (bin_stream_rewind s 1).

Definition bin_stream_check (s : bin_stream_t) : Z :=
  if magic s =? BIN_STREAM_MAGIC then 0 else -1.

(** [assert] aborts when it fails. *)
Definition bin_stream_available_read : M bin_stream_t Z := fun s =>
  if rsize s <=? used s then (Ok (s32 (u64 (used s - rsize s))), s) else (Stuck, s).

(** [while (new_size > alloc_size) alloc_size = alloc_size * 2;] *)
Fixpoint grow (fuel : nat) (alloc new_size : Z) : option Z :=
  if alloc <? new_size then
    match fuel with
    | O => None
    | S f => grow f (u64 (alloc * 2)) new_size
    end
  else Some alloc.

Definition bin_stream_resize (new_size : Z) : M bin_stream_t unit := fun s =>
  if new_size <=? size s then (Ok tt, s)
  else match grow 64 (size s) new_size with
       | None => (Stuck, s)
       | Some a => (Ok tt, mkStream (realloc (data s) a) a (rsize s) (rsize s) (used s) (used s) (magic s))
       end.

Definition bin_stream_set_used_size (s : bin_stream_t) (n : Z) : bin_stream_t :=
  mkStream (data s) (size s) (rptr s) (rsize s) (wptr s) n (magic s).

Definition bin_stream_move : M bin_stream_t unit := fun s =>
  let s := if (used s =? rsize s) && (0 <? rsize s)
           then mkStream (data s) (size s) 0 0 0 0 (magic s) else s in
  if (rsize s <? used s) && (size s / 2 <? rsize s) && (size s <=? u64 (used s + 256)) then
    let n := u32 (used s - rsize s) in
    match load (data s) (rptr s) n with
    | None => (Stuck, s)
    | Some bs =>
        match store (data s) 0 bs with
        | None => (Stuck, s)
        | Some d => (Ok tt, mkStream d (size s) 0 0 n n (magic s))
        end
    end
  else (Ok tt, s).

(** The macro [RESIZE(s)]. *)
Definition RESIZE (n : Z) : M bin_stream_t unit := fun s =>
  if size s <? u64 (used s + n) then bin_stream_resize (u64 (used s + n)) s else (Ok tt, s).

(** Storing at the write cursor and advancing it, [wptr += n; used += n]. *)
Definition put (bs : list Z) : M bin_stream_t unit := fun s =>
  match store (data s) (wptr s) bs with
  | None => (Stuck, s)
  | Some d => (Ok tt, mkStream d (size s) (rptr s) (rsize s)
                        (wptr s + zlen bs) (u64 (used s + zlen bs)) (magic s))
  end.

(** Loading at the read cursor and advancing it, [rptr += n; rsize += n]. *)
Definition get (n : Z) : M bin_stream_t (list Z) := fun s =>
  match load (data s) (rptr s) n with
  | None => (Stuck, s)
  | Some bs => (Ok bs, mkStream (data s) (size s) (rptr s + n) (u64 (rsize s + n))
                         (wptr s) (used s) (magic s))
  end.

(** [if (used < rsize + n) *val = 0; else *val = ...]. *)
Definition read_or_zero (n : Z) (conv : list Z -> Z) : M bin_stream_t Z := fun s =>
  if used s <? u64 (rsize s + n) then (Ok 0, s)
  else (bs ← get n; mret (conv bs)) s.

Section ByteOrder.
Variable big_endian : Z.

Definition mach_put_2 (val : Z) : list Z :=
  if negb (big_endian =? 0) then host_bytes 2 val
  else [u8 (Z.shiftr val 8); u8 val].

Definition mach_get_2 (bs : list Z) : Z :=
  if negb (big_endian =? 0) then host_val bs
  else u16 (Z.shiftl (bs !!! 0%nat) 8 + bs !!! 1%nat).

Definition mach_put_4 (val : Z) : list Z :=
  if negb (big_endian =? 0) then host_bytes 4 val
  else [u8 (Z.shiftr val 24); u8 (Z.shiftr val 16); u8 (Z.shiftr val 8); u8 val].

Definition mach_get_4 (bs : list Z) : Z :=
  if negb (big_endian =? 0) then host_val bs
  else u32 (Z.shiftl (bs !!! 0%nat) 24 + Z.shiftl (bs !!! 1%nat) 16
            + Z.shiftl (bs !!! 2%nat) 8 + bs !!! 3%nat).

Definition mach_put_8 (val : Z) : list Z :=
  if negb (big_endian =? 0) then host_bytes 8 val
  else [u8 (Z.shiftr val 56); u8 (Z.shiftr val 48); u8 (Z.shiftr val 40);
        u8 (Z.shiftr val 32); u8 (Z.shiftr val 24); u8 (Z.shiftr val 16);
        u8 (Z.shiftr val 8); u8 val].

Definition mach_get_8 (bs : list Z) : Z :=
  if negb (big_endian =? 0) then host_val bs
  else u64 (Z.shiftl (bs !!! 0%nat) 56 + Z.shiftl (bs !!! 1%nat) 48
            + Z.shiftl (bs !!! 2%nat) 40 + Z.shiftl (bs !!! 3%nat) 32
            + Z.shiftl (bs !!! 4%nat) 24 + Z.shiftl (bs !!! 5%nat) 16
            + Z.shiftl (bs !!! 6%nat) 8 + bs !!! 7%nat).

Definition mach_uint8_write (val : Z) : M bin_stream_t unit := RESIZE 1 ;; put [val].
Definition mach_uint8_read : M bin_stream_t Z := read_or_zero 1 (fun bs => bs !!! 0%nat).

Definition mach_int8_write (val : Z) : M bin_stream_t unit := RESIZE 1 ;; put [u8 val].
Definition mach_int8_read : M bin_stream_t Z := read_or_zero 1 (fun bs => s8 (bs !!! 0%nat)).

Definition mach_uint16_write (val : Z) : M bin_stream_t unit := RESIZE 2 ;; put (mach_put_2 val).
Definition mach_uint16_read : M bin_stream_t Z :=
  read_or_zero 2 (fun bs => u16 (s16 (mach_get_2 bs))).

Definition mach_int16_write (val : Z) : M bin_stream_t unit :=
  RESIZE 2 ;; put (mach_put_2 (u16 val)).
Definition mach_int16_read : M bin_stream_t Z := read_or_zero 2 (fun bs => s16 (mach_get_2 bs)).

Definition mach_uint32_write (val : Z) : M bin_stream_t unit := RESIZE 4 ;; put (mach_put_4 val).
Definition mach_uint32_read : M bin_stream_t Z := read_or_zero 4 mach_get_4.

Definition mach_int32_write (val : Z) : M bin_stream_t unit :=
  RESIZE 4 ;; put (mach_put_4 (u32 val)).
Definition mach_int32_read : M bin_stream_t Z := read_or_zero 4 (fun bs => s32 (mach_get_4 bs)).

Definition mach_uint64_write (val : Z) : M bin_stream_t unit := RESIZE 8 ;; put (mach_put_8 val).
Definition mach_uint64_read : M bin_stream_t Z := read_or_zero 8 mach_get_8.

Definition mach_int64_write (val : Z) : M bin_stream_t unit :=
  RESIZE 8 ;; put (mach_put_8 (u64 val)).
Definition mach_int64_read : M bin_stream_t Z := read_or_zero 8 (fun bs => s64 (mach_get_8 bs)).

(** [memcpy(strm->wptr, str, size)]: [str] has to hold [size] bytes. *)
Definition put_from (str : list Z) (n : Z) : M bin_stream_t unit := fun s =>
  match load str 0 n with
  | None => (Stuck, s)
  | Some bs => put bs s
  end.

Definition mach_data_write (str : list Z) (n : Z) : M bin_stream_t unit :=
  RESIZE (u64 (n + 2)) ;; mach_uint16_write (u16 n) ;; put_from str n.

(** [memcpy(str, strm->rptr, n)] into the caller's buffer [str]. *)
Definition get_into (str : list Z) (n : Z) : M bin_stream_t (list Z) :=
  bs ← get n;
  match store str 0 bs with
  | None => mstuck
  | Some str' => mret str'
  end.

(** Returns the [uint16_t] result and the caller's buffer. *)
Definition mach_data_read (str : list Z) (n : Z) : M bin_stream_t (Z * list Z) :=
  len ← mach_uint16_read;
  s ← mget;
  if (n <? len) || (used s <? u64 (rsize s + len)) then mret (READ_DATA_ERROR, str)
  else str' ← get_into str len; mret (len, str').

Definition mach_block_write (str : list Z) (n : Z) : M bin_stream_t unit :=
  RESIZE n ;; put_from str n.

Definition mach_block_read (str : list Z) (n : Z) : M bin_stream_t (Z * list Z) :=
  s ← mget;
  if used s <? u64 (rsize s + n) then mret (READ_DATA_ERROR, str)
  else str' ← get_into str n; mret (u16 n, str').
End ByteOrder.
End Operations.

(** ** Invariant and abstract view *)

(** The buffer is live and the read cursor is inside what was written. *)
Record readable (s : bin_stream_t) : Prop := {
  wf_len : zlen (data s) = size s;
  wf_bytes : bytes_ok (data s);
  wf_size : 0 < size s < 2 ^ 63;
  wf_read : 0 <= rsize s <= used s;
  wf_used : used s <= size s;
  wf_rptr : rptr s = rsize s;
}.

(** ... and the write cursor is at its end ([bin_stream_set_used_size], used on
    a received datagram, gives only [readable]). *)
Definition wf (s : bin_stream_t) : Prop := readable s /\ wptr s = used s.

Definition content (s : bin_stream_t) : list Z := ztake (used s) (data s).
Definition pending (s : bin_stream_t) : list Z := zdrop (rsize s) (content s).

(** [m] appends [bs] and touches nothing else, as long as the stream stays
    below 2^62 bytes. *)
Definition writes `{P : Platform} (m : M bin_stream_t unit) (bs : list Z) : Prop :=
  forall s, wf s -> used s + zlen bs <= 2 ^ 62 ->
  exists s', m s = (Ok tt, s') /\ wf s' /\
    content s' = content s ++ bs /\ used s' = used s + zlen bs /\
    rsize s' = rsize s /\ magic s' = magic s.

(** On a stream whose unread bytes start with [bs], [m] returns [a] and
    consumes exactly [bs]. *)
Definition reads {A} (m : M bin_stream_t A) (bs : list Z) (a : A) : Prop :=
  forall s rest, readable s -> pending s = bs ++ rest ->
  exists s', m s = (Ok a, s') /\ readable s' /\ pending s' = rest /\
    used s' = used s /\ data s' = data s /\ size s' = size s /\ wptr s' = wptr s.

Section Proofs.
Context `{PO : PlatformOk}.

Lemma host_round n v : host_val (host_bytes n v) = wrap (8 * Z.of_nat n) v.
Proof.
  unfold host_val, host_bytes. destruct host_big; [apply be_val_bytes | apply le_val_bytes].
Qed.

Lemma host_bytes_length n v : length (host_bytes n v) = n.
Proof. unfold host_bytes. destruct host_big; [apply be_bytes_length | apply le_bytes_length]. Qed.

Lemma host_bytes_ok n v : bytes_ok (host_bytes n v).
Proof. unfold host_bytes. destruct host_big; auto with bytes. Qed.

Lemma content_len s : readable s -> zlen (content s) = used s.
Proof. intros []. unfold content. rewrite zlen_ztake; lia. Qed.

Lemma content_split s : readable s ->
  exists tl, data s = content s ++ tl /\ zlen tl = size s - used s.
Proof.
  intros []. exists (zdrop (used s) (data s)). unfold content. rewrite ztake_drop.
  split; [done|]. rewrite zlen_zdrop; lia.
Qed.

Lemma pending_split s : readable s ->
  exists pre, content s = pre ++ pending s /\ zlen pre = rsize s.
Proof.
  intros Hs. pose proof (content_len s Hs). destruct Hs.
  exists (ztake (rsize s) (content s)). unfold pending. rewrite ztake_drop.
  split; [done|]. rewrite zlen_ztake; lia.
Qed.

(** [grow] reaches the requested size by doubling, and stops there. *)
Lemma grow_spec fuel a n :
  0 < a < 2 ^ 63 -> n <= 2 ^ 62 -> n <= a * 2 ^ Z.of_nat fuel ->
  exists k, 0 <= k /\ grow fuel a n = Some (a * 2 ^ k) /\ n <= a * 2 ^ k /\
    a * 2 ^ k < 2 ^ 63 /\ (k = 0 \/ a * 2 ^ (k - 1) < n).
Proof.
  revert a. induction fuel as [|fuel IH]; intros a Ha Hn Hf.
  - exists 0. cbn [grow]. change (2 ^ Z.of_nat 0) with 1 in Hf. change (2 ^ 0) with 1.
    rewrite (proj2 (Z.ltb_ge _ _)) by lia. rewrite Z.mul_1_r. repeat split; auto; lia.
  - cbn [grow]. destruct (Z.ltb_spec a n).
    + assert (u64 (a * 2) = a * 2) as -> by (apply wrap_id; unfold in_u; lia).
      rewrite Nat2Z.inj_succ, Z.pow_succ_r in Hf by lia.
      destruct (IH (a * 2)) as (k & Hk & E & H1 & H2 & H3); [lia|lia|lia|].
      exists (k + 1). rewrite E, Z.add_simpl_r.
      assert (a * 2 * 2 ^ k = a * 2 ^ (k + 1)) as E2
        by (rewrite Z.pow_add_r by lia; ring).
      rewrite <- E2. repeat split; try lia. right.
      destruct (decide (k = 0)) as [->|Hk0]; [change (2 ^ 0) with 1; lia|].
      destruct H3 as [->|H3]; [done|].
      assert (a * 2 * 2 ^ (k - 1) = a * 2 ^ k) as <-; [|done].
      rewrite <- Z.mul_assoc, <- Z.pow_succ_r by lia. do 2 f_equal. lia.
    + exists 0. change (2 ^ 0) with 1. rewrite Z.mul_1_r. repeat split; auto; lia.
Qed.

Lemma RESIZE_ok n s :
  wf s -> 0 <= n -> used s + n <= 2 ^ 62 ->
  exists s', RESIZE n s = (Ok tt, s') /\ wf s' /\ used s + n <= size s' /\
    content s' = content s /\ used s' = used s /\ rsize s' = rsize s /\ magic s' = magic s.
Proof.
  intros [Hs Hw] Hn Hb. pose proof Hs as []. unfold RESIZE.
  rewrite (wrap_id 64) by (unfold in_u; lia).
  destruct (Z.ltb_spec (size s) (used s + n)) as [Hlt|Hge].
  - unfold bin_stream_resize. rewrite (proj2 (Z.leb_gt _ _)) by lia.
    destruct (grow_spec 64 (size s) (used s + n)) as (k & Hk & -> & H1 & H2 & _).
    { lia. } { lia. } { change (2 ^ Z.of_nat 64) with (2 ^ 62 * 4). nia. }
    eexists. split; [reflexivity|]. unfold content; cbn.
    rewrite realloc_prefix by lia.
    repeat split; cbn; try done; try lia.
    + apply realloc_len. lia.
    + by apply realloc_bytes.
  - exists s. repeat split; try done; lia.
Qed.

Lemma put_ok bs s :
  wf s -> bytes_ok bs -> used s + zlen bs <= size s ->
  exists s', put bs s = (Ok tt, s') /\ wf s' /\ content s' = content s ++ bs /\
    used s' = used s + zlen bs /\ rsize s' = rsize s /\ magic s' = magic s /\
    size s' = size s.
Proof.
  intros [Hs Hw] Hbs Hle. pose proof Hs as [].
  destruct (content_split s Hs) as (tl & Hd & Ht).
  pose proof (content_len s Hs) as Hcl. pose proof (zlen_nonneg bs).
  destruct (split3 tl 0 (zlen bs)) as (p0 & mid & post & -> & Hp0 & Hmid); [lia..|].
  assert (p0 = []) as -> by (destruct p0; [done|unfold zlen in Hp0; cbn in Hp0; lia]).
  cbn [app] in *. unfold put. rewrite Hd, (store_ok _ mid) by (rewrite ?Hcl; lia).
  rewrite (wrap_id 64) by (unfold in_u; lia).
  rewrite Hd in wf_len0, wf_bytes0. rewrite !zlen_app in *.
  remember (content s) as c eqn:Hc. clear Hc Hd.
  eexists. split; [reflexivity|]. unfold content; cbn.
  repeat split; cbn; rewrite ?zlen_app; try done; try lia.
  - apply Forall_app in wf_bytes0 as [? [? ?]%Forall_app]. by rewrite !Forall_app.
  - rewrite app_assoc, <- Hcl, <- zlen_app, ztake_app. done.
Qed.

Lemma writes_raw n bs : zlen bs = n -> bytes_ok bs -> writes (RESIZE n ;; put bs) bs.
Proof.
  intros <- Hbs s Hs Hb.
  destruct (RESIZE_ok (zlen bs) s) as (s1 & E1 & Hs1 & Hsz & Hc & Hu & Hr & Hm);
    [done|apply zlen_nonneg|done|].
  destruct (put_ok bs s1) as (s2 & E2 & Hs2 & Hc2 & Hu2 & Hr2 & Hm2 & _); [done..|lia|].
  exists s2. rewrite (M_bind_ok _ _ _ _ _ E1). repeat split; try apply Hs2; try done; congruence || lia.
Qed.

Lemma writes_bind m1 b1 (m2 : M bin_stream_t unit) b2 :
  writes m1 b1 -> writes m2 b2 -> writes (m1 ;; m2) (b1 ++ b2).
Proof.
  intros H1 H2 s Hs Hb. rewrite zlen_app in Hb. pose proof (zlen_nonneg b2).
  destruct (H1 s Hs) as (s1 & E1 & Hs1 & Hc & Hu & Hr & Hm); [lia|].
  destruct (H2 s1 Hs1) as (s2 & E2 & Hs2 & Hc2 & Hu2 & Hr2 & Hm2); [lia|].
  exists s2. rewrite (M_bind_ok _ _ _ _ _ E1), zlen_app.
  repeat split; try apply Hs2; rewrite ?Hc2, ?Hc, ?app_assoc; try done; lia || congruence.
Qed.

Lemma writes_nil : writes (mret tt) [].
Proof.
  intros s Hs _. exists s. rewrite app_nil_r, zlen_nil. repeat split; try apply Hs; lia || done.
Qed.

Lemma get_ok bs s rest :
  readable s -> pending s = bs ++ rest ->
  exists s', get (zlen bs) s = (Ok bs, s') /\ readable s' /\ pending s' = rest /\
    used s' = used s /\ data s' = data s /\ size s' = size s /\ wptr s' = wptr s.
Proof.
  intros Hs Hp. pose proof Hs as [].
  destruct (content_split s Hs) as (tl & Hd & Ht).
  destruct (pending_split s Hs) as (pre & Hc & Hpre). rewrite Hp in Hc.
  pose proof (content_len s Hs) as Hcl. rewrite Hc, !zlen_app in Hcl.
  pose proof (zlen_nonneg rest). pose proof (zlen_nonneg bs).
  unfold get.
  assert (load (data s) (rptr s) (zlen bs) = Some bs) as ->
    by (rewrite Hd, Hc, <- !app_assoc; apply load_ok; lia).
  rewrite (wrap_id 64) by (unfold in_u; lia).
  eexists. split; [reflexivity|]. repeat split; cbn; try done; try lia.
  unfold pending, content. cbn. fold (content s). rewrite Hc.
  rewrite <- Hpre, <- zlen_app, app_assoc. apply zdrop_app.
Qed.

Lemma reads_raw n bs conv : zlen bs = n -> reads (read_or_zero n conv) bs (conv bs).
Proof.
  intros <- s rest Hs Hp. pose proof Hs as [].
  destruct (pending_split s Hs) as (pre & Hc & Hpre). rewrite Hp in Hc.
  pose proof (content_len s Hs) as Hcl. rewrite Hc, !zlen_app in Hcl.
  pose proof (zlen_nonneg rest). pose proof (zlen_nonneg bs).
  unfold read_or_zero. rewrite (wrap_id 64) by (unfold in_u; lia).
  rewrite (proj2 (Z.ltb_ge _ _)) by lia.
  destruct (get_ok bs s rest Hs Hp) as (s' & E & H').
  exists s'. split; [|exact H']. by rewrite (M_bind_ok _ _ _ _ _ E).
Qed.

Lemma reads_bind {A B} (m : M bin_stream_t A) b1 a (k : A -> M bin_stream_t B) b2 b :
  reads m b1 a -> reads (k a) b2 b -> reads (m ≫= k) (b1 ++ b2) b.
Proof.
  intros H1 H2 s rest Hs Hp. rewrite <- app_assoc in Hp.
  destruct (H1 s _ Hs Hp) as (s1 & E1 & Hs1 & Hp1 & ? & ? & ? & ?).
  destruct (H2 s1 _ Hs1 Hp1) as (s2 & E2 & Hs2 & Hp2 & ? & ? & ? & ?).
  exists s2. rewrite (M_bind_ok _ _ _ _ _ E1). repeat split; try apply Hs2; try done; congruence.
Qed.

Lemma reads_ret {A} (a : A) : reads (mret a) [] a.
Proof. intros s rest Hs Hp. exists s. repeat split; try apply Hs; done. Qed.

(** A short stream: nothing is consumed and the value read is 0. *)
Lemma read_short n conv s :
  readable s -> 0 <= n < 2 ^ 62 -> zlen (pending s) < n -> read_or_zero n conv s = (Ok 0, s).
Proof.
  intros Hs Hn Hp. pose proof Hs as [].
  destruct (pending_split s Hs) as (pre & Hc & Hpre).
  pose proof (content_len s Hs) as Hcl. rewrite Hc, !zlen_app in Hcl.
  unfold read_or_zero. rewrite (wrap_id 64) by (unfold in_u; lia).
  by rewrite (proj2 (Z.ltb_lt _ _)) by lia.
Qed.
End Proofs.

(** ** Integers and blocks *)

(** [k]-byte integers as the functions [mach_put_k] / [mach_get_k] store them:
    in network order once [bin_stream_init] has found a little-endian host, in
    the host's own order otherwise. *)
Definition put_uint `{Platform} (big_endian : Z) (k : nat) (v : Z) : list Z :=
  if negb (big_endian =? 0) then host_bytes k v else be_bytes k v.

Definition get_uint `{Platform} (big_endian : Z) (bs : list Z) : Z :=
  if negb (big_endian =? 0) then host_val bs else be_val bs.

(** [m] appends [bs] when the buffer already has room for them. *)
Definition appends (m : M bin_stream_t unit) (bs : list Z) : Prop :=
  forall s, wf s -> used s + zlen bs <= size s -> used s + zlen bs <= 2 ^ 62 ->
  exists s', m s = (Ok tt, s') /\ wf s' /\ content s' = content s ++ bs /\
    used s' = used s + zlen bs /\ rsize s' = rsize s /\ magic s' = magic s /\
    size s' = size s.

Section Codecs.
Context `{PO : PlatformOk}.
Variable be : Z.

Lemma put_uint_ok k v : bytes_ok (put_uint be k v).
Proof. unfold put_uint. case_match; [apply host_bytes_ok | apply be_bytes_ok]. Qed.

Lemma put_uint_len k v : zlen (put_uint be k v) = Z.of_nat k.
Proof.
  unfold put_uint, zlen. case_match; f_equal; [apply host_bytes_length | apply be_bytes_length].
Qed.

Lemma get_put_uint k v : get_uint be (put_uint be k v) = wrap (8 * Z.of_nat k) v.
Proof. unfold get_uint, put_uint. case_match; [apply host_round | apply be_val_bytes]. Qed.

Lemma put_get_uint bs : bytes_ok bs -> put_uint be (length bs) (get_uint be bs) = bs.
Proof.
  intros Hb. unfold get_uint, put_uint, host_val, host_bytes, le_val, le_bytes.
  repeat case_match; try by apply be_bytes_val.
  all: assert (bytes_ok (rev bs)) as Hr by (by apply Forall_rev); apply be_bytes_val in Hr; rewrite length_rev in Hr;
    by rewrite Hr, rev_involutive.
Qed.

Lemma put_uint_wrap k w v : 8 * Z.of_nat k <= w -> put_uint be k (wrap w v) = put_uint be k v.
Proof.
  intros. unfold put_uint, host_bytes, le_bytes. repeat case_match; by rewrite ?be_bytes_wrap.
Qed.

Lemma mach_put_2_eq v : mach_put_2 be v = put_uint be 2 v.
Proof. unfold mach_put_2, put_uint. cbn [be_bytes]. by rewrite Z.shiftr_0_r. Qed.

Lemma mach_put_4_eq v : mach_put_4 be v = put_uint be 4 v.
Proof. unfold mach_put_4, put_uint. cbn [be_bytes]. by rewrite Z.shiftr_0_r. Qed.

Lemma mach_put_8_eq v : mach_put_8 be v = put_uint be 8 v.
Proof. unfold mach_put_8, put_uint. cbn [be_bytes]. by rewrite Z.shiftr_0_r. Qed.

Ltac solve_get :=
  intros Hb Hl; unfold get_uint; case_match; [done|];
  pose proof (be_val_range _ Hb) as Hr; rewrite Hl in Hr;
  repeat (match type of Hb with Forall _ ?l => is_var l; destruct Hb as [|? ? ? Hb] end;
          try discriminate Hl);
  cbn [lookup_total list_lookup_total]; rewrite !Z.shiftl_mul_pow2 by lia;
  unfold be_val in *; cbn [foldl] in *;
  etransitivity; [apply wrap_id|]; [revert Hr; unfold in_u|]; lia.

Lemma mach_get_2_eq bs : bytes_ok bs -> length bs = 2%nat -> mach_get_2 be bs = get_uint be bs.
Proof. unfold mach_get_2. solve_get. Qed.

Lemma mach_get_4_eq bs : bytes_ok bs -> length bs = 4%nat -> mach_get_4 be bs = get_uint be bs.
Proof. unfold mach_get_4. solve_get. Qed.

Lemma mach_get_8_eq bs : bytes_ok bs -> length bs = 8%nat -> mach_get_8 be bs = get_uint be bs.
Proof. unfold mach_get_8. solve_get. Qed.

Lemma put_uint_length k v : length (put_uint be k v) = k.
Proof. pose proof (put_uint_len k v). unfold zlen in *. lia. Qed.

Lemma mach_get_put_2 v : mach_get_2 be (put_uint be 2 v) = u16 v.
Proof. rewrite mach_get_2_eq by auto using put_uint_ok, put_uint_length. apply get_put_uint. Qed.

Lemma mach_get_put_4 v : mach_get_4 be (put_uint be 4 v) = u32 v.
Proof. rewrite mach_get_4_eq by auto using put_uint_ok, put_uint_length. apply get_put_uint. Qed.

Lemma mach_get_put_8 v : mach_get_8 be (put_uint be 8 v) = u64 v.
Proof. rewrite mach_get_8_eq by auto using put_uint_ok, put_uint_length. apply get_put_uint. Qed.

(** *** The typed writers append their encoding, the readers invert it *)

Lemma writes_put_uint k v : writes (RESIZE (Z.of_nat k) ;; put (put_uint be k v)) (put_uint be k v).
Proof. apply writes_raw; [apply put_uint_len | apply put_uint_ok]. Qed.

Lemma writes_u8 v : byte_ok v -> writes (mach_uint8_write v) [v].
Proof. intros. apply writes_raw; [done|]. by constructor. Qed.
Lemma writes_i8 v : writes (mach_int8_write v) [u8 v].
Proof. apply writes_raw; [done|]. constructor; [by apply wrap_range | constructor]. Qed.
Lemma writes_u16 v : writes (mach_uint16_write be v) (put_uint be 2 v).
Proof. unfold mach_uint16_write. rewrite mach_put_2_eq. apply (writes_put_uint 2). Qed.
Lemma writes_i16 v : writes (mach_int16_write be v) (put_uint be 2 v).
Proof.
  unfold mach_int16_write. rewrite mach_put_2_eq, put_uint_wrap by lia. apply (writes_put_uint 2).
Qed.
Lemma writes_u32 v : writes (mach_uint32_write be v) (put_uint be 4 v).
Proof. unfold mach_uint32_write. rewrite mach_put_4_eq. apply (writes_put_uint 4). Qed.
Lemma writes_i32 v : writes (mach_int32_write be v) (put_uint be 4 v).
Proof.
  unfold mach_int32_write. rewrite mach_put_4_eq, put_uint_wrap by lia. apply (writes_put_uint 4).
Qed.
Lemma writes_u64 v : writes (mach_uint64_write be v) (put_uint be 8 v).
Proof. unfold mach_uint64_write. rewrite mach_put_8_eq. apply (writes_put_uint 8). Qed.
Lemma writes_i64 v : writes (mach_int64_write be v) (put_uint be 8 v).
Proof.
  unfold mach_int64_write. rewrite mach_put_8_eq, put_uint_wrap by lia. apply (writes_put_uint 8).
Qed.

Lemma reads_conv n bs conv v :
  zlen bs = n -> conv bs = v -> reads (read_or_zero n conv) bs v.
Proof. intros ? <-. by apply reads_raw. Qed.

Lemma reads_u8 v : reads mach_uint8_read [v] v.
Proof. by apply reads_conv. Qed.
Lemma reads_i8 v : in_s 8 v -> reads mach_int8_read [u8 v] v.
Proof. intros. apply reads_conv; [done|]. cbn. rewrite swrap_wrap by lia. by apply swrap_id. Qed.
Lemma reads_u16 v : in_u 16 v -> reads (mach_uint16_read be) (put_uint be 2 v) v.
Proof.
  intros. apply reads_conv; [apply put_uint_len|]. rewrite mach_get_put_2, swrap_wrap by lia.
  revert H. int_lia.
Qed.
Lemma reads_i16 v : in_s 16 v -> reads (mach_int16_read be) (put_uint be 2 v) v.
Proof.
  intros. apply reads_conv; [apply put_uint_len|]. rewrite mach_get_put_2, swrap_wrap by lia.
  by apply swrap_id.
Qed.
Lemma reads_u32 v : in_u 32 v -> reads (mach_uint32_read be) (put_uint be 4 v) v.
Proof. intros. apply reads_conv; [apply put_uint_len|]. rewrite mach_get_put_4. by apply wrap_id. Qed.
Lemma reads_i32 v : in_s 32 v -> reads (mach_int32_read be) (put_uint be 4 v) v.
Proof.
  intros. apply reads_conv; [apply put_uint_len|]. rewrite mach_get_put_4, swrap_wrap by lia.
  by apply swrap_id.
Qed.
Lemma reads_u64 v : in_u 64 v -> reads (mach_uint64_read be) (put_uint be 8 v) v.
Proof. intros. apply reads_conv; [apply put_uint_len|]. rewrite mach_get_put_8. by apply wrap_id. Qed.
Lemma reads_i64 v : in_s 64 v -> reads (mach_int64_read be) (put_uint be 8 v) v.
Proof.
  intros. apply reads_conv; [apply put_uint_len|]. rewrite mach_get_put_8, swrap_wrap by lia.
  by apply swrap_id.
Qed.

(** *** Length-prefixed data and raw blocks *)

Lemma appends_put bs : bytes_ok bs -> appends (put bs) bs.
Proof. intros Hb s Hs H1 H2. by apply put_ok. Qed.

Lemma appends_put_from bs str n :
  zlen bs = n -> load str 0 n = Some bs -> bytes_ok bs -> appends (put_from str n) bs.
Proof. intros <- Hl Hb s Hs H1 H2. unfold put_from. rewrite Hl. by apply put_ok. Qed.

Lemma appends_resize m bs n : zlen bs = n -> appends m bs -> appends (RESIZE n ;; m) bs.
Proof.
  intros <- Hm s Hs H1 H2. pose proof (zlen_nonneg bs). pose proof Hs as [[] ?].
  assert (RESIZE (zlen bs) s = (Ok tt, s)) as E.
  { unfold RESIZE. rewrite (wrap_id 64) by (unfold in_u; lia).
    by rewrite (proj2 (Z.ltb_ge _ _)) by lia. }
  rewrite (M_bind_ok _ _ _ _ _ E). by apply Hm.
Qed.

Lemma appends_bind m1 b1 (m2 : M bin_stream_t unit) b2 :
  appends m1 b1 -> appends m2 b2 -> appends (m1 ;; m2) (b1 ++ b2).
Proof.
  intros H1 H2 s Hs Hb Hc. rewrite zlen_app in *. pose proof (zlen_nonneg b2).
  destruct (H1 s Hs) as (s1 & E1 & Hs1 & Hc1 & Hu & Hr & Hm & Hz); [lia..|].
  destruct (H2 s1 Hs1) as (s2 & E2 & Hs2 & Hc2 & Hu2 & Hr2 & Hm2 & Hz2); [lia..|].
  exists s2. rewrite (M_bind_ok _ _ _ _ _ E1).
  repeat split; try apply Hs2; rewrite ?Hc2, ?Hc1, ?app_assoc; try done; lia || congruence.
Qed.

Lemma writes_resize m bs n : zlen bs = n -> appends m bs -> writes (RESIZE n ;; m) bs.
Proof.
  intros <- Hm s Hs Hb.
  destruct (RESIZE_ok (zlen bs) s) as (s1 & E1 & Hs1 & Hsz & Hc & Hu & Hr & Hma);
    [done|apply zlen_nonneg|done|].
  destruct (Hm s1) as (s2 & E2 & Hs2 & Hc2 & Hu2 & Hr2 & Hm2 & _); [done|lia..|].
  exists s2. rewrite (M_bind_ok _ _ _ _ _ E1).
  repeat split; try apply Hs2; try done; congruence || lia.
Qed.

Lemma appends_u16 v : appends (mach_uint16_write be v) (put_uint be 2 v).
Proof.
  unfold mach_uint16_write. rewrite mach_put_2_eq.
  apply appends_resize; [apply put_uint_len | apply appends_put, put_uint_ok].
Qed.

Lemma writes_data str n bs :
  zlen bs = n -> load str 0 n = Some bs -> bytes_ok bs ->
  writes (mach_data_write be str n) (put_uint be 2 (u16 n) ++ bs).
Proof.
  intros <- Hl Hb. unfold mach_data_write. pose proof (zlen_nonneg bs).
  intros s Hs Hle. revert s Hs Hle.
  destruct (decide (zlen bs + 2 < 2 ^ 64)) as [Hlt|Hge].
  - rewrite (wrap_id 64) by (unfold in_u; lia). apply writes_resize.
    + rewrite zlen_app, put_uint_len. lia.
    + apply appends_bind; [apply appends_u16 | by apply appends_put_from].
  - intros s [[] _] Hle. rewrite zlen_app, put_uint_len in Hle. lia.
Qed.

Lemma writes_block str n bs :
  zlen bs = n -> load str 0 n = Some bs -> bytes_ok bs -> writes (mach_block_write str n) bs.
Proof. intros <- Hl Hb. apply writes_resize; [done | by apply appends_put_from]. Qed.

Lemma reads_get_into bs str str' :
  store str 0 bs = Some str' -> reads (get_into str (zlen bs)) bs str'.
Proof.
  intros E s rest Hs Hp. destruct (get_ok bs s rest Hs Hp) as (s' & E' & H').
  exists s'. split; [|exact H']. unfold get_into. rewrite (M_bind_ok _ _ _ _ _ E'). by rewrite E.
Qed.

Lemma pending_bound bs rest s : readable s -> pending s = bs ++ rest -> rsize s + zlen bs <= used s.
Proof.
  intros Hs Hp. destruct (pending_split s Hs) as (pre & Hc & Hpre).
  pose proof (content_len s Hs) as Hl. rewrite Hc, Hp, !zlen_app in Hl.
  pose proof (zlen_nonneg rest). lia.
Qed.

Lemma reads_data bs str str' n :
  zlen bs < 65536 -> zlen bs <= n -> store str 0 bs = Some str' ->
  reads (mach_data_read be str n) (put_uint be 2 (zlen bs) ++ bs) (zlen bs, str').
Proof.
  intros Hlt Hle E. pose proof (zlen_nonneg bs). unfold mach_data_read.
  apply (reads_bind _ _ (zlen bs)).
  { apply reads_u16. unfold in_u. lia. }
  intros s rest Hs Hp. pose proof (pending_bound bs rest s Hs Hp) as Hb. pose proof Hs as [].
  assert (mget s = (Ok s, s)) as Eg by done. rewrite (M_bind_ok _ _ _ _ _ Eg).
  rewrite (wrap_id 64) by (unfold in_u; lia).
  rewrite !(proj2 (Z.ltb_ge _ _)) by lia. cbn [orb].
  destruct (reads_get_into bs str str' E s rest Hs Hp) as (s' & E' & H').
  exists s'. split; [|exact H']. by rewrite (M_bind_ok _ _ _ _ _ E').
Qed.

Lemma reads_block bs str str' :
  zlen bs < 65536 -> store str 0 bs = Some str' ->
  reads (mach_block_read str (zlen bs)) bs (zlen bs, str').
Proof.
  intros Hlt E s rest Hs Hp. pose proof (zlen_nonneg bs).
  pose proof (pending_bound bs rest s Hs Hp) as Hb. pose proof Hs as [].
  unfold mach_block_read.
  assert (mget s = (Ok s, s)) as Eg by done. rewrite (M_bind_ok _ _ _ _ _ Eg).
  rewrite (wrap_id 64) by (unfold in_u; lia). rewrite !(proj2 (Z.ltb_ge _ _)) by lia.
  destruct (reads_get_into bs str str' E s rest Hs Hp) as (s' & E' & H').
  exists s'. split; [|exact H']. rewrite (M_bind_ok _ _ _ _ _ E'), (wrap_id 16); [done|].
  unfold in_u. lia.
Qed.
End Codecs.

#[export] Hint Resolve writes_u8 writes_i8 writes_u16 writes_i16 writes_u32 writes_i32
  writes_u64 writes_i64 writes_data writes_block writes_nil writes_bind : wire.
#[export] Hint Resolve reads_u8 reads_i8 reads_u16 reads_i16 reads_u32 reads_i32
  reads_u64 reads_i64 reads_data reads_block reads_ret reads_bind : wire.

(** ** Properties *)

(** A heterogeneous sequence of values, as a message body is. *)
Inductive item :=
  | IU8 (v : Z) | II8 (v : Z) | IU16 (v : Z) | II16 (v : Z)
  | IU32 (v : Z) | II32 (v : Z) | IU64 (v : Z) | II64 (v : Z)
  | IData (bs : list Z) | IBlock (bs : list Z).

Definition item_ok (i : item) : Prop :=
  match i with
  | IU8 v => in_u 8 v | II8 v => in_s 8 v
  | IU16 v => in_u 16 v | II16 v => in_s 16 v
  | IU32 v => in_u 32 v | II32 v => in_s 32 v
  | IU64 v => in_u 64 v | II64 v => in_s 64 v
  | IData bs | IBlock bs => bytes_ok bs /\ zlen bs < 65536
  end.

Definition item_size (i : item) : Z :=
  match i with
  | IU8 _ | II8 _ => 1
  | IU16 _ | II16 _ => 2
  | IU32 _ | II32 _ => 4
  | IU64 _ | II64 _ => 8
  | IData bs => 2 + zlen bs
  | IBlock bs => zlen bs
  end.

Definition items_size (l : list item) : Z := foldr (fun i n => item_size i + n) 0 l.

Section Items.
Context `{P : Platform}.
Variable be : Z.

Definition write_item (i : item) : M bin_stream_t unit :=
  match i with
  | IU8 v => mach_uint8_write v | II8 v => mach_int8_write v
  | IU16 v => mach_uint16_write be v | II16 v => mach_int16_write be v
  | IU32 v => mach_uint32_write be v | II32 v => mach_int32_write be v
  | IU64 v => mach_uint64_write be v | II64 v => mach_int64_write be v
  | IData bs => mach_data_write be bs (zlen bs)
  | IBlock bs => mach_block_write bs (zlen bs)
  end.

(** Reads an item of the same shape; data and blocks go to a buffer of
    exactly that size. *)
Definition read_item (i : item) : M bin_stream_t item :=
  match i with
  | IU8 _ => v ← mach_uint8_read; mret (IU8 v)
  | II8 _ => v ← mach_int8_read; mret (II8 v)
  | IU16 _ => v ← mach_uint16_read be; mret (IU16 v)
  | II16 _ => v ← mach_int16_read be; mret (II16 v)
  | IU32 _ => v ← mach_uint32_read be; mret (IU32 v)
  | II32 _ => v ← mach_int32_read be; mret (II32 v)
  | IU64 _ => v ← mach_uint64_read be; mret (IU64 v)
  | II64 _ => v ← mach_int64_read be; mret (II64 v)
  | IData bs =>
      r ← mach_data_read be (replicate (length bs) 0) (zlen bs); mret (IData (ztake r.1 r.2))
  | IBlock bs =>
      r ← mach_block_read (replicate (length bs) 0) (zlen bs); mret (IBlock (ztake r.1 r.2))
  end.

Definition write_items (l : list item) : M bin_stream_t unit :=
  foldr (fun i m => write_item i ;; m) (mret tt) l.

Definition read_items (l : list item) : M bin_stream_t (list item) :=
  foldr (fun i m => x ← read_item i; xs ← m; mret (x :: xs)) (mret []) l.

Definition item_bytes (i : item) : list Z :=
  match i with
  | IU8 v => [v] | II8 v => [u8 v]
  | IU16 v | II16 v => put_uint be 2 v
  | IU32 v | II32 v => put_uint be 4 v
  | IU64 v | II64 v => put_uint be 8 v
  | IData bs => put_uint be 2 (zlen bs) ++ bs
  | IBlock bs => bs
  end.

Definition items_bytes (l : list item) : list Z := foldr (fun i bs => item_bytes i ++ bs) [] l.
End Items.

Lemma load_all {A} (l : list A) : load l 0 (zlen l) = Some l.
Proof.
  pose proof (load_ok [] l [] 0 (zlen l) eq_refl eq_refl) as H. by rewrite app_nil_r in H.
Qed.

Lemma store_all {A} (l k : list A) : zlen l = zlen k -> store l 0 k = Some k.
Proof.
  intros H. pose proof (store_ok [] l [] k 0 eq_refl H) as H'. by rewrite !app_nil_r in H'.
Qed.

Lemma zlen_replicate {A} n (x : A) : zlen (replicate n x) = Z.of_nat n.
Proof. unfold zlen. by rewrite length_replicate. Qed.

Section ItemProofs.
Context `{PO : PlatformOk}.
Variable be : Z.

Lemma item_bytes_len i : zlen (item_bytes be i) = item_size i.
Proof.
  destruct i; cbn [item_bytes item_size]; rewrite ?zlen_app, ?put_uint_len; done.
Qed.

Lemma items_bytes_len l : zlen (items_bytes be l) = items_size l.
Proof.
  induction l as [|i l IH]; [done|]. cbn. rewrite zlen_app, item_bytes_len.
  unfold items_bytes in IH. by rewrite IH.
Qed.

Lemma write_item_ok i : item_ok i -> writes (write_item be i) (item_bytes be i).
Proof.
  destruct i; cbn [item_ok write_item item_bytes]; intros H; auto with wire.
  - destruct H. pose proof (zlen_nonneg bs).
    rewrite <- (wrap_id 16 (zlen bs)) at 2 by (unfold in_u; lia).
    by apply writes_data, H; [|apply load_all].
  - destruct H. by apply writes_block, H; [|apply load_all].
Qed.

Lemma reads_map {A B} (m : M bin_stream_t A) (f : A -> B) bs a :
  reads m bs a -> reads (x ← m; mret (f x)) bs (f a).
Proof.
  intros H. rewrite <- (app_nil_r bs). eapply reads_bind; [exact H | apply reads_ret].
Qed.

Lemma read_item_ok i : item_ok i -> reads (read_item be i) (item_bytes be i) i.
Proof.
  destruct i; cbn [item_ok read_item item_bytes]; intros H.
  9: { destruct H. rewrite <- (ztake_zlen bs) at 5.
       apply (reads_map _ (fun r => IData (ztake r.1 r.2)) _ (zlen bs, bs)).
       apply reads_data; [done..|]. apply store_all, zlen_replicate. }
  9: { destruct H. rewrite <- (ztake_zlen bs) at 4.
       apply (reads_map _ (fun r => IBlock (ztake r.1 r.2)) _ (zlen bs, bs)).
       apply reads_block; [done..|]. apply store_all, zlen_replicate. }
  all: apply (reads_map _ _); auto with wire.
Qed.

Lemma write_items_ok l : Forall item_ok l -> writes (write_items be l) (items_bytes be l).
Proof.
  induction 1; [apply writes_nil|]. apply writes_bind; [by apply write_item_ok | done].
Qed.

Lemma read_items_ok l : Forall item_ok l -> reads (read_items be l) (items_bytes be l) l.
Proof.
  induction 1 as [|i l Hi Hl IH]; [apply reads_ret|].
  cbn [read_items foldr]. eapply reads_bind; [by apply read_item_ok|].
  by apply (reads_map _ (cons i)).
Qed.

Lemma rewind_readable s : readable s -> wf (bin_stream_rewind s 1).
Proof. intros []. repeat split; cbn; done || lia. Qed.

(** C15: Values written to a rewound stream are read back unchanged and in
    order, for every sequence of 8/16/32/64-bit signed and unsigned integers,
    length-prefixed data and raw blocks, whatever the byte order in force;
    the buffer grows as needed and nothing is left unread. *)
Theorem stream_roundtrip s l :
  readable s -> Forall item_ok l -> items_size l <= 2 ^ 62 ->
  exists s1 s2,
    write_items be l (bin_stream_rewind s 1) = (Ok tt, s1) /\
    read_items be l s1 = (Ok l, s2) /\ pending s2 = [] /\ used s1 = items_size l.
Proof.
  intros Hs Hl Hsz.
  destruct (write_items_ok l Hl (bin_stream_rewind s 1)) as (s1 & E1 & Hs1 & Hc & Hu & Hr & _).
  { by apply rewind_readable. } { by rewrite items_bytes_len. }
  destruct (read_items_ok l Hl s1 []) as (s2 & E2 & _ & Hp2 & _).
  { apply Hs1. }
  { unfold pending. rewrite Hr, Hc, app_nil_r. done. }
  exists s1, s2. rewrite Hu, items_bytes_len. done.
Qed.
End ItemProofs.

(** *** Every operation preserves the invariant *)

Inductive stream_op :=
  | OpWrite (i : item)
  | OpRead8 | OpReadI8 | OpRead16 | OpReadI16 | OpRead32 | OpReadI32 | OpRead64 | OpReadI64
  | OpReadData (cap : nat) | OpReadBlock (cap : nat)
  | OpRewind (reset : Z) | OpReset (flag : Z) | OpReduce | OpMove | OpResize (n : Z)
  | OpAvailable.

Section Invariant.
Context `{PO : PlatformOk}.
Variable be : Z.

Definition run_op (o : stream_op) : M bin_stream_t unit :=
  match o with
  | OpWrite i => write_item be i
  | OpRead8 => mach_uint8_read ;; mret tt
  | OpReadI8 => mach_int8_read ;; mret tt
  | OpRead16 => mach_uint16_read be ;; mret tt
  | OpReadI16 => mach_int16_read be ;; mret tt
  | OpRead32 => mach_uint32_read be ;; mret tt
  | OpReadI32 => mach_int32_read be ;; mret tt
  | OpRead64 => mach_uint64_read be ;; mret tt
  | OpReadI64 => mach_int64_read be ;; mret tt
  | OpReadData cap => mach_data_read be (replicate cap 0) (Z.of_nat cap) ;; mret tt
  | OpReadBlock cap => mach_block_read (replicate cap 0) (Z.of_nat cap) ;; mret tt
  | OpRewind r => mmodify (fun s => bin_stream_rewind s r)
  | OpReset f => mmodify (fun s => bin_stream_reset s f)
  | OpReduce => mmodify bin_stream_reduce
  | OpMove => bin_stream_move
  | OpResize n => bin_stream_resize n
  | OpAvailable => bin_stream_available_read ;; mret tt
  end.

Definition op_ok (o : stream_op) : Prop :=
  match o with
  | OpWrite i => item_ok i
  | OpReadBlock cap | OpReadData cap => Z.of_nat cap < 2 ^ 62
  | OpResize n => n <= 2 ^ 62
  | _ => True
  end.

Definition op_size (o : stream_op) : Z := match o with OpWrite i => item_size i | _ => 0 end.

Definition run_ops (l : list stream_op) : M bin_stream_t unit :=
  foldr (fun o m => run_op o ;; m) (mret tt) l.

Definition ops_size (l : list stream_op) : Z := foldr (fun o n => op_size o + n) 0 l.

(** What an operation guarantees: it returns, and the invariant holds of a
    stream that has grown by at most [n] bytes. *)
Definition safe (m : M bin_stream_t unit) (n : Z) : Prop :=
  forall s, wf s -> used s + n <= 2 ^ 62 ->
  exists s', m s = (Ok tt, s') /\ wf s' /\ used s' <= used s + n.

Lemma safe_get n s : wf s -> 0 <= n -> rsize s + n <= used s ->
  exists bs s', get n s = (Ok bs, s') /\ wf s' /\ used s' = used s /\ zlen bs = n.
Proof.
  intros [Hs Hw] Hn Hle. destruct (pending_split s Hs) as (pre & Hc & Hpre).
  pose proof (content_len s Hs) as Hl. rewrite Hc, zlen_app in Hl.
  destruct (get_ok (ztake n (pending s)) s (zdrop n (pending s)) Hs) as
    (s' & E & Hs' & _ & Hu & _ & _ & Hw'); [by rewrite ztake_drop|].
  rewrite zlen_ztake in E by lia.
  exists (ztake n (pending s)), s'. rewrite zlen_ztake by lia.
  repeat split; try apply Hs'; congruence.
Qed.

Lemma read_or_zero_safe {A} n conv (k : A -> unit) s :
  wf s -> 0 <= n < 2 ^ 62 ->
  exists a s', read_or_zero n conv s = (Ok a, s') /\ wf s' /\ used s' = used s.
Proof.
  intros Hwf Hn. pose proof Hwf as [[] _]. unfold read_or_zero.
  rewrite (wrap_id 64) by (unfold in_u; lia).
  destruct (Z.ltb_spec (used s) (rsize s + n)); [by exists 0, s|].
  destruct (safe_get n s Hwf) as (bs & s' & E & H' & Hu & _); [lia..|].
  exists (conv bs), s'. by rewrite (M_bind_ok _ _ _ _ _ E).
Qed.

Lemma safe_read n conv : 0 <= n < 2 ^ 62 -> safe (read_or_zero n conv ;; mret tt) 0.
Proof.
  intros Hn s Hs Hb. destruct (@read_or_zero_safe unit n conv id s Hs Hn) as (a & s' & E & H' & Hu).
  exists s'. rewrite (M_bind_ok _ _ _ _ _ E). split; [done|]. split; [done|lia].
Qed.

Lemma safe_get_into str n s :
  wf s -> 0 <= n <= zlen str -> rsize s + n <= used s ->
  exists str' s', get_into str n s = (Ok str', s') /\ wf s' /\ used s' = used s.
Proof.
  intros Hs Hn Hle. destruct (safe_get n s Hs) as (bs & s' & E & H' & Hu & Hl); [lia..|].
  destruct (split3 str 0 n) as (p0 & mid & post & -> & Hp0 & Hmid); [lia..|].
  exists (p0 ++ bs ++ post), s'. unfold get_into.
  rewrite (M_bind_ok _ _ _ _ _ E), (store_ok p0 mid) by lia. done.
Qed.

Lemma safe_data_read cap : Z.of_nat cap < 2 ^ 62 ->
  safe (mach_data_read be (replicate cap 0) (Z.of_nat cap) ;; mret tt) 0.
Proof.
  intros Hcap s Hs Hb. unfold mach_data_read.
  destruct (@read_or_zero_safe unit 2 (fun bs => u16 (s16 (mach_get_2 be bs))) id s Hs) as
    (len & s1 & E & Hs1 & Hu); [lia|].
  fold (mach_uint16_read be) in E. rewrite M_assoc, (M_bind_ok _ _ _ _ _ E), M_assoc.
  assert (mget s1 = (Ok s1, s1)) as Eg by done. rewrite (M_bind_ok _ _ _ _ _ Eg).
  assert (0 <= len < 65536) as Hlen.
  { unfold mach_uint16_read, read_or_zero in E. destruct (_ <? _); [injection E as <- _; lia|].
    m_inv. int_lia. }
  pose proof Hs1 as [[] ?].
  rewrite (wrap_id 64) by (unfold in_u; lia).
  destruct (Z.ltb_spec (Z.of_nat cap) len); cbn [orb].
  { exists s1. split; [done|]. split; [done|lia]. }
  destruct (Z.ltb_spec (used s1) (rsize s1 + len)).
  { exists s1. split; [done|]. split; [done|lia]. }
  destruct (safe_get_into (replicate cap 0) len s1) as (str' & s2 & E2 & Hs2 & Hu2);
    [done|rewrite zlen_replicate; lia|lia|].
  exists s2. rewrite M_assoc, (M_bind_ok _ _ _ _ _ E2). split; [done|]. split; [done|lia].
Qed.

Lemma safe_block_read cap : Z.of_nat cap < 2 ^ 62 ->
  safe (mach_block_read (replicate cap 0) (Z.of_nat cap) ;; mret tt) 0.
Proof.
  intros Hcap s Hs Hb. unfold mach_block_read. rewrite M_assoc.
  assert (mget s = (Ok s, s)) as Eg by done. rewrite (M_bind_ok _ _ _ _ _ Eg).
  pose proof Hs as [[] ?]. rewrite (wrap_id 64) by (unfold in_u; lia).
  destruct (Z.ltb_spec (used s) (rsize s + Z.of_nat cap)).
  { exists s. split; [done|]. split; [done|lia]. }
  destruct (safe_get_into (replicate cap 0) (Z.of_nat cap) s) as (str' & s2 & E2 & Hs2 & Hu2);
    [done|rewrite zlen_replicate; lia|lia|].
  exists s2. rewrite M_assoc, (M_bind_ok _ _ _ _ _ E2). split; [done|]. split; [done|lia].
Qed.

Lemma reduce_wf s : wf s -> wf (bin_stream_reduce s) /\ used (bin_stream_reduce s) <= used s.
Proof.
  intros Hs. unfold bin_stream_reduce. case_match; [|split; [done|lia]].
  pose proof Hs as [[] ?]. repeat split; cbn; try done; try lia.
  - by apply realloc_len.
  - by apply realloc_bytes.
Qed.

Lemma rewind_wf s r : wf s -> wf (bin_stream_rewind s r) /\ used (bin_stream_rewind s r) <= used s.
Proof.
  intros Hs. pose proof Hs as [[] ?]. unfold bin_stream_rewind.
  case_match; repeat split; cbn; done || lia.
Qed.

Lemma safe_modify f : (forall s, wf s -> wf (f s) /\ used (f s) <= used s) -> safe (mmodify f) 0.
Proof.
  intros H s Hs Hb. exists (f s). destruct (H s Hs). split; [done|]. split; [done|lia].
Qed.

Lemma safe_resize n : n <= 2 ^ 62 -> safe (bin_stream_resize n) 0.
Proof.
  intros Hn s Hs Hb. unfold bin_stream_resize.
  destruct (Z.leb_spec n (size s)); [exists s; repeat split; try apply Hs; lia|].
  pose proof Hs as [[] ?].
  destruct (grow_spec 64 (size s) n) as (k & Hk & -> & H1 & H2 & _);
    [lia|lia|change (2 ^ Z.of_nat 64) with (2 ^ 62 * 4); nia|].
  eexists. split; [done|]. cbn. repeat split; cbn; try done; try lia.
  - apply realloc_len. lia.
  - by apply realloc_bytes.
Qed.

Lemma safe_move : safe bin_stream_move 0.
Proof.
  intros s Hs Hb. unfold bin_stream_move.
  set (s1 := if (used s =? rsize s) && (0 <? rsize s) then _ else s).
  assert (wf s1 /\ used s1 <= used s) as [Hs1 Hu].
  { subst s1. case_match; [|split; [done|lia]].
    pose proof Hs as [[] ?]. repeat split; cbn; done || lia. }
  clearbody s1. pose proof Hs1 as [[] ?].
  destruct ((rsize s1 <? used s1) && _ && _) eqn:E; [|exists s1; repeat split; done || lia].
  rewrite !andb_true_iff, !Z.ltb_lt in E. destruct E as [[E1 E2] E3].
  assert (u32 (used s1 - rsize s1) <= used s1 - rsize s1) as Hn by (apply Z.mod_le; lia).
  pose proof (wrap_range 32 (used s1 - rsize s1)) as Hr. unfold in_u in Hr.
  set (n := u32 (used s1 - rsize s1)) in *.
  destruct (split3 (data s1) (rptr s1) n) as (pre & mid & post & Hd & Hpre & Hmid); [lia..|].
  rewrite Hd, load_ok by lia.
  destruct (split3 (pre ++ mid ++ post) 0 n) as (p0 & m0 & t0 & Hd0 & Hp0 & Hm0);
    [lia|lia|rewrite <- Hd; lia|].
  rewrite Hd0, (store_ok p0 m0) by lia.
  eexists. split; [done|].
  assert (bytes_ok mid) as Hbm by (rewrite Hd, !Forall_app in wf_bytes0; apply wf_bytes0).
  rewrite Hd0 in Hd. rewrite Hd in wf_len0, wf_bytes0. rewrite !zlen_app in wf_len0.
  rewrite !Forall_app in wf_bytes0. destruct wf_bytes0 as (? & ? & ?).
  repeat split; cbn; rewrite ?zlen_app; try done; try lia.
  by rewrite !Forall_app.
Qed.

Lemma run_op_safe o : op_ok o -> safe (run_op o) (op_size o).
Proof.
  destruct o; cbn [op_ok run_op op_size]; intros H; try (apply safe_read; lia).
  - intros s Hs Hb. rewrite <- (item_bytes_len be) in Hb.
    destruct (write_item_ok be i H s Hs Hb) as (s' & E & Hs' & _ & Hu & _).
    exists s'. rewrite item_bytes_len in Hu. split; [done|]. split; [done|lia].
  - by apply safe_data_read.
  - by apply safe_block_read.
  - apply safe_modify. intros. by apply rewind_wf.
  - apply safe_modify. intros s Hs. unfold bin_stream_reset.
    set (s0 := mkStream _ _ _ _ _ _ _).
    assert (wf s0) as Hs0 by (pose proof Hs as [[] ?]; repeat split; cbn; done || lia).
    destruct (rewind_wf s0 1 Hs0) as [Hs1 Hu1].
    destruct (reduce_wf (bin_stream_rewind s0 1) Hs1) as [? ?].
    split; [done|]. change (used s0) with (used s) in Hu1. lia.
  - apply safe_modify, reduce_wf.
  - apply safe_move.
  - by apply safe_resize.
  - intros s Hs Hb. pose proof Hs as [[] ?]. unfold bin_stream_available_read, mbind, M_bind.
    rewrite (proj2 (Z.leb_le _ _)) by lia. exists s. split; [done|]. split; [done|lia].
Qed.

Lemma ops_size_nonneg l : 0 <= ops_size l.
Proof.
  induction l as [|o l IH]; [done|]. change (ops_size (o :: l)) with (op_size o + ops_size l).
  assert (0 <= op_size o); [|lia].
  destruct o as [[]| | | | | | | | | | | | | | | |]; cbn; try lia; pose proof (zlen_nonneg bs); lia.
Qed.

(** C31: No sequence of stream operations ever accesses memory outside the
    buffer or loops: starting from a freshly initialised stream, any mix of
    writes, reads (into buffers of any size), rewinds, resets, reductions,
    moves and resizes runs to completion and keeps the cursors inside the
    buffer, as long as at most 2^62 bytes are written. *)
Theorem stream_ops_safe old l s0 :
  bin_stream_init old = (0, s0) -> Forall op_ok l -> ops_size l <= 2 ^ 62 ->
  exists s', run_ops l s0 = (Ok tt, s') /\ wf s'.
Proof.
  intros Hi Hl Hsz.
  assert (wf s0 /\ used s0 = 0) as [Hs0 Hu0].
  { unfold bin_stream_init in Hi. destruct (malloc DEFAULT_PACKET_SIZE) as [d|] eqn:E; [|done].
    injection Hi as <-. apply malloc_ok in E as [Hd Hb]; [|done].
    repeat split; cbn; try done; unfold DEFAULT_PACKET_SIZE; lia. }
  assert (used s0 + ops_size l <= 2 ^ 62) as Hb by lia.
  clear Hi Hu0 Hsz old. revert s0 Hs0 Hb.
  induction Hl as [|o l Ho Hl IH]; intros s Hs Hb; [by exists s|].
  cbn [run_ops ops_size foldr] in *.
  pose proof (ops_size_nonneg l). unfold ops_size in *.
  destruct (run_op_safe o Ho s Hs) as (s1 & E1 & Hs1 & Hu1); [lia|].
  rewrite (M_bind_ok _ _ _ _ _ E1). apply IH; [done|lia].
Qed.
End Invariant.

Section Behaviour.
Context `{PO : PlatformOk}.

(** [mach_data_read] on every branch.  A declared length that exceeds the
    caller's buffer or the unread bytes yields [READ_DATA_ERROR], consumes
    just the two length bytes and leaves the caller's buffer alone; otherwise
    exactly that many bytes are copied; with fewer than two unread bytes the
    result is 0 and nothing is consumed. *)
Theorem data_read_branches be str n s :
  readable s -> 0 <= n <= zlen str -> n < 2 ^ 62 ->
  (zlen (pending s) < 2 -> mach_data_read be str n s = (Ok (0, str), s)) /\
  (forall len rest, in_u 16 len -> pending s = put_uint be 2 len ++ rest ->
    exists s', readable s' /\
      if (n <? len) || (zlen rest <? len)
      then mach_data_read be str n s = (Ok (READ_DATA_ERROR, str), s') /\ pending s' = rest
      else mach_data_read be str n s = (Ok (len, ztake len rest ++ zdrop len str), s') /\
           pending s' = zdrop len rest).
Proof.
  intros Hs Hn Hn2. pose proof Hs as []. split.
  - intros Hp. unfold mach_data_read, mach_uint16_read.
    pose proof (read_short 2 (fun bs => u16 (s16 (mach_get_2 be bs))) s Hs) as E.
    rewrite (M_bind_ok _ _ _ _ _ (E ltac:(lia) Hp)).
    assert (mget s = (Ok s, s)) as Eg by done. rewrite (M_bind_ok _ _ _ _ _ Eg).
    rewrite (wrap_id 64) by (unfold in_u; lia). rewrite !(proj2 (Z.ltb_ge _ _)) by lia.
    cbn [orb]. unfold get_into, mbind, M_bind, get.
    pose proof (load_0 (data s) (rptr s)) as El. rewrite El by lia.
    pose proof (store_ok [] [] str [] 0 eq_refl eq_refl) as Es. cbn [app] in Es. rewrite Es.
    cbn. rewrite !Z.add_0_r, (wrap_id 64) by (unfold in_u; lia). by destruct s.
  - intros len rest Hlen Hp.
    destruct (reads_u16 be len Hlen s rest Hs Hp) as (s1 & E1 & Hs1 & Hp1 & Hu & _).
    unfold mach_data_read. rewrite (M_bind_ok _ _ _ _ _ E1).
    assert (mget s1 = (Ok s1, s1)) as Eg by done. rewrite (M_bind_ok _ _ _ _ _ Eg).
    pose proof Hs1 as []. unfold in_u in Hlen. rewrite (wrap_id 64) by (unfold in_u; lia).
    destruct (pending_split s1 Hs1) as (pre & Hc & Hpre).
    pose proof (content_len s1 Hs1) as Hl. rewrite Hc, Hp1, zlen_app in Hl.
    replace (used s1 <? rsize s1 + len) with (zlen rest <? len)
      by (destruct (Z.ltb_spec (used s1) (rsize s1 + len)), (Z.ltb_spec (zlen rest) len); lia).
    destruct ((n <? len) || (zlen rest <? len)) eqn:E.
    { by exists s1. }
    apply orb_false_iff in E as [E2%Z.ltb_ge E3%Z.ltb_ge].
    destruct (split3 str 0 len) as (p0 & mid & post & -> & Hp0 & Hmid); [lia..|].
    destruct p0; [|rewrite zlen_cons in Hp0; pose proof (zlen_nonneg p0); lia].
    destruct (reads_get_into (ztake len rest) ([] ++ mid ++ post) ([] ++ ztake len rest ++ post))
      with (s := s1) (rest := zdrop len rest) as (s2 & E' & Hs2 & Hp2 & _).
    { apply store_ok; [done|]. rewrite zlen_ztake; lia. } { done. } { by rewrite ztake_drop. }
    rewrite zlen_ztake in E' by lia.
    exists s2. split; [done|]. split; [|done]. rewrite (M_bind_ok _ _ _ _ _ E').
    cbn [app]. assert (zdrop len (mid ++ post) = post) as -> by (rewrite <- Hmid; apply zdrop_app).
    done.
Qed.

(** After [bin_stream_init] the integers on the wire are in network byte
    order, on little-endian and on big-endian machines alike (the static
    flag starts at -1). *)
Theorem network_order_after_init v :
  let be := init_big_endian (-1) in
  mach_put_2 be v = be_bytes 2 v /\ mach_put_4 be v = be_bytes 4 v /\
  mach_put_8 be v = be_bytes 8 v.
Proof.
  cbn zeta. rewrite mach_put_2_eq, mach_put_4_eq, mach_put_8_eq.
  unfold put_uint, init_big_endian, host_bytes. by destruct host_big.
Qed.

(** Compacting the buffer keeps the unread bytes, for a backlog under
    4 GiB (the size is computed in 32 bits). *)
Theorem move_keeps_pending s :
  wf s -> used s - rsize s < 2 ^ 32 ->
  exists s', bin_stream_move s = (Ok tt, s') /\ wf s' /\ pending s' = pending s.
Proof.
  intros Hs Hlt. unfold bin_stream_move.
  set (s1 := if (used s =? rsize s) && (0 <? rsize s) then _ else s).
  assert (wf s1 /\ pending s1 = pending s /\ used s1 - rsize s1 < 2 ^ 32) as (Hs1 & Hp & Hlt1).
  { subst s1. case_match eqn:E; [|done]. apply andb_true_iff in E as [E%Z.eqb_eq _].
    pose proof Hs as [Hr ?]. pose proof Hr as []. split; [repeat split; cbn; done || lia|].
    split; [|cbn; lia].
    destruct (pending_split s Hr) as (pre & Hc & Hpre).
    pose proof (content_len s Hr) as Hl. rewrite Hc, zlen_app in Hl.
    destruct (pending s) as [|x l]; [done|]. rewrite zlen_cons in Hl. pose proof (zlen_nonneg l). lia. }
  clearbody s1. clear Hlt. pose proof Hs1 as [Hr1 ?]. pose proof Hr1 as [].
  destruct ((rsize s1 <? used s1) && _ && _) eqn:E; [|by exists s1].
  rewrite !andb_true_iff, !Z.ltb_lt in E. destruct E as [[E1 E2] E3].
  rewrite (wrap_id 32) by (unfold in_u; lia).
  destruct (content_split s1 Hr1) as (tl & Hd & Htl).
  destruct (pending_split s1 Hr1) as (pre & Hc & Hpre).
  pose proof (content_len s1 Hr1) as Hl. rewrite Hc, zlen_app in Hl.
  assert (load (data s1) (rptr s1) (used s1 - rsize s1) = Some (pending s1)) as ->.
  { rewrite Hd, Hc, <- app_assoc. apply load_ok; lia. }
  destruct (split3 (data s1) 0 (used s1 - rsize s1)) as (p0 & m0 & t0 & Hd0 & Hp0 & Hm0); [lia..|].
  destruct p0; [|rewrite zlen_cons in Hp0; pose proof (zlen_nonneg p0); lia].
  rewrite Hd0, (store_ok [] m0) by (done || lia). cbn [app] in *.
  eexists. split; [done|].
  assert (bytes_ok (pending s1)) as Hbp.
  { rewrite Hd, Hc, !Forall_app in wf_bytes0. apply wf_bytes0. }
  rewrite Hd0 in wf_len0, wf_bytes0. rewrite zlen_app in wf_len0. rewrite Forall_app in wf_bytes0.
  split; [repeat split; cbn; rewrite ?zlen_app, ?Forall_app; try done; try lia; naive_solver|].
  rewrite <- Hp. unfold pending at 1, content. cbn.
  replace (used s1 - rsize s1) with (zlen (pending s1)) by lia. by rewrite ztake_app.
Qed.
End Behaviour.

(** ** A concrete platform, for the witnesses *)

Definition le_platform : Platform := {|
  host_big := false;
  malloc n := Some (replicate (Z.to_nat n) 0);
  realloc d n := ztake n (d ++ replicate (Z.to_nat n) 0);
|}.

Lemma zeros_ok n : bytes_ok (replicate n 0).
Proof. apply Forall_replicate. unfold in_u. lia. Qed.

#[export] Instance le_platform_ok : PlatformOk le_platform.
Proof.
  split; cbn.
  - intros n d Hn [= <-]. rewrite zlen_replicate. split; [lia | apply zeros_ok].
  - intros d n Hn. rewrite zlen_ztake; [done|]. rewrite zlen_app, zlen_replicate.
    pose proof (zlen_nonneg d). lia.
  - intros d n Hd. unfold ztake. apply Forall_take, Forall_app; split; [done | apply zeros_ok].
  - intros d n k Hk Hkn. unfold ztake, zlen in *. rewrite take_take, take_app_le by lia.
    f_equal. lia.
Qed.

(** A freshly initialised stream. *)
Definition fresh_stream : bin_stream_t := mkStream (replicate 1024 0) 1024 0 0 0 0 0.

Lemma fresh_stream_wf : wf fresh_stream.
Proof.
  split; [|done]. split; cbn -[replicate]; try lia; try done.
  apply zeros_ok.
Qed.

Lemma stream_roundtrip_witness :
  exists s1 s2,
    write_items (P := le_platform) 0 [IU8 7; II16 (-2); IData [1; 2; 3]; IU64 (2 ^ 63)]
      (bin_stream_rewind fresh_stream 1) = (Ok tt, s1) /\
    read_items (P := le_platform) 0 [IU8 7; II16 (-2); IData [1; 2; 3]; IU64 (2 ^ 63)] s1 =
      (Ok [IU8 7; II16 (-2); IData [1; 2; 3]; IU64 (2 ^ 63)], s2) /\
    pending s2 = [] /\ used s1 = 16.
Proof.
  apply (stream_roundtrip 0 fresh_stream [IU8 7; II16 (-2); IData [1; 2; 3]; IU64 (2 ^ 63)]).
  - apply fresh_stream_wf.
  - repeat constructor; cbn; unfold in_u, in_s; lia.
  - cbn. unfold zlen. cbn. lia.
Defined.

Lemma stream_ops_safe_witness :
  exists s', run_ops (P := le_platform) 0
      [OpWrite (IU32 5); OpRead16; OpReadData 3; OpMove; OpReset 1; OpRead64] fresh_stream
      = (Ok tt, s') /\ wf s'.
Proof.
  apply (stream_ops_safe (P := le_platform) 0 fresh_stream).
  - reflexivity.
  - repeat constructor; cbn; unfold in_u; lia.
  - cbn. lia.
Defined.

Lemma data_read_branches_witness :
  forall (P := le_platform),
  (zlen (pending fresh_stream) < 2 ->
     mach_data_read 0 [9; 9] 2 fresh_stream = (Ok (0, [9; 9]), fresh_stream)) /\
  (forall len rest, in_u 16 len -> pending fresh_stream = put_uint 0 2 len ++ rest ->
      exists s', readable s' /\
        if (2 <? len) || (zlen rest <? len)
        then mach_data_read 0 [9; 9] 2 fresh_stream = (Ok (READ_DATA_ERROR, [9; 9]), s') /\ pending s' = rest
        else mach_data_read 0 [9; 9] 2 fresh_stream = (Ok (len, ztake len rest ++ zdrop len [9; 9]), s') /\
             pending s' = zdrop len rest).
Proof.
  intros P. apply (data_read_branches 0 [9; 9] 2 fresh_stream).
  - apply fresh_stream_wf.
  - unfold zlen. cbn. lia.
  - lia.
Defined.

Lemma move_keeps_pending_witness :
  exists s', bin_stream_move fresh_stream = (Ok tt, s') /\ wf s' /\ pending s' = pending fresh_stream.
Proof. apply (move_keeps_pending fresh_stream); [apply fresh_stream_wf | cbn; lia]. Defined.
