(* ===== verification/Crc32.v ===== *)
(** * The checksum of [mininet-webrtc/razor/cf_crc32.c]

    The table, the table-driven loop, its equality with the bit-serial shift
    register of the reflected polynomial [0xedb88320], and the detection of
    burst errors. *)

From S2P Require Import Prelude.

Definition crc32_tab : list Z :=
  [0x00000000; 0x77073096; 0xee0e612c; 0x990951ba; 0x076dc419; 0x706af48f; 0xe963a535; 0x9e6495a3;
   0x0edb8832; 0x79dcb8a4; 0xe0d5e91e; 0x97d2d988; 0x09b64c2b; 0x7eb17cbd; 0xe7b82d07; 0x90bf1d91;
   0x1db71064; 0x6ab020f2; 0xf3b97148; 0x84be41de; 0x1adad47d; 0x6ddde4eb; 0xf4d4b551; 0x83d385c7;
   0x136c9856; 0x646ba8c0; 0xfd62f97a; 0x8a65c9ec; 0x14015c4f; 0x63066cd9; 0xfa0f3d63; 0x8d080df5;
   0x3b6e20c8; 0x4c69105e; 0xd56041e4; 0xa2677172; 0x3c03e4d1; 0x4b04d447; 0xd20d85fd; 0xa50ab56b;
   0x35b5a8fa; 0x42b2986c; 0xdbbbc9d6; 0xacbcf940; 0x32d86ce3; 0x45df5c75; 0xdcd60dcf; 0xabd13d59;
   0x26d930ac; 0x51de003a; 0xc8d75180; 0xbfd06116; 0x21b4f4b5; 0x56b3c423; 0xcfba9599; 0xb8bda50f;
   0x2802b89e; 0x5f058808; 0xc60cd9b2; 0xb10be924; 0x2f6f7c87; 0x58684c11; 0xc1611dab; 0xb6662d3d;
   0x76dc4190; 0x01db7106; 0x98d220bc; 0xefd5102a; 0x71b18589; 0x06b6b51f; 0x9fbfe4a5; 0xe8b8d433;
   0x7807c9a2; 0x0f00f934; 0x9609a88e; 0xe10e9818; 0x7f6a0dbb; 0x086d3d2d; 0x91646c97; 0xe6635c01;
   0x6b6b51f4; 0x1c6c6162; 0x856530d8; 0xf262004e; 0x6c0695ed; 0x1b01a57b; 0x8208f4c1; 0xf50fc457;
   0x65b0d9c6; 0x12b7e950; 0x8bbeb8ea; 0xfcb9887c; 0x62dd1ddf; 0x15da2d49; 0x8cd37cf3; 0xfbd44c65;
   0x4db26158; 0x3ab551ce; 0xa3bc0074; 0xd4bb30e2; 0x4adfa541; 0x3dd895d7; 0xa4d1c46d; 0xd3d6f4fb;
   0x4369e96a; 0x346ed9fc; 0xad678846; 0xda60b8d0; 0x44042d73; 0x33031de5; 0xaa0a4c5f; 0xdd0d7cc9;
   0x5005713c; 0x270241aa; 0xbe0b1010; 0xc90c2086; 0x5768b525; 0x206f85b3; 0xb966d409; 0xce61e49f;
   0x5edef90e; 0x29d9c998; 0xb0d09822; 0xc7d7a8b4; 0x59b33d17; 0x2eb40d81; 0xb7bd5c3b; 0xc0ba6cad;
   0xedb88320; 0x9abfb3b6; 0x03b6e20c; 0x74b1d29a; 0xead54739; 0x9dd277af; 0x04db2615; 0x73dc1683;
   0xe3630b12; 0x94643b84; 0x0d6d6a3e; 0x7a6a5aa8; 0xe40ecf0b; 0x9309ff9d; 0x0a00ae27; 0x7d079eb1;
   0xf00f9344; 0x8708a3d2; 0x1e01f268; 0x6906c2fe; 0xf762575d; 0x806567cb; 0x196c3671; 0x6e6b06e7;
   0xfed41b76; 0x89d32be0; 0x10da7a5a; 0x67dd4acc; 0xf9b9df6f; 0x8ebeeff9; 0x17b7be43; 0x60b08ed5;
   0xd6d6a3e8; 0xa1d1937e; 0x38d8c2c4; 0x4fdff252; 0xd1bb67f1; 0xa6bc5767; 0x3fb506dd; 0x48b2364b;
   0xd80d2bda; 0xaf0a1b4c; 0x36034af6; 0x41047a60; 0xdf60efc3; 0xa867df55; 0x316e8eef; 0x4669be79;
   0xcb61b38c; 0xbc66831a; 0x256fd2a0; 0x5268e236; 0xcc0c7795; 0xbb0b4703; 0x220216b9; 0x5505262f;
   0xc5ba3bbe; 0xb2bd0b28; 0x2bb45a92; 0x5cb36a04; 0xc2d7ffa7; 0xb5d0cf31; 0x2cd99e8b; 0x5bdeae1d;
   0x9b64c2b0; 0xec63f226; 0x756aa39c; 0x026d930a; 0x9c0906a9; 0xeb0e363f; 0x72076785; 0x05005713;
   0x95bf4a82; 0xe2b87a14; 0x7bb12bae; 0x0cb61b38; 0x92d28e9b; 0xe5d5be0d; 0x7cdcefb7; 0x0bdbdf21;
   0x86d3d2d4; 0xf1d4e242; 0x68ddb3f8; 0x1fda836e; 0x81be16cd; 0xf6b9265b; 0x6fb077e1; 0x18b74777;
   0x88085ae6; 0xff0f6a70; 0x66063bca; 0x11010b5c; 0x8f659eff; 0xf862ae69; 0x616bffd3; 0x166ccf45;
   0xa00ae278; 0xd70dd2ee; 0x4e048354; 0x3903b3c2; 0xa7672661; 0xd06016f7; 0x4969474d; 0x3e6e77db;
   0xaed16a4a; 0xd9d65adc; 0x40df0b66; 0x37d83bf0; 0xa9bcae53; 0xdebb9ec5; 0x47b2cf7f; 0x30b5ffe9;
   0xbdbdf21c; 0xcabac28a; 0x53b39330; 0x24b4a3a6; 0xbad03605; 0xcdd70693; 0x54de5729; 0x23d967bf;
   0xb3667a2e; 0xc4614ab8; 0x5d681b02; 0x2a6f2b94; 0xb40bbe37; 0xc30c8ea1; 0x5a05df1b; 0x2d02ef8d].

(** [crc = crc32_tab[(crc ^ *p++) & 0xFF] ^ (crc >> 8);] *)
Definition crc32_step (crc b : Z) : Z :=
  Z.lxor (crc32_tab !!! Z.to_nat (Z.land (Z.lxor crc b) 0xff)) (Z.shiftr crc 8).

Definition not32 (x : Z) : Z := Z.lxor x (2 ^ 32 - 1).

(** The loop over the bytes [p[0] .. p[size-1]]. *)
Definition crc32_bytes (crc : Z) (bs : list Z) : Z := not32 (foldl crc32_step (not32 crc) bs).

(** The function reads [size] bytes of [buf]; [None] when they are not there. *)
Definition crc32 (crc : Z) (buf : list Z) (size : Z) : option Z :=
  crc32_bytes crc <$> load buf 0 size.

(** ** The reference: one bit at a time *)

Definition crc_poly : Z := 0xedb88320.

Definition lfsr (x : Z) : Z :=
  if Z.testbit x 0 then Z.lxor (Z.shiftr x 1) crc_poly else Z.shiftr x 1.

Fixpoint lfsr_n (n : nat) (x : Z) : Z :=
  match n with O => x | S m => lfsr_n m (lfsr x) end.

(** Shifting in the eight bits of a byte, least significant first. *)
Definition crc_feed (x b : Z) : Z := lfsr_n 8 (Z.lxor x b).

Definition crc32_bitwise (crc : Z) (bs : list Z) : Z := not32 (foldl crc_feed (not32 crc) bs).

(** ** The register is linear and injective *)

Lemma in_u_bits w x : 0 <= w -> in_u w x <-> 0 <= x /\ (forall i, w <= i -> Z.testbit x i = false).
Proof.
  intros Hw. split.
  - intros Hx. split; [apply Hx|]. intros i Hi.
    rewrite <- (Z.mod_small x (2 ^ w)) by apply Hx. by apply Z.mod_pow2_bits_high.
  - intros [H0 H]. assert (x mod 2 ^ w = x) as <-; [|apply Z.mod_pos_bound; lia].
    apply Z.bits_inj'. intros i Hi. destruct (decide (i < w)).
    + apply Z.mod_pow2_bits_low. lia.
    + rewrite Z.mod_pow2_bits_high, H by lia. done.
Qed.

Lemma lxor_u w x y : 0 <= w -> in_u w x -> in_u w y -> in_u w (Z.lxor x y).
Proof.
  intros Hw [Hx0 Hx]%in_u_bits [Hy0 Hy]%in_u_bits; [|done..]. apply in_u_bits; [done|].
  split; [by apply Z.lxor_nonneg|]. intros i Hi. by rewrite Z.lxor_spec, Hx, Hy.
Qed.

Lemma shiftr_u w x n : 0 <= n <= w -> in_u w x -> in_u (w - n) (Z.shiftr x n).
Proof.
  intros Hn Hx. unfold in_u in *. rewrite Z.shiftr_div_pow2 by lia.
  assert (0 < 2 ^ n) by (apply Z.pow_pos_nonneg; lia). split.
  - apply Z.div_pos; lia.
  - apply Z.div_lt_upper_bound; [lia|]. rewrite <- Z.pow_add_r by lia.
    replace (n + (w - n)) with w by lia. lia.
Qed.

Lemma in_u_mono w w' x : 0 <= w <= w' -> in_u w x -> in_u w' x.
Proof. intros Hw Hx. assert (2 ^ w <= 2 ^ w') by (apply Z.pow_le_mono_r; lia). unfold in_u in *. lia. Qed.

#[local] Hint Resolve lxor_u : bytes.

Lemma lfsr_u x : in_u 32 x -> in_u 32 (lfsr x).
Proof.
  intros Hx. assert (in_u 32 (Z.shiftr x 1)) by
    (apply (in_u_mono 31); [lia|]; apply (shiftr_u 32); [lia|done]).
  unfold lfsr. case_match; [|done]. by apply lxor_u.
Qed.

Lemma lfsr_lxor x y : lfsr (Z.lxor x y) = Z.lxor (lfsr x) (lfsr y).
Proof.
  unfold lfsr. rewrite Z.lxor_spec, Z.shiftr_lxor.
  destruct (Z.testbit x 0), (Z.testbit y 0); cbn [xorb].
  - rewrite (Z.lxor_comm (Z.shiftr y 1)), Z.lxor_assoc, <- (Z.lxor_assoc crc_poly).
    by rewrite Z.lxor_nilpotent, Z.lxor_0_l.
  - by rewrite !Z.lxor_assoc, (Z.lxor_comm crc_poly).
  - by rewrite !Z.lxor_assoc.
  - done.
Qed.

Lemma lfsr_zero x : in_u 32 x -> lfsr x = 0 -> x = 0.
Proof.
  intros Hx. pose proof (shiftr_u 32 x 1 ltac:(lia) Hx) as Hs. unfold lfsr.
  destruct (Z.testbit x 0) eqn:E; intros H.
  - apply Z.lxor_eq in H. unfold in_u, crc_poly in *. lia.
  - rewrite Z.shiftr_div_pow2 in H by lia. rewrite Z.bit0_odd, <- Z.negb_even in E.
    apply negb_false_iff, Z.even_spec in E as [k ->].
    change (2 ^ 1) with 2 in H. rewrite Z.mul_comm, Z.div_mul in H; lia.
Qed.

Lemma lfsr_n_u n x : in_u 32 x -> in_u 32 (lfsr_n n x).
Proof. revert x. induction n; cbn; intros; auto using lfsr_u. Qed.

Lemma lfsr_n_lxor n x y : lfsr_n n (Z.lxor x y) = Z.lxor (lfsr_n n x) (lfsr_n n y).
Proof. revert x y. induction n as [|n IH]; cbn; intros; [done|]. by rewrite lfsr_lxor, IH. Qed.

Lemma lfsr_n_zero n x : in_u 32 x -> lfsr_n n x = 0 -> x = 0.
Proof.
  revert x. induction n as [|n IH]; cbn; intros x Hx H; [done|].
  apply lfsr_zero; [done|]. apply IH; [by apply lfsr_u | done].
Qed.

Lemma lfsr_n_shift n y : lfsr_n n (Z.shiftl y (Z.of_nat n)) = y.
Proof.
  revert y. induction n as [|n IH]; intros y; [apply Z.shiftl_0_r|].
  cbn [lfsr_n]. unfold lfsr. rewrite Nat2Z.inj_succ, Z.shiftl_spec_low by lia.
  rewrite Z.shiftr_shiftl_l by lia. replace (Z.succ (Z.of_nat n) - 1) with (Z.of_nat n) by lia.
  apply IH.
Qed.

(** The table holds what eight shifts make of each byte. *)
Lemma crc32_tab_spec i : 0 <= i < 256 -> crc32_tab !!! Z.to_nat i = lfsr_n 8 i.
Proof.
  intros Hi.
  assert (forallb (fun n => crc32_tab !!! n =? lfsr_n 8 (Z.of_nat n)) (seq 0 256) = true) as H
    by (vm_compute; reflexivity).
  rewrite forallb_forall in H. specialize (H (Z.to_nat i)).
  rewrite Z2Nat.id in H by lia. apply Z.eqb_eq, H, in_seq. lia.
Qed.

Lemma land_255 x : Z.land x 255 = wrap 8 x.
Proof. change 255 with (Z.ones 8). by apply Z.land_ones. Qed.

Lemma low_high x : x = Z.lxor (Z.land x 255) (Z.shiftl (Z.shiftr x 8) 8).
Proof.
  apply Z.bits_inj'. intros i Hi. rewrite Z.lxor_spec, Z.land_spec, Z.shiftl_spec by lia.
  change 255 with (Z.ones 8). destruct (decide (i < 8)).
  - rewrite Z.ones_spec_low, (Z.testbit_neg_r _ (i - 8)) by lia. by destruct (Z.testbit x i).
  - rewrite Z.ones_spec_high, Z.shiftr_spec by lia. replace (i - 8 + 8) with i by lia.
    by rewrite andb_false_r, xorb_false_l.
Qed.

Lemma crc32_step_feed crc b : byte_ok b -> crc32_step crc b = crc_feed crc b.
Proof.
  intros Hb. unfold crc32_step, crc_feed.
  rewrite crc32_tab_spec by (rewrite land_255; by apply wrap_range).
  assert (Z.shiftr (Z.lxor crc b) 8 = Z.shiftr crc 8) as <-.
  { rewrite Z.shiftr_lxor. rewrite (Z.shiftr_div_pow2 b), (Z.div_small b) by (apply Hb || lia).
    apply Z.lxor_0_r. }
  set (x := Z.lxor crc b). rewrite (low_high x) at 3. rewrite lfsr_n_lxor. f_equal.
  symmetry. apply (lfsr_n_shift 8).
Qed.

Lemma foldl_step_feed bs x : bytes_ok bs -> foldl crc32_step x bs = foldl crc_feed x bs.
Proof.
  intros Hb. revert x. induction Hb as [|b bs Hb _ IH]; intros x; [done|]. cbn [foldl].
  by rewrite crc32_step_feed, IH.
Qed.

(** ** Burst errors *)

Lemma feed_u bs x : in_u 32 x -> bytes_ok bs -> in_u 32 (foldl crc_feed x bs).
Proof.
  intros Hx Hb. revert x Hx. induction Hb as [|b bs Hb _ IH]; intros x Hx; [done|].
  apply IH, lfsr_n_u, lxor_u; [lia|done|]. by apply (in_u_mono 8).
Qed.

Lemma lxor_cancel x y : Z.lxor x y = 0 <-> x = y.
Proof. split; [apply Z.lxor_eq | intros ->; apply Z.lxor_nilpotent]. Qed.

Lemma lfsr_n_inj n x y : in_u 32 x -> in_u 32 y -> lfsr_n n x = lfsr_n n y -> x = y.
Proof.
  intros Hx Hy H. apply lxor_cancel. apply (lfsr_n_zero n); [by apply lxor_u|].
  by rewrite lfsr_n_lxor, H, Z.lxor_nilpotent.
Qed.

Lemma lxor_4 a b c d : Z.lxor (Z.lxor a b) (Z.lxor c d) = Z.lxor (Z.lxor a c) (Z.lxor b d).
Proof. rewrite !Z.lxor_assoc. f_equal. by rewrite <- !Z.lxor_assoc, (Z.lxor_comm b c). Qed.

(** Equal suffixes: a difference in the register never disappears. *)
Lemma feed_inj bs x y : in_u 32 x -> in_u 32 y -> bytes_ok bs ->
  foldl crc_feed x bs = foldl crc_feed y bs -> x = y.
Proof.
  intros Hx Hy Hb. revert x y Hx Hy. induction Hb as [|b bs Hb _ IH]; intros x y Hx Hy H; [done|].
  cbn [foldl] in H. assert (in_u 32 b) by (by apply (in_u_mono 8)).
  apply IH in H; [|apply lfsr_n_u, lxor_u; done || lia..].
  apply lfsr_n_inj in H; [|apply lxor_u; done || lia..].
  apply lxor_cancel in H. rewrite lxor_4, Z.lxor_nilpotent, Z.lxor_0_r in H. by apply lxor_cancel.
Qed.

(** Up to four bytes enter the register as one little-endian word. *)
Fixpoint le_word (bs : list Z) : Z :=
  match bs with [] => 0 | b :: bs => Z.lxor b (Z.shiftl (le_word bs) 8) end.

Lemma feed_word bs x : (length bs <= 4)%nat ->
  foldl crc_feed x bs = lfsr_n (8 * length bs) (Z.lxor x (le_word bs)).
Proof.
  assert (forall n m y, lfsr_n (n + m) y = lfsr_n m (lfsr_n n y)) as Hadd.
  { induction n as [|n IH]; intros m y; [done|]. apply IH. }
  intros _. revert x. induction bs as [|b bs IH]; intros x; [cbn; by rewrite Z.lxor_0_r|].
  cbn [foldl length le_word]. rewrite IH.
  replace (8 * S (length bs))%nat with (8 + 8 * length bs)%nat by lia. rewrite Hadd. f_equal.
  unfold crc_feed. rewrite <- Z.lxor_assoc, (lfsr_n_lxor 8 (Z.lxor x b)). f_equal.
  symmetry. apply (lfsr_n_shift 8).
Qed.

Lemma le_word_inj bs bs' : length bs = length bs' -> bytes_ok bs -> bytes_ok bs' ->
  le_word bs = le_word bs' -> bs = bs'.
Proof.
  intros Hl Hb Hb'. revert bs' Hl Hb'.
  induction Hb as [|b bs Hb _ IH]; intros [|b' bs'] Hl Hb' H; try done.
  inversion Hb' as [|? ? Hb1 Hb2]; subst. cbn [le_word] in H.
  assert (forall c w, byte_ok c -> Z.land (Z.lxor c (Z.shiftl w 8)) 255 = c /\
    Z.shiftr (Z.lxor c (Z.shiftl w 8)) 8 = w) as Hcut.
  { intros c w Hc. split.
    - rewrite land_255. transitivity (wrap 8 c); [|by apply wrap_id]. unfold wrap. rewrite <- !Z.land_ones by lia.
      apply Z.bits_inj'. intros i Hi. rewrite !Z.land_spec, Z.lxor_spec.
      destruct (decide (i < 8)).
      + rewrite Z.shiftl_spec_low, xorb_false_r by lia. done.
      + rewrite Z.ones_spec_high by lia. by rewrite !andb_false_r.
    - rewrite Z.shiftr_lxor, (Z.shiftr_div_pow2 c), (Z.div_small c), Z.lxor_0_l by (apply Hc || lia).
      rewrite Z.shiftr_shiftl_l by lia. apply Z.shiftl_0_r. }
  destruct (Hcut b (le_word bs) Hb) as [E1 E2]. destruct (Hcut b' (le_word bs') Hb1) as [E1' E2'].
  rewrite H in E1, E2. f_equal; [congruence|]. apply IH; [by injection Hl | done | congruence].
Qed.

Lemma le_word_u bs : (length bs <= 4)%nat -> bytes_ok bs -> in_u 32 (le_word bs).
Proof.
  intros Hl Hb. apply (in_u_mono (8 * Z.of_nat (length bs))); [lia|]. clear Hl.
  induction Hb as [|b bs Hb _ IH]; [done|]. cbn [le_word length].
  apply lxor_u; [lia|by apply (in_u_mono 8); [lia|]|].
  rewrite Nat2Z.inj_succ. unfold in_u in *. rewrite Z.shiftl_mul_pow2 by lia.
  replace (8 * Z.succ (Z.of_nat (length bs))) with (8 * Z.of_nat (length bs) + 8) by lia.
  rewrite Z.pow_add_r by lia. lia.
Qed.

Lemma not32_inj x y : not32 x = not32 y -> x = y.
Proof.
  intros H. apply lxor_cancel in H. unfold not32 in H.
  rewrite lxor_4, Z.lxor_nilpotent, Z.lxor_0_r in H. by apply lxor_cancel.
Qed.

Lemma ones32_u : in_u 32 (2 ^ 32 - 1).
Proof. done. Qed.

Lemma crc32_bytes_u crc bs : in_u 32 crc -> bytes_ok bs -> in_u 32 (crc32_bytes crc bs).
Proof.
  intros Hc Hb. unfold crc32_bytes, not32. rewrite foldl_step_feed by done.
  apply lxor_u; [lia| |apply ones32_u]. apply feed_u; [|done]. apply lxor_u; done || lia.
Qed.

Lemma crc_burst crc pre bs bs' post :
  in_u 32 crc -> bytes_ok (pre ++ bs ++ post) -> bytes_ok bs' ->
  length bs' = length bs -> (length bs <= 4)%nat -> bs' <> bs ->
  crc32_bytes crc (pre ++ bs' ++ post) <> crc32_bytes crc (pre ++ bs ++ post).
Proof.
  intros Hc Hall Hbs' Hl Hl4 Hne H. apply Hne.
  rewrite !Forall_app in Hall. destruct Hall as (Hpre & Hbs & Hpost).
  unfold crc32_bytes in H. apply not32_inj in H.
  rewrite !foldl_step_feed, !foldl_app in H by (rewrite ?Forall_app; done).
  assert (in_u 32 (foldl crc_feed (not32 crc) pre)) as Hx
    by (apply feed_u; [apply lxor_u; done || apply ones32_u | done]).
  apply feed_inj in H; [|apply feed_u; done..|done].
  rewrite (feed_word bs'), (feed_word bs), Hl in H by lia.
  apply lfsr_n_inj in H; [|apply lxor_u; [lia|done|by apply le_word_u; [lia|]]..].
  apply le_word_inj; [done..|]. apply lxor_cancel in H.
  rewrite lxor_4, Z.lxor_nilpotent, Z.lxor_0_l in H. by apply lxor_cancel.
Qed.

(** ** Properties *)

(** C40: The table-driven loop computes the bit-serial CRC-32 of the reflected
    polynomial, for every buffer and every starting value. *)
Theorem crc32_correct crc buf size :
  bytes_ok buf -> 0 <= size <= zlen buf ->
  crc32 crc buf size = Some (crc32_bitwise crc (ztake size buf)).
Proof.
  intros Hb Hs. unfold crc32, load. rewrite !(proj2 (Z.leb_le _ _)) by lia.
  unfold crc32_bitwise, crc32_bytes. cbn. rewrite foldl_step_feed; [done|].
  by apply Forall_take.
Qed.

(** Any error confined to four consecutive bytes (so any burst of up to 25
    bits, and any of 32 aligned bits) changes the checksum that [crc32]
    returns for the buffer. *)
Theorem crc32_detects_burst crc pre bs bs' post :
  in_u 32 crc -> bytes_ok (pre ++ bs ++ post) -> bytes_ok bs' ->
  length bs' = length bs -> (length bs <= 4)%nat -> bs' <> bs ->
  crc32 crc (pre ++ bs' ++ post) (zlen (pre ++ bs' ++ post)) <>
    crc32 crc (pre ++ bs ++ post) (zlen (pre ++ bs ++ post)).
Proof.
  intros. unfold crc32, load. rewrite !Z.leb_refl, !(proj2 (Z.leb_le 0 _)) by apply zlen_nonneg.
  cbn [andb fmap option_fmap option_map]. rewrite !zdrop_0, !ztake_zlen. intros [= E].
  revert E. by apply crc_burst.
Qed.

Lemma crc32_correct_witness :
  crc32 0 [49; 50; 51; 52; 53; 54; 55; 56; 57] 9 = Some 0xcbf43926 /\
  crc32 0 [49; 50; 51; 52; 53; 54; 55; 56; 57] 9 =
    Some (crc32_bitwise 0 (ztake 9 [49; 50; 51; 52; 53; 54; 55; 56; 57])).
Proof.
  split; [vm_compute; reflexivity|].
  apply crc32_correct; [|split; vm_compute; discriminate].
  repeat constructor; vm_compute; congruence.
Defined.

Lemma crc32_detects_burst_witness :
  crc32 0x0e3dfc0a ([1; 2] ++ [9; 4] ++ [5]) 5 <> crc32 0x0e3dfc0a ([1; 2] ++ [3; 4] ++ [5]) 5.
Proof.
  apply (crc32_detects_burst 0x0e3dfc0a [1; 2] [3; 4] [9; 4] [5]);
    [split; vm_compute; congruence | | | done | cbn; lia | done];
    repeat constructor; vm_compute; congruence.
Defined.
