(* ===== verification/SimProto.v ===== *)
(** * The messages of [mininet-webrtc/razor/sim_proto.{h,c,inl}]

    Message bodies, their encoders and decoders over the byte stream, the
    header and the trailing checksum.  A [void* body] is a value of the tagged
    union [sim_body]; handing a codec a body of another type is [Stuck].
    [Fail] is the result -1. *)

From S2P Require Import Prelude Stream Crc32.

(** ** Data *)

Definition MIN_MSG_ID : Z := 0x10.
Definition SIM_CONNECT : Z := 0x11.
Definition SIM_CONNECT_ACK : Z := 0x12.
Definition SIM_DISCONNECT : Z := 0x13.
Definition SIM_DISCONNECT_ACK : Z := 0x14.
Definition SIM_PING : Z := 0x15.
Definition SIM_PONG : Z := 0x16.
Definition SIM_SEG : Z := 0x17.
Definition SIM_SEG_ACK : Z := 0x18.
Definition SIM_FEEDBACK : Z := 0x19.
Definition SIM_FIR : Z := 0x1a.
Definition SIM_PAD : Z := 0x1b.
Definition MAX_MSG_ID : Z := 0x1c.

Definition protocol_ver : Z := 0x01.
Definition SIM_HEADER_SIZE : Z := 6.
Definition SIM_VIDEO_SIZE : Z := 1000.
Definition SIM_TOKEN_SIZE : Z := 128.
Definition NACK_NUM : Z := 80.
Definition SIM_FEEDBACK_SIZE : Z := 1000.
Definition SIM_SEGMENT_HEADER_SIZE : Z := SIM_HEADER_SIZE + 24.
Definition PADDING_DATA_SIZE : Z := 500.
Definition U16_MAX : Z := 65535.
Definition U8_MAX : Z := 255.
Definition CRC_VAL : Z := 0x0e3dfc0a.

Record sim_header_t := { ver : Z; mid : Z; uid : Z }.

Definition INIT_SIM_HEADER (msg_id userid : Z) : sim_header_t :=
  {| ver := protocol_ver; mid := msg_id; uid := userid |}.

Record sim_connect_t := { conn_cid : Z; token_size : Z; token : list Z; cc_type : Z }.
Record sim_connect_ack_t := { ack_cid : Z; result : Z }.
Record sim_disconnect_t := { disc_cid : Z }.

Record sim_segment_t := {
  packet_id : Z;
  fid : Z;
  timestamp : Z;
  index : Z;
  total : Z;
  ftype : Z;
  payload_type : Z;
  remb : Z;
  send_ts : Z;
  transport_seq : Z;
  data_size : Z;
  seg_data : list Z;
}.

Record sim_segment_ack_t := {
  base_packet_id : Z;
  acked_packet_id : Z;
  nack_num : Z;
  nack : list Z;
}.

Record sim_ping_t := { ts : Z }.
Record sim_feedback_t := { fb_base_packet_id : Z; feedback_size : Z; feedback : list Z }.
Record sim_fir_t := { fir_seq : Z }.
Record sim_pad_t := { pad_send_ts : Z; pad_transport_seq : Z; pad_data_size : Z; pad_data : list Z }.

Inductive sim_body :=
  | BConnect (b : sim_connect_t)
  | BConnectAck (b : sim_connect_ack_t)
  | BDisconnect (b : sim_disconnect_t)
  | BPing (b : sim_ping_t)
  | BSegment (b : sim_segment_t)
  | BSegmentAck (b : sim_segment_ack_t)
  | BFeedback (b : sim_feedback_t)
  | BFir (b : sim_fir_t)
  | BPad (b : sim_pad_t).

(** ** Codecs *)

Section Codec.
Context `{P : Platform}.
Variable be : Z.

(** The size [mach_data_read] reported, with the error value mapped to 0. *)
Definition size_or_0 (n : Z) : Z := if n =? READ_DATA_ERROR then 0 else n.

Definition sim_connect_encode (b : sim_connect_t) : M bin_stream_t unit :=
  mach_uint32_write be (conn_cid b) ;;
  mach_data_write be (token b) (token_size b) ;;
  mach_int8_write (cc_type b).

Definition sim_connect_decode (b : sim_connect_t) : M bin_stream_t sim_connect_t :=
  cid ← mach_uint32_read be;
  r ← mach_data_read be (token b) SIM_TOKEN_SIZE;
  cc ← mach_int8_read;
  mret {| conn_cid := cid; token_size := size_or_0 r.1; token := r.2; cc_type := u8 cc |}.

Definition sim_connect_ack_encode (b : sim_connect_ack_t) : M bin_stream_t unit :=
  mach_uint32_write be (ack_cid b) ;;
  mach_uint32_write be (result b).

Definition sim_connect_ack_decode (b : sim_connect_ack_t) : M bin_stream_t sim_connect_ack_t :=
  cid ← mach_uint32_read be;
  r ← mach_uint32_read be;
  mret {| ack_cid := cid; result := r |}.

Definition sim_disconnect_encode (b : sim_disconnect_t) : M bin_stream_t unit :=
  mach_uint32_write be (disc_cid b).

Definition sim_disconnect_decode (b : sim_disconnect_t) : M bin_stream_t sim_disconnect_t :=
  cid ← mach_uint32_read be;
  mret {| disc_cid := cid |}.

Definition sim_ping_encode (b : sim_ping_t) : M bin_stream_t unit := mach_int64_write be (ts b).

Definition sim_ping_decode (b : sim_ping_t) : M bin_stream_t sim_ping_t :=
  t ← mach_int64_read be;
  mret {| ts := t |}.

Definition sim_feedbak_encode (b : sim_feedback_t) : M bin_stream_t unit :=
  mach_uint32_write be (fb_base_packet_id b) ;;
  mach_data_write be (feedback b) (feedback_size b).

Definition sim_feedbak_decode (b : sim_feedback_t) : M bin_stream_t sim_feedback_t :=
  id ← mach_uint32_read be;
  r ← mach_data_read be (feedback b) SIM_FEEDBACK_SIZE;
  mret {| fb_base_packet_id := id; feedback_size := size_or_0 r.1; feedback := r.2 |}.

(** The flag byte: bit 0 the frame type, bits 7, 6, 5 the wide forms of
    packet id, frame id and index/total, bit 4 the absence of remb. *)
Definition seg_mask (b : sim_segment_t) : Z :=
  let mask := Z.land (ftype b) 0x01 in
  let mask := if U16_MAX <? packet_id b then Z.lor mask (Z.shiftl 1 7) else mask in
  let mask := if U16_MAX <? fid b then Z.lor mask (Z.shiftl 1 6) else mask in
  let mask := if U8_MAX <? total b then Z.lor mask (Z.shiftl 1 5) else mask in
  if remb b =? 0 then Z.lor mask (Z.shiftl 1 4) else mask.

Definition sim_segment_encode (b : sim_segment_t) : M bin_stream_t unit :=
  mach_uint8_write (seg_mask b) ;;
  mach_uint8_write (payload_type b) ;;
  (if U16_MAX <? packet_id b then mach_uint32_write be (packet_id b)
   else mach_uint16_write be (u16 (packet_id b))) ;;
  (if U16_MAX <? fid b then mach_uint32_write be (fid b)
   else mach_uint16_write be (u16 (fid b))) ;;
  mach_uint32_write be (timestamp b) ;;
  (if U8_MAX <? total b
   then mach_uint16_write be (index b) ;; mach_uint16_write be (total b)
   else mach_uint8_write (u8 (index b)) ;; mach_uint8_write (u8 (total b))) ;;
  mach_uint16_write be (send_ts b) ;;
  mach_uint16_write be (transport_seq b) ;;
  mach_data_write be (seg_data b) (data_size b).

Definition sim_segment_decode (b : sim_segment_t) : M bin_stream_t sim_segment_t :=
  mask ← mach_uint8_read;
  pt ← mach_uint8_read;
  pid ← (if has_bits mask (Z.shiftl 1 7) then mach_uint32_read be else mach_uint16_read be);
  f ← (if has_bits mask (Z.shiftl 1 6) then mach_uint32_read be else mach_uint16_read be);
  stamp ← mach_uint32_read be;
  it ← (if has_bits mask (Z.shiftl 1 5)
        then i ← mach_uint16_read be; t ← mach_uint16_read be; mret (i, t)
        else i ← mach_uint8_read; t ← mach_uint8_read; mret (i, t));
  st ← mach_uint16_read be;
  seq ← mach_uint16_read be;
  r ← mach_data_read be (seg_data b) SIM_VIDEO_SIZE;
  mret {| packet_id := pid; fid := f; timestamp := stamp; index := it.1; total := it.2;
          ftype := Z.land mask 0x01; payload_type := pt;
          remb := if has_bits mask (Z.shiftl 1 4) then 0 else 0xff;
          send_ts := st; transport_seq := seq;
          data_size := size_or_0 r.1; seg_data := r.2 |}.

(** [for (i = 0; i < nack_num; ++i) mach_uint16_write(strm, nack[i]);] *)
Definition sim_segment_ack_encode (b : sim_segment_ack_t) : M bin_stream_t unit :=
  mach_uint32_write be (base_packet_id b) ;;
  mach_uint32_write be (acked_packet_id b) ;;
  mach_uint8_write (nack_num b) ;;
  mfor (Z.to_nat (nack_num b)) 0 (fun i =>
    match nack b !! i with
    | Some v => mach_uint16_write be v
    | None => mstuck
    end).

(** The reading loop, updating the array in place. *)
Fixpoint read_nacks (n i : nat) (arr : list Z) : M bin_stream_t (list Z) :=
  match n with
  | O => mret arr
  | S n' =>
      v ← mach_uint16_read be;
      match arr !! i with
      | Some _ => read_nacks n' (S i) (<[i := v]> arr)
      | None => mstuck
      end
  end.

Definition sim_segment_ack_decode (b : sim_segment_ack_t) : M bin_stream_t sim_segment_ack_t :=
  base ← mach_uint32_read be;
  acked ← mach_uint32_read be;
  n ← mach_uint8_read;
  let n := Z.min n NACK_NUM in
  arr ← read_nacks (Z.to_nat n) 0 (nack b);
  mret {| base_packet_id := base; acked_packet_id := acked; nack_num := n; nack := arr |}.

Definition sim_fir_encode (b : sim_fir_t) : M bin_stream_t unit := mach_uint32_write be (fir_seq b).

Definition sim_fir_decode (b : sim_fir_t) : M bin_stream_t sim_fir_t :=
  v ← mach_uint32_read be;
  mret {| fir_seq := v |}.

Definition sim_pad_encode (b : sim_pad_t) : M bin_stream_t unit :=
  mach_uint32_write be (pad_send_ts b) ;;
  mach_uint16_write be (pad_transport_seq b) ;;
  mach_data_write be (pad_data b) (pad_data_size b).

Definition sim_pad_decode (b : sim_pad_t) : M bin_stream_t sim_pad_t :=
  t ← mach_uint32_read be;
  seq ← mach_uint16_read be;
  r ← mach_data_read be (pad_data b) PADDING_DATA_SIZE;
  mret {| pad_send_ts := t; pad_transport_seq := seq;
          pad_data_size := size_or_0 r.1; pad_data := r.2 |}.

(** ** Header, checksum and dispatch *)

Definition sim_encode_header (h : sim_header_t) : M bin_stream_t unit :=
  mach_uint8_write (ver h) ;;
  mach_uint8_write (mid h) ;;
  mach_uint32_write be (uid h).

(** The checksum is read at [data + used - sizeof(uint32_t)], nothing checks
    that the datagram has four bytes; the size handed to [crc32] is computed
    as a [size_t]. *)
Definition sim_decode_header : M bin_stream_t sim_header_t := fun s =>
  match load (data s) (used s - 4) 4, crc32 CRC_VAL (data s) (u64 (used s - 4)) with
  | Some pos, Some crc =>
      if mach_get_4 be pos =? crc then
        (v ← mach_uint8_read;
         m ← mach_uint8_read;
         u ← mach_uint32_read be;
         mret {| ver := v; mid := m; uid := u |}) s
      else (Fail, s)
  | _, _ => (Stuck, s)
  end.

(** The [switch (header->mid)] of [sim_encode_msg]. *)
Definition sim_encode_body (m : Z) (body : sim_body) : M bin_stream_t unit :=
  if m =? SIM_CONNECT then
    match body with BConnect b => sim_connect_encode b | _ => mstuck end
  else if (m =? SIM_CONNECT_ACK) || (m =? SIM_DISCONNECT_ACK) then
    match body with BConnectAck b => sim_connect_ack_encode b | _ => mstuck end
  else if m =? SIM_DISCONNECT then
    match body with BDisconnect b => sim_disconnect_encode b | _ => mstuck end
  else if (m =? SIM_PING) || (m =? SIM_PONG) then
    match body with BPing b => sim_ping_encode b | _ => mstuck end
  else if m =? SIM_SEG then
    match body with BSegment b => sim_segment_encode b | _ => mstuck end
  else if m =? SIM_SEG_ACK then
    match body with BSegmentAck b => sim_segment_ack_encode b | _ => mstuck end
  else if m =? SIM_FEEDBACK then
    match body with BFeedback b => sim_feedbak_encode b | _ => mstuck end
  else if m =? SIM_FIR then
    match body with BFir b => sim_fir_encode b | _ => mstuck end
  else if m =? SIM_PAD then
    match body with BPad b => sim_pad_encode b | _ => mstuck end
  else mret tt.

Definition sim_encode_msg (h : sim_header_t) (body : sim_body) : M bin_stream_t unit :=
  mmodify (fun s => bin_stream_rewind s 1) ;;
  sim_encode_header h ;;
  sim_encode_body (mid h) body ;;
  s ← mget;
  match crc32 CRC_VAL (data s) (used s) with
  | Some crc => mach_uint32_write be crc
  | None => mstuck
  end.

Definition sim_decode_msg (h : sim_header_t) (body : sim_body) : M bin_stream_t sim_body :=
  let m := mid h in
  if m =? SIM_CONNECT then
    match body with BConnect b => BConnect <$> sim_connect_decode b | _ => mstuck end
  else if (m =? SIM_CONNECT_ACK) || (m =? SIM_DISCONNECT_ACK) then
    match body with BConnectAck b => BConnectAck <$> sim_connect_ack_decode b | _ => mstuck end
  else if m =? SIM_DISCONNECT then
    match body with BDisconnect b => BDisconnect <$> sim_disconnect_decode b | _ => mstuck end
  else if (m =? SIM_PING) || (m =? SIM_PONG) then
    match body with BPing b => BPing <$> sim_ping_decode b | _ => mstuck end
  else if m =? SIM_SEG then
    match body with BSegment b => BSegment <$> sim_segment_decode b | _ => mstuck end
  else if m =? SIM_SEG_ACK then
    match body with BSegmentAck b => BSegmentAck <$> sim_segment_ack_decode b | _ => mstuck end
  else if m =? SIM_FEEDBACK then
    match body with BFeedback b => BFeedback <$> sim_feedbak_decode b | _ => mstuck end
  else if m =? SIM_FIR then
    match body with BFir b => BFir <$> sim_fir_decode b | _ => mstuck end
  else if m =? SIM_PAD then
    match body with BPad b => BPad <$> sim_pad_decode b | _ => mstuck end
  else mfail.

Definition sim_get_msg_name (m : Z) : string :=
  if m =? SIM_CONNECT then "SIM_CONNECT"%string
   else if m =? SIM_CONNECT_ACK then "SIM_CONNECT_ACK"%string
   else if m =? SIM_DISCONNECT then "SIM_DISCONNECT"%string
   else if m =? SIM_DISCONNECT_ACK then "SIM_DISCONNECT_ACK"%string
   else if m =? SIM_PING then "SIM_PING"%string
   else if m =? SIM_PONG then "SIM_PONG"%string
   else if m =? SIM_SEG then "SIM_SEG"%string
   else if m =? SIM_SEG_ACK then "SIM_SEG_ACK"%string
   else if m =? SIM_FEEDBACK then "SIM_FEEDBACK"%string
   else if m =? SIM_FIR then "SIM_FIR"%string
   else if m =? SIM_PAD then "SIM_PAD"%string
   else "unknown message"%string.
End Codec.

(** ** Well-formed bodies *)

(** The array members have their declared sizes. *)
Definition body_shape (b : sim_body) : Prop :=
  match b with
  | BConnect b => zlen (token b) = SIM_TOKEN_SIZE
  | BSegment b => zlen (seg_data b) = SIM_VIDEO_SIZE
  | BSegmentAck b => zlen (nack b) = NACK_NUM
  | BFeedback b => zlen (feedback b) = SIM_FEEDBACK_SIZE
  | BPad b => zlen (pad_data b) = PADDING_DATA_SIZE
  | _ => True
  end.

(** ... and the fields are in the range of their types, the lengths within the
    arrays. *)
Definition body_ok (b : sim_body) : Prop :=
  body_shape b /\
  match b with
  | BConnect b => in_u 32 (conn_cid b) /\ 0 <= token_size b <= SIM_TOKEN_SIZE /\
      bytes_ok (token b) /\ in_u 8 (cc_type b)
  | BConnectAck b => in_u 32 (ack_cid b) /\ in_u 32 (result b)
  | BDisconnect b => in_u 32 (disc_cid b)
  | BPing b => in_s 64 (ts b)
  | BSegment b => in_u 32 (packet_id b) /\ in_u 32 (fid b) /\ in_u 32 (timestamp b) /\
      in_u 16 (index b) /\ in_u 16 (total b) /\ in_u 8 (ftype b) /\ in_u 8 (payload_type b) /\
      in_u 16 (send_ts b) /\ in_u 16 (transport_seq b) /\
      0 <= data_size b <= SIM_VIDEO_SIZE /\ bytes_ok (seg_data b)
  | BSegmentAck b => in_u 32 (base_packet_id b) /\ in_u 32 (acked_packet_id b) /\
      0 <= nack_num b <= NACK_NUM /\ Forall (in_u 16) (nack b)
  | BFeedback b => in_u 32 (fb_base_packet_id b) /\ 0 <= feedback_size b <= SIM_FEEDBACK_SIZE /\
      bytes_ok (feedback b)
  | BFir b => in_u 32 (fir_seq b)
  | BPad b => in_u 32 (pad_send_ts b) /\ in_u 16 (pad_transport_seq b) /\
      0 <= pad_data_size b <= PADDING_DATA_SIZE /\ bytes_ok (pad_data b)
  end.

(** The body type the dispatch expects for a message id. *)
Definition body_matches (m : Z) (b : sim_body) : bool :=
  match b with
  | BConnect _ => m =? SIM_CONNECT
  | BConnectAck _ => (m =? SIM_CONNECT_ACK) || (m =? SIM_DISCONNECT_ACK)
  | BDisconnect _ => m =? SIM_DISCONNECT
  | BPing _ => (m =? SIM_PING) || (m =? SIM_PONG)
  | BSegment _ => m =? SIM_SEG
  | BSegmentAck _ => m =? SIM_SEG_ACK
  | BFeedback _ => m =? SIM_FEEDBACK
  | BFir _ => m =? SIM_FIR
  | BPad _ => m =? SIM_PAD
  end.

(** The first [n] elements of [src] over those of [old]. *)
Definition overwrite (n : Z) (src old : list Z) : list Z := ztake n src ++ zdrop n old.

(** What a receiver that decodes into [old] sees of [b]: the wire keeps one bit
    of the frame type, one of remb, and the low byte of the index of a frame of
    at most 255 parts. *)
Definition received (b old : sim_body) : sim_body :=
  match b, old with
  | BConnect b, BConnect o =>
      BConnect {| conn_cid := conn_cid b; token_size := token_size b;
                  token := overwrite (token_size b) (token b) (token o); cc_type := cc_type b |}
  | BSegment b, BSegment o =>
      BSegment {| packet_id := packet_id b; fid := fid b; timestamp := timestamp b;
                  index := if U8_MAX <? total b then index b else u8 (index b); total := total b;
                  ftype := Z.land (ftype b) 1; payload_type := payload_type b;
                  remb := if remb b =? 0 then 0 else 0xff;
                  send_ts := send_ts b; transport_seq := transport_seq b;
                  data_size := data_size b;
                  seg_data := overwrite (data_size b) (seg_data b) (seg_data o) |}
  | BSegmentAck b, BSegmentAck o =>
      BSegmentAck {| base_packet_id := base_packet_id b; acked_packet_id := acked_packet_id b;
                     nack_num := nack_num b; nack := overwrite (nack_num b) (nack b) (nack o) |}
  | BFeedback b, BFeedback o =>
      BFeedback {| fb_base_packet_id := fb_base_packet_id b; feedback_size := feedback_size b;
                   feedback := overwrite (feedback_size b) (feedback b) (feedback o) |}
  | BPad b, BPad o =>
      BPad {| pad_send_ts := pad_send_ts b; pad_transport_seq := pad_transport_seq b;
              pad_data_size := pad_data_size b;
              pad_data := overwrite (pad_data_size b) (pad_data b) (pad_data o) |}
  | _, _ => b
  end.

(** The bytes a body takes on the wire. *)
Definition wide_size (v : Z) : Z := if U16_MAX <? v then 4 else 2.
Definition index_size (t : Z) : Z := if U8_MAX <? t then 2 + 2 else 1 + 1.

Definition body_size (b : sim_body) : Z :=
  match b with
  | BConnect b => 4 + ((2 + token_size b) + 1)
  | BConnectAck _ => 4 + 4
  | BDisconnect _ => 4
  | BPing _ => 8
  | BSegment b => 1 + (1 + (wide_size (packet_id b) + (wide_size (fid b) + (4 +
      (index_size (total b) + (2 + (2 + (2 + data_size b))))))))
  | BSegmentAck b => 4 + (4 + (1 + 2 * nack_num b))
  | BFeedback b => 4 + (2 + feedback_size b)
  | BFir _ => 4
  | BPad b => 4 + (2 + (2 + pad_data_size b))
  end.

Lemma body_size_range b : body_ok b -> 0 <= body_size b <= 1024.
Proof.
  intros [_ H]. unfold SIM_TOKEN_SIZE, SIM_VIDEO_SIZE, NACK_NUM, SIM_FEEDBACK_SIZE, PADDING_DATA_SIZE in H.
  destruct b; cbn [body_size]; unfold wide_size, index_size; repeat case_match; lia.
Qed.

(** ** An encoder and a decoder that fit *)

Definition codec {A} `{Platform} (k : Z) (enc : M bin_stream_t unit) (dec : M bin_stream_t A)
    (v : A) : Prop :=
  exists bs, zlen bs = k /\ writes enc bs /\ reads dec bs v.

Create HintDb codec.

Section Proofs.
Context `{PO : PlatformOk}.
Variable be : Z.

Lemma codec_bind {A B} k1 k2 e1 (d1 : M bin_stream_t A) a e2 (d2 : A -> M bin_stream_t B) b :
  codec k1 e1 d1 a -> codec k2 e2 (d2 a) b -> codec (k1 + k2) (e1 ;; e2) (d1 ≫= d2) b.
Proof.
  intros (b1 & ? & Hw1 & Hr1) (b2 & ? & Hw2 & Hr2). exists (b1 ++ b2). rewrite zlen_app.
  split; [lia|]. split; [by apply writes_bind | by eapply reads_bind].
Qed.

Lemma codec_map {A B} k e (d : M bin_stream_t A) a (f : A -> B) b :
  codec k e d a -> f a = b -> codec k e (f <$> d) b.
Proof.
  intros (bs & Hk & Hw & Hr) <-. exists bs. split; [done|]. split; [done|].
  by apply (reads_map d f).
Qed.

(** The last field of a body. *)
Lemma codec_last {A B} k e (d : M bin_stream_t A) a (f : A -> B) b :
  codec k e d a -> f a = b -> codec k e (x ← d; mret (f x)) b.
Proof. apply codec_map. Qed.

Lemma codec_u8 v : in_u 8 v -> codec 1 (mach_uint8_write v) mach_uint8_read v.
Proof. intros. exists [v]. split; [done|]. auto with wire. Qed.

Lemma codec_i8 v : codec 1 (mach_int8_write v) mach_int8_read (s8 v).
Proof.
  exists [u8 v]. split; [done|]. split; [auto with wire|].
  apply reads_conv; [done|]. cbn. by rewrite swrap_wrap.
Qed.

Lemma u8_s8 v : in_u 8 v -> u8 (s8 v) = v.
Proof. clear. int_lia. Qed.

Lemma codec_u16 v : in_u 16 v -> codec 2 (mach_uint16_write be v) (mach_uint16_read be) v.
Proof. intros. exists (put_uint be 2 v). rewrite put_uint_len. auto with wire lia. Qed.

Lemma codec_u32 v : in_u 32 v -> codec 4 (mach_uint32_write be v) (mach_uint32_read be) v.
Proof. intros. exists (put_uint be 4 v). rewrite put_uint_len. auto with wire lia. Qed.

Lemma codec_i64 v : in_s 64 v -> codec 8 (mach_int64_write be v) (mach_int64_read be) v.
Proof. intros. exists (put_uint be 8 v). rewrite put_uint_len. auto with wire lia. Qed.

Lemma load_prefix {A} (l : list A) n : 0 <= n <= zlen l -> load l 0 n = Some (ztake n l).
Proof. intros. unfold load. by rewrite !(proj2 (Z.leb_le _ _)) by lia. Qed.

Lemma store_prefix n src old : 0 <= n <= zlen src -> n <= zlen old ->
  store old 0 (ztake n src) = Some (overwrite n src old).
Proof.
  intros. unfold store, overwrite. rewrite zlen_ztake by lia.
  by rewrite !(proj2 (Z.leb_le _ _)) by lia.
Qed.

Lemma codec_data n src cap old :
  0 <= n <= zlen src -> n <= cap < 65535 -> zlen old = cap -> bytes_ok src ->
  codec (2 + n) (mach_data_write be src n) (mach_data_read be old cap) (n, overwrite n src old).
Proof.
  intros Hn Hc Ho Hb. exists (put_uint be 2 n ++ ztake n src).
  assert (zlen (ztake n src) = n) as Hl by (rewrite zlen_ztake; lia).
  assert (bytes_ok (ztake n src)) as Hb' by by apply Forall_take.
  rewrite zlen_app, put_uint_len, Hl. split; [lia|]. split.
  - rewrite <- (wrap_id 16 n) at 2 by (unfold in_u; lia).
    apply writes_data; [done | by apply load_prefix | done].
  - rewrite <- Hl at 1 3. apply reads_data; [lia..|]. apply store_prefix; lia.
Qed.

Lemma size_or_0_id n : n < 65535 -> size_or_0 n = n.
Proof. intros. unfold size_or_0, READ_DATA_ERROR. case_match eqn:E; lia. Qed.

(** Each decoder inverts its encoder. *)

Ltac body_tac :=
  intros [Hsh Hok] Ho; cbn in Hsh, Hok, Ho; destruct_and?;
  unfold SIM_TOKEN_SIZE, SIM_VIDEO_SIZE, NACK_NUM, SIM_FEEDBACK_SIZE, PADDING_DATA_SIZE in *.

Ltac data_tac :=
  eapply codec_last; [apply codec_data; done || lia|];
  cbn; rewrite size_or_0_id by lia.

Lemma codec_connect b o : body_ok (BConnect b) -> body_shape (BConnect o) ->
  codec (body_size (BConnect b)) (sim_connect_encode be b) (BConnect <$> sim_connect_decode be o)
    (received (BConnect b) (BConnect o)).
Proof.
  body_tac. eapply codec_map; [|reflexivity].
  eapply (codec_bind _ _ _ _ (conn_cid b)); [by apply codec_u32|].
  eapply codec_bind; [apply codec_data; done || lia|].
  eapply codec_last; [apply codec_i8|]. cbn. by rewrite size_or_0_id, u8_s8 by (done || lia).
Qed.

Lemma codec_connect_ack b : body_ok (BConnectAck b) -> forall o,
  codec (body_size (BConnectAck b)) (sim_connect_ack_encode be b) (BConnectAck <$> sim_connect_ack_decode be o) (BConnectAck b).
Proof.
  intros [_ [? ?]] o. eapply codec_map; [|reflexivity].
  eapply codec_bind; [by apply codec_u32|].
  eapply codec_last; [by apply codec_u32 | by destruct b].
Qed.

Lemma codec_disconnect b : body_ok (BDisconnect b) -> forall o,
  codec (body_size (BDisconnect b)) (sim_disconnect_encode be b) (BDisconnect <$> sim_disconnect_decode be o) (BDisconnect b).
Proof.
  intros [_ ?] o. eapply codec_map; [|reflexivity].
  eapply codec_last; [by apply codec_u32 | by destruct b].
Qed.

Lemma codec_ping b : body_ok (BPing b) -> forall o,
  codec (body_size (BPing b)) (sim_ping_encode be b) (BPing <$> sim_ping_decode be o) (BPing b).
Proof.
  intros [_ ?] o. eapply codec_map; [|reflexivity].
  eapply codec_last; [by apply codec_i64 | by destruct b].
Qed.

Lemma codec_fir b : body_ok (BFir b) -> forall o,
  codec (body_size (BFir b)) (sim_fir_encode be b) (BFir <$> sim_fir_decode be o) (BFir b).
Proof.
  intros [_ ?] o. eapply codec_map; [|reflexivity].
  eapply codec_last; [by apply codec_u32 | by destruct b].
Qed.

Lemma codec_feedback b o : body_ok (BFeedback b) -> body_shape (BFeedback o) ->
  codec (body_size (BFeedback b)) (sim_feedbak_encode be b) (BFeedback <$> sim_feedbak_decode be o)
    (received (BFeedback b) (BFeedback o)).
Proof.
  body_tac. eapply codec_map; [|reflexivity].
  eapply codec_bind; [by apply codec_u32|]. by data_tac.
Qed.

Lemma codec_pad b o : body_ok (BPad b) -> body_shape (BPad o) ->
  codec (body_size (BPad b)) (sim_pad_encode be b) (BPad <$> sim_pad_decode be o) (received (BPad b) (BPad o)).
Proof.
  body_tac. eapply codec_map; [|reflexivity].
  eapply codec_bind; [by apply codec_u32|].
  eapply codec_bind; [by apply codec_u16|]. by data_tac.
Qed.

(** The flag byte tells which form each field took. *)
Lemma seg_mask_spec b :
  in_u 8 (seg_mask b) /\ Z.land (seg_mask b) 1 = Z.land (ftype b) 1 /\
  has_bits (seg_mask b) (Z.shiftl 1 7) = (U16_MAX <? packet_id b) /\
  has_bits (seg_mask b) (Z.shiftl 1 6) = (U16_MAX <? fid b) /\
  has_bits (seg_mask b) (Z.shiftl 1 5) = (U8_MAX <? total b) /\
  has_bits (seg_mask b) (Z.shiftl 1 4) = (remb b =? 0).
Proof.
  unfold seg_mask. assert (Z.land (ftype b) 1 = 0 \/ Z.land (ftype b) 1 = 1) as [-> | ->].
  { pose proof (Z.land_ones (ftype b) 1 ltac:(lia)) as E. change (Z.ones 1) with 1 in E.
    change (2 ^ 1) with 2 in E. pose proof (Z.mod_pos_bound (ftype b) 2). lia. }
  all: destruct (_ <? packet_id b), (_ <? fid b), (_ <? total b), (remb b =? 0);
    vm_compute; repeat split; congruence.
Qed.

Lemma codec_wide (c : bool) v : in_u 32 v -> c = (U16_MAX <? v) ->
  codec (wide_size v) (if U16_MAX <? v then mach_uint32_write be v else mach_uint16_write be (u16 v))
    (if c then mach_uint32_read be else mach_uint16_read be) v.
Proof.
  intros Hv ->. unfold wide_size. destruct (Z.ltb_spec U16_MAX v) as [|Hlt]; [by apply codec_u32|].
  unfold U16_MAX in Hlt. assert (in_u 16 v) as H16 by (unfold in_u in *; lia).
  rewrite wrap_id by done. by apply codec_u16.
Qed.

Lemma codec_index (c : bool) i t : in_u 16 i -> in_u 16 t -> c = (U8_MAX <? t) ->
  codec (index_size t) (if U8_MAX <? t then mach_uint16_write be i ;; mach_uint16_write be t
           else mach_uint8_write (u8 i) ;; mach_uint8_write (u8 t))
    (if c then i ← mach_uint16_read be; t ← mach_uint16_read be; mret (i, t)
     else i ← mach_uint8_read; t ← mach_uint8_read; mret (i, t))
    (if U8_MAX <? t then i else u8 i, t).
Proof.
  intros Hi Ht ->. unfold index_size. destruct (Z.ltb_spec U8_MAX t) as [|Hlt].
  - eapply codec_bind; [by apply codec_u16|]. eapply codec_last; [by apply codec_u16 | done].
  - unfold U8_MAX in Hlt. assert (in_u 8 t) as H8 by (unfold in_u in *; lia).
    rewrite (wrap_id 8 t) by done.
    eapply codec_bind; [by apply codec_u8, wrap_range|].
    eapply codec_last; [by apply codec_u8 | done].
Qed.

Lemma codec_segment b o : body_ok (BSegment b) -> body_shape (BSegment o) ->
  codec (body_size (BSegment b)) (sim_segment_encode be b) (BSegment <$> sim_segment_decode be o)
    (received (BSegment b) (BSegment o)).
Proof.
  body_tac. destruct (seg_mask_spec b) as (Hm & Hm1 & M7 & M6 & M5 & M4).
  eapply codec_map; [|reflexivity]. unfold sim_segment_encode, sim_segment_decode.
  eapply codec_bind; [by apply codec_u8|].
  eapply codec_bind; [by apply codec_u8|].
  eapply codec_bind; [by apply codec_wide|].
  eapply codec_bind; [by apply codec_wide|].
  eapply codec_bind; [by apply codec_u32|].
  eapply codec_bind; [by apply codec_index|].
  eapply codec_bind; [by apply codec_u16|].
  eapply codec_bind; [by apply codec_u16|].
  data_tac. by rewrite Hm1, M4.
Qed.

Lemma codec_nacks (src : list Z) l i arr :
  Forall (in_u 16) l -> l = take (length l) (drop i src) -> (i + length l <= length arr)%nat ->
  codec (2 * zlen l)
    (mfor (length l) i (fun i =>
       match src !! i with Some v => mach_uint16_write be v | None => mstuck end))
    (read_nacks be (length l) i arr) (take i arr ++ l ++ drop (i + length l) arr).
Proof.
  intros Hl. revert i arr. induction Hl as [|v l Hv Hl IH]; intros i arr Hs Ha; cbn [length] in *.
  - exists []. rewrite Nat.add_0_r, app_nil_l, take_drop. split; [done|]. split; [apply writes_nil | apply reads_ret].
  - assert (src !! i = Some v /\ l = take (length l) (drop (S i) src)) as [Hi Hs'].
    { destruct (drop i src) as [|v' src'] eqn:E; [done|]. injection Hs as <- Hs.
      assert (drop (S i) src = src') as ->.
      { replace (S i) with (i + 1)%nat by lia. rewrite <- drop_drop, E. done. }
      split; [|done]. rewrite <- (Nat.add_0_r i), <- lookup_drop, E. done. }
    destruct (lookup_lt_is_Some_2 arr i) as [w Hw]; [lia|].
    rewrite zlen_cons. replace (2 * (1 + zlen l)) with (2 + 2 * zlen l) by lia.
    cbn [mfor read_nacks]. rewrite Hi.
    eapply codec_bind; [by apply codec_u16|]. rewrite Hw.
    specialize (IH (S i) (<[i:=v]> arr) Hs'). rewrite length_insert in IH.
    specialize (IH ltac:(lia)).
    rewrite drop_insert_lt in IH by lia.
    rewrite (take_S_r _ _ v), take_insert_ge, <- app_assoc in IH
      by (lia || (apply list_lookup_insert_eq; lia)).
    replace (i + S (length l))%nat with (S i + length l)%nat by lia. exact IH.
Qed.

Lemma codec_segment_ack b o : body_ok (BSegmentAck b) -> body_shape (BSegmentAck o) ->
  codec (body_size (BSegmentAck b)) (sim_segment_ack_encode be b) (BSegmentAck <$> sim_segment_ack_decode be o)
    (received (BSegmentAck b) (BSegmentAck o)).
Proof.
  body_tac. eapply codec_map; [|reflexivity]. unfold sim_segment_ack_encode, sim_segment_ack_decode.
  eapply codec_bind; [by apply codec_u32|].
  eapply codec_bind; [by apply codec_u32|].
  eapply codec_bind; [apply codec_u8; unfold in_u; lia|].
  rewrite Z.min_l by (unfold NACK_NUM; lia). eapply codec_last; [|reflexivity].
  set (l := ztake (nack_num b) (nack b)).
  assert (length l = Z.to_nat (nack_num b)) as Hl
    by (unfold l, ztake, zlen in *; rewrite length_take; lia).
  destruct (codec_nacks (nack b) l 0 (nack o)) as (bs & Hk & H').
  - by apply Forall_take.
  - by rewrite Hl.
  - unfold zlen in *. lia.
  - exists bs. rewrite Hl in H'. split; [|exact H'].
    unfold zlen in *. lia.
Qed.

(** All bodies, through the dispatch. *)
Lemma body_codec h b o :
  body_ok b -> body_shape o -> body_matches (mid h) b = true -> body_matches (mid h) o = true ->
  codec (body_size b) (sim_encode_body be (mid h) b) (sim_decode_msg be h o) (received b o).
Proof.
  intros Hb Ho Mb Mo. destruct b, o; cbn [body_matches] in Mb, Mo;
    rewrite ?orb_true_iff, ?Z.eqb_eq in Mb, Mo;
    try (exfalso; unfold SIM_CONNECT, SIM_CONNECT_ACK, SIM_DISCONNECT, SIM_DISCONNECT_ACK, SIM_PING,
           SIM_PONG, SIM_SEG, SIM_SEG_ACK, SIM_FEEDBACK, SIM_FIR, SIM_PAD in *; lia);
    repeat (destruct Mb as [Mb|Mb]); unfold sim_decode_msg; rewrite Mb.
  - exact (codec_connect _ _ Hb Ho).
  - exact (codec_connect_ack _ Hb _).
  - exact (codec_connect_ack _ Hb _).
  - exact (codec_disconnect _ Hb _).
  - exact (codec_ping _ Hb _).
  - exact (codec_ping _ Hb _).
  - exact (codec_segment _ _ Hb Ho).
  - exact (codec_segment_ack _ _ Hb Ho).
  - exact (codec_feedback _ _ Hb Ho).
  - exact (codec_fir _ Hb _).
  - exact (codec_pad _ _ Hb Ho).
Qed.
End Proofs.

(** ** Decoding arbitrary bytes

    [yields m Q]: on any live stream [m] returns normally with a result in [Q],
    and only the read cursor moves. *)

Definition yields {A} (m : M bin_stream_t A) (Q : A -> Prop) : Prop :=
  forall s, readable s ->
  exists a s', m s = (Ok a, s') /\ Q a /\ readable s' /\
    data s' = data s /\ used s' = used s /\ size s' = size s /\ wptr s' = wptr s.

Section Total.
Context `{PO : PlatformOk}.
Variable be : Z.

Lemma yields_bind {A B} (m : M bin_stream_t A) Q (k : A -> M bin_stream_t B) R :
  yields m Q -> (forall a, Q a -> yields (k a) R) -> yields (m ≫= k) R.
Proof.
  intros Hm Hk s Hs. destruct (Hm s Hs) as (a & s1 & E1 & Ha & Hs1 & ? & ? & ? & ?).
  destruct (Hk a Ha s1 Hs1) as (b & s2 & E2 & Hb & Hs2 & ? & ? & ? & ?).
  exists b, s2. rewrite (M_bind_ok _ _ _ _ _ E1). repeat split; try apply Hs2; try done; congruence.
Qed.

Lemma yields_ret {A} (a : A) (Q : A -> Prop) : Q a -> yields (mret a) Q.
Proof. intros H s Hs. exists a, s. done. Qed.

Lemma yields_weaken {A} (m : M bin_stream_t A) (Q R : A -> Prop) :
  yields m Q -> (forall a, Q a -> R a) -> yields m R.
Proof. intros H HR s Hs. destruct (H s Hs) as (a & s' & ? & ? & ?). exists a, s'. auto. Qed.

Lemma yields_map {A B} (m : M bin_stream_t A) Q (f : A -> B) R :
  yields m Q -> (forall a, Q a -> R (f a)) -> yields (f <$> m) R.
Proof.
  intros H HR s Hs. destruct (H s Hs) as (a & s' & E & Ha & H').
  exists (f a), s'. unfold fmap, M_fmap. rewrite E. split; [done|]. split; [by apply HR|done].
Qed.

Lemma yields_get n s : readable s -> 0 <= n -> rsize s + n <= used s ->
  exists bs s', get n s = (Ok bs, s') /\ zlen bs = n /\ bytes_ok bs /\ readable s' /\
    data s' = data s /\ used s' = used s /\ size s' = size s /\ wptr s' = wptr s.
Proof.
  intros Hs Hn Hle. destruct (pending_split s Hs) as (pre & Hc & Hpre).
  pose proof (content_len s Hs) as Hl. rewrite Hc, zlen_app in Hl.
  destruct (get_ok (ztake n (pending s)) s (zdrop n (pending s)) Hs) as
    (s' & E & Hs' & _ & Hu & Hd & Hz & Hw); [by rewrite ztake_drop|].
  rewrite zlen_ztake in E by lia.
  exists (ztake n (pending s)), s'. rewrite zlen_ztake by lia.
  destruct (content_split s Hs) as (tl & Hdt & _).
  pose proof (wf_bytes s Hs) as Hby.
  assert (bytes_ok (pending s)) by (rewrite Hdt, Hc, !Forall_app in Hby; apply Hby).
  split; [done|]. split; [done|]. split; [by apply Forall_take|]. done.
Qed.

Lemma yields_read n conv Q : 0 <= n < 2 ^ 62 -> Q 0 ->
  (forall bs, zlen bs = n -> bytes_ok bs -> Q (conv bs)) -> yields (read_or_zero n conv) Q.
Proof.
  intros Hn H0 HQ s Hs. pose proof Hs as []. unfold read_or_zero.
  rewrite (wrap_id 64) by (unfold in_u; lia).
  destruct (Z.ltb_spec (used s) (rsize s + n)); [by exists 0, s|].
  destruct (yields_get n s Hs) as (bs & s' & E & Hl & Hb & H'); [lia..|].
  exists (conv bs), s'. rewrite (M_bind_ok _ _ _ _ _ E). split; [done|]. split; [by apply HQ|done].
Qed.

Lemma yields_u8 : yields mach_uint8_read (in_u 8).
Proof.
  apply yields_read; [lia|done|]. intros bs Hl Hb. destruct Hb; [done|]. done.
Qed.

Lemma yields_i8 : yields mach_int8_read (in_s 8).
Proof. apply yields_read; [lia|done|]. intros. by apply swrap_range. Qed.

Lemma yields_u16 : yields (mach_uint16_read be) (in_u 16).
Proof. apply yields_read; [lia|done|]. intros. by apply wrap_range. Qed.

Lemma get_uint_range bs : bytes_ok bs -> in_u (8 * zlen bs) (get_uint be bs).
Proof.
  intros Hb. unfold zlen, get_uint, host_val, le_val.
  destruct (negb (be =? 0)); [destruct host_big|]; try by apply be_val_range.
  rewrite <- length_rev. by apply be_val_range, Forall_rev.
Qed.

Lemma yields_u32 : yields (mach_uint32_read be) (in_u 32).
Proof.
  apply yields_read; [lia|done|]. intros bs Hl Hb. pose proof (get_uint_range bs Hb) as Hr.
  rewrite Hl in Hr. rewrite mach_get_4_eq; [done|done|]. unfold zlen in Hl. lia.
Qed.

Lemma yields_i64 : yields (mach_int64_read be) (in_s 64).
Proof. apply yields_read; [lia|done|]. intros. by apply swrap_range. Qed.

Lemma yields_data str cap : cap = zlen str -> cap < 65535 -> bytes_ok str ->
  yields (mach_data_read be str cap)
    (fun r => 0 <= size_or_0 r.1 <= cap /\ zlen r.2 = cap /\ bytes_ok r.2).
Proof.
  intros -> Hcap Hstr. pose proof (zlen_nonneg str).
  eapply yields_bind; [apply yields_u16|]. intros len Hlen. unfold in_u in Hlen.
  intros s Hs. assert (mget s = (Ok s, s)) as Eg by done. rewrite (M_bind_ok _ _ _ _ _ Eg).
  pose proof Hs as []. rewrite (wrap_id 64) by (unfold in_u; lia).
  destruct ((zlen str <? len) || (used s <? rsize s + len)) eqn:E.
  { eexists _, s. split; [reflexivity|]. unfold size_or_0.
    cbn [fst snd]. rewrite Z.eqb_refl. split; [split; [lia|done] | done]. }
  apply orb_false_iff in E as [E1%Z.ltb_ge E2%Z.ltb_ge].
  destruct (yields_get len s Hs) as (bs & s' & Eget & Hl & Hb & H'); [lia..|].
  destruct (split3 str 0 len) as (p0 & mid & post & -> & Hp0 & Hmid); [lia..|].
  eexists _, s'. unfold get_into. rewrite M_assoc, (M_bind_ok _ _ _ _ _ Eget).
  rewrite (store_ok p0 mid) by lia. split; [reflexivity|]. split; [|done].
  rewrite size_or_0_id by (cbn; lia). cbn. rewrite !zlen_app in *. split; [lia|]. split; [lia|].
  rewrite !Forall_app in *. naive_solver.
Qed.

Lemma yields_nacks n i arr : (i + n <= length arr)%nat ->
  yields (read_nacks be n i arr) (fun r => length r = length arr).
Proof.
  revert i arr. induction n as [|n IH]; intros i arr Hl; [by apply yields_ret|].
  cbn [read_nacks]. eapply yields_bind; [apply yields_u16|]. intros v _.
  destruct (lookup_lt_is_Some_2 arr i) as [w ->]; [lia|].
  eapply yields_weaken; [apply IH; rewrite length_insert; lia|].
  intros r Hr. by rewrite length_insert in Hr.
Qed.
End Total.

(** The lengths a decoder reports are within the arrays it filled. *)
Definition body_bounded (b : sim_body) : Prop :=
  body_shape b /\
  match b with
  | BConnect b => 0 <= token_size b <= SIM_TOKEN_SIZE
  | BSegment b => 0 <= data_size b <= SIM_VIDEO_SIZE
  | BSegmentAck b => 0 <= nack_num b <= NACK_NUM
  | BFeedback b => 0 <= feedback_size b <= SIM_FEEDBACK_SIZE
  | BPad b => 0 <= pad_data_size b <= PADDING_DATA_SIZE
  | _ => True
  end.

Definition body_init (b : sim_body) : Prop :=
  body_shape b /\
  match b with
  | BConnect b => bytes_ok (token b)
  | BSegment b => bytes_ok (seg_data b)
  | BFeedback b => bytes_ok (feedback b)
  | BPad b => bytes_ok (pad_data b)
  | _ => True
  end.

(** ** The checksum check *)

Section Messages.
Context `{PO : PlatformOk}.
Variable be : Z.

(** The datagram is [msg ++ tail] with a four-byte [tail]. *)
Lemma decode_header_eq r msg tail :
  readable r -> content r = msg ++ tail -> zlen tail = 4 ->
  sim_decode_header be r =
    if get_uint be tail =? crc32_bytes CRC_VAL msg then
      (v ← mach_uint8_read; m ← mach_uint8_read; u ← mach_uint32_read be;
       mret {| ver := v; mid := m; uid := u |}) r
    else (Fail, r).
Proof.
  intros Hr Hc Ht. destruct (content_split r Hr) as (tl & Hd & _).
  pose proof (content_len r Hr) as Hl. rewrite Hc, zlen_app in Hl.
  pose proof (zlen_nonneg msg). pose proof (wf_bytes r Hr) as Hb.
  pose proof (wf_used r Hr). pose proof (wf_size r Hr).
  unfold sim_decode_header. rewrite Hd, Hc in *. rewrite <- app_assoc in *.
  rewrite (load_ok msg tail tl) by lia.
  unfold crc32. rewrite wrap_id by (unfold in_u; lia).
  rewrite (load_ok [] msg (tail ++ tl)) by (done || lia). cbn [fmap option_fmap option_map].
  rewrite mach_get_4_eq; [done| |unfold zlen in *; lia].
  rewrite !Forall_app in Hb. apply Hb.
Qed.

Definition header_ok (h : sim_header_t) : Prop := in_u 8 (ver h) /\ in_u 8 (mid h) /\ in_u 32 (uid h).

Lemma codec_header h : header_ok h ->
  codec SIM_HEADER_SIZE (sim_encode_header be h)
    (v ← mach_uint8_read; m ← mach_uint8_read; u ← mach_uint32_read be;
     mret {| ver := v; mid := m; uid := u |}) h.
Proof.
  intros (? & ? & ?). apply (codec_bind 1 (1 + 4) _ _ (ver h)); [by apply codec_u8|].
  eapply codec_bind; [by apply codec_u8|].
  eapply codec_last; [by apply codec_u32 | by destruct h].
Qed.

(** What [sim_encode_msg] leaves in any stream. *)
Lemma encode_msg_eq h b o :
  header_ok h -> body_ok b -> body_shape o ->
  body_matches (mid h) b = true -> body_matches (mid h) o = true ->
  exists bh bb, zlen bh = SIM_HEADER_SIZE /\ zlen bb = body_size b /\
    reads (v ← mach_uint8_read; m ← mach_uint8_read; u ← mach_uint32_read be;
           mret {| ver := v; mid := m; uid := u |}) bh h /\
    reads (sim_decode_msg be h o) bb (received b o) /\
    forall s, readable s -> exists s1,
      sim_encode_msg be h b s = (Ok tt, s1) /\ wf s1 /\ bytes_ok (bh ++ bb) /\
      content s1 = (bh ++ bb) ++ put_uint be 4 (crc32_bytes CRC_VAL (bh ++ bb)).
Proof.
  intros Hh Hb Ho Mb Mo.
  destruct (codec_header h Hh) as (bh & Hk1 & Hw1 & Hr1).
  destruct (body_codec be h b o Hb Ho Mb Mo) as (bb & Hk2 & Hw2 & Hr2).
  exists bh, bb. split; [done|]. split; [done|]. split; [done|]. split; [done|]. intros s Hs.
  unfold SIM_HEADER_SIZE in Hk1. pose proof (body_size_range b Hb) as Hsz.
  pose proof (rewind_readable s Hs) as Hs0.
  destruct (writes_bind _ _ _ _ Hw1 Hw2 (bin_stream_rewind s 1) Hs0) as
    (s1 & E1 & Hs1 & Hc1 & Hu1 & Hr & _).
  { rewrite zlen_app. cbn. lia. }
  cbn [app] in Hc1. change (content (bin_stream_rewind s 1)) with (@nil Z) in Hc1.
  cbn [app] in Hc1. change (used (bin_stream_rewind s 1)) with 0 in Hu1.
  pose proof (content_len s1 (proj1 Hs1)) as Hl1. rewrite Hc1 in Hl1.
  destruct (writes_u32 be (crc32_bytes CRC_VAL (bh ++ bb)) s1 Hs1) as
    (s2 & E2 & Hs2 & Hc2 & _).
  { rewrite put_uint_len, Hu1, zlen_app. lia. }
  destruct (content_split s1 (proj1 Hs1)) as (tl & Hd & _). rewrite Hc1 in Hd.
  exists s2. split.
  - unfold sim_encode_msg. assert (forall f, mmodify f s = (Ok tt, f s)) as Em by done.
    rewrite (M_bind_ok _ _ _ _ _ (Em _)). rewrite <- M_assoc, (M_bind_ok _ _ _ _ _ E1).
    assert (mget s1 = (Ok s1, s1)) as Eg by done. rewrite (M_bind_ok _ _ _ _ _ Eg).
    unfold crc32. rewrite Hd, (load_ok [] (bh ++ bb) tl) by (done || lia). exact E2.
  - split; [done|]. split; [|by rewrite Hc2, Hc1].
    pose proof (wf_bytes s1 (proj1 Hs1)) as Hby. rewrite Hd, Forall_app in Hby. apply Hby.
Qed.

Lemma received_any r c : readable r -> rsize r = 0 -> content r = c -> pending r = c.
Proof. intros _ Hr <-. unfold pending. by rewrite Hr. Qed.

(** The datagram of a message: what the encoder leaves in any stream, and what
    any stream that holds it decodes to. *)
Lemma encode_decode h b o :
  header_ok h -> body_ok b -> body_shape o ->
  body_matches (mid h) b = true -> body_matches (mid h) o = true ->
  exists d, zlen d = SIM_HEADER_SIZE + body_size b + 4 /\ bytes_ok d /\
    (forall s, readable s -> exists s1, sim_encode_msg be h b s = (Ok tt, s1) /\ wf s1 /\ content s1 = d) /\
    (forall r, readable r -> rsize r = 0 -> content r = d ->
     exists r1 r2, sim_decode_header be r = (Ok h, r1) /\
       sim_decode_msg be h o r1 = (Ok (received b o), r2) /\ readable r2 /\ zlen (pending r2) = 4).
Proof.
  intros Hh Hb Ho Mb Mo.
  destruct (encode_msg_eq h b o Hh Hb Ho Mb Mo) as (bh & bb & Lh & Lb & Rh & Rb & Hall).
  destruct (Hall fresh_stream (proj1 fresh_stream_wf)) as (_ & _ & _ & Hby & _).
  exists ((bh ++ bb) ++ put_uint be 4 (crc32_bytes CRC_VAL (bh ++ bb))).
  split; [rewrite !zlen_app, put_uint_len; lia|].
  split; [apply Forall_app; split; [done|apply put_uint_ok]|]. split.
  - intros s Hs. destruct (Hall s Hs) as (s1 & E & Hs1 & _ & Hc). by exists s1.
  - intros r Hr Hr0 Hcr.
    pose proof (received_any r _ Hr Hr0 Hcr) as Hp. rewrite <- app_assoc in Hp.
    destruct (Rh r _ Hr Hp) as (r1 & E1 & Hr1 & Hp1 & _).
    destruct (Rb r1 _ Hr1 Hp1) as (r2 & E2 & Hr2 & Hp2 & _).
    exists r1, r2. split; [|split; [done|split; [done|by rewrite Hp2, put_uint_len]]].
    rewrite (decode_header_eq r _ _ Hr Hcr (put_uint_len _ _ _)), get_put_uint, wrap_id.
    + rewrite Z.eqb_refl. done.
    + apply crc32_bytes_u; [done|exact Hby].
Qed.

(** C10: A message that [sim_encode_msg] wrote is accepted by a receiver: its
    header comes back unchanged and [sim_decode_msg] yields the body, up to
    the fields the wire format narrows ([received]). *)
Theorem sim_roundtrip h b o s :
  readable s -> header_ok h -> body_ok b -> body_shape o ->
  body_matches (mid h) b = true -> body_matches (mid h) o = true ->
  exists s1, sim_encode_msg be h b s = (Ok tt, s1) /\ wf s1 /\
    forall r, readable r -> rsize r = 0 -> content r = content s1 ->
    exists r1 r2, sim_decode_header be r = (Ok h, r1) /\
      sim_decode_msg be h o r1 = (Ok (received b o), r2) /\ zlen (pending r2) = 4.
Proof.
  intros Hs Hh Hb Ho Mb Mo. destruct (encode_decode h b o Hh Hb Ho Mb Mo) as (d & _ & _ & Henc & Hdec).
  destruct (Henc s Hs) as (s1 & E & Hs1 & <-). exists s1. split; [done|]. split; [done|].
  intros r Hr Hr0 Hc. destruct (Hdec r Hr Hr0 Hc) as (r1 & r2 & E1 & E2 & _ & Hp). by exists r1, r2.
Qed.

(** The checksum of an encoded message is that of its bytes; what differs from
    it is rejected. *)
Lemma checksum_rejected r m tail : readable r -> content r = m ++ tail -> zlen tail = 4 ->
  get_uint be tail <> crc32_bytes CRC_VAL m -> sim_decode_header be r = (Fail, r).
Proof. intros Hr Hc Ht Hne. rewrite (decode_header_eq r m tail Hr Hc Ht). by rewrite (proj2 (Z.eqb_neq _ _)). Qed.

(** Four bytes taken apart from the left or from the right. *)
Lemma split_last {A} (x y m tail : list A) : x ++ y = m ++ tail -> (length tail <= length y)%nat ->
  exists p, y = p ++ tail /\ m = x ++ p.
Proof.
  intros E Hl. exists (drop (length x) m).
  assert (length x <= length m)%nat by (apply (f_equal length) in E; rewrite !length_app in E; lia).
  pose proof (f_equal (drop (length x)) E) as Ey. rewrite drop_app_length, drop_app_le in Ey by done.
  pose proof (f_equal (take (length x)) E) as Ex. rewrite take_app_length, take_app_le in Ex by done.
  split; [done|]. rewrite Ex at 1. by rewrite take_drop.
Qed.

(** C30: A datagram of an encoded message in which up to four consecutive
    bytes were altered, all of them before the checksum or all of them in it, is
    rejected, and the stream is left as it was. *)
Theorem sim_corruption_rejected h b o s s1 r pre bs bs' post :
  readable s -> header_ok h -> body_ok b -> body_shape o ->
  body_matches (mid h) b = true -> body_matches (mid h) o = true ->
  sim_encode_msg be h b s = (Ok tt, s1) -> content s1 = pre ++ bs ++ post ->
  (length bs <= 4)%nat -> 4 <= zlen post \/ zlen bs + zlen post <= 4 -> length bs' = length bs -> bs' <> bs ->
  readable r -> content r = pre ++ bs' ++ post ->
  sim_decode_header be r = (Fail, r).
Proof.
  intros Hs Hh Hb Ho Mb Mo E Hc Hl4 Hpost Hl Hne Hr Hcr.
  destruct (encode_msg_eq h b o Hh Hb Ho Mb Mo) as (bh & bb & _ & _ & _ & _ & Hall).
  destruct (Hall s Hs) as (? & E' & Hs1 & Hby & Hc').
  rewrite E in E'. injection E' as <-. set (m := bh ++ bb) in *. set (tail := put_uint be 4 _) in Hc'.
  assert (length tail = 4)%nat as Ht by apply put_uint_length.
  assert (get_uint be tail = crc32_bytes CRC_VAL m) as Hg.
  { unfold tail. by rewrite get_put_uint, wrap_id by (by apply crc32_bytes_u). }
  assert (bytes_ok (pre ++ bs' ++ post)) as Hb'.
  { pose proof (wf_bytes r Hr) as Hbr. destruct (content_split r Hr) as (tl & Hd & _).
    rewrite Hd, Hcr, Forall_app in Hbr. apply Hbr. }
  assert (bytes_ok tail) as Htb by apply put_uint_ok. clearbody tail. rewrite Hc in Hc'. unfold zlen in Hpost. destruct Hpost as [Hpost|Hpost].
  - rewrite app_assoc in Hc'. destruct (split_last _ _ _ _ Hc') as (p & -> & Hm); [lia|]. rewrite <- app_assoc in Hm.
    apply (checksum_rejected r (pre ++ bs' ++ p) tail Hr); [by rewrite Hcr, <- !app_assoc|unfold zlen; lia|].
    rewrite Hg, Hm. intros Heq. symmetry in Heq. rewrite Hm in Hby. rewrite !Forall_app in Hb'.
    revert Heq. apply crc_burst; [done|done|apply Hb'|done..].
  - symmetry in Hc'. destruct (split_last _ _ _ _ Hc') as (p & -> & ->); [rewrite length_app; lia|].
    apply (checksum_rejected r m (p ++ bs' ++ post) Hr).
    + by rewrite Hcr, <- app_assoc.
    + unfold zlen. rewrite !length_app in *. lia.
    + intros Heq. rewrite <- Hg in Heq. apply (f_equal (put_uint be 4)) in Heq.
      assert (bytes_ok (p ++ bs' ++ post)) as Hx by (rewrite <- app_assoc in Hb'; by apply Forall_app in Hb' as [_ ?]).
      pose proof (put_get_uint be _ Hx) as E1. pose proof (put_get_uint be _ Htb) as E2.
      replace (length (p ++ bs' ++ post)) with 4%nat in E1 by (rewrite !length_app in *; lia).
      rewrite Ht in E2. rewrite E1, E2 in Heq. by apply app_inv_head, app_inv_tail in Heq.
Qed.

Ltac ystep :=
  eapply yields_bind;
    [first [apply yields_u8 | apply yields_i8 | apply yields_u16 | apply yields_u32
           | apply yields_i64 | apply yields_data; done]|intros ? ?].

Ltac ydone := apply yields_ret; unfold body_bounded; cbn; naive_solver.

Lemma yields_segment o : zlen (seg_data o) = SIM_VIDEO_SIZE -> bytes_ok (seg_data o) ->
  yields (sim_segment_decode be o) (fun b => body_bounded (BSegment b)).
Proof.
  intros Hl Hb. unfold sim_segment_decode. do 2 ystep.
  do 2 (eapply (yields_bind _ (fun _ => True));
    [case_match; eapply yields_weaken; (apply yields_u32 || apply yields_u16 || done)|intros ? _]).
  ystep. eapply (yields_bind _ (fun _ => True)).
  { case_match; do 2 ystep; by apply yields_ret. }
  intros ? _. do 3 ystep. ydone.
Qed.

Lemma yields_segment_ack o : zlen (nack o) = NACK_NUM ->
  yields (sim_segment_ack_decode be o) (fun b => body_bounded (BSegmentAck b)).
Proof.
  intros Hl. unfold sim_segment_ack_decode. do 3 ystep. unfold in_u in *.
  unfold NACK_NUM, zlen in Hl.
  eapply yields_bind; [apply yields_nacks; unfold NACK_NUM; lia|]. intros arr Ha.
  apply yields_ret. unfold body_bounded, body_shape, NACK_NUM, zlen.
  cbn [nack nack_num]. cbn beta in Ha. lia.
Qed.

(** Whatever bytes arrive, decoding a body of a known message id returns,
    never touches memory outside the stream and the arrays of the body, and
    leaves every length field within its array. *)
Theorem sim_decode_safe h o r :
  readable r -> body_init o -> body_matches (mid h) o = true ->
  exists b r', sim_decode_msg be h o r = (Ok b, r') /\ body_bounded b /\ readable r' /\
    data r' = data r /\ used r' = used r.
Proof.
  intros Hr Ho Mo. assert (yields (sim_decode_msg be h o) body_bounded) as H.
  2: { destruct (H r Hr) as (b & r' & ? & ? & ? & ? & ? & _). by exists b, r'. }
  clear r Hr. destruct Ho as [Hsh Hby].
  destruct o; cbn [body_matches body_shape] in *; rewrite ?orb_true_iff, ?Z.eqb_eq in Mo;
    unfold sim_decode_msg; repeat (destruct Mo as [Mo|Mo]); rewrite Mo.
  - apply (yields_map (sim_connect_decode be b) (fun x => body_bounded (BConnect x))); [|done].
    do 3 ystep. ydone.
  - apply (yields_map (sim_connect_ack_decode be b) (fun _ => True)); [|done]. do 2 ystep. ydone.
  - apply (yields_map (sim_connect_ack_decode be b) (fun _ => True)); [|done]. do 2 ystep. ydone.
  - apply (yields_map (sim_disconnect_decode be b) (fun _ => True)); [|done]. ystep. ydone.
  - apply (yields_map (sim_ping_decode be b) (fun _ => True)); [|done]. ystep. ydone.
  - apply (yields_map (sim_ping_decode be b) (fun _ => True)); [|done]. ystep. ydone.
  - by apply (yields_map _ _ BSegment _ (yields_segment b Hsh Hby)).
  - by apply (yields_map _ _ BSegmentAck _ (yields_segment_ack b Hsh)).
  - apply (yields_map (sim_feedbak_decode be b) (fun x => body_bounded (BFeedback x))); [|done].
    do 2 ystep. ydone.
  - apply (yields_map (sim_fir_decode be b) (fun _ => True)); [|done]. ystep. ydone.
  - apply (yields_map (sim_pad_decode be b) (fun x => body_bounded (BPad x))); [|done].
    do 3 ystep. ydone.
Qed.

(** [sim_decode_header] on any datagram: shorter than the four checksum
    bytes, it reads outside the buffer; otherwise it accepts exactly the
    datagrams whose last four bytes are the checksum of the others, and a
    rejected one leaves the stream alone. *)
Theorem sim_decode_header_cases r msg tail :
  readable r -> content r = msg ++ tail -> zlen tail = Z.min 4 (used r) ->
  if used r <? 4 then sim_decode_header be r = (Stuck, r)
  else if get_uint be tail =? crc32_bytes CRC_VAL msg
  then exists h r', sim_decode_header be r = (Ok h, r') /\ readable r' /\ header_ok h
  else sim_decode_header be r = (Fail, r).
Proof.
  intros Hr Hc Ht. pose proof (wf_read r Hr). destruct (Z.ltb_spec (used r) 4) as [Hlt|Hge].
  - unfold sim_decode_header, load at 1. by rewrite (proj2 (Z.leb_gt 0 _)) by lia.
  - rewrite (decode_header_eq r msg tail Hr Hc) by lia. case_match; [|done].
    assert (yields (v ← mach_uint8_read; m ← mach_uint8_read; u ← mach_uint32_read be;
      mret {| ver := v; mid := m; uid := u |}) header_ok) as Hy.
    { do 3 ystep. by apply yields_ret. }
    destruct (Hy r Hr) as (h & r' & ? & ? & ? & _). by exists h, r'.
Qed.

(** A nack count above [NACK_NUM], which the [uint8_t] field allows and
    only the decoder clamps, makes the encoder read past the array. *)
Theorem segment_ack_encode_overrun b s :
  readable s -> zlen (nack b) = NACK_NUM -> NACK_NUM < nack_num b < 256 ->
  Forall (in_u 16) (nack b) ->
  exists s', sim_segment_ack_encode be b (bin_stream_rewind s 1) = (Stuck, s').
Proof.
  intros Hs Hl Hn Hb. pose proof (rewind_readable s Hs) as H0.
  unfold sim_segment_ack_encode, NACK_NUM in *.
  destruct (writes_u32 be (base_packet_id b) _ H0) as (s1 & E1 & H1 & _ & Hu1 & _).
  { rewrite put_uint_len. cbn. lia. }
  rewrite (M_bind_ok _ _ _ _ _ E1). rewrite put_uint_len in Hu1. cbn in Hu1.
  destruct (writes_u32 be (acked_packet_id b) _ H1) as (s2 & E2 & H2 & _ & Hu2 & _).
  { rewrite put_uint_len, Hu1. lia. }
  rewrite (M_bind_ok _ _ _ _ _ E2). rewrite put_uint_len, Hu1 in Hu2.
  destruct (writes_u8 (nack_num b) ltac:(unfold in_u; lia) _ H2) as (s3 & E3 & H3 & _ & Hu3 & _).
  { unfold zlen. cbn [length]. lia. }
  rewrite (M_bind_ok _ _ _ _ _ E3). unfold zlen in Hu3. cbn [length] in Hu3.
  assert (forall n i st, wf st -> used st + 2 * Z.of_nat n <= 2 ^ 62 ->
    (i <= length (nack b) < i + n)%nat -> exists st',
    mfor n i (fun i => match nack b !! i with
      | Some v => mach_uint16_write be v | None => mstuck end) st = (Stuck, st')) as Hloop.
  { induction n as [|n IH]; intros i st Hst Hub Hi; [lia|]. cbn [mfor].
    destruct (nack b !! i) as [v|] eqn:Ei; [|eexists; reflexivity].
    destruct (writes_u16 be v st Hst) as (st1 & Est & Hst1 & _ & Hust & _).
    { rewrite put_uint_len. lia. }
    rewrite (M_bind_ok _ _ _ _ _ Est). apply lookup_lt_Some in Ei. rewrite put_uint_len in Hust.
    apply IH; [done|lia|lia]. }
  apply Hloop; [done|lia|]. unfold zlen in Hl. lia.
Qed.
End Messages.

(** ** Witnesses *)

Definition ping_body : sim_body := BPing {| ts := -5 |}.
Definition sample_ack (n : Z) : sim_segment_ack_t :=
  {| base_packet_id := 7; acked_packet_id := 9; nack_num := n; nack := replicate 80 3 |}.
Definition blank_segment : sim_body :=
  BSegment {| packet_id := 70000; fid := 3; timestamp := 5; index := 1; total := 2; ftype := 1;
              payload_type := 96; remb := 1; send_ts := 4; transport_seq := 8;
              data_size := 3; seg_data := replicate 1000 0 |}.

Lemma blank_segment_ok : body_ok blank_segment.
Proof. repeat split; try (vm_compute; congruence). apply zeros_ok. Qed.

Lemma sim_roundtrip_witness :
  exists s1, sim_encode_msg (P := le_platform) 0 (INIT_SIM_HEADER SIM_SEG 1234) blank_segment fresh_stream
      = (Ok tt, s1) /\ wf s1 /\
    forall r, readable r -> rsize r = 0 -> content r = content s1 ->
    exists r1 r2, sim_decode_header (P := le_platform) 0 r = (Ok (INIT_SIM_HEADER SIM_SEG 1234), r1) /\
      sim_decode_msg (P := le_platform) 0 (INIT_SIM_HEADER SIM_SEG 1234) blank_segment r1 =
        (Ok (received blank_segment blank_segment), r2) /\ zlen (pending r2) = 4.
Proof.
  apply (sim_roundtrip (P := le_platform) 0).
  - apply fresh_stream_wf.
  - repeat split; vm_compute; congruence.
  - apply blank_segment_ok.
  - apply blank_segment_ok.
  - reflexivity.
  - reflexivity.
Defined.

(** A ping message of 18 bytes whose timestamp is overwritten. *)
Definition ping_stream : bin_stream_t :=
  match (sim_encode_msg (P := le_platform) 0 (INIT_SIM_HEADER SIM_PING 1) ping_body fresh_stream).2 with
  | s => mkStream (ztake 24 (data s)) 24 0 0 0 18 0
  end.

Definition bad_ping : bin_stream_t :=
  mkStream (ztake 10 (data ping_stream) ++ [1; 2; 3; 4] ++ zdrop 14 (data ping_stream)) 24 0 0 0 18 0.

Lemma sim_corruption_rejected_witness :
  sim_decode_header (P := le_platform) 0 bad_ping = (Fail, bad_ping).
Proof.
  refine (sim_corruption_rejected (P := le_platform) 0 (INIT_SIM_HEADER SIM_PING 1) ping_body ping_body
    fresh_stream _ bad_ping (ztake 10 (data ping_stream)) (ztake 4 (zdrop 10 (data ping_stream)))
    [1; 2; 3; 4] (ztake 4 (zdrop 14 (data ping_stream))) _ _ _ _ _ _ _ _ _ _ _ _ _ _).
  - apply fresh_stream_wf.
  - repeat split; vm_compute; congruence.
  - repeat split; vm_compute; congruence.
  - exact I.
  - reflexivity.
  - reflexivity.
  - vm_compute. reflexivity.
  - vm_compute. reflexivity.
  - vm_compute. lia.
  - left. vm_compute. congruence.
  - reflexivity.
  - vm_compute. congruence.
  - split; try (vm_compute; repeat split; congruence).
    repeat constructor; vm_compute; congruence.
  - reflexivity.
Defined.

Lemma sim_decode_safe_witness :
  exists b r', sim_decode_msg (P := le_platform) 0 (INIT_SIM_HEADER SIM_SEG 1) blank_segment bad_ping
      = (Ok b, r') /\ body_bounded b /\ readable r' /\ data r' = data bad_ping /\ used r' = used bad_ping.
Proof.
  apply (sim_decode_safe (P := le_platform) 0).
  - split; try (vm_compute; repeat split; congruence). repeat constructor; vm_compute; congruence.
  - split; [reflexivity|]. apply zeros_ok.
  - reflexivity.
Defined.

(** A three-byte datagram. *)
Definition runt : bin_stream_t := mkStream (replicate 1024 0) 1024 0 0 0 3 0.

Lemma sim_decode_header_cases_witness : sim_decode_header (P := le_platform) 0 runt = (Stuck, runt).
Proof.
  refine (sim_decode_header_cases (P := le_platform) 0 runt [] [0; 0; 0] _ _ _).
  - split; [reflexivity|apply zeros_ok|..]; vm_compute; repeat split; congruence.
  - reflexivity.
  - reflexivity.
Defined.

Lemma segment_ack_encode_overrun_witness :
  exists s', sim_segment_ack_encode (P := le_platform) 0 (sample_ack 200) (bin_stream_rewind fresh_stream 1)
    = (Stuck, s').
Proof.
  apply (segment_ack_encode_overrun (P := le_platform) 0).
  - apply fresh_stream_wf.
  - reflexivity.
  - split; reflexivity.
  - apply Forall_replicate. split; vm_compute; congruence.
Defined.
