(* ===== verification/QuicTime.v ===== *)
(** * Time values: [scoped_ptr/quic_time.{h,cc}]

    [QuicTime], its [Delta], and [QuicWallTime].  The same classes are what the
    framer's timestamps use.  Signed overflow, undefined in C++, wraps here;
    the unsigned arithmetic of [QuicWallTime] wraps in C++ too. *)

From S2P Require Import Prelude.
From stdpp Require Import pretty.
Open Scope Z_scope.

Definition kQuicInfiniteTimeUs : Z := 2 ^ 63 - 1.

Record Delta := mkDelta { time_offset_ : Z }.
Record QuicTime := mkTime { time_ : Z }.
Record QuicWallTime := mkWall { microseconds_ : Z }.

#[export] Instance Delta_eq_dec : EqDecision Delta.
Proof. solve_decision. Defined.
#[export] Instance QuicTime_eq_dec : EqDecision QuicTime.
Proof. solve_decision. Defined.

(** ** [QuicTime::Delta] *)

Definition Delta_Zero : Delta := mkDelta 0.
Definition Delta_Infinite : Delta := mkDelta kQuicInfiniteTimeUs.
Definition FromSeconds (secs : Z) : Delta := mkDelta (s64 (secs * 1000 * 1000)).
Definition FromMilliseconds (ms : Z) : Delta := mkDelta (s64 (ms * 1000)).

(** The parameter is an [int64_t]; callers pass unsigned values too. *)
Definition FromMicroseconds (us : Z) : Delta := mkDelta (s64 us).
Definition ToSeconds (d : Delta) : Z := Z.quot (Z.quot (time_offset_ d) 1000) 1000.
Definition ToMilliseconds (d : Delta) : Z := Z.quot (time_offset_ d) 1000.
Definition ToMicroseconds (d : Delta) : Z := time_offset_ d.
Definition Delta_IsZero (d : Delta) : bool := time_offset_ d =? 0.
Definition IsInfinite (d : Delta) : bool := time_offset_ d =? kQuicInfiniteTimeUs.

Definition delta_eq (l r : Delta) : bool := time_offset_ l =? time_offset_ r.
Definition delta_ne (l r : Delta) : bool := negb (delta_eq l r).
Definition delta_lt (l r : Delta) : bool := time_offset_ l <? time_offset_ r.
Definition delta_gt (l r : Delta) : bool := delta_lt r l.
Definition delta_le (l r : Delta) : bool := negb (delta_lt r l).
Definition delta_ge (l r : Delta) : bool := negb (delta_lt l r).
Definition delta_shr (l : Delta) (r : Z) : Delta := mkDelta (Z.shiftr (time_offset_ l) r).
Definition delta_add (l r : Delta) : Delta := mkDelta (s64 (time_offset_ l + time_offset_ r)).
Definition delta_sub (l r : Delta) : Delta := mkDelta (s64 (time_offset_ l - time_offset_ r)).
Definition delta_mul (l : Delta) (r : Z) : Delta := mkDelta (s64 (time_offset_ l * r)).

(** The display form: whole seconds, else whole milliseconds, else
    microseconds. *)
Definition ToDebugValue (d : Delta) : string :=
  let one_ms := 1000 in
  let one_s := 1000 * one_ms in
  let absolute_value := Z.abs (time_offset_ d) in
  if (one_s <? absolute_value) && (absolute_value mod one_s =? 0)
  then (pretty (Z.quot (time_offset_ d) one_s) +:+ "s")%string
  else if (one_ms <? absolute_value) && (absolute_value mod one_ms =? 0)
  then (pretty (Z.quot (time_offset_ d) one_ms) +:+ "ms")%string
  else (pretty (time_offset_ d) +:+ "us")%string.

(** ** [QuicTime] *)

Definition Time_Zero : QuicTime := mkTime 0.
Definition Time_Infinite : QuicTime := mkTime kQuicInfiniteTimeUs.
Definition ToDebuggingValue (t : QuicTime) : Z := time_ t.
Definition IsInitialized (t : QuicTime) : bool := negb (0 =? time_ t).

Definition time_eq (l r : QuicTime) : bool := time_ l =? time_ r.
Definition time_ne (l r : QuicTime) : bool := negb (time_eq l r).
Definition time_lt (l r : QuicTime) : bool := time_ l <? time_ r.
Definition time_gt (l r : QuicTime) : bool := time_lt r l.
Definition time_le (l r : QuicTime) : bool := negb (time_lt r l).
Definition time_ge (l r : QuicTime) : bool := negb (time_lt l r).
Definition time_add (l : QuicTime) (r : Delta) : QuicTime := mkTime (s64 (time_ l + time_offset_ r)).
Definition time_sub (l : QuicTime) (r : Delta) : QuicTime := mkTime (s64 (time_ l - time_offset_ r)).
Definition time_diff (l r : QuicTime) : Delta := mkDelta (s64 (time_ l - time_ r)).

(** ** [QuicWallTime] *)

Definition FromUNIXSeconds (seconds : Z) : QuicWallTime := mkWall (u64 (seconds * 1000000)).
Definition FromUNIXMicroseconds (us : Z) : QuicWallTime := mkWall (u64 us).
Definition Wall_Zero : QuicWallTime := mkWall 0.
Definition ToUNIXSeconds (w : QuicWallTime) : Z := microseconds_ w / 1000000.
Definition ToUNIXMicroseconds (w : QuicWallTime) : Z := microseconds_ w.
Definition IsAfter (w other : QuicWallTime) : bool := microseconds_ other <? microseconds_ w.
Definition IsBefore (w other : QuicWallTime) : bool := microseconds_ w <? microseconds_ other.
Definition Wall_IsZero (w : QuicWallTime) : bool := microseconds_ w =? 0.

Definition AbsoluteDifference (w other : QuicWallTime) : Delta :=
  let d := if microseconds_ other <? microseconds_ w
           then u64 (microseconds_ w - microseconds_ other)
           else u64 (microseconds_ other - microseconds_ w) in
  let d := if 2 ^ 63 - 1 <? d then 2 ^ 63 - 1 else d in
  FromMicroseconds d.

(** The signed delta is converted to [uint64_t] before the addition. *)
Definition Add (w : QuicWallTime) (delta : Delta) : QuicWallTime :=
  let microseconds := u64 (microseconds_ w + ToMicroseconds delta) in
  mkWall (if microseconds <? microseconds_ w then 2 ^ 64 - 1 else microseconds).

Definition Subtract (w : QuicWallTime) (delta : Delta) : QuicWallTime :=
  let microseconds := u64 (microseconds_ w - ToMicroseconds delta) in
  mkWall (if microseconds_ w <? microseconds then 0 else microseconds).

(** ** Properties *)

(** [Add] and [Subtract] saturate at the ends of the representable range
    for a non-negative delta; for a negative one that stays in range, [Add]
    yields the largest representable time instead of an earlier one and
    [Subtract] yields time zero instead of a later one. *)
Theorem wall_add_subtract w d :
  in_u 64 (microseconds_ w) -> in_s 64 (time_offset_ d) ->
  (0 <= time_offset_ d ->
     microseconds_ (Add w d) = Z.min (2 ^ 64 - 1) (microseconds_ w + time_offset_ d) /\
     microseconds_ (Subtract w d) = Z.max 0 (microseconds_ w - time_offset_ d)) /\
  (time_offset_ d < 0 ->
     (0 <= microseconds_ w + time_offset_ d -> microseconds_ (Add w d) = 2 ^ 64 - 1) /\
     (microseconds_ w - time_offset_ d < 2 ^ 64 -> microseconds_ (Subtract w d) = 0)).
Proof.
  unfold Add, Subtract, ToMicroseconds. destruct w as [w], d as [d]. cbn [microseconds_ time_offset_].
  unfold in_u, in_s. intros Hw Hd. split.
  - intros H0. split.
    + destruct (decide (w + d < 2 ^ 64)).
      * rewrite wrap_id by (unfold in_u; lia). rewrite (proj2 (Z.ltb_ge _ _)) by lia. lia.
      * rewrite wrap_over by lia. rewrite (proj2 (Z.ltb_lt _ _)) by lia. lia.
    + destruct (decide (0 <= w - d)).
      * rewrite wrap_id by (unfold in_u; lia). rewrite (proj2 (Z.ltb_ge _ _)) by lia. lia.
      * rewrite wrap_neg by lia. rewrite (proj2 (Z.ltb_lt _ _)) by lia. lia.
  - intros H0. split; intros H1; rewrite wrap_id by (unfold in_u; lia).
    + by rewrite (proj2 (Z.ltb_lt _ _)) by lia.
    + by rewrite (proj2 (Z.ltb_lt _ _)) by lia.
Qed.

(** [AbsoluteDifference] is symmetric, never negative, and exact up to the
    largest delta. *)
Theorem absolute_difference_spec w v :
  in_u 64 (microseconds_ w) -> in_u 64 (microseconds_ v) ->
  AbsoluteDifference w v = AbsoluteDifference v w /\
  ToMicroseconds (AbsoluteDifference w v) =
    Z.min (2 ^ 63 - 1) (Z.abs (microseconds_ w - microseconds_ v)).
Proof.
  intros Hw Hv. assert (forall x y, in_u 64 (microseconds_ x) -> in_u 64 (microseconds_ y) ->
    ToMicroseconds (AbsoluteDifference x y) =
      Z.min (2 ^ 63 - 1) (Z.abs (microseconds_ x - microseconds_ y))) as H.
  { intros [x] [y]. unfold AbsoluteDifference, FromMicroseconds, ToMicroseconds, in_u.
    cbn [microseconds_ time_offset_]. intros Hx Hy.
    set (d := if y <? x then _ else _).
    assert (d = Z.abs (x - y)) as ->.
    { subst d. destruct (Z.ltb_spec y x); rewrite wrap_id by (unfold in_u; lia); lia. }
    rewrite swrap_id; [|lia|]; destruct (Z.ltb_spec (2 ^ 63 - 1) (Z.abs (x - y)));
      unfold in_s; change (64 - 1) with 63; lia. }
  split; [|by apply H]. pose proof (H w v Hw Hv). pose proof (H v w Hv Hw).
  destruct (AbsoluteDifference w v), (AbsoluteDifference v w). cbn in *. f_equal. lia.
Qed.

Lemma wall_add_subtract_witness :
  microseconds_ (Add (mkWall 10) (mkDelta (-3))) = 2 ^ 64 - 1 /\
  microseconds_ (Subtract (mkWall 10) (mkDelta (-3))) = 0.
Proof.
  destruct (wall_add_subtract (mkWall 10) (mkDelta (-3))) as [_ H].
  - split; reflexivity || discriminate.
  - split; vm_compute; congruence.
  - destruct (H eq_refl) as [H1 H2]. split; [apply H1; vm_compute; congruence | apply H2; reflexivity].
Defined.

Lemma absolute_difference_spec_witness :
  AbsoluteDifference (mkWall 3) (mkWall 10) = AbsoluteDifference (mkWall 10) (mkWall 3) /\
  ToMicroseconds (AbsoluteDifference (mkWall 3) (mkWall 10)) =
    Z.min (2 ^ 63 - 1) (Z.abs (microseconds_ (mkWall 3) - microseconds_ (mkWall 10))).
Proof. apply absolute_difference_spec; split; vm_compute; congruence. Defined.
