(* ===== verification/Alarm.v ===== *)
(** * Alarms: [scoped_ptr/quic_alarm.{h,cc}], [scoped_ptr/null_alarm.h]

    [QuicAlarm] is an abstract class: the subclass supplies [SetImpl],
    [CancelImpl] and possibly [UpdateImpl], the owner a delegate with
    [OnAlarm].  All of them may read the alarm's deadline and call the alarm
    back, so they are computations on the alarm object. *)

From S2P Require Import Prelude.
From S2P Require Import QuicTime.
Open Scope Z_scope.

(** The object: the delegate (null for an empty scoped pointer), the deadline,
    and the subclass's fields. *)
Record QuicAlarm (D S : Type) := mkAlarm {
  delegate_ : option D;
  deadline_ : QuicTime;
  subclass : S
}.
Arguments mkAlarm {D S}.
Arguments delegate_ {D S}.
Arguments deadline_ {D S}.
Arguments subclass {D S}.

Section Alarm.
Context {D S : Type}.
Local Abbreviation alarm := (QuicAlarm D S).

Definition set_deadline (t : QuicTime) : M alarm unit :=
  mmodify (fun a => mkAlarm (delegate_ a) t (subclass a)).

Definition new_alarm (delegate : option D) (sub : S) : alarm :=
  mkAlarm delegate Time_Zero sub.

Definition IsSet (a : alarm) : bool := IsInitialized (deadline_ a).

Definition deadline (a : alarm) : QuicTime := deadline_ a.

(** The virtual methods of a subclass and of the delegate. *)
Class AlarmImpl := {
  SetImpl : M alarm unit;
  CancelImpl : M alarm unit;
  UpdateImpl : M alarm unit;
}.

Class Delegate := { OnAlarm : D -> M alarm unit }.

(** [QuicAlarm::UpdateImpl], the default of the third method. *)
Definition QuicAlarm_UpdateImpl (set_impl cancel_impl : M alarm unit) : M alarm unit :=
  a ← mget;
  let new_deadline := deadline_ a in
  set_deadline Time_Zero;;
  cancel_impl;;
  set_deadline new_deadline;;
  set_impl.

Section Operations.
Context `{AlarmImpl} `{Delegate}.

Definition Set_ (new_deadline : QuicTime) : M alarm unit :=
  set_deadline new_deadline;; SetImpl.

Definition Cancel : M alarm unit :=
  a ← mget;
  if negb (IsSet a) then mret tt
  else set_deadline Time_Zero;; CancelImpl.

Definition Update (new_deadline : QuicTime) (granularity : Delta) : M alarm unit :=
  a ← mget;
  if negb (IsInitialized new_deadline) then Cancel
  else if Z.abs (ToMicroseconds (time_diff new_deadline (deadline_ a))) <?
          ToMicroseconds granularity
  then mret tt
  else
    let was_set := IsSet a in
    set_deadline new_deadline;;
    if was_set then UpdateImpl else SetImpl.

Definition Fire : M alarm unit :=
  a ← mget;
  if negb (IsSet a) then mret tt
  else
    set_deadline Time_Zero;;
    a ← mget;
    match delegate_ a with
    | Some d => OnAlarm d
    | None => mstuck
    end.

End Operations.
End Alarm.

Arguments AlarmImpl : clear implicits.
Arguments Delegate : clear implicits.

(** ** [NullAlarm] and [NullDelegate]

    The alarm of the demonstration program: it schedules nothing and is
    polled; its delegate counts the firings. *)

Module NullAlarm.
Record NullDelegate := mkNull { counter_ : Z }.

(** The delegate is reached through the alarm that owns it; [OnAlarm]
    increments its [int] counter. *)
#[export] Instance null_delegate : Delegate NullDelegate unit := {
  OnAlarm := fun d => mmodify (fun a =>
    mkAlarm (Some (mkNull (s32 (counter_ d + 1)))) (deadline_ a) (subclass a))
}.

#[export] Instance null_alarm {D} : AlarmImpl D unit := {
  SetImpl := mret tt; CancelImpl := mret tt; UpdateImpl := mret tt
}.

Definition Trigger : M (QuicAlarm NullDelegate unit) unit := Fire.
End NullAlarm.

(** ** The contract

    A subclass that schedules a task: [task] is the deadline of the task it
    has scheduled, [expired] its state once the scheduler has taken the task
    to run it.  [SetImpl] is entered with nothing scheduled and schedules the
    deadline it reads from the alarm; [CancelImpl] is entered with a task
    scheduled and withdraws it; [UpdateImpl] replaces it.  None of them touches
    the private fields. *)

Class Scheduler (S : Type) := {
  task : S -> option QuicTime;
  expired : S -> S
}.

(** A computation that ends normally, keeps the delegate, and leaves the
    deadline [t] and the task [k]. *)
Definition leaves {D S} `{Scheduler S} (m : M (QuicAlarm D S) unit) (a : QuicAlarm D S)
    (t : QuicTime) (k : option QuicTime) : Prop :=
  exists a', m a = (Ok tt, a') /\ delegate_ a' = delegate_ a /\ deadline_ a' = t /\
    task (subclass a') = k.

Class SchedulerOk (D S : Type) `{Scheduler S} `{AlarmImpl D S} : Prop := {
  set_ok a : task (subclass a) = None ->
    leaves SetImpl a (deadline_ a) (Some (deadline_ a));
  cancel_ok a t : task (subclass a) = Some t -> leaves CancelImpl a (deadline_ a) None;
  update_ok a t : task (subclass a) = Some t ->
    leaves UpdateImpl a (deadline_ a) (Some (deadline_ a));
  expired_ok (s : S) : task (expired s) = None
}.

(** The alarm's clients see one pending deadline, if any. *)
Inductive request : Type :=
  | RSet (t : QuicTime)
  | RCancel
  | RUpdate (t : QuicTime) (g : Delta).

Definition spec_request (r : request) (p : option QuicTime) : option QuicTime :=
  match r with
  | RSet t => Some t
  | RCancel => None
  | RUpdate t g =>
      if negb (IsInitialized t) then None
      else if Z.abs (ToMicroseconds (time_diff t (default Time_Zero p))) <? ToMicroseconds g
      then p else Some t
  end.

(** [Set] is for an alarm that is not set, and a real time. *)
Definition allowed (r : request) (p : option QuicTime) : Prop :=
  match r with
  | RSet t => p = None /\ IsInitialized t = true
  | _ => True
  end.

Fixpoint all_allowed (rs : list request) (p : option QuicTime) : Prop :=
  match rs with
  | [] => True
  | r :: rs => allowed r p /\ all_allowed rs (spec_request r p)
  end.

Definition spec_requests (rs : list request) (p : option QuicTime) : option QuicTime :=
  foldl (fun p r => spec_request r p) p rs.

(** The scheduler runs the task of a pending alarm: the alarm is no longer set
    when the delegate, which makes the requests [rs], is called. *)
Inductive event : Type :=
  | Request (r : request)
  | Expire.

Definition spec_event (rs : list request) (e : event) (p : option QuicTime) : option QuicTime :=
  match e with
  | Request r => spec_request r p
  | Expire => match p with Some _ => spec_requests rs None | None => None end
  end.

Fixpoint events_allowed (rs : list request) (es : list event) (p : option QuicTime) : Prop :=
  match es with
  | [] => True
  | e :: es =>
      match e with
      | Request r => allowed r p
      | Expire => all_allowed rs None
      end /\ events_allowed rs es (spec_event rs e p)
  end.

Section Refinement.
Context {D S : Type} `{SchedulerOk D S}.
Local Abbreviation alarm := (QuicAlarm D S).

Definition run_request (r : request) : M alarm unit :=
  match r with
  | RSet t => Set_ t
  | RCancel => Cancel
  | RUpdate t g => Update t g
  end.

Fixpoint run_requests (rs : list request) : M alarm unit :=
  match rs with
  | [] => mret tt
  | r :: rs => run_request r;; run_requests rs
  end.

Definition take_task : M alarm unit :=
  mmodify (fun a => mkAlarm (delegate_ a) (deadline_ a) (expired (subclass a))).

Definition run_event `{Delegate D S} (e : event) : M alarm unit :=
  match e with
  | Request r => run_request r
  | Expire => take_task;; Fire
  end.

Fixpoint run_events `{Delegate D S} (es : list event) : M alarm unit :=
  match es with
  | [] => mret tt
  | e :: es => run_event e;; run_events es
  end.

(** The abstract state [p] and the object: the deadline field is zero exactly
    when nothing is pending, and the task scheduled is the pending one. *)
Record pending (d : option D) (p : option QuicTime) (a : alarm) : Prop := {
  pending_delegate : delegate_ a = d;
  pending_deadline : deadline_ a = default Time_Zero p;
  pending_set : IsSet a = bool_decide (is_Some p);
  pending_task : task (subclass a) = p
}.

Lemma pending_intro d p a' :
  delegate_ a' = d -> deadline_ a' = default Time_Zero p -> task (subclass a') = p ->
  (forall t, p = Some t -> IsInitialized t = true) -> pending d p a'.
Proof.
  intros Hd Ht Hk Hi. split; [done..| |done]. unfold IsSet. rewrite Ht.
  destruct p as [t|]; [by apply Hi|done].
Qed.

Lemma pending_init d p a t : pending d p a -> p = Some t -> IsInitialized t = true.
Proof. intros [_ Ht Hs _] ->. unfold IsSet in Hs. by rewrite Ht in Hs. Qed.

(** A computation entered with the deadline field already overwritten. *)
Lemma leaves_pending d (m : M alarm unit) a t p :
  leaves m (mkAlarm (delegate_ a) t (subclass a)) (default Time_Zero p) p ->
  delegate_ a = d -> (forall t, p = Some t -> IsInitialized t = true) ->
  exists a', (set_deadline t;; m) a = (Ok tt, a') /\ pending d p a'.
Proof.
  intros (a' & E & Hd & Ht & Hk) Hda Hi. exists a'. split; [exact E|].
  apply pending_intro; [by rewrite Hd|done..].
Qed.

Lemma Set_pending d a t :
  pending d None a -> IsInitialized t = true ->
  exists a', Set_ t a = (Ok tt, a') /\ pending d (Some t) a'.
Proof.
  intros [Hd Ht Hs Hk] Hi. apply leaves_pending; [|done|naive_solver].
  by apply (set_ok (mkAlarm (delegate_ a) t (subclass a))).
Qed.

Lemma Cancel_pending d p a :
  pending d p a -> exists a', Cancel a = (Ok tt, a') /\ pending d None a'.
Proof.
  intros Hp. pose proof Hp as [Hd Ht Hs Hk]. unfold Cancel. rewrite (M_bind_ok _ _ _ a a) by done.
  rewrite Hs. destruct p as [t|]; cbn; [|by exists a].
  apply leaves_pending; [|done..].
  by apply (cancel_ok (mkAlarm (delegate_ a) Time_Zero (subclass a)) t).
Qed.

Lemma Update_pending d p a t g :
  pending d p a ->
  exists a', Update t g a = (Ok tt, a') /\ pending d (spec_request (RUpdate t g) p) a'.
Proof.
  intros Hp. pose proof Hp as [Hd Ht Hs Hk]. unfold Update. rewrite (M_bind_ok _ _ _ a a) by done.
  cbn [spec_request]. destruct (IsInitialized t) eqn:Hi; cbn [negb]; [|by apply (Cancel_pending d p)].
  rewrite Ht. destruct (_ <? _); [by exists a|].
  rewrite Hs. apply leaves_pending; [|done|naive_solver].
  destruct p as [u|]; cbn.
  - by apply (update_ok (mkAlarm (delegate_ a) t (subclass a)) u).
  - by apply (set_ok (mkAlarm (delegate_ a) t (subclass a))).
Qed.

Lemma request_pending d p a r :
  pending d p a -> allowed r p ->
  exists a', run_request r a = (Ok tt, a') /\ pending d (spec_request r p) a'.
Proof.
  intros Hp Ha. destruct r as [t| |t g]; cbn in Ha.
  - destruct Ha as [-> Hi]. by apply Set_pending.
  - by apply (Cancel_pending d p).
  - by apply Update_pending.
Qed.

Lemma requests_pending d rs : forall p a,
  pending d p a -> all_allowed rs p ->
  exists a', run_requests rs a = (Ok tt, a') /\ pending d (spec_requests rs p) a'.
Proof.
  induction rs as [|r rs IH]; intros p a Hp Ha; [by exists a|].
  destruct Ha as [Ha Hr]. destruct (request_pending d p a r Hp Ha) as (a1 & E & Hp1).
  cbn [run_requests]. rewrite (M_bind_ok _ _ _ tt a1) by done. by apply IH.
Qed.

(** An expiry with no alarm pending does nothing; otherwise the alarm is reset
    and the delegate runs. *)
Lemma expire_pending `{Delegate D S} d rs p a :
  pending (Some d) p a -> OnAlarm d = run_requests rs -> all_allowed rs None ->
  exists a', (take_task;; Fire) a = (Ok tt, a') /\ pending (Some d) (spec_event rs Expire p) a'.
Proof.
  intros Hp Hd Ha. pose proof Hp as [Hda Ht Hs Hk].
  set (a1 := mkAlarm (delegate_ a) (deadline_ a) (expired (subclass a))).
  rewrite (M_bind_ok _ _ _ tt a1) by done. unfold Fire. rewrite (M_bind_ok _ _ _ a1 a1) by done.
  change (IsSet a1) with (IsSet a). rewrite Hs. destruct p as [t|]; cbn [spec_event].
  - set (a2 := mkAlarm (delegate_ a) Time_Zero (expired (subclass a))).
    change (negb (bool_decide (is_Some (Some t)))) with false. cbv match.
    rewrite (M_bind_ok _ _ _ tt a2), (M_bind_ok _ _ _ a2 a2) by done.
    change (delegate_ a2) with (delegate_ a). rewrite Hda, Hd. apply requests_pending; [|done].
    apply pending_intro; [done|done|apply expired_ok|done].
  - exists a1. split; [done|]. apply pending_intro; [done|done|apply expired_ok|done].
Qed.

(** C25: An alarm with a conforming subclass behaves as a single pending
    deadline under any sequence of [Set], [Cancel], [Update] and expiries, the
    delegate being free to set the alarm again: every call returns, what the
    subclass has scheduled is always exactly the pending deadline, an update
    closer than the granularity leaves the task alone, and an expiry runs the
    delegate once, with the alarm unset. *)
Theorem alarm_refines `{Delegate D S} d rs es : forall p a,
  pending (Some d) p a -> OnAlarm d = run_requests rs -> events_allowed rs es p ->
  exists a', run_events es a = (Ok tt, a') /\
    pending (Some d) (foldl (fun p e => spec_event rs e p) p es) a'.
Proof.
  induction es as [|e es IH]; intros p a Hp Hd Ha; [by exists a|]. destruct Ha as [Ha Hr].
  assert (exists a1, run_event e a = (Ok tt, a1) /\ pending (Some d) (spec_event rs e p) a1)
    as (a1 & E & Hp1).
  { destruct e as [r|]; [by apply request_pending | by apply expire_pending]. }
  cbn [run_events]. rewrite (M_bind_ok _ _ _ tt a1) by done. by apply IH.
Qed.

(** The default [UpdateImpl] keeps the contract of the other two methods. *)
Lemma default_update_ok a t :
  task (subclass a) = Some t ->
  leaves (QuicAlarm_UpdateImpl SetImpl CancelImpl) a (deadline_ a) (Some (deadline_ a)).
Proof.
  intros Hk. unfold QuicAlarm_UpdateImpl.
  destruct (cancel_ok (mkAlarm (delegate_ a) Time_Zero (subclass a)) t Hk)
    as (a1 & E1 & Hd1 & Ht1 & Hk1).
  destruct (set_ok (mkAlarm (delegate_ a1) (deadline_ a) (subclass a1)) Hk1)
    as (a2 & E2 & Hd2 & Ht2 & Hk2).
  exists a2. cbn in Hd1, Hd2, Ht2, Hk2. repeat split; [|congruence..].
  rewrite (M_bind_ok _ _ _ a a) by done.
  rewrite (M_bind_ok _ _ _ tt (mkAlarm (delegate_ a) Time_Zero (subclass a))) by done.
  rewrite (M_bind_ok _ _ _ tt a1) by done. exact E2.
Qed.

End Refinement.

(** After [Cancel], a task the subclass failed to withdraw may still call
    [Fire]: it does nothing, whatever the delegate does. *)
Theorem cancelled_never_fires {D S} `{AlarmImpl D S} `{Delegate D S} (a : QuicAlarm D S) a' :
  (forall b b', CancelImpl b = (Ok tt, b') -> deadline_ b' = deadline_ b) ->
  Cancel a = (Ok tt, a') -> Fire a' = (Ok tt, a').
Proof.
  intros Hc E. assert (IsSet a' = false) as Hs.
  { unfold Cancel in E. rewrite (M_bind_ok _ _ _ a a) in E by done.
    destruct (IsSet a) eqn:Es; cbn [negb] in E; [|by injection E as <-].
    set (b := mkAlarm (delegate_ a) Time_Zero (subclass a)) in *.
    rewrite (M_bind_ok _ _ _ tt b) in E by done. apply Hc in E.
    unfold IsSet. by rewrite E. }
  unfold Fire. rewrite (M_bind_ok _ _ _ a' a') by done. by rewrite Hs.
Qed.

(** The branches of [Fire]: an alarm that is not set is left alone; a set
    alarm is reset and the delegate called whatever the time and the deadline;
    a set alarm without a delegate dereferences the null pointer. *)
Theorem fire_branches {D S} `{Delegate D S} (a : QuicAlarm D S) :
  Fire a =
    match IsSet a, delegate_ a with
    | false, _ => (Ok tt, a)
    | true, Some d => OnAlarm d (mkAlarm (Some d) Time_Zero (subclass a))
    | true, None => (Stuck, mkAlarm None Time_Zero (subclass a))
    end.
Proof.
  unfold Fire. rewrite (M_bind_ok _ _ _ a a) by done. destruct (IsSet a); [|done].
  destruct a as [[d|] t s]; done.
Qed.

(** ** A scheduler with one task slot *)

Module OneTask.
#[export] Instance one_task : Scheduler (option QuicTime) := {
  task := id; expired := fun _ => None
}.

Definition set_impl {D} : M (QuicAlarm D (option QuicTime)) unit :=
  mmodify (fun a => mkAlarm (delegate_ a) (deadline_ a) (Some (deadline_ a))).

Definition cancel_impl {D} : M (QuicAlarm D (option QuicTime)) unit :=
  mmodify (fun a => mkAlarm (delegate_ a) (deadline_ a) None).

#[export] Instance one_task_impl {D} : AlarmImpl D (option QuicTime) := {
  SetImpl := set_impl; CancelImpl := cancel_impl;
  UpdateImpl := QuicAlarm_UpdateImpl set_impl cancel_impl
}.

#[export] Instance one_task_ok {D} : SchedulerOk D (option QuicTime).
Proof.
  split; intros.
  - by eexists.
  - by eexists.
  - by exists (mkAlarm (delegate_ a) (deadline_ a) (Some (deadline_ a))).
  - done.
Qed.

(** The delegate of the demonstration program: it sets the alarm again. *)
#[export] Instance rearm : Delegate QuicTime (option QuicTime) := {
  OnAlarm := fun t => run_requests [RSet t]
}.

Definition demo_events : list event :=
  [Request (RSet (mkTime 1000)); Request (RUpdate (mkTime 1400) (mkDelta 500));
   Request (RUpdate (mkTime 2000) (mkDelta 500)); Expire; Request RCancel; Expire].
End OneTask.
Import OneTask.

Lemma alarm_refines_witness :
  exists a', run_events demo_events (new_alarm (Some (mkTime 9000)) None) = (Ok tt, a') /\
    pending (Some (mkTime 9000))
      (foldl (fun p e => spec_event [RSet (mkTime 9000)] e p) None demo_events) a'.
Proof. apply alarm_refines; [by split|done|repeat split]. Defined.

(** The pending deadline after four of those events. *)
Example demo_pending :
  foldl (fun p e => spec_event [RSet (mkTime 9000)] e p) None (take 3 demo_events) =
    Some (mkTime 2000) /\
  foldl (fun p e => spec_event [RSet (mkTime 9000)] e p) None (take 4 demo_events) =
    Some (mkTime 9000).
Proof. done. Qed.

Lemma cancelled_never_fires_witness :
  Fire (new_alarm (Some (mkTime 7)) (@None QuicTime)) = (Ok tt, new_alarm (Some (mkTime 7)) None).
Proof.
  apply (cancelled_never_fires (mkAlarm (Some (mkTime 7)) (mkTime 5) (Some (mkTime 5)))); [|done].
  intros b b' E. by injection E as <-.
Defined.
