(* ===== verification/Clock.v ===== *)
(** * Clocks: [scoped_ptr/quic_clock.{h,cc}], [scoped_ptr/sys_clock.h] and its
    copy [quic-test/myquic/my_quic_clock.h]

    Reading a clock is an effect: the world [W] moves between two readings. *)

From S2P Require Import Prelude.
From S2P Require Import QuicTime.
Open Scope Z_scope.

(** The virtual methods of [QuicClock]. *)
Class ClockImpl (W : Type) := {
  ApproximateNow : W -> QuicTime * W;
  Now : W -> QuicTime * W;
  WallNow : W -> QuicWallTime * W
}.

Record QuicClock := mkClock {
  is_calibrated_ : bool;
  calibration_offset_ : Delta
}.

Definition CreateTimeFromMicroseconds (time_us : Z) : QuicTime := mkTime (s64 time_us).

Definition new_clock : QuicClock := mkClock false Delta_Zero.

Definition SetCalibrationOffset (offset : Delta) (c : QuicClock) : QuicClock :=
  mkClock true offset.

Section Clock.
Context `{ClockImpl W}.

(** One iteration of the calibration loop: the offset of one pair of readings. *)
Definition offset_sample (w : W) : Z * W :=
  let (now, w) := Now w in
  let now_in_us := ToMicroseconds (time_diff now Time_Zero) in
  let (wallnow, w) := WallNow w in
  let wallnow_in_us := s64 (ToUNIXMicroseconds wallnow) in
  (s64 (wallnow_in_us - now_in_us), w).

Fixpoint calibration_loop (n : nat) (min_offset_us : Z) (w : W) : Z * W :=
  match n with
  | O => (min_offset_us, w)
  | S n =>
      let (offset_us, w) := offset_sample w in
      calibration_loop n (if offset_us <? min_offset_us then offset_us else min_offset_us) w
  end.

Definition ComputeCalibrationOffset (w : W) : Delta * W :=
  let (min_offset_us, w) := calibration_loop 128 (2 ^ 63 - 1) w in
  (FromMicroseconds min_offset_us, w).

(** C++ leaves open which operand of the final subtraction is evaluated first:
    [now_first] chooses. *)
Definition ConvertWallTimeToQuicTime (now_first : bool) (c : QuicClock) (walltime : QuicWallTime)
    (w : W) : QuicTime * W :=
  if is_calibrated_ c then
    let time_in_us :=
      s64 (s64 (ToUNIXMicroseconds walltime) - ToMicroseconds (calibration_offset_ c)) in
    (time_add Time_Zero (FromMicroseconds time_in_us), w)
  else
    let since wallnow :=
      FromMicroseconds (ToUNIXMicroseconds
        (Subtract wallnow (FromMicroseconds (ToUNIXMicroseconds walltime)))) in
    if now_first then
      let (now, w) := Now w in
      let (wallnow, w) := WallNow w in
      (time_sub now (since wallnow), w)
    else
      let (wallnow, w) := WallNow w in
      let (now, w) := Now w in
      (time_sub now (since wallnow), w).

(** The offsets of [n] successive pairs of readings. *)
Fixpoint offset_samples (n : nat) (w : W) : list Z :=
  match n with
  | O => []
  | S n => let (o, w) := offset_sample w in o :: offset_samples n w
  end.

Lemma offset_sample_in_s w : in_s 64 (offset_sample w).1.
Proof.
  unfold offset_sample. destruct (Now w) as [now w1], (WallNow w1). by apply swrap_range.
Qed.

(** The loop is a minimum over the samples. *)
Lemma calibration_loop_min n : forall m w,
  (calibration_loop n m w).1 = foldr Z.min m (offset_samples n w).
Proof.
  assert (forall l a b, foldr Z.min (Z.min a b) l = Z.min a (foldr Z.min b l)) as Hf.
  { induction l as [|x l IH]; intros a b; cbn; [done|]. rewrite IH. lia. }
  induction n as [|n IH]; intros m w; [done|].
  cbn [calibration_loop offset_samples]. destruct (offset_sample w) as [o w1].
  rewrite IH. cbn [foldr]. rewrite <- Hf. f_equal. destruct (Z.ltb_spec o m); lia.
Qed.

Lemma foldr_min_spec (l : list Z) m :
  (foldr Z.min m l = m \/ foldr Z.min m l ∈ l) /\ (forall x, x ∈ l -> foldr Z.min m l <= x).
Proof.
  induction l as [|y l [IH1 IH2]]; cbn [foldr].
  - split; [by left|]. intros x Hx. by apply not_elem_of_nil in Hx.
  - split.
    + destruct (Z.min_spec y (foldr Z.min m l)) as [[_ ->]|[_ ->]]; [right; by left|].
      destruct IH1 as [E|E]; [by left|right; by right].
    + intros x [->|Hx]%elem_of_cons; [lia|]. specialize (IH2 x Hx). lia.
Qed.

Lemma offset_samples_in_s n : forall w, Forall (in_s 64) (offset_samples n w).
Proof.
  induction n as [|n IH]; intros w; [constructor|]. cbn [offset_samples].
  pose proof (offset_sample_in_s w) as Ho. destruct (offset_sample w) as [o w1]. by constructor.
Qed.

Lemma calibration_offset_value w :
  let d := time_offset_ (ComputeCalibrationOffset w).1 in
  d ∈ offset_samples 128 w /\ forall x, x ∈ offset_samples 128 w -> d <= x.
Proof.
  unfold ComputeCalibrationOffset.
  pose proof (calibration_loop_min 128 (2 ^ 63 - 1) w) as E.
  destruct (calibration_loop 128 (2 ^ 63 - 1) w) as [m w']. cbn [fst] in E.
  cbn [FromMicroseconds time_offset_ fst].
  pose proof (offset_samples_in_s 128 w) as Hs.
  destruct (foldr_min_spec (offset_samples 128 w) (2 ^ 63 - 1)) as [H1 H2].
  rewrite <- E in H1, H2.
  assert (exists o l, offset_samples 128 w = o :: l) as (o & l & Eo).
  { cbn [offset_samples]. destruct (offset_sample w). eauto. }
  assert (m ∈ offset_samples 128 w) as Hm.
  { destruct H1 as [->|H1]; [|done].
    assert (o ∈ offset_samples 128 w) as Ho by (rewrite Eo; by left).
    pose proof (H2 o Ho). rewrite Forall_forall in Hs. pose proof (Hs o Ho) as [_ Hlt].
    change (64 - 1) with 63 in Hlt. by replace (2 ^ 63 - 1) with o by lia. }
  rewrite swrap_id; [done|lia|]. rewrite Forall_forall in Hs. by apply Hs.
Qed.

(** Calibration finds the true offset: when no pair of readings shows less
    than [d] (the wall clock, read second, only gains on [Now]) and one of the
    128 shows [d] exactly, the calibrated clock converts the wall time of an
    instant [t] back to [t], reading no clock. *)
Theorem calibrated_roundtrip now_first c w0 d t w :
  let offset := (ComputeCalibrationOffset w0).1 in
  (forall x, x ∈ offset_samples 128 w0 -> d <= x) -> d ∈ offset_samples 128 w0 ->
  in_s 64 t -> in_s 64 (t + d) -> 0 <= t + d ->
  ConvertWallTimeToQuicTime now_first (SetCalibrationOffset offset c)
    (FromUNIXMicroseconds (t + d)) w = (mkTime t, w).
Proof.
  intros offset Hmin Hin Ht Htd H0.
  destruct (calibration_offset_value w0) as [H1 H2].
  assert (time_offset_ offset = d) as E.
  { pose proof (Hmin _ H1). pose proof (H2 d Hin). unfold offset. lia. }
  unfold ConvertWallTimeToQuicTime. cbn [SetCalibrationOffset is_calibrated_ calibration_offset_].
  unfold ToMicroseconds. rewrite E. unfold FromUNIXMicroseconds, ToUNIXMicroseconds.
  cbn [microseconds_]. rewrite swrap_wrap, (swrap_id 64 (t + d)) by (done || lia).
  replace (t + d - d) with t by lia. unfold FromMicroseconds, time_add, Time_Zero.
  cbn [time_ time_offset_]. by rewrite !(swrap_id 64 t), Z.add_0_l, swrap_id by (done || lia).
Qed.

(** The pair of readings, in the order chosen. *)
Definition readings (now_first : bool) (w : W) : QuicTime * QuicWallTime * W :=
  if now_first then
    let (now, w) := Now w in let (wallnow, w) := WallNow w in (now, wallnow, w)
  else
    let (wallnow, w) := WallNow w in let (now, w) := Now w in (now, wallnow, w).

Lemma age_subtract now wallnow walltime :
  in_s 64 (microseconds_ walltime) -> 0 <= microseconds_ walltime ->
  in_u 64 (microseconds_ wallnow) ->
  let age := Z.max 0 (microseconds_ wallnow - microseconds_ walltime) in
  in_s 64 age -> in_s 64 (time_ now - age) ->
  time_sub now (FromMicroseconds (ToUNIXMicroseconds (Subtract wallnow
    (FromMicroseconds (ToUNIXMicroseconds walltime))))) = mkTime (time_ now - age).
Proof.
  intros Hw H0 Hn age Ha Ht. unfold FromMicroseconds, ToUNIXMicroseconds.
  rewrite (swrap_id 64 (microseconds_ walltime)) by (done || lia).
  assert (microseconds_ (Subtract wallnow (mkDelta (microseconds_ walltime))) = age) as ->.
  { unfold Subtract, ToMicroseconds. cbn [time_offset_ microseconds_].
    unfold in_u in Hn. unfold in_s in Hw. change (64 - 1) with 63 in Hw. unfold age.
    destruct (decide (0 <= microseconds_ wallnow - microseconds_ walltime)).
    - rewrite wrap_id by (unfold in_u; lia). rewrite (proj2 (Z.ltb_ge _ _)); lia.
    - rewrite wrap_neg by lia. rewrite (proj2 (Z.ltb_lt _ _)); lia. }
  unfold time_sub. cbn [time_offset_]. by rewrite (swrap_id 64 age), swrap_id by (done || lia).
Qed.

(** Without calibration the conversion is relative to one pair of readings:
    [Now] less the age of the wall time, in either order of evaluation; a wall
    time in the future has age zero, and converts to [Now] itself. *)
Theorem uncalibrated_conversion (now_first : bool) c walltime w now wallnow w' :
  is_calibrated_ c = false -> readings now_first w = (now, wallnow, w') ->
  in_s 64 (microseconds_ walltime) -> 0 <= microseconds_ walltime ->
  in_u 64 (microseconds_ wallnow) ->
  let age := Z.max 0 (microseconds_ wallnow - microseconds_ walltime) in
  in_s 64 age -> in_s 64 (time_ now - age) ->
  ConvertWallTimeToQuicTime now_first c walltime w = (mkTime (time_ now - age), w').
Proof.
  intros Hc Er Hw H0 Hn age Ha Ht. unfold ConvertWallTimeToQuicTime. rewrite Hc.
  unfold readings in Er. destruct now_first.
  - destruct (Now w) as [n w1], (WallNow w1) as [wn w2]. injection Er as -> -> ->.
    by rewrite age_subtract.
  - destruct (WallNow w) as [wn w1], (Now w1) as [n w2]. injection Er as -> -> ->.
    by rewrite age_subtract.
Qed.

End Clock.

(** ** The system clock

    [gettimeofday] belongs to the operating system. *)

Class TimeOfDay (W : Type) := gettimeofday : W -> (Z * Z) * W.

Section SysClock.
Context `{TimeOfDay W}.

Definition iclock64 (w : W) : Z * W :=
  let '((s, u), w) := gettimeofday w in
  (s64 (s * 1000 + Z.quot u 1000), w).

Definition iclock (w : W) : Z * W :=
  let (v, w) := iclock64 w in (u32 (Z.land v (2 ^ 32 - 1)), w).

Definition SysClock_Now (w : W) : QuicTime * W :=
  let (now, w) := iclock64 w in
  (time_add Time_Zero (FromMilliseconds now), w).

Definition SysClock_WallNow (w : W) : QuicWallTime * W :=
  let (ms, w) := iclock64 w in
  let time_since_unix_epoch_micro := s64 (ms * 1000) in
  (FromUNIXMicroseconds time_since_unix_epoch_micro, w).

#[export] Instance SysClock : ClockImpl W := {
  ApproximateNow := SysClock_Now; Now := SysClock_Now; WallNow := SysClock_WallNow
}.

(** The system clock gives the time of day cut to the millisecond, the same
    for [Now] and [WallNow], for every time of day before the 64-bit
    microsecond count overflows. *)
Theorem sys_clock_value w s u w' :
  gettimeofday w = ((s, u), w') -> 0 <= s < 2 ^ 43 -> 0 <= u < 1000000 ->
  exists t, Now w = (mkTime t, w') /\ WallNow w = (mkWall t, w') /\
    t = (s * 1000000 + u) / 1000 * 1000 /\ iclock w = ((t / 1000) mod 2 ^ 32, w').
Proof.
  intros E Hs Hu. exists ((s * 1000 + u / 1000) * 1000).
  cbn [Now WallNow SysClock]. unfold SysClock_Now, SysClock_WallNow, iclock, iclock64. rewrite E.
  rewrite Z.quot_div_nonneg by lia. change (2 ^ 43) with 8796093022208 in Hs.
  assert (0 <= u / 1000 < 1000) by (split; [apply Z.div_pos|apply Z.div_lt_upper_bound]; lia).
  set (q := u / 1000) in *.
  assert (forall z, 0 <= z < 2 ^ 63 -> s64 z = z) as Hid
    by (intros; apply swrap_id; [lia|]; unfold in_s; change (64 - 1) with 63; lia).
  change (2 ^ 63) with 9223372036854775808 in Hid.
  rewrite (Hid (s * 1000 + q)) by lia. unfold FromMilliseconds, FromUNIXMicroseconds, time_add.
  cbn [time_ Time_Zero time_offset_]. rewrite !Hid by (rewrite ?Hid; lia).
  rewrite (wrap_id 64) by (unfold in_u; lia).
  split; [done|]. split; [done|]. split.
  - replace (s * 1000000 + u) with (u + (s * 1000) * 1000) by lia.
    rewrite Z.div_add by lia. fold q. lia.
  - rewrite Z.div_mul by lia.
    change (2 ^ 32 - 1) with (Z.ones 32). rewrite Z.land_ones by lia.
    unfold wrap. by rewrite Z.mod_mod by lia.
Qed.

End SysClock.

(** ** Witnesses: a world in which time advances by 300 us per reading *)

Module Ticking.
#[export] Instance ticking : TimeOfDay Z := fun us => ((us / 1000000, us mod 1000000), us + 300).
End Ticking.
Import Ticking.

Lemma calibrated_roundtrip_witness :
  ConvertWallTimeToQuicTime true
    (SetCalibrationOffset (ComputeCalibrationOffset 1000000000).1 new_clock)
    (FromUNIXMicroseconds (5000 + 0)) 7 = (mkTime 5000, 7).
Proof.
  apply calibrated_roundtrip.
  - apply Forall_forall. vm_compute offset_samples. repeat constructor; discriminate.
  - apply (bool_decide_unpack _). vm_compute. exact I.
  - split; [vm_compute; congruence|reflexivity].
  - split; [vm_compute; congruence|reflexivity].
  - vm_compute. congruence.
Defined.

Lemma uncalibrated_conversion_witness :
  ConvertWallTimeToQuicTime false new_clock (mkWall 1500000) 2000000 =
    (mkTime (time_ (mkTime 2000000) -
       Z.max 0 (microseconds_ (mkWall 2000000) - microseconds_ (mkWall 1500000))), 2000600).
Proof.
  apply (uncalibrated_conversion false new_clock (mkWall 1500000) 2000000
    (mkTime 2000000) (mkWall 2000000) 2000600); try reflexivity;
    try (vm_compute; congruence); split; vm_compute; congruence.
Defined.

Lemma sys_clock_value_witness :
  exists t, Now 1234567890 = (mkTime t, 1234568190) /\
    WallNow 1234567890 = (mkWall t, 1234568190) /\
    t = (1234 * 1000000 + 567890) / 1000 * 1000 /\
    iclock 1234567890 = ((t / 1000) mod 2 ^ 32, 1234568190).
Proof.
  apply (sys_clock_value 1234567890 1234 567890 1234568190); [reflexivity| |].
  - split; [vm_compute; congruence|reflexivity].
  - split; [vm_compute; congruence|reflexivity].
Defined.
