(* ===== verification/ArenaPtr.v ===== *)
(** * Owning pointers: [scoped_ptr/quic_arena_scoped_ptr.h]

    [QuicArenaScopedPtr] owns an object of the heap or of an arena and keeps
    the distinction in the low bit of the address.  The store holds the
    pointer variables in scope (each with its [value_] word) and the objects
    alive with where they were allocated; deleting or destroying an object that
    is not alive there, or using one, is [Stuck]. *)

From stdpp Require Import gmap.
From S2P Require Import Prelude.
Open Scope Z_scope.

Inductive ConstructFrom := kHeap | kArena.

#[export] Instance ConstructFrom_eq_dec : EqDecision ConstructFrom.
Proof. solve_decision. Defined.

Definition kFromArenaMask : Z := 1.

Record memory := mkMemory {
  vars : gmap Z Z;
  live : gmap Z ConstructFrom
}.

Abbreviation P := (M memory).

Definition var_get (p : Z) : P Z :=
  s ← mget; match vars s !! p with Some v => mret v | None => mstuck end.

Definition var_set (p v : Z) : P unit := mmodify (fun s => mkMemory (<[p := v]> (vars s)) (live s)).

Definition var_drop (p : Z) : P unit := mmodify (fun s => mkMemory (delete p (vars s)) (live s)).

(** [delete x] and an explicit destructor call. *)
Definition dispose (k : ConstructFrom) (a : Z) : P unit :=
  s ← mget;
  match live s !! a with
  | Some k' => if decide (k' = k) then mput (mkMemory (vars s) (delete a (live s))) else mstuck
  | None => mstuck
  end.

(** [reinterpret_cast<uintptr_t>(value_) & ~kFromArenaMask] on 64 bits. *)
Definition get (value_ : Z) : Z := Z.land value_ (u64 (Z.lnot kFromArenaMask)).

Definition is_from_arena (value_ : Z) : bool := negb (Z.land value_ kFromArenaMask =? 0).

Definition ptr_eq (l r : Z) : bool := get l =? get r.

(** The constructor taking a raw pointer. *)
Definition construct (value : Z) (from_arena : ConstructFrom) : Z :=
  match from_arena with
  | kHeap => value
  | kArena => Z.lor value kFromArenaMask
  end.

Definition new_empty (p : Z) : P unit := var_set p 0.

Definition new_from (p value : Z) (from : ConstructFrom) : P unit :=
  var_set p (construct value from).

(** [QuicArenaScopedPtr(QuicArenaScopedPtr<U>&& other)]. *)
Definition move_construct (p other : Z) : P unit :=
  v ← var_get other; var_set p v;; var_set other 0.

Definition swap (p other : Z) : P unit :=
  v ← var_get p; u ← var_get other; var_set p u;; var_set other v.

(** [operator=(QuicArenaScopedPtr<U>&& other)]. *)
Definition move_assign (p other : Z) : P unit := swap p other.

Definition reset (p value : Z) : P unit :=
  v ← var_get p;
  (if negb (v =? 0) then
     if is_from_arena v then dispose kArena (get v) else dispose kHeap (get v)
   else mret tt);;
  var_set p value.

(** The destructor; the variable leaves scope. *)
Definition destruct_ptr (p : Z) : P unit := reset p 0;; var_drop p.

(** [operator*] and [operator->]. *)
Definition deref (p : Z) : P Z :=
  v ← var_get p;
  s ← mget;
  massert (bool_decide (is_Some (live s !! get v)));;
  mret (get v).

(** ** Programs using the pointers *)

Inductive stmt : Type :=
  | Empty (p : Z)
  | New (p a : Z) (from : ConstructFrom)
  | MoveConstruct (p q : Z)
  | MoveAssign (p q : Z)
  | Swap (p q : Z)
  | Reset_ (p : Z) (new : option Z)
  | Destruct (p : Z)
  | Deref (p : Z).

(** [New] and a [reset] to a new object allocate the object at [a] first. *)
Definition allocate (a : Z) (from : ConstructFrom) : P unit :=
  mmodify (fun s => mkMemory (vars s) (<[a := from]> (live s))).

Definition run_stmt (c : stmt) : P unit :=
  match c with
  | Empty p => new_empty p
  | New p a from => allocate a from;; new_from p a from
  | MoveConstruct p q => move_construct p q
  | MoveAssign p q => move_assign p q
  | Swap p q => swap p q
  | Reset_ p (Some a) => allocate a kHeap;; reset p a
  | Reset_ p None => reset p 0
  | Destruct p => destruct_ptr p
  | Deref p => deref p;; mret tt
  end.

Fixpoint run_stmts (cs : list stmt) : P unit :=
  match cs with
  | [] => mret tt
  | c :: cs => run_stmt c;; run_stmts cs
  end.

(** What the language and the allocator ensure: a declared name is new, a used
    one is in scope, a new object's address is aligned and not in use; a
    dereferenced pointer is not null. *)
Definition fresh_addr (s : memory) (a : Z) : Prop :=
  0 < a < 2 ^ 64 /\ Z.even a = true /\ live s !! a = None.

Definition legal (s : memory) (c : stmt) : Prop :=
  match c with
  | Empty p => vars s !! p = None
  | New p a _ => vars s !! p = None /\ fresh_addr s a
  | MoveConstruct p q => vars s !! p = None /\ is_Some (vars s !! q)
  | MoveAssign p q | Swap p q => is_Some (vars s !! p) /\ is_Some (vars s !! q)
  | Reset_ p new => is_Some (vars s !! p) /\ from_option (fresh_addr s) True new
  | Destruct p => is_Some (vars s !! p)
  | Deref p => exists v, vars s !! p = Some v /\ v <> 0
  end.

Fixpoint all_legal (s : memory) (cs : list stmt) : Prop :=
  match cs with
  | [] => True
  | c :: cs => legal s c /\ all_legal (run_stmt c s).2 cs
  end.

(** ** Ownership *)

(** Every live object has an aligned address and exactly one owner, whose word
    is the tagged address; every word that is not null owns a live object. *)
Record owned (s : memory) : Prop := {
  owned_addr a k : live s !! a = Some k -> 0 < a < 2 ^ 64 /\ Z.even a = true;
  owned_word p v : vars s !! p = Some v -> v <> 0 ->
    exists a k, v = construct a k /\ live s !! a = Some k;
  owned_by a k : live s !! a = Some k -> exists p, vars s !! p = Some (construct a k);
  owned_once p q a k : vars s !! p = Some (construct a k) -> vars s !! q = Some (construct a k) ->
    live s !! a = Some k -> p = q
}.

Definition address (a : Z) : Prop := 0 < a < 2 ^ 64 /\ Z.even a = true.

Lemma even_bit0 a : Z.even a = true -> Z.testbit a 0 = false.
Proof. intros H. rewrite Z.bit0_odd, <- Z.negb_even, H. done. Qed.

(** The tag and the address are recovered from the word. *)
Lemma construct_tag a k : address a ->
  get (construct a k) = a /\ is_from_arena (construct a k) = bool_decide (k = kArena) /\
  construct a k <> 0.
Proof.
  intros [Ha He]. assert (Z.land a 1 = 0) as H1.
  { change 1 with (Z.ones 1). rewrite Z.land_ones by lia. change (2 ^ 1) with 2.
    rewrite Zmod_even, He. done. }
  assert (forall i, 0 <= i -> Z.testbit (u64 (Z.lnot 1)) i = (1 <=? i) && (i <? 64)) as Hm.
  { intros i Hi. unfold wrap. destruct (Z.ltb_spec i 64).
    - rewrite Z.mod_pow2_bits_low by lia. rewrite Z.lnot_spec by lia. rewrite andb_true_r.
      destruct (Z.leb_spec 1 i).
      + change 1 with (2 ^ 0). by rewrite Z.pow2_bits_false by lia.
      + by replace i with 0 by lia.
    - rewrite Z.mod_pow2_bits_high by lia. by rewrite andb_false_r. }
  assert (forall b, (b = 0 \/ b = 1) -> Z.land (Z.lor a b) (u64 (Z.lnot 1)) = a) as Hg.
  { intros b Hb. apply Z.bits_inj'. intros i Hi. rewrite Z.land_spec, Z.lor_spec, Hm by done.
    destruct (Z.leb_spec 1 i).
    - replace (Z.testbit b i) with false.
      + rewrite orb_false_r. destruct (Z.ltb_spec i 64); [by rewrite andb_true_r|].
        rewrite andb_false_r. symmetry. rewrite <- (Z.mod_small a (2 ^ 64)) by lia.
        by rewrite Z.mod_pow2_bits_high by lia.
      + destruct Hb as [-> | ->]; [by rewrite Z.bits_0|].
        change 1 with (2 ^ 0). by rewrite Z.pow2_bits_false by lia.
    - replace i with 0 by lia. rewrite andb_false_r. by rewrite even_bit0. }
  unfold get, is_from_arena, kFromArenaMask. destruct k; cbn [construct].
  - split; [|rewrite H1; split; [done|lia]]. rewrite <- (Z.lor_0_r a) at 1. apply Hg. by left.
  - split; [apply Hg; by right|]. unfold kFromArenaMask.
    rewrite Z.land_comm, Z.land_lor_distr_r, (Z.land_comm 1 a), H1, Z.lor_0_l. split; [done|].
    intros E%Z.lor_eq_0_iff. lia.
Qed.

Lemma construct_inj a k a' k' : address a -> address a' ->
  construct a k = construct a' k' -> a = a' /\ k = k'.
Proof.
  intros Ha Ha' E. pose proof (construct_tag a k Ha) as (H1 & H2 & _).
  pose proof (construct_tag a' k' Ha') as (H3 & H4 & _). rewrite E in H1, H2.
  split; [congruence|]. rewrite H4 in H2. destruct k, k'; done || discriminate.
Qed.

(** A name not in scope, or holding null. *)
Definition no_word (s : memory) (p : Z) : Prop := default 0 (vars s !! p) = 0.

Ltac map_cases :=
  repeat match goal with
  | H : <[?p := _]> _ !! ?q = Some _ |- _ => apply lookup_insert_Some in H as [[??]|[??]]
  | H : delete ?p _ !! ?q = Some _ |- _ => apply lookup_delete_Some in H as [??]
  end; subst.

Lemma owned_set_null s p : owned s -> no_word s p -> owned (mkMemory (<[p := 0]> (vars s)) (live s)).
Proof.
  intros [Ha Hw Hb Ho] Hp. unfold no_word in Hp. split; cbn [vars live].
  - done.
  - intros q v Hq Hv. map_cases; [done|]. eauto.
  - intros a k Hl. destruct (Hb a k Hl) as [q Hq]. exists q. rewrite lookup_insert_ne; [done|].
    intros ->. rewrite Hq in Hp. cbn in Hp. by destruct (construct_tag a k (Ha _ _ Hl)) as (_ & _ & ?).
  - intros q r a k Hq Hr Hl. destruct (construct_tag a k (Ha _ _ Hl)) as (_ & _ & Hn).
    map_cases; try congruence. eauto.
Qed.

Lemma owned_give s p a k : owned s -> no_word s p -> fresh_addr s a ->
  owned (mkMemory (<[p := construct a k]> (vars s)) (<[a := k]> (live s))).
Proof.
  intros Hs Hp (Hr & He & Hf). pose proof (owned_set_null s p Hs Hp) as [Ha Hw Hb Ho].
  cbn [vars live] in *. split; cbn [vars live].
  - intros b l Hl. map_cases; [done|eauto].
  - intros q v Hq Hv. map_cases.
    + exists a, k. by rewrite lookup_insert_eq.
    + destruct (Hw q v) as (b & l & -> & Hl); [by rewrite lookup_insert_ne|done|].
      exists b, l. split; [done|]. rewrite lookup_insert_ne; [done|congruence].
  - intros b l Hl. map_cases; [exists p; by rewrite lookup_insert_eq|].
    destruct (Hb b l) as [q Hq]; [done|]. exists q. map_cases; [|by rewrite lookup_insert_ne].
    destruct (construct_tag b l (Ha _ _ ltac:(done))) as (_ & _ & ?). congruence.
  - assert (forall q b l, q <> p -> vars s !! q = Some (construct b l) ->
      construct b l = construct a k -> address b -> False) as Hx.
    { intros q b l Hq E Ec Hbd. destruct (construct_inj _ _ _ _ Hbd (conj Hr He) Ec) as [-> ->].
      destruct (construct_tag a k (conj Hr He)) as (_ & _ & Hn).
      destruct (Hw q (construct a k)) as (c & m & E1 & Hc);
        [by rewrite lookup_insert_ne|done|].
      destruct (construct_inj a k c m (conj Hr He) (Ha _ _ Hc) E1) as [-> _]. congruence. }
    assert (forall b l, <[a:=k]> (live s) !! b = Some l -> address b) as Hbd.
    { intros b l Hl. map_cases; [by split|by apply (Ha b l)]. }
    intros q r b l Hq Hr' Hl. pose proof (Hbd _ _ Hl).
    apply lookup_insert_Some in Hq as [[??]|[??]], Hr' as [[??]|[??]]; try congruence.
    + exfalso. by apply (Hx r b l).
    + exfalso. by apply (Hx q b l).
    + map_cases; [exfalso; by apply (Hx q b l)|].
      apply (Ho q r b l); by rewrite ?lookup_insert_ne.
Qed.

Lemma owned_take s p a k : owned s -> vars s !! p = Some (construct a k) -> live s !! a = Some k ->
  owned (mkMemory (<[p := 0]> (vars s)) (delete a (live s))).
Proof.
  intros [Ha Hw Hb Ho] Hp Hl. split; cbn [vars live].
  - intros b l Hbl. map_cases. eauto.
  - intros q v Hq Hv. map_cases; [done|]. destruct (Hw q v) as (b & l & -> & Hbl); [done..|].
    exists b, l. split; [done|]. rewrite lookup_delete_ne; [done|]. intros ->.
    assert (l = k) as -> by congruence. by destruct (Ho p q b k).
  - intros b l Hbl. map_cases. destruct (Hb b l) as [q Hq]; [done|]. exists q.
    rewrite lookup_insert_ne; [done|]. intros ->. rewrite Hp in Hq. injection Hq as Hq.
    destruct (construct_inj _ _ _ _ (Ha _ _ Hl) (Ha b l ltac:(done)) Hq). congruence.
  - intros q r b l Hq Hr Hbl. map_cases; try done;
      destruct (construct_tag b l (Ha b l ltac:(done))) as (_ & _ & ?); try congruence. eauto.
Qed.

Lemma owned_swap s p q v u : owned s -> vars s !! p = Some v -> vars s !! q = Some u ->
  owned (mkMemory (<[q := v]> (<[p := u]> (vars s))) (live s)).
Proof.
  intros [Ha Hw Hb Ho] Hp Hq. destruct (decide (p = q)) as [->|Hne].
  { assert (u = v) as -> by congruence. rewrite insert_insert_eq, insert_id by done. by split. }
  split; cbn [vars live].
  - done.
  - intros r w Hr Hn. map_cases; eauto.
  - intros a k Hl. destruct (Hb a k Hl) as [r Hr].
    destruct (decide (r = p)) as [->|]; [exists q; rewrite lookup_insert_eq; congruence|].
    destruct (decide (r = q)) as [->|]; [exists p; rewrite lookup_insert_ne, lookup_insert_eq; congruence|].
    exists r. by rewrite !lookup_insert_ne.
  - intros r t a k Hr Ht Hl. map_cases; eauto;
      match goal with
      | H1 : _ !! ?x = Some (construct a k), H2 : _ !! ?y = Some (construct a k) |- _ =>
          pose proof (Ho x y a k H1 H2 Hl); congruence
      end.
Qed.

Lemma owned_drop s p : owned s -> vars s !! p = Some 0 -> owned (mkMemory (delete p (vars s)) (live s)).
Proof.
  intros [Ha Hw Hb Ho] Hp. split; cbn [vars live].
  - done.
  - intros q v Hq Hv. map_cases. eauto.
  - intros a k Hl. destruct (Hb a k Hl) as [q Hq]. exists q. rewrite lookup_delete_ne; [done|].
    intros ->. destruct (construct_tag a k (Ha a k Hl)) as (_ & _ & ?). congruence.
  - intros q r a k Hq Hr Hl. map_cases. eauto.
Qed.

(** ** The statements *)

Lemma var_get_ok s p v : vars s !! p = Some v -> var_get p s = (Ok v, s).
Proof. intros E. unfold var_get. rewrite (M_bind_ok _ _ _ s s) by done. by rewrite E. Qed.

Lemma swap_ok s p q v u : vars s !! p = Some v -> vars s !! q = Some u ->
  swap p q s = (Ok tt, mkMemory (<[q := v]> (<[p := u]> (vars s))) (live s)).
Proof.
  intros Hp Hq. unfold swap.
  by rewrite (M_bind_ok _ _ _ v s), (M_bind_ok _ _ _ u s) by (by apply var_get_ok).
Qed.

(** [reset] to a word [w], from a store that may already hold [w]'s object. *)
Lemma reset_ok s p w : owned s -> is_Some (vars s !! p) -> w = 0 \/ fresh_addr s w ->
  exists s', (if w =? 0 then reset p 0 else allocate w kHeap;; reset p w) s = (Ok tt, s') /\
    owned s' /\ vars s' = <[p := w]> (vars s) /\
    (forall a, a <> w -> is_Some (live s' !! a) -> is_Some (live s !! a)).
Proof.
  intros Hs [v Hv] Hw.
  set (L := if w =? 0 then live s else <[w := kHeap]> (live s)).
  assert ((if w =? 0 then reset p 0 else allocate w kHeap;; reset p w) s =
          reset p w (mkMemory (vars s) L)) as ->.
  { unfold L. destruct (Z.eqb_spec w 0) as [->|]; [by destruct s|]. done. }
  unfold reset. rewrite (M_bind_ok _ _ _ v (mkMemory (vars s) L)) by (by apply var_get_ok).
  assert (exists L0, owned (mkMemory (<[p := 0]> (vars s)) L0) /\
    (forall a, is_Some (L0 !! a) -> is_Some (live s !! a)) /\
    ((if negb (v =? 0) then if is_from_arena v then dispose kArena (get v)
      else dispose kHeap (get v) else mret tt) (mkMemory (vars s) L)) =
      (Ok tt, mkMemory (vars s) (if w =? 0 then L0 else <[w := kHeap]> L0)))
    as (L0 & H0 & Hsub & E).
  { destruct (Z.eqb_spec v 0) as [->|Hn]; cbn [negb].
    - exists (live s). split; [by apply owned_set_null; [|unfold no_word; rewrite Hv]|done].
    - destruct (owned_word s Hs p v Hv Hn) as (a & k & -> & Hl).
      destruct (construct_tag a k (owned_addr s Hs a k Hl)) as (Hg & Ht & _).
      exists (delete a (live s)). split; [by apply owned_take with k|]. split.
      { intros b [l Hb]. apply lookup_delete_Some in Hb as [_ Hb]. by exists l. }
      rewrite Ht, Hg. transitivity (dispose k a (mkMemory (vars s) L)); [by destruct k|].
      assert (L !! a = Some k /\
        delete a L = (if w =? 0 then delete a (live s) else <[w:=kHeap]> (delete a (live s))))
        as [EL ED].
      { unfold L. destruct (Z.eqb_spec w 0); [done|]. destruct Hw as [?|(_ & _ & Hw)]; [done|].
        assert (w <> a) by congruence. rewrite lookup_insert_ne by done. split; [done|].
        by rewrite delete_insert_ne. }
      unfold dispose. rewrite (M_bind_ok mget _ _ (mkMemory (vars s) L) (mkMemory (vars s) L)) by done.
      cbn [live vars]. rewrite EL.
      rewrite decide_True by done. by rewrite <- ED. }
  rewrite (M_bind_ok _ _ _ _ _ E).
  eexists. split; [reflexivity|]. cbn [vars live]. split; [|split; [done|]].
  - destruct (Z.eqb_spec w 0) as [->|Hn]; [done|]. destruct Hw as [?|Hf]; [done|].
    pose proof (owned_give (mkMemory (<[p:=0]> (vars s)) L0) p w kHeap H0) as Hg.
    cbn [vars live construct] in Hg. rewrite insert_insert_eq in Hg. apply Hg.
    + unfold no_word. cbn. by rewrite lookup_insert_eq.
    + destruct Hf as (? & ? & Hf). split; [done|]. split; [done|]. cbn.
      apply eq_None_not_Some. intros [l Hl]. destruct (Hsub w) as [? ?]; [by exists l|]. congruence.
  - intros a Ha Hl. destruct (Z.eqb_spec w 0); [by apply Hsub|].
    rewrite lookup_insert_ne in Hl by done. by apply Hsub.
Qed.

Lemma stmt_owned s c : owned s -> legal s c ->
  exists s', run_stmt c s = (Ok tt, s') /\ owned s'.
Proof.
  intros Hs Hc. destruct c as [p|p a k|p q|p q|p q|p new|p|p]; cbn [legal run_stmt] in *.
  - eexists. split; [reflexivity|]. apply owned_set_null; [done|]. unfold no_word. by rewrite Hc.
  - destruct Hc as [Hp Ha]. eexists. split; [reflexivity|]. cbn [vars live].
    apply owned_give; [done| |done]. unfold no_word. by rewrite Hp.
  - destruct Hc as [Hp [v Hv]]. assert (p <> q) as Hne by congruence.
    unfold move_construct. rewrite (M_bind_ok _ _ _ v s) by (by apply var_get_ok).
    eexists. split; [reflexivity|].
    pose proof (owned_set_null s p Hs ltac:(unfold no_word; by rewrite Hp)) as H0.
    pose proof (owned_swap _ p q 0 v H0 ltac:(by apply lookup_insert_eq)
      ltac:(cbn; by rewrite lookup_insert_ne)) as H1.
    cbn [vars live] in H1 |- *. by rewrite insert_insert_eq in H1.
  - destruct Hc as [[v Hv] [u Hu]]. eexists. split; [by apply swap_ok|]. by apply owned_swap.
  - destruct Hc as [[v Hv] [u Hu]]. eexists. split; [by apply swap_ok|]. by apply owned_swap.
  - destruct Hc as [Hp Hn]. destruct new as [a|]; cbn in Hn.
    + destruct (reset_ok s p a Hs Hp) as (s' & E & Ho & _); [by right|].
      exists s'. split; [|done]. rewrite (proj2 (Z.eqb_neq a 0)) in E; [done|]. destruct Hn; lia.
    + destruct (reset_ok s p 0 Hs Hp) as (s' & E & Ho & _); [by left|]. by exists s'.
  - destruct (reset_ok s p 0 Hs Hc) as (s' & E & Ho & Ev & _); [by left|].
    unfold destruct_ptr. rewrite (M_bind_ok _ _ _ tt s') by done.
    eexists. split; [reflexivity|]. apply owned_drop; [done|]. by rewrite Ev, lookup_insert_eq.
  - destruct Hc as (v & Hv & Hn). exists s. split; [|done].
    destruct (owned_word s Hs p v Hv Hn) as (a & k & -> & Hl).
    destruct (construct_tag a k (owned_addr s Hs a k Hl)) as (Hg & _ & _).
    unfold deref. rewrite (M_bind_ok _ _ _ (get (construct a k)) s); [done|].
    rewrite (M_bind_ok _ _ _ _ _ (var_get_ok s p _ Hv)), (M_bind_ok mget _ _ s s) by done.
    rewrite Hg. unfold massert. rewrite bool_decide_true by (by exists k). done.
Qed.

(** C26: A program that only uses owning pointers is memory safe: whatever it
    constructs, moves, swaps, resets, dereferences and destroys, it never
    deletes an object twice, nor as the wrong kind, nor uses one that is gone,
    and every live object keeps exactly one owner; so when no pointer is left
    in scope, no object is left alive. *)
Theorem arena_ptr_safe cs : forall s,
  owned s -> all_legal s cs ->
  exists s', run_stmts cs s = (Ok tt, s') /\ owned s' /\ (vars s' = ∅ -> live s' = ∅).
Proof.
  induction cs as [|c cs IH]; intros s Hs Hl.
  - exists s. split; [done|]. split; [done|]. intros E. apply map_eq. intros a. rewrite lookup_empty.
    destruct (live s !! a) as [k|] eqn:El; [|done].
    destruct (owned_by s Hs a k El) as [p Hp]. by rewrite E, lookup_empty in Hp.
  - destruct Hl as [Hc Hl]. destruct (stmt_owned s c Hs Hc) as (s1 & E & H1).
    cbn [run_stmts]. rewrite (M_bind_ok _ _ _ tt s1) by done. rewrite E in Hl. by apply IH.
Qed.

(** The functions of the demonstration program: an object made in one scope,
    moved into a global, and a move between arena and heap objects. *)
Definition demo_program : list stmt :=
  [Empty 0; New 1 4096 kHeap; MoveConstruct 2 1; MoveAssign 0 2; Deref 0; Destruct 2; Destruct 1;
   New 3 8192 kArena; Swap 0 3; Deref 3; Reset_ 3 (Some 12288); Destruct 3; Destruct 0].

Lemma arena_ptr_safe_witness :
  exists s', run_stmts demo_program (mkMemory ∅ ∅) = (Ok tt, s') /\ owned s' /\
    (vars s' = ∅ -> live s' = ∅).
Proof.
  apply arena_ptr_safe.
  - split; cbn; intros *; rewrite ?lookup_empty; done.
  - vm_compute. repeat (split || eexists); discriminate || reflexivity.
Defined.

Example demo_program_end :
  let s := (run_stmts demo_program (mkMemory ∅ ∅)).2 in vars s = ∅ /\ live s = ∅.
Proof. by vm_compute. Qed.
