(* ===== verification/StdMap.v ===== *)
(** * [std::map] with integer keys

    The entries in key order, as iteration sees them: [insert] keeps an
    existing entry, [begin] is the least key and [rbegin] the greatest. *)

From stdpp Require Import sorting.
From S2P Require Import Prelude.
Open Scope Z_scope.

Definition smap (A : Type) : Type := list (Z * A).

Section StdMap.
Context {A : Type}.
Implicit Types m : smap A.

Fixpoint find (k : Z) (m : smap A) : option A :=
  match m with
  | [] => None
  | (j, a) :: m => if decide (j = k) then Some a else find k m
  end.

(** [insert(std::make_pair(k, a))]. *)
Fixpoint insert (k : Z) (a : A) (m : smap A) : smap A :=
  match m with
  | [] => [(k, a)]
  | (j, b) :: m' =>
      if decide (k < j) then (k, a) :: m
      else if decide (k = j) then m
      else (j, b) :: insert k a m'
  end.

(** [erase] of the entry found at [k]. *)
Fixpoint erase (k : Z) (m : smap A) : smap A :=
  match m with
  | [] => []
  | (j, b) :: m' => if decide (j = k) then m' else (j, b) :: erase k m'
  end.

Definition rbegin (m : smap A) : option (Z * A) := last m.

Definition keys (m : smap A) : list Z := m.*1.

Definition ordered (m : smap A) : Prop := StronglySorted Z.lt (keys m).

Lemma ordered_cons j a m :
  ordered ((j, a) :: m) <-> ordered m /\ forall k b, (k, b) ∈ m -> j < k.
Proof.
  unfold ordered, keys. cbn [fmap list_fmap fst]. split.
  - intros H. inversion H as [|x l Hs Hf]; subst. split; [done|].
    intros k b Hk. rewrite Forall_forall in Hf. apply Hf. by apply (list_elem_of_fmap_2 fst m (k, b)).
  - intros [Hs Hf]. constructor; [done|]. apply Forall_forall. intros k Hk.
    apply list_elem_of_fmap in Hk as [[k' b] [-> Hk]]. by apply (Hf k' b).
Qed.

Lemma ordered_nil : ordered [].
Proof. constructor. Qed.

Lemma find_elem k a m : find k m = Some a -> (k, a) ∈ m.
Proof.
  induction m as [|[j b] m IH]; [done|]. cbn. case_decide; [|intros; right; auto].
  intros [= ->]. subst. by left.
Qed.

Lemma elem_find k a m : ordered m -> (k, a) ∈ m -> find k m = Some a.
Proof.
  induction m as [|[j b] m IH]; intros Ho Hin; [by apply not_elem_of_nil in Hin|].
  apply ordered_cons in Ho as [Ho Hlt]. cbn. apply elem_of_cons in Hin as [[= -> ->]|Hin].
  - by rewrite decide_True.
  - specialize (Hlt _ _ Hin). rewrite decide_False by lia. auto.
Qed.

Lemma elem_key_inj k a b m : ordered m -> (k, a) ∈ m -> (k, b) ∈ m -> a = b.
Proof. intros Ho H1 H2. apply elem_find in H1, H2; [congruence|done..]. Qed.

Lemma elem_insert k a m j b : (j, b) ∈ insert k a m -> (j = k /\ b = a) \/ (j, b) ∈ m.
Proof.
  induction m as [|[i c] m IH]; cbn.
  - intros H%list_elem_of_singleton. left. naive_solver.
  - case_decide; [|case_decide].
    + intros [[= -> ->]|H1]%elem_of_cons; auto.
    + auto.
    + intros [[= -> ->]|H1]%elem_of_cons; [right; by left|].
      destruct (IH H1) as [?|?]; [by left|right; by right].
Qed.

Lemma elem_insert_2 k a m j b : (j, b) ∈ m -> (j, b) ∈ insert k a m.
Proof.
  induction m as [|[i c] m IH]; cbn; [by intros H%not_elem_of_nil|].
  case_decide; [intros; by right|]. case_decide; [done|].
  intros [E|H1]%elem_of_cons; [rewrite E; by left|right; auto].
Qed.

Lemma insert_ordered k a m : ordered m -> ordered (insert k a m).
Proof.
  induction m as [|[i c] m IH]; intros Ho; cbn.
  - apply ordered_cons. split; [done|]. by intros ?? ?%not_elem_of_nil.
  - pose proof Ho as [Ho' Hlt]%ordered_cons. case_decide; [|case_decide].
    + apply ordered_cons. split; [done|]. intros j b [[= -> ->]|Hin]%elem_of_cons; [done|].
      specialize (Hlt _ _ Hin). lia.
    + done.
    + apply ordered_cons. split; [auto|]. intros j b [[-> ->]|Hin]%elem_insert; [lia|eauto].
Qed.

(** A key greater than all is appended. *)
Lemma insert_last k a m : (forall j b, (j, b) ∈ m -> j < k) -> insert k a m = m ++ [(k, a)].
Proof.
  induction m as [|[i c] m IH]; intros Hlt; [done|]. cbn.
  assert (i < k) by (apply (Hlt i c); by left).
  rewrite !decide_False by lia. rewrite IH; [done|]. intros j b Hin. apply (Hlt j b). by right.
Qed.

Lemma elem_erase k m j b : (j, b) ∈ erase k m -> (j, b) ∈ m.
Proof.
  induction m as [|[i c] m IH]; cbn; [done|]. case_decide; [by intros; right|].
  intros [E|H1]%elem_of_cons; [rewrite E; by left|right; auto].
Qed.

Lemma erase_ordered k m : ordered m -> ordered (erase k m).
Proof.
  induction m as [|[i c] m IH]; intros Ho; cbn; [done|].
  apply ordered_cons in Ho as [Ho Hlt]. case_decide; [done|].
  apply ordered_cons. split; [auto|]. intros j b Hin%elem_erase. eauto.
Qed.

Lemma ordered_app m1 m2 : ordered (m1 ++ m2) <->
  ordered m1 /\ ordered m2 /\
  forall j b k c, (j, b) ∈ m1 -> (k, c) ∈ m2 -> j < k.
Proof.
  induction m1 as [|[i a] m1 IH]; cbn [app].
  - split; [intros; split; [constructor|split; [done|]] | tauto].
    by intros ???? ?%not_elem_of_nil.
  - rewrite !ordered_cons, IH. split.
    + intros [(H1 & H2 & H3) H4]. split; [split; [done|]|split; [done|]].
      * intros k b Hk. apply (H4 k b). apply elem_of_app. by left.
      * intros j b k c [[= -> ->]|Hj]%elem_of_cons Hk; [|by apply (H3 j b k c)].
        apply (H4 k c). apply elem_of_app. by right.
    + intros [[H1 H2] [H3 H4]]. split; [split; [done|split; [done|]]|].
      * intros j b k c Hj Hk. apply (H4 j b k c); [by right|done].
      * intros k b [Hk|Hk]%elem_of_app; [by apply (H2 k b)|].
        apply (H4 i a k b); [by left|done].
Qed.

Lemma rbegin_spec m k a : rbegin m = Some (k, a) -> exists m', m = m' ++ [(k, a)].
Proof. intros H. by apply last_Some in H. Qed.

End StdMap.
