(* ===== verification/Bbr.v ===== *)
(** * The congestion controller: [quic-test/mybbr/my_bbr_sender.{h,cc}],
      [my_pacing_sender.{h,cc}]

    [MyBbrSender] estimates bandwidth from clusters of packets, one cluster per
    gain-cycle phase.  The clusters are heap objects linked to their neighbours
    and reachable from two containers, so they live here in an explicit store:
    a pointer to a deleted cluster is [Stuck] when it is used.

    The QUIC library's bandwidths, windowed filter and random source are
    parameters; the float gains 1.25, 0.75 and 1 are exact and written in
    quarters. *)

From stdpp Require Import gmap.
From S2P Require Import Prelude.
From S2P Require Import QuicTime.
From S2P Require Import StdMap.
Open Scope Z_scope.

Class BbrLib := {
  QuicBandwidth : Type;
  BW_Zero : QuicBandwidth;
  BW_Infinite : QuicBandwidth;
  FromBitsPerSecond : Z -> QuicBandwidth;
  FromBytesAndTimeDelta : Z -> Delta -> QuicBandwidth;
  bw_lt : QuicBandwidth -> QuicBandwidth -> bool;
  bw_eq : QuicBandwidth -> QuicBandwidth -> bool;
  (** [gain * bandwidth], the gain in quarters *)
  bw_scale : Z -> QuicBandwidth -> QuicBandwidth;
  TransferTime : QuicBandwidth -> Z -> Delta;
  (** [delta * kSimilarMinRttThreshold], a product of doubles rounded *)
  similar_rtt : Delta -> Delta;
  WindowedFilter : Type;
  filter_new : Z -> QuicBandwidth -> Z -> WindowedFilter;
  filter_Update : QuicBandwidth -> Z -> WindowedFilter -> WindowedFilter;
  filter_Reset : QuicBandwidth -> Z -> WindowedFilter -> WindowedFilter;
  GetBest : WindowedFilter -> QuicBandwidth;
  QuicRandom : Type;
  RandUint64 : QuicRandom -> Z * QuicRandom
}.

(** ** Constants *)

Definition kPacingGain : list Z := [5; 3; 4; 4; 4; 4; 4; 4].
Definition kGainCycleLength : Z := zlen kPacingGain.
Definition kBandwidthWindowSize : Z := kGainCycleLength + 2.
Definition kMinRttExpiry : Delta := FromSeconds 10.
Definition kProbeRttTime : Delta := FromMilliseconds 200.
Definition kAverageAckRateWindowSize : Z := 10.

(** ** State *)

Record SentPacketInfo := mkInfo {
  seq : Z;
  sent_ts : QuicTime;
  ack_ts : QuicTime;
  len : Z
}.

Section Bbr.
Context `{BbrLib}.

(** [prev_] and [next_] point to other clusters; [packet_infos_] owns its
    elements and shares them with nobody. *)
Record SentClusterInfo := mkCluster {
  cluster_id_ : Z;
  first_send_ts_ : QuicTime;
  last_send_ts_ : QuicTime;
  first_ack_ts_ : QuicTime;
  last_ack_ts_ : QuicTime;
  acked_packets_ : Z;
  sent_packets_ : Z;
  packet_infos_ : list SentPacketInfo;
  prev_ : option positive;
  next_ : option positive;
  bw_ : QuicBandwidth
}.

Inductive Mode := START_UP | PROBE_BW | PROBE_RTT.

#[global] Instance Mode_eq_dec : EqDecision Mode.
Proof. solve_decision. Defined.

(** The fields of [MyBbrSender] in three groups: the clusters, with the heap
    they live in and the filters they feed; the round-trip times; the gain
    cycle. *)
Record Clusters := mkClusters {
  heap : gmap positive SentClusterInfo;
  fresh : positive;
  connection_info_ : smap positive;
  seq_round_map_ : smap Z;
  acked_clusters_ : list positive;
  max_bandwidth_ : WindowedFilter;
  avergae_bandwidth_ : WindowedFilter;
  average_round_ : Z
}.

Record Rtts := mkRtts {
  seq_ts_map_ : smap QuicTime;
  min_rtt_ : Delta;
  recored_min_rtt_ : Delta;
  min_rtt_timestamp_ : QuicTime;
  exit_probe_rtt_at_ : QuicTime
}.

Record Cycle := mkCycle {
  mode_ : Mode;
  round_trip_count_ : Z;
  pacing_rate_ : QuicBandwidth;
  pacing_gain_ : Z;
  cycle_current_offset_ : Z;
  last_cycle_start_ : QuicTime;
  random_ : QuicRandom
}.

Record MyBbrSender := mkBbr {
  min_bps_ : Z;
  start_bps_ : Z;
  max_bps_ : Z;
  last_ack_seq_ : Z;
  cls : Clusters;
  rtts : Rtts;
  cyc : Cycle
}.

Local Abbreviation B := (M MyBbrSender).

Definition upd_cls (f : Clusters -> Clusters) : B unit := mmodify (fun s =>
  mkBbr (min_bps_ s) (start_bps_ s) (max_bps_ s) (last_ack_seq_ s) (f (cls s)) (rtts s) (cyc s)).

Definition upd_rtts (f : Rtts -> Rtts) : B unit := mmodify (fun s =>
  mkBbr (min_bps_ s) (start_bps_ s) (max_bps_ s) (last_ack_seq_ s) (cls s) (f (rtts s)) (cyc s)).

Definition upd_cyc (f : Cycle -> Cycle) : B unit := mmodify (fun s =>
  mkBbr (min_bps_ s) (start_bps_ s) (max_bps_ s) (last_ack_seq_ s) (cls s) (rtts s) (f (cyc s))).

Definition set_heap (h : gmap positive SentClusterInfo) (c : Clusters) : Clusters :=
  mkClusters h (fresh c) (connection_info_ c) (seq_round_map_ c) (acked_clusters_ c)
    (max_bandwidth_ c) (avergae_bandwidth_ c) (average_round_ c).

Definition set_connection_info (m : smap positive) (c : Clusters) : Clusters :=
  mkClusters (heap c) (fresh c) m (seq_round_map_ c) (acked_clusters_ c)
    (max_bandwidth_ c) (avergae_bandwidth_ c) (average_round_ c).

Definition set_seq_round_map (m : smap Z) (c : Clusters) : Clusters :=
  mkClusters (heap c) (fresh c) (connection_info_ c) m (acked_clusters_ c)
    (max_bandwidth_ c) (avergae_bandwidth_ c) (average_round_ c).

Definition set_acked_clusters (l : list positive) (c : Clusters) : Clusters :=
  mkClusters (heap c) (fresh c) (connection_info_ c) (seq_round_map_ c) l
    (max_bandwidth_ c) (avergae_bandwidth_ c) (average_round_ c).

Definition set_filters (mx av : WindowedFilter) (round : Z) (c : Clusters) : Clusters :=
  mkClusters (heap c) (fresh c) (connection_info_ c) (seq_round_map_ c) (acked_clusters_ c)
    mx av round.

(** ** Clusters *)

(** Access through a pointer. *)
Definition cl_get (p : positive) : B SentClusterInfo :=
  s ← mget; match heap (cls s) !! p with Some c => mret c | None => mstuck end.

Definition cl_put (p : positive) (c : SentClusterInfo) : B unit :=
  upd_cls (fun cs => set_heap (<[p := c]> (heap cs)) cs).

Definition cl_delete (p : positive) : B unit :=
  cl_get p;; upd_cls (fun cs => set_heap (delete p (heap cs)) cs).

Definition new_cluster (cluster_id : Z) : SentClusterInfo :=
  mkCluster cluster_id Time_Zero Time_Zero Time_Zero Time_Zero 0 0 [] None None BW_Zero.

Definition SetPrev (p : positive) (prev : option positive) : B unit :=
  c ← cl_get p;
  cl_put p (mkCluster (cluster_id_ c) (first_send_ts_ c) (last_send_ts_ c) (first_ack_ts_ c)
    (last_ack_ts_ c) (acked_packets_ c) (sent_packets_ c) (packet_infos_ c) prev (next_ c) (bw_ c)).

Definition SetNext (p : positive) (next : option positive) : B unit :=
  c ← cl_get p;
  cl_put p (mkCluster (cluster_id_ c) (first_send_ts_ c) (last_send_ts_ c) (first_ack_ts_ c)
    (last_ack_ts_ c) (acked_packets_ c) (sent_packets_ c) (packet_infos_ c) (prev_ c) next (bw_ c)).

Definition GetNext (p : positive) : B (option positive) := c ← cl_get p; mret (next_ c).

Definition GetClusterId (p : positive) : B Z := c ← cl_get p; mret (cluster_id_ c).

(** [SentClusterInfo::OnPacketSent] on the object. *)
Definition cluster_sent (now : QuicTime) (sq ln : Z) (c : SentClusterInfo) : SentClusterInfo :=
  mkCluster (cluster_id_ c)
    (if time_eq (first_send_ts_ c) Time_Zero then now else first_send_ts_ c)
    now (first_ack_ts_ c) (last_ack_ts_ c) (acked_packets_ c) (u64 (sent_packets_ c + ln))
    (packet_infos_ c ++ [mkInfo sq now Time_Zero ln]) (prev_ c) (next_ c) (bw_ c).

Definition Cluster_OnPacketSent (p : positive) (now : QuicTime) (sq ln : Z) : B unit :=
  c ← cl_get p; cl_put p (cluster_sent now sq ln c).

(** [OnEstimateBandwidth], called back by a cluster. *)
Definition OnEstimateBandwidth (cluster : positive) (cluster_id : Z) (bw : QuicBandwidth) : B unit :=
  upd_cls (fun cs => set_acked_clusters (acked_clusters_ cs ++ [cluster]) cs);;
  upd_cls (fun cs =>
    set_filters (filter_Update bw cluster_id (max_bandwidth_ cs)) (avergae_bandwidth_ cs)
      (average_round_ cs) cs).

(** [std::min]. *)
Definition bw_min (a b : QuicBandwidth) : QuicBandwidth := if bw_lt b a then b else a.

Definition cluster_rate (c : SentClusterInfo) : QuicBandwidth :=
  let send_rate :=
    if time_gt (last_send_ts_ c) (first_send_ts_ c)
    then FromBytesAndTimeDelta (sent_packets_ c) (time_diff (last_send_ts_ c) (first_send_ts_ c))
    else BW_Infinite in
  let ack_rate :=
    FromBytesAndTimeDelta (acked_packets_ c) (time_diff (last_ack_ts_ c) (first_ack_ts_ c)) in
  bw_min send_rate ack_rate.

Definition TriggerBandwidthEstimate (p : positive) : B unit :=
  c ← cl_get p;
  if (acked_packets_ c =? 0) || time_eq (last_ack_ts_ c) (first_ack_ts_ c) then mret tt
  else
    let bw := cluster_rate c in
    cl_put p (mkCluster (cluster_id_ c) (first_send_ts_ c) (last_send_ts_ c) (first_ack_ts_ c)
      (last_ack_ts_ c) (acked_packets_ c) (sent_packets_ c) (packet_infos_ c) (prev_ c) (next_ c) bw);;
    if bw_lt BW_Zero bw then OnEstimateBandwidth p (cluster_id_ c) bw else mret tt.

(** The marking of the acknowledged packet; [offset] is 32 bits wide. *)
Definition ack_infos (sq : Z) (now : QuicTime) (infos : list SentPacketInfo) :
    option (list SentPacketInfo * Z) :=
  match infos with
  | [] => None
  | head :: _ =>
      if seq head <=? sq then
        let offset := u32 (sq - seq head) in
        match infos !! Z.to_nat offset with
        | Some target =>
            Some (<[Z.to_nat offset := mkInfo (seq target) (sent_ts target) now (len target)]> infos,
                  len target)
        | None => Some (infos, 0)
        end
      else Some (infos, 0)
  end.

(** [SentClusterInfo::OnAck]; [packet_infos_[0]] of an empty vector is
    undefined. *)
Definition Cluster_OnAck (p : positive) (sq : Z) (now : QuicTime) : B unit :=
  c ← cl_get p;
  (if time_eq (first_ack_ts_ c) Time_Zero then
     cl_put p (mkCluster (cluster_id_ c) (first_send_ts_ c) (last_send_ts_ c) now
       (last_ack_ts_ c) (acked_packets_ c) (sent_packets_ c) (packet_infos_ c) (prev_ c) (next_ c)
       (bw_ c));;
     match prev_ c with
     | Some prev => TriggerBandwidthEstimate prev
     | None => mret tt
     end
   else mret tt);;
  c ← cl_get p;
  match ack_infos sq now (packet_infos_ c) with
  | None => mstuck
  | Some (infos, acked) =>
      cl_put p (mkCluster (cluster_id_ c) (first_send_ts_ c) (last_send_ts_ c) (first_ack_ts_ c)
        now (u64 (acked_packets_ c + acked)) (sent_packets_ c) infos (prev_ c) (next_ c) (bw_ c))
  end.

Definition GetSentInfo (p : positive) : B (Z * Z) :=
  c ← cl_get p;
  mret (u64 (ToMilliseconds (time_diff (last_send_ts_ c) (first_send_ts_ c))), sent_packets_ c).

Definition GetAckedInfo (p : positive) : B (Z * Z) :=
  c ← cl_get p;
  mret (u64 (ToMilliseconds (time_diff (last_ack_ts_ c) (first_ack_ts_ c))), acked_packets_ c).

(** ** The sender *)

Definition new_sender (min_bps start_bps max_bps : Z) (random : QuicRandom) : MyBbrSender :=
  mkBbr min_bps start_bps max_bps 0
    (mkClusters ∅ 1%positive [] [] [] (filter_new kBandwidthWindowSize BW_Zero 0)
      (filter_new kAverageAckRateWindowSize BW_Zero 0) 0)
    (mkRtts [] Delta_Zero Delta_Zero Time_Zero Time_Zero)
    (mkCycle START_UP 0 (FromBitsPerSecond start_bps) 4 0 Time_Zero random).

Definition PaceRate (s : MyBbrSender) : QuicBandwidth := pacing_rate_ (cyc s).

Definition BandwidthEstimate (s : MyBbrSender) : QuicBandwidth := GetBest (max_bandwidth_ (cls s)).

Definition GetReferenceRate (s : MyBbrSender) : QuicBandwidth :=
  let min_rate := FromBitsPerSecond (min_bps_ s) in
  let bw := BandwidthEstimate s in
  if bw_lt bw min_rate then min_rate else bw.

Definition AverageBandwidthEstimate (s : MyBbrSender) : QuicBandwidth :=
  GetBest (avergae_bandwidth_ (cls s)).

Definition ShouldSendProbePacket (s : MyBbrSender) : bool :=
  if pacing_gain_ (cyc s) <=? 4 then false else true.

Fixpoint drop_le (n : Z) (m : smap QuicTime) : smap QuicTime :=
  match m with
  | [] => []
  | (k, t) :: m' => if k <=? n then drop_le n m' else m
  end.

Definition UpdateRtt (now : QuicTime) (packet_number : Z) : B unit :=
  upd_rtts (fun r =>
    let '(min_rtt, stamp) :=
      match find packet_number (seq_ts_map_ r) with
      | None => (min_rtt_ r, min_rtt_timestamp_ r)
      | Some sent =>
          let rtt := time_diff now sent in
          if delta_eq (min_rtt_ r) Delta_Zero then (rtt, now)
          else
            let '(min_rtt, stamp) :=
              if delta_lt rtt (min_rtt_ r) then (rtt, now) else (min_rtt_ r, min_rtt_timestamp_ r) in
            if delta_gt rtt min_rtt && delta_le rtt (similar_rtt min_rtt)
            then (min_rtt, now) else (min_rtt, stamp)
      end in
    mkRtts (drop_le packet_number (seq_ts_map_ r)) min_rtt (recored_min_rtt_ r) stamp
      (exit_probe_rtt_at_ r)).

(** [kPacingGain[offset]]. *)
Definition gain_at (offset : Z) : Z := nth (Z.to_nat offset) kPacingGain 0.

Definition EnterProbeBandwidthMode (now : QuicTime) : B unit :=
  upd_cyc (fun y =>
    if decide (mode_ y = PROBE_BW) then y
    else
      let '(r, random) := RandUint64 (random_ y) in
      let offset := r mod (kGainCycleLength - 1) in
      let offset := if 1 <=? offset then offset + 1 else offset in
      mkCycle PROBE_BW (u64 (round_trip_count_ y + 1)) (pacing_rate_ y) (gain_at offset) offset
        now random).

Definition UpdateGainCyclePhase (now : QuicTime) : B unit :=
  s ← mget;
  upd_cyc (fun y =>
    if delta_gt (time_diff now (last_cycle_start_ y)) (min_rtt_ (rtts s)) then
      let offset := (cycle_current_offset_ y + 1) mod kGainCycleLength in
      mkCycle (mode_ y) (u64 (round_trip_count_ y + 1)) (pacing_rate_ y) (gain_at offset) offset
        now (random_ y)
    else y).

(** [while (!connection_info_.empty()) delete begin()], structurally on the
    map's entries. *)
Fixpoint delete_all (m : smap positive) : B unit :=
  match m with
  | [] => mret tt
  | (_, p) :: m' => cl_delete p;; upd_cls (set_connection_info m');; delete_all m'
  end.

Definition delete_clusters : B unit := s ← mget; delete_all (connection_info_ (cls s)).

Definition ClusterInfoClear : B unit :=
  upd_cls (fun c => set_filters (filter_Reset BW_Zero 0 (max_bandwidth_ c))
    (filter_Reset BW_Zero 0 (avergae_bandwidth_ c)) (average_round_ c) c);;
  upd_cls (set_seq_round_map []);;
  upd_cls (set_acked_clusters []);;
  upd_cls (fun c => set_filters (max_bandwidth_ c) (avergae_bandwidth_ c) 0 c);;
  delete_clusters.

(** The destructor. *)
Definition destroy_sender : B unit :=
  upd_cls (set_seq_round_map []);; upd_cls (set_acked_clusters []);; delete_clusters.

Definition HasSampledLastMinRtt (r : Rtts) : bool :=
  if delta_ne (min_rtt_ r) Delta_Zero && delta_ne (recored_min_rtt_ r) Delta_Zero
  then delta_lt (min_rtt_ r) (similar_rtt (recored_min_rtt_ r))
  else false.

Definition MaybeEnterOrExitProbeRtt (now : QuicTime) (min_rtt_expired : bool) : B unit :=
  s ← mget;
  (if min_rtt_expired && negb (bool_decide (mode_ (cyc s) = PROBE_RTT)) then
     upd_cyc (fun y => mkCycle PROBE_RTT 0 (pacing_rate_ y) 4 (cycle_current_offset_ y)
       (last_cycle_start_ y) (random_ y));;
     upd_rtts (fun r => mkRtts [] Delta_Zero (min_rtt_ r) (min_rtt_timestamp_ r) Time_Zero);;
     ClusterInfoClear
   else mret tt);;
  s ← mget;
  if decide (mode_ (cyc s) = PROBE_RTT) then
    upd_rtts (fun r => mkRtts (seq_ts_map_ r) (min_rtt_ r) (recored_min_rtt_ r)
      (min_rtt_timestamp_ r)
      (if time_eq (exit_probe_rtt_at_ r) Time_Zero then time_add now kProbeRttTime
       else exit_probe_rtt_at_ r));;
    s ← mget;
    if time_gt now (exit_probe_rtt_at_ (rtts s)) || HasSampledLastMinRtt (rtts s) then
      upd_rtts (fun r => mkRtts (seq_ts_map_ r) (min_rtt_ r) Delta_Zero (min_rtt_timestamp_ r)
        (exit_probe_rtt_at_ r));;
      EnterProbeBandwidthMode now
    else mret tt
  else mret tt.

Definition CalculatePacingRate : B unit :=
  s ← mget;
  upd_cyc (fun y =>
    let min_rate := FromBitsPerSecond (min_bps_ s) in
    let rate :=
      match mode_ y with
      | PROBE_RTT | START_UP => min_rate
      | PROBE_BW =>
          let target := bw_scale (pacing_gain_ y) (BandwidthEstimate s) in
          if bw_lt target min_rate then min_rate else target
      end in
    mkCycle (mode_ y) (round_trip_count_ y) rate (pacing_gain_ y) (cycle_current_offset_ y)
      (last_cycle_start_ y) (random_ y)).

(** The cluster of the current round, made and linked to the last one if there
    is none. *)
Definition CurrentCluster : B positive :=
  s ← mget;
  let round := round_trip_count_ (cyc s) in
  match find round (connection_info_ (cls s)) with
  | Some p => mret p
  | None =>
      let prev := snd <$> rbegin (connection_info_ (cls s)) in
      let cluster := fresh (cls s) in
      upd_cls (fun c => mkClusters (<[cluster := new_cluster round]> (heap c)) (Pos.succ cluster)
        (connection_info_ c) (seq_round_map_ c) (acked_clusters_ c) (max_bandwidth_ c)
        (avergae_bandwidth_ c) (average_round_ c));;
      SetPrev cluster prev;;
      match prev with
      | Some q => SetNext q (Some cluster)
      | None => mret tt
      end;;
      upd_cls (fun c => set_connection_info (insert round cluster (connection_info_ c)) c);;
      mret cluster
  end.

Definition AddPacketInfoSampler (now : QuicTime) (packet_number bytes : Z) : B unit :=
  cluster ← CurrentCluster;
  s ← mget;
  Cluster_OnPacketSent cluster now packet_number bytes;;
  upd_cls (fun c =>
    set_seq_round_map (insert packet_number (round_trip_count_ (cyc s)) (seq_round_map_ c)) c).

(** [while (!connection_info_.empty())] on the entries up to [round]. *)
Fixpoint remove_le (round : Z) (m : smap positive) : B unit :=
  match m with
  | [] => mret tt
  | (id, p) :: m' =>
      if id <=? round then
        next ← GetNext p;
        match next with
        | Some n => SetPrev n None
        | None => mret tt
        end;;
        cl_delete p;;
        upd_cls (set_connection_info m');;
        remove_le round m'
      else mret tt
  end.

Definition RemoveClusterLE (round : Z) : B unit :=
  s ← mget; remove_le round (connection_info_ (cls s)).

Definition AddSeqAndTimestamp (now : QuicTime) (packet_number : Z) : B unit :=
  upd_rtts (fun r => mkRtts (insert packet_number now (seq_ts_map_ r)) (min_rtt_ r)
    (recored_min_rtt_ r) (min_rtt_timestamp_ r) (exit_probe_rtt_at_ r)).

(** The totals over the sampled clusters: bytes sent and acknowledged, the two
    times, and the last cluster counted. *)
Record totals := mkTotals {
  total_sent_bytes : Z; total_acked_bytes : Z;
  acc_sent_delta : Z; acc_ack_delta : Z; last_cluster_id : Z
}.

Fixpoint sum_clusters (l : list positive) (t : totals) : B totals :=
  match l with
  | [] => mret t
  | p :: l =>
      '(sent_delta, sent_bytes) ← GetSentInfo p;
      '(ack_delta, acked_bytes) ← GetAckedInfo p;
      let t := if sent_delta =? 0 then t else
        mkTotals (u64 (total_sent_bytes t + sent_bytes)) (total_acked_bytes t)
          (u64 (acc_sent_delta t + sent_delta)) (acc_ack_delta t) (last_cluster_id t) in
      if ack_delta =? 0 then sum_clusters l t
      else
        id ← GetClusterId p;
        sum_clusters l (mkTotals (total_sent_bytes t) (u64 (total_acked_bytes t + acked_bytes))
          (acc_sent_delta t) (u64 (acc_ack_delta t + ack_delta)) id)
  end.

(** [for (i = 0; i < stale; i++)]: the first [stale] sampled clusters and all
    the older ones go. *)
Fixpoint remove_stale (stale : nat) : B unit :=
  match stale with
  | O => mret tt
  | S n =>
      s ← mget;
      match acked_clusters_ (cls s) with
      | [] => mstuck
      | p :: l =>
          id ← GetClusterId p;
          upd_cls (set_acked_clusters l);;
          RemoveClusterLE id;;
          remove_stale n
      end
  end.

Definition average_rate (min_bps : Z) (t : totals) : QuicBandwidth :=
  let sent_rate :=
    if 0 <? acc_sent_delta t
    then FromBytesAndTimeDelta (total_sent_bytes t) (FromMilliseconds (acc_sent_delta t))
    else BW_Infinite in
  let acked_rate :=
    if 0 <? acc_ack_delta t
    then FromBytesAndTimeDelta (total_acked_bytes t) (FromMilliseconds (acc_ack_delta t))
    else BW_Infinite in
  let average := bw_min sent_rate acked_rate in
  if bw_eq average BW_Infinite then FromBitsPerSecond min_bps else average.

(** The end of [OnAck], once ten clusters have been sampled. *)
Definition UpdateAverage : B unit :=
  s ← mget;
  let total := zlen (acked_clusters_ (cls s)) in
  if kAverageAckRateWindowSize <=? total then
    t ← sum_clusters (acked_clusters_ (cls s)) (mkTotals 0 0 0 0 0);
    upd_cls (fun c =>
      let round := u64 (average_round_ c + last_cluster_id t mod kAverageAckRateWindowSize) in
      set_filters (max_bandwidth_ c)
        (filter_Update (average_rate (min_bps_ s) t) round (avergae_bandwidth_ c)) round c);;
    remove_stale (Z.to_nat (total - (kAverageAckRateWindowSize - 1)))
  else mret tt.

(** The acknowledged packet's cluster, if it is still there. *)
Definition AckCluster (event_time : QuicTime) (packet_number : Z) : B unit :=
  s ← mget;
  match find packet_number (seq_round_map_ (cls s)) with
  | None => mret tt
  | Some round =>
      upd_cls (fun c => set_seq_round_map (erase packet_number (seq_round_map_ c)) c);;
      match find round (connection_info_ (cls s)) with
      | None => mret tt
      | Some cluster => Cluster_OnAck cluster packet_number event_time
      end
  end.

Definition OnAck (event_time : QuicTime) (packet_number : Z) : B unit :=
  s ← mget;
  if packet_number <=? last_ack_seq_ s then mret tt
  else
    mput (mkBbr (min_bps_ s) (start_bps_ s) (max_bps_ s) packet_number (cls s) (rtts s) (cyc s));;
    UpdateRtt event_time packet_number;;
    s ← mget;
    (if decide (mode_ (cyc s) = START_UP) then EnterProbeBandwidthMode event_time else mret tt);;
    s ← mget;
    let min_rtt_expired := time_gt event_time (time_add (min_rtt_timestamp_ (rtts s)) kMinRttExpiry) in
    MaybeEnterOrExitProbeRtt event_time min_rtt_expired;;
    CalculatePacingRate;;
    AckCluster event_time packet_number;;
    UpdateAverage.

Definition OnPacketSent (event_time : QuicTime) (packet_number bytes : Z) : B unit :=
  AddSeqAndTimestamp event_time packet_number;;
  s ← mget;
  if decide (mode_ (cyc s) = PROBE_BW) then
    UpdateGainCyclePhase event_time;;
    AddPacketInfoSampler event_time packet_number bytes
  else mret tt.

(** ** [MyPacingSender] *)

Record MyPacingSender := mkPacing {
  ideal_next_packet_send_time_ : QuicTime;
  alarm_granularity_ : Delta;
  sender_ : option MyBbrSender
}.

Definition new_pacing : MyPacingSender := mkPacing Time_Zero (FromMilliseconds 1) None.

Definition set_sender (sender : MyBbrSender) (p : MyPacingSender) : MyPacingSender :=
  mkPacing (ideal_next_packet_send_time_ p) (alarm_granularity_ p) (Some sender).

(** A computation of the sender it points to. *)
Definition on_sender {A} (m : B A) : M MyPacingSender A := fun p =>
  match sender_ p with
  | None => (Stuck, p)
  | Some s =>
      let '(r, s) := m s in
      (r, mkPacing (ideal_next_packet_send_time_ p) (alarm_granularity_ p) (Some s))
  end.

Definition time_max (a b : QuicTime) : QuicTime := if time_lt a b then b else a.

Definition Pacing_OnPacketSent (now : QuicTime) (packet_number bytes : Z) : M MyPacingSender unit :=
  p ← mget;
  match sender_ p with
  | None => mret tt
  | Some _ =>
      on_sender (OnPacketSent now packet_number bytes);;
      pacing_rate ← on_sender (s ← mget; mret (PaceRate s));
      let delay := TransferTime pacing_rate bytes in
      mmodify (fun p => mkPacing
        (time_max (time_add (ideal_next_packet_send_time_ p) delay) (time_add now delay))
        (alarm_granularity_ p) (sender_ p))
  end.

Definition OnCongestionEvent (now : QuicTime) (packet_number : Z) : M MyPacingSender unit :=
  p ← mget;
  match sender_ p with
  | None => mret tt
  | Some _ => on_sender (OnAck now packet_number)
  end.

Definition TimeUntilSend (now : QuicTime) (p : MyPacingSender) : Delta :=
  if time_gt (ideal_next_packet_send_time_ p) (time_add now (alarm_granularity_ p))
  then time_diff (ideal_next_packet_send_time_ p) now
  else Delta_Zero.

End Bbr.
