(* ===== verification/BbrSafe.v ===== *)
(** * The controller's clusters: ownership, links and accounting

    The invariant of [Bbr.v]'s store: the live clusters are exactly those of
    [connection_info_], doubly linked in key order; the sampled clusters are
    live, in order, and older than the last one acknowledged; every packet of
    [seq_round_map_] lies in its cluster. *)

From stdpp Require Import gmap sorting.
From S2P Require Import Prelude.
From S2P Require Import QuicTime.
From S2P Require Import StdMap.
From S2P Require Import Bbr.
Open Scope Z_scope.

Section Safe.
Context `{BbrLib}.
Implicit Types (s : MyBbrSender) (c : SentClusterInfo) (m : smap positive)
  (h : gmap positive SentClusterInfo).

(** ** Links *)

Definition head_ptr m (nx : option positive) : option positive :=
  match m with [] => nx | (_, p) :: _ => Some p end.

Fixpoint last_ptr (pr : option positive) m : option positive :=
  match m with [] => pr | (_, p) :: m => last_ptr (Some p) m end.

(** A segment of the doubly linked list, from after [pr] to before [nx]. *)
Fixpoint linked h (pr : option positive) m (nx : option positive) : Prop :=
  match m with
  | [] => True
  | (id, p) :: m =>
      (exists c, h !! p = Some c /\ cluster_id_ c = id /\ prev_ c = pr /\ next_ c = head_ptr m nx) /\
      linked h (Some p) m nx
  end.

(** Everything but the links. *)
Definition core c :=
  (cluster_id_ c, first_send_ts_ c, last_send_ts_ c, first_ack_ts_ c, last_ack_ts_ c,
   acked_packets_ c, sent_packets_ c, packet_infos_ c).

Lemma linked_app h m1 : forall pr m2 nx,
  linked h pr (m1 ++ m2) nx <->
  linked h pr m1 (head_ptr m2 nx) /\ linked h (last_ptr pr m1) m2 nx.
Proof.
  induction m1 as [|[id p] m1 IH]; intros pr m2 nx; cbn [linked app last_ptr]; [tauto|].
  rewrite IH. replace (head_ptr (m1 ++ m2) nx) with (head_ptr m1 (head_ptr m2 nx)); [tauto|].
  by destruct m1 as [|[??]?].
Qed.

Lemma linked_elem h pr m nx id p : linked h pr m nx -> (id, p) ∈ m ->
  exists c, h !! p = Some c /\ cluster_id_ c = id.
Proof.
  revert pr. induction m as [|[j q] m IH]; intros pr Hl Hin; [by apply not_elem_of_nil in Hin|].
  destruct Hl as [(c & E & Hi & _) Hl]. apply elem_of_cons in Hin as [[= -> ->]|Hin]; eauto.
Qed.

Lemma linked_frame h p x m : forall pr nx,
  p ∉ m.*2 -> linked (<[p := x]> h) pr m nx <-> linked h pr m nx.
Proof.
  induction m as [|[id q] m IH]; intros pr nx Hp; cbn [linked]; [done|].
  cbn in Hp. apply not_elem_of_cons in Hp as [Hq Hp]. rewrite IH by done.
  by rewrite lookup_insert_ne.
Qed.

Lemma linked_delete h p m : forall pr nx,
  p ∉ m.*2 -> linked (delete p h) pr m nx <-> linked h pr m nx.
Proof.
  induction m as [|[id q] m IH]; intros pr nx Hp; cbn [linked]; [done|].
  cbn in Hp. apply not_elem_of_cons in Hp as [Hq Hp]. rewrite IH by done.
  by rewrite lookup_delete_ne.
Qed.

(** An update of the rest of a cluster keeps the list. *)
Lemma linked_update h p c x m : forall pr nx,
  h !! p = Some c -> cluster_id_ x = cluster_id_ c -> prev_ x = prev_ c -> next_ x = next_ c ->
  linked h pr m nx -> linked (<[p := x]> h) pr m nx.
Proof.
  induction m as [|[id q] m IH]; intros pr nx Hc H1 H2 H3 Hl; cbn [linked] in *; [done|].
  destruct Hl as [(d & E & ? & ? & ?) Hl]. split; [|by apply IH].
  destruct (decide (q = p)) as [->|]; [|exists d; by rewrite lookup_insert_ne].
  assert (d = c) as -> by congruence. exists x. rewrite lookup_insert_eq. by repeat split; congruence.
Qed.

Definition with_prev (pr : option positive) c : SentClusterInfo :=
  mkCluster (cluster_id_ c) (first_send_ts_ c) (last_send_ts_ c) (first_ack_ts_ c)
    (last_ack_ts_ c) (acked_packets_ c) (sent_packets_ c) (packet_infos_ c) pr (next_ c) (bw_ c).

Definition with_next (nx : option positive) c : SentClusterInfo :=
  mkCluster (cluster_id_ c) (first_send_ts_ c) (last_send_ts_ c) (first_ack_ts_ c)
    (last_ack_ts_ c) (acked_packets_ c) (sent_packets_ c) (packet_infos_ c) (prev_ c) nx (bw_ c).

Lemma linked_set_prev h p c id m pr pr' nx :
  p ∉ m.*2 -> h !! p = Some c -> linked h pr ((id, p) :: m) nx ->
  linked (<[p := with_prev pr' c]> h) pr' ((id, p) :: m) nx.
Proof.
  intros Hp Hc [(d & E & Hi & _ & Hn) Hl]. assert (d = c) as -> by congruence.
  split; [|by apply linked_frame]. exists (with_prev pr' c). by rewrite lookup_insert_eq.
Qed.

Lemma linked_set_next h p c id m pr nx nx' :
  p ∉ m.*2 -> h !! p = Some c -> linked h pr (m ++ [(id, p)]) nx ->
  linked (<[p := with_next nx' c]> h) pr (m ++ [(id, p)]) nx'.
Proof.
  intros Hp Hc Hl. apply linked_app in Hl as [H1 [(d & E & Hi & Hpr & _) _]].
  assert (d = c) as -> by congruence. apply linked_app. split.
  - apply linked_frame; [done|]. done.
  - split; [|done]. exists (with_next nx' c). by rewrite lookup_insert_eq.
Qed.

(** ** Access to the store *)

Definition with_cls (cs : Clusters) s : MyBbrSender :=
  mkBbr (min_bps_ s) (start_bps_ s) (max_bps_ s) (last_ack_seq_ s) cs (rtts s) (cyc s).

Lemma upd_cls_ok f s : upd_cls f s = (Ok tt, with_cls (f (cls s)) s).
Proof. done. Qed.

Lemma cl_get_ok p c s : heap (cls s) !! p = Some c -> cl_get p s = (Ok c, s).
Proof. intros E. unfold cl_get. rewrite (M_bind_ok _ _ _ s s) by done. by rewrite E. Qed.

Definition put_cluster (p : positive) c s : MyBbrSender :=
  with_cls (set_heap (<[p := c]> (heap (cls s))) (cls s)) s.

Lemma cl_put_ok p c s : cl_put p c s = (Ok tt, put_cluster p c s).
Proof. done. Qed.

Lemma SetPrev_ok p pr c s : heap (cls s) !! p = Some c ->
  SetPrev p pr s = (Ok tt, put_cluster p (with_prev pr c) s).
Proof. intros E. unfold SetPrev. by rewrite (M_bind_ok _ _ _ _ _ (cl_get_ok p c s E)). Qed.

Lemma SetNext_ok p nx c s : heap (cls s) !! p = Some c ->
  SetNext p nx s = (Ok tt, put_cluster p (with_next nx c) s).
Proof. intros E. unfold SetNext. by rewrite (M_bind_ok _ _ _ _ _ (cl_get_ok p c s E)). Qed.

Lemma GetNext_ok p c s : heap (cls s) !! p = Some c -> GetNext p s = (Ok (next_ c), s).
Proof. intros E. unfold GetNext. by rewrite (M_bind_ok _ _ _ _ _ (cl_get_ok p c s E)). Qed.

Lemma GetClusterId_ok p c s : heap (cls s) !! p = Some c -> GetClusterId p s = (Ok (cluster_id_ c), s).
Proof. intros E. unfold GetClusterId. by rewrite (M_bind_ok _ _ _ _ _ (cl_get_ok p c s E)). Qed.

Lemma cl_delete_ok p c s : heap (cls s) !! p = Some c ->
  cl_delete p s = (Ok tt, with_cls (set_heap (delete p (heap (cls s))) (cls s)) s).
Proof. intros E. unfold cl_delete. by rewrite (M_bind_ok _ _ _ _ _ (cl_get_ok p c s E)). Qed.

(** ** The list and the heap *)

(** The heap holds the clusters of [m] and nothing else, in a list. *)
Record chain h m : Prop := {
  chain_ordered : ordered m;
  chain_nodup : NoDup m.*2;
  chain_heap p : is_Some (h !! p) <-> p ∈ m.*2;
  chain_linked : linked h None m None
}.

(** Pointers kept, with the same contents but for the links. *)
Definition heap_sub h' h : Prop :=
  forall p c', h' !! p = Some c' -> exists c, h !! p = Some c /\ core c = core c'.

Lemma heap_sub_refl h : heap_sub h h.
Proof. intros p c E. eauto. Qed.

Lemma heap_sub_trans h1 h2 h3 : heap_sub h1 h2 -> heap_sub h2 h3 -> heap_sub h1 h3.
Proof.
  intros A B p c E. destruct (A p c E) as (d & E1 & H1). destruct (B p d E1) as (e & E2 & H2).
  exists e. split; [done|congruence].
Qed.

Lemma chain_elem h m id p : chain h m -> (id, p) ∈ m ->
  exists c, h !! p = Some c /\ cluster_id_ c = id.
Proof. intros Hc. apply (linked_elem _ _ _ _ _ _ (chain_linked _ _ Hc)). Qed.

Lemma chain_ptr_inj h m id id' p : chain h m -> (id, p) ∈ m -> (id', p) ∈ m -> id = id'.
Proof.
  intros Hc H1 H2. destruct (chain_elem _ _ _ _ Hc H1) as (c & E & <-).
  destruct (chain_elem _ _ _ _ Hc H2) as (c' & E' & <-). congruence.
Qed.

Lemma chain_nil h : chain h [] -> h = ∅.
Proof.
  intros Hc. apply map_eq. intros p. rewrite lookup_empty. apply eq_None_not_Some.
  intros Hs%(chain_heap _ _ Hc). by apply not_elem_of_nil in Hs.
Qed.

(** Removing the first cluster. *)
Definition unlink_head h (p : positive) m : gmap positive SentClusterInfo :=
  delete p (match m with
            | [] => h
            | (_, q) :: _ => match h !! q with Some c => <[q := with_prev None c]> h | None => h end
            end).

Lemma chain_unlink_head h id p m : chain h ((id, p) :: m) ->
  chain (unlink_head h p m) m /\ heap_sub (unlink_head h p m) h.
Proof.
  intros [Ho Hn Hh Hl]. apply ordered_cons in Ho as [Ho _].
  apply NoDup_cons in Hn as [Hp Hn]. destruct Hl as [_ Hl]. unfold unlink_head.
  assert (forall q, is_Some (delete p h !! q) <-> q ∈ m.*2) as Hd.
  { intros q. destruct (decide (q = p)) as [->|].
    - rewrite lookup_delete_eq. split; [by intros [??]|]. intros; by exfalso.
    - rewrite lookup_delete_ne by done. rewrite Hh. cbn. rewrite elem_of_cons. naive_solver. }
  destruct m as [|[j q] m].
  { split; [split; [done..|by apply Hd|done]|].
    intros r c E. apply lookup_delete_Some in E as [_ E]. eauto. }
  destruct Hl as [(c & E & Hi & Hpr & Hnx) Hl]. rewrite E.
  cbn in Hp, Hn. apply not_elem_of_cons in Hp as [Hpq Hp]. apply NoDup_cons in Hn as [Hq Hn].
  split; [split|].
  - done.
  - by apply NoDup_cons.
  - intros r. rewrite delete_insert_ne by done. rewrite <- Hd.
    destruct (decide (r = q)) as [->|]; [|by rewrite lookup_insert_ne].
    rewrite lookup_insert_eq, lookup_delete_ne by done. rewrite E. split; eauto.
  - apply linked_delete; [by apply not_elem_of_cons|].
    apply linked_set_prev with (Some p); [done..|]. split; [|done]. eauto.
  - intros r d Er. apply lookup_delete_Some in Er as [_ Er].
    apply lookup_insert_Some in Er as [[<- <-]|[_ Er]]; eauto.
Qed.

(** A cluster rewritten in place. *)
Lemma chain_update h m p c x : chain h m -> h !! p = Some c ->
  cluster_id_ x = cluster_id_ c -> prev_ x = prev_ c -> next_ x = next_ c ->
  chain (<[p := x]> h) m.
Proof.
  intros [Ho Hn Hh Hl] E H1 H2 H3. split; [done..| |by apply (linked_update _ _ c)].
  intros q. rewrite <- Hh. destruct (decide (q = p)) as [->|]; [|by rewrite lookup_insert_ne].
  rewrite lookup_insert_eq, E. split; eauto.
Qed.

(** A new cluster at the end. *)
Definition append_cluster h m (id : Z) (p : positive) : gmap positive SentClusterInfo :=
  let h' := <[p := with_prev (snd <$> rbegin m) (new_cluster id)]> (<[p := new_cluster id]> h) in
  match rbegin m with
  | Some (_, q) => match h' !! q with Some c => <[q := with_next (Some p) c]> h' | None => h' end
  | None => h'
  end.

Lemma chain_append h m id p : chain h m -> h !! p = None -> (forall j q, (j, q) ∈ m -> j < id) ->
  chain (append_cluster h m id p) (m ++ [(id, p)]) /\
  (forall q c', append_cluster h m id p !! q = Some c' ->
     (q = p /\ core c' = core (new_cluster id)) \/
     (q <> p /\ exists c, h !! q = Some c /\ core c = core c')).
Proof.
  intros [Ho Hn Hh Hl] Hp Hlt. unfold append_cluster. rewrite insert_insert_eq.
  set (x := with_prev (snd <$> rbegin m) (new_cluster id)).
  assert (p ∉ m.*2) as Hpm. { intros Hin%Hh. rewrite Hp in Hin. by destruct Hin. }
  assert (ordered (m ++ [(id, p)])) as Ho'.
  { apply ordered_app. split; [done|]. split.
    - apply ordered_cons. split; [constructor|]. by intros ?? ?%not_elem_of_nil.
    - intros j b k d Hj [= -> ->]%list_elem_of_singleton. eauto. }
  assert (NoDup (m ++ [(id, p)]).*2) as Hn'.
  { rewrite fmap_app. apply NoDup_app. split; [done|]. split; [|apply NoDup_singleton].
    intros q Hq ->%list_elem_of_singleton. done. }
  assert (forall q, is_Some (<[p := x]> h !! q) <-> q ∈ (m ++ [(id, p)]).*2) as Hd.
  { intros q. rewrite fmap_app, elem_of_app, <- Hh. cbn. rewrite list_elem_of_singleton.
    destruct (decide (q = p)) as [->|].
    - rewrite lookup_insert_eq. split; eauto.
    - rewrite lookup_insert_ne by done. naive_solver. }
  destruct (rbegin m) as [[j q]|] eqn:Er.
  - destruct (rbegin_spec _ _ _ Er) as [m0 ->].
    assert (exists c, h !! q = Some c) as [c E].
    { apply Hh. rewrite fmap_app. apply elem_of_app. right. cbn. by left. }
    assert (p <> q) as Hpq by congruence. rewrite lookup_insert_ne by done. rewrite E.
    split; [split|].
    + done.
    + done.
    + intros r. rewrite <- Hd. destruct (decide (r = q)) as [->|]; [|by rewrite lookup_insert_ne].
      rewrite lookup_insert_eq, lookup_insert_ne by done. rewrite E. split; eauto.
    + rewrite insert_insert_ne by done. apply linked_app. split.
      * apply linked_frame; [done|]. apply linked_set_next with None; [|done..].
        rewrite fmap_app in Hn. apply NoDup_app in Hn as (_ & Hd' & _).
        intros Hin. apply (Hd' q); [done|]. cbn. by left.
      * split; [|done]. exists x. rewrite lookup_insert_eq. split; [done|]. split; [done|].
        split; [|done]. cbn.
        clear. generalize (@None positive). induction m0 as [|[??] m0 IH]; intros; [done|]. apply IH.
    + intros r d Hr. apply lookup_insert_Some in Hr as [[<- <-]|[Hrq Hr]].
      * right. split; [done|]. eauto.
      * apply lookup_insert_Some in Hr as [[<- <-]|[Hrp Hr]]; [by left|right; eauto].
  - apply last_None in Er as ->. split; [split; [exact Ho'|exact Hn'|exact Hd|]|].
    + split; [|done]. exists x. by rewrite lookup_insert_eq.
    + intros r d Hr. apply lookup_insert_Some in Hr as [[<- <-]|[Hrp Hr]]; [by left|right; eauto].
Qed.

(** ** The loops over the list *)

Lemma delete_all_ok m : forall s,
  connection_info_ (cls s) = m -> NoDup m.*2 -> (forall p, p ∈ m.*2 -> is_Some (heap (cls s) !! p)) ->
  exists h', delete_all m s = (Ok tt, with_cls (set_connection_info [] (set_heap h' (cls s))) s) /\
    forall p, is_Some (h' !! p) -> is_Some (heap (cls s) !! p) /\ p ∉ m.*2.
Proof.
  induction m as [|[id p] m IH]; intros s Hm Hn Hh.
  - exists (heap (cls s)). split.
    + destruct s as [? ? ? ? [? ? conn ? ? ? ? ?] ? ?]. cbn in Hm. by subst conn.
    + intros p Hp. split; [done|]. by apply not_elem_of_nil.
  - cbn in Hn, Hh. apply NoDup_cons in Hn as [Hp Hn].
    destruct (Hh p) as [c E]; [by left|]. cbn [delete_all].
    rewrite (M_bind_ok _ _ _ _ _ (cl_delete_ok p c s E)), (M_bind_ok _ _ _ _ _ (upd_cls_ok _ _)).
    destruct (IH (with_cls (set_connection_info m (set_heap (delete p (heap (cls s))) (cls s))) s))
      as (h' & Eq & Hs); [done|done| |].
    { intros q Hq. cbn. rewrite lookup_delete_ne by (by intros ->). apply Hh. by right. }
    exists h'. split; [exact Eq|]. intros q Hq. destruct (Hs q Hq) as [[d Ed] Hqm]. cbn in Ed.
    apply lookup_delete_Some in Ed as [Hne Ed]. split; [by exists d|].
    cbn. by apply not_elem_of_cons.
Qed.

(** All clusters of a chain deleted: nothing is left. *)
Lemma delete_clusters_ok s : chain (heap (cls s)) (connection_info_ (cls s)) ->
  delete_clusters s = (Ok tt, with_cls (set_connection_info [] (set_heap ∅ (cls s))) s).
Proof.
  intros Hc. unfold delete_clusters. rewrite (M_bind_ok _ _ _ s s) by done.
  destruct (delete_all_ok _ s eq_refl (chain_nodup _ _ Hc)) as (h' & E & Hs).
  { intros p. apply Hc. }
  rewrite E. do 4 f_equal. apply map_eq. intros p. rewrite lookup_empty.
  apply eq_None_not_Some. intros Hp. destruct (Hs p Hp) as [H1%(chain_heap _ _ Hc) H2]. done.
Qed.

Lemma remove_le_ok round m : forall s,
  connection_info_ (cls s) = m -> chain (heap (cls s)) m ->
  exists h' gone m', m = gone ++ m' /\ (forall i p, (i, p) ∈ gone -> i <= round) /\
    (forall i p, (i, p) ∈ m' -> round < i) /\
    remove_le round m s = (Ok tt, with_cls (set_connection_info m' (set_heap h' (cls s))) s) /\
    chain h' m' /\ heap_sub h' (heap (cls s)).
Proof.
  induction m as [|[id p] m IH]; intros s Hm Hc.
  { exists (heap (cls s)), [], []. split; [done|]. split; [by intros ?? ?%not_elem_of_nil|].
    split; [by intros ?? ?%not_elem_of_nil|]. split; [|split; [done|apply heap_sub_refl]].
    destruct s as [? ? ? ? [? ? conn ? ? ? ? ?] ? ?]. cbn in Hm. by subst conn. }
  cbn [remove_le]. destruct (Z.leb_spec id round) as [Hid|Hid].
  - destruct (chain_unlink_head _ _ _ _ Hc) as [Hc1 Hs1].
    pose proof (chain_linked _ _ Hc) as [(c & E & _ & _ & Hnx) Hl].
    pose proof (chain_nodup _ _ Hc) as [Hp Hn]%NoDup_cons.
    rewrite (M_bind_ok _ _ _ _ _ (GetNext_ok p c s E)), Hnx.
    set (s1 := with_cls (set_connection_info m (set_heap (unlink_head (heap (cls s)) p m) (cls s))) s).
    destruct (IH s1 eq_refl Hc1) as (h' & gone & m' & -> & Hg & Hm' & Eq & Hc' & Hs').
    exists h', ((id, p) :: gone), m'. split; [done|].
    split; [by intros i q [[= -> ->]|Hi]%elem_of_cons; [|by apply (Hg i q)]|]. split; [done|].
    split; [|split; [done|by apply (heap_sub_trans _ _ _ Hs' Hs1)]].
    transitivity (remove_le round (gone ++ m') s1); [|by rewrite Eq]. unfold s1, unlink_head.
    destruct (gone ++ m') as [|[j q] m0]; cbn [head_ptr].
    + rewrite (M_bind_ok _ _ _ tt s) by done.
      by rewrite (M_bind_ok _ _ _ _ _ (cl_delete_ok p c s E)), (M_bind_ok _ _ _ _ _ (upd_cls_ok _ _)).
    + destruct Hl as [(d & Ed & _) _]. cbn in Hp. apply not_elem_of_cons in Hp as [Hpq _].
      rewrite Ed, (M_bind_ok _ _ _ _ _ (SetPrev_ok q None d s Ed)).
      rewrite (M_bind_ok _ _ _ _ _ (cl_delete_ok p c (put_cluster q (with_prev None d) s)
        ltac:(cbn; by rewrite lookup_insert_ne))).
      by rewrite (M_bind_ok _ _ _ _ _ (upd_cls_ok _ _)).
  - exists (heap (cls s)), [], ((id, p) :: m). split; [done|].
    split; [by intros ?? ?%not_elem_of_nil|]. split.
    + pose proof (chain_ordered _ _ Hc) as [_ Hlt]%ordered_cons.
      intros i q [[= -> ->]|Hi]%elem_of_cons; [lia|]. specialize (Hlt _ _ Hi). lia.
    + split; [|split; [done|apply heap_sub_refl]].
      destruct s as [? ? ? ? [? ? conn ? ? ? ? ?] ? ?]. cbn in Hm. by subst conn.
Qed.

(** [TriggerBandwidthEstimate] of a live cluster rewrites its bandwidth, and
    may sample it. *)
Lemma trigger_ok p c s : heap (cls s) !! p = Some c ->
  exists x cs', TriggerBandwidthEstimate p s = (Ok tt, with_cls cs' s) /\
    core x = core c /\ prev_ x = prev_ c /\ next_ x = next_ c /\
    heap cs' = <[p := x]> (heap (cls s)) /\ fresh cs' = fresh (cls s) /\
    connection_info_ cs' = connection_info_ (cls s) /\
    seq_round_map_ cs' = seq_round_map_ (cls s) /\
    (acked_clusters_ cs' = acked_clusters_ (cls s) \/
     acked_clusters_ cs' = acked_clusters_ (cls s) ++ [p]).
Proof.
  intros E. unfold TriggerBandwidthEstimate. rewrite (M_bind_ok _ _ _ _ _ (cl_get_ok p c s E)).
  destruct (_ || _).
  { exists c, (cls s). split; [by destruct s|]. rewrite insert_id by done. repeat split; auto. }
  set (x := mkCluster _ _ _ _ _ _ _ _ _ _ _). exists x.
  rewrite (M_bind_ok _ _ _ _ _ (cl_put_ok p x s)).
  destruct (bw_lt BW_Zero (cluster_rate c)); eexists; (split; [reflexivity|]); repeat split; auto.
Qed.

(** ** Accounting *)

Definition first_seq c : Z := match packet_infos_ c with [] => 0 | x :: _ => seq x end.

Definition end_seq c : Z := first_seq c + zlen (packet_infos_ c).

Definition acked_len (x : SentPacketInfo) : Z := if time_eq (ack_ts x) Time_Zero then 0 else len x.

Definition sum_of (f : SentPacketInfo -> Z) (l : list SentPacketInfo) : Z :=
  foldr (fun x a => f x + a) 0 l.

(** The packets of a cluster are consecutive, those after the last
    acknowledgement are not acknowledged, and the byte counters are the sums
    over the packets sent and acknowledged. *)
Record cluster_ok (last : Z) c : Prop := {
  ok_infos : packet_infos_ c <> [];
  ok_first : 0 <= first_seq c;
  ok_seq i x : packet_infos_ c !! i = Some x -> seq x = first_seq c + Z.of_nat i;
  ok_unacked i x : packet_infos_ c !! i = Some x -> last < seq x -> ack_ts x = Time_Zero;
  ok_sent : sent_packets_ c = u64 (sum_of len (packet_infos_ c));
  ok_acked : acked_packets_ c = u64 (sum_of acked_len (packet_infos_ c))
}.

Lemma core_infos c c' : core c = core c' ->
  packet_infos_ c = packet_infos_ c' /\ sent_packets_ c = sent_packets_ c' /\
  acked_packets_ c = acked_packets_ c' /\ first_ack_ts_ c = first_ack_ts_ c' /\
  cluster_id_ c = cluster_id_ c'.
Proof. intros [=]. done. Qed.

Lemma first_seq_core c c' : core c = core c' -> first_seq c = first_seq c'.
Proof. intros (E & _)%core_infos. unfold first_seq. by rewrite E. Qed.

Lemma end_seq_core c c' : core c = core c' -> end_seq c = end_seq c'.
Proof.
  intros E. unfold end_seq. rewrite (first_seq_core _ _ E).
  destruct (core_infos _ _ E) as (E1 & _). by rewrite E1.
Qed.

Lemma cluster_ok_core last c c' : core c = core c' -> cluster_ok last c -> cluster_ok last c'.
Proof.
  intros E [H1 H2 H3 H4 H5 H6]. pose proof (first_seq_core _ _ E) as Ef.
  destruct (core_infos _ _ E) as (Ei & Es & Ea & _ & _).
  split; rewrite <- ?Ei, <- ?Es, <- ?Ea, <- ?Ef; auto.
Qed.

Lemma cluster_ok_later last last' c : last <= last' -> cluster_ok last c -> cluster_ok last' c.
Proof. intros Hl [H1 H2 H3 H4 H5 H6]. split; try done. intros i x Hi Hx. apply (H4 i x Hi). lia. Qed.

Lemma sum_of_app f l k : sum_of f (l ++ k) = sum_of f l + sum_of f k.
Proof. unfold sum_of. induction l as [|x l IH]; cbn; [done|]. rewrite IH. lia. Qed.

Lemma sum_of_update f l i x y : l !! i = Some x -> sum_of f (<[i := y]> l) = sum_of f l - f x + f y.
Proof.
  assert (forall z k, sum_of f (z :: k) = f z + sum_of f k) as Hcons by done.
  revert i. induction l as [|z l IH]; intros [|i] Hi; try done.
  - injection Hi as ->. change (<[0%nat := y]> (x :: l)) with (y :: l). rewrite !Hcons. lia.
  - change (<[S i := y]> (z :: l)) with (z :: <[i := y]> l). rewrite !Hcons, (IH i Hi). lia.
Qed.

(** The acknowledgement of a packet of the cluster finds that packet. *)
Lemma ack_infos_hit last c sq now :
  cluster_ok last c -> first_seq c <= sq < end_seq c -> end_seq c <= 2 ^ 32 ->
  exists x, packet_infos_ c !! Z.to_nat (sq - first_seq c) = Some x /\ seq x = sq /\
    ack_infos sq now (packet_infos_ c) =
      Some (<[Z.to_nat (sq - first_seq c) := mkInfo sq (sent_ts x) now (len x)]> (packet_infos_ c), len x).
Proof.
  intros Hc Hsq Hend. pose proof Hc as [Hn H0 Hs _ _ _]. unfold end_seq in *.
  destruct (lookup_lt_is_Some_2 (packet_infos_ c) (Z.to_nat (sq - first_seq c))) as [x Hx].
  { unfold zlen in Hsq. lia. }
  exists x. pose proof (Hs _ _ Hx) as Ex. split; [done|]. split; [lia|].
  unfold ack_infos. unfold first_seq in *. destruct (packet_infos_ c) as [|y l] eqn:El; [done|].
  rewrite (proj2 (Z.leb_le _ _)) by lia.
  rewrite (wrap_id 32) by (unfold in_u; lia). rewrite Hx. do 4 f_equal. lia.
Qed.

(** The fields [Cluster_OnAck] leaves in the cluster. *)
Definition acked_cluster (sq : Z) (now : QuicTime) (infos : list SentPacketInfo) (acked : Z) c :=
  mkCluster (cluster_id_ c) (first_send_ts_ c) (last_send_ts_ c)
    (if time_eq (first_ack_ts_ c) Time_Zero then now else first_ack_ts_ c)
    now (u64 (acked_packets_ c + acked)) (sent_packets_ c) infos (prev_ c) (next_ c) (bw_ c).

Lemma acked_cluster_ok last c sq now :
  cluster_ok last c -> last < sq -> first_seq c <= sq < end_seq c -> end_seq c <= 2 ^ 32 ->
  now <> Time_Zero ->
  exists infos acked, ack_infos sq now (packet_infos_ c) = Some (infos, acked) /\
    cluster_ok sq (acked_cluster sq now infos acked c) /\
    first_seq (acked_cluster sq now infos acked c) = first_seq c /\
    end_seq (acked_cluster sq now infos acked c) = end_seq c.
Proof.
  intros Hc Hl Hsq Hend Hnow. destruct (ack_infos_hit last c sq now Hc Hsq Hend) as (x & Hx & Hsx & E).
  eexists _, _. split; [exact E|]. set (i := Z.to_nat (sq - first_seq c)) in *.
  set (infos' := <[i:=_]> (packet_infos_ c)).
  pose proof Hc as [Hn H0 Hs Hu Hse Hac].
  assert (first_seq (acked_cluster sq now infos' (len x) c) = first_seq c) as Hf.
  { unfold first_seq at 1. cbn [packet_infos_ acked_cluster]. unfold infos', first_seq in *.
    destruct (packet_infos_ c) as [|y l]; [done|]. destruct i as [|j]; [|done].
    cbn in Hx. injection Hx as ->. done. }
  split; [|split; [exact Hf|]].
  - split; rewrite ?Hf; cbn [packet_infos_ acked_cluster sent_packets_ acked_packets_].
    + unfold infos'. intros E0. apply (f_equal length) in E0. rewrite length_insert in E0.
      by destruct (packet_infos_ c).
    + done.
    + intros j y Hj. apply list_lookup_insert_Some in Hj as [(<- & <- & _)|[_ Hj]]; [|by apply Hs].
      cbn [seq]. rewrite <- Hsx at 1. by apply Hs.
    + intros j y Hj Hlt. apply list_lookup_insert_Some in Hj as [(<- & <- & _)|[_ Hj]].
      * cbn [seq] in Hlt. lia.
      * apply (Hu j y Hj). lia.
    + rewrite Hse. unfold infos'. rewrite (sum_of_update _ _ _ x) by done. f_equal. cbn [len]. lia.
    + rewrite Hac. unfold infos'. rewrite (sum_of_update _ _ _ x) by done.
      assert (acked_len x = 0) as Hx0.
      { unfold acked_len. rewrite (Hu i x Hx) by lia. done. }
      assert (acked_len (mkInfo sq (sent_ts x) now (len x)) = len x) as Hy.
      { unfold acked_len, time_eq. cbn [ack_ts len]. destruct (Z.eqb_spec (time_ now) (time_ Time_Zero)); [|done].
        destruct Hnow. by destruct now; cbn in *; subst. }
      rewrite Hx0, Hy. unfold wrap. rewrite Zplus_mod_idemp_l. f_equal. lia.
  - unfold end_seq. rewrite Hf. cbn [packet_infos_ acked_cluster]. unfold infos', zlen.
    by rewrite length_insert.
Qed.

Lemma sent_cluster_ok last c now sq ln :
  (packet_infos_ c = [] /\ 0 <= sq /\ sent_packets_ c = 0 /\ acked_packets_ c = 0 \/
   cluster_ok last c /\ end_seq c = sq) ->
  cluster_ok last (cluster_sent now sq ln c) /\
  end_seq (cluster_sent now sq ln c) = sq + 1 /\
  first_seq (cluster_sent now sq ln c) = (if decide (packet_infos_ c = []) then sq else first_seq c).
Proof.
  intros Hc.
  assert (first_seq (cluster_sent now sq ln c) = (if decide (packet_infos_ c = []) then sq else first_seq c))
    as Hf.
  { unfold first_seq. cbn [packet_infos_ cluster_sent]. by destruct (packet_infos_ c). }
  assert (first_seq (cluster_sent now sq ln c) + zlen (packet_infos_ c) = sq) as He.
  { rewrite Hf. destruct Hc as [(-> & _)|[Hok Hend]]; [rewrite decide_True by done; unfold zlen; cbn; lia|].
    rewrite decide_False by apply Hok. exact Hend. }
  split; [split|split; [|exact Hf]]; cbn [packet_infos_ cluster_sent sent_packets_ acked_packets_].
  - intros E. by destruct (packet_infos_ c).
  - destruct Hc as [(E & H0 & _)|[Hok _]]; rewrite Hf; [by rewrite decide_True|].
    rewrite decide_False by apply Hok. apply Hok.
  - intros i x Hi. apply lookup_snoc_Some in Hi as [[Hi Hx]|[-> <-]].
    + destruct Hc as [(E & _)|[Hok _]]; [by rewrite E in Hx|].
      rewrite Hf, decide_False by apply Hok. by apply Hok.
    + cbn [seq]. unfold zlen in He. lia.
  - intros i x Hi Hlt. apply lookup_snoc_Some in Hi as [[Hi Hx]|[-> <-]]; [|done].
    destruct Hc as [(E & _)|[Hok _]]; [by rewrite E in Hx|]. by apply (ok_unacked _ _ Hok i x).
  - rewrite sum_of_app. cbn. destruct Hc as [(E & _ & -> & _)|[Hok _]].
    + rewrite E. cbn. f_equal. lia.
    + rewrite (ok_sent _ _ Hok). unfold wrap. rewrite Zplus_mod_idemp_l. f_equal. lia.
  - rewrite sum_of_app. cbn. destruct Hc as [(E & _ & _ & ->)|[Hok _]].
    + by rewrite E.
    + rewrite (ok_acked _ _ Hok). f_equal. unfold acked_len. cbn. lia.
  - unfold end_seq. cbn [packet_infos_ cluster_sent]. rewrite zlen_app, zlen_cons, zlen_nil. lia.
Qed.

End Safe.
