(* ===== verification/BbrInv.v ===== *)
(** * The controller's invariant, preserved by every call

    [cinv N last round mode cs]: the clusters [cs] of a sender whose next packet
    is number [N], with the last acknowledgement, round and mode given. *)

From stdpp Require Import gmap sorting.
From S2P Require Import Prelude.
From S2P Require Import QuicTime.
From S2P Require Import StdMap.
From S2P Require Import Bbr.
From S2P Require Import BbrSafe.
Open Scope Z_scope.

Section Inv.
Context `{BbrLib}.
Implicit Types (s : MyBbrSender) (c : SentClusterInfo) (m : smap positive)
  (h : gmap positive SentClusterInfo) (cs : Clusters).

(** The sampled clusters: in order, live, and older than the last cluster
    acknowledged, which later acknowledgements do not precede. *)
Definition sampled_ok h m (seqs : smap Z) (acked : list positive) (last : Z) : Prop :=
  exists sampled : smap positive,
    ordered sampled /\ sampled.*2 = acked /\ (forall e, e ∈ sampled -> e ∈ m) /\
    (sampled = [] \/
     exists L q c, (L, q) ∈ m /\ h !! q = Some c /\ first_ack_ts_ c <> Time_Zero /\
       (forall i p, (i, p) ∈ sampled -> i < L) /\
       (forall sq r, (sq, r) ∈ seqs -> last < sq -> L <= r)).

Record cinv (N last round : Z) (mode : Mode) cs : Prop := {
  inv_chain : chain (heap cs) (connection_info_ cs);
  inv_fresh p : (fresh cs <= p)%positive -> heap cs !! p = None;
  inv_round_pos : 0 <= round;
  inv_round id p : (id, p) ∈ connection_info_ cs -> id <= round;
  inv_mode : mode <> PROBE_BW -> connection_info_ cs = [];
  inv_cluster p c : heap cs !! p = Some c -> cluster_ok last c;
  inv_open p c : (round, p) ∈ connection_info_ cs -> heap cs !! p = Some c -> end_seq c = N;
  inv_end p c : heap cs !! p = Some c -> end_seq c <= N;
  inv_seqs : ordered (seq_round_map_ cs);
  inv_seq sq r : (sq, r) ∈ seq_round_map_ cs -> sq < N /\ r <= round;
  inv_mono n1 r1 n2 r2 : (n1, r1) ∈ seq_round_map_ cs -> (n2, r2) ∈ seq_round_map_ cs ->
    n1 <= n2 -> r1 <= r2;
  inv_cur sq : (sq, round) ∈ seq_round_map_ cs -> exists p, (round, p) ∈ connection_info_ cs;
  inv_in sq r p c : (sq, r) ∈ seq_round_map_ cs -> (r, p) ∈ connection_info_ cs ->
    heap cs !! p = Some c -> first_seq c <= sq < end_seq c;
  inv_sampled : sampled_ok (heap cs) (connection_info_ cs) (seq_round_map_ cs)
    (acked_clusters_ cs) last
}.

Lemma chain_empty : chain ∅ [].
Proof.
  split; [constructor|constructor| |done]. intros p. rewrite lookup_empty. split.
  - by intros [? ?].
  - by intros ?%not_elem_of_nil.
Qed.

Ltac no_elems := intros; repeat match goal with
  | E : _ ∈ [] |- _ => by apply not_elem_of_nil in E
  | E : _ = [] |- _ => rewrite E in *
  | E : ∅ !! _ = Some _ |- _ => by rewrite lookup_empty in E
  end.

(** A sender without clusters. *)
Lemma cinv_empty N last round mode cs :
  heap cs = ∅ -> connection_info_ cs = [] -> seq_round_map_ cs = [] -> acked_clusters_ cs = [] ->
  0 <= round -> cinv N last round mode cs.
Proof.
  intros Eh Ec Es Ea Hr. split; rewrite ?Eh, ?Ec, ?Es, ?Ea; try (by no_elems).
  - apply chain_empty.
  - constructor.
  - exists []. split; [constructor|]. split; [done|]. split; [by no_elems|]. by left.
Qed.

(** A new round, in [PROBE_BW]. *)
Lemma cinv_next_round N last round mode cs :
  cinv N last round mode cs -> cinv N last (round + 1) PROBE_BW cs.
Proof.
  intros []. split; try done.
  - lia.
  - intros id p Hin. specialize (inv_round0 _ _ Hin). lia.
  - intros p c Hin. specialize (inv_round0 _ _ Hin). lia.
  - intros sq r Hin. destruct (inv_seq0 _ _ Hin). lia.
  - intros sq Hin. destruct (inv_seq0 _ _ Hin). lia.
Qed.

Lemma sampled_later h m seqs acked last last' :
  last <= last' -> sampled_ok h m seqs acked last -> sampled_ok h m seqs acked last'.
Proof.
  intros Hl (sampled & H1 & H2 & H3 & H4). exists sampled. split; [done|]. split; [done|].
  split; [done|]. destruct H4 as [?|(L & q & c & ? & ? & ? & ? & Hm)]; [by left|right].
  exists L, q, c. repeat split; try done. intros sq r Hin Hlt. apply (Hm sq r Hin). lia.
Qed.

Lemma cinv_later N last last' round mode cs :
  last <= last' -> cinv N last round mode cs -> cinv N last' round mode cs.
Proof.
  intros Hl []. split; try done.
  - intros p c E. by apply (cluster_ok_later last), (inv_cluster0 p).
  - by apply (sampled_later _ _ _ _ last).
Qed.

(** Entries of [seq_round_map_] dropped. *)
Lemma cinv_erase N last round mode cs n :
  cinv N last round mode cs ->
  cinv N last round mode (set_seq_round_map (erase n (seq_round_map_ cs)) cs).
Proof.
  intros []. split; cbn; try done.
  - by apply erase_ordered.
  - intros sq r Hin%elem_erase. eauto.
  - intros n1 r1 n2 r2 H1%elem_erase H2%elem_erase. eauto.
  - intros sq Hin%elem_erase. eauto.
  - intros sq r p c Hin%elem_erase. eauto.
  - destruct inv_sampled0 as (sampled & H1 & H2 & H3 & H4). exists sampled. split; [done|].
    split; [done|]. split; [done|]. destruct H4 as [?|(L & q & c & ? & ? & ? & ? & Hm)]; [by left|right].
    exists L, q, c. repeat split; try done. intros sq r Hin%elem_erase. eauto.
Qed.

(** ** Acknowledgement of a cluster *)

Lemma last_ptr_snoc pr m id p : last_ptr pr (m ++ [(id, p)]) = Some p.
Proof. revert pr. induction m as [|[? ?] m IH]; intros pr; [done|]. apply IH. Qed.

(** The cluster before this one in the list, if any. *)
Lemma chain_prev h m j p c : chain h m -> (j, p) ∈ m -> h !! p = Some c ->
  match prev_ c with
  | None => True
  | Some q => exists i m1 m2, m = m1 ++ (i, q) :: (j, p) :: m2
  end.
Proof.
  intros Hc Hin E. apply list_elem_of_split in Hin as (m1 & m2 & ->).
  pose proof (chain_linked _ _ Hc) as [_ [(d & Ed & _ & Hp & _) _]]%linked_app.
  assert (d = c) as -> by congruence. rewrite Hp.
  destruct m1 as [|[i q] m1 _] using rev_ind; [done|]. rewrite last_ptr_snoc.
  exists i, m1, m2. by rewrite <- app_assoc.
Qed.

(** The pointers other than [p] keep their clusters up to links and rate. *)
Definition others_kept (p : positive) h' h : Prop :=
  forall q d', q <> p -> h' !! q = Some d' -> exists d, h !! q = Some d /\ core d = core d'.

Lemma others_kept_insert p x h' h : others_kept p h' h -> others_kept p (<[p := x]> h') h.
Proof. intros Ho q d Hq Hd. rewrite lookup_insert_ne in Hd by done. by apply Ho. Qed.

Lemma others_kept_refl p h : others_kept p h h.
Proof. intros q d Hq Hd. eauto. Qed.

(** The list, the packets and the allocation are untouched. *)
Definition same_lists cs' cs : Prop :=
  fresh cs' = fresh cs /\ connection_info_ cs' = connection_info_ cs /\
  seq_round_map_ cs' = seq_round_map_ cs.

(** What an acknowledgement in cluster [p], [j] in the list, may sample: the
    cluster before it. *)
Definition samples_prev j (p : positive) cs' cs : Prop :=
  acked_clusters_ cs' = acked_clusters_ cs \/
  exists i q m1 m2, connection_info_ cs = m1 ++ (i, q) :: (j, p) :: m2 /\
    acked_clusters_ cs' = acked_clusters_ cs ++ [q].

(** The first acknowledgement of a cluster: it takes the time and the previous
    cluster, if any, is estimated. *)
Lemma first_ack_ok j p c c1 s :
  chain (heap (cls s)) (connection_info_ (cls s)) ->
  (j, p) ∈ connection_info_ (cls s) -> heap (cls s) !! p = Some c ->
  cluster_id_ c1 = cluster_id_ c -> prev_ c1 = prev_ c -> next_ c1 = next_ c ->
  exists cs', (cl_put p c1;;
      match prev_ c with Some prev => TriggerBandwidthEstimate prev | None => mret tt end) s =
        (Ok tt, with_cls cs' s) /\
    heap cs' !! p = Some c1 /\ chain (heap cs') (connection_info_ cs') /\
    same_lists cs' (cls s) /\ others_kept p (heap cs') (heap (cls s)) /\ samples_prev j p cs' (cls s).
Proof.
  intros Hc Hin E Hi Hp Hn. set (s1 := put_cluster p c1 s).
  rewrite (M_bind_ok _ _ _ tt s1) by done.
  assert (chain (heap (cls s1)) (connection_info_ (cls s1))) as Hc1 by (by apply (chain_update _ _ _ c)).
  pose proof (chain_prev _ _ j p c Hc Hin E) as Hpr. destruct (prev_ c) as [q|].
  2:{ exists (cls s1). split; [done|]. split; [apply lookup_insert_eq|]. split; [done|].
      split; [done|]. split; [apply others_kept_insert, others_kept_refl|by left]. }
  destruct Hpr as (i & m1 & m2 & Em). pose proof (chain_nodup _ _ Hc) as Hnd.
  rewrite Em, fmap_app in Hnd. apply NoDup_app in Hnd as (_ & _ & [Hx _]%NoDup_cons).
  assert (q <> p) as Hqp by (intros ->; apply Hx; by left).
  destruct (proj2 (chain_heap _ _ Hc q)) as [d Ed].
  { rewrite Em, fmap_app. apply elem_of_app. right. by left. }
  assert (heap (cls s1) !! q = Some d) as Ed1 by (cbn; by rewrite lookup_insert_ne).
  destruct (trigger_ok q d s1 Ed1) as (x & cs2 & Et & Hxc & Hxp & Hxn & Hh & Hf2 & Hc2 & Hs2 & Ha2).
  destruct (core_infos _ _ Hxc) as (_ & _ & _ & _ & Hid).
  exists cs2. split; [done|]. rewrite Hh, Hc2.
  split; [rewrite lookup_insert_ne by done; apply lookup_insert_eq|].
  split; [by apply (chain_update _ _ _ d)|]. split; [done|]. split.
  - intros r d' Hr Hd. apply lookup_insert_Some in Hd as [[<- <-]|[Hrq Hd]]; [by exists d|].
    cbn in Hd. rewrite lookup_insert_ne in Hd by done. eauto.
  - destruct Ha2 as [Ha|Ha]; [by left|right]. by exists i, q, m1, m2.
Qed.

Lemma time_eq_spec t u : reflect (t = u) (time_eq t u).
Proof.
  unfold time_eq. destruct t as [t], u as [u]. cbn.
  destruct (Z.eqb_spec t u) as [->|Hne]; constructor; [done|]. intros [= ?]. done.
Qed.

Lemma Cluster_OnAck_ok last n now j p c s :
  chain (heap (cls s)) (connection_info_ (cls s)) ->
  (j, p) ∈ connection_info_ (cls s) -> heap (cls s) !! p = Some c ->
  cluster_ok last c -> last < n -> first_seq c <= n < end_seq c -> end_seq c <= 2 ^ 32 ->
  now <> Time_Zero ->
  exists cs' c', Cluster_OnAck p n now s = (Ok tt, with_cls cs' s) /\
    chain (heap cs') (connection_info_ cs') /\ same_lists cs' (cls s) /\
    heap cs' !! p = Some c' /\ cluster_ok n c' /\ first_seq c' = first_seq c /\
    end_seq c' = end_seq c /\ first_ack_ts_ c' <> Time_Zero /\
    others_kept p (heap cs') (heap (cls s)) /\
    (acked_clusters_ cs' = acked_clusters_ (cls s) \/
     first_ack_ts_ c = Time_Zero /\ samples_prev j p cs' (cls s)).
Proof.
  intros Hc Hin E Hok Hl Hn Hend Hnow.
  destruct (acked_cluster_ok last c n now Hok Hl Hn Hend Hnow) as (infos & acked & Ei & Hok' & Hf & He).
  set (c' := acked_cluster n now infos acked c) in *.
  assert (first_ack_ts_ c' <> Time_Zero) as Hfa
    by (cbn; destruct (time_eq_spec (first_ack_ts_ c) Time_Zero); done).
  unfold Cluster_OnAck. rewrite (M_bind_ok _ _ _ _ _ (cl_get_ok p c s E)).
  unfold c', acked_cluster in *. destruct (time_eq_spec (first_ack_ts_ c) Time_Zero) as [Ef|Ef].
  - set (c1 := mkCluster _ _ _ now _ _ _ _ _ _ _).
    destruct (first_ack_ok j p c c1 s Hc Hin E) as (cs2 & Ea & E2 & Hc2 & Hsl & Hoth & Hack); [done..|].
    rewrite (M_bind_ok _ _ _ _ _ Ea), (M_bind_ok _ _ _ _ _ (cl_get_ok p c1 (with_cls cs2 s) E2)).
    change (packet_infos_ c1) with (packet_infos_ c). rewrite Ei, cl_put_ok. eexists _, _.
    split; [reflexivity|]. split; [by apply (chain_update _ _ _ c1)|]. split; [done|].
    split; [apply lookup_insert_eq|]. split; [exact Hok'|]. split; [exact Hf|]. split; [exact He|].
    split; [done|]. split; [by apply others_kept_insert|]. by right.
  - rewrite (M_bind_ok _ _ _ tt s), (M_bind_ok _ _ _ _ _ (cl_get_ok p c s E)), Ei, cl_put_ok by done.
    eexists _, _. split; [reflexivity|]. split; [by apply (chain_update _ _ _ c)|]. split; [done|].
    split; [apply lookup_insert_eq|]. split; [exact Hok'|]. split; [exact Hf|]. split; [exact He|].
    split; [done|]. split; [apply others_kept_insert, others_kept_refl|]. by left.
Qed.

(** Keys around an entry of the list. *)
Lemma chain_before h m1 i q j p m2 L r :
  chain h (m1 ++ (i, q) :: (j, p) :: m2) -> (L, r) ∈ m1 ++ (i, q) :: (j, p) :: m2 ->
  i < j /\ (L < j -> L <= i).
Proof.
  intros Hc Hin. pose proof (chain_ordered _ _ Hc) as Ho.
  apply ordered_app in Ho as (_ & [Ho2 Hi]%ordered_cons & Ho1).
  apply ordered_cons in Ho2 as [_ Hj].
  split; [apply (Hi j p); by left|]. intros HL.
  apply elem_of_app in Hin as [Hin|[[= -> ->]|[[= -> ->]|Hin]%elem_of_cons]%elem_of_cons]; try lia.
  - assert (L < i) by (apply (Ho1 L r i q); [done|by left]). lia.
  - specialize (Hj _ _ Hin). lia.
Qed.

(** The sampled clusters after an acknowledgement in cluster [j]. *)
Lemma sampled_acked h h' m seqs acked last n j p c c' cs cs' :
  chain h m -> sampled_ok h m seqs acked last ->
  (n, j) ∈ seqs -> last < n ->
  (forall n1 r1 n2 r2, (n1, r1) ∈ seqs -> (n2, r2) ∈ seqs -> n1 <= n2 -> r1 <= r2) ->
  (j, p) ∈ m -> h !! p = Some c -> h' !! p = Some c' -> first_ack_ts_ c' <> Time_Zero ->
  connection_info_ cs = m -> acked_clusters_ cs = acked ->
  (acked_clusters_ cs' = acked_clusters_ cs \/ first_ack_ts_ c = Time_Zero /\ samples_prev j p cs' cs) ->
  sampled_ok h' m (erase n seqs) (acked_clusters_ cs') n.
Proof.
  intros Hc (sampled & Hord & Hptr & Hin & Hold) Hn Hl Hmono Hj E E' Hfa Hm Ha Hs.
  assert (forall sq r, (sq, r) ∈ erase n seqs -> n < sq -> j <= r) as Hlater.
  { intros sq r Hsq%elem_erase Hlt. apply (Hmono n j sq r); [done..|lia]. }
  assert (forall i q, (i, q) ∈ sampled -> i < j) as Hbound.
  { intros i q Hi. destruct Hold as [->|(L & _ & _ & _ & _ & _ & HL & HL2)]; [by apply not_elem_of_nil in Hi|].
    pose proof (HL i q Hi). pose proof (HL2 n j Hn Hl). lia. }
  assert (acked_clusters_ cs' = acked \/ (exists i q m1 m2,
    m = m1 ++ (i, q) :: (j, p) :: m2 /\ acked_clusters_ cs' = acked ++ [q] /\
    forall k r, (k, r) ∈ sampled -> k < i)) as [->|(i & q & m1 & m2 & Em & -> & Hlast)].
  { rewrite Ha in Hs. destruct Hs as [?|[Hz [Hs|(i & q & m1 & m2 & Em & Hs)]]]; [left; congruence..|].
    right. exists i, q, m1, m2. rewrite Hm in Em. split; [done|]. split; [congruence|].
    intros k r Hk. destruct Hold as [->|(L & x & d & HLm & Hd & Hdz & HL & HL2)];
      [by apply not_elem_of_nil in Hk|].
    assert (L < j) as HLj.
    { pose proof (HL2 n j Hn Hl). destruct (decide (L = j)) as [->|]; [|lia].
      assert (x = p) as -> by (by apply (elem_key_inj j x p m (chain_ordered _ _ Hc))). congruence. }
    rewrite Em in Hc, HLm. destruct (chain_before _ _ _ _ _ _ _ _ _ Hc HLm) as [_ Hb].
    specialize (HL k r Hk). specialize (Hb HLj). lia. }
  - exists sampled. split; [done|]. split; [done|]. split; [done|]. right. by exists j, p, c'.
  - exists (sampled ++ [(i, q)]). split; [|split; [by rewrite fmap_app, Hptr|split]].
    + apply ordered_app. split; [done|]. split.
      * apply ordered_cons. split; [constructor|]. by intros ?? ?%not_elem_of_nil.
      * intros k r k' r' Hk [= -> ->]%list_elem_of_singleton. by apply (Hlast k r).
    + intros e [He| ->%list_elem_of_singleton]%elem_of_app; [by apply Hin|].
      rewrite Em. apply elem_of_app. right. by left.
    + right. exists j, p, c'. split; [done|]. split; [done|]. split; [done|]. split; [|done].
      intros k r [Hk|[= -> ->]%list_elem_of_singleton]%elem_of_app; [by apply (Hbound k r)|].
      rewrite Em in Hc, Hj. by apply (chain_before _ _ _ _ _ _ _ _ _ Hc Hj).
Qed.

Lemma AckCluster_ok N last n now round mode s :
  cinv N last round mode (cls s) -> last < n -> N <= 2 ^ 32 -> now <> Time_Zero ->
  exists cs', AckCluster now n s = (Ok tt, with_cls cs' s) /\ cinv N n round mode cs'.
Proof.
  intros Hi Hl HN Hnow. unfold AckCluster. rewrite (M_bind_ok _ _ _ s s) by done.
  destruct (find n (seq_round_map_ (cls s))) as [j|] eqn:Ej.
  2:{ exists (cls s). split; [by destruct s|]. apply (cinv_later _ last); [lia|done]. }
  rewrite (M_bind_ok _ _ _ _ _ (upd_cls_ok _ _)).
  set (cs0 := set_seq_round_map (erase n (seq_round_map_ (cls s))) (cls s)).
  pose proof (cinv_erase _ _ _ _ _ n Hi) as Hi0. fold cs0 in Hi0.
  destruct (find j (connection_info_ (cls s))) as [p|] eqn:Ep.
  2:{ exists cs0. split; [done|]. apply (cinv_later _ last); [lia|done]. }
  apply find_elem in Ej, Ep.
  destruct (chain_elem _ _ _ _ (inv_chain _ _ _ _ _ Hi) Ep) as (c & E & _).
  pose proof (inv_in _ _ _ _ _ Hi n j p c Ej Ep E) as Hin.
  pose proof (inv_end _ _ _ _ _ Hi p c E) as Hend.
  destruct (Cluster_OnAck_ok last n now j p c (with_cls cs0 s)) as
    (cs' & c' & Eq & Hc' & (Hf1 & Hf2 & Hf3) & E' & Hok' & Hfs & Hes & Hfa & Hoth & Hsam); try done.
  { apply Hi. } { by apply (inv_cluster _ _ _ _ _ Hi p). } { lia. }
  exists cs'. split; [exact Eq|].
  assert (forall q d, heap cs' !! q = Some d -> exists d0, heap (cls s) !! q = Some d0 /\
    first_seq d = first_seq d0 /\ end_seq d = end_seq d0 /\ cluster_ok n d) as Hcase.
  { intros q d Ed. destruct (decide (q = p)) as [->|Hqp].
    - assert (d = c') as -> by congruence. by exists c.
    - destruct (Hoth q d Hqp Ed) as (d0 & Ed0 & Hcore). exists d0. split; [done|].
      split; [by symmetry; apply first_seq_core|]. split; [by symmetry; apply end_seq_core|].
      apply (cluster_ok_core _ d0); [done|]. apply (cluster_ok_later last); [lia|].
      by apply (inv_cluster _ _ _ _ _ Hi q). }
  cbn in Hf1, Hf2, Hf3. rewrite Hf2 in Hc'.
  split; rewrite ?Hf1, ?Hf2, ?Hf3; try apply Hi0; try done.
  - intros q Hq. apply eq_None_not_Some. intros Hs%(chain_heap _ _ Hc').
    apply (chain_heap _ _ (inv_chain _ _ _ _ _ Hi)) in Hs as [d Hd].
    by rewrite (inv_fresh _ _ _ _ _ Hi q Hq) in Hd.
  - intros q d Ed. by destruct (Hcase q d Ed) as (? & _ & _ & _ & ?).
  - intros q d Hq Ed. destruct (Hcase q d Ed) as (d0 & Ed0 & _ & -> & _).
    by apply (inv_open _ _ _ _ _ Hi q d0).
  - intros q d Ed. destruct (Hcase q d Ed) as (d0 & Ed0 & _ & -> & _).
    by apply (inv_end _ _ _ _ _ Hi q d0).
  - intros sq r q d Hsq%elem_erase Hq Ed. destruct (Hcase q d Ed) as (d0 & Ed0 & -> & -> & _).
    by apply (inv_in _ _ _ _ _ Hi sq r q d0).
  - eapply (sampled_acked (heap (cls s)) (heap cs') _ _ _ last n j p c c' cs0 cs'); try done; try apply Hi.
Qed.

(** ** Removal of the sampled clusters *)

Lemma sampled_live N last round mode cs p :
  cinv N last round mode cs -> p ∈ acked_clusters_ cs -> exists c, heap cs !! p = Some c.
Proof.
  intros Hi Hp. destruct (inv_sampled _ _ _ _ _ Hi) as (sampled & _ & Hptr & Hin & _).
  rewrite <- Hptr in Hp. apply list_elem_of_fmap in Hp as [[i q] [-> Hq]].
  destruct (chain_elem _ _ _ _ (inv_chain _ _ _ _ _ Hi) (Hin _ Hq)) as (c & E & _). eauto.
Qed.

Lemma sum_clusters_ok l : forall t s,
  (forall p, p ∈ l -> exists c, heap (cls s) !! p = Some c) ->
  exists t', sum_clusters l t s = (Ok t', s).
Proof.
  induction l as [|p l IH]; intros t s Hl; [by exists t|].
  destruct (Hl p) as [c E]; [by left|]. pose proof (cl_get_ok p c s E) as Eg.
  assert (forall q, q ∈ l -> exists c, heap (cls s) !! q = Some c) as Hl' by (intros; apply Hl; by right).
  cbn [sum_clusters]. unfold GetSentInfo, GetAckedInfo, GetClusterId.
  erewrite (M_bind_ok _ _ s _ s) by (by rewrite (M_bind_ok _ _ _ _ _ Eg)). cbv beta iota.
  erewrite (M_bind_ok _ _ s _ s) by (by rewrite (M_bind_ok _ _ _ _ _ Eg)). cbv beta iota.
  destruct (_ =? 0); [by apply IH|].
  erewrite (M_bind_ok _ _ s _ s) by (by rewrite (M_bind_ok _ _ _ _ _ Eg)). by apply IH.
Qed.

(** A cluster heap that lost the clusters up to [i], the oldest sampled one. *)
Lemma cinv_removed N last round mode cs i p l h' m' :
  cinv N last round mode cs -> acked_clusters_ cs = p :: l -> (i, p) ∈ connection_info_ cs ->
  chain h' m' ->
  (forall r e, h' !! r = Some e -> exists e', heap cs !! r = Some e' /\ core e' = core e) ->
  (forall k r, (k, r) ∈ m' -> (k, r) ∈ connection_info_ cs) ->
  (forall k r, (k, r) ∈ connection_info_ cs -> i < k -> (k, r) ∈ m') ->
  (connection_info_ cs = [] -> m' = []) ->
  cinv N last round mode (set_connection_info m' (set_heap h' (set_acked_clusters l cs))).
Proof.
  intros Hi Ea Hp Hc' Hsub Hsubm Hkeep Hnil.
  pose proof (inv_sampled _ _ _ _ _ Hi) as (sampled & Hord & Hptr & Hin & Hold).
  rewrite Ea in Hptr. destruct sampled as [|[i' q] sampled]; [done|]. injection Hptr as -> Hptr.
  assert (i' = i) as -> by (apply (chain_ptr_inj _ _ i' i p (inv_chain _ _ _ _ _ Hi)); [apply Hin; by left|done]).
  apply ordered_cons in Hord as [Hord Hlt].
  destruct Hold as [?|(L & x & d & HLm & Hd & Hdz & HL & HL2)]; [done|].
  assert (i < L) as HiL by (apply (HL i p); by left).
  split; cbn; try apply Hi.
  - done.
  - intros r Hr. apply eq_None_not_Some. intros [e He]. destruct (Hsub r e He) as (e' & He' & _).
    by rewrite (inv_fresh _ _ _ _ _ Hi r Hr) in He'.
  - intros k r Hk%Hsubm. by apply (inv_round _ _ _ _ _ Hi k r).
  - intros Hm. by apply Hnil, (inv_mode _ _ _ _ _ Hi Hm).
  - intros r e He. destruct (Hsub r e He) as (e' & He' & Hcore).
    apply (cluster_ok_core _ _ _ Hcore). by apply (inv_cluster _ _ _ _ _ Hi r).
  - intros r e Hr%Hsubm He. destruct (Hsub r e He) as (e' & He' & Hcore).
    rewrite <- (end_seq_core _ _ Hcore). by apply (inv_open _ _ _ _ _ Hi r).
  - intros r e He. destruct (Hsub r e He) as (e' & He' & Hcore).
    rewrite <- (end_seq_core _ _ Hcore). by apply (inv_end _ _ _ _ _ Hi r).
  - intros sq Hsq. destruct (inv_cur _ _ _ _ _ Hi sq Hsq) as [r Hr]. exists r.
    apply Hkeep; [done|]. pose proof (inv_round _ _ _ _ _ Hi L x HLm). lia.
  - intros sq k r e Hsq Hk%Hsubm He. destruct (Hsub r e He) as (e' & He' & Hcore).
    rewrite <- (end_seq_core _ _ Hcore), <- (first_seq_core _ _ Hcore).
    by apply (inv_in _ _ _ _ _ Hi sq k r).
  - exists sampled. split; [done|]. split; [done|]. split.
    + intros [k r] Hk. apply Hkeep; [apply Hin; by right|]. by apply (Hlt k r).
    + right. assert ((L, x) ∈ m') as HLm' by (by apply Hkeep).
      destruct (chain_elem _ _ _ _ Hc' HLm') as (d' & Hd' & _).
      destruct (Hsub x d' Hd') as (e & He & Hcore). assert (e = d) as -> by congruence.
      destruct (core_infos _ _ Hcore) as (_ & _ & _ & Hfa & _).
      exists L, x, d'. split; [done|]. split; [done|]. split; [congruence|]. split; [|done].
      intros k r Hk. apply (HL k r). by right.
Qed.

(** Removing the oldest sampled cluster and everything before it. *)
Lemma remove_sampled_ok N last round mode s p l :
  cinv N last round mode (cls s) -> acked_clusters_ (cls s) = p :: l ->
  exists c cs', heap (cls s) !! p = Some c /\
    RemoveClusterLE (cluster_id_ c) (with_cls (set_acked_clusters l (cls s)) s) =
      (Ok tt, with_cls cs' s) /\
    cinv N last round mode cs' /\ acked_clusters_ cs' = l.
Proof.
  intros Hi Ea. pose proof (inv_sampled _ _ _ _ _ Hi) as (sampled & _ & Hptr & Hin & _).
  rewrite Ea in Hptr. destruct sampled as [|[i q] sampled]; [done|]. injection Hptr as -> Hptr.
  assert ((i, p) ∈ connection_info_ (cls s)) as Hp by (apply Hin; by left).
  destruct (chain_elem _ _ _ _ (inv_chain _ _ _ _ _ Hi) Hp) as (c & E & Hid).
  unfold RemoveClusterLE. set (s1 := with_cls (set_acked_clusters l (cls s)) s).
  destruct (remove_le_ok i _ s1 eq_refl (inv_chain _ _ _ _ _ Hi)) as
    (h' & gone & m' & Em & Hg & Hm' & Eq & Hc' & Hsub).
  cbn in Em, Hsub. exists c, (set_connection_info m' (set_heap h' (cls s1))).
  split; [done|]. rewrite (M_bind_ok _ _ _ s1 s1), Hid by done. split; [exact Eq|].
  split; [|done]. eapply cinv_removed; try done.
  - intros k r Hk. rewrite Em. apply elem_of_app. by right.
  - intros k r Hk Hik. rewrite Em in Hk. apply elem_of_app in Hk as [Hk|Hk]; [|done].
    specialize (Hg _ _ Hk). lia.
  - intros E0. rewrite E0 in Em. by apply eq_sym, app_eq_nil in Em as [_ ->].
Qed.

Lemma remove_stale_ok N last round mode n : forall s,
  cinv N last round mode (cls s) -> (n <= length (acked_clusters_ (cls s)))%nat ->
  exists cs', remove_stale n s = (Ok tt, with_cls cs' s) /\ cinv N last round mode cs' /\
    length (acked_clusters_ cs') = (length (acked_clusters_ (cls s)) - n)%nat.
Proof.
  induction n as [|n IH]; intros s Hi Hn.
  - exists (cls s). split; [by destruct s|]. split; [done|]. lia.
  - cbn [remove_stale]. rewrite (M_bind_ok _ _ _ s s) by done.
    destruct (acked_clusters_ (cls s)) as [|p l] eqn:Ea; [cbn in Hn; lia|].
    destruct (remove_sampled_ok _ _ _ _ s p l Hi Ea) as (c & cs1 & E & Er & Hi1 & Ea1).
    rewrite (M_bind_ok _ _ _ _ _ (GetClusterId_ok p c s E)), (M_bind_ok _ _ _ _ _ (upd_cls_ok _ _)).
    rewrite (M_bind_ok _ _ _ _ _ Er).
    destruct (IH (with_cls cs1 s) Hi1) as (cs' & Eq & Hi' & Hlen); [cbn in *; rewrite Ea1; lia|].
    exists cs'. split; [exact Eq|]. split; [done|]. cbn in *. rewrite Ea1 in Hlen. lia.
Qed.

(** The filters play no part in the invariant. *)
Lemma cinv_filters N last round mode cs mx av k :
  cinv N last round mode cs -> cinv N last round mode (set_filters mx av k cs).
Proof. intros []. by split. Qed.

Lemma UpdateAverage_ok N last round mode s :
  cinv N last round mode (cls s) ->
  exists cs', UpdateAverage s = (Ok tt, with_cls cs' s) /\ cinv N last round mode cs' /\
    zlen (acked_clusters_ cs') <= Z.max 9 (zlen (acked_clusters_ (cls s)) - 1).
Proof.
  intros Hi. unfold UpdateAverage. rewrite (M_bind_ok _ _ _ s s) by done.
  destruct (Z.leb_spec kAverageAckRateWindowSize (zlen (acked_clusters_ (cls s)))) as [Hle|Hlt].
  2:{ exists (cls s). split; [by destruct s|]. split; [done|].
      unfold kAverageAckRateWindowSize in Hlt. lia. }
  destruct (sum_clusters_ok (acked_clusters_ (cls s)) (mkTotals 0 0 0 0 0) s) as [t Et].
  { intros p. by apply sampled_live with N last round mode. }
  rewrite (M_bind_ok _ _ _ _ _ Et), (M_bind_ok _ _ _ _ _ (upd_cls_ok _ _)).
  unfold kAverageAckRateWindowSize in *.
  match goal with |- context [with_cls (set_filters ?a ?b ?k (cls s)) s] =>
    destruct (remove_stale_ok N last round mode (Z.to_nat (zlen (acked_clusters_ (cls s)) - (10 - 1)))
      (with_cls (set_filters a b k (cls s)) s)) as (cs' & Eq & Hi' & Hlen) end.
  { by apply cinv_filters. }
  { cbn. unfold zlen in *. lia. }
  exists cs'. split; [exact Eq|]. split; [done|]. cbn in Hlen. unfold zlen in *. lia.
Qed.

(** ** Sending a packet *)

(** What [AddSeq] does to the invariant: cluster [p] of the current round gets
    packet [N]; the others keep what the invariant speaks of. *)
Section AddSeq.
Context (N last round : Z) (cs : Clusters) (h : gmap positive SentClusterInfo) (m : smap positive)
  (fr p : positive) (c : SentClusterInfo).
Context (Hi : cinv N last round PROBE_BW cs)
  (Hc : chain h m) (Hfr : forall q, (fr <= q)%positive -> h !! q = None)
  (Hp : (round, p) ∈ m) (E : h !! p = Some c) (Hok : cluster_ok last c) (Hend : end_seq c = N + 1) (Hfst : first_seq c <= N)
  (Hm : forall i q, (i, q) ∈ m -> (i, q) = (round, p) \/ (i, q) ∈ connection_info_ cs)
  (Hm' : forall e, e ∈ connection_info_ cs -> e ∈ m)
  (Hoth : others_kept p h (heap cs))
  (Hold : forall c0, heap cs !! p = Some c0 -> first_seq c = first_seq c0 /\ end_seq c0 = N /\
     first_ack_ts_ c = first_ack_ts_ c0)
  (Hcur : forall sq, (sq, round) ∈ seq_round_map_ cs -> is_Some (heap cs !! p)).

Lemma add_seq_cases q d : h !! q = Some d -> q = p /\ d = c \/ exists d0, heap cs !! q = Some d0 /\ core d0 = core d.
Proof. intros Ed. destruct (decide (q = p)) as [->|Hqp]; [left; split; congruence|right]. by apply Hoth. Qed.

(** The current round's cluster was there before if it had a packet. *)
Lemma add_seq_current sq : (sq, round) ∈ seq_round_map_ cs -> (round, p) ∈ connection_info_ cs.
Proof.
  intros Hsq. destruct (inv_cur _ _ _ _ _ Hi sq Hsq) as [q0 Hq0].
  assert (q0 = p) as ->; [|done]. apply (elem_key_inj round q0 p m (chain_ordered _ _ Hc)); [by apply Hm'|done].
Qed.

Lemma add_seq_in sq r q d : (sq, r) ∈ insert N round (seq_round_map_ cs) -> (r, q) ∈ m -> h !! q = Some d ->
  first_seq d <= sq < end_seq d.
Proof.
  intros Hsq Hq Ed. apply elem_insert in Hsq as [[-> ->]|Hsq].
  { assert (q = p) as -> by (by apply (elem_key_inj round q p m (chain_ordered _ _ Hc))).
    assert (d = c) as -> by congruence. lia. }
  destruct (add_seq_cases q d Ed) as [[-> ->]|(d0 & Ed0 & Hcore)].
  - assert (r = round) as -> by (by apply (chain_ptr_inj h m r round p)).
    destruct (Hcur sq Hsq) as [c0 Ec0]. destruct (Hold c0 Ec0) as (-> & He0 & _).
    pose proof (inv_in _ _ _ _ _ Hi sq round p c0 Hsq (add_seq_current sq Hsq) Ec0). lia.
  - rewrite <- (end_seq_core _ _ Hcore), <- (first_seq_core _ _ Hcore).
    destruct (Hm r q Hq) as [[= -> ->]|Hq']; [|by apply (inv_in _ _ _ _ _ Hi sq r q)].
    apply (inv_in _ _ _ _ _ Hi sq round p); [done|by apply (add_seq_current sq)|done].
Qed.

Lemma add_seq_sampled : sampled_ok h m (insert N round (seq_round_map_ cs)) (acked_clusters_ cs) last.
Proof.
  destruct (inv_sampled _ _ _ _ _ Hi) as (sampled & Hord & Hptr & Hin & Hx).
  exists sampled. split; [done|]. split; [done|]. split; [auto|].
  destruct Hx as [->|(L & x & d & HLm & Hd & Hdz & HL & HL2)]; [by left|right].
  assert (exists d', h !! x = Some d') as [d' Ed'].
  { destruct (chain_elem _ _ _ _ Hc (Hm' _ HLm)) as (d' & ? & _). eauto. }
  exists L, x, d'. split; [auto|]. split; [done|]. split.
  - destruct (add_seq_cases x d' Ed') as [[-> ->]|(d0 & Ed0 & Hcore)].
    + destruct (Hold d Hd) as (_ & _ & ->). done.
    + destruct (core_infos _ _ Hcore) as (_ & _ & _ & Hfa & _). congruence.
  - split; [done|]. intros sq r [[-> ->]|Hsq]%elem_insert Hlt; [|by apply (HL2 sq r)].
    by apply (inv_round _ _ _ _ _ Hi L x).
Qed.

Lemma cinv_add_seq mx av k :
  cinv (N + 1) last round PROBE_BW
    (mkClusters h fr m (insert N round (seq_round_map_ cs)) (acked_clusters_ cs) mx av k).
Proof.
  pose proof (inv_seq _ _ _ _ _ Hi) as Hseq. split; cbn; try done.
  - apply Hi.
  - intros i q Hq. destruct (Hm i q Hq) as [[= -> ->]|Hq']; [lia|]. by apply (inv_round _ _ _ _ _ Hi i q).
  - intros q d Ed. destruct (add_seq_cases q d Ed) as [[-> ->]|(d0 & Ed0 & Hcore)]; [done|].
    apply (cluster_ok_core _ _ _ Hcore). by apply (inv_cluster _ _ _ _ _ Hi q).
  - intros q d Hq Ed. assert (q = p) as ->; [|by assert (d = c) as -> by congruence].
    by apply (elem_key_inj round q p m (chain_ordered _ _ Hc)).
  - intros q d Ed. destruct (add_seq_cases q d Ed) as [[-> ->]|(d0 & Ed0 & Hcore)]; [lia|].
    rewrite <- (end_seq_core _ _ Hcore). pose proof (inv_end _ _ _ _ _ Hi q d0 Ed0). lia.
  - by apply insert_ordered, Hi.
  - intros sq r [[-> ->]|Hsq]%elem_insert; [lia|]. destruct (Hseq sq r Hsq). lia.
  - intros n1 r1 n2 r2 [[-> ->]|H1]%elem_insert [[-> ->]|H2]%elem_insert Hle; [lia| | |].
    + destruct (Hseq _ _ H2). lia.
    + by destruct (Hseq _ _ H1).
    + by apply (inv_mono _ _ _ _ _ Hi n1 r1 n2 r2).
  - eauto.
  - apply add_seq_in.
  - apply add_seq_sampled.
Qed.

End AddSeq.

(** The allocation of a cluster and its links, as [AddPacketInfoSampler] writes
    them. *)
Lemma new_cluster_ok {A} round s (k : M MyBbrSender A) :
  chain (heap (cls s)) (connection_info_ (cls s)) ->
  (forall p, (fresh (cls s) <= p)%positive -> heap (cls s) !! p = None) ->
  let prev := snd <$> rbegin (connection_info_ (cls s)) in
  let cluster := fresh (cls s) in
  (upd_cls (fun cs => mkClusters (<[cluster := new_cluster round]> (heap cs)) (Pos.succ cluster)
     (connection_info_ cs) (seq_round_map_ cs) (acked_clusters_ cs) (max_bandwidth_ cs)
     (avergae_bandwidth_ cs) (average_round_ cs));;
   SetPrev cluster prev;;
   match prev with Some q => SetNext q (Some cluster) | None => mret tt end;;
   k) s =
  k (with_cls (mkClusters
     (append_cluster (heap (cls s)) (connection_info_ (cls s)) round cluster) (Pos.succ cluster)
     (connection_info_ (cls s)) (seq_round_map_ (cls s)) (acked_clusters_ (cls s))
     (max_bandwidth_ (cls s)) (avergae_bandwidth_ (cls s)) (average_round_ (cls s))) s).
Proof.
  intros Hc Hfr prev cluster. rewrite (M_bind_ok _ _ _ _ _ (upd_cls_ok _ _)).
  set (s1 := with_cls _ s).
  assert (heap (cls s1) !! cluster = Some (new_cluster round)) as E1 by apply lookup_insert_eq.
  rewrite (M_bind_ok _ _ _ _ _ (SetPrev_ok _ prev _ s1 E1)). unfold append_cluster, prev.
  destruct (rbegin (connection_info_ (cls s))) as [[j q]|] eqn:Er; [|done]. cbn [fmap option_fmap option_map snd].
  destruct (rbegin_spec _ _ _ Er) as [m0 Em].
  destruct (proj2 (chain_heap _ _ Hc q)) as [c E].
  { rewrite Em, fmap_app. apply elem_of_app. right. by left. }
  assert (cluster <> q) as Hne.
  { intros Eq. rewrite <- Eq, (Hfr cluster) in E; [done|]. reflexivity. }
  set (s2 := put_cluster _ _ s1).
  assert (heap (cls s2) !! q = Some c) as E2 by (cbn; by rewrite !lookup_insert_ne).
  rewrite (M_bind_ok _ _ _ _ _ (SetNext_ok q (Some cluster) c s2 E2)). cbn in E2. by rewrite E2.
Qed.

(** The end of [AddPacketInfoSampler], once the cluster is there. *)
Lemma packet_added_ok N last round now bytes p c s0 s :
  cinv N last round PROBE_BW (cls s0) -> 0 <= N ->
  chain (heap (cls s)) (connection_info_ (cls s)) ->
  (forall q, (fresh (cls s) <= q)%positive -> heap (cls s) !! q = None) ->
  (round, p) ∈ connection_info_ (cls s) -> heap (cls s) !! p = Some c ->
  seq_round_map_ (cls s) = seq_round_map_ (cls s0) ->
  acked_clusters_ (cls s) = acked_clusters_ (cls s0) ->
  (forall i q, (i, q) ∈ connection_info_ (cls s) ->
     (i, q) = (round, p) \/ (i, q) ∈ connection_info_ (cls s0)) ->
  (forall e, e ∈ connection_info_ (cls s0) -> e ∈ connection_info_ (cls s)) ->
  others_kept p (heap (cls s)) (heap (cls s0)) ->
  ((round, p) ∈ connection_info_ (cls s0) /\ heap (cls s0) !! p = Some c \/
   core c = core (new_cluster round) /\ heap (cls s0) !! p = None /\
   forall q, (round, q) ∉ connection_info_ (cls s0)) ->
  exists cs', (Cluster_OnPacketSent p now N bytes;;
      upd_cls (fun cs => set_seq_round_map (insert N round (seq_round_map_ cs)) cs)) s =
        (Ok tt, with_cls cs' s) /\
    cinv (N + 1) last round PROBE_BW cs' /\ acked_clusters_ cs' = acked_clusters_ (cls s0).
Proof.
  intros Hi HN Hc Hfr Hp E Es Ea Hm Hm' Hoth Hnew.
  assert (cluster_ok last (cluster_sent now N bytes c) /\
    end_seq (cluster_sent now N bytes c) = N + 1 /\
    first_seq (cluster_sent now N bytes c) = (if decide (packet_infos_ c = []) then N else first_seq c))
    as (Hok & Hend & Hf).
  { apply sent_cluster_ok. destruct Hnew as [[Hin E0]|(Hcore & _)].
    - right. split; [by apply (inv_cluster _ _ _ _ _ Hi p)|by apply (inv_open _ _ _ _ _ Hi p)].
    - left. destruct (core_infos _ _ Hcore) as (-> & -> & -> & _). done. }
  assert (Cluster_OnPacketSent p now N bytes s = (Ok tt, put_cluster p (cluster_sent now N bytes c) s))
    as Eq by (unfold Cluster_OnPacketSent; by rewrite (M_bind_ok _ _ _ _ _ (cl_get_ok p c s E))).
  rewrite (M_bind_ok _ _ _ _ _ Eq), upd_cls_ok. eexists. split; [reflexivity|]. split; [|done].
  unfold set_seq_round_map. cbn [put_cluster with_cls cls set_heap heap fresh connection_info_
    seq_round_map_ acked_clusters_ max_bandwidth_ avergae_bandwidth_ average_round_].
  rewrite Es, Ea. apply (cinv_add_seq N last round (cls s0) _ _ _ p (cluster_sent now N bytes c)); auto.
  - by apply (chain_update _ _ _ c).
  - intros q Hq. rewrite lookup_insert_ne; [by apply Hfr|]. intros <-. by rewrite (Hfr p Hq) in E.
  - apply lookup_insert_eq.
  - unfold end_seq in Hend. cbn [packet_infos_ cluster_sent] in Hend.
    rewrite zlen_app, zlen_cons, zlen_nil in Hend. pose proof (zlen_nonneg (packet_infos_ c)). lia.
  - by apply others_kept_insert.
  - intros c0 E0. destruct Hnew as [[Hin E1]|(_ & E1 & _)]; [|congruence].
    assert (c0 = c) as -> by congruence.
    rewrite Hf, decide_False by apply (inv_cluster _ _ _ _ _ Hi p c E1).
    split; [done|]. split; [by apply (inv_open _ _ _ _ _ Hi p)|done].
  - intros sq Hsq. destruct Hnew as [[Hin E1]|(_ & _ & Hno)]; [by exists c|].
    destruct (inv_cur _ _ _ _ _ Hi sq Hsq) as [q Hq]. by destruct (Hno q).
Qed.

(** The cluster of the current round is found, or created at the end of the
    list. *)
Lemma CurrentCluster_ok N last s :
  let round := round_trip_count_ (cyc s) in
  cinv N last round PROBE_BW (cls s) ->
  exists cs1 p c, CurrentCluster s = (Ok p, with_cls cs1 s) /\
    chain (heap cs1) (connection_info_ cs1) /\
    (forall q, (fresh cs1 <= q)%positive -> heap cs1 !! q = None) /\
    (round, p) ∈ connection_info_ cs1 /\ heap cs1 !! p = Some c /\
    seq_round_map_ cs1 = seq_round_map_ (cls s) /\ acked_clusters_ cs1 = acked_clusters_ (cls s) /\
    (forall i q, (i, q) ∈ connection_info_ cs1 ->
       (i, q) = (round, p) \/ (i, q) ∈ connection_info_ (cls s)) /\
    (forall e, e ∈ connection_info_ (cls s) -> e ∈ connection_info_ cs1) /\
    others_kept p (heap cs1) (heap (cls s)) /\
    ((round, p) ∈ connection_info_ (cls s) /\ heap (cls s) !! p = Some c \/
     core c = core (new_cluster round) /\ heap (cls s) !! p = None /\
     forall q, (round, q) ∉ connection_info_ (cls s)).
Proof.
  intros round Hi. pose proof (inv_chain _ _ _ _ _ Hi) as Hc. unfold CurrentCluster.
  rewrite (M_bind_ok _ _ _ s s) by done. fold round.
  destruct (find round (connection_info_ (cls s))) as [p|] eqn:Ep.
  { apply find_elem in Ep. destruct (chain_elem _ _ _ _ Hc Ep) as (c & E & _).
    exists (cls s), p, c. split; [by destruct s|]. split; [done|]. split; [apply Hi|].
    do 4 (split; [done|]). split; [auto|]. split; [done|]. split; [apply others_kept_refl|]. by left. }
  cbv zeta. rewrite new_cluster_ok by (done || apply Hi). set (p := fresh (cls s)).
  assert (forall j q, (j, q) ∈ connection_info_ (cls s) -> j < round) as Hlt.
  { intros j q Hq. pose proof (inv_round _ _ _ _ _ Hi j q Hq).
    destruct (decide (j = round)) as [->|]; [|lia].
    by rewrite (elem_find _ _ _ (chain_ordered _ _ Hc) Hq) in Ep. }
  assert (heap (cls s) !! p = None) as Hp by (apply (inv_fresh _ _ _ _ _ Hi); reflexivity).
  destruct (chain_append _ _ round p Hc Hp Hlt) as [Hc' Hcase].
  destruct (chain_elem _ _ round p Hc') as (c & E & _); [apply elem_of_app; right; by left|].
  rewrite (M_bind_ok _ _ _ _ _ (upd_cls_ok _ _)). eexists _, p, c. split; [reflexivity|]. cbn.
  rewrite insert_last by done. split; [done|]. split.
  { intros q Hq. apply eq_None_not_Some. intros [d Hd].
    destruct (Hcase q d Hd) as [[-> _]|(_ & d0 & Hd0 & _)]; [lia|].
    rewrite (inv_fresh _ _ _ _ _ Hi q) in Hd0; [done|]. unfold p in *. lia. }
  split; [apply elem_of_app; right; by left|]. do 3 (split; [done|]). split.
  { intros i q [Hq|Hq%list_elem_of_singleton]%elem_of_app; auto. }
  split; [intros e He; apply elem_of_app; by left|]. split.
  - intros q d Hqp Hd. destruct (Hcase q d Hd) as [[? _]|[_ ?]]; done.
  - right. destruct (Hcase p c E) as [[_ Hcore]|[? _]]; [|done]. split; [done|]. split; [done|].
    intros q Hq. specialize (Hlt _ _ Hq). lia.
Qed.

(** The packet is added to it. *)
Lemma AddPacketInfoSampler_ok N last now bytes s :
  let round := round_trip_count_ (cyc s) in
  cinv N last round PROBE_BW (cls s) -> 0 <= N ->
  exists cs', AddPacketInfoSampler now N bytes s = (Ok tt, with_cls cs' s) /\
    cinv (N + 1) last round PROBE_BW cs' /\ acked_clusters_ cs' = acked_clusters_ (cls s).
Proof.
  intros round Hi HN. pose proof (inv_chain _ _ _ _ _ Hi) as Hc.
  destruct (CurrentCluster_ok N last s Hi) as (cs1 & p & c & Eq & H1 & H2 & H3 & H4 & H5 & H6 & H7 & H8 & H9 & H10).
  unfold AddPacketInfoSampler. rewrite (M_bind_ok _ _ _ _ _ Eq).
  rewrite (M_bind_ok mget _ _ (with_cls cs1 s) (with_cls cs1 s)) by done.
  destruct (packet_added_ok N last round now bytes p c s (with_cls cs1 s)) as (cs' & E' & Hi' & Ha');
    auto. by exists cs'.
Qed.

End Inv.
