(* ===== verification/BbrProps.v ===== *)
(** * Theorems on the congestion controller and its pacing *)

From stdpp Require Import gmap.
From S2P Require Import Prelude.
From S2P Require Import QuicTime.
From S2P Require Import StdMap.
From S2P Require Import Bbr.
From S2P Require Import BbrSafe.
From S2P Require Import BbrInv.
Open Scope Z_scope.

(** The calls of the application: packets are numbered consecutively. *)
Inductive call : Type :=
  | Sent (now : QuicTime) (bytes : Z)
  | Acked (now : QuicTime) (packet_number : Z).

Section Props.
Context `{BbrLib}.
Implicit Types s : MyBbrSender.

Fixpoint run_calls (N : Z) (l : list call) : M MyBbrSender unit :=
  match l with
  | [] => mret tt
  | Sent now bytes :: l => OnPacketSent now N bytes;; run_calls (N + 1) l
  | Acked now n :: l => OnAck now n;; run_calls N l
  end.

Definition timed (e : call) : Prop :=
  match e with Sent _ _ => True | Acked now _ => now <> Time_Zero end.

(** The gain cycle: in [PROBE_BW] the gain is the entry of the table at the
    current offset, elsewhere it is one. *)
Definition gain_ok (y : Cycle) : Prop :=
  match mode_ y with
  | PROBE_BW => 0 <= cycle_current_offset_ y < kGainCycleLength /\
      pacing_gain_ y = gain_at (cycle_current_offset_ y)
  | _ => pacing_gain_ y = 4
  end.

Record sender_ok (N K : Z) s : Prop := {
  so_cls : cinv N (last_ack_seq_ s) (round_trip_count_ (cyc s)) (mode_ (cyc s)) (cls s);
  so_rounds : round_trip_count_ (cyc s) <= K;
  so_gain : gain_ok (cyc s)
}.

(** The same clusters and last acknowledgement, with [cyc] and [rtts] changed:
    enough of [sender_ok] survives. *)
Record kept (N last K : Z) s : Prop := {
  kept_cls : cinv N last (round_trip_count_ (cyc s)) (mode_ (cyc s)) (cls s);
  kept_rounds : round_trip_count_ (cyc s) <= K;
  kept_gain : gain_ok (cyc s)
}.

Definition with_rtts (r : Rtts) s : MyBbrSender :=
  mkBbr (min_bps_ s) (start_bps_ s) (max_bps_ s) (last_ack_seq_ s) (cls s) r (cyc s).

Definition with_cyc (y : Cycle) s : MyBbrSender :=
  mkBbr (min_bps_ s) (start_bps_ s) (max_bps_ s) (last_ack_seq_ s) (cls s) (rtts s) y.

Lemma upd_rtts_ok f s : upd_rtts f s = (Ok tt, with_rtts (f (rtts s)) s).
Proof. done. Qed.

Lemma upd_cyc_ok f s : upd_cyc f s = (Ok tt, with_cyc (f (cyc s)) s).
Proof. done. Qed.

Lemma kept_later N last last' K s : last <= last' -> kept N last K s -> kept N last' K s.
Proof. intros Hl [Hc]. split; [by apply (cinv_later _ last)|done..]. Qed.

(** ** The gain cycle *)

Lemma enter_probe_bw_ok now s :
  exists y, EnterProbeBandwidthMode now s = (Ok tt, with_cyc y s) /\ mode_ y = PROBE_BW /\
    (mode_ (cyc s) = PROBE_BW /\ y = cyc s \/
     mode_ (cyc s) <> PROBE_BW /\ round_trip_count_ y = u64 (round_trip_count_ (cyc s) + 1) /\
     0 <= cycle_current_offset_ y < kGainCycleLength /\ cycle_current_offset_ y <> 1 /\
     pacing_gain_ y = gain_at (cycle_current_offset_ y)).
Proof.
  unfold EnterProbeBandwidthMode. rewrite upd_cyc_ok. eexists. split; [reflexivity|].
  case_decide as Hm; [by split; [|left]|]. destruct (RandUint64 (random_ (cyc s))) as [r rand].
  split; [done|]. right. split; [done|]. split; [done|]. cbn [cycle_current_offset_ pacing_gain_].
  pose proof (Z.mod_pos_bound r (kGainCycleLength - 1) ltac:(done)) as Hb.
  change (kGainCycleLength - 1) with 7 in *. change kGainCycleLength with 8 in *.
  destruct (Z.leb_spec 1 (r mod 7)); split; try done; lia.
Qed.

Lemma enter_kept N last K now s : kept N last K s -> K + 1 < 2 ^ 64 ->
  exists y, EnterProbeBandwidthMode now s = (Ok tt, with_cyc y s) /\ mode_ y = PROBE_BW /\
    kept N last (K + 1) (with_cyc y s).
Proof.
  intros [Hc Hr Hg] HK. destruct (enter_probe_bw_ok now s) as (y & E & Hm & Hy).
  exists y. split; [done|]. split; [done|]. destruct Hy as [[Hp ->]|(Hp & Hrd & Ho & _ & Hgn)].
  - split; cbn; [done|lia|done].
  - pose proof (inv_round_pos _ _ _ _ _ Hc).
    rewrite wrap_id in Hrd by (unfold in_u; lia).
    split; cbn; rewrite ?Hm, ?Hrd; [by apply cinv_next_round in Hc|lia|].
    unfold gain_ok. by rewrite Hm.
Qed.

Lemma kept_rtts N last K r s : kept N last K s <-> kept N last K (with_rtts r s).
Proof. split; intros []; by split. Qed.

(** ** Clearing the clusters *)

Lemma clear_ok s : chain (heap (cls s)) (connection_info_ (cls s)) ->
  exists cs', ClusterInfoClear s = (Ok tt, with_cls cs' s) /\
    heap cs' = ∅ /\ connection_info_ cs' = [] /\ seq_round_map_ cs' = [] /\ acked_clusters_ cs' = [].
Proof.
  intros Hc. unfold ClusterInfoClear. do 4 rewrite (M_bind_ok _ _ _ _ _ (upd_cls_ok _ _)).
  rewrite delete_clusters_ok by done. eexists. by split.
Qed.

(** The mode after [MaybeEnterOrExitProbeRtt]. *)
Lemma maybe_probe_rtt_ok N last K now expired s :
  kept N last K s -> 0 <= K -> K + 1 < 2 ^ 64 ->
  exists s', MaybeEnterOrExitProbeRtt now expired s = (Ok tt, s') /\ kept N last (K + 1) s' /\
    last_ack_seq_ s' = last_ack_seq_ s /\ min_bps_ s' = min_bps_ s /\
    (mode_ (cyc s) <> START_UP -> mode_ (cyc s') <> START_UP) /\
    (mode_ (cyc s) = PROBE_RTT -> time_gt now (exit_probe_rtt_at_ (rtts s)) = true ->
     time_eq (exit_probe_rtt_at_ (rtts s)) Time_Zero = false -> mode_ (cyc s') = PROBE_BW).
Proof.
  intros Hk HK HK1. unfold MaybeEnterOrExitProbeRtt. rewrite (M_bind_ok _ _ _ s s) by done.
  assert (exists s1, (if expired && negb (bool_decide (mode_ (cyc s) = PROBE_RTT)) then
     upd_cyc (fun y => mkCycle PROBE_RTT 0 (pacing_rate_ y) 4 (cycle_current_offset_ y)
       (last_cycle_start_ y) (random_ y));;
     upd_rtts (fun r => mkRtts [] Delta_Zero (min_rtt_ r) (min_rtt_timestamp_ r) Time_Zero);;
     ClusterInfoClear
   else mret tt) s = (Ok tt, s1) /\ kept N last K s1 /\ last_ack_seq_ s1 = last_ack_seq_ s /\
     min_bps_ s1 = min_bps_ s /\ (mode_ (cyc s) <> START_UP -> mode_ (cyc s1) <> START_UP) /\
     (mode_ (cyc s) = PROBE_RTT -> s1 = s)) as (s1 & E1 & Hk1 & Hl1 & Hb1 & Hm1 & Hp1).
  { destruct (expired && _) eqn:Ee; [|by exists s].
    rewrite (M_bind_ok _ _ _ _ _ (upd_cyc_ok _ _)), (M_bind_ok _ _ _ _ _ (upd_rtts_ok _ _)).
    destruct Hk as [Hc Hr Hg].
    match goal with |- context [ClusterInfoClear ?x] =>
      destruct (clear_ok x (inv_chain _ _ _ _ _ Hc)) as (cs' & Ec & H1 & H2 & H3 & H4) end.
    eexists. split; [exact Ec|]. split; [split; cbn; [by apply cinv_empty|lia|done]|].
    split; [done|]. split; [done|]. split; [done|]. intros Hm. rewrite Hm in Ee.
    by rewrite andb_false_r in Ee. }
  rewrite (M_bind_ok _ _ _ _ _ E1), (M_bind_ok mget _ _ s1 s1) by done.
  assert (kept N last (K + 1) s1) as Hk1' by (destruct Hk1; split; [done|lia|done]).
  cbv beta. destruct (decide (mode_ (cyc s1) = PROBE_RTT)) as [Hm|Hm]; [|exists s1; split; [done|]; split; [done|]; do 2 (split; [done|]); split; [done|]].
  2:{ intros Hs _ _. rewrite (Hp1 Hs) in Hm. done. }
  rewrite (M_bind_ok _ _ _ _ _ (upd_rtts_ok _ _)).
  match goal with |- context [with_rtts ?r s1] => set (r1 := r); set (s2 := with_rtts r1 s1) end.
  rewrite (M_bind_ok mget _ _ s2 s2) by done.
  destruct (time_gt now (exit_probe_rtt_at_ (rtts s2)) || HasSampledLastMinRtt (rtts s2)) eqn:Eo.
  - rewrite (M_bind_ok _ _ _ _ _ (upd_rtts_ok _ _)).
    match goal with |- context [EnterProbeBandwidthMode now ?x] =>
      destruct (enter_kept N last K now x) as (y & E & Hym & Hky); [by apply kept_rtts, kept_rtts|done|] end.
    rewrite E. eexists. split; [reflexivity|]. split; [done|]. do 2 (split; [done|]).
    split; intros; cbn; [by rewrite Hym|done].
  - exists s2. split; [done|]. split; [by apply kept_rtts|]. do 2 (split; [done|]).
    split; [done|]. intros Hs Hgt Hz. exfalso. unfold s2, r1, with_rtts in Eo.
    cbn [rtts exit_probe_rtt_at_] in Eo. rewrite (Hp1 Hs), Hz, Hgt in Eo. done.
Qed.

(** ** The calls *)

Definition paced (s : MyBbrSender) : Cycle -> QuicBandwidth := fun y =>
  let min_rate := FromBitsPerSecond (min_bps_ s) in
  match mode_ y with
  | PROBE_BW =>
      let target := bw_scale (pacing_gain_ y) (BandwidthEstimate s) in
      if bw_lt target min_rate then min_rate else target
  | _ => min_rate
  end.

Lemma calculate_kept N last K s : kept N last K s ->
  exists y, CalculatePacingRate s = (Ok tt, with_cyc y s) /\ kept N last K (with_cyc y s) /\
    mode_ y = mode_ (cyc s) /\ pacing_rate_ y = paced s (cyc s).
Proof.
  intros [Hc Hr Hg]. unfold CalculatePacingRate. rewrite (M_bind_ok _ _ _ s s), upd_cyc_ok by done.
  eexists. split; [reflexivity|]. split; [by split|]. split; [done|].
  unfold paced. cbn. by destruct (mode_ (cyc s)).
Qed.

(** An accepted acknowledgement: the state before the cluster part. *)
Lemma OnAck_ok N K now n s :
  sender_ok N K s -> 0 <= K -> K + 2 < 2 ^ 64 -> N <= 2 ^ 32 -> now <> Time_Zero ->
  last_ack_seq_ s < n ->
  exists s', OnAck now n s = (Ok tt, s') /\ sender_ok N (K + 2) s' /\
    last_ack_seq_ s' = n /\ min_bps_ s' = min_bps_ s /\ mode_ (cyc s') <> START_UP /\
    (PaceRate s' = FromBitsPerSecond (min_bps_ s) \/
     bw_lt (PaceRate s') (FromBitsPerSecond (min_bps_ s)) = false) /\
    (mode_ (cyc s) = PROBE_RTT -> time_gt now (exit_probe_rtt_at_ (rtts s)) = true ->
     time_eq (exit_probe_rtt_at_ (rtts s)) Time_Zero = false -> mode_ (cyc s') = PROBE_BW).
Proof.
  intros [Hc Hr Hg] HK HK2 HN Hnow Hn. set (last := last_ack_seq_ s) in *.
  unfold OnAck, UpdateRtt. rewrite (M_bind_ok mget _ _ s s) by done. fold last.
  rewrite (proj2 (Z.leb_gt _ _)) by done.
  set (s0 := mkBbr (min_bps_ s) (start_bps_ s) (max_bps_ s) n (cls s) (rtts s) (cyc s)).
  rewrite (M_bind_ok _ _ _ tt s0), (M_bind_ok _ _ _ _ _ (upd_rtts_ok _ _)) by done.
  match goal with |- context [with_rtts ?r s0] => set (r1 := r); set (s1 := with_rtts r1 s0) end.
  assert (exit_probe_rtt_at_ r1 = exit_probe_rtt_at_ (rtts s)) as Hexit.
  { unfold r1. cbn [rtts s0]. by repeat case_match. }
  assert (kept N last K s1) as Hk1 by (by split).
  rewrite (M_bind_ok mget _ _ s1 s1) by done. cbv beta.
  assert (exists y, (if decide (mode_ (cyc s1) = START_UP) then EnterProbeBandwidthMode now else mret tt) s1
    = (Ok tt, with_cyc y s1) /\ kept N last (K + 1) (with_cyc y s1) /\ mode_ y <> START_UP /\
    (mode_ (cyc s) = PROBE_RTT -> mode_ y = PROBE_RTT)) as (y & Ey & Hk2 & Hm2 & Hp2).
  { destruct (decide (mode_ (cyc s1) = START_UP)) as [Hm|Hm].
    - destruct (enter_kept N last K now s1 Hk1) as (y & E & Hym & Hky); [lia|].
      exists y. split; [done|]. split; [done|]. split; [by rewrite Hym|].
      intros Hx. change (cyc s1) with (cyc s) in Hm. congruence.
    - exists (cyc s1). split; [done|]. split; [|done]. destruct Hk1. split; [done|cbn; lia|done]. }
  rewrite (M_bind_ok _ _ _ _ _ Ey). set (s2 := with_cyc y s1) in *.
  rewrite (M_bind_ok mget _ _ s2 s2) by done. cbv beta zeta.
  match goal with |- context [MaybeEnterOrExitProbeRtt now ?e] => set (expired := e) end.
  destruct (maybe_probe_rtt_ok N last (K + 1) now expired s2 Hk2) as (s3 & E3 & Hk3 & Hl3 & Hb3 & Hm3 & Hp3);
    [lia|lia|].
  rewrite (M_bind_ok _ _ _ _ _ E3).
  destruct (calculate_kept N last _ s3 Hk3) as (y4 & E4 & Hk4 & Hm4 & Hrate).
  rewrite (M_bind_ok _ _ _ _ _ E4). set (s4 := with_cyc y4 s3) in *.
  destruct (AckCluster_ok N last n now _ _ s4 (kept_cls _ _ _ _ Hk4) Hn HN Hnow) as (cs5 & E5 & Hi5).
  rewrite (M_bind_ok _ _ _ _ _ E5).
  destruct (UpdateAverage_ok N n _ _ (with_cls cs5 s4) Hi5) as (cs6 & E6 & Hi6 & _).
  rewrite E6. eexists. split; [reflexivity|]. cbn. rewrite Hl3, Hb3, Hm4.
  split; [|split; [done|split; [done|split; [by apply Hm3|split]]]].
  - split; cbn; [by rewrite Hl3|pose proof (kept_rounds _ _ _ _ Hk4) as Hr4; cbn in Hr4; lia|].
    apply Hk4.
  - unfold PaceRate. cbn. rewrite Hrate. unfold paced. rewrite Hb3. cbn.
    destruct (mode_ (cyc s3)); [by left| |by left].
    destruct (bw_lt _ _) eqn:El; [by left|by right].
  - intros Hpm Hgt Hz. apply Hp3; [by apply Hp2|..]; cbn; by rewrite Hexit.
Qed.

(** One phase of the cycle. *)
Lemma gain_phase_ok N K now s :
  mode_ (cyc s) = PROBE_BW -> cinv N (last_ack_seq_ s) (round_trip_count_ (cyc s)) PROBE_BW (cls s) ->
  round_trip_count_ (cyc s) <= K -> gain_ok (cyc s) -> K + 1 < 2 ^ 64 ->
  exists y, UpdateGainCyclePhase now s = (Ok tt, with_cyc y s) /\ mode_ y = PROBE_BW /\
    cinv N (last_ack_seq_ s) (round_trip_count_ y) PROBE_BW (cls s) /\
    round_trip_count_ y <= K + 1 /\ gain_ok y.
Proof.
  intros Hm Hc Hr Hg HK. unfold UpdateGainCyclePhase.
  rewrite (M_bind_ok _ _ _ s s), upd_cyc_ok by done. eexists. split; [reflexivity|].
  pose proof (inv_round_pos _ _ _ _ _ Hc).
  destruct (delta_gt _ _); [|split; [done|split; [done|split; [lia|done]]]].
  cbn [mode_ round_trip_count_]. rewrite wrap_id by (unfold in_u; lia).
  split; [done|]. split; [by apply cinv_next_round in Hc|]. split; [lia|].
  unfold gain_ok. cbn [mode_]. rewrite Hm. cbn [cycle_current_offset_ pacing_gain_].
  split; [|done]. by apply Z.mod_pos_bound.
Qed.

(** Outside [PROBE_BW] there are no clusters to add a packet to. *)
Lemma cinv_skip_packet N last round mode cs :
  mode <> PROBE_BW -> cinv N last round mode cs -> cinv (N + 1) last round mode cs.
Proof.
  intros Hm Hi. pose proof (inv_mode _ _ _ _ _ Hi Hm) as Em. destruct Hi. split; try done.
  - intros p c Hp. rewrite Em in Hp. by apply not_elem_of_nil in Hp.
  - intros p c Ec. specialize (inv_end _ _ Ec). lia.
  - intros sq r Hsq. destruct (inv_seq _ _ Hsq). lia.
Qed.

Lemma OnPacketSent_ok N K now bytes s :
  sender_ok N K s -> 0 <= K -> K + 1 < 2 ^ 64 -> 0 <= N ->
  exists s', OnPacketSent now N bytes s = (Ok tt, s') /\ sender_ok (N + 1) (K + 1) s' /\
    last_ack_seq_ s' = last_ack_seq_ s.
Proof.
  intros [Hc Hr Hg] HK HK1 HN. unfold OnPacketSent, AddSeqAndTimestamp.
  rewrite (M_bind_ok _ _ _ _ _ (upd_rtts_ok _ _)). set (s1 := with_rtts _ s).
  rewrite (M_bind_ok mget _ _ s1 s1) by done. cbv beta.
  destruct (decide (mode_ (cyc s1) = PROBE_BW)) as [Hm|Hm]; cbn in Hm.
  - rewrite Hm in Hc. destruct (gain_phase_ok N K now s1) as (y & Ey & Hym & Hcy & Hry & Hgy);
      [done|done|done|done|lia|].
    rewrite (M_bind_ok _ _ _ _ _ Ey).
    destruct (AddPacketInfoSampler_ok N (last_ack_seq_ s) now bytes (with_cyc y s1) Hcy HN)
      as (cs' & Ea & Hi' & _).
    rewrite Ea. eexists. split; [reflexivity|]. split; [|done].
    split; cbn; [by rewrite Hym|done|done].
  - exists s1. split; [done|]. split; [|done]. split; cbn; [|lia|done].
    by apply cinv_skip_packet.
Qed.

Lemma new_sender_ok min_bps start_bps max_bps random :
  sender_ok 1 0 (new_sender min_bps start_bps max_bps random).
Proof. split; cbn; [by apply cinv_empty|lia|done]. Qed.

Lemma run_calls_ok l : forall N K s,
  sender_ok N K s -> Forall timed l -> 0 <= N -> 0 <= K ->
  N + zlen l <= 2 ^ 32 -> K + 2 * zlen l < 2 ^ 64 ->
  exists s' N', run_calls N l s = (Ok tt, s') /\ sender_ok N' (K + 2 * zlen l) s' /\
    0 <= N' <= N + zlen l.
Proof.
  induction l as [|e l IH]; intros N K s Hs Ht HN HK HNl HKl.
  { exists s, N. change (zlen (@nil call)) with 0 in *. split; [done|]. split; [|lia].
    by replace (K + 2 * 0) with K by lia. }
  inversion Ht as [|? ? He Hl]; subst. rewrite zlen_cons in *. pose proof (zlen_nonneg l).
  assert (forall N1 K1 s1, sender_ok N1 K1 s1 -> 0 <= N1 <= N + 1 -> 0 <= K1 <= K + 2 ->
    exists s' N', run_calls N1 l s1 = (Ok tt, s') /\ sender_ok N' (K + 2 * (1 + zlen l)) s' /\
      0 <= N' <= N + (1 + zlen l)) as Hstep.
  { intros N1 K1 s1 H1 HN1 HK1. destruct (IH N1 K1 s1) as (s' & N' & E & Hs' & HN');
      [done|done|lia..|]. exists s', N'. split; [done|]. split; [|lia].
    destruct Hs' as [? Hr ?]. split; [done|lia|done]. }
  destruct e as [now bytes|now n]; cbn [run_calls].
  - destruct (OnPacketSent_ok N K now bytes s) as (s1 & E & H1 & _); [done|lia..|].
    rewrite (M_bind_ok _ _ _ _ _ E). apply (Hstep (N + 1) (K + 1)); [done|lia..].
  - destruct (decide (last_ack_seq_ s < n)) as [Hn|Hn].
    + destruct (OnAck_ok N K now n s) as (s1 & E & H1 & _); [done|lia|lia|lia|done|done|].
      rewrite (M_bind_ok _ _ _ _ _ E). apply (Hstep N (K + 2)); [done|lia..].
    + assert (OnAck now n s = (Ok tt, s)) as E.
      { unfold OnAck. rewrite (M_bind_ok mget _ _ s s) by done.
        by rewrite (proj2 (Z.leb_le _ _)) by lia. }
      rewrite (M_bind_ok _ _ _ _ _ E). apply (Hstep N K); [done|lia..].
Qed.

(** The states the application can bring about with at most [2^31] calls. *)
Definition reachable s : Prop :=
  exists min_bps start_bps max_bps random l,
    Forall timed l /\ zlen l < 2 ^ 31 /\
    run_calls 1 l (new_sender min_bps start_bps max_bps random) = (Ok tt, s).

Lemma reachable_ok s : reachable s -> exists N, sender_ok N (2 ^ 32) s /\ 0 <= N <= 2 ^ 32.
Proof.
  intros (a & b & c & r & l & Ht & Hl & E). pose proof (zlen_nonneg l).
  destruct (run_calls_ok l 1 0 _ (new_sender_ok a b c r) Ht) as (s' & N' & E' & Hs & HN); [lia..|].
  assert (s' = s) as -> by congruence. exists N'. split; [|lia].
  destruct Hs as [? Hr ?]. split; [done|lia|done].
Qed.

(** C8: The controller is memory safe and leaks nothing: any sequence of sends
    and acknowledgements - in any order, for any packet numbers, the
    acknowledgements at nonzero times - runs without touching a deleted cluster
    or indexing past a cluster's packets, and the destructor then deletes every
    cluster exactly once. *)
Theorem bbr_memory_safe min_bps start_bps max_bps random l :
  Forall timed l -> zlen l < 2 ^ 31 ->
  exists s, run_calls 1 l (new_sender min_bps start_bps max_bps random) = (Ok tt, s) /\
    exists s', destroy_sender s = (Ok tt, s') /\ heap (cls s') = ∅.
Proof.
  intros Ht Hl. pose proof (zlen_nonneg l).
  destruct (run_calls_ok l 1 0 _ (new_sender_ok min_bps start_bps max_bps random) Ht)
    as (s & N & E & [Hc _ _] & _); [lia..|].
  exists s. split; [done|]. unfold destroy_sender.
  do 2 rewrite (M_bind_ok _ _ _ _ _ (upd_cls_ok _ _)).
  rewrite delete_clusters_ok; [by eexists|]. apply Hc.
Qed.

(** C21: The books balance: in every reachable state each live cluster holds a
    run of consecutive packet numbers, at least one, its two byte counters are
    the sums over its packets and over its acknowledged packets, and no packet
    numbered above the last acknowledgement counts as acknowledged. *)
Theorem bbr_accounting s p c :
  reachable s -> heap (cls s) !! p = Some c ->
  (exists x, packet_infos_ c !! 0%nat = Some x /\
     forall i y, packet_infos_ c !! i = Some y -> seq y = seq x + Z.of_nat i) /\
  sent_packets_ c = u64 (sum_of len (packet_infos_ c)) /\
  acked_packets_ c = u64 (sum_of acked_len (packet_infos_ c)) /\
  forall y, y ∈ packet_infos_ c -> last_ack_seq_ s < seq y -> ack_ts y = Time_Zero.
Proof.
  intros (N & [Hc _ _] & _)%reachable_ok E.
  destruct (inv_cluster _ _ _ _ _ Hc p c E) as [Hn _ Hs Hu Hse Hac].
  split; [|split; [done|split; [done|]]].
  - unfold first_seq in Hs. destruct (packet_infos_ c) as [|x l] eqn:El; [done|].
    exists x. split; [done|]. exact Hs.
  - intros y Hy Hlt. apply list_elem_of_lookup in Hy as [i Hi]. by apply (Hu i y).
Qed.

(** After every acknowledgement it accepts, a reachable sender has left
    start-up and paces no slower than the configured minimum; an
    acknowledgement no newer than the last one changes nothing. *)
Theorem bbr_rate_floor s now n :
  (forall bw, bw_lt bw bw = false) -> reachable s -> now <> Time_Zero ->
  exists s', OnAck now n s = (Ok tt, s') /\
    (n <= last_ack_seq_ s -> s' = s) /\
    (last_ack_seq_ s < n -> mode_ (cyc s') <> START_UP /\
       bw_lt (PaceRate s') (FromBitsPerSecond (min_bps_ s')) = false).
Proof.
  intros Hirr (N & Hs & HN)%reachable_ok Hnow. destruct (Z.le_gt_cases n (last_ack_seq_ s)) as [Hn|Hn].
  - exists s. split; [|split; [done|lia]]. unfold OnAck. rewrite (M_bind_ok mget _ _ s s) by done.
    by rewrite (proj2 (Z.leb_le _ _)).
  - destruct (OnAck_ok N (2 ^ 32) now n s) as (s' & E & _ & _ & Hb & Hm & Hrate & _); [done|lia..|done|done|].
    exists s'. split; [done|]. split; [lia|]. intros _. split; [done|]. rewrite Hb.
    destruct Hrate as [->|?]; [apply Hirr|done].
Qed.

(** Probing for the minimum round trip ends: the first acknowledgement
    accepted after the 200 ms deadline puts the sender back in [PROBE_BW]. *)
Theorem probe_rtt_exits s now n :
  reachable s -> mode_ (cyc s) = PROBE_RTT -> exit_probe_rtt_at_ (rtts s) <> Time_Zero ->
  time_gt now (exit_probe_rtt_at_ (rtts s)) = true -> now <> Time_Zero -> last_ack_seq_ s < n ->
  exists s', OnAck now n s = (Ok tt, s') /\ mode_ (cyc s') = PROBE_BW.
Proof.
  intros (N & Hs & HN)%reachable_ok Hm Hz Hgt Hnow Hn.
  destruct (OnAck_ok N (2 ^ 32) now n s) as (s' & E & _ & _ & _ & _ & _ & Hexit); [done|lia..|done|done|].
  exists s'. split; [done|]. apply Hexit; [done|done|].
  by destruct (time_eq_spec (exit_probe_rtt_at_ (rtts s)) Time_Zero).
Qed.

(** The gain follows the cycle: a reachable sender asks for probe packets
    exactly in the first phase of [PROBE_BW], and the phase just entered from
    another mode is never the draining one. *)
Theorem bbr_gain_cycle s now :
  reachable s ->
  (ShouldSendProbePacket s = true <-> mode_ (cyc s) = PROBE_BW /\ cycle_current_offset_ (cyc s) = 0) /\
  exists s', EnterProbeBandwidthMode now s = (Ok tt, s') /\ mode_ (cyc s') = PROBE_BW /\
    (mode_ (cyc s) <> PROBE_BW -> cycle_current_offset_ (cyc s') <> 1 /\ 4 <= pacing_gain_ (cyc s')).
Proof.
  intros (N & [_ _ Hg] & _)%reachable_ok.
  assert (forall o, 0 <= o < kGainCycleLength ->
    o = 0 \/ o = 1 \/ o = 2 \/ o = 3 \/ o = 4 \/ o = 5 \/ o = 6 \/ o = 7) as Ho
    by (intros o; change kGainCycleLength with 8; lia).
  split.
  - unfold ShouldSendProbePacket, gain_ok in *. destruct (mode_ (cyc s)) eqn:Em.
    + rewrite Hg. split; [done|]. by intros [? _].
    + destruct Hg as [Hr ->]. split.
      * intros Hp. split; [done|]. revert Hp.
        by destruct (Ho _ Hr) as [->|[->|[->|[->|[->|[->|[->| ->]]]]]]].
      * by intros [_ ->].
    + rewrite Hg. split; [done|]. by intros [? _].
  - destruct (enter_probe_bw_ok now s) as (y & E & Hm & Hy). exists (with_cyc y s).
    split; [done|]. split; [done|]. intros Hne. destruct Hy as [[? _]|(_ & _ & Hr & Hne1 & Hgn)]; [done|].
    split; [done|]. cbn [with_cyc cyc]. rewrite Hgn. revert Hne1.
    by destruct (Ho _ Hr) as [->|[->|[->|[->|[->|[->|[->| ->]]]]]]].
Qed.

(** ** Pacing *)

(** The application's calls on the pacer, a packet sent only when it allows it;
    the result is the transfer times of the packets, at the rate in force. *)
Fixpoint run_paced (N : Z) (l : list call) : M MyPacingSender (list Z) :=
  match l with
  | [] => mret []
  | Sent now bytes :: l =>
      p ← mget;
      if negb (delta_eq (TimeUntilSend now p) Delta_Zero) then mfail
      else
        Pacing_OnPacketSent now N bytes;;
        rate ← on_sender (s ← mget; mret (PaceRate s));
        times ← run_paced (N + 1) l;
        mret (time_offset_ (TransferTime rate bytes) :: times)
  | Acked now n :: l => OnCongestionEvent now n;; run_paced N l
  end.

Definition total (times : list Z) : Z := foldr Z.add 0 times.

Lemma total_nonneg times : Forall (Z.le 0) times -> 0 <= total times.
Proof. unfold total. induction 1; cbn; lia. Qed.

(** Sent below [T]. *)
Definition sent_below (T : Z) (e : call) : Prop :=
  match e with Sent now _ => 0 <= time_ now < T | Acked _ _ => True end.

Definition paceable (p : MyPacingSender) : Prop :=
  alarm_granularity_ p = FromMilliseconds 1 /\ 0 <= time_ (ideal_next_packet_send_time_ p) < 2 ^ 62 /\
  exists s, sender_ p = Some s.

Lemma until_send now p : paceable p -> 0 <= time_ now < 2 ^ 61 ->
  delta_eq (TimeUntilSend now p) Delta_Zero = true ->
  time_ (ideal_next_packet_send_time_ p) <= time_ now + 1000.
Proof.
  intros (Hg & Hi & _) Hn. unfold TimeUntilSend, time_gt, time_lt, time_add, delta_eq. rewrite Hg.
  cbn [time_]. change (time_offset_ (FromMilliseconds 1)) with 1000.
  assert (forall z, - 2 ^ 63 <= z < 2 ^ 63 -> s64 z = z) as Hid
    by (intros; apply swrap_id; [lia|]; unfold in_s; change (64 - 1) with 63; lia).
  change (2 ^ 61) with 2305843009213693952 in *. change (2 ^ 62) with 4611686018427387904 in *.
  change (2 ^ 63) with 9223372036854775808 in *. rewrite Hid by lia.
  destruct (Z.ltb_spec (time_ now + 1000) (time_ (ideal_next_packet_send_time_ p))); [|lia].
  unfold time_diff, Delta_Zero. cbn [time_offset_]. rewrite Hid by lia. intros E%Z.eqb_eq. lia.
Qed.

(** One paced packet moves the ideal time by its transfer time, from the later
    of now and the previous ideal time. *)
Lemma paced_packet now N bytes p u p' :
  paceable p -> 0 <= time_ now < 2 ^ 61 -> Pacing_OnPacketSent now N bytes p = (Ok u, p') ->
  alarm_granularity_ p' = FromMilliseconds 1 /\
  exists s', sender_ p' = Some s' /\ forall d, d = time_offset_ (TransferTime (PaceRate s') bytes) ->
    0 <= d < 2 ^ 61 ->
    time_ (ideal_next_packet_send_time_ p') =
      Z.max (time_ (ideal_next_packet_send_time_ p)) (time_ now) + d.
Proof.
  intros (Hg & Hi & s & Es) Hn E. unfold Pacing_OnPacketSent in E.
  rewrite (M_bind_ok mget _ p p p) in E by done. rewrite Es in E.
  apply M_bind_inv in E as (x & p1 & E1 & E). unfold on_sender in E1. rewrite Es in E1.
  destruct (OnPacketSent now N bytes s) as [r s'] eqn:Eo. injection E1 as -> <-.
  apply M_bind_inv in E as (rate & p2 & E2 & E). cbn in E2. injection E2 as <- <-.
  injection E as _ <-. cbn [alarm_granularity_ sender_ ideal_next_packet_send_time_].
  split; [done|]. exists s'. split; [done|]. intros d -> Hd. set (d := time_offset_ _) in *.
  assert (forall z, - 2 ^ 63 <= z < 2 ^ 63 -> s64 z = z) as Hid
    by (intros; apply swrap_id; [lia|]; unfold in_s; change (64 - 1) with 63; lia).
  change (2 ^ 61) with 2305843009213693952 in *. change (2 ^ 62) with 4611686018427387904 in *.
  change (2 ^ 63) with 9223372036854775808 in *.
  unfold time_max, time_lt, time_add. fold d. cbn [time_]. rewrite !Hid by lia.
  destruct (Z.ltb_spec (time_ (ideal_next_packet_send_time_ p) + d) (time_ now + d)); cbn [time_]; lia.
Qed.

(** An acknowledgement leaves the schedule alone. *)
Lemma acked_pacing now n p u p' : paceable p -> OnCongestionEvent now n p = (Ok u, p') ->
  paceable p' /\ ideal_next_packet_send_time_ p' = ideal_next_packet_send_time_ p.
Proof.
  intros (Hg & Hi & s & Es) E. unfold OnCongestionEvent in E. rewrite (M_bind_ok mget _ p p p) in E by done.
  rewrite Es in E. unfold on_sender in E. rewrite Es in E. destruct (OnAck now n s) as [r s'].
  injection E as _ <-. split; [|done]. split; [done|]. split; [done|]. by exists s'.
Qed.

(** A run moves the ideal time by at least the transfer times of its packets,
    counted from its first packet too. *)
Lemma run_paced_moves l : forall N p times p', paceable p -> Forall (sent_below (2 ^ 61)) l ->
  run_paced N l p = (Ok times, p') -> Forall (Z.le 0) times -> total times < 2 ^ 60 ->
  time_ (ideal_next_packet_send_time_ p) + total times < 2 ^ 62 ->
  paceable p' /\
  time_ (ideal_next_packet_send_time_ p) + total times <= time_ (ideal_next_packet_send_time_ p') /\
  match l with
  | Sent now _ :: _ => time_ now + total times <= time_ (ideal_next_packet_send_time_ p')
  | _ => True
  end.
Proof.
  induction l as [|[now bytes|now n] l IH]; intros N p times p' Hp Hl E Ht Hs Hr; cbn [run_paced] in E.
  { injection E as <- <-. cbn in *. split; [done|]. split; [lia|done]. }
  2:{ apply M_bind_inv in E as (u & p1 & E1 & E). apply acked_pacing in E1 as [Hp1 Hi1]; [|done].
      apply Forall_inv_tail in Hl. rewrite <- Hi1 in *. destruct (IH N p1 times p' Hp1 Hl E Ht Hs Hr) as (H1 & H2 & _).
      by split_and!. }
  apply Forall_cons in Hl as [Hnow Hl]. cbn in Hnow.
  rewrite (M_bind_ok mget _ p p p) in E by done.
  destruct (delta_eq (TimeUntilSend now p) Delta_Zero) eqn:Ez; cbn [negb] in E; [|done].
  pose proof (until_send now p Hp Hnow Ez) as Hle.
  apply M_bind_inv in E as (u & p1 & E1 & E).
  destruct (paced_packet now N bytes p u p1 Hp Hnow E1) as (Hg1 & s1 & Es1 & Ei).
  apply M_bind_inv in E as (rate & p2 & E2 & E). unfold on_sender in E2. rewrite Es1 in E2.
  cbn in E2. injection E2 as <- <-. apply M_bind_inv in E as (rest & p3 & E3 & E).
  injection E as <- <-. specialize (Ei _ eq_refl). set (d := time_offset_ _) in *.
  apply Forall_cons in Ht as [Hd Ht]. pose proof (total_nonneg rest Ht) as H0. cbn in Hs, Hr. fold (total rest) in *.
  destruct Hp as (Hg & Hi & _). change (2 ^ 60) with 1152921504606846976 in *.
  change (2 ^ 61) with 2305843009213693952 in *. change (2 ^ 62) with 4611686018427387904 in *.
  specialize (Ei ltac:(lia)). set (p2 := mkPacing _ _ _) in E3.
  assert (time_ (ideal_next_packet_send_time_ p2) = Z.max (time_ (ideal_next_packet_send_time_ p)) (time_ now) + d) as Ei2 by done.
  destruct (IH (N + 1) p2 rest p3) as (Hp3 & Hsum & _); [|done|done|done|lia|lia|].
  - split; [done|]. split; [change (2 ^ 62) with 4611686018427387904; lia|]. by exists s1.
  - split; [done|]. cbn. fold (total rest). lia.
Qed.

(** C20: The pacer keeps the rate over any stretch of time.  In a run of packets,
    each sent when [TimeUntilSend] allows it, and of acknowledgements between
    them, which may change the rate: the next packet is not allowed before the
    packets' total transfer time, each at the rate in force when it was sent, has
    passed since the first, but for the alarm granularity of one millisecond.
    The library's transfer times are taken to be what they should be for the
    packets of this run: none negative, and less than 2^60 us together.  Times are
    below 2^61 us. *)
Theorem pacing_budget l N p now0 bytes0 times p' now' :
  paceable p -> Forall (sent_below (2 ^ 61)) (Sent now0 bytes0 :: l) ->
  run_paced N (Sent now0 bytes0 :: l) p = (Ok times, p') ->
  Forall (Z.le 0) times -> total times < 2 ^ 60 ->
  0 <= time_ now' < 2 ^ 61 -> delta_eq (TimeUntilSend now' p') Delta_Zero = true ->
  time_ now0 + total times <= time_ now' + 1000.
Proof.
  intros Hp Hl E Ht Hs Hn' Hz. assert (delta_eq (TimeUntilSend now0 p) Delta_Zero = true) as Ez.
  { cbn [run_paced] in E. rewrite (M_bind_ok mget _ p p p) in E by done. by destruct (delta_eq _ _). }
  pose proof (Forall_inv Hl) as Hnow0. cbn in Hnow0. pose proof (until_send now0 p Hp Hnow0 Ez) as Hi.
  destruct (run_paced_moves _ N p times p' Hp Hl E Ht Hs) as (Hp' & _ & Hfirst).
  { change (2 ^ 60) with 1152921504606846976 in *. change (2 ^ 61) with 2305843009213693952 in *.
    change (2 ^ 62) with 4611686018427387904. lia. }
  pose proof (until_send now' p' Hp' Hn' Hz). lia.
Qed.

End Props.
