(* ===== verification/BbrStarve.v ===== *)
(** * A search for the minimum round trip that finds none

    On a path whose round trip is longer than the search and two gaps between
    acknowledgements, every packet acknowledged during a search was sent before
    the search forgot the packets in flight. *)

From stdpp Require Import gmap.
From S2P Require Import Prelude.
From S2P Require Import QuicTime.
From S2P Require Import StdMap.
From S2P Require Import Bbr.
From S2P Require Import BbrSafe.
From S2P Require Import BbrInv.
From S2P Require Import BbrProps.
Open Scope Z_scope.

Create HintDb unseen.

(** ** What a computation leaves alone *)

Section Unseen.
Context `{BbrLib}.
Implicit Types s : MyBbrSender.

(** When [m] returns, what [f] shows of the sender is what it was. *)
Definition unseen {X A} (f : MyBbrSender -> X) (m : M MyBbrSender A) : Prop :=
  forall s a s', m s = (Ok a, s') -> f s' = f s.

Lemma unseen_bind {X A B} (f : MyBbrSender -> X) (m : M MyBbrSender A) (g : A -> M MyBbrSender B) :
  unseen f m -> (forall a, unseen f (g a)) -> unseen f (m ≫= g).
Proof. intros Hm Hg s b s' (a & s1 & E1 & E2)%M_bind_inv. rewrite (Hg a _ _ _ E2). by eapply Hm. Qed.

Lemma unseen_ret {X A} (f : MyBbrSender -> X) (a : A) : unseen f (mret a).
Proof. by intros s b s' [= _ <-]. Qed.

Lemma unseen_get {X} (f : MyBbrSender -> X) : unseen f mget.
Proof. by intros s b s' [= _ <-]. Qed.

Lemma unseen_stuck {X A} (f : MyBbrSender -> X) : unseen f (mstuck (A := A)).
Proof. by intros s b s'. Qed.

Lemma unseen_cls {X} (f : MyBbrSender -> X) g : (forall s, f (with_cls (g (cls s)) s) = f s) -> unseen f (upd_cls g).
Proof. intros Hg s a s' [= _ <-]. apply Hg. Qed.

(** Everything but the clusters. *)
Definition outside s := (min_bps_ s, last_ack_seq_ s, rtts s, cyc s).

(** Everything but the clusters' heap and list and the averages. *)
Definition view s := (outside s, seq_round_map_ (cls s), acked_clusters_ (cls s), max_bandwidth_ (cls s)).

End Unseen.

#[export] Hint Resolve unseen_ret unseen_get unseen_stuck : unseen.

Ltac unseen_steps := repeat first
  [ solve [auto with unseen]
  | apply unseen_bind; [|intros]
  | apply unseen_cls; intros; reflexivity
  | match goal with |- unseen _ (match ?x with _ => _ end) => destruct x end
  | match goal with |- unseen _ (if ?x then _ else _) => destruct x end ].

Section Starve.
Context `{BbrLib}.
Implicit Types s : MyBbrSender.

(** *** Only the heap and the list *)

Lemma cl_get_unseen {X} (f : MyBbrSender -> X) p : unseen f (cl_get p).
Proof. unfold cl_get. unseen_steps. Qed.

#[local] Hint Resolve cl_get_unseen : unseen.

Lemma delete_all_unseen m : unseen view (delete_all m).
Proof. induction m as [|[k p] m IH]; cbn [delete_all]; unfold cl_delete; unseen_steps. Qed.

Lemma CurrentCluster_unseen : unseen view CurrentCluster.
Proof. unfold CurrentCluster, SetPrev, SetNext, cl_put. cbv zeta. unseen_steps. Qed.

Lemma Cluster_OnPacketSent_unseen p now n bytes : unseen view (Cluster_OnPacketSent p now n bytes).
Proof. unfold Cluster_OnPacketSent, cl_put. unseen_steps. Qed.

(** *** Only the clusters *)

Lemma TriggerBandwidthEstimate_outside p : unseen outside (TriggerBandwidthEstimate p).
Proof. unfold TriggerBandwidthEstimate, OnEstimateBandwidth, cl_put. cbv zeta. unseen_steps. Qed.

#[local] Hint Resolve TriggerBandwidthEstimate_outside : unseen.

Lemma AckCluster_outside now n : unseen outside (AckCluster now n).
Proof. unfold AckCluster, Cluster_OnAck, cl_put. unseen_steps. Qed.

Lemma sum_clusters_outside l : forall t, unseen outside (sum_clusters l t).
Proof.
  induction l as [|p l IH]; intros t; cbn [sum_clusters]; unfold GetSentInfo, GetAckedInfo, GetClusterId; unseen_steps.
Qed.

Lemma remove_le_outside r m : unseen outside (remove_le r m).
Proof. induction m as [|[k p] m IH]; cbn [remove_le]; unfold GetNext, SetPrev, cl_delete, cl_put; unseen_steps. Qed.

#[local] Hint Resolve sum_clusters_outside remove_le_outside : unseen.

Lemma remove_stale_outside n : unseen outside (remove_stale n).
Proof. induction n as [|n IH]; cbn [remove_stale]; unfold RemoveClusterLE, GetClusterId; unseen_steps. Qed.

#[local] Hint Resolve remove_stale_outside : unseen.

Lemma UpdateAverage_outside : unseen outside UpdateAverage.
Proof. unfold UpdateAverage. cbv zeta. unseen_steps. Qed.

Lemma CalculatePacingRate_mode : unseen (fun s => mode_ (cyc s)) CalculatePacingRate.
Proof. intros s a s'. unfold CalculatePacingRate. rewrite (M_bind_ok mget _ _ s s), upd_cyc_ok by done. by intros [= _ <-]. Qed.

(** ** The search *)

(** How long a search lasts, and the times that do not overflow. *)
Definition probe_us : Z := 200000.
Definition max_us : Z := 2 ^ 61.

(** A search began at [t0], when packet [b] was next to be sent; the sender, of
    minimum rate [rate], has had no sample since. *)
Record starving (b t0 : Z) (rate : QuicBandwidth) s : Prop := {
  st_rtt : min_rtt_ (rtts s) = Delta_Zero;
  st_times k t : (k, t) ∈ seq_ts_map_ (rtts s) -> b <= k;
  st_expired t : t0 <= t -> time_gt (mkTime t) (time_add (min_rtt_timestamp_ (rtts s)) kMinRttExpiry) = true;
  st_seqs k r : (k, r) ∈ seq_round_map_ (cls s) -> b <= k;
  st_sampled : acked_clusters_ (cls s) = [];
  st_best : BandwidthEstimate s = BW_Zero;
  st_min : FromBitsPerSecond (min_bps_ s) = rate;
  st_rate : PaceRate s = rate
}.

(** Searching until [t0] and 200 ms, or back in [PROBE_BW]. *)
Definition searching (t0 : Z) s : Prop :=
  mode_ (cyc s) = PROBE_RTT /\ exit_probe_rtt_at_ (rtts s) = mkTime (t0 + probe_us).

Lemma starving_view b t0 rate s s' : view s' = view s -> starving b t0 rate s -> starving b t0 rate s'.
Proof.
  intros [= E1 E2 E3 E4 E5 E6 E7] [H1 H2 H3 H4 H5 H6 H7 H8].
  split; unfold BandwidthEstimate, PaceRate in *; rewrite ?E1, ?E3, ?E4, ?E5, ?E6, ?E7; done.
Qed.

Lemma searching_view t0 s s' : view s' = view s -> searching t0 s -> searching t0 s'.
Proof. intros [= E1 E2 E3 E4 E5 E6 E7] [H1 H2]. split; [by rewrite E4|by rewrite E3]. Qed.

Lemma max_id z : 0 <= z < 2 * max_us -> s64 z = z.
Proof.
  unfold max_us. change (2 ^ 61) with 2305843009213693952. intros Hz. apply swrap_id; [lia|]. unfold in_s.
  change (2 ^ (64 - 1)) with 9223372036854775808. lia.
Qed.

Lemma no_sample (r : Rtts) : min_rtt_ r = Delta_Zero -> HasSampledLastMinRtt r = false.
Proof. intros E. unfold HasSampledLastMinRtt. by rewrite E. Qed.

(** *** Sending *)

(** The gain cycle goes on at the same rate. *)
Lemma gain_phase_eq now s : exists y, UpdateGainCyclePhase now s = (Ok tt, with_cyc y s) /\
  mode_ y = mode_ (cyc s) /\ pacing_rate_ y = pacing_rate_ (cyc s).
Proof.
  unfold UpdateGainCyclePhase. rewrite (M_bind_ok mget _ _ s s), upd_cyc_ok by done.
  eexists. split; [reflexivity|]. by destruct (delta_gt _ _).
Qed.

(** The packet's number enters the maps. *)
Lemma sent_starving b t0 rate now N bytes s a s' : OnPacketSent now N bytes s = (Ok a, s') -> b <= N ->
  starving b t0 rate s ->
  starving b t0 rate s' /\ mode_ (cyc s') = mode_ (cyc s) /\ last_ack_seq_ s' = last_ack_seq_ s /\
  (searching t0 s -> searching t0 s').
Proof.
  intros E HbN [H1 H2 H3 H4 H5 H6 H7 H8]. unfold OnPacketSent, AddSeqAndTimestamp in E.
  rewrite (M_bind_ok _ _ _ _ _ (upd_rtts_ok _ _)) in E. set (s1 := with_rtts _ s) in E.
  rewrite (M_bind_ok mget _ _ s1 s1) in E by done. cbv beta in E.
  assert (starving b t0 rate s1) as Hs1.
  { split; try done. cbn. intros k t [[-> ->]|Hk]%elem_insert; [lia|]. by eapply H2. }
  destruct (decide (mode_ (cyc s1) = PROBE_BW)) as [Hm|Hm]; [|injection E as _ <-; by split_and!].
  destruct (gain_phase_eq now s1) as (y & Ey & Hym & Hyr). rewrite (M_bind_ok _ _ _ _ _ Ey) in E.
  set (s2 := with_cyc y s1) in *.
  assert (starving b t0 rate s2) as Hs2.
  { destruct Hs1. split; try done. unfold PaceRate in *. cbn in *. congruence. }
  unfold AddPacketInfoSampler in E. apply M_bind_inv in E as (p & s3 & E3 & E).
  pose proof (CurrentCluster_unseen _ _ _ E3) as V3. rewrite (M_bind_ok mget _ _ s3 s3) in E by done.
  apply M_bind_inv in E as ([] & s4 & E4 & E). pose proof (Cluster_OnPacketSent_unseen _ _ _ _ _ _ _ E4) as V4.
  rewrite upd_cls_ok in E. injection E as _ <-. rewrite V3 in V4.
  pose proof (starving_view _ _ _ _ _ V4 Hs2) as Hs4. injection V4 as V1 V2 V5 V6 V7 V8 V9.
  split; [|split; [cbn; rewrite V6; exact Hym|split; [cbn; rewrite V2; done|]]].
  - destruct Hs4. split; try done. cbn. intros k r [[-> ->]|Hk]%elem_insert; [lia|eauto].
  - intros [Hx _]. cbn in Hm. congruence.
Qed.

(** *** An acknowledgement *)

(** The tail of [OnAck] when no sample was taken. *)
Lemma tail_eq now n s : (forall g, bw_lt (bw_scale g BW_Zero) (FromBitsPerSecond (min_bps_ s)) = true) ->
  BandwidthEstimate s = BW_Zero -> acked_clusters_ (cls s) = [] -> find n (seq_round_map_ (cls s)) = None ->
  exists y, (CalculatePacingRate;; AckCluster now n;; UpdateAverage) s = (Ok tt, with_cyc y s) /\
    mode_ y = mode_ (cyc s) /\ pacing_rate_ y = FromBitsPerSecond (min_bps_ s).
Proof.
  intros Hz Hb Ha Hf. unfold CalculatePacingRate at 1.
  set (y := mkCycle (mode_ (cyc s)) (round_trip_count_ (cyc s)) (FromBitsPerSecond (min_bps_ s)) (pacing_gain_ (cyc s))
    (cycle_current_offset_ (cyc s)) (last_cycle_start_ (cyc s)) (random_ (cyc s))).
  rewrite (M_bind_ok _ _ s tt (with_cyc y s)).
  2:{ rewrite (M_bind_ok mget _ _ s s), upd_cyc_ok by done. f_equal. unfold y. f_equal.
      destruct (mode_ (cyc s)) eqn:Em; rewrite ?Hb, ?Hz; done. }
  unfold AckCluster. set (s1 := with_cyc y s).
  rewrite (M_bind_ok _ _ s1 tt s1) by (rewrite (M_bind_ok mget _ _ s1 s1) by done; cbn; by rewrite Hf).
  exists y. split; [|done]. unfold UpdateAverage. rewrite (M_bind_ok mget _ _ s1 s1) by done. cbn.
  by rewrite Ha.
Qed.

(** What the tail keeps in any case. *)
Lemma tail_mode now n s a s' : (CalculatePacingRate;; AckCluster now n;; UpdateAverage) s = (Ok a, s') ->
  mode_ (cyc s') = mode_ (cyc s).
Proof.
  intros ([] & s1 & E1 & ([] & s2 & E2 & E3)%M_bind_inv)%M_bind_inv. rewrite <- (CalculatePacingRate_mode _ _ _ E1).
  pose proof (UpdateAverage_outside _ _ _ E3) as [= _ _ _ ->]. by pose proof (AckCluster_outside _ _ _ _ _ E2) as [= _ _ _ ->].
Qed.

(** A number below those of a map is not in it. *)
Lemma below_keys {A} n b (m : smap A) : (forall k t, (k, t) ∈ m -> b <= k) -> n < b -> find n m = None.
Proof.
  intros Hm Hn. destruct (find n m) as [t|] eqn:E; [|done]. apply find_elem in E. specialize (Hm _ _ E). lia.
Qed.

Lemma elem_drop_le n m k t : (k, t) ∈ drop_le n m -> (k, t) ∈ m.
Proof.
  induction m as [|[j u] m IH]; cbn; [done|]. destruct (j <=? n); [|done]. intros Hk. right. auto.
Qed.

(** The first part of [OnAck], up to the search: where it leaves the sender. *)
Lemma ack_head now n s a s' : OnAck now n s = (Ok a, s') -> last_ack_seq_ s < n ->
  exists s1, min_bps_ s1 = min_bps_ s /\ cls s1 = cls s /\ last_ack_seq_ s1 = n /\
    rtts s1 = rtts ((UpdateRtt now n s).2) /\ (mode_ (cyc s) <> START_UP -> cyc s1 = cyc s) /\
    (mode_ (cyc s) = START_UP -> mode_ (cyc s1) = PROBE_BW) /\
    (MaybeEnterOrExitProbeRtt now (time_gt now (time_add (min_rtt_timestamp_ (rtts s1)) kMinRttExpiry));;
     CalculatePacingRate;; AckCluster now n;; UpdateAverage) s1 = (Ok a, s').
Proof.
  intros E Hn. unfold OnAck, UpdateRtt in *. rewrite (M_bind_ok mget _ _ s s) in E by done.
  rewrite (proj2 (Z.leb_gt _ _)) in E by done.
  set (s0 := mkBbr (min_bps_ s) (start_bps_ s) (max_bps_ s) n (cls s) (rtts s) (cyc s)) in *.
  rewrite (M_bind_ok _ _ _ tt s0), (M_bind_ok _ _ _ _ _ (upd_rtts_ok _ _)) in E by done.
  rewrite upd_rtts_ok. cbn [snd].
  match type of E with context [with_rtts ?r s0] => set (r1 := r) in *; set (s1 := with_rtts r1 s0) in * end.
  rewrite (M_bind_ok mget _ _ s1 s1) in E by done. cbv beta in E.
  assert (exists y, (if decide (mode_ (cyc s1) = START_UP) then EnterProbeBandwidthMode now else mret tt) s1 =
      (Ok tt, with_cyc y s1) /\ (mode_ (cyc s) <> START_UP -> y = cyc s) /\
      (mode_ (cyc s) = START_UP -> mode_ y = PROBE_BW)) as (y & Ey & Hy1 & Hy2).
  { change (cyc s1) with (cyc s). destruct (decide (mode_ (cyc s) = START_UP)) as [Hm|Hm].
    - destruct (enter_probe_bw_ok now s1) as (y & Ey & Hy & _). by exists y.
    - by exists (cyc s). }
  rewrite (M_bind_ok _ _ _ _ _ Ey) in E. set (s2 := with_cyc y s1) in *.
  rewrite (M_bind_ok mget _ _ s2 s2) in E by done. by exists s2.
Qed.

(** The search begins: nothing is remembered of what is in flight. *)
Lemma clear_view s a s' : ClusterInfoClear s = (Ok a, s') -> outside s' = outside s /\
  seq_round_map_ (cls s') = [] /\ acked_clusters_ (cls s') = [] /\
  exists w, max_bandwidth_ (cls s') = filter_Reset BW_Zero 0 w.
Proof.
  unfold ClusterInfoClear. do 4 rewrite (M_bind_ok _ _ _ _ _ (upd_cls_ok _ _)). unfold delete_clusters.
  match goal with |- (mget ≫= _) ?x = _ -> _ => set (s4 := x) end.
  rewrite (M_bind_ok mget _ _ s4 s4) by done. intros E. apply delete_all_unseen in E. injection E as E1 E2 E3 E4 E5 E6 E7.
  unfold outside. rewrite E1, E2, E3, E4, E5, E6, E7. split_and!; [done..|]. by eexists.
Qed.

Lemma time_gt_us t u : time_gt (mkTime t) (mkTime u) = (u <? t).
Proof. done. Qed.

Lemma probe_deadline t0 : 0 < t0 < max_us -> time_add (mkTime t0) kProbeRttTime = mkTime (t0 + probe_us).
Proof.
  intros Ht. unfold time_add. f_equal. change (time_offset_ kProbeRttTime) with probe_us. apply max_id. cbn [time_].
  unfold probe_us, max_us in *. change (2 ^ 61) with 2305843009213693952 in *. lia.
Qed.

(** A search opened: the maps are empty, and the deadline set. *)
Record opened (t : Z) s s' : Prop := {
  op_mode : mode_ (cyc s') = PROBE_RTT;
  op_rtts : rtts s' = mkRtts [] Delta_Zero (min_rtt_ (rtts s)) (min_rtt_timestamp_ (rtts s)) (mkTime (t + probe_us));
  op_seqs : seq_round_map_ (cls s') = [];
  op_sampled : acked_clusters_ (cls s') = [];
  op_best : exists w, max_bandwidth_ (cls s') = filter_Reset BW_Zero 0 w;
  op_min : min_bps_ s' = min_bps_ s;
  op_last : last_ack_seq_ s' = last_ack_seq_ s
}.

Lemma search_opened t s a s' : MaybeEnterOrExitProbeRtt (mkTime t) true s = (Ok a, s') -> mode_ (cyc s) <> PROBE_RTT ->
  0 < t < max_us -> opened t s s'.
Proof.
  intros E Hm Ht. unfold MaybeEnterOrExitProbeRtt in E.
  rewrite (M_bind_ok mget _ _ s s) in E by done. rewrite bool_decide_false in E by done. cbn [negb andb] in E.
  apply M_bind_inv in E as ([] & s3 & E3 & E). revert E3.
  rewrite (M_bind_ok _ _ _ _ _ (upd_cyc_ok _ _)), (M_bind_ok _ _ _ _ _ (upd_rtts_ok _ _)). intros E3.
  apply clear_view in E3 as ([= V1 V2 V3 V4] & V5 & V6 & V7).
  rewrite (M_bind_ok mget _ _ s3 s3) in E by done. rewrite decide_True in E by (by rewrite V4).
  rewrite (M_bind_ok _ _ _ _ _ (upd_rtts_ok _ _)) in E. rewrite V3 in E. cbn [rtts with_rtts with_cyc] in E.
  match type of E with (mget ≫= _) ?x = _ => rewrite (M_bind_ok mget _ x x x) in E by done end. cbv beta in E.
  cbn [rtts with_rtts exit_probe_rtt_at_ seq_ts_map_ min_rtt_ recored_min_rtt_ min_rtt_timestamp_] in E.
  change (time_eq Time_Zero Time_Zero) with true in E. cbv iota in E. rewrite probe_deadline in E by done.
  rewrite time_gt_us, (proj2 (Z.ltb_ge _ _)), no_sample in E by (done || (unfold probe_us; lia)).
  cbn [orb] in E. injection E as _ <-. split; cbn; [by rewrite V4|done|done|done|done|done|done].
Qed.

Lemma untracked_rtts now n s : find n (seq_ts_map_ (rtts s)) = None ->
  rtts ((UpdateRtt now n s).2) = mkRtts (drop_le n (seq_ts_map_ (rtts s))) (min_rtt_ (rtts s))
    (recored_min_rtt_ (rtts s)) (min_rtt_timestamp_ (rtts s)) (exit_probe_rtt_at_ (rtts s)).
Proof. intros E. unfold UpdateRtt. rewrite upd_rtts_ok. cbn. by rewrite E. Qed.

(** The tail with the maps of a starving sender. *)
Lemma tail_starving b t0 rate now n s : starving b t0 rate s -> n < b ->
  (forall g, bw_lt (bw_scale g BW_Zero) rate = true) ->
  exists s', (CalculatePacingRate;; AckCluster now n;; UpdateAverage) s = (Ok tt, s') /\ starving b t0 rate s' /\
    mode_ (cyc s') = mode_ (cyc s) /\ rtts s' = rtts s /\ last_ack_seq_ s' = last_ack_seq_ s.
Proof.
  intros [H1 H2 H3 H4 H5 H6 H7 H8] Hn Hz.
  destruct (tail_eq now n s) as (y & Ey & Hy1 & Hy2); [by rewrite H7|done|done|by eapply below_keys|].
  exists (with_cyc y s). split; [done|]. split; [|done]. split; try done. unfold PaceRate. cbn. by rewrite Hy2.
Qed.

(** An acknowledgement of an untracked packet during the search ends it, after
    200 ms, and finds nothing. *)
Lemma ack_searching b t0 rate t n s a s' : OnAck (mkTime t) n s = (Ok a, s') -> starving b t0 rate s ->
  searching t0 s -> (forall g, bw_lt (bw_scale g BW_Zero) rate = true) -> last_ack_seq_ s < n -> n < b -> 0 < t0 ->
  starving b t0 rate s' /\ last_ack_seq_ s' = n /\
  (if t <=? t0 + probe_us then searching t0 s' else mode_ (cyc s') = PROBE_BW).
Proof.
  intros E Hs [Hm Hx] Hz Hl Hn Ht. destruct (ack_head _ _ _ _ _ E Hl) as (s1 & B1 & C1 & L1 & R1 & Hc1 & _ & E1). clear E.
  pose proof Hs as [H1 H2 H3 H4 H5 H6 H7 H8]. rewrite untracked_rtts in R1 by (by eapply below_keys).
  specialize (Hc1 ltac:(by rewrite Hm)).
  assert (starving b t0 rate s1) as Hs1.
  { split; unfold BandwidthEstimate, PaceRate in *; rewrite ?R1, ?C1, ?B1, ?Hc1; try done.
    cbn. intros k u Hk%elem_drop_le. by eapply H2. }
  unfold MaybeEnterOrExitProbeRtt in E1. apply M_bind_inv in E1 as ([] & s2 & E2 & E1).
  rewrite (M_bind_ok mget _ _ s1 s1) in E2 by done. rewrite Hc1, bool_decide_true, andb_false_r in E2 by done.
  rewrite (M_bind_ok _ _ s1 tt s1), (M_bind_ok mget _ _ s1 s1) in E2 by done.
  rewrite decide_True in E2 by (by rewrite Hc1).
  rewrite (M_bind_ok _ _ _ _ _ (upd_rtts_ok _ _)) in E2.
  assert (exit_probe_rtt_at_ (rtts s1) = mkTime (t0 + probe_us)) as Hx1 by (by rewrite R1).
  assert (time_eq (mkTime (t0 + probe_us)) Time_Zero = false) as Hne.
  { unfold time_eq. cbn. apply Z.eqb_neq. unfold probe_us. lia. }
  rewrite Hx1, Hne in E2. match type of E2 with (mget ≫= _) ?x = _ => set (s3 := x) in * end.
  rewrite (M_bind_ok mget _ _ s3 s3) in E2 by done. cbv beta in E2.
  assert (starving b t0 rate s3) as Hs3 by (destruct Hs1; by split).
  rewrite no_sample, orb_false_r in E2 by apply (st_rtt _ _ _ _ Hs3).
  change (exit_probe_rtt_at_ (rtts s3)) with (mkTime (t0 + probe_us)) in E2. rewrite time_gt_us in E2.
  rewrite (Z.leb_antisym (t0 + probe_us) t). destruct (t0 + probe_us <? t); cbn [negb].
  - rewrite (M_bind_ok _ _ _ _ _ (upd_rtts_ok _ _)) in E2. set (s4 := with_rtts _ s3) in E2.
    destruct (enter_probe_bw_ok (mkTime t) s4) as (y & Ey & Hy & Hcase). rewrite Ey in E2. injection E2 as <-.
    assert (starving b t0 rate (with_cyc y s4)) as Hs4.
    { assert (pacing_rate_ y = pacing_rate_ (cyc s4)) as Hp.
      { unfold EnterProbeBandwidthMode in Ey. rewrite upd_cyc_ok in Ey. injection Ey as <-.
        case_decide; [done|]. by destruct (RandUint64 _). }
      destruct Hs3. split; try done. unfold PaceRate in *. cbn. rewrite Hp. done. }
    destruct (tail_starving b t0 rate (mkTime t) n _ Hs4 Hn Hz) as (s5 & E5 & H9 & H10 & H11 & H12).
    rewrite E5 in E1. injection E1 as _ <-. split; [done|]. split; [rewrite H12; exact L1|]. by rewrite H10.
  - injection E2 as <-.
    destruct (tail_starving b t0 rate (mkTime t) n _ Hs3 Hn Hz) as (s5 & E5 & H9 & H10 & H11 & H12).
    rewrite E5 in E1. injection E1 as _ <-. split; [done|]. split; [rewrite H12; exact L1|].
    split; [rewrite H10; cbn; by rewrite Hc1|by rewrite H11].
Qed.

(** Between searches it begins the next. *)
Lemma ack_between b t0 rate t n s a s' : OnAck (mkTime t) n s = (Ok a, s') -> starving b t0 rate s ->
  mode_ (cyc s) = PROBE_BW -> last_ack_seq_ s < n -> n < b -> 0 < t0 <= t -> t < max_us -> mode_ (cyc s') = PROBE_RTT.
Proof.
  intros E Hs Hm Hl Hn Ht Ht'. destruct (ack_head _ _ _ _ _ E Hl) as (s1 & B1 & C1 & L1 & R1 & Hc1 & _ & E1).
  rewrite untracked_rtts in R1 by (eapply below_keys; [apply Hs|done]). specialize (Hc1 ltac:(by rewrite Hm)).
  rewrite R1 in E1. cbn [min_rtt_timestamp_] in E1. rewrite (st_expired _ _ _ _ Hs t (proj2 Ht)) in E1.
  apply M_bind_inv in E1 as ([] & s2 & E2 & E1). rewrite (tail_mode _ _ _ _ _ E1).
  eapply op_mode, search_opened; [exact E2|by rewrite Hc1, Hm|lia].
Qed.

Section Laws.
(** A filter reset to a sample gives that sample. *)
Hypothesis reset_best : forall w, GetBest (filter_Reset BW_Zero 0 w) = BW_Zero.

(** Entering [PROBE_RTT], from wherever. *)
Lemma search_begins b t0 n s a s' : OnAck (mkTime t0) n s = (Ok a, s') -> 0 < t0 < max_us ->
  mode_ (cyc s) <> PROBE_RTT -> mode_ (cyc s') = PROBE_RTT ->
  (forall g, bw_lt (bw_scale g BW_Zero) (FromBitsPerSecond (min_bps_ s)) = true) ->
  starving b t0 (FromBitsPerSecond (min_bps_ s)) s' /\ searching t0 s' /\ last_ack_seq_ s' = n.
Proof.
  intros E Ht Hm Hm' Hz.
  assert (last_ack_seq_ s < n) as Hn.
  { destruct (Z.lt_ge_cases (last_ack_seq_ s) n) as [|Hge]; [done|]. unfold OnAck in E.
    rewrite (M_bind_ok mget _ _ s s), (proj2 (Z.leb_le _ _)) in E by done. injection E as _ <-. done. }
  destruct (ack_head _ _ _ _ _ E Hn) as (s1 & B1 & C1 & L1 & _ & Hc1 & Hc2 & E1). clear E.
  assert (mode_ (cyc s1) <> PROBE_RTT) as Hm1.
  { destruct (decide (mode_ (cyc s) = START_UP)) as [Hs|Hs]; [by rewrite (Hc2 Hs)|by rewrite (Hc1 Hs)]. }
  apply M_bind_inv in E1 as ([] & s2 & E2 & E1).
  destruct (time_gt (mkTime t0) (time_add (min_rtt_timestamp_ (rtts s1)) kMinRttExpiry)) eqn:Ex.
  2:{ exfalso. unfold MaybeEnterOrExitProbeRtt in E2. rewrite (M_bind_ok mget _ _ s1 s1) in E2 by done.
      cbn [andb] in E2. rewrite (M_bind_ok _ _ s1 tt s1), (M_bind_ok mget _ _ s1 s1) in E2 by done.
      rewrite decide_False in E2 by done. injection E2 as <-. rewrite (tail_mode _ _ _ _ _ E1) in Hm'. done. }
  destruct (search_opened _ _ _ _ E2 Hm1 Ht) as [V1 V2 V3 V4 [w V5] V6 V7]. set (rate := FromBitsPerSecond (min_bps_ s)) in *.
  assert (FromBitsPerSecond (min_bps_ s2) = rate) as Hrate by (by rewrite V6, B1).
  destruct (tail_eq (mkTime t0) n s2) as (y & Ey & Hy1 & Hy2);
    [by rewrite Hrate|unfold BandwidthEstimate; rewrite V5; apply reset_best|done|by rewrite V3|].
  rewrite Ey in E1. injection E1 as _ <-. split; [|split; [|cbn; by rewrite V7, L1]].
  - split; unfold BandwidthEstimate, PaceRate; cbn; rewrite ?V2, ?V3, ?V5; cbn; try done.
    + by intros k t ?%not_elem_of_nil.
    + intros t Hle. unfold time_gt, time_lt in *. cbn [time_] in *. apply Z.ltb_lt in Ex. apply Z.ltb_lt. lia.
    + by intros k r ?%not_elem_of_nil.
    + by rewrite Hy2.
  - split; cbn; [by rewrite Hy1|by rewrite V2].
Qed.

End Laws.

(** ** Paths *)

(** The number of the next packet after some calls. *)
Fixpoint next_number (N : Z) (l : list call) : Z :=
  match l with
  | [] => N
  | Sent _ _ :: l => next_number (N + 1) l
  | Acked _ _ :: l => next_number N l
  end.

Lemma run_calls_app l1 : forall N l2 s s1 s2, run_calls N l1 s = (Ok tt, s1) ->
  run_calls N (l1 ++ l2) s = (Ok tt, s2) -> run_calls (next_number N l1) l2 s1 = (Ok tt, s2).
Proof.
  induction l1 as [|[now bytes|now n] l1 IH]; intros N l2 s s1 s2 E1 E2; cbn [run_calls app next_number] in *.
  - by injection E1 as <-.
  - apply M_bind_inv in E1 as ([] & s0 & E & E1). rewrite (M_bind_ok _ _ _ _ _ E) in E2. by eapply IH.
  - apply M_bind_inv in E1 as ([] & s0 & E & E1). rewrite (M_bind_ok _ _ _ _ _ E) in E2. by eapply IH.
Qed.

(** Calls at times in order from [clock] on, packets numbered from [N] and sent
    at [sent_at]; each acknowledgement is of a packet sent [rtt] before at least,
    of a later packet than the last, [n], and comes no more than [gap] after it,
    which was heard at [heard]. *)
Fixpoint slow_path (sent_at : Z -> Z) (rtt gap clock heard n N : Z) (l : list call) : bool :=
  match l with
  | [] => true
  | Sent now _ :: l =>
      (clock <=? time_ now) && (time_ now =? sent_at N) && slow_path sent_at rtt gap (time_ now) heard n (N + 1) l
  | Acked now k :: l =>
      (clock <=? time_ now) && (time_ now <? max_us) && (n <? k) && (k <? N) && (sent_at k + rtt <=? time_ now) &&
      (time_ now <=? heard + gap) && slow_path sent_at rtt gap (time_ now) (time_ now) k N l
  end.

Lemma slow_path_timed sent_at rtt gap l : forall clock heard n N, 0 < clock ->
  slow_path sent_at rtt gap clock heard n N l = true -> Forall timed l.
Proof.
  induction l as [|[now bytes|now k] l IH]; intros clock heard n N Hc; cbn [slow_path]; [constructor|..];
    rewrite !andb_true_iff, !Z.leb_le; intros Hp.
  - constructor; [done|]. eapply IH; [|apply Hp]. lia.
  - constructor; [|eapply IH; [|apply Hp]; lia]. cbn. intros E. rewrite E in Hp. cbn in Hp. lia.
Qed.

Section Run.
Hypothesis reset_best : forall w, GetBest (filter_Reset BW_Zero 0 w) = BW_Zero.
Context (sent_at : Z -> Z) (rtt gap : Z) (gap_pos : 0 <= gap) (slow : probe_us + 2 * gap < rtt).
Context (rate : QuicBandwidth) (nothing_slower : forall g, bw_lt (bw_scale g BW_Zero) rate = true).

(** Where a search that began at [t0] has got to when an acknowledgement was last
    heard at [heard]. *)
Definition stage (t0 heard : Z) s : Prop :=
  searching t0 s /\ heard <= t0 + probe_us \/ mode_ (cyc s) = PROBE_BW /\ heard <= t0 + probe_us + gap.

Lemma stage_ack b t0 heard t n k s a s' N : OnAck (mkTime t) k s = (Ok a, s') -> starving b t0 rate s -> stage t0 heard s ->
  0 < t0 <= t -> t < max_us -> t <= heard + gap -> last_ack_seq_ s = n -> n < k < N -> sent_at k + rtt <= t ->
  (forall k, b <= k < N -> t0 <= sent_at k) ->
  exists b' t0', starving b' t0' rate s' /\ stage t0' t s' /\ last_ack_seq_ s' = k /\ 0 < t0' <= t /\
    (b' = b /\ t0' = t0 \/ b' = N).
Proof.
  intros E Hs Hst Ht0 Ht Hg Hl Hk Hsent Hb.
  assert (k < b) as Hkb.
  { destruct (Z.lt_ge_cases k b) as [|Hge]; [done|]. specialize (Hb k ltac:(lia)). destruct Hst as [[_ ?]|[_ ?]]; lia. }
  destruct Hst as [[Hse Hh]|[Hm Hh]].
  - destruct (ack_searching b t0 rate t k s a s' E Hs Hse nothing_slower) as (H1 & H2 & H3); [lia..|].
    exists b, t0. split; [done|]. split; [|split; [done|split; [lia|by left]]].
    destruct (Z.leb_spec t (t0 + probe_us)); [by left|right]. split; [done|lia].
  - assert (FromBitsPerSecond (min_bps_ s) = rate) as Hr by apply Hs.
    assert (mode_ (cyc s') = PROBE_RTT) as Hm' by (eapply ack_between; [exact E|exact Hs|done|lia..]).
    destruct (search_begins reset_best N t k s a s' E) as (H1 & H2 & H3); [lia|by rewrite Hm|done|by rewrite Hr|].
    rewrite Hr in H1. exists N, t. split; [done|]. split; [|split; [done|split; [lia|by right]]].
    left. split; [done|]. unfold probe_us. lia.
Qed.

Lemma starves l : forall b t0 clock heard n N s s2, starving b t0 rate s -> stage t0 heard s -> last_ack_seq_ s = n ->
  0 < t0 <= clock -> b <= N -> (forall k, b <= k < N -> t0 <= sent_at k) ->
  slow_path sent_at rtt gap clock heard n N l = true -> run_calls N l s = (Ok tt, s2) ->
  exists b' t0', starving b' t0' rate s2.
Proof.
  induction l as [|[now bytes|now k] l IH]; intros b t0 clock heard n N s s2 Hs Hst Hl Ht HbN Hb Hp E.
  { injection E as <-. by exists b, t0. }
  all: cbn [slow_path run_calls] in *; rewrite !andb_true_iff, ?Z.leb_le, ?Z.ltb_lt, ?Z.eqb_eq in Hp;
    apply M_bind_inv in E as ([] & s1 & E1 & E).
  - destruct Hp as ((Hc & Hat) & Hp). destruct (sent_starving b t0 rate now N bytes s tt s1 E1 HbN Hs) as (H1 & H2 & H3 & H4).
    apply (IH b t0 (time_ now) heard n (N + 1) s1 s2); [exact H1| |by rewrite H3|lia|lia| |exact Hp|exact E].
    + destruct Hst as [[Hse Hh]|[Hm Hh]]; [left; by split; [apply H4|]|right; by rewrite H2].
    + intros j Hj. destruct (decide (j = N)) as [->|]; [lia|apply Hb; lia].
  - destruct Hp as ((((((Hc & Hmax) & Hnk) & HkN) & Hsent) & Hg) & Hp). destruct now as [t]. cbn [time_] in *.
    destruct (stage_ack b t0 heard t n k s tt s1 N E1 Hs Hst) as (b' & t0' & H1 & H2 & H3 & H4 & H5); [lia..|done|].
    apply (IH b' t0' t t k N s1 s2); [exact H1|exact H2|exact H3|exact H4| | |exact Hp|exact E].
    + destruct H5 as [[-> ->]| ->]; lia.
    + destruct H5 as [[-> ->]| ->]; [done|]. intros j Hj. lia.
Qed.

End Run.

(** C36: On a path whose round trip exceeds 200 ms and twice the gap between
    acknowledgements, the controller never recovers from a search for the
    minimum round trip.  [PROBE_RTT] forgets the packets in flight and is left
    at the first acknowledgement after 200 ms, which is for a packet sent before
    it began; the acknowledgement after that finds the old sample expired as
    before, enters [PROBE_RTT] again and forgets the packets again.  However the
    sender came to the search, and whatever it sends from then on: there is no
    round-trip sample, the bandwidth estimate is zero and the rate is the
    configured minimum.  (A filter reset to zero is taken to give zero, and a
    multiple of zero to be below the minimum rate; times are below 2^61 us.) *)
Theorem probe_rtt_starves min_bps start_bps max_bps random before t0 k after sent_at rtt gap s s1 :
  (forall w, GetBest (filter_Reset BW_Zero 0 w) = BW_Zero) ->
  (forall g, bw_lt (bw_scale g BW_Zero) (FromBitsPerSecond (min_bps_ s)) = true) ->
  Forall timed before -> zlen before + 1 + zlen after < 2 ^ 31 -> 0 < t0 < max_us ->
  run_calls 1 before (new_sender min_bps start_bps max_bps random) = (Ok tt, s) ->
  mode_ (cyc s) <> PROBE_RTT -> OnAck (mkTime t0) k s = (Ok tt, s1) -> mode_ (cyc s1) = PROBE_RTT ->
  0 <= gap -> probe_us + 2 * gap < rtt -> slow_path sent_at rtt gap t0 t0 k (next_number 1 before) after = true ->
  exists s2, run_calls (next_number 1 before) after s1 = (Ok tt, s2) /\
    min_rtt_ (rtts s2) = Delta_Zero /\ BandwidthEstimate s2 = BW_Zero /\
    PaceRate s2 = FromBitsPerSecond (min_bps_ s).
Proof.
  intros Hreset Hz Hb Hlen Ht0 E Hm E1 Hm1 Hgap Hrtt Hp.
  pose proof (zlen_nonneg before). pose proof (zlen_nonneg after).
  destruct (run_calls_ok (before ++ Acked (mkTime t0) k :: after) 1 0 _ (new_sender_ok min_bps start_bps max_bps random))
    as (s2 & N' & E2 & _).
  { apply Forall_app. split; [done|]. constructor; [intros [= ?]; lia|]. eapply slow_path_timed; [|exact Hp]. lia. }
  1-4: rewrite ?zlen_app, ?zlen_cons; change (2 ^ 31) with 2147483648 in *; change (2 ^ 32) with 4294967296;
    change (2 ^ 64) with 18446744073709551616; lia.
  pose proof (run_calls_app _ _ _ _ _ _ E E2) as E3. cbn [run_calls] in E3. rewrite (M_bind_ok _ _ _ _ _ E1) in E3.
  exists s2. split; [done|].
  destruct (search_begins Hreset (next_number 1 before) t0 k s tt s1 E1 Ht0 Hm Hm1 Hz) as (Hs & Hse & Hl).
  destruct (starves Hreset sent_at rtt gap Hgap Hrtt _ Hz after (next_number 1 before) t0 t0 t0 k (next_number 1 before) s1 s2)
    as (b & t1 & Hs2); [done|left; split; [done|unfold probe_us; lia]|done|lia|lia|intros j Hj; lia|done|done|].
  split_and!; apply Hs2.
Qed.

End Starve.
