(* ===== verification/BbrDemo.v ===== *)
(** * The controller run on concrete libraries and links

    Bandwidths are bits per second, the windowed filter keeps the samples of its
    window, and time is in microseconds.  The runs give the theorems of
    [BbrProps.v] and [BbrStarve.v] concrete instances. *)

From stdpp Require Import gmap.
From S2P Require Import Prelude.
From S2P Require Import QuicTime.
From S2P Require Import StdMap.
From S2P Require Import Bbr.
From S2P Require Import BbrSafe.
From S2P Require Import BbrInv.
From S2P Require Import BbrProps.
From S2P Require Import BbrStarve.
Open Scope Z_scope.

(** A maximum over the samples of the last [window] rounds. *)
Record window := mkWindow { width : Z; samples : list (Z * Z) }.

Definition window_update (bw round : Z) (w : window) : window :=
  mkWindow (width w) ((bw, round) :: filter (fun e => round - width w <= e.2) (samples w)).

Definition window_best (w : window) : Z := foldr (fun e m => Z.max e.1 m) 0 (samples w).

Definition transfer (bw bytes : Z) : Delta :=
  mkDelta (if bw =? 0 then 0 else bytes * 8 * 1000000 / bw).

#[export] Instance demo_lib : BbrLib := {
  QuicBandwidth := Z;
  BW_Zero := 0;
  BW_Infinite := 2 ^ 62;
  FromBitsPerSecond := fun bps => bps;
  FromBytesAndTimeDelta := fun bytes d => bytes * 8 * 1000000 / Z.max 1 (ToMicroseconds d);
  bw_lt := Z.ltb;
  bw_eq := Z.eqb;
  bw_scale := fun quarters bw => quarters * bw / 4;
  TransferTime := transfer;
  similar_rtt := fun d => mkDelta (time_offset_ d * 9 / 8);
  WindowedFilter := window;
  filter_new := fun w _ _ => mkWindow w [];
  filter_Update := window_update;
  filter_Reset := fun bw round w => mkWindow (width w) [(bw, round)];
  GetBest := window_best;
  QuicRandom := Z;
  RandUint64 := fun r => (r mod 2 ^ 64, r * 5 + 3)
}.

(** A steady path: a packet of 1000 bytes every [gap] ms, each acknowledged
    after [rtt] ms; [n] ticks of 10 ms from time one second. *)
Definition tick (k : nat) : QuicTime := mkTime (1000000 + Z.of_nat k * 10000).

Definition steady (rtt_ticks n : nat) : list call :=
  flat_map (fun k =>
    Sent (tick k) 1000 ::
    (if (rtt_ticks <=? k)%nat then [Acked (tick k) (Z.of_nat (k - rtt_ticks) + 1)] else []))
    (List.seq 0 n).

Definition start : MyBbrSender := new_sender 500000 1000000 2000000 1.

(** The states after each call. *)
Fixpoint states (N : Z) (l : list call) (s : MyBbrSender) : list MyBbrSender :=
  match l with
  | [] => []
  | Sent now bytes :: l => let s := (OnPacketSent now N bytes s).2 in s :: states (N + 1) l s
  | Acked now n :: l => let s := (OnAck now n s).2 in s :: states N l s
  end.

Definition sampled_rtt (s : MyBbrSender) : bool := delta_ne (min_rtt_ (rtts s)) Delta_Zero.

(** On a path of 100 ms, which differs in nothing else from the one of 300 ms
    below, the search succeeds and the estimate is back within a second. *)
Example short_path_recovers :
  forallb (fun s => sampled_rtt s && (800000 <=? BandwidthEstimate s))
    (take 1500 (drop 2300 (states 1 (steady 10 3000) start))) = true.
Proof. by vm_compute. Qed.

(** ** Witnesses *)

Lemma timed_check l : forallb (fun e => match e with
    | Sent _ _ => true | Acked now _ => negb (time_eq now Time_Zero) end) l = true -> Forall timed l.
Proof.
  induction l as [|e l IH]; [constructor|]. cbn. intros [He Hl]%andb_true_iff. constructor; [|auto].
  destruct e as [|now n]; [done|]. by destruct (time_eq_spec now Time_Zero).
Qed.

Definition demo_calls : list call := steady 5 40.

Lemma bbr_memory_safe_witness :
  exists s, run_calls 1 demo_calls (new_sender 500000 1000000 2000000 1) = (Ok tt, s) /\
    exists s', destroy_sender s = (Ok tt, s') /\ heap (cls s') = ∅.
Proof. apply bbr_memory_safe; [apply timed_check; by vm_compute | by vm_compute]. Defined.

Definition demo_sender : MyBbrSender := (run_calls 1 demo_calls start).2.

(** Only the part compared is evaluated. *)
Lemma run_ok {St A} (m : M St A) s a : (m s).1 = Ok a -> m s = (Ok a, (m s).2).
Proof. by destruct (m s); cbn; intros ->. Qed.

Lemma some_default {A} (o : option A) d : match o with Some _ => true | None => false end = true ->
  o = Some (default d o).
Proof. by destruct o. Qed.

Lemma demo_reachable : reachable demo_sender.
Proof.
  unfold demo_sender, start. exists 500000, 1000000, 2000000, 1, demo_calls.
  split; [apply timed_check; by vm_compute|]. split; [by vm_compute|].
  refine (run_ok (run_calls 1 demo_calls) _ tt _). by vm_compute.
Qed.

(** The oldest cluster of that state. *)
Definition demo_cluster : SentClusterInfo :=
  default (new_cluster 0) (heap (cls demo_sender) !! 3%positive).

Lemma bbr_accounting_witness :
  (exists x, packet_infos_ demo_cluster !! 0%nat = Some x /\
     forall i y, packet_infos_ demo_cluster !! i = Some y -> seq y = seq x + Z.of_nat i) /\
  sent_packets_ demo_cluster = u64 (sum_of len (packet_infos_ demo_cluster)) /\
  acked_packets_ demo_cluster = u64 (sum_of acked_len (packet_infos_ demo_cluster)) /\
  forall y, y ∈ packet_infos_ demo_cluster -> last_ack_seq_ demo_sender < seq y ->
    ack_ts y = Time_Zero.
Proof.
  refine (bbr_accounting demo_sender 3%positive demo_cluster demo_reachable (some_default _ _ _)).
  vm_compute. reflexivity.
Defined.

Example demo_cluster_acked :
  length (packet_infos_ demo_cluster) = 6%nat /\ acked_packets_ demo_cluster = 6000.
Proof. by vm_compute. Qed.

Lemma bbr_rate_floor_witness :
  exists s', OnAck (mkTime 2000000) 38 demo_sender = (Ok tt, s') /\
    (38 <= last_ack_seq_ demo_sender -> s' = demo_sender) /\
    (last_ack_seq_ demo_sender < 38 -> mode_ (cyc s') <> START_UP /\
       bw_lt (PaceRate s') (FromBitsPerSecond (min_bps_ s')) = false).
Proof.
  refine (bbr_rate_floor demo_sender (mkTime 2000000) 38 Z.ltb_irrefl demo_reachable _). discriminate.
Defined.

(** An acknowledgement 18 s after the last sample starts the search. *)
Definition probing_calls : list call :=
  [Sent (mkTime 1000000) 1000; Acked (mkTime 1100000) 1; Sent (mkTime 1200000) 1000;
   Acked (mkTime 20000000) 2].

Definition probing_sender : MyBbrSender := (run_calls 1 probing_calls start).2.

Lemma probe_rtt_exits_witness :
  exists s', OnAck (mkTime 20300000) 3 probing_sender = (Ok tt, s') /\ mode_ (cyc s') = PROBE_BW.
Proof.
  refine (probe_rtt_exits probing_sender (mkTime 20300000) 3 _ _ _ _ _ _);
    [|vm_compute; reflexivity|vm_compute; discriminate|vm_compute; reflexivity|discriminate
     |vm_compute; reflexivity].
  unfold probing_sender, start. exists 500000, 1000000, 2000000, 1, probing_calls.
  split; [apply timed_check; by vm_compute|]. split; [by vm_compute|].
  refine (run_ok (run_calls 1 probing_calls) _ tt _). by vm_compute.
Defined.

Lemma bbr_gain_cycle_witness :
  (ShouldSendProbePacket demo_sender = true <->
     mode_ (cyc demo_sender) = PROBE_BW /\ cycle_current_offset_ (cyc demo_sender) = 0) /\
  exists s', EnterProbeBandwidthMode (mkTime 5) demo_sender = (Ok tt, s') /\
    mode_ (cyc s') = PROBE_BW /\
    (mode_ (cyc demo_sender) <> PROBE_BW ->
       cycle_current_offset_ (cyc s') <> 1 /\ 4 <= pacing_gain_ (cyc s')).
Proof. exact (bbr_gain_cycle demo_sender (mkTime 5) demo_reachable). Defined.

(** A path of 300 ms: the search begins with the acknowledgement of packet 1002,
    11.31 s from time one. *)
Definition long_path : list call := steady 30 1700.
Definition before_search : list call := take 2033 long_path.
Definition after_search : list call := drop 2034 long_path.
Definition expired_sender : MyBbrSender := (run_calls 1 before_search start).2.
Definition seeking_sender : MyBbrSender := (OnAck (mkTime 11310000) 1002 expired_sender).2.

Lemma probe_rtt_starves_witness :
  exists s2, run_calls (next_number 1 before_search) after_search seeking_sender = (Ok tt, s2) /\
    min_rtt_ (rtts s2) = Delta_Zero /\ BandwidthEstimate s2 = BW_Zero /\
    PaceRate s2 = FromBitsPerSecond (min_bps_ expired_sender).
Proof.
  refine (probe_rtt_starves 500000 1000000 2000000 1 before_search 11310000 1002 after_search
    (fun n => time_ (tick (Z.to_nat (n - 1)))) 300000 10000 expired_sender seeking_sender
    _ _ _ _ _ _ _ _ _ _ _ _).
  - reflexivity.
  - intros g. cbn -[expired_sender]. rewrite Z.mul_0_r. by vm_compute.
  - apply timed_check. by vm_compute.
  - by vm_compute.
  - split; by vm_compute.
  - refine (run_ok (run_calls 1 before_search) start tt _). by vm_compute.
  - vm_compute. discriminate.
  - refine (run_ok (OnAck (mkTime 11310000) 1002) expired_sender tt _). by vm_compute.
  - by vm_compute.
  - discriminate.
  - reflexivity.
  - by vm_compute.
Defined.

(** Packets of 1000 bytes at one megabit per second, eight milliseconds each,
    and an acknowledgement: the second may go one millisecond early. *)
Definition demo_pacing : MyPacingSender := set_sender start new_pacing.

Definition demo_paced : list call :=
  [Sent (mkTime 1000000) 1000; Sent (mkTime 1007000) 1000; Acked (mkTime 1008000) 1; Sent (mkTime 1015000) 1000].

Lemma pacing_budget_witness :
  exists times p', run_paced 1 demo_paced demo_pacing = (Ok times, p') /\ times = [8000; 8000; 16000] /\
    time_ (mkTime 1000000) + total times <= time_ (mkTime 1031000) + 1000.
Proof.
  exists [8000; 8000; 16000], (run_paced 1 demo_paced demo_pacing).2.
  pose proof (run_ok (run_paced 1 demo_paced) demo_pacing [8000; 8000; 16000] ltac:(vm_compute; reflexivity)) as E.
  split; [exact E|]. split; [reflexivity|].
  refine (pacing_budget (tail demo_paced) 1 demo_pacing (mkTime 1000000) 1000 [8000; 8000; 16000]
    (run_paced 1 demo_paced demo_pacing).2 (mkTime 1031000) _ _ E _ _ _ _).
  - split; [reflexivity|]. split; [split; vm_compute; congruence|]. by exists start.
  - repeat constructor; vm_compute; congruence.
  - repeat constructor; vm_compute; congruence.
  - vm_compute. reflexivity.
  - split; vm_compute; congruence.
  - vm_compute. reflexivity.
Defined.
