(* ===== verification/FramerTypes.v ===== *)
(** * The framer's vocabulary: [quic-test/myquic/my_quic_framer.h]

    What the framer takes from the QUIC library it is compiled against (the
    numeric constants, the byte reader and writer, the packet-number queue, the
    crypto objects, the visitor) as classes of parameters with their documented
    laws, the frames and headers it exchanges, the state of [MyQuicFramer], and
    the monad its methods run in.  The machine is little-endian: that is what
    [HOST_BYTE_ORDER] means below. *)

From S2P Require Import Prelude QuicTime.

(** ** Constants *)

Class QuicTypes := {
  QUIC_VERSION_UNSUPPORTED : Z; QUIC_VERSION_37 : Z; QUIC_VERSION_38 : Z; QUIC_VERSION_41 : Z;
  PROTOCOL_UNSUPPORTED : Z;
  PACKET_1BYTE_PACKET_NUMBER : Z; PACKET_2BYTE_PACKET_NUMBER : Z; PACKET_4BYTE_PACKET_NUMBER : Z;
  PACKET_6BYTE_PACKET_NUMBER : Z; PACKET_8BYTE_PACKET_NUMBER : Z;
  PACKET_FLAGS_1BYTE_PACKET : Z; PACKET_FLAGS_2BYTE_PACKET : Z; PACKET_FLAGS_4BYTE_PACKET : Z;
  PACKET_FLAGS_8BYTE_PACKET : Z;
  SHORT_HEADER_1_BYTE_PACKET_NUMBER : Z; SHORT_HEADER_2_BYTE_PACKET_NUMBER : Z;
  SHORT_HEADER_4_BYTE_PACKET_NUMBER : Z;
  PACKET_0BYTE_CONNECTION_ID : Z; PACKET_8BYTE_CONNECTION_ID : Z;
  PACKET_PUBLIC_FLAGS_VERSION : Z; PACKET_PUBLIC_FLAGS_RST : Z; PACKET_PUBLIC_FLAGS_NONCE : Z;
  PACKET_PUBLIC_FLAGS_0BYTE_CONNECTION_ID : Z; PACKET_PUBLIC_FLAGS_8BYTE_CONNECTION_ID : Z;
  PACKET_PUBLIC_FLAGS_8BYTE_CONNECTION_ID_OLD : Z; PACKET_PUBLIC_FLAGS_MAX : Z;
  FLAGS_LONG_HEADER : Z; VERSION_NEGOTIATION : Z;
  kPublicFlagsSize : Z; kQuicVersionSize : Z; kPacketHeaderTypeSize : Z;
  kDiversificationNonceSize : Z; kMaxPacketSize : Z; kUFloat16MaxValue : Z;
  kQuicPathFrameBufferSize : Z;
  PADDING_FRAME : Z; RST_STREAM_FRAME : Z; CONNECTION_CLOSE_FRAME : Z; GOAWAY_FRAME : Z;
  WINDOW_UPDATE_FRAME : Z; BLOCKED_FRAME : Z; STOP_WAITING_FRAME : Z; PING_FRAME : Z;
  STREAM_FRAME : Z; ACK_FRAME : Z; MTU_DISCOVERY_FRAME : Z; NUM_FRAME_TYPES : Z;
  IETF_RST_STREAM : Z; IETF_CONNECTION_CLOSE : Z; IETF_APPLICATION_CLOSE : Z; IETF_MAX_DATA : Z;
  IETF_MAX_STREAM_DATA : Z; IETF_MAX_STREAM_ID : Z; IETF_BLOCKED : Z; IETF_STREAM_BLOCKED : Z;
  IETF_STREAM_ID_BLOCKED : Z; IETF_STOP_SENDING : Z; IETF_ACK : Z; IETF_PATH_CHALLENGE : Z;
  IETF_PATH_RESPONSE : Z; IETF_STREAM : Z;
  IETF_STREAM_FRAME_FIN_BIT : Z; IETF_STREAM_FRAME_LEN_BIT : Z; IETF_STREAM_FRAME_OFF_BIT : Z;
  QUIC_NO_ERROR : Z; QUIC_INTERNAL_ERROR : Z; QUIC_INVALID_PACKET_HEADER : Z;
  QUIC_INVALID_VERSION_NEGOTIATION_PACKET : Z; QUIC_DECRYPTION_FAILURE : Z;
  QUIC_ENCRYPTION_FAILURE : Z; QUIC_PACKET_TOO_LARGE : Z; QUIC_INVALID_PUBLIC_RST_PACKET : Z;
  QUIC_MISSING_PAYLOAD : Z; QUIC_INVALID_FRAME_DATA : Z; QUIC_INVALID_STREAM_DATA : Z;
  QUIC_INVALID_ACK_DATA : Z; QUIC_INVALID_RST_STREAM_DATA : Z;
  QUIC_INVALID_CONNECTION_CLOSE_DATA : Z; QUIC_INVALID_GOAWAY_DATA : Z;
  QUIC_INVALID_WINDOW_UPDATE_DATA : Z; QUIC_INVALID_BLOCKED_DATA : Z;
  QUIC_INVALID_STOP_WAITING_DATA : Z; QUIC_LAST_ERROR : Z; QUIC_STREAM_LAST_ERROR : Z;
  ENCRYPTION_NONE : Z; ENCRYPTION_INITIAL : Z; NUM_ENCRYPTION_LEVELS : Z;
  kPRST : Z; kRNON : Z; kCADR : Z; kCHLO : Z;
}.

(** The documented values the proofs rely on; the error codes only need to be
    told from [QUIC_NO_ERROR]. *)
Class QuicTypesOk (T : QuicTypes) : Prop := {
  versions_values : QUIC_VERSION_37 = 37 /\ QUIC_VERSION_38 = 38 /\ QUIC_VERSION_41 = 41;
  pn_len_values : PACKET_1BYTE_PACKET_NUMBER = 1 /\ PACKET_2BYTE_PACKET_NUMBER = 2 /\
    PACKET_4BYTE_PACKET_NUMBER = 4 /\ PACKET_6BYTE_PACKET_NUMBER = 6 /\
    PACKET_8BYTE_PACKET_NUMBER = 8;
  pn_flag_values : PACKET_FLAGS_1BYTE_PACKET = 0 /\ PACKET_FLAGS_2BYTE_PACKET = 1 /\
    PACKET_FLAGS_4BYTE_PACKET = 2 /\ PACKET_FLAGS_8BYTE_PACKET = 3;
  cid_len_values : PACKET_0BYTE_CONNECTION_ID = 0 /\ PACKET_8BYTE_CONNECTION_ID = 8;
  public_flag_values : PACKET_PUBLIC_FLAGS_VERSION = 1 /\ PACKET_PUBLIC_FLAGS_RST = 2 /\
    PACKET_PUBLIC_FLAGS_NONCE = 4 /\ PACKET_PUBLIC_FLAGS_0BYTE_CONNECTION_ID = 0 /\
    PACKET_PUBLIC_FLAGS_8BYTE_CONNECTION_ID = 8 /\
    PACKET_PUBLIC_FLAGS_8BYTE_CONNECTION_ID_OLD = 12 /\ 63 <= PACKET_PUBLIC_FLAGS_MAX < 256;
  size_values : kPublicFlagsSize = 1 /\ kQuicVersionSize = 4 /\ kPacketHeaderTypeSize = 1 /\
    kDiversificationNonceSize = 32 /\ kQuicPathFrameBufferSize = 8 /\ 0 < kMaxPacketSize < 65536 /\
    0 <= kUFloat16MaxValue < 2 ^ 62;
  frame_type_values : PADDING_FRAME = 0 /\ RST_STREAM_FRAME = 1 /\ CONNECTION_CLOSE_FRAME = 2 /\
    GOAWAY_FRAME = 3 /\ WINDOW_UPDATE_FRAME = 4 /\ BLOCKED_FRAME = 5 /\ STOP_WAITING_FRAME = 6 /\
    PING_FRAME = 7 /\ STREAM_FRAME = 8 /\ ACK_FRAME = 9 /\ MTU_DISCOVERY_FRAME = 10 /\
    NUM_FRAME_TYPES = 11;
  ietf_values : IETF_STREAM = 0x10 /\ IETF_STREAM_FRAME_FIN_BIT = 1 /\
    IETF_STREAM_FRAME_LEN_BIT = 2 /\ IETF_STREAM_FRAME_OFF_BIT = 4;
  ietf_types_u8 : Forall (in_u 8) [IETF_RST_STREAM; IETF_CONNECTION_CLOSE; IETF_APPLICATION_CLOSE;
    IETF_MAX_DATA; IETF_MAX_STREAM_DATA; IETF_MAX_STREAM_ID; IETF_BLOCKED; IETF_STREAM_BLOCKED;
    IETF_STREAM_ID_BLOCKED; IETF_STOP_SENDING; IETF_ACK; IETF_PATH_CHALLENGE; IETF_PATH_RESPONSE];
  errors_are_errors : Forall (fun e => e <> QUIC_NO_ERROR) [QUIC_INTERNAL_ERROR;
    QUIC_INVALID_PACKET_HEADER; QUIC_INVALID_VERSION_NEGOTIATION_PACKET; QUIC_DECRYPTION_FAILURE;
    QUIC_ENCRYPTION_FAILURE; QUIC_PACKET_TOO_LARGE; QUIC_INVALID_PUBLIC_RST_PACKET;
    QUIC_MISSING_PAYLOAD; QUIC_INVALID_FRAME_DATA; QUIC_INVALID_STREAM_DATA; QUIC_INVALID_ACK_DATA;
    QUIC_INVALID_RST_STREAM_DATA; QUIC_INVALID_CONNECTION_CLOSE_DATA; QUIC_INVALID_GOAWAY_DATA;
    QUIC_INVALID_WINDOW_UPDATE_DATA; QUIC_INVALID_BLOCKED_DATA; QUIC_INVALID_STOP_WAITING_DATA];
  level_values : ENCRYPTION_NONE = 0 /\ 0 < ENCRYPTION_INITIAL < NUM_ENCRYPTION_LEVELS /\
    NUM_ENCRYPTION_LEVELS < 256;
  last_error_values : 0 <= QUIC_LAST_ERROR < 2 ^ 32 /\ 0 <= QUIC_STREAM_LAST_ERROR < 2 ^ 32;
}.

Record ParsedQuicVersion := mkVersion { handshake_protocol : Z; transport_version : Z }.

#[export] Instance ParsedQuicVersion_eq_dec : EqDecision ParsedQuicVersion.
Proof. solve_decision. Defined.

Inductive Perspective := IS_SERVER | IS_CLIENT.

#[export] Instance Perspective_eq_dec : EqDecision Perspective.
Proof. solve_decision. Defined.

Inductive Endianness := NETWORK_BYTE_ORDER | HOST_BYTE_ORDER.

(** The object representation of an [n]-byte integer in an order. *)
Definition uint_bytes (e : Endianness) (n : nat) (v : Z) : list Z :=
  match e with NETWORK_BYTE_ORDER => be_bytes n v | HOST_BYTE_ORDER => le_bytes n v end.

Definition uint_val (e : Endianness) (bs : list Z) : Z :=
  match e with NETWORK_BYTE_ORDER => be_val bs | HOST_BYTE_ORDER => le_val bs end.

(** ** The byte reader and writer *)

(** Library functions on numbers and strings. *)
Class QuicFunctions := {
  ufloat16_encode : Z -> Z;
  ufloat16_decode : Z -> Z;
  varint_bytes : Z -> list Z;
  MaxVarIntStreamId : Z;
  (** [QuicStrCat] of string and number pieces *)
  QuicStrCat : list (string + Z) -> string;
  Uint64ToString : Z -> string;
  HostToNet32 : Z -> Z;
  NetToHost32 : Z -> Z;
  CreateQuicVersionLabel : ParsedQuicVersion -> Z;
  ParseQuicVersionLabel : Z -> ParsedQuicVersion;
  (** version, connection id length, version flag, nonce flag, packet number length *)
  GetStartOfEncryptedData : Z -> Z -> bool -> bool -> Z -> Z;
}.

Class QuicFunctionsOk (F : QuicFunctions) : Prop := {
  ufloat16_encode_range : forall v, in_u 16 (ufloat16_encode v);
  ufloat16_decode_range : forall v, in_u 16 v -> 0 <= ufloat16_decode v < 2 ^ 62;
  varint_bytes_ok : forall v, 0 <= v < 2 ^ 62 -> bytes_ok (varint_bytes v);
  varint_bytes_len : forall v, 0 <= v < 2 ^ 62 -> 1 <= zlen (varint_bytes v) <= 8;
  MaxVarIntStreamId_range : 0 <= MaxVarIntStreamId < 2 ^ 32;
  QuicStrCat_nonempty : forall s l, s <> ""%string -> QuicStrCat (inl s :: l) <> ""%string;
  HostToNet32_range : forall v, in_u 32 v -> in_u 32 (HostToNet32 v);
  NetToHost32_eq : forall v, NetToHost32 v = HostToNet32 v;
  HostToNet32_involutive : forall v, in_u 32 v -> HostToNet32 (HostToNet32 v) = v;
  CreateQuicVersionLabel_range : forall v, in_u 32 (CreateQuicVersionLabel v);
  (** the header's length: flags, connection id, version, nonce, number *)
  GetStartOfEncryptedData_eq : forall v cid_len vflag nflag pn_len,
    GetStartOfEncryptedData v cid_len vflag nflag pn_len =
      1 + cid_len + (if vflag : bool then 4 else 0) + (if nflag : bool then 32 else 0) + pn_len;
}.

(** A read returns [None] for [false]; the reader survives it. *)
Class ReaderOps := {
  QuicDataReader : Type;
  new_reader : list Z -> Endianness -> QuicDataReader;
  ReadBytes : Z -> QuicDataReader -> option (list Z) * QuicDataReader;
  ReadUInt8 : QuicDataReader -> option Z * QuicDataReader;
  ReadUInt16 : QuicDataReader -> option Z * QuicDataReader;
  ReadUInt32 : QuicDataReader -> option Z * QuicDataReader;
  ReadUInt64 : QuicDataReader -> option Z * QuicDataReader;
  ReadBytesToUInt64 : Z -> QuicDataReader -> option Z * QuicDataReader;
  ReadUFloat16 : QuicDataReader -> option Z * QuicDataReader;
  ReadStringPiece16 : QuicDataReader -> option (list Z) * QuicDataReader;
  ReadStringPiece : Z -> QuicDataReader -> option (list Z) * QuicDataReader;
  ReadRemainingPayload : QuicDataReader -> list Z * QuicDataReader;
  ReadConnectionId : QuicDataReader -> option Z * QuicDataReader;
  ReadTag : QuicDataReader -> option Z * QuicDataReader;
  ReadVarInt62 : QuicDataReader -> option Z * QuicDataReader;
  ReadVarIntStreamId : QuicDataReader -> option Z * QuicDataReader;
  IsDoneReading : QuicDataReader -> bool;
  BytesRemaining : QuicDataReader -> Z;
  PeekByte : QuicDataReader -> Z;
  set_endianness : Endianness -> QuicDataReader -> QuicDataReader;
}.

(** A write returns [false] when the data does not fit. *)
Class WriterOps := {
  QuicDataWriter : Type;
  new_writer : Z -> Endianness -> QuicDataWriter;
  WriteUInt8 : Z -> QuicDataWriter -> bool * QuicDataWriter;
  WriteUInt16 : Z -> QuicDataWriter -> bool * QuicDataWriter;
  WriteUInt32 : Z -> QuicDataWriter -> bool * QuicDataWriter;
  WriteUInt64 : Z -> QuicDataWriter -> bool * QuicDataWriter;
  WriteBytesToUInt64 : Z -> Z -> QuicDataWriter -> bool * QuicDataWriter;
  WriteUFloat16 : Z -> QuicDataWriter -> bool * QuicDataWriter;
  WriteStringPiece16 : list Z -> QuicDataWriter -> bool * QuicDataWriter;
  WriteBytes : list Z -> QuicDataWriter -> bool * QuicDataWriter;
  WritePadding : QuicDataWriter -> QuicDataWriter;
  WritePaddingBytes : Z -> QuicDataWriter -> bool * QuicDataWriter;
  WriteUInt8AtOffset : Z -> Z -> QuicDataWriter -> bool * QuicDataWriter;
  WriteConnectionId : Z -> QuicDataWriter -> bool * QuicDataWriter;
  WriteTag : Z -> QuicDataWriter -> bool * QuicDataWriter;
  WriteVarInt62 : Z -> QuicDataWriter -> bool * QuicDataWriter;
  capacity : QuicDataWriter -> Z;
  wlength : QuicDataWriter -> Z;
  (** the bytes written so far, [data()[0..length())] *)
  written : QuicDataWriter -> list Z;
}.

(** ** Frames and headers *)

Record QuicStreamFrame := mkStreamFrame {
  sf_stream_id : Z; sf_fin : bool; sf_offset : Z; sf_data_length : Z;
  (** [data_buffer], NULL when a data producer supplies the bytes *)
  sf_data_buffer : option (list Z) }.

(** The queue of acknowledged packet numbers: half-open intervals. *)
Class PacketQueueOps := {
  PacketNumberQueue : Type;
  empty_queue : PacketNumberQueue;
  AddRange : Z -> Z -> PacketNumberQueue -> PacketNumberQueue;
  (** [rbegin() .. rend()]: (min, max) of each interval, largest first *)
  rev_intervals : PacketNumberQueue -> list (Z * Z);
}.

(** Intervals are non-empty and separated, in descending order, below [hi]. *)
Fixpoint intervals_below (hi : Z) (l : list (Z * Z)) : Prop :=
  match l with
  | [] => True
  | (lo, up) :: l => 0 <= lo < up /\ up <= hi /\ intervals_below (lo - 1) l
  end.

Class PacketQueueOk (Q : PacketQueueOps) : Prop := {
  rev_intervals_empty : rev_intervals empty_queue = [];
  rev_intervals_wf : forall q, intervals_below (2 ^ 62) (rev_intervals q);
  AddRange_below : forall q lo up, 0 <= lo < up -> up <= 2 ^ 62 ->
    (forall m x, (m, x) ∈ rev_intervals q -> up < m) ->
    rev_intervals (AddRange lo up q) = rev_intervals q ++ [(lo, up)];
}.

Section Frames.
Context `{PacketQueueOps}.

Record QuicAckFrame := mkAckFrame {
  largest_acked : Z; ack_delay_time : Delta;
  received_packet_times : list (Z * QuicTime); packets : PacketNumberQueue }.

(** [LargestAcked(frame)]: documented as the field [largest_acked], for a frame
    whose packets end there. *)
Class AckOps := { LargestAcked : QuicAckFrame -> Z }.

Class AckOk (A : AckOps) : Prop := {
  LargestAcked_eq : forall f lo l, rev_intervals (packets f) = (lo, largest_acked f + 1) :: l ->
    LargestAcked f = largest_acked f;
}.
End Frames.

Record QuicRstStreamFrame := mkRst { rst_stream_id : Z; rst_error_code : Z; rst_byte_offset : Z }.
Record QuicConnectionCloseFrame := mkClose { cc_error_code : Z; cc_error_details : list Z }.
Record QuicGoAwayFrame := mkGoAway {
  ga_error_code : Z; ga_last_good_stream_id : Z; ga_reason_phrase : list Z }.
Record QuicWindowUpdateFrame := mkWindowUpdate { wu_stream_id : Z; wu_byte_offset : Z }.
Record QuicBlockedFrame := mkBlocked { bl_stream_id : Z }.
Record QuicStopWaitingFrame := mkStopWaiting { least_unacked : Z }.
Record QuicPaddingFrame := mkPadding { num_padding_bytes : Z }.
Record QuicPathFrame := mkPath { path_data_buffer : list Z }.
Record QuicStopSendingFrame := mkStopSending { ss_stream_id : Z; ss_application_error_code : Z }.
Record QuicIetfMaxStreamIdFrame := mkMaxStreamId { max_stream_id : Z }.
Record QuicIetfBlockedFrame := mkIetfBlocked { ib_offset : Z }.
Record QuicIetfStreamIdBlockedFrame := mkStreamIdBlocked { sib_stream_id : Z }.

Section Framer.
Context `{T : QuicTypes} `{Q : PacketQueueOps}.

(** A [QuicFrame] is a type and a union of pointers; the code tests two of the
    pointers for NULL.  [OtherFrame]: a type without a case of its own. *)
Inductive QuicFrame :=
  | PaddingFrame (f : QuicPaddingFrame)
  | RstStreamFrame (f : QuicRstStreamFrame)
  | ConnectionCloseFrame (f : QuicConnectionCloseFrame)
  | GoAwayFrame (f : QuicGoAwayFrame)
  | WindowUpdateFrame (f : QuicWindowUpdateFrame)
  | BlockedFrame (f : QuicBlockedFrame)
  | StopWaitingFrame (f : QuicStopWaitingFrame)
  | PingFrame
  | StreamFrame (f : option QuicStreamFrame)
  | AckFrame (f : option QuicAckFrame)
  | MtuDiscoveryFrame
  | OtherFrame (type : Z).

Definition frame_type (f : QuicFrame) : Z :=
  match f with
  | PaddingFrame _ => PADDING_FRAME
  | RstStreamFrame _ => RST_STREAM_FRAME
  | ConnectionCloseFrame _ => CONNECTION_CLOSE_FRAME
  | GoAwayFrame _ => GOAWAY_FRAME
  | WindowUpdateFrame _ => WINDOW_UPDATE_FRAME
  | BlockedFrame _ => BLOCKED_FRAME
  | StopWaitingFrame _ => STOP_WAITING_FRAME
  | PingFrame => PING_FRAME
  | StreamFrame _ => STREAM_FRAME
  | AckFrame _ => ACK_FRAME
  | MtuDiscoveryFrame => MTU_DISCOVERY_FRAME
  | OtherFrame t => t
  end.

Record QuicPacketHeader := mkHeader {
  connection_id : Z; connection_id_length : Z; reset_flag : bool; version_flag : bool;
  header_version : ParsedQuicVersion; packet_number_length : Z; packet_number : Z;
  nonce : option (list Z) }.

(** ** Crypto objects, public reset messages, the data producer *)

Class CryptoOps := {
  QuicDecrypter : Type;
  QuicEncrypter : Type;
  NullDecrypter : Perspective -> QuicDecrypter;
  NullEncrypter : Perspective -> QuicEncrypter;
  (** version, packet number, associated data, ciphertext, buffer size *)
  DecryptPacket : Z -> Z -> list Z -> list Z -> Z -> QuicDecrypter -> option (list Z) * QuicDecrypter;
  SetDiversificationNonce : list Z -> QuicDecrypter -> QuicDecrypter;
  (** version, packet number, associated data, plaintext, buffer size *)
  EncryptPacket : Z -> Z -> list Z -> list Z -> Z -> QuicEncrypter -> option (list Z) * QuicEncrypter;
  EncrypterMaxPlaintextSize : Z -> QuicEncrypter -> Z;
  CryptoHandshakeMessage : Type;
  ParseMessage : list Z -> Perspective -> option CryptoHandshakeMessage;
  message_tag : CryptoHandshakeMessage -> Z;
  GetUint64 : Z -> CryptoHandshakeMessage -> option Z;
  GetStringPiece : Z -> CryptoHandshakeMessage -> option (list Z);
  new_message : CryptoHandshakeMessage;
  set_tag : Z -> CryptoHandshakeMessage -> CryptoHandshakeMessage;
  SetValue : Z -> Z -> CryptoHandshakeMessage -> CryptoHandshakeMessage;
  SetStringPiece : Z -> list Z -> CryptoHandshakeMessage -> CryptoHandshakeMessage;
  GetSerialized : Perspective -> CryptoHandshakeMessage -> list Z;
  QuicSocketAddress : Type;
  default_address : QuicSocketAddress;
  address_unspecified : QuicSocketAddress -> bool;
  encode_address : QuicSocketAddress -> list Z;
  decode_address : list Z -> option QuicSocketAddress;
  QuicStreamFrameDataProducer : Type;
}.

Context `{C : CryptoOps}.

Record QuicPublicResetPacket := mkPublicReset {
  pr_connection_id : Z; nonce_proof : Z; client_address : QuicSocketAddress }.
Record QuicVersionNegotiationPacket := mkVersionNegotiation {
  vn_connection_id : Z; versions : list ParsedQuicVersion }.
Record QuicIetfStatelessResetPacket := mkStatelessReset {
  sr_header : QuicPacketHeader; sr_stateless_reset_token : Z }.

(** ** The framer's state *)

Record MyQuicFramer := mkFramer {
  detailed_error_ : string;
  visitor_ : bool;
  error_ : Z;
  largest_packet_number_ : Z;
  last_serialized_connection_id_ : Z;
  last_version_label_ : Z;
  last_packet_is_ietf_quic_ : bool;
  version_ : ParsedQuicVersion;
  supported_versions_ : list ParsedQuicVersion;
  decrypter_ : option QuicDecrypter;
  alternative_decrypter_ : option QuicDecrypter;
  decrypter_level_ : Z;
  alternative_decrypter_level_ : Z;
  alternative_decrypter_latch_ : bool;
  encrypter_ : list (option QuicEncrypter);
  perspective_ : Perspective;
  validate_flags_ : bool;
  creation_time_ : QuicTime;
  last_timestamp_ : Delta;
  last_nonce_ : list Z;
  data_producer_ : option QuicStreamFrameDataProducer;
  use_incremental_ack_processing_ : bool;
}.

Definition put_detailed_error (v : string) (f : MyQuicFramer) : MyQuicFramer :=
  mkFramer v (visitor_ f) (error_ f) (largest_packet_number_ f) (last_serialized_connection_id_ f)
    (last_version_label_ f) (last_packet_is_ietf_quic_ f) (version_ f) (supported_versions_ f)
    (decrypter_ f) (alternative_decrypter_ f) (decrypter_level_ f)
    (alternative_decrypter_level_ f) (alternative_decrypter_latch_ f) (encrypter_ f)
    (perspective_ f) (validate_flags_ f) (creation_time_ f) (last_timestamp_ f) (last_nonce_ f)
    (data_producer_ f) (use_incremental_ack_processing_ f).
Definition put_visitor (v : bool) (f : MyQuicFramer) : MyQuicFramer :=
  mkFramer (detailed_error_ f) v (error_ f) (largest_packet_number_ f)
    (last_serialized_connection_id_ f) (last_version_label_ f) (last_packet_is_ietf_quic_ f)
    (version_ f) (supported_versions_ f) (decrypter_ f) (alternative_decrypter_ f)
    (decrypter_level_ f) (alternative_decrypter_level_ f) (alternative_decrypter_latch_ f)
    (encrypter_ f) (perspective_ f) (validate_flags_ f) (creation_time_ f) (last_timestamp_ f)
    (last_nonce_ f) (data_producer_ f) (use_incremental_ack_processing_ f).
Definition put_error (v : Z) (f : MyQuicFramer) : MyQuicFramer :=
  mkFramer (detailed_error_ f) (visitor_ f) v (largest_packet_number_ f)
    (last_serialized_connection_id_ f) (last_version_label_ f) (last_packet_is_ietf_quic_ f)
    (version_ f) (supported_versions_ f) (decrypter_ f) (alternative_decrypter_ f)
    (decrypter_level_ f) (alternative_decrypter_level_ f) (alternative_decrypter_latch_ f)
    (encrypter_ f) (perspective_ f) (validate_flags_ f) (creation_time_ f) (last_timestamp_ f)
    (last_nonce_ f) (data_producer_ f) (use_incremental_ack_processing_ f).
Definition put_largest_packet_number (v : Z) (f : MyQuicFramer) : MyQuicFramer :=
  mkFramer (detailed_error_ f) (visitor_ f) (error_ f) v (last_serialized_connection_id_ f)
    (last_version_label_ f) (last_packet_is_ietf_quic_ f) (version_ f) (supported_versions_ f)
    (decrypter_ f) (alternative_decrypter_ f) (decrypter_level_ f)
    (alternative_decrypter_level_ f) (alternative_decrypter_latch_ f) (encrypter_ f)
    (perspective_ f) (validate_flags_ f) (creation_time_ f) (last_timestamp_ f) (last_nonce_ f)
    (data_producer_ f) (use_incremental_ack_processing_ f).
Definition put_last_serialized_connection_id (v : Z) (f : MyQuicFramer) : MyQuicFramer :=
  mkFramer (detailed_error_ f) (visitor_ f) (error_ f) (largest_packet_number_ f) v
    (last_version_label_ f) (last_packet_is_ietf_quic_ f) (version_ f) (supported_versions_ f)
    (decrypter_ f) (alternative_decrypter_ f) (decrypter_level_ f)
    (alternative_decrypter_level_ f) (alternative_decrypter_latch_ f) (encrypter_ f)
    (perspective_ f) (validate_flags_ f) (creation_time_ f) (last_timestamp_ f) (last_nonce_ f)
    (data_producer_ f) (use_incremental_ack_processing_ f).
Definition put_last_version_label (v : Z) (f : MyQuicFramer) : MyQuicFramer :=
  mkFramer (detailed_error_ f) (visitor_ f) (error_ f) (largest_packet_number_ f)
    (last_serialized_connection_id_ f) v (last_packet_is_ietf_quic_ f) (version_ f)
    (supported_versions_ f) (decrypter_ f) (alternative_decrypter_ f) (decrypter_level_ f)
    (alternative_decrypter_level_ f) (alternative_decrypter_latch_ f) (encrypter_ f)
    (perspective_ f) (validate_flags_ f) (creation_time_ f) (last_timestamp_ f) (last_nonce_ f)
    (data_producer_ f) (use_incremental_ack_processing_ f).
Definition put_last_packet_is_ietf_quic (v : bool) (f : MyQuicFramer) : MyQuicFramer :=
  mkFramer (detailed_error_ f) (visitor_ f) (error_ f) (largest_packet_number_ f)
    (last_serialized_connection_id_ f) (last_version_label_ f) v (version_ f)
    (supported_versions_ f) (decrypter_ f) (alternative_decrypter_ f) (decrypter_level_ f)
    (alternative_decrypter_level_ f) (alternative_decrypter_latch_ f) (encrypter_ f)
    (perspective_ f) (validate_flags_ f) (creation_time_ f) (last_timestamp_ f) (last_nonce_ f)
    (data_producer_ f) (use_incremental_ack_processing_ f).
Definition put_version (v : ParsedQuicVersion) (f : MyQuicFramer) : MyQuicFramer :=
  mkFramer (detailed_error_ f) (visitor_ f) (error_ f) (largest_packet_number_ f)
    (last_serialized_connection_id_ f) (last_version_label_ f) (last_packet_is_ietf_quic_ f) v
    (supported_versions_ f) (decrypter_ f) (alternative_decrypter_ f) (decrypter_level_ f)
    (alternative_decrypter_level_ f) (alternative_decrypter_latch_ f) (encrypter_ f)
    (perspective_ f) (validate_flags_ f) (creation_time_ f) (last_timestamp_ f) (last_nonce_ f)
    (data_producer_ f) (use_incremental_ack_processing_ f).
Definition put_supported_versions (v : list ParsedQuicVersion) (f : MyQuicFramer) : MyQuicFramer :=
  mkFramer (detailed_error_ f) (visitor_ f) (error_ f) (largest_packet_number_ f)
    (last_serialized_connection_id_ f) (last_version_label_ f) (last_packet_is_ietf_quic_ f)
    (version_ f) v (decrypter_ f) (alternative_decrypter_ f) (decrypter_level_ f)
    (alternative_decrypter_level_ f) (alternative_decrypter_latch_ f) (encrypter_ f)
    (perspective_ f) (validate_flags_ f) (creation_time_ f) (last_timestamp_ f) (last_nonce_ f)
    (data_producer_ f) (use_incremental_ack_processing_ f).
Definition put_decrypter (v : option QuicDecrypter) (f : MyQuicFramer) : MyQuicFramer :=
  mkFramer (detailed_error_ f) (visitor_ f) (error_ f) (largest_packet_number_ f)
    (last_serialized_connection_id_ f) (last_version_label_ f) (last_packet_is_ietf_quic_ f)
    (version_ f) (supported_versions_ f) v (alternative_decrypter_ f) (decrypter_level_ f)
    (alternative_decrypter_level_ f) (alternative_decrypter_latch_ f) (encrypter_ f)
    (perspective_ f) (validate_flags_ f) (creation_time_ f) (last_timestamp_ f) (last_nonce_ f)
    (data_producer_ f) (use_incremental_ack_processing_ f).
Definition put_alternative_decrypter (v : option QuicDecrypter) (f : MyQuicFramer) : MyQuicFramer :=
  mkFramer (detailed_error_ f) (visitor_ f) (error_ f) (largest_packet_number_ f)
    (last_serialized_connection_id_ f) (last_version_label_ f) (last_packet_is_ietf_quic_ f)
    (version_ f) (supported_versions_ f) (decrypter_ f) v (decrypter_level_ f)
    (alternative_decrypter_level_ f) (alternative_decrypter_latch_ f) (encrypter_ f)
    (perspective_ f) (validate_flags_ f) (creation_time_ f) (last_timestamp_ f) (last_nonce_ f)
    (data_producer_ f) (use_incremental_ack_processing_ f).
Definition put_decrypter_level (v : Z) (f : MyQuicFramer) : MyQuicFramer :=
  mkFramer (detailed_error_ f) (visitor_ f) (error_ f) (largest_packet_number_ f)
    (last_serialized_connection_id_ f) (last_version_label_ f) (last_packet_is_ietf_quic_ f)
    (version_ f) (supported_versions_ f) (decrypter_ f) (alternative_decrypter_ f) v
    (alternative_decrypter_level_ f) (alternative_decrypter_latch_ f) (encrypter_ f)
    (perspective_ f) (validate_flags_ f) (creation_time_ f) (last_timestamp_ f) (last_nonce_ f)
    (data_producer_ f) (use_incremental_ack_processing_ f).
Definition put_alternative_decrypter_level (v : Z) (f : MyQuicFramer) : MyQuicFramer :=
  mkFramer (detailed_error_ f) (visitor_ f) (error_ f) (largest_packet_number_ f)
    (last_serialized_connection_id_ f) (last_version_label_ f) (last_packet_is_ietf_quic_ f)
    (version_ f) (supported_versions_ f) (decrypter_ f) (alternative_decrypter_ f)
    (decrypter_level_ f) v (alternative_decrypter_latch_ f) (encrypter_ f) (perspective_ f)
    (validate_flags_ f) (creation_time_ f) (last_timestamp_ f) (last_nonce_ f) (data_producer_ f)
    (use_incremental_ack_processing_ f).
Definition put_alternative_decrypter_latch (v : bool) (f : MyQuicFramer) : MyQuicFramer :=
  mkFramer (detailed_error_ f) (visitor_ f) (error_ f) (largest_packet_number_ f)
    (last_serialized_connection_id_ f) (last_version_label_ f) (last_packet_is_ietf_quic_ f)
    (version_ f) (supported_versions_ f) (decrypter_ f) (alternative_decrypter_ f)
    (decrypter_level_ f) (alternative_decrypter_level_ f) v (encrypter_ f) (perspective_ f)
    (validate_flags_ f) (creation_time_ f) (last_timestamp_ f) (last_nonce_ f) (data_producer_ f)
    (use_incremental_ack_processing_ f).
Definition put_encrypter (v : list (option QuicEncrypter)) (f : MyQuicFramer) : MyQuicFramer :=
  mkFramer (detailed_error_ f) (visitor_ f) (error_ f) (largest_packet_number_ f)
    (last_serialized_connection_id_ f) (last_version_label_ f) (last_packet_is_ietf_quic_ f)
    (version_ f) (supported_versions_ f) (decrypter_ f) (alternative_decrypter_ f)
    (decrypter_level_ f) (alternative_decrypter_level_ f) (alternative_decrypter_latch_ f) v
    (perspective_ f) (validate_flags_ f) (creation_time_ f) (last_timestamp_ f) (last_nonce_ f)
    (data_producer_ f) (use_incremental_ack_processing_ f).
Definition put_perspective (v : Perspective) (f : MyQuicFramer) : MyQuicFramer :=
  mkFramer (detailed_error_ f) (visitor_ f) (error_ f) (largest_packet_number_ f)
    (last_serialized_connection_id_ f) (last_version_label_ f) (last_packet_is_ietf_quic_ f)
    (version_ f) (supported_versions_ f) (decrypter_ f) (alternative_decrypter_ f)
    (decrypter_level_ f) (alternative_decrypter_level_ f) (alternative_decrypter_latch_ f)
    (encrypter_ f) v (validate_flags_ f) (creation_time_ f) (last_timestamp_ f) (last_nonce_ f)
    (data_producer_ f) (use_incremental_ack_processing_ f).
Definition put_validate_flags (v : bool) (f : MyQuicFramer) : MyQuicFramer :=
  mkFramer (detailed_error_ f) (visitor_ f) (error_ f) (largest_packet_number_ f)
    (last_serialized_connection_id_ f) (last_version_label_ f) (last_packet_is_ietf_quic_ f)
    (version_ f) (supported_versions_ f) (decrypter_ f) (alternative_decrypter_ f)
    (decrypter_level_ f) (alternative_decrypter_level_ f) (alternative_decrypter_latch_ f)
    (encrypter_ f) (perspective_ f) v (creation_time_ f) (last_timestamp_ f) (last_nonce_ f)
    (data_producer_ f) (use_incremental_ack_processing_ f).
Definition put_creation_time (v : QuicTime) (f : MyQuicFramer) : MyQuicFramer :=
  mkFramer (detailed_error_ f) (visitor_ f) (error_ f) (largest_packet_number_ f)
    (last_serialized_connection_id_ f) (last_version_label_ f) (last_packet_is_ietf_quic_ f)
    (version_ f) (supported_versions_ f) (decrypter_ f) (alternative_decrypter_ f)
    (decrypter_level_ f) (alternative_decrypter_level_ f) (alternative_decrypter_latch_ f)
    (encrypter_ f) (perspective_ f) (validate_flags_ f) v (last_timestamp_ f) (last_nonce_ f)
    (data_producer_ f) (use_incremental_ack_processing_ f).
Definition put_last_timestamp (v : Delta) (f : MyQuicFramer) : MyQuicFramer :=
  mkFramer (detailed_error_ f) (visitor_ f) (error_ f) (largest_packet_number_ f)
    (last_serialized_connection_id_ f) (last_version_label_ f) (last_packet_is_ietf_quic_ f)
    (version_ f) (supported_versions_ f) (decrypter_ f) (alternative_decrypter_ f)
    (decrypter_level_ f) (alternative_decrypter_level_ f) (alternative_decrypter_latch_ f)
    (encrypter_ f) (perspective_ f) (validate_flags_ f) (creation_time_ f) v (last_nonce_ f)
    (data_producer_ f) (use_incremental_ack_processing_ f).
Definition put_last_nonce (v : list Z) (f : MyQuicFramer) : MyQuicFramer :=
  mkFramer (detailed_error_ f) (visitor_ f) (error_ f) (largest_packet_number_ f)
    (last_serialized_connection_id_ f) (last_version_label_ f) (last_packet_is_ietf_quic_ f)
    (version_ f) (supported_versions_ f) (decrypter_ f) (alternative_decrypter_ f)
    (decrypter_level_ f) (alternative_decrypter_level_ f) (alternative_decrypter_latch_ f)
    (encrypter_ f) (perspective_ f) (validate_flags_ f) (creation_time_ f) (last_timestamp_ f) v
    (data_producer_ f) (use_incremental_ack_processing_ f).
Definition put_data_producer (v : option QuicStreamFrameDataProducer) (f : MyQuicFramer) : MyQuicFramer :=
  mkFramer (detailed_error_ f) (visitor_ f) (error_ f) (largest_packet_number_ f)
    (last_serialized_connection_id_ f) (last_version_label_ f) (last_packet_is_ietf_quic_ f)
    (version_ f) (supported_versions_ f) (decrypter_ f) (alternative_decrypter_ f)
    (decrypter_level_ f) (alternative_decrypter_level_ f) (alternative_decrypter_latch_ f)
    (encrypter_ f) (perspective_ f) (validate_flags_ f) (creation_time_ f) (last_timestamp_ f)
    (last_nonce_ f) v (use_incremental_ack_processing_ f).
Definition put_use_incremental_ack_processing (v : bool) (f : MyQuicFramer) : MyQuicFramer :=
  mkFramer (detailed_error_ f) (visitor_ f) (error_ f) (largest_packet_number_ f)
    (last_serialized_connection_id_ f) (last_version_label_ f) (last_packet_is_ietf_quic_ f)
    (version_ f) (supported_versions_ f) (decrypter_ f) (alternative_decrypter_ f)
    (decrypter_level_ f) (alternative_decrypter_level_ f) (alternative_decrypter_latch_ f)
    (encrypter_ f) (perspective_ f) (validate_flags_ f) (creation_time_ f) (last_timestamp_ f)
    (last_nonce_ f) (data_producer_ f) v.

(** ** The visitor

    One function per callback on the visitor's own state.  Only
    [OnProtocolVersionMismatch], documented to update the framer's version,
    may change the framer. *)
Class VisitorOps := {
  Visitor : Type;
  OnError : MyQuicFramer -> Visitor -> Visitor;
  OnProtocolVersionMismatch : ParsedQuicVersion -> MyQuicFramer -> Visitor ->
    bool * (MyQuicFramer * Visitor);
  OnPacket : Visitor -> Visitor;
  OnPublicResetPacket : QuicPublicResetPacket -> Visitor -> Visitor;
  OnVersionNegotiationPacket : QuicVersionNegotiationPacket -> Visitor -> Visitor;
  OnUnauthenticatedPublicHeader : QuicPacketHeader -> Visitor -> bool * Visitor;
  OnUnauthenticatedHeader : QuicPacketHeader -> Visitor -> bool * Visitor;
  OnDecryptedPacket : Z -> Visitor -> Visitor;
  OnPacketHeader : QuicPacketHeader -> Visitor -> bool * Visitor;
  OnStreamFrame : QuicStreamFrame -> Visitor -> bool * Visitor;
  OnAckFrame : QuicAckFrame -> Visitor -> bool * Visitor;
  OnAckFrameStart : Z -> Delta -> Visitor -> bool * Visitor;
  OnAckRange : Z -> Z -> bool -> Visitor -> bool * Visitor;
  OnStopWaitingFrame : QuicStopWaitingFrame -> Visitor -> bool * Visitor;
  OnPaddingFrame : QuicPaddingFrame -> Visitor -> bool * Visitor;
  OnPingFrame : Visitor -> bool * Visitor;
  OnRstStreamFrame : QuicRstStreamFrame -> Visitor -> bool * Visitor;
  OnConnectionCloseFrame : QuicConnectionCloseFrame -> Visitor -> bool * Visitor;
  OnGoAwayFrame : QuicGoAwayFrame -> Visitor -> bool * Visitor;
  OnWindowUpdateFrame : QuicWindowUpdateFrame -> Visitor -> bool * Visitor;
  OnBlockedFrame : QuicBlockedFrame -> Visitor -> bool * Visitor;
  OnPacketComplete : Visitor -> Visitor;
  IsValidStatelessResetToken : Z -> Visitor -> bool;
  OnAuthenticatedIetfStatelessResetPacket : QuicIetfStatelessResetPacket -> Visitor -> Visitor;
}.

Context `{F : QuicFunctions} `{R : ReaderOps} `{W : WriterOps} `{V : VisitorOps}.

(** A data producer writes a stream's bytes itself: id, offset, length. *)
Class ProducerOps := {
  WriteStreamData : QuicStreamFrameDataProducer -> Z -> Z -> Z -> QuicDataWriter ->
    bool * QuicDataWriter;
}.

(** What a method can touch: the framer, the visitor it calls, the reader and
    the writer it was given. *)
Record env := mkEnv { fr : MyQuicFramer; vs : Visitor; rd : QuicDataReader; wr : QuicDataWriter }.

Definition put_fr (v : MyQuicFramer) (e : env) : env :=
  mkEnv v (vs e) (rd e) (wr e).
Definition put_vs (v : Visitor) (e : env) : env :=
  mkEnv (fr e) v (rd e) (wr e).
Definition put_rd (v : QuicDataReader) (e : env) : env :=
  mkEnv (fr e) (vs e) v (wr e).
Definition put_wr (v : QuicDataWriter) (e : env) : env :=
  mkEnv (fr e) (vs e) (rd e) v.

(** ** Methods as computations *)

Definition gets {A} (f : MyQuicFramer -> A) : M env A := fun e => (Ok (f (fr e)), e).
Definition mod_fr (f : MyQuicFramer -> MyQuicFramer) : M env unit := fun e => (Ok tt, put_fr (f (fr e)) e).

(** [reader->Read...(&x)], failing when it returns [false]. *)
Definition rd_op {A} (op : QuicDataReader -> option A * QuicDataReader) : M env A := fun e =>
  match op (rd e) with
  | (Some a, r) => (Ok a, put_rd r e)
  | (None, r) => (Fail, put_rd r e)
  end.

Definition rd_get {A} (f : QuicDataReader -> A) : M env A := fun e => (Ok (f (rd e)), e).

(** [writer->Write...(x)]. *)
Definition wr_op (op : QuicDataWriter -> bool * QuicDataWriter) : M env unit := fun e =>
  match op (wr e) with
  | (true, w) => (Ok tt, put_wr w e)
  | (false, w) => (Fail, put_wr w e)
  end.

Definition wr_get {A} (f : QuicDataWriter -> A) : M env A := fun e => (Ok (f (wr e)), e).
Definition wr_mod (f : QuicDataWriter -> QuicDataWriter) : M env unit := fun e => (Ok tt, put_wr (f (wr e)) e).

(** Callbacks; dereferencing an unset [visitor_] is [Stuck]. *)
Definition visit {A} (f : Visitor -> A * Visitor) : M env A := fun e =>
  if visitor_ (fr e) then let (a, v) := f (vs e) in (Ok a, put_vs v e) else (Stuck, e).

Definition notify (f : Visitor -> Visitor) : M env unit := visit (fun v => (tt, f v)).

Definition set_error (error : Z) : M env unit := mod_fr (put_error error).
Definition set_detailed_error (error : string) : M env unit := mod_fr (put_detailed_error error).

(** Sets the error, tells the visitor and returns [false]. *)
Definition RaiseError {A} (error : Z) : M env A :=
  set_error error ;;
  f ← gets id;
  notify (OnError f) ;;
  mfail.

(** [if (!m) { on_failure; return false; }] *)
Definition or_else {A} (m : M env A) (h : M env A) : M env A := fun e =>
  match m e with
  | (Fail, e') => h e'
  | r => r
  end.

(** [if (!m) { set_detailed_error(msg); return false; }] *)
Definition or_detail {A} (msg : string) (m : M env A) : M env A :=
  or_else m (set_detailed_error msg ;; mfail).

(** [if (!m) return RaiseError(error);] *)
Definition or_raise {A} (error : Z) (m : M env A) : M env A := or_else m (RaiseError error).

(** [if (!m) return 0;] in a function that returns a size. *)
Definition or_zero (m : M env Z) : M env Z := or_else m (mret 0).

(** The version in use. *)
Definition tversion : M env Z := gets (fun f => transport_version (version_ f)).

(** [if (!b) return false;] *)
Definition require (b : bool) : M env unit := if b then mret tt else mfail.
End Framer.
