(* ===== verification/FramerNumbers.v ===== *)
(** * Numbers and sizes of the framer: [my_quic_framer.cc], lines 37 to 340,
    936 to 1100, 1354 to 1380 and the size functions

    The constants, the choice of the closest candidate, packet numbers and
    timestamps from their truncated forms, length codes and bit fields.  These
    are the static functions and the ones that read a field of the framer
    without calling out. *)

From S2P Require Import Prelude QuicTime FramerTypes.

(** ** Constants *)

Definition kQuicFrameTypeSize : Z := 1.
Definition kQuicErrorCodeSize : Z := 4.
Definition kQuicErrorDetailsLengthSize : Z := 2.
Definition kQuicMaxStreamIdSize : Z := 4.
Definition kQuicMaxStreamOffsetSize : Z := 8.
Definition kQuicStreamPayloadLengthSize : Z := 2.
Definition kQuicDeltaTimeLargestObservedSize : Z := 2.
Definition kQuicNumTimestampsSize : Z := 1.
Definition kNumberOfNackRangesSize : Z := 1.
Definition kNumberOfAckBlocksSize : Z := 1.
Definition kMaxNackRanges : Z := Z.shiftl 1 (kNumberOfNackRangesSize * 8) - 1.
Definition kMaxAckBlocks : Z := Z.shiftl 1 (kNumberOfAckBlocksSize * 8) - 1.
Definition kIetfAckTimestampShift : Z := 3.
Definition kPublicHeaderSequenceNumberShift : Z := 4.
Definition kQuicFrameTypeSpecialMask : Z := 0xe0.
Definition kQuicFrameTypeStreamMask_Pre40 : Z := 0x80.
Definition kQuicFrameTypeStreamMask : Z := 0xc0.
Definition kQuicFrameTypeAckMask_Pre40 : Z := 0x40.
Definition kQuicFrameTypeAckMask : Z := 0xa0.
Definition kQuicStreamIdShift_Pre40 : Z := 2.
Definition kQuicStreamIDLengthMask_Pre40 : Z := 0x03.
Definition kQuicStreamIDLengthShift : Z := 3.
Definition kQuicStreamIDLengthNumBits : Z := 2.
Definition kQuicStreamShift_Pre40 : Z := 3.
Definition kQuicStreamOffsetMask_Pre40 : Z := 0x07.
Definition kQuicStreamOffsetNumBits : Z := 2.
Definition kQuicStreamOffsetShift : Z := 1.
Definition kQuicStreamDataLengthShift_Pre40 : Z := 1.
Definition kQuicStreamDataLengthMask_Pre40 : Z := 0x01.
Definition kQuicStreamDataLengthShift : Z := 0.
Definition kQuicStreamFinShift_Pre40 : Z := 1.
Definition kQuicStreamFinMask_Pre40 : Z := 0x01.
Definition kQuicStreamFinShift : Z := 5.
Definition kQuicSequenceNumberLengthNumBits : Z := 2.
Definition kActBlockLengthOffset : Z := 0.
Definition kLargestAckedOffset : Z := 2.
Definition kQuicHasMultipleAckBlocksOffset_Pre40 : Z := 5.
Definition kQuicHasMultipleAckBlocksOffset : Z := 4.
Definition kMaxErrorStringLength : Z := 256.

(** [std::numeric_limits<uint8_t>::max()], and of [uint16_t]. *)
Definition uint8_max : Z := 255.
Definition uint16_max : Z := 65535.

(** ** The closest candidate *)

(** [Delta(a, b)], the distance of two packet numbers. *)
Definition PnDelta (a b : Z) : Z := if a <? b then u64 (b - a) else u64 (a - b).

Definition ClosestTo (target a b : Z) : Z :=
  if PnDelta target a <? PnDelta target b then a else b.

(** [~(epoch_delta - 1)] clears the low bits. *)
Definition CalculatePacketNumberFromWire (packet_number_length base_packet_number packet_number : Z) : Z :=
  let epoch_delta := u64 (Z.shiftl 1 (8 * packet_number_length)) in
  let next_packet_number := u64 (base_packet_number + 1) in
  let epoch := Z.land base_packet_number (u64 (Z.lnot (u64 (epoch_delta - 1)))) in
  let prev_epoch := u64 (epoch - epoch_delta) in
  let next_epoch := u64 (epoch + epoch_delta) in
  ClosestTo next_packet_number (u64 (epoch + packet_number))
    (ClosestTo next_packet_number (u64 (prev_epoch + packet_number))
       (u64 (next_epoch + packet_number))).

(** [last_timestamp]: the field [last_timestamp_]. *)
Definition CalculateTimestampFromWire (last_timestamp : Delta) (time_delta_us : Z) : Delta :=
  let epoch_delta := u64 (Z.shiftl 1 32) in
  let last := u64 (ToMicroseconds last_timestamp) in
  let epoch := Z.land last (u64 (Z.lnot (u64 (epoch_delta - 1)))) in
  let prev_epoch := u64 (epoch - epoch_delta) in
  let next_epoch := u64 (epoch + epoch_delta) in
  let time := ClosestTo last (u64 (epoch + time_delta_us))
                (ClosestTo last (u64 (prev_epoch + time_delta_us)) (u64 (next_epoch + time_delta_us))) in
  FromMicroseconds time.

Section Numbers.
Context `{T : QuicTypes}.

(** *** Length codes *)

Definition ReadSequenceNumberLength (flags : Z) : Z :=
  let x := Z.land flags PACKET_FLAGS_8BYTE_PACKET in
  if x =? PACKET_FLAGS_8BYTE_PACKET then PACKET_6BYTE_PACKET_NUMBER
  else if x =? PACKET_FLAGS_4BYTE_PACKET then PACKET_4BYTE_PACKET_NUMBER
  else if x =? PACKET_FLAGS_2BYTE_PACKET then PACKET_2BYTE_PACKET_NUMBER
  else if x =? PACKET_FLAGS_1BYTE_PACKET then PACKET_1BYTE_PACKET_NUMBER
  else PACKET_6BYTE_PACKET_NUMBER.

Definition ReadAckPacketNumberLength (version flags : Z) : Z :=
  let x := Z.land flags PACKET_FLAGS_8BYTE_PACKET in
  if x =? PACKET_FLAGS_8BYTE_PACKET then
    if negb (version =? QUIC_VERSION_41) then PACKET_6BYTE_PACKET_NUMBER
    else PACKET_8BYTE_PACKET_NUMBER
  else if x =? PACKET_FLAGS_4BYTE_PACKET then PACKET_4BYTE_PACKET_NUMBER
  else if x =? PACKET_FLAGS_2BYTE_PACKET then PACKET_2BYTE_PACKET_NUMBER
  else if x =? PACKET_FLAGS_1BYTE_PACKET then PACKET_1BYTE_PACKET_NUMBER
  else PACKET_6BYTE_PACKET_NUMBER.

Definition PacketNumberLengthToShortHeaderType (packet_number_length : Z) : Z :=
  if packet_number_length =? PACKET_1BYTE_PACKET_NUMBER then SHORT_HEADER_1_BYTE_PACKET_NUMBER
  else if packet_number_length =? PACKET_2BYTE_PACKET_NUMBER then SHORT_HEADER_2_BYTE_PACKET_NUMBER
  else if packet_number_length =? PACKET_4BYTE_PACKET_NUMBER then SHORT_HEADER_4_BYTE_PACKET_NUMBER
  else SHORT_HEADER_1_BYTE_PACKET_NUMBER.

Definition GetMinPacketNumberLength (version packet_number : Z) : Z :=
  if packet_number <? Z.shiftl 1 (PACKET_1BYTE_PACKET_NUMBER * 8) then PACKET_1BYTE_PACKET_NUMBER
  else if packet_number <? Z.shiftl 1 (PACKET_2BYTE_PACKET_NUMBER * 8) then PACKET_2BYTE_PACKET_NUMBER
  else if packet_number <? Z.shiftl 1 (PACKET_4BYTE_PACKET_NUMBER * 8) then PACKET_4BYTE_PACKET_NUMBER
  else if negb (version =? QUIC_VERSION_41) then PACKET_6BYTE_PACKET_NUMBER
  else PACKET_8BYTE_PACKET_NUMBER.

Definition GetPacketNumberFlags (packet_number_length : Z) : Z :=
  if packet_number_length =? PACKET_1BYTE_PACKET_NUMBER then PACKET_FLAGS_1BYTE_PACKET
  else if packet_number_length =? PACKET_2BYTE_PACKET_NUMBER then PACKET_FLAGS_2BYTE_PACKET
  else if packet_number_length =? PACKET_4BYTE_PACKET_NUMBER then PACKET_FLAGS_4BYTE_PACKET
  else PACKET_FLAGS_8BYTE_PACKET.

(** *** Sizes *)

(** [for (i = 1; i <= 4; ++i) { stream_id >>= 8; if (stream_id == 0) return i; }] *)
Fixpoint stream_id_size_loop (n : nat) (i stream_id : Z) : Z :=
  match n with
  | O => 4
  | S n' =>
      let stream_id := Z.shiftr stream_id 8 in
      if stream_id =? 0 then i else stream_id_size_loop n' (i + 1) stream_id
  end.

Definition GetStreamIdSize (stream_id : Z) : Z := stream_id_size_loop 4 1 stream_id.

(** [for (i = 2; i <= 8; ++i) { offset >>= 8; if (offset == 0) return i; }] *)
Fixpoint stream_offset_size_loop (n : nat) (i offset : Z) : Z :=
  match n with
  | O => 8
  | S n' =>
      let offset := Z.shiftr offset 8 in
      if offset =? 0 then i else stream_offset_size_loop n' (i + 1) offset
  end.

(** [for (i = 0; i <= 4; i += 2) if ((offset >> (8 * i)) == 0) return i;] *)
Fixpoint stream_offset_size_loop_41 (n : nat) (i offset : Z) : Z :=
  match n with
  | O => 8
  | S n' =>
      if Z.shiftr offset (8 * i) =? 0 then i else stream_offset_size_loop_41 n' (i + 2) offset
  end.

Definition GetStreamOffsetSize (version offset : Z) : Z :=
  if negb (version =? QUIC_VERSION_41) then
    if offset =? 0 then 0
    else stream_offset_size_loop 7 2 (Z.shiftr offset 8)
  else stream_offset_size_loop_41 3 0 offset.

Definition GetMinStreamFrameSize (version stream_id offset : Z) (last_frame_in_packet : bool) : Z :=
  kQuicFrameTypeSize + GetStreamIdSize stream_id + GetStreamOffsetSize version offset +
  (if last_frame_in_packet then 0 else kQuicStreamPayloadLengthSize).

Definition GetMinAckFrameSize (version largest_observed_length : Z) : Z :=
  let min_size := kQuicFrameTypeSize + largest_observed_length + kQuicDeltaTimeLargestObservedSize in
  min_size + kQuicNumTimestampsSize.

Definition GetStopWaitingFrameSize (version packet_number_length : Z) : Z :=
  kQuicFrameTypeSize + packet_number_length.

Definition GetRstStreamFrameSize : Z :=
  kQuicFrameTypeSize + kQuicMaxStreamIdSize + kQuicMaxStreamOffsetSize + kQuicErrorCodeSize.

Definition GetMinConnectionCloseFrameSize : Z :=
  kQuicFrameTypeSize + kQuicErrorCodeSize + kQuicErrorDetailsLengthSize.

Definition GetMinGoAwayFrameSize : Z :=
  kQuicFrameTypeSize + kQuicErrorCodeSize + kQuicErrorDetailsLengthSize + kQuicMaxStreamIdSize.

Definition GetWindowUpdateFrameSize : Z :=
  kQuicFrameTypeSize + kQuicMaxStreamIdSize + kQuicMaxStreamOffsetSize.

Definition GetBlockedFrameSize : Z := kQuicFrameTypeSize + kQuicMaxStreamIdSize.

Definition GetVersionNegotiationPacketSize (number_versions : Z) : Z :=
  kPublicFlagsSize + PACKET_8BYTE_CONNECTION_ID + number_versions * kQuicVersionSize.
End Numbers.

(** *** Bit fields *)

Definition GetMaskFromNumBits (num_bits : Z) : Z := u8 (Z.shiftl 1 num_bits - 1).

Definition ExtractBits (flags num_bits offset : Z) : Z :=
  Z.land (Z.shiftr flags offset) (GetMaskFromNumBits num_bits).

Definition ExtractBit (flags offset : Z) : bool :=
  negb (Z.land (Z.shiftr flags offset) (GetMaskFromNumBits 1) =? 0).

(** The new value of [*flags]. *)
Definition SetBits (flags val num_bits offset : Z) : Z := u8 (Z.lor flags (Z.shiftl val offset)).

Definition SetBit (flags : Z) (val : bool) (offset : Z) : Z := SetBits flags (b2z val) 1 offset.

Definition TruncateErrorString (error : list Z) : list Z :=
  if zlen error <=? kMaxErrorStringLength then error else ztake kMaxErrorStringLength error.

(** ** Properties of the numbers *)

Lemma PnDelta_abs a b : in_u 64 a -> in_u 64 b -> PnDelta a b = Z.abs (a - b).
Proof.
  unfold PnDelta, in_u. intros. destruct (Z.ltb_spec a b); rewrite wrap_id by (unfold in_u; lia); lia.
Qed.

Lemma ClosestTo_spec t a b : in_u 64 t -> in_u 64 a -> in_u 64 b ->
  (Z.abs (t - a) < Z.abs (t - b) /\ ClosestTo t a b = a) \/
  (Z.abs (t - b) <= Z.abs (t - a) /\ ClosestTo t a b = b).
Proof.
  intros. unfold ClosestTo. rewrite !PnDelta_abs by done.
  destruct (Z.ltb_spec (Z.abs (t - a)) (Z.abs (t - b))); [left|right]; split; lia || done.
Qed.

(** Clearing the low [8 * k] bits. *)
Lemma epoch_eq x k : in_u 64 x -> 1 <= k <= 7 ->
  Z.land x (u64 (Z.lnot (u64 (u64 (Z.shiftl 1 (8 * k)) - 1)))) = 2 ^ (8 * k) * (x / 2 ^ (8 * k)).
Proof.
  intros Hx Hk. assert (0 < 2 ^ (8 * k) < 2 ^ 64) as Hp.
  { split; [apply Z.pow_pos_nonneg; lia | apply Z.pow_lt_mono_r; lia]. }
  rewrite Z.shiftl_1_l, !(wrap_id 64 (2 ^ _)), (wrap_id 64 (2 ^ _ - 1)) by (unfold in_u; lia).
  replace (2 ^ (8 * k) - 1) with (Z.ones (8 * k)) by (rewrite Z.ones_equiv; lia).
  rewrite (Z.mul_comm (2 ^ (8 * k))), <- Z.shiftl_mul_pow2, <- Z.shiftr_div_pow2 by lia.
  unfold wrap. rewrite <- Z.land_ones, Z.land_assoc by lia.
  rewrite (Z.land_comm _ (Z.ones 64)), Z.land_assoc, (Z.land_comm _ x), Z.land_ones by lia.
  rewrite (Z.mod_small x) by apply Hx. rewrite <- Z.ldiff_land.
  by rewrite Z.ldiff_ones_r by lia.
Qed.

(** The three candidates, before they wrap. *)
Lemma candidates k base wire :
  1 <= k <= 6 -> in_u 62 base -> 0 <= wire < 2 ^ (8 * k) ->
  let w := 2 ^ (8 * k) in let e := w * (base / w) in
  CalculatePacketNumberFromWire k base wire =
    ClosestTo (base + 1) (e + wire) (ClosestTo (base + 1) (u64 (e - w + wire)) (e + w + wire)) /\
  0 <= e <= base /\ base < e + w /\ 256 <= w <= 2 ^ 48.
Proof.
  intros Hk Hb Hw w e. assert (256 <= w <= 2 ^ 48) as Hw48.
  { subst w. split; [change 256 with (2 ^ 8)|]; apply Z.pow_le_mono_r; lia. }
  assert (0 <= e <= base /\ base < e + w) as [He1 He2].
  { subst e. pose proof (Z.div_mod base w). pose proof (Z.mod_pos_bound base w).
    assert (0 <= base / w) by (apply Z.div_pos; unfold in_u in Hb; lia). unfold in_u in Hb. nia. }
  split; [|lia]. unfold CalculatePacketNumberFromWire. unfold in_u in Hb.
  change (2 ^ 62) with 4611686018427387904 in Hb. change (2 ^ 48) with 281474976710656 in Hw48.
  rewrite epoch_eq by (unfold in_u; lia). fold w. fold e.
  rewrite Z.shiftl_1_l. fold w.
  rewrite (wrap_id 64 w), (wrap_id 64 (base + 1)), (wrap_id 64 (e + wire)) by (unfold in_u; lia).
  rewrite (wrap_id 64 (e + w)), (wrap_id 64 (e + w + wire)) by (unfold in_u; lia).
  do 2 f_equal. unfold wrap. rewrite Zplus_mod_idemp_l. done.
Qed.

Lemma ClosestTo_left t a b : in_u 64 t -> in_u 64 a -> in_u 64 b ->
  Z.abs (t - a) < Z.abs (t - b) -> ClosestTo t a b = a.
Proof. intros Ht Ha Hb H. destruct (ClosestTo_spec t a b Ht Ha Hb) as [[? ->]|[? ->]]; done || lia. Qed.

Lemma ClosestTo_right t a b : in_u 64 t -> in_u 64 a -> in_u 64 b ->
  Z.abs (t - b) < Z.abs (t - a) -> ClosestTo t a b = b.
Proof. intros Ht Ha Hb H. destruct (ClosestTo_spec t a b Ht Ha Hb) as [[? ->]|[? ->]]; done || lia. Qed.

Lemma ClosestTo_in t a b : ClosestTo t a b = a \/ ClosestTo t a b = b.
Proof. unfold ClosestTo. case_match; auto. Qed.

(** Of three candidates one window [w] apart (the low one may have wrapped),
    the one within half a window of the target is chosen. *)
Lemma closest_of_three t w c x :
  0 < w <= 2 ^ 48 -> 0 <= t < 2 ^ 63 -> 0 <= c < 2 ^ 63 -> in_u 64 x -> 2 * Z.abs (t - x) < w ->
  x = c \/ x = c - w \/ x = c + w ->
  ClosestTo t c (ClosestTo t (u64 (c - w)) (c + w)) = x.
Proof.
  unfold in_u. change (2 ^ 48) with 281474976710656. change (2 ^ 63) with 9223372036854775808.
  change (2 ^ 64) with 18446744073709551616. intros Hw Ht Hc Hx Hd Hor.
  pose proof (wrap_range 64 (c - w) ltac:(lia)) as Hr. unfold in_u in Hr.
  change (2 ^ 64) with 18446744073709551616 in Hr.
  assert (u64 (c - w) = c - w \/ 10000000000000000000 <= u64 (c - w)) as Hp.
  { destruct (decide (0 <= c - w)); [left; apply wrap_id; unfold in_u; lia|right].
    rewrite wrap_neg; change (2 ^ 64) with 18446744073709551616; lia. }
  assert (0 <= c - w -> u64 (c - w) = c - w) as Hp' by (intros; apply wrap_id; unfold in_u; lia).
  set (p := u64 (c - w)) in *. clearbody p.
  assert (forall z, 0 <= z < 18446744073709551616 -> in_u 64 z) as U
    by (unfold in_u; change (2 ^ 64) with 18446744073709551616; auto).
  destruct Hor as [-> | [-> | ->]].
  - apply ClosestTo_left; [apply U; lia..| |].
    + destruct (ClosestTo_in t p (c + w)) as [-> | ->]; apply U; lia.
    + destruct (ClosestTo_in t p (c + w)) as [-> | ->]; lia.
  - specialize (Hp' ltac:(lia)). rewrite (ClosestTo_left t p (c + w)) by (apply U || idtac; lia).
    rewrite <- Hp'. apply ClosestTo_right; [apply U; lia..|lia].
  - rewrite (ClosestTo_right t p (c + w)) by (apply U || idtac; lia).
    apply ClosestTo_right; [apply U; lia..|lia].
Qed.

(** The packet number recovered from a truncated one is the sent one whenever
    the sent one is within half the truncation window of the next expected
    number. *)
Lemma recover_packet_number k base pn :
  1 <= k <= 6 -> in_u 62 base -> in_u 62 pn ->
  2 * Z.abs (pn - (base + 1)) < 2 ^ (8 * k) ->
  CalculatePacketNumberFromWire k base (pn mod 2 ^ (8 * k)) = pn.
Proof.
  intros Hk Hb Hp Hd. assert (0 < 2 ^ (8 * k)) as Hpos by (apply Z.pow_pos_nonneg; lia).
  pose proof (Z.mod_pos_bound pn (2 ^ (8 * k)) Hpos) as Hm.
  destruct (candidates k base (pn mod 2 ^ (8 * k)) Hk Hb Hm) as (-> & He & He2 & Hw).
  pose proof (Z.div_mod pn (2 ^ (8 * k)) ltac:(lia)) as Hpd.
  set (w := 2 ^ (8 * k)) in *. set (e := w * (base / w)) in *. set (t := pn mod w) in *.
  unfold in_u in *. change (2 ^ 62) with 4611686018427387904 in *.
  change (2 ^ 48) with 281474976710656 in Hw.
  replace (e - w + t) with (e + t - w) by lia. replace (e + w + t) with (e + t + w) by lia.
  apply closest_of_three; change (2 ^ 48) with 281474976710656;
    change (2 ^ 63) with 9223372036854775808; try (unfold in_u; lia).
  assert (pn / w = base / w - 1 \/ pn / w = base / w \/ pn / w = base / w + 1) as Hq by nia.
  subst e. destruct Hq as [Hq|[Hq|Hq]]; rewrite Hq in Hpd; lia.
Qed.

(** A packet's receive time, of which the wire carries the low 32 bits of
    microseconds since the framer's creation, is recovered whenever it is less
    than half an epoch (35 minutes) away from the last recovered one. *)
Theorem timestamp_recovered last us :
  0 <= time_offset_ last < 2 ^ 62 -> 0 <= us < 2 ^ 62 ->
  2 * Z.abs (us - time_offset_ last) < 2 ^ 32 ->
  CalculateTimestampFromWire last (us mod 2 ^ 32) = mkDelta us.
Proof.
  destruct last as [last]. unfold ToMicroseconds. cbn [time_offset_]. intros Hl Hu Hd.
  unfold CalculateTimestampFromWire, ToMicroseconds. cbn [time_offset_].
  change (2 ^ 62) with 4611686018427387904 in *.
  rewrite (wrap_id 64 last) by (unfold in_u; lia).
  change (Z.shiftl 1 32) with (Z.shiftl 1 (8 * 4)). rewrite epoch_eq by (unfold in_u; lia).
  change (u64 (Z.shiftl 1 (8 * 4))) with 4294967296. change (2 ^ (8 * 4)) with 4294967296.
  change (2 ^ 32) with 4294967296 in *.
  pose proof (Z.div_mod us 4294967296) as Hpd. pose proof (Z.mod_pos_bound us 4294967296) as Hm.
  pose proof (Z.div_mod last 4294967296) as Hld. pose proof (Z.mod_pos_bound last 4294967296) as Hlm.
  set (t := us mod 4294967296) in *. set (e := 4294967296 * (last / 4294967296)) in *.
  rewrite (wrap_id 64 (e + t)), (wrap_id 64 (e + 4294967296)), (wrap_id 64 (e + 4294967296 + t))
    by (unfold in_u; lia).
  replace (u64 (u64 (e - 4294967296) + t)) with (u64 (e + t - 4294967296))
    by (unfold wrap; rewrite Zplus_mod_idemp_l; f_equal; lia).
  replace (e + 4294967296 + t) with (e + t + 4294967296) by lia.
  rewrite (closest_of_three last 4294967296 (e + t) us); change (2 ^ 48) with 281474976710656;
    change (2 ^ 63) with 9223372036854775808; try (unfold in_u; lia).
  unfold FromMicroseconds. rewrite swrap_id; [done|lia|unfold in_s; change (2 ^ (64 - 1)) with 9223372036854775808; lia].
Qed.

Lemma timestamp_recovered_witness :
  CalculateTimestampFromWire (mkDelta 4294967290) (4294967300 mod 2 ^ 32) = mkDelta 4294967300.
Proof.
  apply (timestamp_recovered (mkDelta 4294967290) 4294967300);
    [split; vm_compute; congruence | split; vm_compute; congruence | vm_compute; reflexivity].
Defined.
