(* ===== verification/FramerAppend.v ===== *)
(** * Writing frames: the [Append*] methods of [my_quic_framer.cc]

    Each method appends to the writer and returns [true] ([Ok]) or [false]
    ([Fail]).  Dereferencing a NULL frame pointer, or reading more data than
    the frame's buffer holds, is [Stuck]. *)

From S2P Require Import Prelude QuicTime FramerTypes FramerNumbers.

(** [MyQuicFramer::AckFrameInfo] *)
Record AckFrameInfo := mkAckInfo {
  max_block_length : Z; first_block_length : Z; num_ack_blocks : Z }.

(** [(total_gap + 255 - 1) / 255]: blocks a gap needs. *)
Definition encoded_gaps (total_gap : Z) : Z := u64 (total_gap + uint8_max - 1) / uint8_max.

Section Append.
Context `{T : QuicTypes} `{Q : PacketQueueOps} `{A : !AckOps} `{C : CryptoOps} `{F : QuicFunctions}
  `{R : ReaderOps} `{W : WriterOps} `{V : !VisitorOps} `{P : !ProducerOps}.

(** ** Shape of an ack *)

Definition interval_length (i : Z * Z) : Z := u64 (i.2 - i.1).

(** The loop over the intervals after the first. *)
Fixpoint ack_info_loop (l : list (Z * Z)) (previous_start : Z) (info : AckFrameInfo) : AckFrameInfo :=
  match l with
  | [] => info
  | interval :: l' =>
      if num_ack_blocks info <? uint8_max then
        let total_gap := u64 (previous_start - interval.2) in
        ack_info_loop l' interval.1
          {| max_block_length := Z.max (max_block_length info) (interval_length interval);
             first_block_length := first_block_length info;
             num_ack_blocks := u64 (num_ack_blocks info + encoded_gaps total_gap) |}
      else info
  end.

Definition GetAckFrameInfo (frame : QuicAckFrame) : AckFrameInfo :=
  match rev_intervals (packets frame) with
  | [] => mkAckInfo 0 0 0
  | first :: l =>
      ack_info_loop l first.1 (mkAckInfo (interval_length first) (interval_length first) 0)
  end.

Definition GetAckFrameTimeStampSize (ack : QuicAckFrame) : Z :=
  match received_packet_times ack with
  | [] => 0
  | l => 5 + 3 * (zlen l - 1)
  end.

Definition GetAckFrameSize (f : MyQuicFramer) (ack : QuicAckFrame) : Z :=
  let tv := transport_version (version_ f) in
  let ack_info := GetAckFrameInfo ack in
  let largest_acked_length := GetMinPacketNumberLength tv (LargestAcked ack) in
  let ack_block_length := GetMinPacketNumberLength tv (max_block_length ack_info) in
  let ack_size := GetMinAckFrameSize tv largest_acked_length + ack_block_length in
  let ack_size :=
    if negb (num_ack_blocks ack_info =? 0)
    then ack_size + kNumberOfAckBlocksSize +
         Z.min (num_ack_blocks ack_info) kMaxAckBlocks * (ack_block_length + PACKET_1BYTE_PACKET_NUMBER)
    else ack_size in
  if negb (use_incremental_ack_processing_ f)
  then ack_size + GetAckFrameTimeStampSize ack else ack_size.

(** The payload and type byte of each frame; a NULL pointer is [None]. *)
Definition ComputeFrameLength (f : MyQuicFramer) (frame : QuicFrame) (last_frame_in_packet : bool)
    (packet_number_length : Z) : option Z :=
  let tv := transport_version (version_ f) in
  match frame with
  | StreamFrame None | AckFrame None => None
  | StreamFrame (Some s) =>
      Some (GetMinStreamFrameSize tv (sf_stream_id s) (sf_offset s) last_frame_in_packet +
            sf_data_length s)
  | AckFrame (Some a) => Some (GetAckFrameSize f a)
  | StopWaitingFrame _ => Some (GetStopWaitingFrameSize tv packet_number_length)
  | MtuDiscoveryFrame | PingFrame => Some kQuicFrameTypeSize
  | RstStreamFrame _ => Some GetRstStreamFrameSize
  | ConnectionCloseFrame c =>
      Some (GetMinConnectionCloseFrameSize + zlen (TruncateErrorString (cc_error_details c)))
  | GoAwayFrame g => Some (GetMinGoAwayFrameSize + zlen (TruncateErrorString (ga_reason_phrase g)))
  | WindowUpdateFrame _ => Some GetWindowUpdateFrameSize
  | BlockedFrame _ => Some GetBlockedFrameSize
  | PaddingFrame _ | OtherFrame _ => Some 0
  end.

(** ** Fields *)

Definition AppendPacketNumber (packet_number_length packet_number : Z) : M env unit :=
  let length := packet_number_length in
  if negb (length =? 1) && negb (length =? 2) && negb (length =? 4) && negb (length =? 6) &&
     negb (length =? 8)
  then mfail
  else wr_op (WriteBytesToUInt64 packet_number_length packet_number).

Definition AppendStreamId (stream_id_length stream_id : Z) : M env unit :=
  if (stream_id_length =? 0) || (4 <? stream_id_length) then mfail
  else wr_op (WriteBytesToUInt64 stream_id_length stream_id).

Definition AppendStreamOffset (offset_length offset : Z) : M env unit :=
  if (offset_length =? 1) || (8 <? offset_length) then mfail
  else wr_op (WriteBytesToUInt64 offset_length offset).

Definition AppendAckBlock (gap length_length length : Z) : M env unit :=
  wr_op (WriteUInt8 gap) ;;
  AppendPacketNumber length_length length.

(** ** The type byte *)

(** Pre-40 stream type: 1FDOOOSS, built from the left with shifts. *)
Definition stream_type_byte_pre40 (tv : Z) (s : QuicStreamFrame) (no_stream_frame_length : bool) : Z :=
  let type_byte := if sf_fin s then kQuicStreamFinMask_Pre40 else 0 in
  let type_byte := u8 (Z.shiftl type_byte kQuicStreamDataLengthShift_Pre40) in
  let type_byte := Z.lor type_byte (if no_stream_frame_length then 0
                                    else kQuicStreamDataLengthMask_Pre40) in
  let type_byte := u8 (Z.shiftl type_byte kQuicStreamShift_Pre40) in
  let offset_len := GetStreamOffsetSize tv (sf_offset s) in
  let type_byte := if 0 <? offset_len then u8 (Z.lor type_byte (offset_len - 1)) else type_byte in
  let type_byte := u8 (Z.shiftl type_byte kQuicStreamIdShift_Pre40) in
  let type_byte := u8 (Z.lor type_byte (GetStreamIdSize (sf_stream_id s) - 1)) in
  Z.lor type_byte kQuicFrameTypeStreamMask_Pre40.

(** Stream type 11FSSOOD. *)
Definition stream_type_byte_41 (tv : Z) (s : QuicStreamFrame) (no_stream_frame_length : bool) : Z :=
  let type_byte := SetBit 0 (sf_fin s) kQuicStreamFinShift in
  let type_byte := SetBit type_byte (negb no_stream_frame_length) kQuicStreamDataLengthShift in
  let offset_len := GetStreamOffsetSize tv (sf_offset s) in
  let offset_len_encode :=
    if offset_len =? 0 then 0 else if offset_len =? 2 then 1 else if offset_len =? 4 then 2 else 3 in
  let type_byte := SetBits type_byte offset_len_encode kQuicStreamOffsetNumBits kQuicStreamOffsetShift in
  let type_byte := SetBits type_byte (GetStreamIdSize (sf_stream_id s) - 1)
                     kQuicStreamIDLengthNumBits kQuicStreamIDLengthShift in
  Z.lor type_byte kQuicFrameTypeStreamMask.

Definition AppendTypeByte (frame : QuicFrame) (no_stream_frame_length : bool) : M env unit :=
  tv ← tversion;
  match frame with
  | StreamFrame None => mstuck
  | StreamFrame (Some s) =>
      wr_op (WriteUInt8 (if negb (tv =? QUIC_VERSION_41)
                         then stream_type_byte_pre40 tv s no_stream_frame_length
                         else stream_type_byte_41 tv s no_stream_frame_length))
  | AckFrame _ => mret tt
  | MtuDiscoveryFrame => wr_op (WriteUInt8 (u8 PING_FRAME))
  | _ => wr_op (WriteUInt8 (u8 (frame_type frame)))
  end.

(** ** Stream frames *)

(** [writer->WriteBytes(frame.data_buffer, frame.data_length)] *)
Definition write_frame_data (s : QuicStreamFrame) : M env unit :=
  match load (default [] (sf_data_buffer s)) 0 (sf_data_length s) with
  | Some bs => wr_op (WriteBytes bs)
  | None => mstuck
  end.

Definition AppendStreamFrame (s : QuicStreamFrame) (no_stream_frame_length : bool) : M env unit :=
  tv ← tversion;
  AppendStreamId (GetStreamIdSize (sf_stream_id s)) (sf_stream_id s) ;;
  AppendStreamOffset (GetStreamOffsetSize tv (sf_offset s)) (sf_offset s) ;;
  (if no_stream_frame_length then mret tt
   else if uint16_max <? sf_data_length s then mfail
   else wr_op (WriteUInt16 (u16 (sf_data_length s)))) ;;
  p ← gets data_producer_;
  match p with
  | Some p =>
      if sf_data_length s =? 0 then mret tt
      else wr_op (WriteStreamData p (sf_stream_id s) (sf_offset s) (sf_data_length s))
  | None => write_frame_data s
  end.

(** ** Ack frames *)

(** The empty blocks of a gap longer than 255: [for (i = 1; i <
    num_encoded_gaps && written < num; ++i)].  Every round writes a block, so
    [num - written] rounds of fuel are enough. *)
Fixpoint append_empty_blocks (fuel : nat) (i num_encoded_gaps written num block_len : Z) : M env Z :=
  match fuel with
  | O => mret written
  | S fuel =>
      if (i <? num_encoded_gaps) && (written <? num) then
        AppendAckBlock uint8_max block_len 0 ;;
        append_empty_blocks fuel (i + 1) num_encoded_gaps (written + 1) num block_len
      else mret written
  end.

(** The loop over the intervals after the first. *)
Fixpoint append_ack_blocks (l : list (Z * Z)) (previous_start written num block_len : Z) : M env unit :=
  match l with
  | [] => mret tt
  | interval :: l' =>
      if written <? num then
        let total_gap := u64 (previous_start - interval.2) in
        let num_encoded_gaps := encoded_gaps total_gap in
        written ← append_empty_blocks (Z.to_nat (num - written)) 1 num_encoded_gaps written num block_len;
        if num <=? written then mret tt
        else
          let last_gap := u8 (total_gap - (num_encoded_gaps - 1) * uint8_max) in
          AppendAckBlock last_gap block_len (interval_length interval) ;;
          append_ack_blocks l' interval.1 (written + 1) num block_len
      else mret tt
  end.

(** The timestamps after the first. *)
Fixpoint append_timestamps (ack : QuicAckFrame) (l : list (Z * QuicTime)) (prev_time : QuicTime) :
    M env unit :=
  match l with
  | [] => mret tt
  | (pn, t) :: l' =>
      let delta_from_largest_observed := u64 (LargestAcked ack - pn) in
      require (delta_from_largest_observed <=? uint8_max) ;;
      wr_op (WriteUInt8 delta_from_largest_observed) ;;
      wr_op (WriteUFloat16 (u64 (ToMicroseconds (time_diff t prev_time)))) ;;
      append_timestamps ack l' t
  end.

Definition AppendTimestampsToAckFrame (ack : QuicAckFrame) (num_timestamps_offset : Z) : M env unit :=
  tv ← tversion;
  require (zlen (received_packet_times ack) <=? uint8_max) ;;
  let num_received_packets := zlen (received_packet_times ack) in
  (if negb (tv =? QUIC_VERSION_41) then wr_op (WriteBytes [num_received_packets])
   else wr_op (WriteUInt8AtOffset num_received_packets num_timestamps_offset)) ;;
  match received_packet_times ack with
  | [] => mret tt
  | (pn, t) :: l =>
      let delta_from_largest_observed := u64 (LargestAcked ack - pn) in
      require (delta_from_largest_observed <=? uint8_max) ;;
      wr_op (WriteUInt8 delta_from_largest_observed) ;;
      creation_time ← gets creation_time_;
      let time_delta_us := Z.land (u64 (ToMicroseconds (time_diff t creation_time)))
                             (Z.shiftl 1 32 - 1) in
      wr_op (WriteUInt32 time_delta_us) ;;
      append_timestamps ack l t
  end.

(** Bytes left for ack blocks: unsigned arithmetic, then an [int32_t]. *)
Definition available_ack_bytes (cap len tv largest_acked_length ack_block_length : Z)
    (info : AckFrameInfo) : Z :=
  s32 (u64 (cap - len - ack_block_length - GetMinAckFrameSize tv largest_acked_length -
            (if negb (num_ack_blocks info =? 0) then kNumberOfAckBlocksSize else 0))).

Definition ack_type_byte (tv largest_acked_length ack_block_length : Z) (info : AckFrameInfo) : Z :=
  let type_byte := SetBit 0 (negb (num_ack_blocks info =? 0))
                     (if negb (tv =? QUIC_VERSION_41) then kQuicHasMultipleAckBlocksOffset_Pre40
                      else kQuicHasMultipleAckBlocksOffset) in
  let type_byte := SetBits type_byte (GetPacketNumberFlags largest_acked_length)
                     kQuicSequenceNumberLengthNumBits kLargestAckedOffset in
  let type_byte := SetBits type_byte (GetPacketNumberFlags ack_block_length)
                     kQuicSequenceNumberLengthNumBits kActBlockLengthOffset in
  if negb (tv =? QUIC_VERSION_41) then Z.lor type_byte kQuicFrameTypeAckMask_Pre40
  else Z.lor type_byte kQuicFrameTypeAckMask.

Definition AppendAckFrameAndTypeByte (frame : QuicAckFrame) : M env unit :=
  tv ← tversion;
  let info := GetAckFrameInfo frame in
  let largest := LargestAcked frame in
  let largest_acked_length := GetMinPacketNumberLength tv largest in
  let ack_block_length := GetMinPacketNumberLength tv (max_block_length info) in
  cap ← wr_get capacity;
  len ← wr_get wlength;
  let available := available_ack_bytes cap len tv largest_acked_length ack_block_length info in
  wr_op (WriteUInt8 (ack_type_byte tv largest_acked_length ack_block_length info)) ;;
  let max_num_ack_blocks := u64 (Z.quot available (ack_block_length + PACKET_1BYTE_PACKET_NUMBER)) in
  let num := Z.min (num_ack_blocks info) max_num_ack_blocks in
  let num := if uint8_max <? num then uint8_max else num in
  (* one byte of a size_t on a little-endian machine *)
  num_timestamps_offset ←
    (if tv =? QUIC_VERSION_41 then
       (if 0 <? num then wr_op (WriteBytes [u8 num]) else mret tt) ;;
       off ← wr_get wlength;
       wr_op (WriteUInt8 0) ;;
       mret off
     else mret 0);
  AppendPacketNumber largest_acked_length largest ;;
  let ack_delay_time_us := if negb (IsInfinite (ack_delay_time frame))
                           then u64 (ToMicroseconds (ack_delay_time frame)) else kUFloat16MaxValue in
  wr_op (WriteUFloat16 ack_delay_time_us) ;;
  (if negb (tv =? QUIC_VERSION_41) && (0 <? num) then wr_op (WriteBytes [u8 num]) else mret tt) ;;
  AppendPacketNumber ack_block_length (first_block_length info) ;;
  (if 0 <? num then
     match rev_intervals (packets frame) with
     | [] => mstuck
     | first :: l => append_ack_blocks l first.1 0 num ack_block_length
     end
   else mret tt) ;;
  incremental ← gets use_incremental_ack_processing_;
  cap ← wr_get capacity;
  len ← wr_get wlength;
  if negb incremental && (GetAckFrameTimeStampSize frame <=? u64 (cap - len))
  then AppendTimestampsToAckFrame frame num_timestamps_offset
  else if negb (tv =? QUIC_VERSION_41) then wr_op (WriteBytes [0]) else mret tt.

(** ** Control frames *)

(** Shifting a 64-bit number by 64 or more is undefined. *)
Definition AppendStopWaitingFrame (header : QuicPacketHeader) (frame : QuicStopWaitingFrame) : M env unit :=
  let least_unacked_delta := u64 (packet_number header - least_unacked frame) in
  let length_shift := packet_number_length header * 8 in
  massert (length_shift <? 64) ;;
  require (Z.shiftr least_unacked_delta length_shift <=? 0) ;;
  AppendPacketNumber (packet_number_length header) least_unacked_delta.

Definition AppendRstStreamFrame (frame : QuicRstStreamFrame) : M env unit :=
  tv ← tversion;
  wr_op (WriteUInt32 (rst_stream_id frame)) ;;
  (if negb (tv =? QUIC_VERSION_41) then wr_op (WriteUInt64 (rst_byte_offset frame)) else mret tt) ;;
  wr_op (WriteUInt32 (u32 (rst_error_code frame))) ;;
  (if tv =? QUIC_VERSION_41 then wr_op (WriteUInt64 (rst_byte_offset frame)) else mret tt).

Definition AppendConnectionCloseFrame (frame : QuicConnectionCloseFrame) : M env unit :=
  wr_op (WriteUInt32 (u32 (cc_error_code frame))) ;;
  wr_op (WriteStringPiece16 (TruncateErrorString (cc_error_details frame))).

Definition AppendGoAwayFrame (frame : QuicGoAwayFrame) : M env unit :=
  wr_op (WriteUInt32 (u32 (ga_error_code frame))) ;;
  wr_op (WriteUInt32 (u32 (ga_last_good_stream_id frame))) ;;
  wr_op (WriteStringPiece16 (TruncateErrorString (ga_reason_phrase frame))).

Definition AppendWindowUpdateFrame (frame : QuicWindowUpdateFrame) : M env unit :=
  wr_op (WriteUInt32 (u32 (wu_stream_id frame))) ;;
  wr_op (WriteUInt64 (wu_byte_offset frame)).

Definition AppendBlockedFrame (frame : QuicBlockedFrame) : M env unit :=
  wr_op (WriteUInt32 (u32 (bl_stream_id frame))).

Definition AppendPaddingFrame (frame : QuicPaddingFrame) : M env unit :=
  tv ← tversion;
  if tv <=? QUIC_VERSION_37 then wr_mod WritePadding
  else if num_padding_bytes frame =? 0 then mfail
  else if num_padding_bytes frame <? 0 then wr_mod WritePadding
  else wr_op (WritePaddingBytes (num_padding_bytes frame - 1)).
End Append.
