(* ===== verification/FramerProcess.v ===== *)
(** * Reading frames: [ProcessFrameData] and the [Process*Frame] methods of
    [my_quic_framer.cc]

    A method returns the frame it filled in, [Fail] for [false].  The two loops
    that run until the reader is exhausted carry fuel; [FramerSafe] shows that
    one unit per remaining byte is enough. *)

From S2P Require Import Prelude QuicTime FramerTypes FramerNumbers FramerAppend.

Section Process.
Context `{T : QuicTypes} `{Q : PacketQueueOps} `{A : !AckOps} `{C : CryptoOps} `{F : QuicFunctions}
  `{R : ReaderOps} `{W : WriterOps} `{V : !VisitorOps}.

(** ** Stream frames *)

(** The lengths and flags in the type byte: stream id length, offset length,
    has data length, fin. *)
Definition stream_type_fields (tv frame_type : Z) : Z * Z * bool * bool :=
  let stream_flags := frame_type in
  if negb (tv =? QUIC_VERSION_41) then
    let stream_flags := Z.land stream_flags (u8 (Z.lnot kQuicFrameTypeStreamMask_Pre40)) in
    let stream_id_length := Z.land stream_flags kQuicStreamIDLengthMask_Pre40 + 1 in
    let stream_flags := Z.shiftr stream_flags kQuicStreamIdShift_Pre40 in
    let offset_length := Z.land stream_flags kQuicStreamOffsetMask_Pre40 in
    let offset_length := if 0 <? offset_length then offset_length + 1 else offset_length in
    let stream_flags := Z.shiftr stream_flags kQuicStreamShift_Pre40 in
    let has_data_length :=
      Z.land stream_flags kQuicStreamDataLengthMask_Pre40 =? kQuicStreamDataLengthMask_Pre40 in
    let stream_flags := Z.shiftr stream_flags kQuicStreamDataLengthShift_Pre40 in
    (stream_id_length, offset_length, has_data_length,
     Z.land stream_flags kQuicStreamFinMask_Pre40 =? kQuicStreamFinShift_Pre40)
  else
    let stream_flags := Z.land stream_flags (u8 (Z.lnot kQuicFrameTypeStreamMask)) in
    let stream_id_length := 1 + ExtractBits stream_flags kQuicStreamIDLengthNumBits
                                  kQuicStreamIDLengthShift in
    let offset_length := u8 (Z.shiftl 1 (ExtractBits stream_flags kQuicStreamOffsetNumBits
                                           kQuicStreamOffsetShift)) in
    let offset_length := if offset_length =? 1 then 0 else offset_length in
    (stream_id_length, offset_length, ExtractBit stream_flags kQuicStreamDataLengthShift,
     ExtractBit stream_flags kQuicStreamFinShift).

Definition ProcessStreamFrame (frame_type : Z) : M env QuicStreamFrame :=
  tv ← tversion;
  let '(stream_id_length, offset_length, has_data_length, fin) := stream_type_fields tv frame_type in
  stream_id ← or_detail "Unable to read stream_id." (rd_op (ReadBytesToUInt64 stream_id_length));
  offset ← or_detail "Unable to read offset." (rd_op (ReadBytesToUInt64 offset_length));
  data ← (if has_data_length : bool
          then or_detail "Unable to read frame data." (rd_op ReadStringPiece16)
          else n ← rd_get BytesRemaining;
               or_detail "Unable to read frame data." (rd_op (ReadStringPiece n)));
  mret (mkStreamFrame (u32 stream_id) fin offset (u16 (zlen data)) (Some data)).

(** ** Ack frames *)

(** The received-packet entries after the first. *)
Fixpoint process_timestamps (n : nat) (ack_frame : QuicAckFrame) : M env QuicAckFrame :=
  match n with
  | O => mret ack_frame
  | S n' =>
      delta_from_largest_observed ←
        or_detail "Unable to read sequence delta in received packets." (rd_op ReadUInt8);
      let seq_num := u64 (LargestAcked ack_frame - delta_from_largest_observed) in
      incremental_time_delta_us ←
        or_detail "Unable to read incremental time delta in received packets." (rd_op ReadUFloat16);
      last ← gets last_timestamp_;
      let last := delta_add last (FromMicroseconds incremental_time_delta_us) in
      mod_fr (put_last_timestamp last) ;;
      creation_time ← gets creation_time_;
      process_timestamps n'
        (mkAckFrame (largest_acked ack_frame) (ack_delay_time ack_frame)
           (received_packet_times ack_frame ++ [(seq_num, time_add creation_time last)])
           (packets ack_frame))
  end.

Definition ProcessTimestampsInAckFrame (num_received_packets : Z) (ack_frame : QuicAckFrame) :
    M env QuicAckFrame :=
  if 0 <? num_received_packets then
    delta_from_largest_observed ←
      or_detail "Unable to read sequence delta in received packets." (rd_op ReadUInt8);
    let seq_num := u64 (LargestAcked ack_frame - delta_from_largest_observed) in
    time_delta_us ← or_detail "Unable to read time delta in received packets." (rd_op ReadUInt32);
    last ← gets last_timestamp_;
    let last := CalculateTimestampFromWire last time_delta_us in
    mod_fr (put_last_timestamp last) ;;
    creation_time ← gets creation_time_;
    process_timestamps (Z.to_nat (num_received_packets - 1))
      (mkAckFrame (largest_acked ack_frame) (ack_delay_time ack_frame)
         (received_packet_times ack_frame ++ [(seq_num, time_add creation_time last)])
         (packets ack_frame))
  else mret ack_frame.

Definition suppressed : string := "Visitor suppresses further processing of ack frame.".

(** [!visitor_->On...(...)]: the visitor stops the ack frame. *)
Definition visit_ack (f : Visitor -> bool * Visitor) : M env unit :=
  b ← visit f;
  if b : bool then mret tt else set_detailed_error suppressed ;; mfail.

Definition add_range (lo hi : Z) (ack_frame : QuicAckFrame) : QuicAckFrame :=
  mkAckFrame (largest_acked ack_frame) (ack_delay_time ack_frame) (received_packet_times ack_frame)
    (AddRange lo hi (packets ack_frame)).

(** [for (i = 0; i < num_ack_blocks; ++i)] *)
Fixpoint process_ack_blocks (n : nat) (i num_ack_blocks ack_block_length first_received : Z)
    (ack_frame : QuicAckFrame) : M env QuicAckFrame :=
  match n with
  | O => mret ack_frame
  | S n' =>
      gap ← or_detail "Unable to read gap to next ack block." (rd_op ReadUInt8);
      current_block_length ←
        or_detail "Unable to ack block length." (rd_op (ReadBytesToUInt64 ack_block_length));
      (if first_received <? u64 (gap + current_block_length) then
         set_detailed_error (QuicStrCat [inl "Underflow with ack block length "%string;
           inr current_block_length; inl ", end of block is "%string; inr (u64 (first_received - gap));
           inl "."%string]) ;; mfail
       else mret tt) ;;
      let first_received := u64 (first_received - u64 (gap + current_block_length)) in
      incremental ← gets use_incremental_ack_processing_;
      ack_frame ←
        (if 0 <? current_block_length then
           if incremental : bool
           then visit_ack (OnAckRange first_received (u64 (first_received + current_block_length))
                             (i + 1 =? num_ack_blocks)) ;; mret ack_frame
           else mret (add_range first_received (u64 (first_received + current_block_length)) ack_frame)
         else mret ack_frame);
      process_ack_blocks n' (i + 1) num_ack_blocks ack_block_length first_received ack_frame
  end.

Definition ack_delay_from_wire (us : Z) : Delta :=
  if us =? kUFloat16MaxValue then Delta_Infinite else FromMicroseconds us.

Definition ProcessAckFrame (frame_type : Z) (ack_frame : QuicAckFrame) : M env QuicAckFrame :=
  tv ← tversion;
  let has_ack_blocks :=
    ExtractBit frame_type (if negb (tv =? QUIC_VERSION_41) then kQuicHasMultipleAckBlocksOffset_Pre40
                           else kQuicHasMultipleAckBlocksOffset) in
  counts ← (if tv =? QUIC_VERSION_41 then
              n ← (if has_ack_blocks
                   then or_detail "Unable to read num of ack blocks." (rd_op ReadUInt8) else mret 0);
              p ← or_detail "Unable to read num received packets." (rd_op ReadUInt8);
              mret (n, p)
            else mret (0, 0));
  let ack_block_length := ReadAckPacketNumberLength tv
    (ExtractBits frame_type kQuicSequenceNumberLengthNumBits kActBlockLengthOffset) in
  let largest_acked_length := ReadAckPacketNumberLength tv
    (ExtractBits frame_type kQuicSequenceNumberLengthNumBits kLargestAckedOffset) in
  largest ← or_detail "Unable to read largest acked." (rd_op (ReadBytesToUInt64 largest_acked_length));
  ack_delay_time_us ← or_detail "Unable to read ack delay time." (rd_op ReadUFloat16);
  incremental ← gets use_incremental_ack_processing_;
  let ack_frame :=
    if negb incremental
    then mkAckFrame (largest_acked ack_frame) (ack_delay_from_wire ack_delay_time_us)
           (received_packet_times ack_frame) (packets ack_frame)
    else ack_frame in
  (if incremental : bool
   then visit_ack (OnAckFrameStart largest (ack_delay_from_wire ack_delay_time_us))
   else mret tt) ;;
  num_ack_blocks ←
    (if has_ack_blocks && negb (tv =? QUIC_VERSION_41)
     then or_detail "Unable to read num of ack blocks." (rd_op ReadUInt8) else mret counts.1);
  first_block_length ←
    or_detail "Unable to read first ack block length." (rd_op (ReadBytesToUInt64 ack_block_length));
  (if (first_block_length =? 0) && (negb (largest =? 0) || negb (num_ack_blocks =? 0)) then
     set_detailed_error (QuicStrCat [inl "First block length is zero but ACK is not empty. largest acked is "%string;
       inr largest; inl ", num ack blocks is "%string; inl (Uint64ToString num_ack_blocks); inl "."%string]) ;;
     mfail
   else mret tt) ;;
  (if u64 (largest + 1) <? first_block_length then
     set_detailed_error (QuicStrCat [inl "Underflow with first ack block length "%string;
       inr first_block_length; inl " largest acked is "%string; inr largest; inl "."%string]) ;;
     mfail
   else mret tt) ;;
  let first_received := u64 (largest + 1 - first_block_length) in
  ack_frame ←
    (if incremental : bool
     then visit_ack (OnAckRange first_received (u64 (largest + 1)) (negb has_ack_blocks)) ;;
          mret ack_frame
     else mret (add_range first_received (u64 (largest + 1))
                  (mkAckFrame largest (ack_delay_time ack_frame) (received_packet_times ack_frame)
                     (packets ack_frame))));
  ack_frame ← process_ack_blocks (Z.to_nat num_ack_blocks) 0 num_ack_blocks ack_block_length
                first_received ack_frame;
  num_received_packets ←
    (if negb (tv =? QUIC_VERSION_41)
     then or_detail "Unable to read num received packets." (rd_op ReadUInt8) else mret counts.2);
  ProcessTimestampsInAckFrame num_received_packets ack_frame.

(** ** Control frames *)

Definition ProcessStopWaitingFrame (header : QuicPacketHeader) : M env QuicStopWaitingFrame :=
  least_unacked_delta ←
    or_detail "Unable to read least unacked delta." (rd_op (ReadBytesToUInt64 (packet_number_length header)));
  (if packet_number header <? least_unacked_delta
   then set_detailed_error "Invalid unacked delta." ;; mfail else mret tt) ;;
  mret (mkStopWaiting (packet_number header - least_unacked_delta)).

Definition ProcessRstStreamFrame : M env QuicRstStreamFrame :=
  tv ← tversion;
  stream_id ← or_detail "Unable to read stream_id." (rd_op ReadUInt32);
  offset ← (if negb (tv =? QUIC_VERSION_41)
            then or_detail "Unable to read rst stream sent byte offset." (rd_op ReadUInt64) else mret 0);
  error_code ← or_detail "Unable to read rst stream error code." (rd_op ReadUInt32);
  let error_code := if QUIC_STREAM_LAST_ERROR <=? error_code then QUIC_STREAM_LAST_ERROR else error_code in
  offset ← (if tv =? QUIC_VERSION_41
            then or_detail "Unable to read rst stream sent byte offset." (rd_op ReadUInt64)
            else mret offset);
  mret (mkRst stream_id error_code offset).

Definition ProcessConnectionCloseFrame : M env QuicConnectionCloseFrame :=
  error_code ← or_detail "Unable to read connection close error code." (rd_op ReadUInt32);
  let error_code := if QUIC_LAST_ERROR <=? error_code then QUIC_LAST_ERROR else error_code in
  error_details ← or_detail "Unable to read connection close error details." (rd_op ReadStringPiece16);
  mret (mkClose error_code error_details).

Definition ProcessGoAwayFrame : M env QuicGoAwayFrame :=
  error_code ← or_detail "Unable to read go away error code." (rd_op ReadUInt32);
  let error_code := if QUIC_LAST_ERROR <=? error_code then QUIC_LAST_ERROR else error_code in
  stream_id ← or_detail "Unable to read last good stream id." (rd_op ReadUInt32);
  reason_phrase ← or_detail "Unable to read goaway reason." (rd_op ReadStringPiece16);
  mret (mkGoAway error_code stream_id reason_phrase).

Definition ProcessWindowUpdateFrame : M env QuicWindowUpdateFrame :=
  stream_id ← or_detail "Unable to read stream_id." (rd_op ReadUInt32);
  byte_offset ← or_detail "Unable to read window byte_offset." (rd_op ReadUInt64);
  mret (mkWindowUpdate stream_id byte_offset).

Definition ProcessBlockedFrame : M env QuicBlockedFrame :=
  stream_id ← or_detail "Unable to read stream_id." (rd_op ReadUInt32);
  mret (mkBlocked stream_id).

(** [while (!IsDoneReading() && PeekByte() == 0x00)]; the result of the read is
    not looked at. *)
Fixpoint padding_loop (fuel : nat) (n : Z) : M env Z :=
  done ← rd_get IsDoneReading;
  b ← rd_get PeekByte;
  if negb done && (b =? 0) then
    match fuel with
    | O => mstuck
    | S fuel =>
        or_else (rd_op (ReadBytes 1) ;; mret tt) (mret tt) ;;
        padding_loop fuel (n + 1)
    end
  else mret n.

Definition read_remaining : M env (list Z) := fun e =>
  let (bs, r) := ReadRemainingPayload (rd e) in (Ok bs, put_rd r e).

Definition ProcessPaddingFrame : M env QuicPaddingFrame :=
  tv ← tversion;
  remaining ← rd_get BytesRemaining;
  if tv <=? QUIC_VERSION_37 then
    read_remaining ;;
    mret (mkPadding (remaining + 1))
  else
    n ← padding_loop (Z.to_nat remaining) 1;
    mret (mkPadding n).

(** ** The frame loop *)

(** Is [frame_type] a stream, respectively an ack frame in this version? *)
Definition is_stream_type (tv frame_type : Z) : bool :=
  (negb (tv =? QUIC_VERSION_41) && has_bits frame_type kQuicFrameTypeStreamMask_Pre40) ||
  ((QUIC_VERSION_41 <=? tv) &&
   (Z.land frame_type kQuicFrameTypeStreamMask =? kQuicFrameTypeStreamMask)).

Definition is_ack_type (tv frame_type : Z) : bool :=
  (negb (tv =? QUIC_VERSION_41) && has_bits frame_type kQuicFrameTypeAckMask_Pre40) ||
  ((QUIC_VERSION_41 <=? tv) &&
   (Z.land frame_type kQuicFrameTypeSpecialMask =? kQuicFrameTypeAckMask)).

Definition new_ack_frame : QuicAckFrame := mkAckFrame 0 Delta_Infinite [] empty_queue.

(** One round of the loop; the result says whether the visitor lets the loop go
    on. *)
Definition process_frame (header : QuicPacketHeader) (frame_type : Z) : M env bool :=
  tv ← tversion;
  if has_bits frame_type kQuicFrameTypeSpecialMask then
    if is_stream_type tv frame_type then
      frame ← or_raise QUIC_INVALID_STREAM_DATA (ProcessStreamFrame frame_type);
      visit (OnStreamFrame frame)
    else if is_ack_type tv frame_type then
      frame ← or_raise QUIC_INVALID_ACK_DATA (ProcessAckFrame frame_type new_ack_frame);
      incremental ← gets use_incremental_ack_processing_;
      if incremental : bool then mret true else visit (OnAckFrame frame)
    else
      set_detailed_error "Illegal frame type." ;;
      RaiseError QUIC_INVALID_FRAME_DATA
  else if frame_type =? PADDING_FRAME then
    frame ← ProcessPaddingFrame;
    visit (OnPaddingFrame frame)
  else if frame_type =? RST_STREAM_FRAME then
    frame ← or_raise QUIC_INVALID_RST_STREAM_DATA ProcessRstStreamFrame;
    visit (OnRstStreamFrame frame)
  else if frame_type =? CONNECTION_CLOSE_FRAME then
    frame ← or_raise QUIC_INVALID_CONNECTION_CLOSE_DATA ProcessConnectionCloseFrame;
    visit (OnConnectionCloseFrame frame)
  else if frame_type =? GOAWAY_FRAME then
    frame ← or_raise QUIC_INVALID_GOAWAY_DATA ProcessGoAwayFrame;
    visit (OnGoAwayFrame frame)
  else if frame_type =? WINDOW_UPDATE_FRAME then
    frame ← or_raise QUIC_INVALID_WINDOW_UPDATE_DATA ProcessWindowUpdateFrame;
    visit (OnWindowUpdateFrame frame)
  else if frame_type =? BLOCKED_FRAME then
    frame ← or_raise QUIC_INVALID_BLOCKED_DATA ProcessBlockedFrame;
    visit (OnBlockedFrame frame)
  else if frame_type =? STOP_WAITING_FRAME then
    frame ← or_raise QUIC_INVALID_STOP_WAITING_DATA (ProcessStopWaitingFrame header);
    visit (OnStopWaitingFrame frame)
  else if frame_type =? PING_FRAME then
    visit OnPingFrame
  else
    set_detailed_error "Illegal frame type." ;;
    RaiseError QUIC_INVALID_FRAME_DATA.

Fixpoint frame_loop (fuel : nat) (header : QuicPacketHeader) : M env unit :=
  done ← rd_get IsDoneReading;
  if done : bool then mret tt
  else match fuel with
  | O => mstuck
  | S fuel =>
      bs ← or_else (rd_op (ReadBytes 1))
             (set_detailed_error "Unable to read frame type." ;; RaiseError QUIC_INVALID_FRAME_DATA);
      continue ← process_frame header (bs !!! 0%nat);
      if continue : bool then frame_loop fuel header else mret tt
  end.

Definition ProcessFrameData (header : QuicPacketHeader) : M env unit :=
  done ← rd_get IsDoneReading;
  if done : bool then
    set_detailed_error "Packet has no frames." ;;
    RaiseError QUIC_MISSING_PAYLOAD
  else
    n ← rd_get BytesRemaining;
    frame_loop (Z.to_nat n) header.
End Process.
