(* ===== verification/FramerIetf.v ===== *)
(** * IETF frames: the [*Ietf*] methods of [my_quic_framer.cc]

    The writers append the type byte too.  The readers are called after it. *)

From S2P Require Import Prelude QuicTime FramerTypes FramerNumbers FramerAppend FramerProcess.

Section Ietf.
Context `{T : QuicTypes} `{Q : PacketQueueOps} `{A : !AckOps} `{C : CryptoOps} `{F : QuicFunctions}
  `{R : ReaderOps} `{W : WriterOps} `{V : !VisitorOps} `{P : !ProducerOps}.

(** ** Stream frames *)

Definition ProcessIetfStreamFrame (frame_type : Z) : M env QuicStreamFrame :=
  stream_id ← or_detail "Unable to read stream_id." (rd_op ReadVarIntStreamId);
  offset ← (if has_bits frame_type IETF_STREAM_FRAME_OFF_BIT
            then or_detail "Unable to read stream data offset." (rd_op ReadVarInt62) else mret 0);
  data_length ←
    (if has_bits frame_type IETF_STREAM_FRAME_LEN_BIT then
       length ← or_detail "Unable to read stream data length." (rd_op ReadVarInt62);
       if 0xffff <? length then set_detailed_error "Stream data length is too large." ;; mfail
       else mret length
     else n ← rd_get BytesRemaining; mret (u16 n));
  let fin := has_bits frame_type IETF_STREAM_FRAME_FIN_BIT in
  data ← or_detail "Unable to read frame data." (rd_op (ReadStringPiece data_length));
  mret (mkStreamFrame stream_id fin offset (u16 (zlen data)) (Some data)).

Definition ietf_stream_type (frame : QuicStreamFrame) (last_frame_in_packet : bool) : Z :=
  let t := u8 IETF_STREAM in
  let t := if sf_fin frame then u8 (Z.lor t IETF_STREAM_FRAME_FIN_BIT) else t in
  let t := if negb (sf_offset frame =? 0) then u8 (Z.lor t IETF_STREAM_FRAME_OFF_BIT) else t in
  if negb last_frame_in_packet then u8 (Z.lor t IETF_STREAM_FRAME_LEN_BIT) else t.

Definition AppendIetfStreamFrame (frame : QuicStreamFrame) (last_frame_in_packet : bool) : M env unit :=
  let frame_type := ietf_stream_type frame last_frame_in_packet in
  or_detail "Unable to write frame-type." (wr_op (WriteUInt8 frame_type)) ;;
  or_detail "Writing stream id failed." (wr_op (WriteVarInt62 (sf_stream_id frame))) ;;
  (if has_bits frame_type IETF_STREAM_FRAME_OFF_BIT
   then or_detail "Writing data offset failed." (wr_op (WriteVarInt62 (sf_offset frame)))
   else mret tt) ;;
  (if has_bits frame_type IETF_STREAM_FRAME_LEN_BIT
   then or_detail "Writing data length failed." (wr_op (WriteVarInt62 (sf_data_length frame)))
   else mret tt) ;;
  p ← gets data_producer_;
  match p with
  | None => or_detail "Writing frame data failed." (write_frame_data frame)
  | Some p =>
      or_detail "Writing frame data failed."
        (wr_op (WriteStreamData p (sf_stream_id frame) (sf_offset frame) (sf_data_length frame)))
  end.

(** ** Ack frames *)

(** [while (ack_block_count != 0)].  Every round reads at least a byte, so the
    bytes remaining bound the rounds. *)
Fixpoint ietf_ack_loop (fuel : nat) (ack_block_count block_high block_low : Z)
    (ack_frame : QuicAckFrame) : M env QuicAckFrame :=
  if ack_block_count =? 0 then mret ack_frame
  else match fuel with
  | O => mstuck
  | S fuel =>
      gap_block_value ← or_detail "Unable to read gap block value." (rd_op ReadVarInt62);
      ack_block_value ← or_detail "Unable to read gap block value." (rd_op ReadVarInt62);
      let block_high := u64 (block_high - (ack_block_value + gap_block_value + 2)) in
      let block_low := u64 (block_low - (ack_block_value + gap_block_value + 2)) in
      ietf_ack_loop fuel (ack_block_count - 1) block_high block_low
        (add_range block_low block_high ack_frame)
  end.

Definition ProcessIetfAckFrame (frame_type : Z) (ack_frame : QuicAckFrame) : M env QuicAckFrame :=
  largest ← or_detail "Unable to read largest acked." (rd_op ReadVarInt62);
  us ← or_detail "Unable to read ack-delay-time." (rd_op ReadVarInt62);
  let us := u64 (Z.shiftl us kIetfAckTimestampShift) in
  let delay := if us =? 0x3ffffffffff8 then Delta_Infinite else FromMicroseconds us in
  ack_block_count ← or_detail "Unable to ack block count." (rd_op ReadVarInt62);
  ack_block_value ← or_detail "Unable to read first ack block value." (rd_op ReadVarInt62);
  let block_high := u64 (largest + 1) in
  let block_low := u64 (largest - ack_block_value) in
  n ← rd_get BytesRemaining;
  ietf_ack_loop (S (Z.to_nat n)) ack_block_count block_high block_low
    (add_range block_low block_high
       (mkAckFrame largest delay (received_packet_times ack_frame) (packets ack_frame))).

(** [while (ack_block_count)]: [itr++] and write a gap and a block; the count
    is one less than the number of intervals. *)
Fixpoint append_ietf_blocks (l : list (Z * Z)) (previous_ack_end : Z) : M env unit :=
  match l with
  | [] => mret tt
  | interval :: l' =>
      let gap := u64 (previous_ack_end - interval.2 - 1) in
      or_detail "No room for gap block in ack frame" (wr_op (WriteVarInt62 gap)) ;;
      let block_length := u64 (interval.2 - interval.1) in
      require (negb (block_length =? 0)) ;;
      or_detail "No room for nth ack block in ack frame" (wr_op (WriteVarInt62 (block_length - 1))) ;;
      append_ietf_blocks l' interval.1
  end.

Definition AppendIetfAckFrame (frame : QuicAckFrame) : M env unit :=
  or_detail "No room for frame-type" (wr_op (WriteUInt8 IETF_ACK)) ;;
  or_detail "No room for largest-acked in ack frame" (wr_op (WriteVarInt62 (LargestAcked frame))) ;;
  require (negb (IsInfinite (ack_delay_time frame))) ;;
  let us := Z.shiftr (u64 (ToMicroseconds (ack_delay_time frame))) kIetfAckTimestampShift in
  or_detail "No room for ack-delay in ack frame" (wr_op (WriteVarInt62 us)) ;;
  match rev_intervals (packets frame) with
  | [] => mfail
  | first :: l =>
      or_detail "No room for ack block count in ack frame" (wr_op (WriteVarInt62 (zlen l))) ;;
      let block_length := u64 (first.2 - first.1) in
      require (negb (block_length =? 0)) ;;
      or_detail "No room for first ack block in ack frame" (wr_op (WriteVarInt62 (block_length - 1))) ;;
      append_ietf_blocks l first.1
  end.

(** ** Close frames *)

Definition AppendIetfCloseFrame (type code : Z) (phrase : list Z) : M env unit :=
  or_detail "Can not write close frame type byte" (wr_op (WriteUInt8 type)) ;;
  or_detail "Can not write close frame code" (wr_op (WriteUInt16 code)) ;;
  or_detail "Can not write phrase-length" (wr_op (WriteVarInt62 (zlen phrase))) ;;
  match phrase with
  | [] => mret tt
  | _ => or_detail "Can not write phrase" (wr_op (WriteBytes phrase))
  end.

Definition AppendIetfConnectionCloseFrame (frame : QuicConnectionCloseFrame) : M env unit :=
  AppendIetfCloseFrame IETF_CONNECTION_CLOSE (u16 (cc_error_code frame)) (cc_error_details frame).

Definition AppendIetfApplicationCloseFrame (frame : QuicConnectionCloseFrame) : M env unit :=
  AppendIetfCloseFrame IETF_APPLICATION_CLOSE (u16 (cc_error_code frame)) (cc_error_details frame).

Definition ProcessIetfCloseFrame (frame_type : Z) : M env QuicConnectionCloseFrame :=
  code ← or_detail "Unable to read close frame code." (rd_op ReadUInt16);
  phrase_length ← or_detail "Unable to read phrase length" (rd_op ReadVarInt62);
  phrase ← or_detail "Can not read extended close information phrase"
             (rd_op (ReadStringPiece phrase_length));
  mret (mkClose code phrase).

Definition ProcessIetfConnectionCloseFrame (frame_type : Z) : M env QuicConnectionCloseFrame :=
  ProcessIetfCloseFrame frame_type.

Definition ProcessIetfApplicationCloseFrame (frame_type : Z) : M env QuicConnectionCloseFrame :=
  ProcessIetfCloseFrame frame_type.

(** ** Padding, path challenge and response *)

Definition AppendIetfPaddingFrame (frame : QuicPaddingFrame) : M env unit :=
  or_detail "Can not write close frame type byte" (wr_op (WriteUInt8 0)) ;;
  AppendPaddingFrame frame.

Definition ProcessIetfPaddingFrame : M env QuicPaddingFrame := ProcessPaddingFrame.

Definition ProcessIetfPathChallengeFrame : M env QuicPathFrame :=
  bs ← or_detail "Can not read path Challenge data" (rd_op (ReadBytes kQuicPathFrameBufferSize));
  mret (mkPath bs).

Definition ProcessIetfPathResponseFrame : M env QuicPathFrame :=
  bs ← or_detail "Can not read path Response data" (rd_op (ReadBytes kQuicPathFrameBufferSize));
  mret (mkPath bs).

(** [writer->WriteBytes(frame.data_buffer.data(), kQuicPathFrameBufferSize)] *)
Definition write_path_data (frame : QuicPathFrame) : M env unit :=
  match load (path_data_buffer frame) 0 kQuicPathFrameBufferSize with
  | Some bs => wr_op (WriteBytes bs)
  | None => mstuck
  end.

Definition AppendIetfPathChallengeFrame (frame : QuicPathFrame) : M env unit :=
  or_detail "Can not write Path Challenge frame type byte" (wr_op (WriteUInt8 IETF_PATH_CHALLENGE)) ;;
  or_detail "Writing Path Challenge data failed." (write_path_data frame).

Definition AppendIetfPathResponseFrame (frame : QuicPathFrame) : M env unit :=
  or_detail "Can not write Path Response frame type byte" (wr_op (WriteUInt8 IETF_PATH_RESPONSE)) ;;
  or_detail "Writing Path Response data failed." (write_path_data frame).

(** ** Stream reset, stop sending *)

Definition AppendIetfResetStreamFrame (frame : QuicRstStreamFrame) : M env unit :=
  or_detail "Unable to write reset-stream frame-type." (wr_op (WriteUInt8 IETF_RST_STREAM)) ;;
  or_detail "Writing reset-stream stream id failed." (wr_op (WriteVarInt62 (rst_stream_id frame))) ;;
  or_detail "Writing reset-stream error code failed."
    (wr_op (WriteUInt16 (u16 (rst_error_code frame)))) ;;
  or_detail "Writing reset-stream final-offset failed." (wr_op (WriteVarInt62 (rst_byte_offset frame))).

Definition ProcessIetfResetStreamFrame : M env QuicRstStreamFrame :=
  stream_id ← or_detail "Reading reset-stream stream id failed." (rd_op ReadVarIntStreamId);
  code ← or_detail "Reading reset-stream error code failed." (rd_op ReadUInt16);
  offset ← or_detail "Reading reset-stream final-offset failed." (rd_op ReadVarInt62);
  mret (mkRst stream_id code offset).

Definition ProcessIetfStopSendingFrame : M env QuicStopSendingFrame :=
  stream_id ← or_detail "Unable to read stream id" (rd_op ReadVarIntStreamId);
  code ← or_detail "Unable to read application error code." (rd_op ReadUInt16);
  mret (mkStopSending stream_id code).

Definition AppendIetfStopSendingFrame (frame : QuicStopSendingFrame) : M env unit :=
  or_detail "Can not write stop sending frame type byte" (wr_op (WriteUInt8 IETF_STOP_SENDING)) ;;
  or_detail "Can not write stop sending stream id" (wr_op (WriteVarInt62 (ss_stream_id frame))) ;;
  or_detail "Can not write application error code"
    (wr_op (WriteUInt16 (ss_application_error_code frame))).

(** ** Flow control *)

Definition AppendIetfMaxDataFrame (frame : QuicWindowUpdateFrame) : M env unit :=
  or_detail "Can not write IETF_MAX_DATA frame type byte" (wr_op (WriteUInt8 IETF_MAX_DATA)) ;;
  or_detail "Can not write IETF_MAX_DATA byte-offset" (wr_op (WriteVarInt62 (wu_byte_offset frame))).

Definition ProcessIetfMaxDataFrame : M env QuicWindowUpdateFrame :=
  offset ← or_detail "Can not read IETF_MAX_DATA byte-offset" (rd_op ReadVarInt62);
  mret (mkWindowUpdate 0 offset).

Definition AppendIetfMaxStreamDataFrame (frame : QuicWindowUpdateFrame) : M env unit :=
  or_detail "Can not write IETF_MAX_STREAM_DATA frame type byte"
    (wr_op (WriteUInt8 IETF_MAX_STREAM_DATA)) ;;
  or_detail "Can not write IETF_MAX_STREAM_DATA stream id" (wr_op (WriteVarInt62 (wu_stream_id frame))) ;;
  or_detail "Can not write IETF_MAX_STREAM_DATA byte-offset"
    (wr_op (WriteVarInt62 (wu_byte_offset frame))).

Definition ProcessIetfMaxStreamDataFrame : M env QuicWindowUpdateFrame :=
  stream_id ← or_detail "Can not read IETF_MAX_STREAM_DATA stream id" (rd_op ReadVarIntStreamId);
  offset ← or_detail "Can not read IETF_MAX_STREAM_DATA byte-count" (rd_op ReadVarInt62);
  mret (mkWindowUpdate stream_id offset).

Definition AppendIetfMaxStreamIdFrame (frame : QuicIetfMaxStreamIdFrame) : M env unit :=
  or_detail "Can not write IETF_MAX_STREAM_ID frame type byte" (wr_op (WriteUInt8 IETF_MAX_STREAM_ID)) ;;
  or_detail "Can not write IETF_MAX_STREAM_ID stream id" (wr_op (WriteVarInt62 (max_stream_id frame))).

Definition ProcessIetfMaxStreamIdFrame : M env QuicIetfMaxStreamIdFrame :=
  id ← or_detail "Can not read IETF_MAX_STREAM_ID stream id" (rd_op ReadVarIntStreamId);
  mret (mkMaxStreamId id).

Definition AppendIetfBlockedFrame (frame : QuicIetfBlockedFrame) : M env unit :=
  or_detail "Can not write IETF_BLOCKED frame type byte" (wr_op (WriteUInt8 IETF_BLOCKED)) ;;
  or_detail "Can not write IETF_BLOCKED offset" (wr_op (WriteVarInt62 (ib_offset frame))).

Definition ProcessIetfBlockedFrame : M env QuicIetfBlockedFrame :=
  offset ← or_detail "Can not read IETF_BLOCKED offset" (rd_op ReadVarInt62);
  mret (mkIetfBlocked offset).

Definition AppendIetfStreamBlockedFrame (frame : QuicWindowUpdateFrame) : M env unit :=
  or_detail "Can not write IETF_STREAM_BLOCKED frame type byte"
    (wr_op (WriteUInt8 IETF_STREAM_BLOCKED)) ;;
  or_detail "Can not write IETF_STREAM_BLOCKED stream id" (wr_op (WriteVarInt62 (wu_stream_id frame))) ;;
  or_detail "Can not write IETF_STREAM_BLOCKED offset" (wr_op (WriteVarInt62 (wu_byte_offset frame))).

Definition ProcessIetfStreamBlockedFrame : M env QuicWindowUpdateFrame :=
  stream_id ← or_detail "Can not read IETF_STREAM_BLOCKED stream id" (rd_op ReadVarIntStreamId);
  offset ← or_detail "Can not read IETF_STREAM_BLOCKED offset" (rd_op ReadVarInt62);
  mret (mkWindowUpdate stream_id offset).

Definition AppendIetfStreamIdBlockedFrame (frame : QuicIetfStreamIdBlockedFrame) : M env unit :=
  or_detail "Can not write IETF_STREAM_ID_BLOCKED frame type byte"
    (wr_op (WriteUInt8 IETF_STREAM_ID_BLOCKED)) ;;
  or_detail "Can not write IETF_STREAM_ID_BLOCKED stream id" (wr_op (WriteVarInt62 (sib_stream_id frame))).

Definition ProcessIetfStreamIdBlockedFrame : M env QuicIetfStreamIdBlockedFrame :=
  id ← or_detail "Can not read IETF_STREAM_ID_BLOCKED stream id" (rd_op ReadVarIntStreamId);
  mret (mkStreamIdBlocked id).
End Ietf.
