(* ===== verification/FramerPacket.v ===== *)
(** * Packets: headers, building, processing, encryption

    [my_quic_framer.cc]: the constructor, the version checks, the packet
    builders, [ProcessPacket] and what it calls up to [ProcessFrameData], and
    the crypto methods.  Static builders run on a writer of their own. *)

From S2P Require Import Prelude QuicTime FramerTypes FramerNumbers FramerAppend FramerProcess.

Section Packet.
Context `{T : QuicTypes} `{Q : PacketQueueOps} `{A : !AckOps} `{C : CryptoOps} `{F : QuicFunctions}
  `{R : ReaderOps} `{W : WriterOps} `{V : !VisitorOps} `{P : !ProducerOps}.

(** ** Construction and versions *)

(** [encrypter_] has [NUM_ENCRYPTION_LEVELS] slots; [supported_versions[0]] of
    an empty list is out of range ([None]). *)
Definition new_framer (supported_versions : list ParsedQuicVersion) (creation_time : QuicTime)
    (perspective : Perspective) : option MyQuicFramer :=
  match supported_versions with
  | [] => None
  | v :: _ =>
      Some {| detailed_error_ := ""; visitor_ := false; error_ := QUIC_NO_ERROR;
              largest_packet_number_ := 0; last_serialized_connection_id_ := 0;
              last_version_label_ := 0; last_packet_is_ietf_quic_ := false; version_ := v;
              supported_versions_ := supported_versions;
              decrypter_ := Some (NullDecrypter perspective); alternative_decrypter_ := None;
              decrypter_level_ := ENCRYPTION_NONE; alternative_decrypter_level_ := ENCRYPTION_NONE;
              alternative_decrypter_latch_ := false;
              encrypter_ := <[Z.to_nat ENCRYPTION_NONE := Some (NullEncrypter perspective)]>
                              (replicate (Z.to_nat NUM_ENCRYPTION_LEVELS) None);
              perspective_ := perspective; validate_flags_ := true;
              creation_time_ := creation_time; last_timestamp_ := Delta_Zero;
              last_nonce_ := replicate (Z.to_nat kDiversificationNonceSize) 0;
              data_producer_ := None; use_incremental_ack_processing_ := true |}
  end.

Definition IsSupportedTransportVersion (f : MyQuicFramer) (version : Z) : bool :=
  existsb (fun v => version =? transport_version v) (supported_versions_ f).

Definition IsSupportedVersion (f : MyQuicFramer) (version : ParsedQuicVersion) : bool :=
  existsb (fun v => bool_decide (version = v)) (supported_versions_ f).

Definition set_version (version : ParsedQuicVersion) : M env unit := mod_fr (put_version version).

Definition SetSupportedVersions (versions : list ParsedQuicVersion) : M env unit :=
  match versions with
  | [] => mstuck
  | v :: _ => mod_fr (fun f => put_version v (put_supported_versions versions f))
  end.

Definition endianness (f : MyQuicFramer) : Endianness :=
  if QUIC_VERSION_38 <? transport_version (version_ f) then NETWORK_BYTE_ORDER else HOST_BYTE_ORDER.

(** ** How much of a frame fits *)

Definition GetSerializedFrameLength (frame : QuicFrame) (free_bytes : Z) (first_frame last_frame : bool)
    (packet_number_length : Z) : M env Z :=
  match frame with
  | StreamFrame None | AckFrame None =>
      set_error QUIC_INTERNAL_ERROR ;;
      f ← gets id;
      notify (OnError f) ;;
      mret 0
  | PaddingFrame p =>
      if num_padding_bytes p =? -1 then mret free_bytes
      else if free_bytes <? u64 (num_padding_bytes p) then mret free_bytes
      else mret (u64 (num_padding_bytes p))
  | _ =>
      f ← gets id;
      match ComputeFrameLength f frame last_frame packet_number_length with
      | None => mstuck
      | Some frame_len =>
          if frame_len <=? free_bytes then mret frame_len
          else if negb first_frame then mret 0
          else
            let can_truncate :=
              match frame with
              | AckFrame _ => GetMinAckFrameSize (transport_version (version_ f))
                                PACKET_6BYTE_PACKET_NUMBER <=? free_bytes
              | _ => false
              end in
            if can_truncate then mret free_bytes else mret 0
      end
  end.

(** ** Headers *)

Definition header_flags (f : MyQuicFramer) (header : QuicPacketHeader) : Z :=
  let flags := if reset_flag header then Z.lor 0 PACKET_PUBLIC_FLAGS_RST else 0 in
  let flags := if version_flag header then Z.lor flags PACKET_PUBLIC_FLAGS_VERSION else flags in
  let flags := u8 (Z.lor flags (Z.shiftl (GetPacketNumberFlags (packet_number_length header))
                                  kPublicHeaderSequenceNumberShift)) in
  match nonce header with Some _ => Z.lor flags PACKET_PUBLIC_FLAGS_NONCE | None => flags end.

Definition AppendPacketHeader (header : QuicPacketHeader) : M env unit :=
  f ← gets id;
  let public_flags := header_flags f header in
  (if connection_id_length header =? PACKET_0BYTE_CONNECTION_ID then
     wr_op (WriteUInt8 (Z.lor public_flags PACKET_PUBLIC_FLAGS_0BYTE_CONNECTION_ID))
   else if connection_id_length header =? PACKET_8BYTE_CONNECTION_ID then
     let public_flags := Z.lor public_flags PACKET_PUBLIC_FLAGS_8BYTE_CONNECTION_ID in
     let public_flags := if decide (perspective_ f = IS_CLIENT)
       then Z.lor public_flags PACKET_PUBLIC_FLAGS_8BYTE_CONNECTION_ID_OLD else public_flags in
     wr_op (WriteUInt8 public_flags) ;;
     wr_op (WriteConnectionId (connection_id header))
   else mret tt) ;;
  mod_fr (put_last_serialized_connection_id (connection_id header)) ;;
  (if version_flag header
   then wr_op (WriteTag (NetToHost32 (CreateQuicVersionLabel (version_ f))))
   else mret tt) ;;
  match nonce header with Some n => wr_op (WriteBytes n) | None => mret tt end ;;
  AppendPacketNumber (packet_number_length header) (packet_number header).

Definition illegal_flags : string := "Illegal public flags value.".

Definition ProcessPublicHeader : M env QuicPacketHeader :=
  bs ← or_detail "Unable to read public flags." (rd_op (ReadBytes 1));
  let public_flags := bs !!! 0%nat in
  let reset := has_bits public_flags PACKET_PUBLIC_FLAGS_RST in
  let vflag := has_bits public_flags PACKET_PUBLIC_FLAGS_VERSION in
  f ← gets id;
  (if validate_flags_ f && negb vflag && (PACKET_PUBLIC_FLAGS_MAX <? public_flags)
   then set_detailed_error illegal_flags ;; mfail else mret tt) ;;
  (if reset && vflag then set_detailed_error "Got version flag in reset packet" ;; mfail
   else mret tt) ;;
  let cid_bits := Z.land public_flags PACKET_PUBLIC_FLAGS_8BYTE_CONNECTION_ID in
  cid ← (if cid_bits =? PACKET_PUBLIC_FLAGS_8BYTE_CONNECTION_ID then
           id ← or_detail "Unable to read ConnectionId." (rd_op ReadConnectionId);
           mret (id, PACKET_8BYTE_CONNECTION_ID)
         else if cid_bits =? PACKET_PUBLIC_FLAGS_0BYTE_CONNECTION_ID then
           mret (last_serialized_connection_id_ f, PACKET_0BYTE_CONNECTION_ID)
         else mret (0, PACKET_8BYTE_CONNECTION_ID));
  let pn_len := ReadSequenceNumberLength (Z.shiftr public_flags kPublicHeaderSequenceNumberShift) in
  version ← (if vflag && bool_decide (perspective_ f = IS_SERVER) then
               label ← or_detail "Unable to read protocol version." (rd_op ReadTag);
               let label := NetToHost32 label in
               mod_fr (put_last_version_label label) ;;
               let version := ParseQuicVersionLabel label in
               if bool_decide (version = version_ f) && (PACKET_PUBLIC_FLAGS_MAX <? public_flags)
               then set_detailed_error illegal_flags ;; mfail else mret version
             else mret (mkVersion PROTOCOL_UNSUPPORTED QUIC_VERSION_UNSUPPORTED));
  nonce ← (if has_bits public_flags PACKET_PUBLIC_FLAGS_NONCE &&
              negb (has_bits public_flags PACKET_PUBLIC_FLAGS_VERSION) &&
              negb (has_bits public_flags PACKET_PUBLIC_FLAGS_RST) &&
              bool_decide (perspective_ f = IS_CLIENT)
           then n ← or_detail "Unable to read nonce." (rd_op (ReadBytes (zlen (last_nonce_ f))));
                mod_fr (put_last_nonce n) ;;
                mret (Some n)
           else mret None);
  mret {| connection_id := cid.1; connection_id_length := cid.2; reset_flag := reset;
          version_flag := vflag; header_version := version; packet_number_length := pn_len;
          packet_number := 0; nonce := nonce |}.

Definition ProcessAndCalculatePacketNumber (packet_number_length base_packet_number : Z) : M env Z :=
  wire_packet_number ← rd_op (ReadBytesToUInt64 packet_number_length);
  mret (CalculatePacketNumberFromWire packet_number_length base_packet_number wire_packet_number).

Definition with_packet_number (h : QuicPacketHeader) (pn : Z) : QuicPacketHeader :=
  mkHeader (connection_id h) (connection_id_length h) (reset_flag h) (version_flag h)
    (header_version h) (packet_number_length h) pn (nonce h).

Definition ProcessUnauthenticatedHeader (header : QuicPacketHeader) : M env QuicPacketHeader :=
  base ← gets largest_packet_number_;
  pn ← or_else (ProcessAndCalculatePacketNumber (packet_number_length header) base)
         (set_detailed_error "Unable to read packet number." ;; RaiseError QUIC_INVALID_PACKET_HEADER);
  let header := with_packet_number header pn in
  (if pn =? 0 then
     set_detailed_error "packet numbers cannot be 0." ;; RaiseError QUIC_INVALID_PACKET_HEADER
   else mret tt) ;;
  b ← visit (OnUnauthenticatedHeader header);
  if b : bool then mret header
  else set_detailed_error "Visitor asked to stop processing of unauthenticated header." ;; mfail.

(** ** Crypto *)

Definition GetAssociatedDataFromEncryptedPacket (version : Z) (encrypted : list Z)
    (connection_id_length : Z) (includes_version includes_nonce : bool) (packet_number_length : Z) :
    option (list Z) :=
  load encrypted 0 (GetStartOfEncryptedData version connection_id_length includes_version
                      includes_nonce packet_number_length).

Definition SetDecrypter (level : Z) (d : option QuicDecrypter) : M env unit :=
  mod_fr (fun f => put_decrypter_level level (put_decrypter d f)).

Definition SetAlternativeDecrypter (level : Z) (d : option QuicDecrypter) (latch_once_used : bool) :
    M env unit :=
  mod_fr (fun f => put_alternative_decrypter_latch latch_once_used
                     (put_alternative_decrypter_level level (put_alternative_decrypter d f))).

Definition SetEncrypter (level : Z) (e : option QuicEncrypter) : M env unit :=
  f ← gets id;
  massert ((0 <=? level) && (level <? zlen (encrypter_ f))) ;;
  mod_fr (put_encrypter (<[Z.to_nat level := e]> (encrypter_ f))).

(** [encrypter_[level]->EncryptPacket(...)]; the encrypter keeps its state. *)
Definition encrypt_packet (level packet_number : Z) (ad plaintext : list Z) (max_len : Z) :
    M env (list Z) :=
  f ← gets id;
  match encrypter_ f !! Z.to_nat level with
  | Some (Some e) =>
      let '(r, e') := EncryptPacket (transport_version (version_ f)) packet_number ad plaintext max_len e in
      mod_fr (put_encrypter (<[Z.to_nat level := Some e']> (encrypter_ f))) ;;
      match r with
      | Some out => mret out
      | None => RaiseError QUIC_ENCRYPTION_FAILURE
      end
  | _ => mstuck
  end.

(** Both return the length and the buffer; 0 and an unspecified buffer when
    encryption fails. *)
Definition EncryptInPlace (level packet_number ad_len total_len : Z) (buffer : list Z) :
    M env (Z * list Z) :=
  match load buffer 0 ad_len, load buffer ad_len (total_len - ad_len) with
  | Some ad, Some plaintext =>
      or_else
        (out ← encrypt_packet level packet_number ad plaintext (zlen buffer - ad_len);
         match store buffer ad_len out with
         | Some buffer => mret (ad_len + zlen out, buffer)
         | None => mstuck
         end)
        (mret (0, buffer))
  | _, _ => mstuck
  end.

(** [packet.AssociatedData(version)] and [packet.Plaintext(version)] are the
    arguments [ad] and [plaintext]. *)
Definition EncryptPayload (level packet_number : Z) (ad plaintext : list Z) (buffer : list Z) :
    M env (Z * list Z) :=
  let ad_len := zlen ad in
  match store buffer 0 ad with
  | None => mstuck
  | Some buffer =>
      or_else
        (out ← encrypt_packet level packet_number ad plaintext (zlen buffer - ad_len);
         match store buffer ad_len out with
         | Some buffer => mret (ad_len + zlen out, buffer)
         | None => mstuck
         end)
        (mret (0, buffer))
  end.

Definition GetMaxPlaintextSize (f : MyQuicFramer) (ciphertext_size : Z) : Z :=
  foldl (fun min_plaintext_size e =>
    match e with
    | Some e =>
        let size := EncrypterMaxPlaintextSize ciphertext_size e in
        if size <? min_plaintext_size then size else min_plaintext_size
    | None => min_plaintext_size
    end) ciphertext_size (encrypter_ f).

(** [decrypter_->DecryptPacket(...)] *)
Definition run_decrypter (version : Z) (header : QuicPacketHeader) (ad encrypted : list Z)
    (buffer_length : Z) : M env (option (list Z)) :=
  f ← gets id;
  match decrypter_ f with
  | None => mstuck
  | Some d =>
      let '(r, d') := DecryptPacket version (packet_number header) ad encrypted buffer_length d in
      mod_fr (put_decrypter (Some d')) ;;
      mret r
  end.

Definition run_alternative_decrypter (version : Z) (header : QuicPacketHeader) (ad encrypted : list Z)
    (buffer_length : Z) : M env (option (list Z)) :=
  f ← gets id;
  match alternative_decrypter_ f with
  | None => mstuck
  | Some d =>
      let '(r, d') := DecryptPacket version (packet_number header) ad encrypted buffer_length d in
      mod_fr (put_alternative_decrypter (Some d')) ;;
      mret r
  end.

(** The alternative decrypter replaces the primary one for good, or changes
    places with it. *)
Definition latch_or_swap (f : MyQuicFramer) : MyQuicFramer :=
  if alternative_decrypter_latch_ f then
    put_alternative_decrypter_level ENCRYPTION_NONE
      (put_decrypter_level (alternative_decrypter_level_ f)
         (put_alternative_decrypter None (put_decrypter (alternative_decrypter_ f) f)))
  else
    put_decrypter_level (alternative_decrypter_level_ f)
      (put_alternative_decrypter_level (decrypter_level_ f)
         (put_alternative_decrypter (decrypter_ f) (put_decrypter (alternative_decrypter_ f) f))).

Definition DecryptPayload (header : QuicPacketHeader) (packet : list Z) (buffer_length : Z) :
    M env (list Z) :=
  encrypted ← read_remaining;
  f ← gets id;
  let version := transport_version (version_ f) in
  let has_nonce := bool_decide (is_Some (nonce header)) in
  match GetAssociatedDataFromEncryptedPacket version packet (connection_id_length header)
          (version_flag header) has_nonce (packet_number_length header) with
  | None => mstuck
  | Some ad =>
      r ← run_decrypter version header ad encrypted buffer_length;
      match r with
      | Some plain =>
          level ← gets decrypter_level_;
          notify (OnDecryptedPacket level) ;;
          mret plain
      | None =>
          match alternative_decrypter_ f with
          | None => mfail
          | Some d =>
              (match nonce header with
               | Some n => mod_fr (put_alternative_decrypter (Some (SetDiversificationNonce n d)))
               | None => mret tt
               end) ;;
              let try_alternative_decryption :=
                if alternative_decrypter_level_ f =? ENCRYPTION_INITIAL then
                  if decide (perspective_ f = IS_CLIENT) then has_nonce else true
                else true in
              r ← (if try_alternative_decryption
                   then run_alternative_decrypter version header ad encrypted buffer_length
                   else mret None);
              match r with
              | Some plain =>
                  level ← gets alternative_decrypter_level_;
                  notify (OnDecryptedPacket level) ;;
                  mod_fr latch_or_swap ;;
                  mret plain
              | None => mfail
              end
          end
      end
  end.

(** ** Building *)

(** The [switch] of [BuildDataPacket]. *)
Definition append_frame (header : QuicPacketHeader) (frame : QuicFrame) (no_stream_frame_length : bool) :
    M env unit :=
  AppendTypeByte frame no_stream_frame_length ;;
  match frame with
  | PaddingFrame p => AppendPaddingFrame p
  | StreamFrame None | AckFrame None => mstuck
  | StreamFrame (Some s) => AppendStreamFrame s no_stream_frame_length
  | AckFrame (Some a) => AppendAckFrameAndTypeByte a
  | StopWaitingFrame s => AppendStopWaitingFrame header s
  | MtuDiscoveryFrame | PingFrame => mret tt
  | RstStreamFrame r => AppendRstStreamFrame r
  | ConnectionCloseFrame c => AppendConnectionCloseFrame c
  | GoAwayFrame g => AppendGoAwayFrame g
  | WindowUpdateFrame w => AppendWindowUpdateFrame w
  | BlockedFrame b => AppendBlockedFrame b
  | OtherFrame _ => RaiseError QUIC_INVALID_FRAME_DATA
  end.

(** [no_stream_frame_length = i == frames.size() - 1] *)
Fixpoint append_frames (header : QuicPacketHeader) (frames : list QuicFrame) : M env unit :=
  match frames with
  | [] => mret tt
  | frame :: frames' =>
      append_frame header frame (match frames' with [] => true | _ => false end) ;;
      append_frames header frames'
  end.

(** [QuicDataWriter writer(packet_length, buffer, endianness());] *)
Definition init_writer (packet_length : Z) : M env unit :=
  e ← gets endianness;
  wr_mod (fun _ => new_writer packet_length e).

Definition BuildDataPacket (header : QuicPacketHeader) (frames : list QuicFrame) (packet_length : Z) :
    M env Z :=
  init_writer packet_length ;;
  or_zero
    (AppendPacketHeader header ;;
     append_frames header frames ;;
     wr_get wlength).

Definition BuildConnectivityProbingPacket (header : QuicPacketHeader) (packet_length : Z) : M env Z :=
  init_writer packet_length ;;
  or_zero
    (AppendPacketHeader header ;;
     AppendTypeByte PingFrame false ;;
     AppendTypeByte (PaddingFrame (mkPadding (-1))) true ;;
     AppendPaddingFrame (mkPadding (-1)) ;;
     wr_get wlength).

(** A sequence of writes; the packet when all succeed. *)
Fixpoint write_all (ops : list (QuicDataWriter -> bool * QuicDataWriter)) (w : QuicDataWriter) :
    option (list Z) :=
  match ops with
  | [] => Some (written w)
  | op :: ops => match op w with (true, w) => write_all ops w | (false, _) => None end
  end.

Definition BuildPublicResetPacket (packet : QuicPublicResetPacket) : option (list Z) :=
  let reset := set_tag kPRST new_message in
  let reset := SetValue kRNON (nonce_proof packet) reset in
  let address := client_address packet in
  let reset :=
    if negb (address_unspecified address) then
      match encode_address address with
      | [] => None
      | serialized_address => Some (SetStringPiece kCADR serialized_address reset)
      end
    else Some reset in
  match reset with
  | None => None
  | Some reset =>
      let reset_serialized := GetSerialized IS_SERVER reset in
      let len := kPublicFlagsSize + PACKET_8BYTE_CONNECTION_ID + zlen reset_serialized in
      let flags := u8 (Z.lor PACKET_PUBLIC_FLAGS_RST PACKET_PUBLIC_FLAGS_8BYTE_CONNECTION_ID) in
      let flags := Z.lor flags (u8 PACKET_PUBLIC_FLAGS_8BYTE_CONNECTION_ID_OLD) in
      write_all [WriteUInt8 flags; WriteConnectionId (pr_connection_id packet);
                 WriteBytes reset_serialized] (new_writer len NETWORK_BYTE_ORDER)
  end.

(** The token is written as it lies in memory. *)
Definition BuildIetfStatelessResetPacket (connection_id stateless_reset_token : Z) : option (list Z) :=
  let len := kPacketHeaderTypeSize + PACKET_8BYTE_CONNECTION_ID + 16 in
  let type := u8 (Z.lor 0 (PacketNumberLengthToShortHeaderType PACKET_1BYTE_PACKET_NUMBER)) in
  write_all [WriteUInt8 type; WriteConnectionId connection_id;
             WriteBytes (le_bytes 16 stateless_reset_token)] (new_writer len NETWORK_BYTE_ORDER).

Definition version_tag (version : ParsedQuicVersion) : QuicDataWriter -> bool * QuicDataWriter :=
  WriteTag (HostToNet32 (CreateQuicVersionLabel version)).

Definition BuildIetfVersionNegotiationPacket (connection_id : Z) (versions : list ParsedQuicVersion) :
    option (list Z) :=
  let len := kPacketHeaderTypeSize + PACKET_8BYTE_CONNECTION_ID + (zlen versions + 1) * kQuicVersionSize in
  let type := u8 (Z.lor FLAGS_LONG_HEADER VERSION_NEGOTIATION) in
  write_all ([WriteUInt8 type; WriteConnectionId connection_id; WriteUInt32 0] ++
             map version_tag versions) (new_writer len NETWORK_BYTE_ORDER).

Definition BuildVersionNegotiationPacket (connection_id : Z) (ietf_quic : bool)
    (versions : list ParsedQuicVersion) : option (list Z) :=
  if ietf_quic then BuildIetfVersionNegotiationPacket connection_id versions
  else
    let len := GetVersionNegotiationPacketSize (zlen versions) in
    let flags := u8 (Z.lor (Z.lor PACKET_PUBLIC_FLAGS_VERSION PACKET_PUBLIC_FLAGS_8BYTE_CONNECTION_ID)
                       PACKET_PUBLIC_FLAGS_8BYTE_CONNECTION_ID_OLD) in
    write_all ([WriteUInt8 flags; WriteConnectionId connection_id] ++ map version_tag versions)
      (new_writer len NETWORK_BYTE_ORDER).

(** ** Processing *)

(** [do { ... } while (!reader->IsDoneReading());] *)
Fixpoint read_versions (fuel : nat) (acc : list ParsedQuicVersion) : M env (list ParsedQuicVersion) :=
  label ← or_else (rd_op ReadTag)
            (set_detailed_error "Unable to read supported version in negotiation." ;;
             RaiseError QUIC_INVALID_VERSION_NEGOTIATION_PACKET);
  let acc := acc ++ [ParseQuicVersionLabel (NetToHost32 label)] in
  done ← rd_get IsDoneReading;
  if done : bool then mret acc
  else match fuel with
  | O => mstuck
  | S fuel => read_versions fuel acc
  end.

Definition ProcessVersionNegotiationPacket (header : QuicPacketHeader) : M env unit :=
  n ← rd_get BytesRemaining;
  versions ← read_versions (Z.to_nat n) [];
  notify (OnVersionNegotiationPacket (mkVersionNegotiation (connection_id header) versions)).

Definition reset_error {X} (msg : string) : M env X :=
  set_detailed_error msg ;; RaiseError QUIC_INVALID_PUBLIC_RST_PACKET.

Definition ProcessPublicResetPacket (header : QuicPacketHeader) : M env unit :=
  payload ← read_remaining;
  perspective ← gets perspective_;
  match ParseMessage payload perspective with
  | None => reset_error "Unable to read reset message."
  | Some reset =>
      if negb (message_tag reset =? kPRST) then reset_error "Incorrect message tag."
      else match GetUint64 kRNON reset with
      | None => reset_error "Unable to read nonce proof."
      | Some nonce_proof =>
          let address := default default_address (GetStringPiece kCADR reset ≫= decode_address) in
          notify (OnPublicResetPacket (mkPublicReset (connection_id header) nonce_proof address))
      end
  end.

Definition ProcessDataPacket (header : QuicPacketHeader) (packet : list Z) (buffer_length : Z) :
    M env unit :=
  header ← ProcessUnauthenticatedHeader header;
  decrypted ← or_else (DecryptPayload header packet buffer_length)
    (set_detailed_error "Unable to decrypt payload." ;; RaiseError QUIC_DECRYPTION_FAILURE);
  e ← gets endianness;
  (fun env => (Ok tt, put_rd (new_reader decrypted e) env)) ;;
  mod_fr (fun f => put_largest_packet_number (Z.max (packet_number header) (largest_packet_number_ f)) f) ;;
  b ← visit (OnPacketHeader header);
  if negb b then mret tt
  else if kMaxPacketSize <? zlen packet then RaiseError QUIC_PACKET_TOO_LARGE
  else
    ProcessFrameData header ;;
    notify OnPacketComplete.

(** [visitor_->OnProtocolVersionMismatch(version)] *)
Definition version_mismatch (version : ParsedQuicVersion) : M env bool := fun e =>
  if visitor_ (fr e) then
    let '(b, (f, v)) := OnProtocolVersionMismatch version (fr e) (vs e) in
    (Ok b, put_fr f (put_vs v e))
  else (Stuck, e).

Definition ProcessPacket (packet : list Z) : M env unit :=
  e ← gets endianness;
  (fun env => (Ok tt, put_rd (new_reader packet e) env)) ;;
  mod_fr (put_last_packet_is_ietf_quic false) ;;
  notify OnPacket ;;
  header ← or_raise QUIC_INVALID_PACKET_HEADER ProcessPublicHeader;
  b ← visit (OnUnauthenticatedPublicHeader header);
  if negb b then mret tt
  else
    f ← gets id;
    go ← (if bool_decide (perspective_ f = IS_SERVER) && version_flag header &&
             negb (bool_decide (header_version header = version_ f))
          then version_mismatch (header_version header) else mret true);
    if negb go then mret tt
    else
      f ← gets id;
      (fun env => (Ok tt, put_rd (set_endianness (endianness f) (rd env)) env)) ;;
      if bool_decide (perspective_ f = IS_CLIENT) && version_flag header
      then ProcessVersionNegotiationPacket header
      else if reset_flag header then ProcessPublicResetPacket header
      else if zlen packet <=? kMaxPacketSize then ProcessDataPacket header packet kMaxPacketSize
      else ProcessDataPacket header packet (zlen packet).

(** [strncmp(buf, &kCHLO, sizeof(kCHLO)) == 0] on the four bytes the producer
    wrote. *)
Definition StartsWithChlo (f : MyQuicFramer) (id offset : Z) : bool :=
  match data_producer_ f with
  | None => false
  | Some p =>
      match WriteStreamData p id offset 4 (new_writer 4 (endianness f)) with
      | (true, w) => bool_decide (written w = le_bytes 4 kCHLO)
      | (false, _) => false
      end
  end.
End Packet.
