(* ===== verification/FramerWire.v ===== *)
(** * The wire: laws of the reader and the writer, and how computations use them

    [ReaderOk] and [WriterOk] state what the byte reader and writer document:
    each read is a parser of the remaining bytes, each write appends the bytes
    of its argument or fails for want of room.  [emits] says which bytes a
    method appends, [parses] which value a method makes of a string of bytes,
    [rsafe] that a method copes with any input. *)

From S2P Require Import Prelude QuicTime FramerTypes.

(** ** Parsers of byte strings *)

Definition p_bytes (n : Z) (l : list Z) : option (list Z * list Z) :=
  if (0 <=? n) && (n <=? zlen l) then Some (ztake n l, zdrop n l) else None.

Definition p_uint (n : nat) (en : Endianness) (l : list Z) : option (Z * list Z) :=
  '(bs, l) ← p_bytes (Z.of_nat n) l; Some (uint_val en bs, l).

Definition p_string16 (en : Endianness) (l : list Z) : option (list Z * list Z) :=
  '(n, l) ← p_uint 2 en l; p_bytes n l.

Lemma uint_bytes_val en n v : in_u (8 * Z.of_nat n) v -> uint_val en (uint_bytes en n v) = v.
Proof.
  intros. destruct en; cbn; [|unfold le_val, le_bytes; rewrite rev_involutive]; by apply be_val_bytes_id.
Qed.

Lemma uint_bytes_len en n v : zlen (uint_bytes en n v) = Z.of_nat n.
Proof.
  destruct en; cbn; [apply zlen_be|]. unfold zlen. by rewrite le_bytes_length.
Qed.

Lemma uint_bytes_ok en n v : bytes_ok (uint_bytes en n v).
Proof. destruct en; cbn; auto with bytes. Qed.

Lemma uint_val_range en bs : bytes_ok bs -> in_u (8 * zlen bs) (uint_val en bs).
Proof.
  intros. destruct en; cbn; [by apply be_val_range|]. unfold le_val, zlen.
  rewrite <- length_rev. by apply be_val_range, Forall_rev.
Qed.

#[export] Hint Rewrite uint_bytes_len : lens.
#[export] Hint Resolve uint_bytes_ok : bytes.

Lemma p_bytes_app bs l : p_bytes (zlen bs) (bs ++ l) = Some (bs, l).
Proof.
  unfold p_bytes. pose proof (zlen_nonneg bs). pose proof (zlen_nonneg l).
  rewrite !(proj2 (Z.leb_le _ _)) by (rewrite ?zlen_app; lia). cbn.
  by rewrite ztake_app, zdrop_app.
Qed.

Lemma p_bytes_app' n bs l : n = zlen bs -> p_bytes n (bs ++ l) = Some (bs, l).
Proof. intros ->. apply p_bytes_app. Qed.

Lemma p_uint_app n en v l :
  in_u (8 * Z.of_nat n) v -> p_uint n en (uint_bytes en n v ++ l) = Some (v, l).
Proof.
  intros. unfold p_uint. rewrite (p_bytes_app' _ (uint_bytes en n v)) by (by rewrite uint_bytes_len).
  cbn. by rewrite uint_bytes_val.
Qed.

Lemma p_string16_app en bs l :
  zlen bs < 65536 -> p_string16 en (uint_bytes en 2 (zlen bs) ++ bs ++ l) = Some (bs, l).
Proof.
  intros. unfold p_string16. pose proof (zlen_nonneg bs).
  rewrite p_uint_app by (unfold in_u; simpl (8 * _); change (2 ^ 16) with 65536; lia).
  cbn. apply p_bytes_app.
Qed.

(** A parser leaves a suffix of its input, and the value it yields is bounded
    by a predicate. *)
Definition p_ok {A} (p : list Z -> option (A * list Z)) (V : A -> Prop) : Prop :=
  forall l a l', bytes_ok l -> p l = Some (a, l') -> (exists bs, l = bs ++ l') /\ V a.

Lemma p_bytes_ok n : p_ok (p_bytes n) (fun bs => zlen bs = n /\ bytes_ok bs).
Proof.
  intros l a l' Hl. unfold p_bytes. destruct (_ && _) eqn:E; [|done].
  apply andb_true_iff in E as [E1%Z.leb_le E2%Z.leb_le]. intros [= <- <-].
  split; [exists (ztake n l); by rewrite ztake_drop|]. rewrite zlen_ztake by lia.
  split; [done|]. by apply Forall_take.
Qed.

Lemma p_uint_ok n en : p_ok (p_uint n en) (in_u (8 * Z.of_nat n)).
Proof.
  intros l a l' Hl. unfold p_uint. destruct (p_bytes _ l) as [[bs l1]|] eqn:E; [|done].
  apply p_bytes_ok in E as (Hs & Hn & Hb); [|done]. cbn. intros [= <- <-]. split; [done|].
  rewrite <- Hn. by apply uint_val_range.
Qed.

Lemma p_string16_ok en : p_ok (p_string16 en) (fun bs => zlen bs < 65536 /\ bytes_ok bs).
Proof.
  intros l a l' Hl. unfold p_string16. destruct (p_uint 2 en l) as [[n l1]|] eqn:E; [|done].
  apply p_uint_ok in E as ([b1 ->] & Hn); [|done]. cbn. intros E.
  apply Forall_app in Hl as [_ Hl]. apply p_bytes_ok in E as ([b2 ->] & Hz & Hb); [|done].
  split; [exists (b1 ++ b2); by rewrite app_assoc|]. split; [|done].
  unfold in_u in Hn. change (2 ^ (8 * Z.of_nat 2)) with 65536 in Hn. lia.
Qed.

(** ** The reader *)

Section ReaderLaws.
Context `{T : QuicTypes} `{F : QuicFunctions} `{R : ReaderOps}.

Class ReaderView := {
  remaining : QuicDataReader -> list Z;
  rendian : QuicDataReader -> Endianness;
  (** the parser of variable-length integers *)
  p_varint : list Z -> option (Z * list Z);
}.

Context `{RV : ReaderView}.

(** [op] runs [p] on the remaining bytes; a failed read may skip some. *)
Definition reads {A} (op : QuicDataReader -> option A * QuicDataReader)
    (p : Endianness -> list Z -> option (A * list Z)) : Prop :=
  forall r, match p (rendian r) (remaining r) with
    | Some (a, l) => exists r', op r = (Some a, r') /\ remaining r' = l /\ rendian r' = rendian r
    | None => exists r', op r = (None, r') /\ (exists bs, remaining r = bs ++ remaining r') /\
                rendian r' = rendian r
    end.

Definition p_stream_id (l : list Z) : option (Z * list Z) :=
  '(v, l) ← p_varint l; if v <=? MaxVarIntStreamId then Some (v, l) else None.

Class ReaderOk : Prop := {
  new_reader_remaining : forall l en, remaining (new_reader l en) = l;
  new_reader_endian : forall l en, rendian (new_reader l en) = en;
  ReadBytes_ok : forall n, reads (ReadBytes n) (fun _ => p_bytes n);
  ReadUInt8_ok : reads ReadUInt8 (p_uint 1);
  ReadUInt16_ok : reads ReadUInt16 (p_uint 2);
  ReadUInt32_ok : reads ReadUInt32 (p_uint 4);
  ReadUInt64_ok : reads ReadUInt64 (p_uint 8);
  ReadBytesToUInt64_ok : forall n, 0 <= n <= 8 -> reads (ReadBytesToUInt64 n) (p_uint (Z.to_nat n));
  ReadUFloat16_ok : reads ReadUFloat16 (fun en l => '(v, l) ← p_uint 2 en l; Some (ufloat16_decode v, l));
  ReadStringPiece16_ok : reads ReadStringPiece16 p_string16;
  ReadStringPiece_ok : forall n, reads (ReadStringPiece n) (fun _ => p_bytes n);
  ReadRemainingPayload_ok : forall r, exists r', ReadRemainingPayload r = (remaining r, r') /\
    remaining r' = [] /\ rendian r' = rendian r;
  (** the connection id is big-endian, a tag lies as in memory *)
  ReadConnectionId_ok : reads ReadConnectionId (fun _ => p_uint 8 NETWORK_BYTE_ORDER);
  ReadTag_ok : reads ReadTag (fun _ => p_uint 4 HOST_BYTE_ORDER);
  ReadVarInt62_ok : reads ReadVarInt62 (fun _ => p_varint);
  ReadVarIntStreamId_ok : reads ReadVarIntStreamId (fun _ => p_stream_id);
  IsDoneReading_ok : forall r, IsDoneReading r = bool_decide (remaining r = []);
  BytesRemaining_ok : forall r, BytesRemaining r = zlen (remaining r);
  PeekByte_ok : forall r b l, remaining r = b :: l -> PeekByte r = b;
  set_endianness_remaining : forall en r, remaining (set_endianness en r) = remaining r;
  set_endianness_endian : forall en r, rendian (set_endianness en r) = en;
  p_varint_app : forall v l, in_u 62 v -> p_varint (varint_bytes v ++ l) = Some (v, l);
  p_varint_range : p_ok p_varint (in_u 62);
  p_varint_shorter : forall l v l', p_varint l = Some (v, l') -> zlen l' < zlen l;
}.
End ReaderLaws.

(** ** The writer *)

Section WriterLaws.
Context `{T : QuicTypes} `{F : QuicFunctions} `{W : WriterOps}.

Class WriterView := { wendian : QuicDataWriter -> Endianness }.

Context `{WV : WriterView}.

(** [w'] is [w] with [bs] appended. *)
Definition wext (w : QuicDataWriter) (bs : list Z) (w' : QuicDataWriter) : Prop :=
  written w' = written w ++ bs /\ capacity w' = capacity w /\ wendian w' = wendian w.

(** [op] appends [bs] when there is room and [ok] holds, and fails otherwise;
    a failed write may leave a part of its bytes. *)
Definition writes_if (ok : bool) (op : QuicDataWriter -> bool * QuicDataWriter)
    (bs : Endianness -> list Z) : Prop :=
  forall w, if ok && (wlength w + zlen (bs (wendian w)) <=? capacity w)
    then exists w', op w = (true, w') /\ wext w (bs (wendian w)) w'
    else exists w' part, op w = (false, w') /\ wext w part w' /\
           zlen part <= zlen (bs (wendian w)) /\ wlength w' <= capacity w'.

Abbreviation writes := (writes_if true).

Class WriterOk : Prop := {
  wlength_ok : forall w, wlength w = zlen (written w);
  capacity_ok : forall w, wlength w <= capacity w;
  new_writer_written : forall n en, 0 <= n -> written (new_writer n en) = [] /\
    capacity (new_writer n en) = n /\ wendian (new_writer n en) = en;
  WriteUInt8_ok : forall v, writes (WriteUInt8 v) (fun en => uint_bytes en 1 v);
  WriteUInt16_ok : forall v, writes (WriteUInt16 v) (fun en => uint_bytes en 2 v);
  WriteUInt32_ok : forall v, writes (WriteUInt32 v) (fun en => uint_bytes en 4 v);
  WriteUInt64_ok : forall v, writes (WriteUInt64 v) (fun en => uint_bytes en 8 v);
  WriteBytesToUInt64_ok : forall n v, 0 <= n <= 8 ->
    writes (WriteBytesToUInt64 n v) (fun en => uint_bytes en (Z.to_nat n) v);
  WriteUFloat16_ok : forall v, writes (WriteUFloat16 v) (fun en => uint_bytes en 2 (ufloat16_encode v));
  WriteStringPiece16_ok : forall s, writes_if (zlen s <=? 65535) (WriteStringPiece16 s)
    (fun en => uint_bytes en 2 (zlen s) ++ s);
  WriteBytes_ok : forall bs, writes (WriteBytes bs) (fun _ => bs);
  WritePaddingBytes_ok : forall n, 0 <= n ->
    writes (WritePaddingBytes n) (fun _ => replicate (Z.to_nat n) 0);
  WritePadding_ok : forall w,
    wext w (replicate (Z.to_nat (capacity w - wlength w)) 0) (WritePadding w);
  WriteUInt8AtOffset_ok : forall v off w, 0 <= off < wlength w ->
    exists w', WriteUInt8AtOffset v off w = (true, w') /\
      written w' = <[Z.to_nat off := u8 v]> (written w) /\ capacity w' = capacity w /\
      wendian w' = wendian w;
  WriteConnectionId_ok : forall v, writes (WriteConnectionId v) (fun _ => be_bytes 8 v);
  WriteTag_ok : forall v, writes (WriteTag v) (fun _ => le_bytes 4 v);
  WriteVarInt62_ok : forall v, 0 <= v ->
    writes_if (v <? 2 ^ 62) (WriteVarInt62 v) (fun _ => varint_bytes v);
}.
End WriterLaws.
