(* ===== verification/FramerCodec.v ===== *)
(** * What a method appends, what it parses

    [emits f en a bs m]: run on the framer [f] with a writer of byte order
    [en], [m] appends exactly [bs] and returns [a] when [bs] fits, and fails
    when it does not.  [parses f en bs rest a m]: from the bytes [bs] followed
    by [rest], [m] consumes [bs] and returns [a].  Both compose along the
    monad's bind, so a method's bytes are read off its text. *)

From S2P Require Import Prelude QuicTime FramerTypes FramerNumbers FramerAppend FramerProcess FramerWire.

(** What a data producer holds for a stream: id, offset, length. *)
Class ProducerView `{C : CryptoOps} := {
  stream_data : QuicStreamFrameDataProducer -> Z -> Z -> Z -> option (list Z);
}.

(** A producer that has the data writes all of it, or fails for want of room. *)
Class ProducerOk `{C : CryptoOps} `{W : WriterOps} `{WV : !WriterView} `(P : !ProducerOps)
    `{PV : !ProducerView} : Prop := {
  stream_data_len : forall p id off n bs, stream_data p id off n = Some bs -> zlen bs = n;
  WriteStreamData_ok : forall p id off n bs, stream_data p id off n = Some bs ->
    writes_if true (WriteStreamData p id off n) (fun _ => bs);
}.

Section Codec.
Context `{T : QuicTypes} `{Q : PacketQueueOps} `{A : !AckOps} `{C : CryptoOps} `{F : QuicFunctions}
  `{R : ReaderOps} `{W : WriterOps} `{V : !VisitorOps} `{P : !ProducerOps}
  `{RV : !ReaderView} `{WV : !WriterView} `{RO : !ReaderOk} `{WO : !WriterOk}.

(** ** Writing *)

Definition emits_at {X} (e : env) (a : X) (bs : list Z) (m : M env X) : Prop :=
  if wlength (wr e) + zlen bs <=? capacity (wr e)
  then exists w', m e = (Ok a, put_wr w' e) /\ wext (wr e) bs w'
  else exists e', m e = (Fail, e').

Definition emits {X} (f : MyQuicFramer) (en : Endianness) (a : X) (bs : list Z) (m : M env X) : Prop :=
  forall e, fr e = f -> wendian (wr e) = en -> emits_at e a bs m.

(** Fails whatever the room. *)
Definition refuses {X} (f : MyQuicFramer) (en : Endianness) (m : M env X) : Prop :=
  forall e, fr e = f -> wendian (wr e) = en -> exists e', m e = (Fail, e').

Lemma wext_refl w : wext w [] w.
Proof. split; [by rewrite app_nil_r|done]. Qed.

Lemma wext_trans w1 b1 w2 b2 w3 : wext w1 b1 w2 -> wext w2 b2 w3 -> wext w1 (b1 ++ b2) w3.
Proof.
  intros (E1 & C1 & N1) (E2 & C2 & N2). split; [|by rewrite C2, N2].
  by rewrite E2, E1, app_assoc.
Qed.

Lemma wext_length w bs w' : wext w bs w' -> wlength w' = wlength w + zlen bs.
Proof. intros (E & _). by rewrite !wlength_ok, E, zlen_app. Qed.

Lemma emits_at_ret {X} e (a : X) : emits_at e a [] (mret a).
Proof.
  unfold emits_at. rewrite (proj2 (Z.leb_le _ _)).
  - exists (wr e). split; [by destruct e|apply wext_refl].
  - rewrite zlen_nil, Z.add_0_r. apply capacity_ok.
Qed.

Lemma emits_ret {X} f en (a : X) : emits f en a [] (mret a).
Proof. intros e _ _. apply emits_at_ret. Qed.

Lemma emits_at_bind {X Y} e (a : X) (b : Y) bs1 bs2 (m : M env X) (k : X -> M env Y) :
  emits_at e a bs1 m -> (forall w, wext (wr e) bs1 w -> emits_at (put_wr w e) b bs2 (k a)) ->
  emits_at e b (bs1 ++ bs2) (m ≫= k).
Proof.
  unfold emits_at. intros H1 H2. rewrite zlen_app.
  pose proof (zlen_nonneg bs1). pose proof (zlen_nonneg bs2).
  destruct (Z.leb_spec (wlength (wr e) + zlen bs1) (capacity (wr e))) as [Hle|Hgt].
  - destruct H1 as (w1 & E1 & Hw1). erewrite M_bind_ok by done.
    specialize (H2 w1 Hw1). cbn [wr put_wr] in H2.
    rewrite (wext_length _ _ _ Hw1), (proj1 (proj2 Hw1)), <- Z.add_assoc in H2.
    destruct (_ <=? _); [|done]. destruct H2 as (w2 & E2 & Hw2). exists w2.
    split; [exact E2|by eapply wext_trans].
  - rewrite (proj2 (Z.leb_gt _ _)) by lia. destruct H1 as (e' & E1). exists e'. by apply M_bind_fail.
Qed.

Lemma emits_bind {X Y} f en (a : X) (b : Y) bs1 bs2 (m : M env X) (k : X -> M env Y) :
  emits f en a bs1 m -> emits f en b bs2 (k a) -> emits f en b (bs1 ++ bs2) (m ≫= k).
Proof.
  intros H1 H2 e He Hn. eapply emits_at_bind; [by apply H1|]. intros w Hw. apply H2; [done|].
  cbn [wr put_wr]. by rewrite (proj2 (proj2 Hw)).
Qed.

(** The bytes of the first part only need to be known up to equality. *)
Lemma emits_eq {X} f en (a : X) bs bs' m : emits f en a bs m -> bs = bs' -> emits f en a bs' m.
Proof. by intros ? <-. Qed.

Lemma emits_op f en op bs :
  writes_if true op bs -> emits f en tt (bs en) (wr_op op).
Proof.
  intros H e _ <-. specialize (H (wr e)). cbn [andb] in H. unfold wr_op, emits_at.
  destruct (_ <=? _).
  - destruct H as (w' & -> & Hw). by exists w'.
  - destruct H as (w' & part & -> & _). eauto.
Qed.

Lemma emits_op_if f en ok op bs :
  writes_if ok op bs -> ok = true -> emits f en tt (bs en) (wr_op op).
Proof. intros H ->. by apply emits_op. Qed.

Lemma refuses_op f en op bs : writes_if false op bs -> refuses f en (wr_op op).
Proof.
  intros H e _ _. destruct (H (wr e)) as (w' & part & E & _). unfold wr_op. rewrite E. eauto.
Qed.

Lemma emits_or_detail {X} f en (a : X) bs m msg :
  emits f en a bs m -> emits f en a bs (or_detail msg m).
Proof.
  intros H e He Hn. specialize (H e He Hn). unfold emits_at, or_detail, or_else in *.
  destruct (_ <=? _).
  - destruct H as (w' & -> & Hw). by exists w'.
  - destruct H as (e' & ->). eexists. reflexivity.
Qed.

Lemma emits_at_gets {X Y} e (g : MyQuicFramer -> X) (a : Y) bs k :
  emits_at e a bs (k (g (fr e))) -> emits_at e a bs (gets g ≫= k).
Proof. done. Qed.

Lemma emits_at_wr_get {X Y} e (g : QuicDataWriter -> X) (a : Y) bs k :
  emits_at e a bs (k (g (wr e))) -> emits_at e a bs (wr_get g ≫= k).
Proof. done. Qed.

Lemma emits_gets {X Y} f en (g : MyQuicFramer -> X) (a : Y) bs k :
  emits f en a bs (k (g f)) -> emits f en a bs (gets g ≫= k).
Proof. intros H e He Hn. apply emits_at_gets. rewrite He. by apply H. Qed.

Lemma emits_require f en (b : bool) : b = true -> emits f en tt [] (require b).
Proof. intros ->. apply emits_ret. Qed.

Lemma emits_skip {X} f en (a : X) bs m : emits f en a bs m -> emits f en a bs (mret tt ;; m).
Proof. done. Qed.

(** ** Reading *)

Definition parses {X} (f : MyQuicFramer) (en : Endianness) (bs rest : list Z) (a : X) (m : M env X) : Prop :=
  forall e, fr e = f -> rendian (rd e) = en -> remaining (rd e) = bs ++ rest ->
    exists r', m e = (Ok a, put_rd r' e) /\ remaining r' = rest /\ rendian r' = en.

Lemma parses_ret {X} f en rest (a : X) : parses f en [] rest a (mret a).
Proof. intros e He Hn Hr. exists (rd e). split; [by destruct e|done]. Qed.

Lemma parses_bind {X Y} f en (a : X) (b : Y) bs1 bs2 rest m k :
  parses f en bs1 (bs2 ++ rest) a m -> parses f en bs2 rest b (k a) ->
  parses f en (bs1 ++ bs2) rest b (m ≫= k).
Proof.
  intros H1 H2 e He Hn Hr. rewrite <- app_assoc in Hr.
  destruct (H1 e He Hn Hr) as (r1 & E1 & Hr1 & Hn1). erewrite M_bind_ok by done.
  destruct (H2 (put_rd r1 e) He Hn1 Hr1) as (r2 & E2 & Hr2 & Hn2). by exists r2.
Qed.

Lemma parses_eq {X} f en bs bs' rest (a a' : X) m :
  parses f en bs rest a m -> bs = bs' -> a = a' -> parses f en bs' rest a' m.
Proof. by intros ? <- <-. Qed.

Lemma parses_op {X} f en bs rest (a : X) op p :
  reads op p -> p en (bs ++ rest) = Some (a, rest) -> parses f en bs rest a (rd_op op).
Proof.
  intros H E e _ Hn Hr. specialize (H (rd e)). rewrite Hn, Hr, E in H.
  destruct H as (r' & Eo & Hr' & Hn'). exists r'. unfold rd_op. rewrite Eo. split; [done|].
  by rewrite Hn'.
Qed.

Lemma parses_or_detail {X} f en bs rest (a : X) m msg :
  parses f en bs rest a m -> parses f en bs rest a (or_detail msg m).
Proof.
  intros H e He Hn Hr. destruct (H e He Hn Hr) as (r' & E & Hr'). exists r'.
  unfold or_detail, or_else. by rewrite E.
Qed.

Lemma parses_or_raise {X} f en bs rest (a : X) m err :
  parses f en bs rest a m -> parses f en bs rest a (or_raise err m).
Proof.
  intros H e He Hn Hr. destruct (H e He Hn Hr) as (r' & E & Hr'). exists r'.
  unfold or_raise, or_else. by rewrite E.
Qed.

Lemma parses_gets {X Y} f en bs rest (g : MyQuicFramer -> X) (a : Y) k :
  parses f en bs rest a (k (g f)) -> parses f en bs rest a (gets g ≫= k).
Proof. intros H e He Hn Hr. unfold gets, mbind, M_bind. rewrite He. by apply H. Qed.

Lemma parses_remaining {X} f en bs rest (a : X) k :
  parses f en bs rest a (k (zlen (bs ++ rest))) -> parses f en bs rest a (rd_get BytesRemaining ≫= k).
Proof.
  intros H e He Hn Hr. unfold rd_get, mbind, M_bind. rewrite BytesRemaining_ok, Hr. by apply H.
Qed.

(** ** The fields *)

Lemma parses_uint8 f en v rest : in_u 8 v -> parses f en (uint_bytes en 1 v) rest v (rd_op ReadUInt8).
Proof. intros. eapply parses_op; [apply ReadUInt8_ok|]. by apply p_uint_app. Qed.

(** A byte is its own encoding in either order. *)
Lemma uint1 en v : in_u 8 v -> uint_bytes en 1 v = [v].
Proof. intros. destruct en; cbn; rewrite Z.shiftr_0_r, wrap_id by done; done. Qed.

Lemma parses_byte f en v rest : in_u 8 v -> parses f en [v] rest v (rd_op ReadUInt8).
Proof. intros H. rewrite <- (uint1 en v H). by apply parses_uint8. Qed.

Lemma parses_uint16 f en v rest : in_u 16 v -> parses f en (uint_bytes en 2 v) rest v (rd_op ReadUInt16).
Proof. intros. eapply parses_op; [apply ReadUInt16_ok|]. by apply p_uint_app. Qed.

Lemma parses_uint32 f en v rest : in_u 32 v -> parses f en (uint_bytes en 4 v) rest v (rd_op ReadUInt32).
Proof. intros. eapply parses_op; [apply ReadUInt32_ok|]. by apply p_uint_app. Qed.

Lemma parses_uint64 f en v rest : in_u 64 v -> parses f en (uint_bytes en 8 v) rest v (rd_op ReadUInt64).
Proof. intros. eapply parses_op; [apply ReadUInt64_ok|]. by apply p_uint_app. Qed.

Lemma parses_bytes_uint f en n v rest : 0 <= n <= 8 -> in_u (8 * n) v ->
  parses f en (uint_bytes en (Z.to_nat n) v) rest v (rd_op (ReadBytesToUInt64 n)).
Proof.
  intros Hn Hv. eapply parses_op; [by apply ReadBytesToUInt64_ok|].
  apply p_uint_app. by rewrite Z2Nat.id by lia.
Qed.

Lemma parses_string16 f en s rest : zlen s < 65536 ->
  parses f en (uint_bytes en 2 (zlen s) ++ s) rest s (rd_op ReadStringPiece16).
Proof.
  intros. eapply parses_op; [apply ReadStringPiece16_ok|]. rewrite <- app_assoc. by apply p_string16_app.
Qed.

Lemma parses_string f en s rest n : n = zlen s -> parses f en s rest s (rd_op (ReadStringPiece n)).
Proof. intros ->. eapply parses_op; [apply ReadStringPiece_ok|]. apply p_bytes_app. Qed.

Lemma parses_bytes f en s rest n : n = zlen s -> parses f en s rest s (rd_op (ReadBytes n)).
Proof. intros ->. eapply parses_op; [apply ReadBytes_ok|]. apply p_bytes_app. Qed.

Lemma parses_varint f en v rest : in_u 62 v -> parses f en (varint_bytes v) rest v (rd_op ReadVarInt62).
Proof. intros. eapply parses_op; [apply ReadVarInt62_ok|]. by apply p_varint_app. Qed.

Lemma parses_stream_id `{FO : !QuicFunctionsOk _} f en v rest : 0 <= v <= MaxVarIntStreamId ->
  parses f en (varint_bytes v) rest v (rd_op ReadVarIntStreamId).
Proof.
  intros Hv. eapply parses_op; [apply ReadVarIntStreamId_ok|]. unfold p_stream_id.
  pose proof MaxVarIntStreamId_range as Hm. change (2 ^ 32) with 4294967296 in Hm.
  rewrite p_varint_app by (unfold in_u; change (2 ^ 62) with 4611686018427387904; lia). cbn.
  by rewrite (proj2 (Z.leb_le _ _)) by lia.
Qed.
End Codec.

Create HintDb emit.
Create HintDb parse.

#[export] Hint Resolve WriteUInt8_ok WriteUInt16_ok WriteUInt32_ok WriteUInt64_ok WriteUFloat16_ok
  WriteBytes_ok WriteConnectionId_ok WriteTag_ok WriteBytesToUInt64_ok : emit.
#[export] Hint Resolve parses_uint8 parses_uint16 parses_uint32 parses_uint64 parses_bytes_uint
  parses_string16 parses_string parses_bytes parses_varint parses_stream_id : parse.
