(* ===== verification/FramerConcrete.v ===== *)
(** * A concrete library for the framer

    List-backed readers and writers, a queue of intervals, a checksumming
    cipher and a visitor that logs its callbacks, with the proofs that they
    satisfy the laws the development assumes.  The witnesses run the framer
    on them. *)

From S2P Require Import Prelude QuicTime FramerTypes FramerWire FramerCodec.

(** ** Constants *)

#[export] Instance quic_types : QuicTypes := {|
  QUIC_VERSION_UNSUPPORTED := 0; QUIC_VERSION_37 := 37; QUIC_VERSION_38 := 38; QUIC_VERSION_41 := 41;
  PROTOCOL_UNSUPPORTED := 0;
  PACKET_1BYTE_PACKET_NUMBER := 1; PACKET_2BYTE_PACKET_NUMBER := 2; PACKET_4BYTE_PACKET_NUMBER := 4;
  PACKET_6BYTE_PACKET_NUMBER := 6; PACKET_8BYTE_PACKET_NUMBER := 8;
  PACKET_FLAGS_1BYTE_PACKET := 0; PACKET_FLAGS_2BYTE_PACKET := 1; PACKET_FLAGS_4BYTE_PACKET := 2;
  PACKET_FLAGS_8BYTE_PACKET := 3;
  SHORT_HEADER_1_BYTE_PACKET_NUMBER := 0; SHORT_HEADER_2_BYTE_PACKET_NUMBER := 1;
  SHORT_HEADER_4_BYTE_PACKET_NUMBER := 2;
  PACKET_0BYTE_CONNECTION_ID := 0; PACKET_8BYTE_CONNECTION_ID := 8;
  PACKET_PUBLIC_FLAGS_VERSION := 1; PACKET_PUBLIC_FLAGS_RST := 2; PACKET_PUBLIC_FLAGS_NONCE := 4;
  PACKET_PUBLIC_FLAGS_0BYTE_CONNECTION_ID := 0; PACKET_PUBLIC_FLAGS_8BYTE_CONNECTION_ID := 8;
  PACKET_PUBLIC_FLAGS_8BYTE_CONNECTION_ID_OLD := 12; PACKET_PUBLIC_FLAGS_MAX := 127;
  FLAGS_LONG_HEADER := 128; VERSION_NEGOTIATION := 1;
  kPublicFlagsSize := 1; kQuicVersionSize := 4; kPacketHeaderTypeSize := 1;
  kDiversificationNonceSize := 32; kMaxPacketSize := 1452; kUFloat16MaxValue := 0x3FFC0000000;
  kQuicPathFrameBufferSize := 8;
  PADDING_FRAME := 0; RST_STREAM_FRAME := 1; CONNECTION_CLOSE_FRAME := 2; GOAWAY_FRAME := 3;
  WINDOW_UPDATE_FRAME := 4; BLOCKED_FRAME := 5; STOP_WAITING_FRAME := 6; PING_FRAME := 7;
  STREAM_FRAME := 8; ACK_FRAME := 9; MTU_DISCOVERY_FRAME := 10; NUM_FRAME_TYPES := 11;
  IETF_RST_STREAM := 1; IETF_CONNECTION_CLOSE := 2; IETF_APPLICATION_CLOSE := 3; IETF_MAX_DATA := 4;
  IETF_MAX_STREAM_DATA := 5; IETF_MAX_STREAM_ID := 6; IETF_BLOCKED := 8; IETF_STREAM_BLOCKED := 9;
  IETF_STREAM_ID_BLOCKED := 10; IETF_STOP_SENDING := 12; IETF_ACK := 13; IETF_PATH_CHALLENGE := 14;
  IETF_PATH_RESPONSE := 15; IETF_STREAM := 16;
  IETF_STREAM_FRAME_FIN_BIT := 1; IETF_STREAM_FRAME_LEN_BIT := 2; IETF_STREAM_FRAME_OFF_BIT := 4;
  QUIC_NO_ERROR := 0; QUIC_INTERNAL_ERROR := 1; QUIC_INVALID_PACKET_HEADER := 3;
  QUIC_INVALID_VERSION_NEGOTIATION_PACKET := 10; QUIC_DECRYPTION_FAILURE := 12;
  QUIC_ENCRYPTION_FAILURE := 13; QUIC_PACKET_TOO_LARGE := 14; QUIC_INVALID_PUBLIC_RST_PACKET := 11;
  QUIC_MISSING_PAYLOAD := 48; QUIC_INVALID_FRAME_DATA := 4; QUIC_INVALID_STREAM_DATA := 46;
  QUIC_INVALID_ACK_DATA := 9; QUIC_INVALID_RST_STREAM_DATA := 6;
  QUIC_INVALID_CONNECTION_CLOSE_DATA := 7; QUIC_INVALID_GOAWAY_DATA := 8;
  QUIC_INVALID_WINDOW_UPDATE_DATA := 57; QUIC_INVALID_BLOCKED_DATA := 58;
  QUIC_INVALID_STOP_WAITING_DATA := 60; QUIC_LAST_ERROR := 100; QUIC_STREAM_LAST_ERROR := 24;
  ENCRYPTION_NONE := 0; ENCRYPTION_INITIAL := 1; NUM_ENCRYPTION_LEVELS := 3;
  kPRST := 0x54535250; kRNON := 0x4e4f4e52; kCADR := 0x52444143; kCHLO := 0x4f4c4843;
|}.

#[export] Instance quic_types_ok : QuicTypesOk quic_types.
Proof.
  constructor; cbn; repeat split; try lia;
    repeat (constructor; [solve [unfold in_u; lia | lia]|]); try constructor.
Qed.

(** ** Variable-length integers *)

Definition varint (v : Z) : list Z :=
  if v <? 2 ^ 6 then be_bytes 1 v
  else if v <? 2 ^ 14 then be_bytes 2 (2 ^ 14 + v)
  else if v <? 2 ^ 30 then be_bytes 4 (2 ^ 31 + v)
  else be_bytes 8 (3 * 2 ^ 62 + v).

Definition parse_varint (l : list Z) : option (Z * list Z) :=
  match l with
  | [] => None
  | b :: _ =>
      let n := if b <? 64 then 1 else if b <? 128 then 2 else if b <? 192 then 4 else 8 in
      '(bs, l) ← p_bytes n l; Some (be_val bs mod 2 ^ (8 * n - 2), l)
  end.

Lemma varint_case n k v l : (n = 1 \/ n = 2 \/ n = 4 \/ n = 8)%nat ->
  k = (if (n =? 1)%nat then 0 else if (n =? 2)%nat then 1 else if (n =? 4)%nat then 2 else 3) ->
  0 <= v < 2 ^ (8 * Z.of_nat n - 2) ->
  parse_varint (be_bytes n (k * 2 ^ (8 * Z.of_nat n - 2) + v) ++ l) = Some (v, l).
Proof.
  intros Hn Hk Hv.
  assert (in_u (8 * Z.of_nat n) (k * 2 ^ (8 * Z.of_nat n - 2) + v)) as Hin.
  { unfold in_u. repeat destruct Hn as [-> | Hn]; [..|rewrite Hn in *]; cbn in Hk, Hv |- *; lia. }
  assert (exists b r, be_bytes n (k * 2 ^ (8 * Z.of_nat n - 2) + v) = b :: r /\
    (if b <? 64 then 1 else if b <? 128 then 2 else if b <? 192 then 4 else 8) = Z.of_nat n) as (b & r & E & En).
  { repeat destruct Hn as [-> | Hn]; [..|rewrite Hn in *]; cbn in Hk; subst k; cbn [be_bytes];
      do 2 eexists; (split; [reflexivity|]); cbn in Hv; rewrite Z.shiftr_div_pow2 by lia; cbn;
      unfold wrap; change (2 ^ 8) with 256.
    all: match goal with |- context [?x mod 256] => let y := fresh in remember (x mod 256) as y eqn:Ey end.
    all: repeat match goal with |- context [?a <? ?b] => destruct (Z.ltb_spec a b) end; try done;
      exfalso; Z.to_euclidean_division_equations; lia. }
  unfold parse_varint. rewrite E. cbn [app]. rewrite En.
  change (b :: r ++ l) with ((b :: r) ++ l). rewrite <- E.
  rewrite p_bytes_app' by (by rewrite zlen_be). cbn [mbind option_bind].
  rewrite be_val_bytes_id by done. do 2 f_equal.
  rewrite Z.add_comm, Z_mod_plus_full. by apply Z.mod_small.
Qed.

Lemma parse_varint_varint v l : in_u 62 v -> parse_varint (varint v ++ l) = Some (v, l).
Proof.
  unfold in_u. change (2 ^ 62) with 4611686018427387904. intros Hv. unfold varint.
  destruct (Z.ltb_spec v (2 ^ 6)); [apply (varint_case 1 0 v l); auto; cbn in *; lia|].
  destruct (Z.ltb_spec v (2 ^ 14)); [apply (varint_case 2 1 v l); auto; cbn in *; lia|].
  destruct (Z.ltb_spec v (2 ^ 30)); [apply (varint_case 4 2 v l); auto; cbn in *; lia|].
  apply (varint_case 8 3 v l); auto; cbn in *; lia.
Qed.

Lemma parse_varint_ok : p_ok parse_varint (in_u 62).
Proof.
  intros l a l' Hl. destruct l as [|b l]; [done|]. unfold parse_varint.
  set (n := if b <? 64 then _ else _). destruct (p_bytes n (b :: l)) as [[bs l1]|] eqn:E; [|done].
  apply p_bytes_ok in E as (Hs & Hn & Hb); [|done]. cbn. intros [= <- <-]. split; [done|].
  assert (1 <= n <= 8) as Hr by (subst n; repeat case_match; lia).
  pose proof (Z.mod_pos_bound (be_val bs) (2 ^ (8 * n - 2)) ltac:(apply Z.pow_pos_nonneg; lia)).
  assert (2 ^ (8 * n - 2) <= 2 ^ 62) by (apply Z.pow_le_mono_r; lia). unfold in_u. lia.
Qed.

Lemma parse_varint_shorter l v l' : parse_varint l = Some (v, l') -> zlen l' < zlen l.
Proof.
  destruct l as [|b l]; [done|]. unfold parse_varint. set (n := if b <? 64 then _ else _).
  unfold p_bytes. destruct (_ && _) eqn:E; [|done]. cbn. intros [= _ <-].
  apply andb_true_iff in E as [E1%Z.leb_le E2%Z.leb_le].
  rewrite zlen_zdrop by lia. subst n. repeat case_match; lia.
Qed.

(** ** Library functions *)

Definition swap32 (v : Z) : Z := be_val (le_bytes 4 v).

Lemma swap32_range v : in_u 32 (swap32 v).
Proof.
  pose proof (be_val_range (le_bytes 4 v) (le_bytes_ok _ _)) as H. by rewrite le_bytes_length in H.
Qed.

Lemma swap32_swap32 v : in_u 32 v -> swap32 (swap32 v) = v.
Proof.
  intros Hv. unfold swap32. unfold le_bytes at 1.
  pose proof (be_bytes_val (le_bytes 4 v) (le_bytes_ok _ _)) as H. rewrite le_bytes_length in H.
  rewrite H. unfold le_bytes. rewrite rev_involutive. by apply be_val_bytes_id.
Qed.

(** A version's label is its handshake protocol and its number. *)
Definition version_label (v : ParsedQuicVersion) : Z :=
  u16 (handshake_protocol v) * 65536 + u16 (transport_version v).

#[export] Instance quic_functions : QuicFunctions := {|
  ufloat16_encode := u16; ufloat16_decode := fun v => v;
  varint_bytes := varint; MaxVarIntStreamId := 2 ^ 32 - 1;
  QuicStrCat := fun l => match l with inl s :: _ => s | _ => ""%string end;
  Uint64ToString := fun _ => "n"%string;
  HostToNet32 := swap32; NetToHost32 := swap32;
  CreateQuicVersionLabel := version_label;
  ParseQuicVersionLabel := fun l => mkVersion (l / 65536) (l mod 65536);
  GetStartOfEncryptedData := fun _ cid_len vflag nflag pn_len =>
    1 + cid_len + (if vflag : bool then 4 else 0) + (if nflag : bool then 32 else 0) + pn_len;
|}.

Lemma varint_props v : 0 <= v < 2 ^ 62 -> bytes_ok (varint v) /\ 1 <= zlen (varint v) <= 8.
Proof.
  intros _. unfold varint. split; repeat case_match; auto with bytes; rewrite zlen_be; lia.
Qed.

#[export] Instance quic_functions_ok : QuicFunctionsOk quic_functions.
Proof.
  constructor; cbn [ufloat16_encode ufloat16_decode varint_bytes MaxVarIntStreamId QuicStrCat HostToNet32
    NetToHost32 CreateQuicVersionLabel ParseQuicVersionLabel GetStartOfEncryptedData quic_functions]; intros; auto.
  - by apply wrap_range.
  - unfold in_u in *. change (2 ^ 16) with 65536 in *. change (2 ^ 62) with 4611686018427387904. lia.
  - by apply varint_props.
  - by apply varint_props.
  - change (2 ^ 32) with 4294967296. lia.
  - apply swap32_range.
  - by apply swap32_swap32.
  - unfold version_label. pose proof (wrap_range 16 (handshake_protocol v) ltac:(lia)).
    pose proof (wrap_range 16 (transport_version v) ltac:(lia)). unfold in_u in *.
    change (2 ^ 16) with 65536 in *. change (2 ^ 32) with 4294967296. lia.
Qed.

(** ** The reader *)

Record list_reader := mkReader { lr_data : list Z; lr_endian : Endianness }.

(** Runs a parser; a failed read skips to the end. *)
Definition run_parser {A} (p : Endianness -> list Z -> option (A * list Z)) (r : list_reader) :
    option A * list_reader :=
  match p (lr_endian r) (lr_data r) with
  | Some (a, l) => (Some a, mkReader l (lr_endian r))
  | None => (None, mkReader [] (lr_endian r))
  end.

#[export] Instance list_reader_ops : ReaderOps := {|
  QuicDataReader := list_reader;
  new_reader := mkReader;
  ReadBytes n := run_parser (fun _ => p_bytes n);
  ReadUInt8 := run_parser (p_uint 1);
  ReadUInt16 := run_parser (p_uint 2);
  ReadUInt32 := run_parser (p_uint 4);
  ReadUInt64 := run_parser (p_uint 8);
  ReadBytesToUInt64 n := run_parser (p_uint (Z.to_nat n));
  ReadUFloat16 := run_parser (fun en l => '(v, l) ← p_uint 2 en l; Some (ufloat16_decode v, l));
  ReadStringPiece16 := run_parser p_string16;
  ReadStringPiece n := run_parser (fun _ => p_bytes n);
  ReadRemainingPayload r := (lr_data r, mkReader [] (lr_endian r));
  ReadConnectionId := run_parser (fun _ => p_uint 8 NETWORK_BYTE_ORDER);
  ReadTag := run_parser (fun _ => p_uint 4 HOST_BYTE_ORDER);
  ReadVarInt62 := run_parser (fun _ => parse_varint);
  ReadVarIntStreamId := run_parser (fun _ l =>
    '(v, l) ← parse_varint l; if v <=? MaxVarIntStreamId then Some (v, l) else None);
  IsDoneReading r := match lr_data r with [] => true | _ => false end;
  BytesRemaining r := zlen (lr_data r);
  PeekByte r := match lr_data r with [] => 0 | b :: _ => b end;
  set_endianness en r := mkReader (lr_data r) en;
|}.

#[export] Instance list_reader_view : ReaderView := {|
  remaining := lr_data; rendian := lr_endian; p_varint := parse_varint;
|}.

Lemma run_parser_reads {A} (p : Endianness -> list Z -> option (A * list Z)) : reads (run_parser p) p.
Proof.
  intros r. unfold run_parser. cbn [rendian remaining list_reader_view].
  destruct (p _ _) as [[a l]|]; eexists; (split; [reflexivity|]); [done|].
  split; [|done]. exists (lr_data r). by rewrite app_nil_r.
Qed.

#[export] Instance list_reader_ok : ReaderOk.
Proof.
  constructor; intros; try apply run_parser_reads; try reflexivity.
  - eexists. split; [reflexivity|done].
  - cbn. by destruct (lr_data r).
  - cbn in *. by rewrite H.
  - by apply parse_varint_varint.
  - apply parse_varint_ok.
  - by eapply parse_varint_shorter.
Qed.

(** ** The writer *)

Record list_writer := mkWriter { lw_capacity : Z; lw_data : list Z; lw_endian : Endianness }.

(** What is beyond the capacity is not part of the buffer. *)
Definition lw_written (w : list_writer) : list Z := ztake (lw_capacity w) (lw_data w).
Definition lw_cap (w : list_writer) : Z := Z.max 0 (lw_capacity w).

Definition append (ok : bool) (bs : Endianness -> list Z) (w : list_writer) : bool * list_writer :=
  if ok && (zlen (lw_written w) + zlen (bs (lw_endian w)) <=? lw_cap w)
  then (true, mkWriter (lw_capacity w) (lw_written w ++ bs (lw_endian w)) (lw_endian w))
  else (false, w).

#[export] Instance list_writer_ops : WriterOps := {|
  QuicDataWriter := list_writer;
  new_writer n en := mkWriter n [] en;
  WriteUInt8 v := append true (fun en => uint_bytes en 1 v);
  WriteUInt16 v := append true (fun en => uint_bytes en 2 v);
  WriteUInt32 v := append true (fun en => uint_bytes en 4 v);
  WriteUInt64 v := append true (fun en => uint_bytes en 8 v);
  WriteBytesToUInt64 n v := append true (fun en => uint_bytes en (Z.to_nat n) v);
  WriteUFloat16 v := append true (fun en => uint_bytes en 2 (ufloat16_encode v));
  WriteStringPiece16 s := append (zlen s <=? 65535) (fun en => uint_bytes en 2 (zlen s) ++ s);
  WriteBytes bs := append true (fun _ => bs);
  WritePadding w := mkWriter (lw_capacity w)
    (lw_written w ++ replicate (Z.to_nat (lw_cap w - zlen (lw_written w))) 0) (lw_endian w);
  WritePaddingBytes n := append true (fun _ => replicate (Z.to_nat n) 0);
  WriteUInt8AtOffset v off w :=
    if (0 <=? off) && (off <? zlen (lw_written w))
    then (true, mkWriter (lw_capacity w) (<[Z.to_nat off := u8 v]> (lw_written w)) (lw_endian w))
    else (false, w);
  WriteConnectionId v := append true (fun _ => be_bytes 8 v);
  WriteTag v := append true (fun _ => le_bytes 4 v);
  WriteVarInt62 v := append (v <? 2 ^ 62) (fun _ => varint_bytes v);
  capacity := lw_cap; wlength w := zlen (lw_written w); written := lw_written;
|}.

#[export] Instance list_writer_view : WriterView := {| wendian := lw_endian |}.

Lemma lw_written_cap w : zlen (lw_written w) <= lw_cap w.
Proof.
  unfold lw_written, lw_cap, ztake, zlen. rewrite length_take. lia.
Qed.

(** Within the capacity nothing is cut off. *)
Lemma lw_written_fits c l en : zlen l <= Z.max 0 c -> lw_written (mkWriter c l en) = l.
Proof.
  intros H. unfold lw_written, ztake. cbn. apply take_ge. unfold zlen in H. lia.
Qed.

Lemma append_writes ok bs : writes_if ok (append ok bs) bs.
Proof.
  intros w. unfold append. cbn [wlength capacity list_writer_ops wendian list_writer_view].
  destruct (ok && _) eqn:E.
  - apply andb_true_iff in E as [_ E%Z.leb_le]. eexists. split; [reflexivity|].
    split; [|done]. cbn [written list_writer_ops].
    apply lw_written_fits. by rewrite zlen_app.
  - exists w, []. split; [done|]. split; [split; [by rewrite app_nil_r|done]|].
    split; [apply zlen_nonneg|apply lw_written_cap].
Qed.

#[export] Instance list_writer_ok : WriterOk.
Proof.
  constructor; intros; try apply append_writes; try done.
  - apply lw_written_cap.
  - cbn. unfold lw_written, lw_cap, ztake. cbn. rewrite take_nil. split_and!; [done|lia|done].
  - split; [|done]. cbn. apply lw_written_fits. rewrite zlen_app. unfold zlen at 2.
    rewrite length_replicate. pose proof (lw_written_cap w). unfold lw_cap in *. lia.
  - cbn [WriteUInt8AtOffset wlength list_writer_ops] in *.
    rewrite (proj2 (Z.leb_le _ _)), (proj2 (Z.ltb_lt _ _)) by lia. cbn [andb].
    eexists. split; [reflexivity|]. split; [|done]. cbn. apply lw_written_fits.
    unfold zlen. rewrite length_insert. apply lw_written_cap.
Qed.

(** ** The queue of packet numbers *)

(** Intervals, largest first; a list that is not in order counts as empty. *)
Fixpoint ordered (hi : Z) (l : list (Z * Z)) : bool :=
  match l with
  | [] => true
  | (lo, up) :: l => (0 <=? lo) && (lo <? up) && (up <=? hi) && ordered (lo - 1) l
  end.

Lemma ordered_spec hi l : ordered hi l = true <-> intervals_below hi l.
Proof.
  revert hi. induction l as [|[lo up] l IH]; intros hi; cbn; [done|].
  rewrite !andb_true_iff, !Z.leb_le, Z.ltb_lt, IH. tauto.
Qed.

Definition intervals (l : list (Z * Z)) : list (Z * Z) := if ordered (2 ^ 62) l then l else [].

(** A range added in its place, one interval with those it meets. *)
Fixpoint unite (lo up : Z) (l : list (Z * Z)) : list (Z * Z) :=
  match l with
  | [] => [(lo, up)]
  | (m, x) :: l' =>
      if up <? m then (m, x) :: unite lo up l'
      else if x <? lo then (lo, up) :: l
      else unite (Z.min lo m) (Z.max up x) l'
  end.

#[export] Instance list_queue_ops : PacketQueueOps := {|
  PacketNumberQueue := list (Z * Z);
  empty_queue := [];
  AddRange lo up q := unite lo up (intervals q);
  rev_intervals := intervals;
|}.

Lemma intervals_wf l : intervals_below (2 ^ 62) (intervals l).
Proof. unfold intervals. destruct (ordered _ l) eqn:E; [by apply ordered_spec|done]. Qed.

Lemma intervals_below_more hi hi' l : hi <= hi' -> intervals_below hi l -> intervals_below hi' l.
Proof. destruct l as [|[m x] l]; [done|]. intros Hh (H1 & H2 & H3). split_and!; [lia..|done]. Qed.

Lemma unite_below l : forall hi lo up, intervals_below hi l -> 0 <= lo < up -> up <= hi -> intervals_below hi (unite lo up l).
Proof.
  induction l as [|[m x] l IH]; intros hi lo up Hl Hlo Hup; cbn [unite]; [split_and!; lia || done|].
  destruct Hl as (H1 & H2 & H3). destruct (Z.ltb_spec up m); [split_and!; [lia..|apply IH; [done|lia..]]|].
  destruct (Z.ltb_spec x lo); [split_and!; [lia..|split_and!; [lia..|done]]|].
  apply IH; [eapply intervals_below_more; [|done]; lia|lia..].
Qed.

(** Below everything it goes to the end. *)
Lemma unite_end lo up l : (forall m x, (m, x) ∈ l -> up < m) -> unite lo up l = l ++ [(lo, up)].
Proof.
  induction l as [|[m x] l IH]; intros H; [done|]. cbn [unite].
  rewrite (proj2 (Z.ltb_lt _ _)) by (apply (H m x); by left). rewrite IH; [done|]. intros m' x' Hin. apply (H m' x'). by right.
Qed.

Lemma intervals_wf_id l : intervals_below (2 ^ 62) l -> intervals l = l.
Proof. intros H. unfold intervals. by rewrite (proj2 (ordered_spec _ _)). Qed.

#[export] Instance list_queue_ok : PacketQueueOk list_queue_ops.
Proof.
  constructor; [done|apply intervals_wf|]. intros q lo up Hlo Hup Hall. cbn in *.
  rewrite intervals_wf_id; [by apply unite_end|]. apply unite_below; [apply intervals_wf|done..].
Qed.

#[export] Instance list_ack_ops : AckOps := {| LargestAcked := largest_acked |}.

#[export] Instance list_ack_ok : AckOk list_ack_ops.
Proof. by constructor. Qed.

(** ** Encryption: a checksum of the associated data and the packet number *)

Definition seal (pn : Z) (ad plain : list Z) : Z := (pn + foldr Z.add 0 ad + foldr Z.add 0 plain) mod 256.

Definition open_sealed (pn : Z) (ad ct : list Z) : option (list Z) :=
  match rev ct with
  | [] => None
  | tag :: r => if tag =? seal pn ad (rev r) then Some (rev r) else None
  end.

Lemma open_seal pn ad plain : open_sealed pn ad (plain ++ [seal pn ad plain]) = Some plain.
Proof.
  unfold open_sealed. rewrite rev_app_distr. cbn [rev app]. by rewrite rev_involutive, Z.eqb_refl.
Qed.

#[export] Instance seal_crypto : CryptoOps := {|
  QuicDecrypter := Z; QuicEncrypter := Z;
  NullDecrypter _ := 0; NullEncrypter _ := 0;
  DecryptPacket _ pn ad ct max d :=
    if zlen ct - 1 <=? max then (open_sealed pn ad ct, d + 1) else (None, d + 1);
  SetDiversificationNonce _ d := d;
  EncryptPacket _ pn ad plain max e :=
    if zlen plain + 1 <=? max then (Some (plain ++ [seal pn ad plain]), e + 1) else (None, e + 1);
  EncrypterMaxPlaintextSize n _ := n - 1;
  CryptoHandshakeMessage := Z * list (Z * list Z);
  ParseMessage bs _ := Some (kPRST, [(kRNON, bs)]);
  message_tag m := m.1;
  GetUint64 t m := match m.2 with (t', bs) :: _ => if t =? t' then Some (le_val bs) else None | _ => None end;
  GetStringPiece t m := None;
  new_message := (0, []);
  set_tag t m := (t, m.2);
  SetValue t v m := (m.1, m.2 ++ [(t, le_bytes 8 v)]);
  SetStringPiece t s m := (m.1, m.2 ++ [(t, s)]);
  GetSerialized _ m := concat (map snd m.2);
  QuicSocketAddress := Z; default_address := 0;
  address_unspecified a := a =? 0; encode_address a := be_bytes 4 a; decode_address bs := Some (be_val bs);
  QuicStreamFrameDataProducer := list Z;
|}.

(** ** The visitor: a log *)

Inductive event :=
  | EError | EVersion (v : ParsedQuicVersion) | EPacket | EPublicReset (p : QuicPublicResetPacket)
  | EVersionNegotiation (p : QuicVersionNegotiationPacket)
  | EPublicHeader (h : QuicPacketHeader) | EHeader (h : QuicPacketHeader) | EDecrypted (level : Z)
  | EPacketHeader (h : QuicPacketHeader) | EFrame (f : QuicFrame)
  | EAckStart (largest : Z) (delay : Delta) | EAckRange (start stop : Z) (last : bool)
  | EComplete | EStatelessReset.

#[export] Instance log_visitor : VisitorOps := {|
  Visitor := list event;
  OnError _ v := v ++ [EError];
  OnProtocolVersionMismatch ver f v := (true, (put_version ver f, v ++ [EVersion ver]));
  OnPacket v := v ++ [EPacket];
  OnPublicResetPacket p v := v ++ [EPublicReset p];
  OnVersionNegotiationPacket p v := v ++ [EVersionNegotiation p];
  OnUnauthenticatedPublicHeader h v := (true, v ++ [EPublicHeader h]);
  OnUnauthenticatedHeader h v := (true, v ++ [EHeader h]);
  OnDecryptedPacket level v := v ++ [EDecrypted level];
  OnPacketHeader h v := (true, v ++ [EPacketHeader h]);
  OnStreamFrame s v := (true, v ++ [EFrame (StreamFrame (Some s))]);
  OnAckFrame a v := (true, v ++ [EFrame (AckFrame (Some a))]);
  OnAckFrameStart l d v := (true, v ++ [EAckStart l d]);
  OnAckRange s t last v := (true, v ++ [EAckRange s t last]);
  OnStopWaitingFrame s v := (true, v ++ [EFrame (StopWaitingFrame s)]);
  OnPaddingFrame p v := (true, v ++ [EFrame (PaddingFrame p)]);
  OnPingFrame v := (true, v ++ [EFrame PingFrame]);
  OnRstStreamFrame r v := (true, v ++ [EFrame (RstStreamFrame r)]);
  OnConnectionCloseFrame c v := (true, v ++ [EFrame (ConnectionCloseFrame c)]);
  OnGoAwayFrame g v := (true, v ++ [EFrame (GoAwayFrame g)]);
  OnWindowUpdateFrame w v := (true, v ++ [EFrame (WindowUpdateFrame w)]);
  OnBlockedFrame b v := (true, v ++ [EFrame (BlockedFrame b)]);
  OnPacketComplete v := v ++ [EComplete];
  IsValidStatelessResetToken _ _ := false;
  OnAuthenticatedIetfStatelessResetPacket _ v := v ++ [EStatelessReset];
|}.

(** ** The data producer: the bytes of the one stream *)

#[export] Instance list_producer : ProducerOps := {|
  WriteStreamData p _ off n w :=
    match load p off n with
    | Some bs => append true (fun _ => bs) w
    | None => (false, w)
    end;
|}.

#[export] Instance list_producer_view : ProducerView := {| stream_data p _ off n := load p off n |}.

#[export] Instance list_producer_ok : ProducerOk list_producer.
Proof.
  constructor; cbn; intros.
  - by eapply load_length.
  - rewrite H. apply append_writes.
Qed.

(** ** An environment *)

(** A framer in the given role and version, its visitor set. *)
Definition demo_framer (p : Perspective) (version : Z) : MyQuicFramer := {|
  detailed_error_ := ""; visitor_ := true; error_ := QUIC_NO_ERROR; largest_packet_number_ := 0;
  last_serialized_connection_id_ := 0; last_version_label_ := 0; last_packet_is_ietf_quic_ := false;
  version_ := mkVersion 1 version; supported_versions_ := [mkVersion 1 version];
  decrypter_ := Some 0; alternative_decrypter_ := None; decrypter_level_ := ENCRYPTION_NONE;
  alternative_decrypter_level_ := ENCRYPTION_NONE; alternative_decrypter_latch_ := false;
  encrypter_ := [Some 0; None; None]; perspective_ := p; validate_flags_ := true;
  creation_time_ := mkTime 0; last_timestamp_ := Delta_Zero; last_nonce_ := replicate 32 0;
  data_producer_ := None; use_incremental_ack_processing_ := true |}.

Definition demo_env (f : MyQuicFramer) (input : list Z) (en : Endianness) : env :=
  mkEnv f [] (new_reader input en) (new_writer 1452 en).
