(* ===== verification/FramerStream.v ===== *)
(** * Stream frames: what is written is what is read

    The sizes of the fields, the type byte that carries them, and the bytes of
    a stream frame in both wire formats. *)

From stdpp Require Import sets.
From S2P Require Import Prelude QuicTime FramerTypes FramerNumbers FramerAppend FramerProcess FramerWire.
From S2P Require Import FramerCodec.
Open Scope Z_scope.

(** ** Values *)

Section Values.
Context `{TO : QuicTypesOk}.

Lemma V37 : QUIC_VERSION_37 = 37. Proof. apply versions_values. Qed.
Lemma V38 : QUIC_VERSION_38 = 38. Proof. apply versions_values. Qed.
Lemma V41 : QUIC_VERSION_41 = 41. Proof. apply versions_values. Qed.
Lemma PN1 : PACKET_1BYTE_PACKET_NUMBER = 1. Proof. apply pn_len_values. Qed.
Lemma PN2 : PACKET_2BYTE_PACKET_NUMBER = 2. Proof. apply pn_len_values. Qed.
Lemma PN4 : PACKET_4BYTE_PACKET_NUMBER = 4. Proof. apply pn_len_values. Qed.
Lemma PN6 : PACKET_6BYTE_PACKET_NUMBER = 6. Proof. apply pn_len_values. Qed.
Lemma PN8 : PACKET_8BYTE_PACKET_NUMBER = 8. Proof. apply pn_len_values. Qed.
Lemma PF1 : PACKET_FLAGS_1BYTE_PACKET = 0. Proof. apply pn_flag_values. Qed.
Lemma PF2 : PACKET_FLAGS_2BYTE_PACKET = 1. Proof. apply pn_flag_values. Qed.
Lemma PF4 : PACKET_FLAGS_4BYTE_PACKET = 2. Proof. apply pn_flag_values. Qed.
Lemma PF8 : PACKET_FLAGS_8BYTE_PACKET = 3. Proof. apply pn_flag_values. Qed.
Lemma FT0 : PADDING_FRAME = 0. Proof. apply frame_type_values. Qed.
Lemma FT1 : RST_STREAM_FRAME = 1. Proof. apply frame_type_values. Qed.
Lemma FT2 : CONNECTION_CLOSE_FRAME = 2. Proof. apply frame_type_values. Qed.
Lemma FT3 : GOAWAY_FRAME = 3. Proof. apply frame_type_values. Qed.
Lemma FT4 : WINDOW_UPDATE_FRAME = 4. Proof. apply frame_type_values. Qed.
Lemma FT5 : BLOCKED_FRAME = 5. Proof. apply frame_type_values. Qed.
Lemma FT6 : STOP_WAITING_FRAME = 6. Proof. apply frame_type_values. Qed.
Lemma FT7 : PING_FRAME = 7. Proof. apply frame_type_values. Qed.
Lemma PPV : PACKET_PUBLIC_FLAGS_VERSION = 1. Proof. apply public_flag_values. Qed.
Lemma PPR : PACKET_PUBLIC_FLAGS_RST = 2. Proof. apply public_flag_values. Qed.
Lemma PPN : PACKET_PUBLIC_FLAGS_NONCE = 4. Proof. apply public_flag_values. Qed.
Lemma PP0 : PACKET_PUBLIC_FLAGS_0BYTE_CONNECTION_ID = 0. Proof. apply public_flag_values. Qed.
Lemma PP8 : PACKET_PUBLIC_FLAGS_8BYTE_CONNECTION_ID = 8. Proof. apply public_flag_values. Qed.
Lemma PP8O : PACKET_PUBLIC_FLAGS_8BYTE_CONNECTION_ID_OLD = 12. Proof. apply public_flag_values. Qed.
Lemma PPM : 63 <= PACKET_PUBLIC_FLAGS_MAX < 256. Proof. apply public_flag_values. Qed.
Lemma CL0 : PACKET_0BYTE_CONNECTION_ID = 0. Proof. apply cid_len_values. Qed.
Lemma CL8 : PACKET_8BYTE_CONNECTION_ID = 8. Proof. apply cid_len_values. Qed.
End Values.

Create Rewrite HintDb quic.
#[export] Hint Rewrite @V37 @V38 @V41 @PN1 @PN2 @PN4 @PN6 @PN8 @PF1 @PF2 @PF4 @PF8
  @FT0 @FT1 @FT2 @FT3 @FT4 @FT5 @FT6 @FT7
  @PPV @PPR @PPN @PP0 @PP8 @PP8O @CL0 @CL8 using typeclasses eauto : quic.

(** ** The sizes of the fields *)

Lemma shiftr_zero x k : 0 <= x -> 0 <= k -> (Z.shiftr x k =? 0) = (x <? 2 ^ k).
Proof.
  intros. rewrite Z.shiftr_div_pow2 by done. pose proof (Z.pow_pos_nonneg 2 k ltac:(lia) ltac:(lia)).
  destruct (Z.ltb_spec x (2 ^ k)); [by rewrite Z.div_small by lia|].
  apply Z.eqb_neq. intros E. pose proof (Z.div_le_lower_bound x (2 ^ k) 1 ltac:(lia) ltac:(lia)). lia.
Qed.

Ltac size_cases :=
  repeat match goal with
  | |- context [if ?b then _ else _] => destruct b eqn:?
  end;
  rewrite ?Z.ltb_lt, ?Z.ltb_ge, ?Z.eqb_eq, ?Z.eqb_neq in *.

Lemma stream_id_size id : in_u 32 id ->
  1 <= GetStreamIdSize id <= 4 /\ in_u (8 * GetStreamIdSize id) id.
Proof.
  unfold in_u. intros. unfold GetStreamIdSize. cbn [stream_id_size_loop].
  rewrite !Z.shiftr_shiftr, !shiftr_zero by lia. size_cases; split; try lia;
    (split; [lia|]); cbn in *; lia.
Qed.

Definition offset_sizes_pre40 : list Z := [0; 2; 3; 4; 5; 6; 7; 8].
Definition offset_sizes_41 : list Z := [0; 2; 4; 8].

Section Sizes.
Context `{TO : QuicTypesOk}.

Lemma stream_offset_size tv off : in_u 64 off ->
  GetStreamOffsetSize tv off ∈ (if tv =? 41 then offset_sizes_41 else offset_sizes_pre40) /\
  in_u (8 * GetStreamOffsetSize tv off) off.
Proof.
  unfold in_u. change (2 ^ 64) with 18446744073709551616. intros.
  unfold GetStreamOffsetSize. autorewrite with quic.
  destruct (tv =? 41); cbn [negb stream_offset_size_loop stream_offset_size_loop_41].
  - rewrite !shiftr_zero by lia. size_cases; (split; [set_solver|]); cbn in *; lia.
  - rewrite !Z.shiftr_shiftr, !shiftr_zero by lia.
    size_cases; subst; (split; [set_solver|]); cbn in *; lia.
Qed.

Lemma stream_offset_size_bounds tv off : in_u 64 off ->
  0 <= GetStreamOffsetSize tv off <= 8 /\ GetStreamOffsetSize tv off <> 1.
Proof.
  intros H. apply (stream_offset_size tv) in H as [H _]. revert H.
  unfold offset_sizes_41, offset_sizes_pre40. destruct (tv =? 41); set_unfold; lia.
Qed.

(** ** The type byte *)

(** A bit of the type byte, for each of the finitely many cases. *)
Ltac byte_cases H1 H2 :=
  match type of H1 with 1 <= ?n <= 4 =>
    let Hn := fresh in assert (n = 1 \/ n = 2 \/ n = 3 \/ n = 4) as Hn by lia;
    clear H1; revert Hn; generalize n end;
  match type of H2 with ?o ∈ _ => revert H2; generalize o end.

Lemma stream_type_fields_pre40 tv s nolen :
  tv <> 41 -> in_u 32 (sf_stream_id s) -> in_u 64 (sf_offset s) ->
  stream_type_fields tv (stream_type_byte_pre40 tv s nolen) =
    (GetStreamIdSize (sf_stream_id s), GetStreamOffsetSize tv (sf_offset s), negb nolen, sf_fin s) /\
  in_u 8 (stream_type_byte_pre40 tv s nolen) /\
  has_bits (stream_type_byte_pre40 tv s nolen) kQuicFrameTypeStreamMask_Pre40 = true.
Proof.
  intros Hv Hid Hoff. unfold stream_type_fields, stream_type_byte_pre40. autorewrite with quic.
  apply stream_id_size in Hid as [Hid _]. apply (stream_offset_size tv) in Hoff as [Hoff _].
  rewrite (proj2 (Z.eqb_neq _ _) Hv) in *. cbn [negb].
  byte_cases Hid Hoff. intros o Ho n Hn. unfold offset_sizes_pre40 in Ho. set_unfold.
  destruct (sf_fin s), nolen; repeat (destruct Ho as [-> | Ho]); try (exfalso; exact Ho);
    repeat destruct Hn as [-> | Hn]; subst; (split; [reflexivity|split; [|reflexivity]]);
    split; vm_compute; congruence.
Qed.

Lemma stream_type_fields_41 s nolen :
  in_u 32 (sf_stream_id s) -> in_u 64 (sf_offset s) ->
  stream_type_fields 41 (stream_type_byte_41 41 s nolen) =
    (GetStreamIdSize (sf_stream_id s), GetStreamOffsetSize 41 (sf_offset s), negb nolen, sf_fin s) /\
  in_u 8 (stream_type_byte_41 41 s nolen) /\
  Z.land (stream_type_byte_41 41 s nolen) kQuicFrameTypeStreamMask = kQuicFrameTypeStreamMask.
Proof.
  intros Hid Hoff. unfold stream_type_fields, stream_type_byte_41. autorewrite with quic.
  apply stream_id_size in Hid as [Hid _]. apply (stream_offset_size 41) in Hoff as [Hoff _].
  cbn [negb Z.eqb Pos.eqb] in *.
  byte_cases Hid Hoff. intros o Ho n Hn. unfold offset_sizes_41 in Ho. set_unfold.
  destruct (sf_fin s), nolen; repeat (destruct Ho as [-> | Ho]); try (exfalso; exact Ho);
    repeat destruct Hn as [-> | Hn]; subst; (split; [reflexivity|split; [|reflexivity]]);
    split; vm_compute; congruence.
Qed.

(** The type byte the framer writes. *)
Definition stream_type_byte (tv : Z) (s : QuicStreamFrame) (nolen : bool) : Z :=
  if negb (tv =? QUIC_VERSION_41) then stream_type_byte_pre40 tv s nolen
  else stream_type_byte_41 tv s nolen.

Lemma stream_type_byte_ok tv s nolen :
  in_u 32 (sf_stream_id s) -> in_u 64 (sf_offset s) ->
  stream_type_fields tv (stream_type_byte tv s nolen) =
    (GetStreamIdSize (sf_stream_id s), GetStreamOffsetSize tv (sf_offset s), negb nolen, sf_fin s) /\
  in_u 8 (stream_type_byte tv s nolen) /\
  is_stream_type tv (stream_type_byte tv s nolen) = true /\
  has_bits (stream_type_byte tv s nolen) kQuicFrameTypeSpecialMask = true.
Proof.
  intros Hid Hoff. unfold stream_type_byte, is_stream_type. autorewrite with quic.
  destruct (Z.eqb_spec tv 41) as [->|Hv]; cbn [negb].
  - destruct (stream_type_fields_41 s nolen Hid Hoff) as (H1 & H2 & H3).
    split; [done|]. split; [done|]. rewrite H3. split; [done|].
    unfold has_bits. apply negb_true_iff, Z.eqb_neq. intros E.
    assert (Z.land (Z.land (stream_type_byte_41 41 s nolen) kQuicFrameTypeSpecialMask)
              kQuicFrameTypeStreamMask = 0) as E' by (by rewrite E).
    rewrite <- Z.land_assoc in E'. change (Z.land kQuicFrameTypeSpecialMask kQuicFrameTypeStreamMask)
      with kQuicFrameTypeStreamMask in E'. rewrite H3 in E'. discriminate.
  - destruct (stream_type_fields_pre40 tv s nolen Hv Hid Hoff) as (H1 & H2 & H3).
    split; [done|]. split; [done|]. rewrite H3. split; [done|].
    unfold has_bits in *. apply negb_true_iff, Z.eqb_neq. apply negb_true_iff, Z.eqb_neq in H3.
    intros E. apply H3.
    change kQuicFrameTypeStreamMask_Pre40 with (Z.land kQuicFrameTypeSpecialMask kQuicFrameTypeStreamMask_Pre40).
    rewrite Z.land_assoc, E. done.
Qed.
End Sizes.

(** ** The frame *)

Section Stream.
Context `{T : QuicTypes} `{Q : PacketQueueOps} `{A : !AckOps} `{C : CryptoOps} `{F : QuicFunctions}
  `{R : ReaderOps} `{W : WriterOps} `{V : !VisitorOps} `{P : !ProducerOps}
  `{RV : !ReaderView} `{WV : !WriterView} `{RO : !ReaderOk} `{WO : !WriterOk}
  `{PV : !ProducerView} `{PO : !ProducerOk P} `{TO : !QuicTypesOk T}.

(** The bytes of a frame's data: the producer's, or those of the buffer. *)
Definition frame_data (f : MyQuicFramer) (s : QuicStreamFrame) : option (list Z) :=
  match data_producer_ f with
  | Some p => if sf_data_length s =? 0 then Some []
              else stream_data p (sf_stream_id s) (sf_offset s) (sf_data_length s)
  | None => load (default [] (sf_data_buffer s)) 0 (sf_data_length s)
  end.

(** A frame the wire format can carry, with its data. *)
Definition stream_fits (s : QuicStreamFrame) (data : list Z) : Prop :=
  in_u 32 (sf_stream_id s) /\ in_u 64 (sf_offset s) /\ in_u 16 (sf_data_length s) /\
  zlen data = sf_data_length s.

Definition stream_ok (f : MyQuicFramer) (s : QuicStreamFrame) (data : list Z) : Prop :=
  in_u 32 (sf_stream_id s) /\ in_u 64 (sf_offset s) /\ in_u 16 (sf_data_length s) /\
  frame_data f s = Some data.

(** Its bytes after the type byte. *)
Definition stream_wire (tv : Z) (en : Endianness) (s : QuicStreamFrame) (data : list Z) (nolen : bool) :
    list Z :=
  uint_bytes en (Z.to_nat (GetStreamIdSize (sf_stream_id s))) (sf_stream_id s) ++
  uint_bytes en (Z.to_nat (GetStreamOffsetSize tv (sf_offset s))) (sf_offset s) ++
  (if nolen then [] else uint_bytes en 2 (sf_data_length s)) ++ data.

Definition received (s : QuicStreamFrame) (data : list Z) : QuicStreamFrame :=
  mkStreamFrame (sf_stream_id s) (sf_fin s) (sf_offset s) (sf_data_length s) (Some data).

Lemma frame_data_len f s data : frame_data f s = Some data -> zlen data = sf_data_length s.
Proof.
  unfold frame_data. destruct (data_producer_ f).
  - destruct (Z.eqb_spec (sf_data_length s) 0) as [E|]; [by intros [= <-]|apply stream_data_len].
  - apply load_length.
Qed.

Lemma stream_ok_fits f s data : stream_ok f s data -> stream_fits s data.
Proof. intros (H1 & H2 & H3 & H4%frame_data_len). by split_and!. Qed.

Lemma emits_data f en s data : frame_data f s = Some data ->
  emits f en tt data
    (match data_producer_ f with
     | Some p => if sf_data_length s =? 0 then mret tt
                 else wr_op (WriteStreamData p (sf_stream_id s) (sf_offset s) (sf_data_length s))
     | None => write_frame_data s
     end).
Proof.
  unfold frame_data, write_frame_data. destruct (data_producer_ f) as [p|]; [destruct (_ =? 0)|].
  - intros [= <-]. apply emits_ret.
  - intros E. by apply (emits_op _ en _ (fun _ => data)), WriteStreamData_ok.
  - intros ->. apply (emits_op _ en _ (fun _ => data)), WriteBytes_ok.
Qed.

Lemma emits_uint f en n v : 0 <= n <= 8 ->
  emits f en tt (uint_bytes en (Z.to_nat n) v) (wr_op (WriteBytesToUInt64 n v)).
Proof. intros. by apply (emits_op _ _ _ (fun en => uint_bytes en _ v)), WriteBytesToUInt64_ok. Qed.

Lemma emits_stream_id f en n v : 1 <= n <= 4 ->
  emits f en tt (uint_bytes en (Z.to_nat n) v) (AppendStreamId n v).
Proof.
  intros. unfold AppendStreamId. rewrite (proj2 (Z.eqb_neq n 0)), (proj2 (Z.ltb_ge 4 n)) by lia.
  apply emits_uint. lia.
Qed.

Lemma emits_stream_offset f en n v : 0 <= n <= 8 -> n <> 1 ->
  emits f en tt (uint_bytes en (Z.to_nat n) v) (AppendStreamOffset n v).
Proof.
  intros. unfold AppendStreamOffset. rewrite (proj2 (Z.eqb_neq n 1)), (proj2 (Z.ltb_ge 8 n)) by lia.
  by apply emits_uint.
Qed.

Lemma emits_stream f en s data nolen :
  stream_ok f s data ->
  emits f en tt (stream_wire (transport_version (version_ f)) en s data nolen) (AppendStreamFrame s nolen).
Proof.
  intros (Hid & Hoff & Hlen & Hd). unfold AppendStreamFrame, stream_wire, tversion.
  apply emits_gets. eapply emits_bind; [by apply emits_stream_id, stream_id_size|].
  eapply emits_bind; [apply emits_stream_offset; by apply stream_offset_size_bounds|].
  eapply emits_bind; [|by apply emits_gets, emits_data].
  destruct nolen; [apply emits_ret|]. unfold in_u in Hlen. change (2 ^ 16) with 65536 in Hlen.
  rewrite (proj2 (Z.ltb_ge _ _)) by (unfold uint16_max; lia).
  rewrite wrap_id by (unfold in_u; change (2 ^ 16) with 65536; lia).
  apply (emits_op _ _ _ (fun en => uint_bytes en 2 _)), WriteUInt16_ok.
Qed.

Lemma parses_stream f en s data nolen rest type :
  stream_fits s data -> (nolen = true -> rest = []) ->
  stream_type_fields (transport_version (version_ f)) type =
    (GetStreamIdSize (sf_stream_id s), GetStreamOffsetSize (transport_version (version_ f)) (sf_offset s),
     negb nolen, sf_fin s) ->
  parses f en (stream_wire (transport_version (version_ f)) en s data nolen) rest (received s data)
    (ProcessStreamFrame type).
Proof.
  intros (Hid & Hoff & Hlen & Hdl) Hrest Ht. unfold ProcessStreamFrame, stream_wire, tversion.
  apply parses_gets. rewrite Ht. pose proof (stream_id_size _ Hid) as [Hi1 Hi2].
  pose proof (stream_offset_size_bounds (transport_version (version_ f)) _ Hoff) as [Ho1 _].
  eapply parses_bind; [apply parses_or_detail, parses_bytes_uint; lia || done|].
  eapply parses_bind.
  { apply parses_or_detail, parses_bytes_uint; [done|]. by apply stream_offset_size. }
  rewrite <- (app_nil_r (_ ++ data)). eapply parses_bind with (a := data).
  - destruct nolen; cbn [negb app].
    + rewrite Hrest by done. apply parses_remaining. rewrite app_nil_r.
      by apply parses_or_detail, parses_string.
    + rewrite <- Hdl. apply parses_or_detail, parses_string16.
      unfold in_u in Hlen. change (2 ^ 16) with 65536 in Hlen. lia.
  - eapply parses_eq; [apply parses_ret|done|]. unfold received.
    rewrite Hdl. by rewrite !wrap_id.
Qed.

(** The payload of a stream frame is as long as [ComputeFrameLength] says. *)
Lemma stream_wire_length f en s data nolen pn_len :
  stream_ok f s data ->
  ComputeFrameLength f (StreamFrame (Some s)) nolen pn_len =
    Some (1 + zlen (stream_wire (transport_version (version_ f)) en s data nolen)).
Proof.
  intros (Hid & Hoff & Hlen & Hd). apply frame_data_len in Hd as Hdl.
  pose proof (stream_id_size _ Hid) as [Hi _].
  pose proof (stream_offset_size_bounds (transport_version (version_ f)) _ Hoff) as [Ho _].
  unfold ComputeFrameLength, GetMinStreamFrameSize, stream_wire. rewrite !zlen_app, !uint_bytes_len.
  rewrite !Z2Nat.id by lia. rewrite <- Hdl. f_equal. unfold kQuicFrameTypeSize, kQuicStreamPayloadLengthSize.
  destruct nolen; autorewrite with lens; lia.
Qed.
End Stream.
