(* ===== verification/FramerFrames.v ===== *)
(** * The frames of a data packet: what is appended is what is delivered

    [frame_wire] is the wire format of every frame but the ack, [sendable] the
    frames it can carry and [as_received] what the receiver makes of them;
    [deliver] is the callback the receiver's visitor gets.  The appending
    methods emit the wire format and one round of the frame loop turns it into
    that callback. *)

From stdpp Require Import sets.
From S2P Require Import Prelude QuicTime FramerTypes FramerNumbers FramerAppend FramerProcess FramerPacket.
From S2P Require Import FramerWire FramerCodec FramerStream.
Open Scope Z_scope.

Section Frames.
Context `{T : QuicTypes} `{Q : PacketQueueOps} `{A : !AckOps} `{C : CryptoOps} `{F : QuicFunctions}
  `{R : ReaderOps} `{W : WriterOps} `{V : !VisitorOps} `{P : !ProducerOps}
  `{RV : !ReaderView} `{WV : !WriterView} `{RO : !ReaderOk} `{WO : !WriterOk}
  `{PV : !ProducerView} `{PO : !ProducerOk P} `{TO : !QuicTypesOk T}.

Implicit Types (f : MyQuicFramer) (header : QuicPacketHeader) (frame : QuicFrame).

(** ** Wire format *)

Definition rst_wire (tv : Z) (en : Endianness) (r : QuicRstStreamFrame) : list Z :=
  uint_bytes en 4 (rst_stream_id r) ++
  (if negb (tv =? QUIC_VERSION_41) then uint_bytes en 8 (rst_byte_offset r) else []) ++
  uint_bytes en 4 (rst_error_code r) ++
  (if tv =? QUIC_VERSION_41 then uint_bytes en 8 (rst_byte_offset r) else []).

Definition string16_wire (en : Endianness) (s : list Z) : list Z :=
  uint_bytes en 2 (zlen (TruncateErrorString s)) ++ TruncateErrorString s.

Definition close_wire (en : Endianness) (c : QuicConnectionCloseFrame) : list Z :=
  uint_bytes en 4 (cc_error_code c) ++ string16_wire en (cc_error_details c).

Definition goaway_wire (en : Endianness) (g : QuicGoAwayFrame) : list Z :=
  uint_bytes en 4 (ga_error_code g) ++ uint_bytes en 4 (ga_last_good_stream_id g) ++
  string16_wire en (ga_reason_phrase g).

Definition window_wire (en : Endianness) (w : QuicWindowUpdateFrame) : list Z :=
  uint_bytes en 4 (wu_stream_id w) ++ uint_bytes en 8 (wu_byte_offset w).

Definition stop_waiting_wire (en : Endianness) header (s : QuicStopWaitingFrame) : list Z :=
  uint_bytes en (Z.to_nat (packet_number_length header)) (packet_number header - least_unacked s).

(** Is this padding extended to the end of the packet? *)
Definition fills f (p : QuicPaddingFrame) : bool :=
  (transport_version (version_ f) <=? QUIC_VERSION_37) || (num_padding_bytes p <? 0).

(** Type byte and payload of a frame; [last]: it ends the packet; [room]: the
    bytes left in the packet before it. *)
Definition frame_wire f en header frame (data : list Z) (last : bool) (room : Z) : list Z :=
  let tv := transport_version (version_ f) in
  match frame with
  | PaddingFrame p => 0 :: replicate (Z.to_nat ((if fills f p then room else num_padding_bytes p) - 1)) 0
  | RstStreamFrame r => RST_STREAM_FRAME :: rst_wire tv en r
  | ConnectionCloseFrame c => CONNECTION_CLOSE_FRAME :: close_wire en c
  | GoAwayFrame g => GOAWAY_FRAME :: goaway_wire en g
  | WindowUpdateFrame w => WINDOW_UPDATE_FRAME :: window_wire en w
  | BlockedFrame b => BLOCKED_FRAME :: uint_bytes en 4 (bl_stream_id b)
  | StopWaitingFrame s => STOP_WAITING_FRAME :: stop_waiting_wire en header s
  | PingFrame | MtuDiscoveryFrame => [PING_FRAME]
  | StreamFrame (Some s) => stream_type_byte tv s last :: stream_wire tv en s data last
  | _ => []
  end.

(** The bytes a stream frame's data stands for; other frames have none. *)
Definition data_of f frame : list Z :=
  match frame with StreamFrame (Some s) => default [] (frame_data f s) | _ => [] end.

(** The packet-number lengths [AppendPacketNumber] accepts, short of 8. *)
Definition pn_length_ok (n : Z) : Prop := n = 1 \/ n = 2 \/ n = 4 \/ n = 6.

Definition sendable f header frame (last : bool) : Prop :=
  match frame with
  | PaddingFrame p => if fills f p then last = true else 0 < num_padding_bytes p
  | RstStreamFrame r => in_u 32 (rst_stream_id r) /\ 0 <= rst_error_code r <= QUIC_STREAM_LAST_ERROR /\
      in_u 64 (rst_byte_offset r)
  | ConnectionCloseFrame c => 0 <= cc_error_code c <= QUIC_LAST_ERROR
  | GoAwayFrame g => 0 <= ga_error_code g <= QUIC_LAST_ERROR /\ in_u 32 (ga_last_good_stream_id g)
  | WindowUpdateFrame w => in_u 32 (wu_stream_id w) /\ in_u 64 (wu_byte_offset w)
  | BlockedFrame b => in_u 32 (bl_stream_id b)
  | StopWaitingFrame s => pn_length_ok (packet_number_length header) /\ in_u 64 (packet_number header) /\
      0 <= least_unacked s <= packet_number header /\
      packet_number header - least_unacked s < 2 ^ (8 * packet_number_length header)
  | PingFrame | MtuDiscoveryFrame => True
  | StreamFrame (Some s) => stream_ok f s (data_of f frame)
  | _ => False
  end.

Definition as_received f frame (room : Z) : QuicFrame :=
  match frame with
  | PaddingFrame p => PaddingFrame (mkPadding (if fills f p then room else num_padding_bytes p))
  | ConnectionCloseFrame c =>
      ConnectionCloseFrame (mkClose (cc_error_code c) (TruncateErrorString (cc_error_details c)))
  | GoAwayFrame g => GoAwayFrame (mkGoAway (ga_error_code g) (ga_last_good_stream_id g)
                                   (TruncateErrorString (ga_reason_phrase g)))
  | StreamFrame (Some s) => StreamFrame (Some (received s (data_of f frame)))
  | MtuDiscoveryFrame => PingFrame
  | _ => frame
  end.

(** The visitor's callback for a frame. *)
Definition deliver frame : Visitor -> bool * Visitor :=
  match frame with
  | PaddingFrame p => OnPaddingFrame p
  | RstStreamFrame r => OnRstStreamFrame r
  | ConnectionCloseFrame c => OnConnectionCloseFrame c
  | GoAwayFrame g => OnGoAwayFrame g
  | WindowUpdateFrame w => OnWindowUpdateFrame w
  | BlockedFrame b => OnBlockedFrame b
  | StopWaitingFrame s => OnStopWaitingFrame s
  | PingFrame => OnPingFrame
  | StreamFrame (Some s) => OnStreamFrame s
  | _ => fun v => (true, v)
  end.

(** ** Writing *)

Lemma truncated_short s : zlen (TruncateErrorString s) <= 256.
Proof.
  unfold TruncateErrorString, kMaxErrorStringLength. destruct (Z.leb_spec (zlen s) 256); [done|].
  rewrite zlen_ztake; lia.
Qed.

Lemma emits_string16 f en s :
  emits f en tt (string16_wire en s) (wr_op (WriteStringPiece16 (TruncateErrorString s))).
Proof.
  eapply emits_eq; [eapply emits_op_if; [apply WriteStringPiece16_ok|]|done].
  pose proof (truncated_short s). apply Z.leb_le. lia.
Qed.

Lemma emits_uint8 f en v : in_u 8 v -> emits f en tt [v] (wr_op (WriteUInt8 v)).
Proof.
  intros. eapply emits_eq; [apply (emits_op _ _ _ _ (WriteUInt8_ok v))|]. destruct en; cbn;
    rewrite Z.shiftr_0_r, wrap_id by done; done.
Qed.

Lemma emits_uint32 f en v : in_u 32 v -> emits f en tt (uint_bytes en 4 v) (wr_op (WriteUInt32 (u32 v))).
Proof. intros. rewrite wrap_id by done. apply (emits_op _ _ _ _ (WriteUInt32_ok v)). Qed.

Lemma emits_uint32' f en v : emits f en tt (uint_bytes en 4 v) (wr_op (WriteUInt32 v)).
Proof. apply (emits_op _ _ _ _ (WriteUInt32_ok v)). Qed.

Lemma emits_uint64 f en v : emits f en tt (uint_bytes en 8 v) (wr_op (WriteUInt64 v)).
Proof. apply (emits_op _ _ _ _ (WriteUInt64_ok v)). Qed.

Lemma emits_packet_number f en n v : pn_length_ok n ->
  emits f en tt (uint_bytes en (Z.to_nat n) v) (AppendPacketNumber n v).
Proof.
  intros Hn. unfold AppendPacketNumber.
  destruct Hn as [-> | [-> | [-> | ->]]]; apply emits_uint; lia.
Qed.

Lemma last_errors : 0 <= QUIC_LAST_ERROR < 4294967296 /\ 0 <= QUIC_STREAM_LAST_ERROR < 4294967296.
Proof. apply last_error_values. Qed.

Ltac code_range := unfold in_u; change (2 ^ 32) with 4294967296; pose proof last_errors; lia.

Lemma emits_rst f en r : 0 <= rst_error_code r <= QUIC_STREAM_LAST_ERROR ->
  emits f en tt (rst_wire (transport_version (version_ f)) en r) (AppendRstStreamFrame r).
Proof.
  intros. unfold AppendRstStreamFrame, rst_wire, tversion. apply emits_gets.
  eapply emits_bind; [apply emits_uint32'|].
  destruct (_ =? QUIC_VERSION_41); cbn [negb]; (eapply emits_bind; [apply emits_ret || apply emits_uint64|]);
    (eapply emits_bind; [apply emits_uint32; code_range | apply emits_ret || apply emits_uint64]).
Qed.

Lemma emits_close f en c : 0 <= cc_error_code c <= QUIC_LAST_ERROR ->
  emits f en tt (close_wire en c) (AppendConnectionCloseFrame c).
Proof.
  intros. eapply emits_bind; [apply emits_uint32; code_range|apply emits_string16].
Qed.

Lemma emits_goaway f en g : 0 <= ga_error_code g <= QUIC_LAST_ERROR -> in_u 32 (ga_last_good_stream_id g) ->
  emits f en tt (goaway_wire en g) (AppendGoAwayFrame g).
Proof.
  intros. eapply emits_bind; [apply emits_uint32; code_range|].
  eapply emits_bind; [by apply emits_uint32|apply emits_string16].
Qed.

Lemma emits_window f en w : in_u 32 (wu_stream_id w) ->
  emits f en tt (window_wire en w) (AppendWindowUpdateFrame w).
Proof. intros. eapply emits_bind; [by apply emits_uint32|apply emits_uint64]. Qed.

Lemma emits_assert f en (b : bool) : b = true -> emits f en tt [] (massert b).
Proof. intros ->. apply emits_ret. Qed.

Lemma emits_stop_waiting f en header s :
  pn_length_ok (packet_number_length header) -> in_u 64 (packet_number header) ->
  0 <= least_unacked s <= packet_number header ->
  packet_number header - least_unacked s < 2 ^ (8 * packet_number_length header) ->
  emits f en tt (stop_waiting_wire en header s) (AppendStopWaitingFrame header s).
Proof.
  intros Hn Hp Hl Hd. unfold AppendStopWaitingFrame, stop_waiting_wire.
  rewrite wrap_id by (unfold in_u in *; lia).
  assert (0 <= packet_number_length header <= 6) as Hlen by (unfold pn_length_ok in Hn; lia).
  apply (emits_bind _ _ tt _ []); [apply emits_assert, Z.ltb_lt; lia|].
  apply (emits_bind _ _ tt _ []); [|by apply emits_packet_number].
  apply emits_require, Z.leb_le. rewrite Z.shiftr_div_pow2 by lia.
  rewrite Z.div_small; [done|]. rewrite (Z.mul_comm _ 8). lia.
Qed.

(** *** A frame with its type byte *)

Lemma type_byte_u8 f header frame last : sendable f header frame last ->
  in_u 8 (frame_type frame).
Proof.
  pose proof frame_type_values. unfold in_u. change (2 ^ 8) with 256.
  destruct frame; cbn; try done; intros; lia.
Qed.

Lemma emits_type_byte f en header frame last : sendable f header frame last ->
  emits f en tt [match frame with
                 | StreamFrame (Some s) => stream_type_byte (transport_version (version_ f)) s last
                 | MtuDiscoveryFrame => PING_FRAME
                 | _ => frame_type frame end] (AppendTypeByte frame last).
Proof.
  intros Hs. pose proof (type_byte_u8 _ _ _ _ Hs) as Ht. apply emits_gets.
  assert (in_u 8 PING_FRAME) as Hping by (rewrite FT7; done).
  destruct frame as [| | | | | | | |[s|]|[a|]| |]; try done; cbn in Ht;
    rewrite ?(wrap_id 8) by done; try by apply emits_uint8.
  destruct Hs as (Hid & Hoff & _). apply emits_uint8.
  by apply (stream_type_byte_ok (transport_version (version_ f)) s last).
Qed.

(** What padding adds after its type byte. *)
Lemma emits_padding_body e p : 0 < num_padding_bytes p \/ fills (fr e) p = true ->
  emits_at e tt (replicate (Z.to_nat (if fills (fr e) p then capacity (wr e) - wlength (wr e) else num_padding_bytes p - 1)) 0)
    (AppendPaddingFrame p).
Proof.
  intros Hp. pose proof (capacity_ok (wr e)) as Hroom. unfold AppendPaddingFrame, tversion. apply emits_at_gets.
  assert (emits_at e tt (replicate (Z.to_nat (capacity (wr e) - wlength (wr e))) 0) (wr_mod WritePadding)) as Hfill.
  { unfold emits_at, zlen. rewrite length_replicate. rewrite (proj2 (Z.leb_le _ _)) by lia.
    eexists. split; [reflexivity|apply WritePadding_ok]. }
  unfold fills in *. destruct (_ <=? QUIC_VERSION_37); cbn [orb] in *; [done|].
  destruct (Z.ltb_spec (num_padding_bytes p) 0); [by rewrite (proj2 (Z.eqb_neq _ _)) by lia|].
  destruct Hp as [Hp|Hp]; [|done]. rewrite (proj2 (Z.eqb_neq _ _)) by lia.
  by apply (emits_op (fr e) (wendian (wr e)) _ _ (WritePaddingBytes_ok (num_padding_bytes p - 1) ltac:(lia))).
Qed.

(** Padding with its type byte, zero. *)
Lemma emits_padding_typed e p (m : M env unit) : 0 < num_padding_bytes p \/ fills (fr e) p = true ->
  emits (fr e) (wendian (wr e)) tt [0] m ->
  emits_at e tt (0 :: replicate (Z.to_nat ((if fills (fr e) p then capacity (wr e) - wlength (wr e)
                                              else num_padding_bytes p) - 1)) 0) (m ;; AppendPaddingFrame p).
Proof.
  intros Hp Hm. apply (emits_at_bind e tt tt [0]); [by apply Hm|].
  intros w Hw. assert (wlength w = wlength (wr e) + 1) as Hl by (by rewrite (wext_length _ _ _ Hw)).
  destruct Hw as (_ & Hc & _). pose proof (emits_padding_body (put_wr w e) p Hp) as H. cbn [wr fr put_wr] in H.
  rewrite Hl, Hc in H. destruct (fills (fr e) p); [|exact H].
  by replace (capacity (wr e) - wlength (wr e) - 1) with (capacity (wr e) - (wlength (wr e) + 1)) by lia.
Qed.

Lemma emits_padding e header p last : sendable (fr e) header (PaddingFrame p) last ->
  emits_at e tt (0 :: replicate (Z.to_nat ((if fills (fr e) p then capacity (wr e) - wlength (wr e)
                                              else num_padding_bytes p) - 1)) 0)
    (append_frame header (PaddingFrame p) last).
Proof.
  intros Hs. apply (emits_padding_typed e p (AppendTypeByte (PaddingFrame p) last)).
  - cbn in Hs. destruct (fills _ _); auto.
  - rewrite <- FT0. by apply (emits_type_byte (fr e) (wendian (wr e)) _ _ _ Hs).
Qed.

(** Every frame appends its wire format. *)
Lemma emits_frame e header frame last : sendable (fr e) header frame last ->
  emits_at e tt (frame_wire (fr e) (wendian (wr e)) header frame (data_of (fr e) frame) last
                   (capacity (wr e) - wlength (wr e))) (append_frame header frame last).
Proof.
  intros Hs. destruct frame as [p|r|c|g|w|b|s| |[s|]|[a|]| |]; try done.
  1: by apply emits_padding.
  all: eapply (emits_at_bind _ _ _ [_]); [by apply (emits_type_byte (fr e) (wendian (wr e)) _ _ _ Hs)|];
    intros w' (_ & _ & Hw).
  all: match goal with |- emits_at _ _ ?bs ?m =>
    enough (emits (fr e) (wendian (wr e)) tt bs m) as H by by apply H end; cbn in Hs.
  - apply emits_rst, Hs.
  - by apply emits_close.
  - destruct Hs. by apply emits_goaway.
  - destruct Hs. by apply emits_window.
  - by apply emits_uint32.
  - destruct Hs as (H1 & H2 & H3 & H4). by apply emits_stop_waiting.
  - apply emits_ret.
  - by apply emits_stream.
  - apply emits_ret.
Qed.

(** ** Reading *)

(** From [bs] followed by [rest], [m] consumes [bs] and calls [cb] on the
    visitor. *)
Definition delivers f en (bs rest : list Z) (cb : Visitor -> bool * Visitor) (m : M env bool) : Prop :=
  forall e, fr e = f -> rendian (rd e) = en -> remaining (rd e) = bs ++ rest ->
    exists r', m e = (Ok (cb (vs e)).1, put_vs (cb (vs e)).2 (put_rd r' e)) /\
      remaining r' = rest /\ rendian r' = en.

Lemma delivers_bind {X} f en bs rest (a : X) m cb :
  visitor_ f = true -> parses f en bs rest a m ->
  delivers f en bs rest (cb a) (m ≫= (fun a => visit (cb a))).
Proof.
  intros Hv H e He Hn Hr. destruct (H e He Hn Hr) as (r' & E & Hr').
  exists r'. split; [|done]. erewrite M_bind_ok by done. unfold visit. cbn [fr put_rd vs].
  rewrite He, Hv. by destruct (cb a (vs e)).
Qed.

Lemma delivers_visit f en rest cb : visitor_ f = true -> delivers f en [] rest cb (visit cb).
Proof.
  intros Hv e He Hn Hr. exists (rd e). split; [|done]. unfold visit. rewrite He, Hv.
  destruct (cb (vs e)). by destruct e.
Qed.

Lemma delivers_gets {X} f en bs rest cb (g : MyQuicFramer -> X) k :
  delivers f en bs rest cb (k (g f)) -> delivers f en bs rest cb (gets g ≫= k).
Proof. intros H e He Hn Hr. unfold gets, mbind, M_bind. rewrite He. by apply H. Qed.

Lemma parses_rst f en r rest : in_u 32 (rst_stream_id r) ->
  0 <= rst_error_code r <= QUIC_STREAM_LAST_ERROR -> in_u 64 (rst_byte_offset r) ->
  parses f en (rst_wire (transport_version (version_ f)) en r) rest r ProcessRstStreamFrame.
Proof.
  intros Hid Hc Hoff. unfold ProcessRstStreamFrame, rst_wire, tversion. apply parses_gets.
  eapply parses_bind; [by apply parses_or_detail, parses_uint32|].
  assert ((if QUIC_STREAM_LAST_ERROR <=? rst_error_code r then QUIC_STREAM_LAST_ERROR
           else rst_error_code r) = rst_error_code r) as Hcl
    by (destruct (Z.leb_spec QUIC_STREAM_LAST_ERROR (rst_error_code r)); lia).
  destruct (_ =? QUIC_VERSION_41); cbn [negb].
  - eapply parses_bind; [apply parses_ret|].
    eapply parses_bind; [apply parses_or_detail, parses_uint32; code_range|]. rewrite Hcl.
    rewrite <- (app_nil_r (uint_bytes en 8 _)).
    eapply parses_bind; [by apply parses_or_detail, parses_uint64|].
    eapply parses_eq; [apply parses_ret|done|by destruct r].
  - eapply parses_bind; [by apply parses_or_detail, parses_uint64|].
    eapply parses_bind; [apply parses_or_detail, parses_uint32; code_range|]. rewrite Hcl.
    apply (parses_bind _ _ (rst_byte_offset r) _ []); [apply parses_ret|].
    eapply parses_eq; [apply parses_ret|done|by destruct r].
Qed.

Lemma parses_truncated f en s rest :
  parses f en (string16_wire en s) rest (TruncateErrorString s) (rd_op ReadStringPiece16).
Proof. apply parses_string16. pose proof (truncated_short s). lia. Qed.

Lemma parses_close f en c rest : 0 <= cc_error_code c <= QUIC_LAST_ERROR ->
  parses f en (close_wire en c) rest (mkClose (cc_error_code c) (TruncateErrorString (cc_error_details c)))
    ProcessConnectionCloseFrame.
Proof.
  intros Hc. eapply parses_bind; [apply parses_or_detail, parses_uint32; code_range|].
  rewrite <- (app_nil_r (string16_wire _ _)).
  eapply parses_bind; [apply parses_or_detail, parses_truncated|].
  eapply parses_eq; [apply parses_ret|done|]. f_equal.
  destruct (Z.leb_spec QUIC_LAST_ERROR (cc_error_code c)); lia.
Qed.

Lemma parses_goaway f en g rest : 0 <= ga_error_code g <= QUIC_LAST_ERROR ->
  in_u 32 (ga_last_good_stream_id g) ->
  parses f en (goaway_wire en g) rest
    (mkGoAway (ga_error_code g) (ga_last_good_stream_id g) (TruncateErrorString (ga_reason_phrase g)))
    ProcessGoAwayFrame.
Proof.
  intros Hc Hid. eapply parses_bind; [apply parses_or_detail, parses_uint32; code_range|].
  eapply parses_bind; [by apply parses_or_detail, parses_uint32|].
  rewrite <- (app_nil_r (string16_wire _ _)).
  eapply parses_bind; [apply parses_or_detail, parses_truncated|].
  eapply parses_eq; [apply parses_ret|done|]. f_equal.
  destruct (Z.leb_spec QUIC_LAST_ERROR (ga_error_code g)); lia.
Qed.

Lemma parses_window f en w rest : in_u 32 (wu_stream_id w) -> in_u 64 (wu_byte_offset w) ->
  parses f en (window_wire en w) rest w ProcessWindowUpdateFrame.
Proof.
  intros. eapply parses_bind; [by apply parses_or_detail, parses_uint32|].
  rewrite <- (app_nil_r (uint_bytes en 8 _)).
  eapply parses_bind; [by apply parses_or_detail, parses_uint64|].
  eapply parses_eq; [apply parses_ret|done|by destruct w].
Qed.

Lemma parses_blocked f en b rest : in_u 32 (bl_stream_id b) ->
  parses f en (uint_bytes en 4 (bl_stream_id b)) rest b ProcessBlockedFrame.
Proof.
  intros. rewrite <- (app_nil_r (uint_bytes en 4 _)).
  eapply parses_bind; [by apply parses_or_detail, parses_uint32|].
  eapply parses_eq; [apply parses_ret|done|by destruct b].
Qed.

Lemma parses_stop_waiting f en header s rest :
  pn_length_ok (packet_number_length header) -> in_u 64 (packet_number header) ->
  0 <= least_unacked s <= packet_number header ->
  packet_number header - least_unacked s < 2 ^ (8 * packet_number_length header) ->
  parses f en (stop_waiting_wire en header s) rest s (ProcessStopWaitingFrame header).
Proof.
  intros Hn Hp Hl Hd. unfold stop_waiting_wire. rewrite <- (app_nil_r (uint_bytes _ _ _)).
  eapply parses_bind.
  { apply parses_or_detail, parses_bytes_uint; [unfold pn_length_ok in Hn; lia|unfold in_u; lia]. }
  apply (parses_bind _ _ tt _ []).
  - rewrite (proj2 (Z.ltb_ge _ _)) by lia. apply parses_ret.
  - eapply parses_eq; [apply parses_ret|done|]. destruct s as [l]. cbn. f_equal. lia.
Qed.

(** The padding loop stops at the first byte that is not zero. *)
Lemma padding_loop_zeros k : forall fuel n f en rest, (k <= fuel)%nat ->
  (forall b l, rest = b :: l -> b <> 0) ->
  parses f en (replicate k 0) rest (n + Z.of_nat k) (padding_loop fuel n).
Proof.
  induction k as [|k IH]; intros fuel n f en rest Hf Hz e He Hn Hr.
  - exists (rd e). split; [|done]. replace (n + Z.of_nat 0) with n by lia.
    assert (padding_loop fuel n e = (Ok n, e)) as ->; [|by destruct e].
    destruct fuel; cbn [padding_loop]; unfold rd_get, mbind, M_bind; rewrite IsDoneReading_ok, Hr; cbn [app replicate];
      (destruct rest as [|b l]; [done|]); rewrite (PeekByte_ok _ b l) by done;
      rewrite (proj2 (Z.eqb_neq _ _)) by eauto; by rewrite andb_false_r.
  - destruct fuel as [|fuel]; [lia|]. cbn [padding_loop]. unfold rd_get at 1 2.
    unfold mbind at 1 2, M_bind at 1 2. rewrite IsDoneReading_ok, Hr. cbn [app replicate].
    rewrite (PeekByte_ok _ 0 (replicate k 0 ++ rest)) by done. cbn [bool_decide negb andb Z.eqb].
    rewrite bool_decide_false by done. cbn [negb andb].
    replace (n + Z.of_nat (S k)) with (n + 1 + Z.of_nat k) by lia.
    assert (parses f en ([0] ++ replicate k 0) rest (n + 1 + Z.of_nat k)
      (or_else (rd_op (ReadBytes 1) ;; mret tt) (mret tt) ;; padding_loop fuel (n + 1))) as H; [|by apply H].
    apply (parses_bind _ _ tt); [|apply IH; [lia|done]].
    intros e' He' Hn' Hr'. destruct (parses_bytes f en [0] (replicate k 0 ++ rest) 1 eq_refl e' He' Hn' Hr')
      as (r' & E & Hr1). exists r'. split; [|done]. unfold or_else. by erewrite M_bind_ok by done.
Qed.

Lemma parses_padding f en k rest :
  (transport_version (version_ f) <=? QUIC_VERSION_37 = true -> rest = []) ->
  (forall b l, rest = b :: l -> b <> 0) ->
  parses f en (replicate k 0) rest (mkPadding (Z.of_nat k + 1)) ProcessPaddingFrame.
Proof.
  intros Hrest Hz. unfold ProcessPaddingFrame, tversion. apply parses_gets, parses_remaining.
  destruct (_ <=? QUIC_VERSION_37).
  - rewrite Hrest by done. intros e He Hn Hr. rewrite app_nil_r in *.
    destruct (ReadRemainingPayload_ok (rd e)) as (r' & E & Hr').
    exists r'. split; [|by rewrite <- Hn]. unfold read_remaining, mbind, M_bind. rewrite E.
    unfold zlen. by rewrite length_replicate.
  - rewrite <- (app_nil_r (replicate k 0)).
    eapply parses_bind; [apply (padding_loop_zeros k)|]; [|done|].
    { rewrite app_nil_r. unfold zlen. rewrite length_app, length_replicate. lia. }
    eapply parses_eq; [apply parses_ret|done|]. f_equal. lia.
Qed.

(** *** One round of the frame loop *)

Lemma control_type t : 0 <= t <= 7 -> has_bits t kQuicFrameTypeSpecialMask = false.
Proof.
  intros. assert (t = 0 \/ t = 1 \/ t = 2 \/ t = 3 \/ t = 4 \/ t = 5 \/ t = 6 \/ t = 7) as Ht by lia.
  by repeat destruct Ht as [-> | Ht]; [..|subst].
Qed.

(** The branch of [process_frame] for each type byte. *)
Lemma process_frame_control header t e : 0 <= t <= 7 ->
  process_frame header t e =
  (if t =? 0 then (frame ← ProcessPaddingFrame; visit (OnPaddingFrame frame))
   else if t =? 1 then (frame ← or_raise QUIC_INVALID_RST_STREAM_DATA ProcessRstStreamFrame;
                        visit (OnRstStreamFrame frame))
   else if t =? 2 then (frame ← or_raise QUIC_INVALID_CONNECTION_CLOSE_DATA ProcessConnectionCloseFrame;
                        visit (OnConnectionCloseFrame frame))
   else if t =? 3 then (frame ← or_raise QUIC_INVALID_GOAWAY_DATA ProcessGoAwayFrame;
                        visit (OnGoAwayFrame frame))
   else if t =? 4 then (frame ← or_raise QUIC_INVALID_WINDOW_UPDATE_DATA ProcessWindowUpdateFrame;
                        visit (OnWindowUpdateFrame frame))
   else if t =? 5 then (frame ← or_raise QUIC_INVALID_BLOCKED_DATA ProcessBlockedFrame;
                        visit (OnBlockedFrame frame))
   else if t =? 6 then (frame ← or_raise QUIC_INVALID_STOP_WAITING_DATA (ProcessStopWaitingFrame header);
                        visit (OnStopWaitingFrame frame))
   else visit OnPingFrame) e.
Proof.
  intros Ht. unfold process_frame, tversion. unfold gets at 1, mbind at 1, M_bind at 1.
  rewrite control_type by done. autorewrite with quic.
  assert (t = 0 \/ t = 1 \/ t = 2 \/ t = 3 \/ t = 4 \/ t = 5 \/ t = 6 \/ t = 7) as H by lia.
  by repeat destruct H as [-> | H]; [..|subst].
Qed.

Lemma delivers_control f en header t bs rest cb m : 0 <= t <= 7 ->
  delivers f en bs rest cb m -> (forall e, process_frame header t e = m e) ->
  delivers f en bs rest cb (process_frame header t).
Proof. intros _ H E e He Hn Hr. rewrite E. by apply H. Qed.

(** The type byte and payload of a frame. *)
Definition type_byte f frame (last : bool) : Z :=
  match frame with
  | StreamFrame (Some s) => stream_type_byte (transport_version (version_ f)) s last
  | MtuDiscoveryFrame => PING_FRAME
  | _ => frame_type frame
  end.

Lemma frame_wire_cons f en header frame data last room : sendable f header frame last ->
  exists payload, frame_wire f en header frame data last room = type_byte f frame last :: payload.
Proof.
  intros Hs. destruct frame as [p|r|c|g|w|b|s| |[s|]|[a|]| |]; try done;
    cbn [frame_wire type_byte frame_type]; rewrite ?FT0; eexists; reflexivity.
Qed.

Lemma delivers_stream f en header s data last rest :
  visitor_ f = true -> stream_fits s data -> (last = true -> rest = []) ->
  delivers f en (stream_wire (transport_version (version_ f)) en s data last) rest
    (OnStreamFrame (received s data))
    (process_frame header (stream_type_byte (transport_version (version_ f)) s last)).
Proof.
  intros Hv Hs Hl. destruct Hs as (Hid & Hoff & Hlen & Hd).
  destruct (stream_type_byte_ok (transport_version (version_ f)) s last Hid Hoff) as (Ht & _ & Hst & Hsp).
  unfold process_frame, tversion. apply delivers_gets. rewrite Hsp, Hst.
  apply delivers_bind; [done|]. apply parses_or_raise. by apply parses_stream.
Qed.

(** What the sender's [f1] appends for a frame, the receiver's [f2] delivers. *)
Lemma delivers_frame f1 f2 en header frame last room rest payload :
  visitor_ f2 = true -> transport_version (version_ f2) = transport_version (version_ f1) ->
  sendable f1 header frame last -> (last = true -> rest = []) -> 1 <= room ->
  (forall p b l, frame = PaddingFrame p -> rest = b :: l -> b <> 0) ->
  frame_wire f1 en header frame (data_of f1 frame) last room = type_byte f1 frame last :: payload ->
  delivers f2 en payload rest (deliver (as_received f1 frame room)) (process_frame header (type_byte f1 frame last)).
Proof.
  intros Hv Htv Hs Hl Hroom Hz Hw.
  destruct frame as [p|r|c|g|w|b|s| |[s|]|[a|]| |]; try done; cbn in Hw; rewrite ?FT0 in Hw; injection Hw as <-;
    cbn [type_byte frame_type as_received deliver];
    rewrite ?FT0, ?FT1, ?FT2, ?FT3, ?FT4, ?FT5, ?FT6, ?FT7; rewrite <- ?Htv;
    try (eapply delivers_control; [lia| |intros e; by rewrite process_frame_control by lia]; cbn [Z.eqb Pos.eqb]).
  - apply delivers_bind; [done|]. cbn in Hs. eapply parses_eq; [apply parses_padding|done|].
    + intros H37. apply Hl. unfold fills in Hs. rewrite <- Htv, H37 in Hs. done.
    + intros b l. by apply (Hz p).
    + f_equal. rewrite Z2Nat.id; [lia|]. destruct (fills _ _); lia.
  - apply delivers_bind; [done|]. apply parses_or_raise. destruct Hs as (?&?&?). by apply parses_rst.
  - apply delivers_bind; [done|]. apply parses_or_raise. by apply parses_close.
  - apply delivers_bind; [done|]. apply parses_or_raise. destruct Hs. by apply parses_goaway.
  - apply delivers_bind; [done|]. apply parses_or_raise. destruct Hs. by apply parses_window.
  - apply delivers_bind; [done|]. apply parses_or_raise. by apply parses_blocked.
  - apply delivers_bind; [done|]. apply parses_or_raise. destruct Hs as (?&?&?&?). by apply parses_stop_waiting.
  - by apply delivers_visit.
  - by apply delivers_stream; [|apply (stream_ok_fits f1)|].
  - by apply delivers_visit.
Qed.
End Frames.
