(* ===== verification/FramerIetfFrames.v ===== *)
(** * IETF frames: what is appended is what is read back

    [ietf_wire] is the wire format of the IETF frames but the ack, [ietf_ok] the
    frames it can carry, [ietf_received] what the reader makes of them.  The
    source has no dispatcher for these frames: a frame's own reader is called. *)

From S2P Require Import Prelude QuicTime FramerTypes FramerNumbers FramerAppend FramerProcess FramerIetf.
From S2P Require Import FramerWire FramerCodec FramerConcrete FramerStream FramerFrames.
Open Scope Z_scope.

Section Ietf.
Context `{T : QuicTypes} `{Q : PacketQueueOps} `{A : !AckOps} `{C : CryptoOps} `{F : QuicFunctions}
  `{R : ReaderOps} `{W : WriterOps} `{V : !VisitorOps} `{P : !ProducerOps}
  `{RV : !ReaderView} `{WV : !WriterView} `{RO : !ReaderOk} `{WO : !WriterOk}
  `{PV : !ProducerView} `{PO : !ProducerOk P} `{TO : !QuicTypesOk T} `{FO : !QuicFunctionsOk F}.

Implicit Types (f : MyQuicFramer).

Inductive ietf_frame :=
  | IetfStream (s : QuicStreamFrame)
  | IetfConnectionClose (c : QuicConnectionCloseFrame)
  | IetfApplicationClose (c : QuicConnectionCloseFrame)
  | IetfPadding (p : QuicPaddingFrame)
  | IetfPathChallenge (p : QuicPathFrame)
  | IetfPathResponse (p : QuicPathFrame)
  | IetfResetStream (r : QuicRstStreamFrame)
  | IetfStopSending (s : QuicStopSendingFrame)
  | IetfMaxData (w : QuicWindowUpdateFrame)
  | IetfMaxStreamData (w : QuicWindowUpdateFrame)
  | IetfMaxStreamId (m : QuicIetfMaxStreamIdFrame)
  | IetfBlocked (b : QuicIetfBlockedFrame)
  | IetfStreamBlocked (w : QuicWindowUpdateFrame)
  | IetfStreamIdBlocked (s : QuicIetfStreamIdBlockedFrame).

(** The writer of a frame. *)
Definition append_ietf (frame : ietf_frame) (last : bool) : M env unit :=
  match frame with
  | IetfStream s => AppendIetfStreamFrame s last
  | IetfConnectionClose c => AppendIetfConnectionCloseFrame c
  | IetfApplicationClose c => AppendIetfApplicationCloseFrame c
  | IetfPadding p => AppendIetfPaddingFrame p
  | IetfPathChallenge p => AppendIetfPathChallengeFrame p
  | IetfPathResponse p => AppendIetfPathResponseFrame p
  | IetfResetStream r => AppendIetfResetStreamFrame r
  | IetfStopSending s => AppendIetfStopSendingFrame s
  | IetfMaxData w => AppendIetfMaxDataFrame w
  | IetfMaxStreamData w => AppendIetfMaxStreamDataFrame w
  | IetfMaxStreamId m => AppendIetfMaxStreamIdFrame m
  | IetfBlocked b => AppendIetfBlockedFrame b
  | IetfStreamBlocked w => AppendIetfStreamBlockedFrame w
  | IetfStreamIdBlocked s => AppendIetfStreamIdBlockedFrame s
  end.

(** The reader of frames of the kind of [like], after the type byte [t]. *)
Definition process_ietf (like : ietf_frame) (t : Z) : M env ietf_frame :=
  match like with
  | IetfStream _ => s ← ProcessIetfStreamFrame t; mret (IetfStream s)
  | IetfConnectionClose _ => c ← ProcessIetfConnectionCloseFrame t; mret (IetfConnectionClose c)
  | IetfApplicationClose _ => c ← ProcessIetfApplicationCloseFrame t; mret (IetfApplicationClose c)
  | IetfPadding _ => p ← ProcessIetfPaddingFrame; mret (IetfPadding p)
  | IetfPathChallenge _ => p ← ProcessIetfPathChallengeFrame; mret (IetfPathChallenge p)
  | IetfPathResponse _ => p ← ProcessIetfPathResponseFrame; mret (IetfPathResponse p)
  | IetfResetStream _ => r ← ProcessIetfResetStreamFrame; mret (IetfResetStream r)
  | IetfStopSending _ => s ← ProcessIetfStopSendingFrame; mret (IetfStopSending s)
  | IetfMaxData _ => w ← ProcessIetfMaxDataFrame; mret (IetfMaxData w)
  | IetfMaxStreamData _ => w ← ProcessIetfMaxStreamDataFrame; mret (IetfMaxStreamData w)
  | IetfMaxStreamId _ => m ← ProcessIetfMaxStreamIdFrame; mret (IetfMaxStreamId m)
  | IetfBlocked _ => b ← ProcessIetfBlockedFrame; mret (IetfBlocked b)
  | IetfStreamBlocked _ => w ← ProcessIetfStreamBlockedFrame; mret (IetfStreamBlocked w)
  | IetfStreamIdBlocked _ => s ← ProcessIetfStreamIdBlockedFrame; mret (IetfStreamIdBlocked s)
  end.

(** ** Wire format *)

Definition ietf_type (frame : ietf_frame) (last : bool) : Z :=
  match frame with
  | IetfStream s => ietf_stream_type s last
  | IetfConnectionClose _ => IETF_CONNECTION_CLOSE
  | IetfApplicationClose _ => IETF_APPLICATION_CLOSE
  | IetfPadding _ => 0
  | IetfPathChallenge _ => IETF_PATH_CHALLENGE
  | IetfPathResponse _ => IETF_PATH_RESPONSE
  | IetfResetStream _ => IETF_RST_STREAM
  | IetfStopSending _ => IETF_STOP_SENDING
  | IetfMaxData _ => IETF_MAX_DATA
  | IetfMaxStreamData _ => IETF_MAX_STREAM_DATA
  | IetfMaxStreamId _ => IETF_MAX_STREAM_ID
  | IetfBlocked _ => IETF_BLOCKED
  | IetfStreamBlocked _ => IETF_STREAM_BLOCKED
  | IetfStreamIdBlocked _ => IETF_STREAM_ID_BLOCKED
  end.

(** The bytes of a stream frame's data: the producer's, or those of the buffer. *)
Definition ietf_data f (s : QuicStreamFrame) : option (list Z) :=
  match data_producer_ f with
  | Some p => stream_data p (sf_stream_id s) (sf_offset s) (sf_data_length s)
  | None => load (default [] (sf_data_buffer s)) 0 (sf_data_length s)
  end.

Definition ietf_stream_wire f (s : QuicStreamFrame) (last : bool) : list Z :=
  varint_bytes (sf_stream_id s) ++
  (if sf_offset s =? 0 then [] else varint_bytes (sf_offset s)) ++
  (if last then [] else varint_bytes (sf_data_length s)) ++
  default [] (ietf_data f s).

Definition ietf_close_wire (en : Endianness) (c : QuicConnectionCloseFrame) : list Z :=
  uint_bytes en 2 (cc_error_code c) ++ varint_bytes (zlen (cc_error_details c)) ++ cc_error_details c.

(** What follows the type byte; [room]: the bytes left in the packet before it. *)
Definition ietf_wire f (en : Endianness) (frame : ietf_frame) (last : bool) (room : Z) : list Z :=
  match frame with
  | IetfStream s => ietf_stream_wire f s last
  | IetfConnectionClose c | IetfApplicationClose c => ietf_close_wire en c
  | IetfPadding p => replicate (Z.to_nat ((if fills f p then room else num_padding_bytes p) - 1)) 0
  | IetfPathChallenge p | IetfPathResponse p => path_data_buffer p
  | IetfResetStream r =>
      varint_bytes (rst_stream_id r) ++ uint_bytes en 2 (rst_error_code r) ++ varint_bytes (rst_byte_offset r)
  | IetfStopSending s => varint_bytes (ss_stream_id s) ++ uint_bytes en 2 (ss_application_error_code s)
  | IetfMaxData w => varint_bytes (wu_byte_offset w)
  | IetfMaxStreamData w | IetfStreamBlocked w => varint_bytes (wu_stream_id w) ++ varint_bytes (wu_byte_offset w)
  | IetfMaxStreamId m => varint_bytes (max_stream_id m)
  | IetfBlocked b => varint_bytes (ib_offset b)
  | IetfStreamIdBlocked s => varint_bytes (sib_stream_id s)
  end.

Definition stream_id_ok (id : Z) : Prop := 0 <= id <= MaxVarIntStreamId.

Definition ietf_close_ok (c : QuicConnectionCloseFrame) : Prop :=
  in_u 16 (cc_error_code c) /\ zlen (cc_error_details c) < 2 ^ 62.

(** The frames the format can carry. *)
Definition ietf_ok f (frame : ietf_frame) (last : bool) : Prop :=
  match frame with
  | IetfStream s => stream_id_ok (sf_stream_id s) /\ in_u 62 (sf_offset s) /\ in_u 16 (sf_data_length s) /\
      (exists data, ietf_data f s = Some data)
  | IetfConnectionClose c | IetfApplicationClose c => ietf_close_ok c
  | IetfPadding p => if fills f p then last = true else 0 < num_padding_bytes p
  | IetfPathChallenge p | IetfPathResponse p => zlen (path_data_buffer p) = kQuicPathFrameBufferSize
  | IetfResetStream r => stream_id_ok (rst_stream_id r) /\ in_u 16 (rst_error_code r) /\ in_u 62 (rst_byte_offset r)
  | IetfStopSending s => stream_id_ok (ss_stream_id s) /\ in_u 16 (ss_application_error_code s)
  | IetfMaxData w => wu_stream_id w = 0 /\ in_u 62 (wu_byte_offset w)
  | IetfMaxStreamData w | IetfStreamBlocked w => stream_id_ok (wu_stream_id w) /\ in_u 62 (wu_byte_offset w)
  | IetfMaxStreamId m => stream_id_ok (max_stream_id m)
  | IetfBlocked b => in_u 62 (ib_offset b)
  | IetfStreamIdBlocked s => stream_id_ok (sib_stream_id s)
  end.

(** What may follow a frame in the packet: nothing after a stream frame without
    length or padding to the end, no zero byte after padding. *)
Definition ietf_rest f (frame : ietf_frame) (last : bool) (rest : list Z) : Prop :=
  match frame with
  | IetfStream _ => last = true -> rest = []
  | IetfPadding _ => ((transport_version (version_ f) <=? QUIC_VERSION_37) = true -> rest = []) /\
      (forall b l, rest = b :: l -> b <> 0)
  | _ => True
  end.

(** What is read: the data in a buffer, padding with its length. *)
Definition ietf_received f (frame : ietf_frame) (room : Z) : ietf_frame :=
  match frame with
  | IetfStream s => IetfStream (received s (default [] (ietf_data f s)))
  | IetfPadding p => IetfPadding (mkPadding (if fills f p then room else num_padding_bytes p))
  | _ => frame
  end.

(** ** Writing *)

Lemma stream_id_62 id : stream_id_ok id -> in_u 62 id.
Proof.
  unfold stream_id_ok, in_u. pose proof MaxVarIntStreamId_range as H. change (2 ^ 32) with 4294967296 in H.
  change (2 ^ 62) with 4611686018427387904. lia.
Qed.

Lemma emits_varint f en v : in_u 62 v -> emits f en tt (varint_bytes v) (wr_op (WriteVarInt62 v)).
Proof.
  intros Hv. eapply (emits_op_if _ en _ _ (fun _ => varint_bytes v)); [by apply WriteVarInt62_ok, Hv|].
  apply Z.ltb_lt, Hv.
Qed.

Lemma emits_code f en v : in_u 16 v -> emits f en tt (uint_bytes en 2 v) (wr_op (WriteUInt16 (u16 v))).
Proof. intros. rewrite wrap_id by done. apply (emits_op _ _ _ (fun en => uint_bytes en 2 v)), WriteUInt16_ok. Qed.

Lemma emits_code' f en v : emits f en tt (uint_bytes en 2 v) (wr_op (WriteUInt16 v)).
Proof. apply (emits_op _ _ _ (fun en => uint_bytes en 2 v)), WriteUInt16_ok. Qed.

Lemma emits_raw f en bs : emits f en tt bs (wr_op (WriteBytes bs)).
Proof. apply (emits_op _ en _ (fun _ => bs)), WriteBytes_ok. Qed.

(** Fields one after the other. *)
Ltac emit_field := first
  [ apply emits_uint8; assumption | apply emits_varint; solve [assumption | by apply stream_id_62]
  | apply emits_code; assumption | apply emits_code' | apply emits_raw ].

Ltac emit_fields := repeat first
  [ apply emits_or_detail; solve [emit_field]
  | eapply emits_bind; [apply emits_or_detail; solve [emit_field]|] ].

Lemma ietf_type_u8 frame last : in_u 8 (ietf_type frame last).
Proof.
  pose proof ietf_types_u8 as H. rewrite !Forall_cons in H. destruct H as (?&?&?&?&?&?&?&?&?&?&?&?&?&_).
  destruct frame; cbn [ietf_type]; try assumption; [|done].
  unfold ietf_stream_type. cbv zeta. repeat case_match; (apply wrap_range; lia).
Qed.

(** The bits of the type byte of a stream frame. *)
Lemma ietf_stream_bits s last : let t := ietf_stream_type s last in
  has_bits t IETF_STREAM_FRAME_OFF_BIT = negb (sf_offset s =? 0) /\
  has_bits t IETF_STREAM_FRAME_LEN_BIT = negb last /\ has_bits t IETF_STREAM_FRAME_FIN_BIT = sf_fin s.
Proof.
  unfold ietf_stream_type. destruct ietf_values as (-> & -> & -> & ->).
  destruct (sf_fin s), (sf_offset s =? 0), last; by vm_compute.
Qed.

Lemma emits_ietf_data f en s data : ietf_data f s = Some data ->
  emits f en tt data
    (match data_producer_ f with
     | None => or_detail "Writing frame data failed." (write_frame_data s)
     | Some p => or_detail "Writing frame data failed."
         (wr_op (WriteStreamData p (sf_stream_id s) (sf_offset s) (sf_data_length s)))
     end).
Proof.
  unfold ietf_data, write_frame_data. destruct (data_producer_ f) as [p|].
  - intros E. by apply emits_or_detail, (emits_op _ en _ (fun _ => data)), WriteStreamData_ok.
  - intros ->. apply emits_or_detail, emits_raw.
Qed.

Lemma emits_ietf_stream f en s last : ietf_ok f (IetfStream s) last ->
  emits f en tt (ietf_type (IetfStream s) last :: ietf_stream_wire f s last) (AppendIetfStreamFrame s last).
Proof.
  intros (Hid & Hoff & Hlen & data & Hd). pose proof (ietf_type_u8 (IetfStream s) last) as Ht.
  assert (in_u 62 (sf_data_length s)) as Hlen'.
  { unfold in_u in *. change (2 ^ 16) with 65536 in Hlen. change (2 ^ 62) with 4611686018427387904. lia. }
  destruct (ietf_stream_bits s last) as (B1 & B2 & _). unfold AppendIetfStreamFrame, ietf_stream_wire.
  cbn [ietf_type] in *. rewrite B1, B2, Hd.
  apply (emits_bind _ _ tt _ [_]); [apply emits_or_detail; emit_field|].
  eapply emits_bind; [apply emits_or_detail; emit_field|].
  eapply emits_bind; [destruct (_ =? 0); [apply emits_ret|apply emits_or_detail; emit_field]|].
  eapply emits_bind; [destruct last; [apply emits_ret|apply emits_or_detail; emit_field]|].
  by apply emits_gets, emits_ietf_data.
Qed.

Lemma emits_ietf_close f en t c : in_u 8 t -> ietf_close_ok c ->
  emits f en tt (t :: ietf_close_wire en c) (AppendIetfCloseFrame t (u16 (cc_error_code c)) (cc_error_details c)).
Proof.
  intros Ht [Hc Hz]. pose proof (zlen_nonneg (cc_error_details c)) as H0. unfold AppendIetfCloseFrame, ietf_close_wire.
  assert (in_u 62 (zlen (cc_error_details c))) as Hz' by done.
  apply (emits_bind _ _ tt _ [_]); [apply emits_or_detail; emit_field|]. emit_fields.
  destruct (cc_error_details c); [apply emits_ret|]. emit_fields.
Qed.

Lemma emits_path f en t msg1 msg2 p : in_u 8 t -> zlen (path_data_buffer p) = kQuicPathFrameBufferSize ->
  emits f en tt (t :: path_data_buffer p)
    (or_detail msg1 (wr_op (WriteUInt8 t)) ;; or_detail msg2 (write_path_data p)).
Proof.
  intros Ht Hz. apply (emits_bind _ _ tt _ [_]); [apply emits_or_detail; emit_field|]. apply emits_or_detail.
  pose proof (load_ok [] (path_data_buffer p) [] 0 _ eq_refl eq_refl) as E. cbn [app] in E. rewrite app_nil_r in E.
  unfold write_path_data. rewrite <- Hz, E. apply emits_raw.
Qed.

(** Every frame appends its type and its wire format. *)
Lemma emits_ietf e frame last : ietf_ok (fr e) frame last ->
  emits_at e tt (ietf_type frame last :: ietf_wire (fr e) (wendian (wr e)) frame last (capacity (wr e) - wlength (wr e)))
    (append_ietf frame last).
Proof.
  intros Hs. pose proof (ietf_type_u8 frame last) as Ht.
  assert (forall m, emits (fr e) (wendian (wr e)) tt
    (ietf_type frame last :: ietf_wire (fr e) (wendian (wr e)) frame last (capacity (wr e) - wlength (wr e))) m ->
    emits_at e tt (ietf_type frame last :: ietf_wire (fr e) (wendian (wr e)) frame last (capacity (wr e) - wlength (wr e))) m)
    as Hall by (intros m H; by apply H).
  destruct frame as [s|c|c|p|p|p|r|s|w|w|m|b|w|s]; cbn [append_ietf].
  4: { apply emits_padding_typed; [cbn in Hs; destruct (fills _ _); auto|]. apply emits_or_detail. by apply emits_uint8. }
  all: apply Hall; clear Hall; cbn [ietf_type ietf_wire ietf_ok] in *.
  - by apply emits_ietf_stream.
  - by apply emits_ietf_close.
  - by apply emits_ietf_close.
  - by apply emits_path.
  - by apply emits_path.
  - destruct Hs as (?&?&?). apply (emits_bind _ _ tt _ [_]); emit_fields.
  - destruct Hs as (?&?). apply (emits_bind _ _ tt _ [_]); emit_fields.
  - destruct Hs as (?&?). apply (emits_bind _ _ tt _ [_]); emit_fields.
  - destruct Hs as (?&?). apply (emits_bind _ _ tt _ [_]); emit_fields.
  - apply (emits_bind _ _ tt _ [_]); emit_fields.
  - apply (emits_bind _ _ tt _ [_]); emit_fields.
  - destruct Hs as (?&?). apply (emits_bind _ _ tt _ [_]); emit_fields.
  - apply (emits_bind _ _ tt _ [_]); emit_fields.
Qed.

(** ** Reading *)

(** Fields one after the other, then the frame. *)
Ltac parse_field := first
  [ apply parses_stream_id; assumption | apply parses_varint; assumption | apply parses_uint16; assumption ].

Ltac parse_fields := repeat first
  [ solve [eapply parses_eq; [apply parses_ret|done|done]]
  | eapply parses_bind; [apply parses_or_detail; solve [parse_field]|]
  | rewrite <- (app_nil_r (varint_bytes _)); eapply parses_bind; [apply parses_or_detail; solve [parse_field]|]
  | rewrite <- (app_nil_r (uint_bytes _ _ _)); eapply parses_bind; [apply parses_or_detail; solve [parse_field]|] ].

(** A reader of the fields of a frame, wrapped in its constructor. *)
Lemma parses_wrap {X} f en bs rest (a : X) (g : X -> ietf_frame) m :
  parses f en bs rest a m -> parses f en bs rest (g a) (m ≫= fun x => mret (g x)).
Proof. intros H. rewrite <- (app_nil_r bs). eapply parses_bind; [exact H|apply parses_ret]. Qed.

Lemma ietf_data_len f s data : ietf_data f s = Some data -> zlen data = sf_data_length s.
Proof. unfold ietf_data. destruct (data_producer_ f); [apply stream_data_len|apply load_length]. Qed.

Lemma parses_ietf_stream f2 en f s last rest : ietf_ok f (IetfStream s) last -> (last = true -> rest = []) ->
  parses f2 en (ietf_stream_wire f s last) rest (received s (default [] (ietf_data f s)))
    (ProcessIetfStreamFrame (ietf_type (IetfStream s) last)).
Proof.
  intros (Hid & Hoff & Hlen & data & Hd) Hrest. pose proof (ietf_data_len _ _ _ Hd) as Hdl.
  destruct (ietf_stream_bits s last) as (B1 & B2 & B3). unfold ProcessIetfStreamFrame, ietf_stream_wire.
  cbn [ietf_type] in *. rewrite B1, B2, B3, Hd. cbn [default].
  eapply parses_bind; [apply parses_or_detail; parse_field|].
  eapply parses_bind with (a := sf_offset s).
  { destruct (Z.eqb_spec (sf_offset s) 0) as [->|]; [apply parses_ret|apply parses_or_detail; parse_field]. }
  unfold in_u in Hlen. change (2 ^ 16) with 65536 in Hlen.
  assert (parses f2 en data rest (received s data)
    (data0 ← or_detail "Unable to read frame data." (rd_op (ReadStringPiece (zlen data)));
     mret (mkStreamFrame (sf_stream_id s) (sf_fin s) (sf_offset s) (u16 (zlen data0)) (Some data0)))) as Hk.
  { rewrite <- (app_nil_r data) at 1. eapply parses_bind; [by apply parses_or_detail, parses_string|].
    unfold received. rewrite Hdl, (wrap_id 16) by (unfold in_u; change (2 ^ 16) with 65536; lia). apply parses_ret. }
  eapply (parses_bind _ _ (zlen data) _ _ data); [|exact Hk].
  destruct last; cbn [negb].
  - rewrite Hrest by done. apply parses_remaining. cbn [app]. rewrite app_nil_r.
    rewrite (wrap_id 16) by (unfold in_u; change (2 ^ 16) with 65536; lia). apply parses_ret.
  - rewrite <- (app_nil_r (varint_bytes _)). eapply parses_bind; [apply parses_or_detail, parses_varint|].
    { unfold in_u. change (2 ^ 62) with 4611686018427387904. lia. }
    rewrite (proj2 (Z.ltb_ge _ _)), Hdl by lia. apply parses_ret.
Qed.

Lemma parses_ietf_close f en c t rest : ietf_close_ok c ->
  parses f en (ietf_close_wire en c) rest c (ProcessIetfCloseFrame t).
Proof.
  intros [Hc Hz]. pose proof (zlen_nonneg (cc_error_details c)) as H0.
  assert (in_u 62 (zlen (cc_error_details c))) as Hz' by done.
  unfold ProcessIetfCloseFrame, ietf_close_wire. parse_fields. rewrite <- (app_nil_r (cc_error_details c)) at 1.
  eapply parses_bind; [by apply parses_or_detail, parses_string|].
  eapply parses_eq; [apply parses_ret|done|by destruct c].
Qed.

Lemma parses_path f en p rest msg : zlen (path_data_buffer p) = kQuicPathFrameBufferSize ->
  parses f en (path_data_buffer p) rest p
    (bs ← or_detail msg (rd_op (ReadBytes kQuicPathFrameBufferSize)); mret (mkPath bs)).
Proof.
  intros Hz. rewrite <- (app_nil_r (path_data_buffer p)). eapply parses_bind; [by apply parses_or_detail, parses_bytes|].
  eapply parses_eq; [apply parses_ret|done|by destruct p].
Qed.

(** Every frame's reader turns its wire format into the frame. *)
Lemma parses_ietf f2 en f frame last room rest :
  ietf_ok f frame last -> 0 < room -> ietf_rest f2 frame last rest ->
  parses f2 en (ietf_wire f en frame last room) rest (ietf_received f frame room)
    (process_ietf frame (ietf_type frame last)).
Proof.
  intros Hok Hroom Hrest. destruct frame as [s|c|c|p|p|p|r|s|w|w|m|b|w|s]; cbn [process_ietf ietf_received ietf_wire];
    apply parses_wrap; cbn in Hok.
  - by apply parses_ietf_stream.
  - by apply parses_ietf_close.
  - by apply parses_ietf_close.
  - destruct Hrest as [Hr1 Hr2]. eapply parses_eq; [by apply parses_padding|done|]. f_equal.
    destruct (fills f p); rewrite Z2Nat.id; lia.
  - by apply parses_path.
  - by apply parses_path.
  - destruct Hok as (?&?&?), r. unfold ProcessIetfResetStreamFrame. parse_fields.
  - destruct Hok, s. unfold ProcessIetfStopSendingFrame. parse_fields.
  - destruct Hok, w. cbn in *. subst. unfold ProcessIetfMaxDataFrame. parse_fields.
  - destruct Hok, w. unfold ProcessIetfMaxStreamDataFrame. parse_fields.
  - destruct m. unfold ProcessIetfMaxStreamIdFrame. parse_fields.
  - destruct b. unfold ProcessIetfBlockedFrame. parse_fields.
  - destruct Hok, w. unfold ProcessIetfStreamBlockedFrame. parse_fields.
  - destruct s. unfold ProcessIetfStreamIdBlockedFrame. parse_fields.
Qed.

(** C17: Every IETF frame but the ack is read back as it was written: when it
    fits, its writer appends a type byte and the frame's fields and leaves the
    rest of the framer alone, and the reader of its kind, given these bytes in a
    datagram, consumes exactly them and returns the frame; when it does not fit
    the writer fails. *)
Theorem ietf_frame_roundtrip e frame last : ietf_ok (fr e) frame last ->
  let room := capacity (wr e) - wlength (wr e) in
  let bs := ietf_type frame last :: ietf_wire (fr e) (wendian (wr e)) frame last room in
  if wlength (wr e) + zlen bs <=? capacity (wr e) then
    exists w', append_ietf frame last e = (Ok tt, put_wr w' e) /\ wext (wr e) bs w' /\
      forall e2 rest, rendian (rd e2) = wendian (wr e) -> remaining (rd e2) = bs ++ rest ->
        ietf_rest (fr e2) frame last rest ->
        exists r', (t ← rd_op ReadUInt8; process_ietf frame t) e2 = (Ok (ietf_received (fr e) frame room), put_rd r' e2) /\
          remaining r' = rest
  else exists e', append_ietf frame last e = (Fail, e').
Proof.
  intros Hok room bs. pose proof (emits_ietf e frame last Hok) as H. unfold emits_at in H. fold room bs in H.
  destruct (Z.leb_spec (wlength (wr e) + zlen bs) (capacity (wr e))) as [Hfit|]; [|done].
  destruct H as (w' & E & Hw). exists w'. do 2 (split; [done|]). intros e2 rest Hn Hr Hrest.
  assert (0 < room) as Hroom by (unfold bs in Hfit; rewrite zlen_cons in Hfit; pose proof (zlen_nonneg
    (ietf_wire (fr e) (wendian (wr e)) frame last room)); unfold room in *; lia).
  assert (parses (fr e2) (wendian (wr e)) bs rest (ietf_received (fr e) frame room)
    (t ← rd_op ReadUInt8; process_ietf frame t)) as Hp.
  { apply (parses_bind _ _ (ietf_type frame last) _ [_]); [apply parses_byte, ietf_type_u8|by apply parses_ietf]. }
  destruct (Hp e2 eq_refl Hn Hr) as (r' & E2 & Hr' & _). by exists r'.
Qed.

End Ietf.

(** ** Witness *)

Definition demo_ietf_frame : ietf_frame :=
  IetfStream (mkStreamFrame 300 true 70000 3 (Some [10; 11; 12])).

(** A last frame of a packet: type with the FIN and OFF bits, id, offset, data. *)
Definition demo_ietf_bytes : list Z := [21; 65; 44; 128; 1; 17; 112; 10; 11; 12].

Definition demo_ietf_sender : env := demo_env (demo_framer IS_CLIENT 41) [] NETWORK_BYTE_ORDER.
Definition demo_ietf_receiver : env := demo_env (demo_framer IS_SERVER 41) demo_ietf_bytes NETWORK_BYTE_ORDER.

Lemma ietf_frame_roundtrip_witness :
  exists w' r', append_ietf demo_ietf_frame true demo_ietf_sender = (Ok tt, put_wr w' demo_ietf_sender) /\
    written w' = demo_ietf_bytes /\
    (t ← rd_op ReadUInt8; process_ietf demo_ietf_frame t) demo_ietf_receiver =
      (Ok demo_ietf_frame, put_rd r' demo_ietf_receiver) /\ remaining r' = [].
Proof.
  destruct (ietf_frame_roundtrip demo_ietf_sender demo_ietf_frame true) as (w' & E & Hw & Hr).
  { cbn. unfold stream_id_ok, in_u. cbn. split_and!; try lia. by eexists. }
  destruct (Hr demo_ietf_receiver [] eq_refl) as (r' & E' & Hr'); [by vm_compute|done|].
  exists w', r'. split_and!; [exact E|by rewrite (proj1 Hw)|exact E'|exact Hr'].
Defined.
