(* ===== verification/FramerIetfAck.v ===== *)
(** * IETF ack frames: what the reader makes of the acknowledged packets

    The writer sends the first interval's length, then a gap and a length for
    each further interval.  The reader slides both ends of the interval down by
    the same amount, so every interval it adds is as long as the first one. *)

From S2P Require Import Prelude QuicTime FramerTypes FramerNumbers FramerAppend FramerProcess FramerIetf.
From S2P Require Import FramerWire FramerCodec FramerConcrete FramerStream FramerFrames FramerIetfFrames.
Open Scope Z_scope.

(** ** Intervals *)

(** The intervals, each as long as [n] from its lowest packet. *)
Definition slid (n : Z) (l : list (Z * Z)) : list (Z * Z) := map (fun i => (i.1, i.1 + n)) l.

Lemma slid_same n l : Forall (fun i => i.2 - i.1 = n) l -> slid n l = l.
Proof.
  intros H. induction H as [|[lo hi] l E _ IH]; [done|]. unfold slid in *. cbn in *. rewrite IH. by replace (lo + n) with hi by lia.
Qed.

Lemma slid_same_inv n l : slid n l = l -> Forall (fun i => i.2 - i.1 = n) l.
Proof.
  unfold slid. induction l as [|[lo hi] l IH]; cbn; [done|]. intros [= E El]. constructor; [cbn; lia|by apply IH].
Qed.

(** Separated intervals take two numbers each, the gap included. *)
Lemma intervals_count l : forall hi, 0 <= hi + 1 -> intervals_below hi l -> 2 * zlen l <= hi + 1.
Proof.
  induction l as [|[lo up] l IH]; intros hi Hhi H; [unfold zlen; cbn; lia|].
  destruct H as (H1 & H2 & H3). rewrite zlen_cons. specialize (IH (lo - 1) ltac:(lia) H3). lia.
Qed.

Lemma below_elem hi l i : intervals_below hi l -> i ∈ l -> 0 <= i.1 < i.2 /\ i.2 <= hi.
Proof.
  revert hi. induction l as [|[lo up] l IH]; intros hi H Hi; [by apply not_elem_of_nil in Hi|].
  destruct H as (H1 & H2 & H3). apply elem_of_cons in Hi as [->|Hi]; [cbn; lia|].
  specialize (IH _ H3 Hi). lia.
Qed.

(** Two intervals are the same or have a gap between them. *)
Lemma intervals_apart l i j : forall hi, intervals_below hi l -> i ∈ l -> j ∈ l -> i = j \/ i.2 < j.1 \/ j.2 < i.1.
Proof.
  induction l as [|[lo up] l IH]; intros hi H Hi Hj; [by apply not_elem_of_nil in Hi|].
  destruct H as (H1 & H2 & H3). apply elem_of_cons in Hi as [->|Hi]; apply elem_of_cons in Hj as [->|Hj].
  - by left.
  - pose proof (below_elem _ _ _ H3 Hj). cbn. lia.
  - pose proof (below_elem _ _ _ H3 Hi). cbn. lia.
  - by eapply IH.
Qed.

(** The numbers in the intervals. *)
Definition covers (l : list (Z * Z)) (k : Z) : Prop := exists i, i ∈ l /\ i.1 <= k < i.2.

Lemma covers_cons i l k : covers (i :: l) k <-> i.1 <= k < i.2 \/ covers l k.
Proof.
  unfold covers. split.
  - intros (j & [->|Hj]%elem_of_cons & Hk); [by left|]. right. by exists j.
  - intros [Hk|(j & Hj & Hk)]; [exists i|exists j]; (split; [by constructor|done]).
Qed.

Lemma covers_slid n l k : covers (slid n l) k <-> exists i, i ∈ l /\ i.1 <= k < i.1 + n.
Proof.
  unfold covers, slid. split.
  - intros (j & (i & -> & Hi)%list_elem_of_fmap & Hk). by exists i.
  - intros (i & Hi & Hk). exists (i.1, i.1 + n). split; [|done]. apply list_elem_of_fmap. by exists i.
Qed.

(** Intervals slid to one length cover the same numbers only if they had it. *)
Lemma slid_covers n l hi : 0 < n -> intervals_below hi l ->
  (forall k, covers (slid n l) k <-> covers l k) <-> Forall (fun i => i.2 - i.1 = n) l.
Proof.
  intros Hn H. split; [|intros Hf k; by rewrite slid_same].
  intros Heq. apply Forall_forall. intros i Hi. pose proof (below_elem _ _ _ H Hi) as Hr.
  destruct (Z.lt_trichotomy (i.2 - i.1) n) as [Hlt|[He|Hgt]]; [exfalso|done|exfalso].
  - destruct (proj1 (Heq i.2)) as (j & Hj & Hk); [apply covers_slid; exists i; split; [done|lia]|].
    destruct (intervals_apart l i j hi H Hi Hj) as [->|[Ha|Ha]]; lia.
  - destruct (proj2 (Heq (i.1 + n))) as (j' & Hj' & Hk'); [exists i; split; [done|lia]|].
    destruct (proj1 (covers_slid n l (i.1 + n))) as (j & Hj & Hk); [by exists j'|].
    destruct (intervals_apart l i j hi H Hi Hj) as [->|[Ha|Ha]]; [lia..|]. pose proof (below_elem _ _ _ H Hj). lia.
Qed.

(** What the library documents of [AddRange]: it adds the numbers of the range to
    the set, wherever they are. *)
Class PacketQueueSet (Q : PacketQueueOps) : Prop :=
  AddRange_set q lo up k : 0 <= lo < up -> up <= 2 ^ 62 ->
    covers (rev_intervals (AddRange lo up q)) k <-> lo <= k < up \/ covers (rev_intervals q) k.

Section IetfAck.
Context `{T : QuicTypes} `{Q : PacketQueueOps} `{A : !AckOps} `{C : CryptoOps} `{F : QuicFunctions}
  `{R : ReaderOps} `{W : WriterOps} `{V : !VisitorOps} `{P : !ProducerOps}
  `{RV : !ReaderView} `{WV : !WriterView} `{RO : !ReaderOk} `{WO : !WriterOk}
  `{TO : !QuicTypesOk T} `{FO : !QuicFunctionsOk F} `{QO : !PacketQueueOk Q} `{QS : !PacketQueueSet Q} `{AO : !AckOk A}.

Implicit Types (f : MyQuicFramer) (a : QuicAckFrame).

(** An ack whose largest packet ends its first interval [lo, largest], the
    others being [l], and whose delay is finite. *)
Definition ietf_ack_ok a (lo : Z) (l : list (Z * Z)) : Prop :=
  rev_intervals (packets a) = (lo, largest_acked a + 1) :: l /\
  0 <= time_offset_ (ack_delay_time a) < kQuicInfiniteTimeUs.

Lemma ietf_ack_intervals a lo l : ietf_ack_ok a lo l ->
  0 <= lo <= largest_acked a /\ largest_acked a < 2 ^ 62 /\ intervals_below (lo - 1) l.
Proof.
  intros [E _]. pose proof (rev_intervals_wf (packets a)) as H. rewrite E in H. destruct H as (H1 & H2 & H3).
  split_and!; [lia..|done].
Qed.

(** ** Wire format *)

(** A gap and a length for each interval, both less one. *)
Fixpoint ietf_blocks (prev : Z) (l : list (Z * Z)) : list Z :=
  match l with
  | [] => []
  | (lo, hi) :: l => varint_bytes (prev - hi - 1) ++ varint_bytes (hi - lo - 1) ++ ietf_blocks lo l
  end.

Definition ietf_ack_units a : Z := time_offset_ (ack_delay_time a) / 8.

Definition ietf_ack_wire a (lo : Z) (l : list (Z * Z)) : list Z :=
  varint_bytes (largest_acked a) ++ varint_bytes (ietf_ack_units a) ++ varint_bytes (zlen l) ++
  varint_bytes (largest_acked a - lo) ++ ietf_blocks lo l.

Lemma varint_nonempty v : in_u 62 v -> 1 <= zlen (varint_bytes v).
Proof.
  intros Hv. pose proof (p_varint_app v [] Hv) as E. apply p_varint_shorter in E. rewrite app_nil_r in E. unfold zlen in *. cbn in E. lia.
Qed.

(** The fields of the blocks fit. *)
Lemma ietf_block_fits prev lo hi l : prev < 2 ^ 62 -> intervals_below (prev - 1) ((lo, hi) :: l) ->
  in_u 62 (prev - hi - 1) /\ in_u 62 (hi - lo - 1) /\ lo < 2 ^ 62 /\ intervals_below (lo - 1) l.
Proof. intros Hp (H1 & H2 & H3). unfold in_u in *. split_and!; try lia; done. Qed.

Lemma ietf_blocks_count l : forall prev, prev < 2 ^ 62 -> intervals_below (prev - 1) l ->
  zlen l <= zlen (ietf_blocks prev l).
Proof.
  induction l as [|[lo hi] l IH]; intros prev Hp H; [done|].
  apply ietf_block_fits in H as (H1 & H2 & H3 & H4); [|done].
  cbn [ietf_blocks]. rewrite zlen_cons, !zlen_app. pose proof (varint_nonempty _ H1). pose proof (varint_nonempty _ H2).
  specialize (IH lo H3 H4). lia.
Qed.

(** ** Writing *)

Lemma emits_ietf_blocks f en l : forall prev, prev < 2 ^ 62 -> intervals_below (prev - 1) l ->
  emits f en tt (ietf_blocks prev l) (append_ietf_blocks l prev).
Proof.
  induction l as [|[lo hi] l IH]; intros prev Hp H; [apply emits_ret|].
  pose proof H as (Hlo & Hhi & _). apply ietf_block_fits in H as (H1 & H2 & H3 & H4); [|done].
  cbn [append_ietf_blocks ietf_blocks fst snd]. change (2 ^ 62) with 4611686018427387904 in *.
  rewrite !wrap_id by (unfold in_u in *; change (2 ^ 64) with 18446744073709551616; lia).
  eapply emits_bind; [by apply emits_or_detail, emits_varint|].
  apply (emits_bind _ _ tt _ []); [apply emits_require, negb_true_iff, Z.eqb_neq; lia|].
  eapply emits_bind; [by apply emits_or_detail, emits_varint|]. by apply IH.
Qed.

Lemma ietf_units_ok a lo l : ietf_ack_ok a lo l ->
  in_u 62 (ietf_ack_units a) /\
  Z.shiftr (u64 (ToMicroseconds (ack_delay_time a))) kIetfAckTimestampShift = ietf_ack_units a.
Proof.
  intros [_ H]. unfold ietf_ack_units, ToMicroseconds, kIetfAckTimestampShift, kQuicInfiniteTimeUs in *.
  change (2 ^ 63) with 9223372036854775808 in H.
  rewrite wrap_id by (unfold in_u; change (2 ^ 64) with 18446744073709551616; lia).
  rewrite Z.shiftr_div_pow2 by lia. change (2 ^ 3) with 8. split; [|done].
  unfold in_u. change (2 ^ 62) with 4611686018427387904. Z.to_euclidean_division_equations. lia.
Qed.

Lemma emits_ietf_ack f en a lo l : ietf_ack_ok a lo l ->
  emits f en tt (IETF_ACK :: ietf_ack_wire a lo l) (AppendIetfAckFrame a).
Proof.
  intros Hok. pose proof (ietf_ack_intervals a lo l Hok) as (H1 & H2 & H3).
  destruct (ietf_units_ok a lo l Hok) as [Hu Eu]. destruct Hok as [Eq Hd].
  pose proof (intervals_count l (lo - 1) ltac:(lia) H3) as Hc. pose proof (zlen_nonneg l).
  unfold AppendIetfAckFrame, ietf_ack_wire. rewrite (LargestAcked_eq _ _ _ Eq), Eu, Eq. cbv beta zeta. cbn [fst snd].
  change (2 ^ 62) with 4611686018427387904 in *.
  rewrite (wrap_id 64 (largest_acked a + 1 - lo)) by (unfold in_u; change (2 ^ 64) with 18446744073709551616; lia).
  assert (forall v, 0 <= v < 4611686018427387904 -> forall msg, emits f en tt (varint_bytes v)
    (or_detail msg (wr_op (WriteVarInt62 v)))) as Hv by (intros; by apply emits_or_detail, emits_varint).
  apply (emits_bind _ _ tt _ [_]).
  { apply emits_or_detail, emits_uint8. pose proof ietf_types_u8 as H'. rewrite !Forall_cons in H'. apply H'. }
  eapply emits_bind; [apply Hv; lia|].
  apply (emits_bind _ _ tt _ []).
  { apply emits_require, negb_true_iff. unfold IsInfinite. apply Z.eqb_neq. lia. }
  eapply emits_bind; [by apply Hv|]. eapply emits_bind; [apply Hv; lia|].
  apply (emits_bind _ _ tt _ []); [apply emits_require, negb_true_iff, Z.eqb_neq; lia|].
  eapply emits_bind.
  - replace (largest_acked a + 1 - lo - 1) with (largest_acked a - lo) by lia. apply Hv. lia.
  - apply emits_ietf_blocks; [change (2 ^ 62) with 4611686018427387904; lia|done].
Qed.

(** ** Reading *)

(** The ranges added to a queue for further intervals, [n] packets each. *)
Definition add_slid (n : Z) (l : list (Z * Z)) (q : PacketNumberQueue) : PacketNumberQueue :=
  foldl (fun q i => AddRange i.1 (i.1 + n) q) q l.

(** The delay in units of eight microseconds; one value stands for infinity. *)
Definition ietf_ack_delay a : Delta :=
  if 8 * ietf_ack_units a =? 0x3ffffffffff8 then Delta_Infinite else mkDelta (8 * ietf_ack_units a).

Definition ietf_acked a (lo : Z) (l : list (Z * Z)) (ack : QuicAckFrame) : QuicAckFrame :=
  mkAckFrame (largest_acked a) (ietf_ack_delay a) (received_packet_times ack)
    (add_slid (largest_acked a + 1 - lo) l (AddRange lo (largest_acked a + 1) (packets ack))).

Lemma add_range_packets lo hi a : add_range lo hi a =
  mkAckFrame (largest_acked a) (ack_delay_time a) (received_packet_times a) (AddRange lo hi (packets a)).
Proof. done. Qed.

Lemma parses_ietf_blocks f en n rest l : 0 <= n <= 2 ^ 62 -> forall prev fuel a,
  0 <= prev < 2 ^ 62 -> intervals_below (prev - 1) l -> (length l <= fuel)%nat ->
  parses f en (ietf_blocks prev l) rest
    (mkAckFrame (largest_acked a) (ack_delay_time a) (received_packet_times a) (add_slid n l (packets a)))
    (ietf_ack_loop fuel (zlen l) (prev + n) prev a).
Proof.
  intros Hn. induction l as [|[lo hi] l IH]; intros prev fuel a Hp H Hf.
  { eapply parses_eq; [|done|]; [destruct fuel; apply parses_ret|by destruct a]. }
  pose proof H as (Hlo & Hhi & _). pose proof (zlen_nonneg l).
  apply ietf_block_fits in H as (H1 & H2 & H3 & H4); [|lia].
  destruct fuel as [|fuel]; cbn [length] in Hf; [lia|]. cbn [ietf_ack_loop ietf_blocks].
  rewrite zlen_cons, (proj2 (Z.eqb_neq _ _)) by lia.
  eapply parses_bind; [by apply parses_or_detail, parses_varint|].
  eapply parses_bind; [by apply parses_or_detail, parses_varint|]. cbv zeta.
  replace (prev + n - (hi - lo - 1 + (prev - hi - 1) + 2)) with (lo + n) by lia.
  replace (prev - (hi - lo - 1 + (prev - hi - 1) + 2)) with lo by lia.
  change (2 ^ 62) with 4611686018427387904 in *.
  rewrite !wrap_id by (unfold in_u; change (2 ^ 64) with 18446744073709551616; lia).
  replace (1 + zlen l - 1) with (zlen l) by lia.
  specialize (IH lo fuel (add_range lo (lo + n) a)). rewrite add_range_packets in IH.
  apply IH; [lia|done|lia].
Qed.

Lemma parses_ietf_ack f en a lo l t ack rest : ietf_ack_ok a lo l ->
  parses f en (ietf_ack_wire a lo l) rest (ietf_acked a lo l ack) (ProcessIetfAckFrame t ack).
Proof.
  intros Hok. pose proof (ietf_ack_intervals a lo l Hok) as (H1 & H2 & H3).
  destruct (ietf_units_ok a lo l Hok) as [Hu _]. destruct Hok as [_ Hd].
  pose proof (intervals_count l (lo - 1) ltac:(lia) H3) as Hc. pose proof (zlen_nonneg l).
  pose proof (ietf_blocks_count l lo ltac:(lia) H3) as Hb.
  unfold ProcessIetfAckFrame, ietf_ack_wire. change (2 ^ 62) with 4611686018427387904 in *.
  eapply parses_bind; [apply parses_or_detail, parses_varint; unfold in_u; change (2 ^ 62) with 4611686018427387904; lia|].
  eapply parses_bind; [by apply parses_or_detail, parses_varint|]. cbv zeta.
  eapply parses_bind; [apply parses_or_detail, parses_varint; unfold in_u; change (2 ^ 62) with 4611686018427387904; lia|].
  eapply parses_bind; [apply parses_or_detail, parses_varint; unfold in_u; change (2 ^ 62) with 4611686018427387904; lia|].
  apply parses_remaining.
  assert (u64 (Z.shiftl (ietf_ack_units a) kIetfAckTimestampShift) = 8 * ietf_ack_units a) as ->.
  { rewrite Z.shiftl_mul_pow2 by (vm_compute; congruence). change (2 ^ kIetfAckTimestampShift) with 8.
    unfold in_u, ietf_ack_units, kQuicInfiniteTimeUs in *. change (2 ^ 63) with 9223372036854775808 in Hd.
    change (2 ^ 62) with 4611686018427387904 in *.
    rewrite wrap_id; [lia|]. unfold in_u. change (2 ^ 64) with 18446744073709551616. Z.to_euclidean_division_equations. lia. }
  rewrite !(wrap_id 64) by (unfold in_u; change (2 ^ 64) with 18446744073709551616; lia).
  assert ((if 8 * ietf_ack_units a =? 0x3ffffffffff8 then Delta_Infinite else FromMicroseconds (8 * ietf_ack_units a)) =
    ietf_ack_delay a) as ->.
  { unfold ietf_ack_delay. destruct (_ =? _); [done|]. unfold FromMicroseconds. rewrite swrap_id; [done|lia|].
    unfold in_s, ietf_ack_units, kQuicInfiniteTimeUs in *. change (2 ^ (64 - 1)) with 9223372036854775808.
    change (2 ^ 63) with 9223372036854775808 in Hd. Z.to_euclidean_division_equations. lia. }
  replace (largest_acked a - (largest_acked a - lo)) with lo by lia.
  replace (largest_acked a + 1) with (lo + (largest_acked a + 1 - lo)) at 1 by lia.
  apply (parses_ietf_blocks f en (largest_acked a + 1 - lo) rest l
    ltac:(change (2 ^ 62) with 4611686018427387904; lia) lo _
    (add_range lo (largest_acked a + 1) (mkAckFrame _ _ _ _))).
  - change (2 ^ 62) with 4611686018427387904. lia.
  - done.
  - rewrite zlen_app. pose proof (zlen_nonneg rest). unfold zlen in *. lia.
Qed.

(** ** The queue *)

(** Ranges below what the queue holds are put at its end. *)
Lemma add_slid_below n l : forall q prev, prev <= 2 ^ 62 ->
  (forall m x, (m, x) ∈ rev_intervals q -> prev <= m) -> intervals_below (prev - 1) (slid n l) ->
  rev_intervals (add_slid n l q) = rev_intervals q ++ slid n l.
Proof.
  induction l as [|[lo hi] l IH]; intros q prev Hp Hq H; [by rewrite app_nil_r|].
  destruct H as (H1 & H2 & H3). cbn [fst snd] in *.
  assert (rev_intervals (AddRange lo (lo + n) q) = rev_intervals q ++ [(lo, lo + n)]) as E.
  { apply AddRange_below; [lia|lia|]. intros m x Hm. specialize (Hq m x Hm). lia. }
  change (add_slid n ((lo, hi) :: l) q) with (add_slid n l (AddRange lo (lo + n) q)).
  change (slid n ((lo, hi) :: l)) with ((lo, lo + n) :: slid n l).
  rewrite (IH _ lo); [rewrite E; by rewrite <- app_assoc|lia| |done].
  intros m x. rewrite E, elem_of_app, list_elem_of_singleton. intros [Hm|[= -> ->]]; [|lia].
  specialize (Hq m x Hm). lia.
Qed.

Lemma ietf_acked_queue a lo l ack : ietf_ack_ok a lo l -> rev_intervals (packets ack) = [] ->
  intervals_below (lo - 1) (slid (largest_acked a + 1 - lo) l) ->
  rev_intervals (packets (ietf_acked a lo l ack)) = (lo, largest_acked a + 1) :: slid (largest_acked a + 1 - lo) l.
Proof.
  intros Hok He H. pose proof (ietf_ack_intervals a lo l Hok) as (H1 & H2 & _). cbn [packets ietf_acked].
  assert (rev_intervals (AddRange lo (largest_acked a + 1) (packets ack)) = [(lo, largest_acked a + 1)]) as E.
  { rewrite AddRange_below; [by rewrite He|lia|lia|]. rewrite He. intros m x Hm. by apply elem_of_nil in Hm. }
  rewrite (add_slid_below _ _ _ lo); [by rewrite E|lia| |done].
  rewrite E. intros m x Hm. apply list_elem_of_singleton in Hm as [= -> ->]. lia.
Qed.

(** The numbers in the queue, whether the ranges meet or not. *)
Lemma add_slid_covers n l k : 0 < n -> forall q, Forall (fun i => 0 <= i.1 /\ i.1 + n <= 2 ^ 62) l ->
  covers (rev_intervals (add_slid n l q)) k <-> covers (slid n l) k \/ covers (rev_intervals q) k.
Proof.
  intros Hn. induction l as [|[lo hi] l IH]; intros q Hl.
  - split; [by right|]. by intros [(i & Hi%not_elem_of_nil & _)|H].
  - apply Forall_cons in Hl as [Hb Hl]. change (add_slid n ((lo, hi) :: l) q) with (add_slid n l (AddRange lo (lo + n) q)).
    change (slid n ((lo, hi) :: l)) with ((lo, lo + n) :: slid n l). cbn [fst] in Hb.
    rewrite IH, AddRange_set, covers_cons by (done || lia). cbn [fst snd]. tauto.
Qed.

Lemma ietf_acked_covers a lo l ack k : ietf_ack_ok a lo l -> rev_intervals (packets ack) = [] ->
  covers (rev_intervals (packets (ietf_acked a lo l ack))) k <->
  covers (slid (largest_acked a + 1 - lo) ((lo, largest_acked a + 1) :: l)) k.
Proof.
  intros Hok He. pose proof (ietf_ack_intervals a lo l Hok) as (H1 & H2 & H3).
  change (slid _ (_ :: l)) with ((lo, lo + (largest_acked a + 1 - lo)) :: slid (largest_acked a + 1 - lo) l).
  rewrite covers_cons. cbn [packets ietf_acked fst snd].
  rewrite add_slid_covers, AddRange_set, He; [|lia..|].
  - replace (lo + (largest_acked a + 1 - lo)) with (largest_acked a + 1) by lia.
    assert (~ covers [] k) by (intros (i & Hi%not_elem_of_nil & _); done). tauto.
  - apply Forall_forall. intros i Hi. pose proof (below_elem _ _ _ H3 Hi). lia.
Qed.

(** C18: What an IETF ack frame is read back as.  When it fits, the writer
    appends the largest packet, the delay in units of 8 us, and a gap and a
    length per interval; the reader, given these bytes in a datagram and an
    empty frame, consumes exactly them and recovers the largest packet and the
    delay rounded down.
    It recovers the lowest packet of every interval, but takes each to be as
    long as the first one.  So the packets acknowledged after reading are those
    of intervals of that length, which may overlap; they are the packets written
    exactly when all intervals have one length; and as long as the intervals
    read have gaps between them they are the queue read, in order. *)
Theorem ietf_ack_roundtrip e a lo l ack : ietf_ack_ok a lo l -> rev_intervals (packets ack) = [] ->
  let bs := IETF_ACK :: ietf_ack_wire a lo l in
  let n := largest_acked a + 1 - lo in
  if wlength (wr e) + zlen bs <=? capacity (wr e) then
    exists w', AppendIetfAckFrame a e = (Ok tt, put_wr w' e) /\ wext (wr e) bs w' /\
      forall e2 rest, remaining (rd e2) = bs ++ rest ->
        exists r' a', (t ← rd_op ReadUInt8; ProcessIetfAckFrame t ack) e2 = (Ok a', put_rd r' e2) /\
          remaining r' = rest /\ largest_acked a' = largest_acked a /\ ack_delay_time a' = ietf_ack_delay a /\
          (forall k, covers (rev_intervals (packets a')) k <->
            exists i, i ∈ rev_intervals (packets a) /\ i.1 <= k < i.1 + n) /\
          ((forall k, covers (rev_intervals (packets a')) k <-> covers (rev_intervals (packets a)) k) <->
            Forall (fun i => i.2 - i.1 = n) l) /\
          (intervals_below (lo - 1) (slid n l) ->
            rev_intervals (packets a') = (lo, largest_acked a + 1) :: slid n l)
  else exists e', AppendIetfAckFrame a e = (Fail, e').
Proof.
  intros Hok He bs n. subst n. pose proof (emits_ietf_ack (fr e) (wendian (wr e)) a lo l Hok e eq_refl eq_refl) as H.
  unfold emits_at in H. fold bs in H. destruct (_ <=? _); [|done].
  destruct H as (w' & E & Hw). exists w'. do 2 (split; [done|]). intros e2 rest Hr.
  assert (in_u 8 IETF_ACK) as Ht by (pose proof ietf_types_u8 as H'; rewrite !Forall_cons in H'; apply H').
  assert (parses (fr e2) (rendian (rd e2)) bs rest (ietf_acked a lo l ack)
    (t ← rd_op ReadUInt8; ProcessIetfAckFrame t ack)) as Hp.
  { apply (parses_bind _ _ IETF_ACK _ [_]); [by apply parses_byte|by apply parses_ietf_ack]. }
  destruct (Hp e2 eq_refl eq_refl Hr) as (r' & E2 & Hr' & _).
  exists r', (ietf_acked a lo l ack). do 4 (split; [done|]).
  pose proof (fun k => ietf_acked_covers a lo l ack k Hok He) as Hc.
  pose proof (ietf_ack_intervals a lo l Hok) as (H1 & H2 & H3).
  split; [intros k; by rewrite Hc, (proj1 Hok), covers_slid|]. split; [|by apply ietf_acked_queue].
  setoid_rewrite Hc. rewrite (proj1 Hok). rewrite (slid_covers _ _ (2 ^ 62)); [|lia|split_and!; [lia..|done]].
  rewrite Forall_cons. cbn [fst snd]. split; [by intros [_ ?]|by split].
Qed.

End IetfAck.

(** ** Witness *)

#[export] Instance list_queue_set : PacketQueueSet list_queue_ops.
Proof.
  intros q lo up k Hlo Hup. cbn [rev_intervals AddRange list_queue_ops].
  rewrite intervals_wf_id by (apply unite_below; [apply intervals_wf|lia..]).
  pose proof (intervals_wf q) as H. revert H lo up Hlo Hup. generalize (2 ^ 62) as hi.
  induction (intervals q) as [|[m x] l IH]; intros hi H lo up Hlo Hup; cbn [unite]; [by rewrite covers_cons|].
  destruct H as (H1 & H2 & H3). rewrite (covers_cons (m, x)). cbn [fst snd].
  destruct (Z.ltb_spec up m); [rewrite covers_cons, (IH (m - 1)) by (done || lia); cbn [fst snd]; tauto|].
  destruct (Z.ltb_spec x lo); [by rewrite !covers_cons|].
  rewrite (IH hi); [|eapply intervals_below_more; [|done]; lia|lia..].
  assert (Z.min lo m <= k < Z.max up x <-> lo <= k < up \/ m <= k < x) as -> by lia. tauto.
Qed.

(** Packets 10 to 12 and 7 to 8 arrived; the peer is told of packet 9 too. *)
Definition demo_ietf_ack : QuicAckFrame := mkAckFrame 12 (mkDelta 100) [] [(10, 13); (7, 9)].

Definition demo_ietf_ack_bytes : list Z := [13; 12; 12; 1; 2; 0; 1].

Lemma ietf_ack_roundtrip_witness :
  exists w' r' a',
    AppendIetfAckFrame demo_ietf_ack demo_ietf_sender = (Ok tt, put_wr w' demo_ietf_sender) /\
    written w' = demo_ietf_ack_bytes /\
    (t ← rd_op ReadUInt8; ProcessIetfAckFrame t (mkAckFrame 0 Delta_Zero [] empty_queue))
      (demo_env (demo_framer IS_SERVER 41) demo_ietf_ack_bytes NETWORK_BYTE_ORDER) =
      (Ok a', put_rd r' (demo_env (demo_framer IS_SERVER 41) demo_ietf_ack_bytes NETWORK_BYTE_ORDER)) /\
    ack_delay_time a' = mkDelta 96 /\ covers (rev_intervals (packets a')) 9.
Proof.
  destruct (ietf_ack_roundtrip demo_ietf_sender demo_ietf_ack 10 [(7, 9)] (mkAckFrame 0 Delta_Zero [] empty_queue))
    as (w' & E & Hw & Hr); [split; [reflexivity|vm_compute; split; congruence]|reflexivity|].
  destruct (Hr (demo_env (demo_framer IS_SERVER 41) demo_ietf_ack_bytes NETWORK_BYTE_ORDER) [])
    as (r' & a' & E' & _ & _ & Hd & Hq & _); [by vm_compute|].
  exists w', r', a'. split_and!; [exact E|by rewrite (proj1 Hw)|exact E'|by rewrite Hd|].
  apply Hq. exists (7, 9). split; [right; left|]. cbn. lia.
Defined.
