(* ===== verification/FramerData.v ===== *)
(** * Data packets: what is built is what is processed

    The frames of a packet, its header and its protection, from
    [BuildDataPacket] on one framer to [ProcessPacket] on its peer. *)

From S2P Require Import Prelude QuicTime FramerTypes FramerNumbers FramerAppend FramerProcess FramerPacket.
From S2P Require Import FramerWire FramerCodec FramerStream FramerFrames.

Section Data.
Context `{T : QuicTypes} `{Q : PacketQueueOps} `{A : !AckOps} `{C : CryptoOps} `{F : QuicFunctions}
  `{R : ReaderOps} `{W : WriterOps} `{V : !VisitorOps} `{P : !ProducerOps}
  `{RV : !ReaderView} `{WV : !WriterView} `{RO : !ReaderOk} `{WO : !WriterOk}
  `{PV : !ProducerView} `{PO : !ProducerOk P} `{TO : !QuicTypesOk T}.

Implicit Types (f : MyQuicFramer) (header : QuicPacketHeader) (frame : QuicFrame)
  (frames : list QuicFrame).

(** ** The frames *)

(** Does [append_frames] treat this frame as the packet's last? *)
Definition is_last frames : bool := match frames with [] => true | _ => false end.

Fixpoint frames_wire f en header frames (room : Z) : list Z :=
  match frames with
  | [] => []
  | frame :: l =>
      let bs := frame_wire f en header frame (data_of f frame) (is_last l) room in
      bs ++ frames_wire f en header l (room - zlen bs)
  end.

Fixpoint frames_received f en header frames (room : Z) : list QuicFrame :=
  match frames with
  | [] => []
  | frame :: l =>
      let bs := frame_wire f en header frame (data_of f frame) (is_last l) room in
      as_received f frame room :: frames_received f en header l (room - zlen bs)
  end.

Definition is_padding frame : bool := match frame with PaddingFrame _ => true | _ => false end.

(** Every frame is one the format can carry, and no padding follows a padding
    (the receiver would take the two for one). *)
Fixpoint all_sendable f header frames : Prop :=
  match frames with
  | [] => True
  | frame :: l =>
      sendable f header frame (is_last l) /\
      match l with [] => True | next :: _ => is_padding frame = false \/ is_padding next = false end /\
      all_sendable f header l
  end.

(** The visitor is called for each frame until it returns [false]. *)
Fixpoint deliver_all frames (v : Visitor) : Visitor :=
  match frames with
  | [] => v
  | frame :: l => let '(go, v) := deliver frame v in if go : bool then deliver_all l v else v
  end.

Lemma emits_frames frames : forall e header, all_sendable (fr e) header frames ->
  emits_at e tt (frames_wire (fr e) (wendian (wr e)) header frames (capacity (wr e) - wlength (wr e)))
    (append_frames header frames).
Proof.
  induction frames as [|frame l IH]; intros e header H; [apply emits_at_ret|].
  destruct H as (Hs & _ & Hl). cbn [frames_wire append_frames].
  eapply emits_at_bind; [by apply emits_frame|]. intros w Hw.
  set (bs := frame_wire _ _ _ _ _ _ _) in *.
  replace (capacity (wr e) - wlength (wr e) - zlen bs) with (capacity w - wlength w).
  - rewrite <- (proj2 (proj2 Hw)). by apply (IH (put_wr w e)).
  - rewrite (wext_length _ _ _ Hw), (proj1 (proj2 Hw)). lia.
Qed.

(** ** The frame loop *)

Definition same_numbers (h1 h2 : QuicPacketHeader) : Prop :=
  packet_number h1 = packet_number h2 /\ packet_number_length h1 = packet_number_length h2.

Lemma process_frame_header h1 h2 t : same_numbers h1 h2 -> process_frame h1 t = process_frame h2 t.
Proof. intros [E1 E2]. unfold process_frame, ProcessStopWaitingFrame. by rewrite E1, E2. Qed.

Lemma frame_wire_head f en header frame data last room t l : sendable f header frame last ->
  is_padding frame = false -> frame_wire f en header frame data last room = t :: l -> t <> 0.
Proof.
  intros Hs Hp. destruct frame as [p|r|c|g|w|b|s| |[s|]|[a|]| |]; try done; cbn; intros [= <- _];
    rewrite ?FT1, ?FT2, ?FT3, ?FT4, ?FT5, ?FT6, ?FT7; try done.
  destruct Hs as (Hid & Hoff & _).
  destruct (stream_type_byte_ok (transport_version (version_ f)) s last Hid Hoff) as (_ & _ & _ & H).
  intros E. by rewrite E in H.
Qed.

Lemma frame_loop_delivers frames : forall fuel f1 h1 h2 e room,
  visitor_ (fr e) = true -> transport_version (version_ (fr e)) = transport_version (version_ f1) ->
  same_numbers h1 h2 -> all_sendable f1 h1 frames -> (length frames <= fuel)%nat ->
  zlen (frames_wire f1 (rendian (rd e)) h1 frames room) <= room ->
  remaining (rd e) = frames_wire f1 (rendian (rd e)) h1 frames room ->
  exists r, frame_loop fuel h2 e =
    (Ok tt, put_vs (deliver_all (frames_received f1 (rendian (rd e)) h1 frames room) (vs e)) (put_rd r e)).
Proof.
  induction frames as [|frame l IH]; intros fuel f1 h1 h2 e room Hv Htv Hh Hs Hf Hroom Hr.
  - exists (rd e). cbn in *. assert (IsDoneReading (rd e) = true) as E
      by (rewrite IsDoneReading_ok; by apply bool_decide_eq_true).
    destruct fuel; cbn; unfold rd_get, mbind, M_bind; rewrite E; by destruct e.
  - destruct Hs as (Hs & Hpad & Hl). destruct fuel as [|fuel]; [cbn in Hf; lia|].
    cbn [frames_wire frames_received deliver_all] in *. set (en := rendian (rd e)) in *.
    destruct (frame_wire_cons f1 en h1 frame (data_of f1 frame) (is_last l) room Hs) as (payload & Hw).
    rewrite Hw in *. set (rest := frames_wire f1 en h1 l _) in *.
    rewrite zlen_app, zlen_cons in Hroom. pose proof (zlen_nonneg payload). pose proof (zlen_nonneg rest).
    cbn [frame_loop]. unfold rd_get, mbind at 1, M_bind at 1.
    rewrite IsDoneReading_ok, Hr, bool_decide_false by done.
    destruct (parses_bytes (fr e) en [type_byte f1 frame (is_last l)] (payload ++ rest) 1 eq_refl
                e eq_refl eq_refl Hr) as (r1 & E1 & Hr1 & Hn1).
    erewrite M_bind_ok by (unfold or_else; by rewrite E1). cbn [lookup_total list_lookup_total].
    rewrite <- (process_frame_header h1 h2) by done.
    assert (delivers (fr e) en payload rest (deliver (as_received f1 frame room))
              (process_frame h1 (type_byte f1 frame (is_last l)))) as Hd.
    { apply delivers_frame; try done.
      - intros Hlast. by destruct l.
      - lia.
      - intros p b l' -> Hrest. destruct l as [|next l]; [done|]. cbn in Hpad.
        destruct Hpad as [?|Hpad]; [done|]. destruct Hl as (Hs' & _). subst rest.
        cbn [frames_wire] in Hrest.
        destruct (frame_wire_cons f1 en h1 next (data_of f1 next) (is_last l)
          (room - zlen (type_byte f1 (PaddingFrame p) (is_last (next :: l)) :: payload)) Hs') as (pl & Hw').
        rewrite Hw' in Hrest. injection Hrest as <- _. by eapply frame_wire_head. }
    destruct (Hd (put_rd r1 e) eq_refl Hn1 Hr1) as (r2 & E2 & Hr2 & Hn2).
    erewrite M_bind_ok by exact E2. cbn [vs put_rd].
    destruct (deliver (as_received f1 frame room) (vs e)) as [go v'] eqn:Ed. cbn [fst snd].
    destruct go.
    + subst rest. cbn [put_rd put_vs fr vs rd wr] in *.
      match goal with |- context [frame_loop fuel h2 ?e2] => set (e3 := e2) end.
      specialize (IH fuel f1 h1 h2 e3 (room - zlen (type_byte f1 frame (is_last l) :: payload))).
      subst e3. cbn [put_rd put_vs fr vs rd wr] in IH. rewrite Hn2 in IH. rewrite zlen_cons in *.
      destruct IH as (r & E); try done; [cbn in Hf; lia|lia|]. exists r. rewrite E. done.
    + exists r2. done.
Qed.
End Data.
