(* ===== verification/FramerHeader.v ===== *)
(** * The public header: [AppendPacketHeader] against [ProcessPublicHeader]
    and [ProcessUnauthenticatedHeader] *)

From S2P Require Import Prelude QuicTime FramerTypes FramerNumbers FramerAppend FramerProcess FramerPacket.
From S2P Require Import FramerWire FramerCodec FramerStream FramerFrames FramerData.

Section Header.
Context `{T : QuicTypes} `{Q : PacketQueueOps} `{A : !AckOps} `{C : CryptoOps} `{F : QuicFunctions}
  `{R : ReaderOps} `{W : WriterOps} `{V : !VisitorOps} `{P : !ProducerOps}
  `{RV : !ReaderView} `{WV : !WriterView} `{RO : !ReaderOk} `{WO : !WriterOk}
  `{PV : !ProducerView} `{PO : !ProducerOk P} `{TO : !QuicTypesOk T} `{FO : !QuicFunctionsOk F}.

Implicit Types (f : MyQuicFramer) (header : QuicPacketHeader).

(** ** Wire format *)

(** The byte of flags. *)
Definition public_flags f header : Z :=
  if connection_id_length header =? 0 then header_flags f header
  else Z.lor (Z.lor (header_flags f header) 8) (if decide (perspective_ f = IS_CLIENT) then 12 else 0).

Definition flags_wire f header : list Z :=
  public_flags f header ::
  (if connection_id_length header =? 0 then [] else be_bytes 8 (connection_id header)).

Definition version_wire f header : list Z :=
  (if version_flag header then le_bytes 4 (NetToHost32 (CreateQuicVersionLabel (version_ f))) else []) ++
  default [] (nonce header).

Definition number_wire en header : list Z :=
  uint_bytes en (Z.to_nat (packet_number_length header)) (packet_number header).

Definition header_wire f en header : list Z :=
  flags_wire f header ++ version_wire f header ++ number_wire en header.

(** A data packet's header that the wire can carry: only a server sends a
    nonce, and not together with a version. *)
Record header_ok f header : Prop := {
  ho_cid : connection_id_length header = 0 \/ connection_id_length header = 8;
  ho_id : in_u 64 (connection_id header);
  ho_reset : reset_flag header = false;
  ho_len : pn_length_ok (packet_number_length header);
  ho_version : version_flag header = true -> perspective_ f = IS_CLIENT;
  ho_nonce : nonce header <> None -> version_flag header = false /\ perspective_ f = IS_SERVER;
}.

(** ** The flags *)

Lemma flags_cases f header : header_ok f header ->
  let fl := public_flags f header in
  in_u 8 fl /\ fl <= 63 /\ has_bits fl 2 = false /\ has_bits fl 1 = version_flag header /\
  Z.land fl 8 = connection_id_length header /\
  ReadSequenceNumberLength (Z.shiftr fl kPublicHeaderSequenceNumberShift) = packet_number_length header /\
  (perspective_ f = IS_SERVER -> has_bits fl 4 = bool_decide (is_Some (nonce header))).
Proof.
  intros [Hc _ Hr Hl _ Hn]. unfold public_flags, header_flags, GetPacketNumberFlags,
    ReadSequenceNumberLength. rewrite Hr. autorewrite with quic.
  assert (forall o : option (list Z), bool_decide (is_Some o) = match o with Some _ => true | None => false end)
    as Ho by (intros [|]; done). rewrite Ho. unfold in_u.
  destruct (nonce header) as [n|]; [destruct (Hn ltac:(done)) as [-> ->]|clear Hn];
    [|destruct (version_flag header)];
    (destruct (perspective_ f); cbn [decide Perspective_eq_dec Perspective_rec Perspective_rect];
     repeat destruct Hl as [-> | Hl]; try rewrite Hl; destruct Hc as [-> | ->];
     vm_compute; split_and!; congruence || done).
Qed.

(** ** Appending *)

Lemma header_flags_u8 f header : header_ok f header -> in_u 8 (header_flags f header).
Proof.
  intros [Hc _ Hr Hl _ Hn]. unfold header_flags, GetPacketNumberFlags. rewrite Hr. autorewrite with quic.
  destruct (nonce header); destruct (version_flag header);
    repeat destruct Hl as [-> | Hl]; try rewrite Hl; vm_compute; split; congruence.
Qed.

Definition append_flags f header : M env unit :=
  let public_flags := header_flags f header in
  if connection_id_length header =? PACKET_0BYTE_CONNECTION_ID then
    wr_op (WriteUInt8 (Z.lor public_flags PACKET_PUBLIC_FLAGS_0BYTE_CONNECTION_ID))
  else if connection_id_length header =? PACKET_8BYTE_CONNECTION_ID then
    let public_flags := Z.lor public_flags PACKET_PUBLIC_FLAGS_8BYTE_CONNECTION_ID in
    let public_flags := if decide (perspective_ f = IS_CLIENT)
      then Z.lor public_flags PACKET_PUBLIC_FLAGS_8BYTE_CONNECTION_ID_OLD else public_flags in
    wr_op (WriteUInt8 public_flags) ;;
    wr_op (WriteConnectionId (connection_id header))
  else mret tt.

Lemma emits_flags f f' en header : header_ok f header ->
  emits f' en tt (flags_wire f header) (append_flags f header).
Proof.
  intros H. pose proof (flags_cases f header H) as (H8 & _). pose proof (header_flags_u8 f header H).
  unfold append_flags, flags_wire, public_flags in *. destruct H as [Hc _ _ _ _ _]. autorewrite with quic.
  destruct Hc as [Hc|Hc]; rewrite Hc in *; cbn [Z.eqb Pos.eqb] in *.
  - rewrite Z.lor_0_r. by apply emits_uint8.
  - apply (emits_bind _ _ tt _ [_]).
    + destruct (decide _); [|rewrite Z.lor_0_r in *]; by apply emits_uint8.
    + apply (emits_op _ _ _ _ (WriteConnectionId_ok _)).
Qed.

Lemma emits_rest f en header : header_ok f header ->
  emits f en tt (version_wire f header ++ number_wire en header)
    ((if version_flag header
      then wr_op (WriteTag (NetToHost32 (CreateQuicVersionLabel (version_ f))))
      else mret tt) ;;
     match nonce header with Some n => wr_op (WriteBytes n) | None => mret tt end ;;
     AppendPacketNumber (packet_number_length header) (packet_number header)).
Proof.
  intros [_ _ _ Hl _ _]. unfold version_wire. rewrite <- app_assoc. eapply emits_bind.
  { destruct (version_flag header); [apply (emits_op _ _ _ _ (WriteTag_ok _))|apply emits_ret]. }
  eapply emits_bind; [|by apply emits_packet_number].
  destruct (nonce header); [apply (emits_op _ _ _ _ (WriteBytes_ok _))|apply emits_ret].
Qed.

(** The header is appended, and its connection id remembered. *)
Lemma append_header e header : header_ok (fr e) header ->
  if wlength (wr e) + zlen (header_wire (fr e) (wendian (wr e)) header) <=? capacity (wr e)
  then exists w, AppendPacketHeader header e =
         (Ok tt, put_wr w (put_fr (put_last_serialized_connection_id (connection_id header) (fr e)) e)) /\
         wext (wr e) (header_wire (fr e) (wendian (wr e)) header) w
  else exists e', AppendPacketHeader header e = (Fail, e').
Proof.
  intros H. unfold header_wire. rewrite zlen_app.
  pose proof (zlen_nonneg (flags_wire (fr e) header)).
  pose proof (zlen_nonneg (version_wire (fr e) header ++ number_wire (wendian (wr e)) header)).
  change (AppendPacketHeader header e) with
    ((append_flags (fr e) header ;;
      mod_fr (put_last_serialized_connection_id (connection_id header)) ;;
      (if version_flag header
       then wr_op (WriteTag (NetToHost32 (CreateQuicVersionLabel (version_ (fr e)))))
       else mret tt) ;;
      match nonce header with Some n => wr_op (WriteBytes n) | None => mret tt end ;;
      AppendPacketNumber (packet_number_length header) (packet_number header)) e).
  pose proof (emits_flags (fr e) (fr e) (wendian (wr e)) header H e eq_refl eq_refl) as Hf.
  unfold emits_at in Hf.
  destruct (Z.leb_spec (wlength (wr e) + zlen (flags_wire (fr e) header)) (capacity (wr e))) as [Hle|Hgt].
  2: { rewrite (proj2 (Z.leb_gt _ _)) by lia. destruct Hf as (e' & E). exists e'. by apply M_bind_fail. }
  destruct Hf as (w1 & E1 & Hw1). erewrite M_bind_ok by exact E1. erewrite M_bind_ok by reflexivity.
  set (f' := put_last_serialized_connection_id (connection_id header) (fr e)).
  pose proof (emits_rest f' (wendian (wr e)) header) as Hr.
  destruct H as [Hc Hi Hrs Hl Hv Hn].
  specialize (Hr ltac:(constructor; done) (put_fr f' (put_wr w1 e)) eq_refl (proj2 (proj2 Hw1))).
  unfold emits_at in Hr. cbn [wr put_fr put_wr] in Hr.
  rewrite (wext_length _ _ _ Hw1), (proj1 (proj2 Hw1)), <- Z.add_assoc in Hr.
  change (version_wire f' header) with (version_wire (fr e) header) in Hr.
  destruct (_ <=? _).
  - destruct Hr as (w2 & E2 & Hw2). exists w2. split; [exact E2|by eapply wext_trans].
  - destruct Hr as (e' & E2). exists e'. exact E2.
Qed.

(** ** Processing *)

(** [parses] for a method that leaves the framer as [f']. *)
Definition parses_to {X} f f' en (bs rest : list Z) (a : X) (m : M env X) : Prop :=
  forall e, fr e = f -> rendian (rd e) = en -> remaining (rd e) = bs ++ rest ->
    exists r', m e = (Ok a, put_fr f' (put_rd r' e)) /\ remaining r' = rest /\ rendian r' = en.

Lemma parses_to_refl {X} f en bs rest (a : X) m :
  parses f en bs rest a m -> parses_to f f en bs rest a m.
Proof.
  intros H e He Hn Hr. destruct (H e He Hn Hr) as (r' & E & Hr'). exists r'. rewrite E.
  split; [|done]. by destruct e; cbn in *; subst.
Qed.

Lemma parses_to_bytes {X} f f' en bs bs' rest (a : X) m :
  parses_to f f' en bs rest a m -> bs = bs' -> parses_to f f' en bs' rest a m.
Proof. by intros ? <-. Qed.

Lemma parses_to_bind {X Y} f f1 f2 en (a : X) (b : Y) bs1 bs2 rest m k :
  parses_to f f1 en bs1 (bs2 ++ rest) a m -> parses_to f1 f2 en bs2 rest b (k a) ->
  parses_to f f2 en (bs1 ++ bs2) rest b (m ≫= k).
Proof.
  intros H1 H2 e He Hn Hr. rewrite <- app_assoc in Hr.
  destruct (H1 e He Hn Hr) as (r1 & E1 & Hr1 & Hn1). erewrite M_bind_ok by done.
  destruct (H2 (put_fr f1 (put_rd r1 e)) eq_refl Hn1 Hr1) as (r2 & E2 & Hr2 & Hn2). by exists r2.
Qed.

Lemma parses_to_gets {X Y} f f' en bs rest (g : MyQuicFramer -> X) (a : Y) k :
  parses_to f f' en bs rest a (k (g f)) -> parses_to f f' en bs rest a (gets g ≫= k).
Proof. intros H e He Hn Hr. unfold gets, mbind, M_bind. rewrite He. by apply H. Qed.

Lemma parses_to_mod {Y} f f' en bs rest (h : MyQuicFramer -> MyQuicFramer) (a : Y) k :
  parses_to (h f) f' en bs rest a k -> parses_to f f' en bs rest a (mod_fr h ;; k).
Proof.
  intros H e He Hn Hr. unfold mod_fr, mbind, M_bind. rewrite He.
  destruct (H (put_fr (h f) e) eq_refl Hn Hr) as (r' & E & Hr'). by exists r'.
Qed.

(** Skipping a test that does not fail. *)
Lemma parses_to_test {Y} f f' en bs rest (b : bool) (a : Y) m k :
  b = false -> parses_to f f' en bs rest a k ->
  parses_to f f' en bs rest a ((if b then m else mret tt) ;; k).
Proof. by intros -> H. Qed.

(** What the receiver's [f2] makes of a header of the sender's [f1], before it
    has the packet number. *)
Definition public_header f1 f2 header : QuicPacketHeader :=
  {| connection_id := if connection_id_length header =? 0 then last_serialized_connection_id_ f2
                      else connection_id header;
     connection_id_length := connection_id_length header; reset_flag := false;
     version_flag := version_flag header;
     header_version := if version_flag header then version_ f1
                       else mkVersion PROTOCOL_UNSUPPORTED QUIC_VERSION_UNSUPPORTED;
     packet_number_length := packet_number_length header; packet_number := 0; nonce := nonce header |}.

Definition after_header f1 f2 header : MyQuicFramer :=
  let f2 := if version_flag header
            then put_last_version_label (CreateQuicVersionLabel (version_ f1)) f2 else f2 in
  match nonce header with Some n => put_last_nonce n f2 | None => f2 end.

(** The two ends of a connection. *)
Record peers f1 f2 header : Prop := {
  pe_perspective : perspective_ f1 <> perspective_ f2;
  pe_label : version_flag header = true ->
    ParseQuicVersionLabel (CreateQuicVersionLabel (version_ f1)) = version_ f1;
  pe_nonce : forall n, nonce header = Some n -> zlen n = zlen (last_nonce_ f2);
}.

Lemma parses_cid f en v rest : in_u 64 v ->
  parses f en (be_bytes 8 v) rest v (rd_op ReadConnectionId).
Proof.
  intros. eapply parses_op; [apply ReadConnectionId_ok|].
  apply (p_uint_app 8 NETWORK_BYTE_ORDER). done.
Qed.

Lemma parses_tag f en v rest : in_u 32 v -> parses f en (le_bytes 4 v) rest v (rd_op ReadTag).
Proof.
  intros. eapply parses_op; [apply ReadTag_ok|]. apply (p_uint_app 4 HOST_BYTE_ORDER). done.
Qed.

Lemma parses_nonce f1 f2 g en header rest : header_ok f1 header -> peers f1 f2 header ->
  parses_to g (match nonce header with Some n => put_last_nonce n g | None => g end) en
    (default [] (nonce header)) rest (nonce header)
    (if has_bits (public_flags f1 header) PACKET_PUBLIC_FLAGS_NONCE && negb (version_flag header) && negb false &&
        bool_decide (perspective_ f2 = IS_CLIENT)
     then n ← or_detail "Unable to read nonce." (rd_op (ReadBytes (zlen (last_nonce_ f2))));
          mod_fr (put_last_nonce n) ;;
          mret (Some n)
     else mret None).
Proof.
  intros Hok Hp. destruct (flags_cases f1 header Hok) as (_ & _ & _ & _ & _ & _ & Hnon).
  destruct Hok as [_ _ _ _ _ Hn]. destruct Hp as [Hper _ Hnl]. autorewrite with quic.
  destruct (nonce header) as [n|] eqn:En; cbn [default].
  - destruct (Hn ltac:(done)) as [Hvf Hsrv]. rewrite Hnon by done. rewrite Hvf.
    rewrite bool_decide_true by (by eexists).
    rewrite bool_decide_true by (destruct (perspective_ f2); congruence).
    cbn [andb negb]. eapply parses_to_bytes; [|apply app_nil_r].
    eapply parses_to_bind; [apply parses_to_refl, parses_or_detail, parses_bytes; symmetry; by apply Hnl|].
    apply parses_to_mod. apply parses_to_refl, parses_ret.
  - match goal with |- parses_to _ _ _ _ _ _ (if ?b then _ else _) => destruct b eqn:Eb end;
      [|apply parses_to_refl, parses_ret].
    apply andb_true_iff in Eb as [Eb Ecl]. apply andb_true_iff in Eb as [Eb _].
    apply andb_true_iff in Eb as [Eb _]. apply bool_decide_eq_true in Ecl.
    assert (perspective_ f1 = IS_SERVER) as Hs by (destruct (perspective_ f1); congruence).
    rewrite (Hnon Hs) in Eb. done.
Qed.

Lemma process_public_header f1 f2 en header rest :
  header_ok f1 header -> peers f1 f2 header ->
  parses_to f2 (after_header f1 f2 header) en (flags_wire f1 header ++ version_wire f1 header) rest
    (public_header f1 f2 header) ProcessPublicHeader.
Proof.
  intros Hok Hp. destruct (flags_cases f1 header Hok) as (H8 & H63 & Hrst & Hver & Hcid & Hpn & Hnon).
  pose proof Hok as [Hc Hid Hr Hl Hv _]. pose proof Hp as [Hper Hlab _].
  unfold flags_wire. set (fl := public_flags f1 header) in *. cbn [app].
  apply (parses_to_bind _ f2 _ _ [fl] _ [fl]).
  { apply parses_to_refl, parses_or_detail. by apply parses_bytes. }
  cbn [lookup_total list_lookup_total]. autorewrite with quic. rewrite Hrst, Hver, Hcid, Hpn.
  apply parses_to_gets. change (id f2) with f2. pose proof PPM as Hmax.
  assert (PACKET_PUBLIC_FLAGS_MAX <? fl = false) as Hm by (apply Z.ltb_ge; lia).
  apply parses_to_test; [by rewrite Hm, andb_false_r|].
  apply parses_to_test; [done|].
  apply (parses_to_bind _ f2 _ _ (if connection_id_length header =? 0 then last_serialized_connection_id_ f2
    else connection_id header, connection_id_length header)).
  { apply parses_to_refl. destruct Hc as [Hc|Hc]; rewrite Hc; cbn [Z.eqb Pos.eqb]; [apply parses_ret|].
    rewrite <- (app_nil_r (be_bytes _ _)).
    eapply parses_bind; [by apply parses_or_detail, parses_cid|apply parses_ret]. }
  unfold version_wire, after_header. cbn [fst snd].
  set (g := if version_flag header then put_last_version_label _ f2 else f2).
  assert (perspective_ g = perspective_ f2 /\ last_nonce_ g = last_nonce_ f2) as [Hg1 Hg2]
    by (subst g; by destruct (version_flag header)).
  apply (parses_to_bind _ g _ _ (if version_flag header then version_ f1
                                 else mkVersion PROTOCOL_UNSUPPORTED QUIC_VERSION_UNSUPPORTED)).
  { subst g. destruct (version_flag header) eqn:Ev; [|apply parses_to_refl, parses_ret].
    rewrite bool_decide_true by (specialize (Hv eq_refl); destruct (perspective_ f2); congruence).
    cbn [andb]. rewrite NetToHost32_eq. rewrite <- (app_nil_r (le_bytes _ _)).
    pose proof (CreateQuicVersionLabel_range (version_ f1)) as Hrange.
    eapply parses_to_bind.
    { apply parses_to_refl, parses_or_detail, parses_tag. by apply HostToNet32_range. }
    rewrite NetToHost32_eq, HostToNet32_involutive by done. apply parses_to_mod.
    rewrite Hlab, Hm, andb_false_r by done. apply parses_to_refl, parses_ret. }
  rewrite <- (app_nil_r (default [] _)).
  apply (parses_to_bind _ (match nonce header with Some n => put_last_nonce n g | None => g end) _ _ (nonce header)).
  2: { eapply parses_to_refl. unfold public_header. apply parses_ret. }
  pose proof (parses_nonce f1 f2 g en header ([] ++ rest) Hok Hp) as Hnc. autorewrite with quic in Hnc. exact Hnc.
Qed.
End Header.
