(* ===== verification/FramerPackets.v ===== *)
(** * Whole packets: [BuildDataPacket] against [ProcessPacket] *)

From S2P Require Import Prelude QuicTime FramerTypes FramerNumbers FramerAppend FramerProcess FramerPacket.
From S2P Require Import FramerWire FramerCodec FramerConcrete FramerStream FramerFrames FramerData.
From S2P Require Import FramerHeader.

Section Packets.
Context `{T : QuicTypes} `{Q : PacketQueueOps} `{A : !AckOps} `{C : CryptoOps} `{F : QuicFunctions}
  `{R : ReaderOps} `{W : WriterOps} `{V : !VisitorOps} `{P : !ProducerOps}
  `{RV : !ReaderView} `{WV : !WriterView} `{RO : !ReaderOk} `{WO : !WriterOk}
  `{PV : !ProducerView} `{PO : !ProducerOk P} `{TO : !QuicTypesOk T} `{FO : !QuicFunctionsOk F}.

Implicit Types (f : MyQuicFramer) (header : QuicPacketHeader) (frames : list QuicFrame).

(** ** The packet number *)

Lemma p_uint_wrap n en v l :
  p_uint n en (uint_bytes en n v ++ l) = Some (wrap (8 * Z.of_nat n) v, l).
Proof.
  unfold p_uint. rewrite (p_bytes_app' _ (uint_bytes en n v)) by (by rewrite uint_bytes_len).
  cbn. do 2 f_equal. destruct en; cbn; [|unfold le_val, le_bytes; rewrite rev_involutive];
    apply be_val_bytes.
Qed.

(** Within half a window of the next expected number. *)
Definition in_window (n base pn : Z) : Prop := 2 * Z.abs (pn - (base + 1)) < 2 ^ (8 * n).

Lemma parses_packet_number f en n base pn rest :
  pn_length_ok n -> in_u 62 base -> in_u 62 pn -> in_window n base pn ->
  parses f en (uint_bytes en (Z.to_nat n) pn) rest pn (ProcessAndCalculatePacketNumber n base).
Proof.
  intros Hn Hb Hp Hw. assert (1 <= n <= 6) as Hr by (unfold pn_length_ok in Hn; lia).
  rewrite <- (app_nil_r (uint_bytes _ _ _)). eapply parses_bind.
  - eapply parses_op; [apply ReadBytesToUInt64_ok; lia|apply p_uint_wrap].
  - eapply parses_eq; [apply parses_ret|done|]. rewrite Z2Nat.id by lia. unfold wrap.
    by apply recover_packet_number.
Qed.

(** A packet number appended with [n] bytes of room for it is recovered by
    the receiver whenever it is within half a truncation window of the number
    the receiver expects next; the bytes are the number's low [n]. *)
Theorem packet_number_roundtrip f1 f2 en n base pn rest :
  pn_length_ok n -> in_u 62 base -> in_u 62 pn -> in_window n base pn ->
  emits f1 en tt (uint_bytes en (Z.to_nat n) pn) (AppendPacketNumber n pn) /\
  parses f2 en (uint_bytes en (Z.to_nat n) pn) rest pn (ProcessAndCalculatePacketNumber n base).
Proof. intros. split; [by apply emits_packet_number|by apply parses_packet_number]. Qed.

(** The numbered header. *)
Definition full_header f1 f2 header : QuicPacketHeader :=
  with_packet_number (public_header f1 f2 header) (packet_number header).

Lemma process_unauthenticated_header f1 f2 header e rest v :
  fr e = after_header f1 f2 header -> visitor_ f2 = true ->
  pn_length_ok (packet_number_length header) -> in_u 62 (largest_packet_number_ f2) ->
  in_u 62 (packet_number header) -> packet_number header <> 0 ->
  in_window (packet_number_length header) (largest_packet_number_ f2) (packet_number header) ->
  remaining (rd e) = number_wire (rendian (rd e)) header ++ rest ->
  OnUnauthenticatedHeader (full_header f1 f2 header) (vs e) = (true, v) ->
  exists r', ProcessUnauthenticatedHeader (public_header f1 f2 header) e =
    (Ok (full_header f1 f2 header), put_vs v (put_rd r' e)) /\
    remaining r' = rest /\ rendian r' = rendian (rd e).
Proof.
  intros Hf Hv Hl Hb Hp Hz Hw Hr Hcb.
  assert (largest_packet_number_ (fr e) = largest_packet_number_ f2 /\ visitor_ (fr e) = true) as [E1 E2]
    by (rewrite Hf; unfold after_header; by destruct (version_flag header), (nonce header)).
  rewrite <- E1 in Hb, Hw.
  destruct (parses_packet_number (fr e) (rendian (rd e)) _ _ _ rest Hl Hb Hp Hw e eq_refl eq_refl Hr)
    as (r' & E & Hr' & Hn'). exists r'. split; [|done].
  unfold ProcessUnauthenticatedHeader. erewrite M_bind_ok by reflexivity.
  erewrite M_bind_ok by (unfold or_else; cbn [packet_number_length public_header]; by rewrite E).
  rewrite (proj2 (Z.eqb_neq _ _)) by done. erewrite M_bind_ok by reflexivity.
  fold (full_header f1 f2 header).
  rewrite (M_bind_ok _ _ _ true (put_vs v (put_rd r' e))); [reflexivity|]. unfold visit. cbn [fr put_rd vs]. rewrite E2. by rewrite Hcb.
Qed.

(** ** The data packet *)

Lemma frames_wire_nonempty f en header frames room : all_sendable f header frames ->
  Z.of_nat (length frames) <= zlen (frames_wire f en header frames room).
Proof.
  revert room. induction frames as [|frame l IH]; intros room; [done|]. intros (Hs & _ & Hl).
  cbn [frames_wire length]. rewrite zlen_app.
  destruct (frame_wire_cons f en header frame (data_of f frame) (is_last l) room Hs) as (p & ->).
  rewrite zlen_cons. pose proof (zlen_nonneg p). specialize (IH (room - (1 + zlen p)) Hl). lia.
Qed.

(** [ProcessFrameData] on the frames of a packet. *)
Lemma process_frame_data f1 h1 h2 frames room e :
  visitor_ (fr e) = true -> transport_version (version_ (fr e)) = transport_version (version_ f1) ->
  same_numbers h1 h2 -> all_sendable f1 h1 frames -> frames <> [] ->
  zlen (frames_wire f1 (rendian (rd e)) h1 frames room) <= room ->
  remaining (rd e) = frames_wire f1 (rendian (rd e)) h1 frames room ->
  exists r, ProcessFrameData h2 e =
    (Ok tt, put_vs (deliver_all (frames_received f1 (rendian (rd e)) h1 frames room) (vs e)) (put_rd r e)).
Proof.
  intros Hv Htv Hh Hs Hne Hroom Hr.
  pose proof (frames_wire_nonempty f1 (rendian (rd e)) h1 frames room Hs) as Hlen.
  unfold ProcessFrameData, rd_get, mbind at 1, M_bind at 1. rewrite IsDoneReading_ok, bool_decide_false.
  - unfold mbind, M_bind. rewrite BytesRemaining_ok. apply frame_loop_delivers; try done.
    rewrite Hr. lia.
  - rewrite Hr. intros E. rewrite E, zlen_nil in Hlen. destruct frames; [done|]. cbn [length] in Hlen. lia.
Qed.

Lemma frame_wire_version f f' en header frame data last room :
  version_ f' = version_ f -> frame_wire f' en header frame data last room = frame_wire f en header frame data last room.
Proof.
  intros E. unfold frame_wire, fills. rewrite E. done.
Qed.

Lemma frames_wire_same f f' en header frames room :
  version_ f' = version_ f -> data_producer_ f' = data_producer_ f ->
  frames_wire f' en header frames room = frames_wire f en header frames room.
Proof.
  intros E1 E2. assert (forall frame, data_of f' frame = data_of f frame) as E.
  { intros frame. unfold data_of, frame_data. by rewrite E2. }
  revert room. induction frames as [|frame l IH]; intros room; [done|]. cbn [frames_wire].
  rewrite (frame_wire_version f f') by done. by rewrite E, IH.
Qed.

Lemma all_sendable_same f f' header frames :
  version_ f' = version_ f -> data_producer_ f' = data_producer_ f ->
  all_sendable f header frames -> all_sendable f' header frames.
Proof.
  intros E1 E2. induction frames as [|frame l IH]; [done|]. intros (Hs & Hp & Hl).
  split; [|split; [done|by apply IH]]. revert Hs.
  unfold sendable, fills, stream_ok, data_of, frame_data. by rewrite E1, E2.
Qed.

(** The packet a header and frames are sent as. *)
Definition packet_payload f header frames (packet_length : Z) : list Z :=
  frames_wire f (endianness f) header frames (packet_length - zlen (header_wire f (endianness f) header)).

Definition packet_wire f header frames (packet_length : Z) : list Z :=
  header_wire f (endianness f) header ++ packet_payload f header frames packet_length.

(** [BuildDataPacket] writes exactly that, or returns 0 for want of room. *)
Lemma build_data_packet e header frames packet_length :
  0 <= packet_length -> header_ok (fr e) header -> all_sendable (fr e) header frames ->
  let pkt := packet_wire (fr e) header frames packet_length in
  if zlen pkt <=? packet_length
  then exists w, BuildDataPacket header frames packet_length e =
         (Ok (zlen pkt), put_wr w (put_fr (put_last_serialized_connection_id (connection_id header) (fr e)) e)) /\
         written w = pkt
  else exists e', BuildDataPacket header frames packet_length e = (Ok 0, e').
Proof.
  intros Hlen Hh Hs pkt. set (en := endianness (fr e)).
  destruct (new_writer_written packet_length en Hlen) as (Ew & Ec & En).
  set (w0 := new_writer packet_length en) in *. set (e0 := put_wr w0 e).
  assert (BuildDataPacket header frames packet_length e =
    or_zero (AppendPacketHeader header ;; append_frames header frames ;; wr_get wlength) e0) as -> by reflexivity.
  assert (wlength w0 = 0) as El by (by rewrite wlength_ok, Ew).
  pose proof (append_header e0 header Hh) as Ha. unfold e0 in Ha. cbn [fr wr put_wr] in Ha. fold e0 in Ha.
  rewrite El, Ec, En, Z.add_0_l in Ha.
  subst pkt. unfold packet_wire, packet_payload in *. fold en. rewrite zlen_app.
  set (hw := header_wire (fr e) en header) in *.
  set (fw := frames_wire (fr e) en header frames (packet_length - zlen hw)).
  pose proof (zlen_nonneg hw). pose proof (zlen_nonneg fw). unfold or_zero, or_else.
  destruct (Z.leb_spec (zlen hw) packet_length) as [Hle|Hgt].
  2: { rewrite (proj2 (Z.leb_gt _ _)) by lia. destruct Ha as (e' & E).
       erewrite M_bind_fail by exact E. by eexists. }
  destruct Ha as (w1 & E1 & Hw1). erewrite M_bind_ok by exact E1.
  set (f' := put_last_serialized_connection_id (connection_id header) (fr e)).
  set (e1 := put_wr w1 (put_fr f' e0)).
  assert (wlength w1 = zlen hw) as El1 by (rewrite (wext_length _ _ _ Hw1); lia).
  pose proof (proj1 (proj2 Hw1)) as Ec1. rewrite Ec in Ec1. pose proof (proj2 (proj2 Hw1)) as En1. rewrite En in En1.
  pose proof (emits_frames frames e1 header (all_sendable_same (fr e) f' header frames eq_refl eq_refl Hs)) as Hf.
  unfold emits_at in Hf. unfold e1 in Hf. cbn [fr wr put_wr put_fr] in Hf. fold e1 in Hf.
  rewrite El1, Ec1, En1, (frames_wire_same (fr e) f') in Hf by done. fold fw in Hf.
  destruct (_ <=? packet_length).
  - destruct Hf as (w2 & E2 & Hw2). exists w2. erewrite M_bind_ok by exact E2.
    split; [|by rewrite (proj1 Hw2), (proj1 Hw1), Ew].
    unfold wr_get. cbn [wr put_wr]. by rewrite (wext_length _ _ _ Hw2), El1.
  - destruct Hf as (e' & E2). erewrite M_bind_fail by exact E2. by eexists.
Qed.

(** ** Processing a data packet *)

(** What the receiver's visitor is told of a data packet before its frames, in
    order; it accepts the packet at every step, and [v'] is its state then. *)
Definition accepts (level : Z) (ph h : QuicPacketHeader) (v v' : Visitor) : Prop :=
  exists v1 v2 v3,
    OnUnauthenticatedPublicHeader ph (OnPacket v) = (true, v1) /\
    OnUnauthenticatedHeader h v1 = (true, v2) /\
    v3 = OnDecryptedPacket level v2 /\
    OnPacketHeader h v3 = (true, v').

(** The receiver's framer after the packet. *)
Definition after_packet f1 f2 header (d : QuicDecrypter) : MyQuicFramer :=
  put_largest_packet_number (Z.max (packet_number header) (largest_packet_number_ f2))
    (put_decrypter (Some d) (after_header f1 (put_last_packet_is_ietf_quic false f2) header)).

Lemma header_length f1 en header :
  header_ok f1 header -> (forall n, nonce header = Some n -> zlen n = 32) ->
  zlen (header_wire f1 en header) =
    GetStartOfEncryptedData (transport_version (version_ f1)) (connection_id_length header)
      (version_flag header) (bool_decide (is_Some (nonce header))) (packet_number_length header).
Proof.
  intros [Hc _ _ Hl _ _] Hn. rewrite GetStartOfEncryptedData_eq.
  unfold header_wire, flags_wire, version_wire, number_wire.
  rewrite !zlen_app, zlen_cons, uint_bytes_len.
  assert (zlen (default [] (nonce header)) = if bool_decide (is_Some (nonce header)) then 32 else 0) as ->.
  { destruct (nonce header) as [n|]; [rewrite bool_decide_true by (by eexists); by apply Hn|done]. }
  assert (zlen (if version_flag header then le_bytes 4 (NetToHost32 (CreateQuicVersionLabel (version_ f1))) else [])
          = if version_flag header then 4 else 0) as ->
    by (destruct (version_flag header); [unfold zlen; by rewrite le_bytes_length|done]).
  assert (zlen (if connection_id_length header =? 0 then [] else be_bytes 8 (connection_id header))
          = connection_id_length header) as ->
    by (destruct Hc as [-> | ->]; [done|apply zlen_be]).
  unfold pn_length_ok in Hl. rewrite Z2Nat.id; lia.
Qed.

(** Decrypting what follows the header. *)
Lemma decrypt_payload f1 header h en ct plain d d' e buffer_length :
  header_ok f1 header -> (forall n, nonce header = Some n -> zlen n = 32) ->
  visitor_ (fr e) = true -> decrypter_ (fr e) = Some d ->
  transport_version (version_ (fr e)) = transport_version (version_ f1) ->
  connection_id_length h = connection_id_length header -> version_flag h = version_flag header ->
  nonce h = nonce header -> same_numbers h header ->
  remaining (rd e) = ct ->
  DecryptPacket (transport_version (version_ f1)) (packet_number header) (header_wire f1 en header) ct
    buffer_length d = (Some plain, d') ->
  exists r', DecryptPayload h (header_wire f1 en header ++ ct) buffer_length e =
    (Ok plain, put_vs (OnDecryptedPacket (decrypter_level_ (fr e)) (vs e))
                 (put_fr (put_decrypter (Some d') (fr e)) (put_rd r' e))).
Proof.
  intros Hh Hn Hv Hd Htv Hcl Hvf Hno [Hpn Hpl] Hr Hdec.
  destruct (ReadRemainingPayload_ok (rd e)) as (r' & E & _ & _). exists r'.
  unfold DecryptPayload, read_remaining. unfold mbind at 1, M_bind at 1. rewrite E.
  erewrite M_bind_ok by reflexivity. change (id (fr (put_rd r' e))) with (fr e).
  rewrite Htv, Hcl, Hvf, Hno, Hpl. unfold GetAssociatedDataFromEncryptedPacket.
  rewrite <- (header_length f1 en) by done.
  pose proof (load_ok [] (header_wire f1 en header) ct 0 _ eq_refl eq_refl) as Hload.
  cbn [app] in Hload. rewrite Hload.
  unfold run_decrypter. unfold gets, mbind, M_bind. cbn [fr put_rd id]. rewrite Hd, Hpn, Hr, Hdec.
  cbn. unfold notify, visit. cbn. rewrite Hv. done.
Qed.

Lemma after_header_fields f1 f2 header :
  let f := after_header f1 f2 header in
  version_ f = version_ f2 /\ visitor_ f = visitor_ f2 /\ decrypter_ f = decrypter_ f2 /\
  decrypter_level_ f = decrypter_level_ f2 /\ perspective_ f = perspective_ f2 /\
  largest_packet_number_ f = largest_packet_number_ f2.
Proof. unfold after_header. by destruct (version_flag header), (nonce header). Qed.

(** The visitor's state when the packet is done with. *)
Definition after_frames f1 header frames packet_length (v : Visitor) : Visitor :=
  let en := endianness f1 in
  OnPacketComplete (deliver_all
    (frames_received f1 en header frames (packet_length - zlen (header_wire f1 en header))) v).

Lemma process_data_packet f1 f2 header frames packet_length ct d d' e v1 v2 v' :
  let en := endianness f1 in let h := full_header f1 f2 header in
  fr e = after_header f1 f2 header -> visitor_ f2 = true -> version_ f2 = version_ f1 ->
  header_ok f1 header -> (forall n, nonce header = Some n -> zlen n = 32) ->
  all_sendable f1 header frames -> frames <> [] ->
  zlen (packet_wire f1 header frames packet_length) <= packet_length ->
  in_u 62 (largest_packet_number_ f2) -> in_u 62 (packet_number header) -> packet_number header <> 0 ->
  in_window (packet_number_length header) (largest_packet_number_ f2) (packet_number header) ->
  decrypter_ f2 = Some d ->
  DecryptPacket (transport_version (version_ f1)) (packet_number header) (header_wire f1 en header) ct
    kMaxPacketSize d = (Some (packet_payload f1 header frames packet_length), d') ->
  zlen (header_wire f1 en header ++ ct) <= kMaxPacketSize ->
  rendian (rd e) = en -> remaining (rd e) = number_wire en header ++ ct ->
  OnUnauthenticatedHeader h (vs e) = (true, v1) -> v2 = OnDecryptedPacket (decrypter_level_ f2) v1 ->
  OnPacketHeader h v2 = (true, v') ->
  exists r', ProcessDataPacket (public_header f1 f2 header) (header_wire f1 en header ++ ct) kMaxPacketSize e =
    (Ok tt, put_rd r' (put_vs (after_frames f1 header frames packet_length v')
       (put_fr (put_largest_packet_number (Z.max (packet_number header) (largest_packet_number_ f2))
                 (put_decrypter (Some d') (after_header f1 f2 header))) e))).
Proof.
  intros en h Hfr Hv Hver Hh Hn Hs Hne Hfit Hb Hp Hz Hw Hd Hdec Hmax Hen Hr Hc1 Hv2 Hc3.
  destruct (after_header_fields f1 f2 header) as (Fver & Fv & Fd & Fl & Fp & Flg).
  rewrite <- Hfr in Fver, Fv, Fd, Fl, Flg.
  unfold ProcessDataPacket. rewrite <- Hen in Hr.
  destruct (process_unauthenticated_header f1 f2 header e ct v1 Hfr Hv (ho_len _ _ Hh) Hb Hp Hz Hw Hr Hc1)
    as (r1 & E1 & Hr1 & Hn1). erewrite M_bind_ok by exact E1. fold h.
  set (e1 := put_vs v1 (put_rd r1 e)).
  destruct (decrypt_payload f1 header h en ct (packet_payload f1 header frames packet_length) d d' e1
    kMaxPacketSize Hh Hn) as (r2 & E2); try done.
  { cbn [fr put_vs put_rd e1]. congruence. }
  { cbn [fr put_vs put_rd e1]. congruence. }
  { cbn [fr put_vs put_rd e1]. congruence. }
  erewrite M_bind_ok by (unfold or_else; rewrite E2; reflexivity). clear E1 E2.
  cbn [fr put_vs put_rd e1 vs]. rewrite Fl, <- Hv2.
  erewrite M_bind_ok by reflexivity. cbn [fr put_vs put_fr].
  assert (endianness (put_decrypter (Some d') (fr e)) = en) as ->
    by (unfold en, endianness; cbn [version_ put_decrypter]; by rewrite Fver, Hver).
  erewrite M_bind_ok by reflexivity. erewrite M_bind_ok by reflexivity.
  cbn [put_fr put_vs put_rd fr vs rd wr].
  change (largest_packet_number_ (put_decrypter (Some d') (fr e))) with (largest_packet_number_ (fr e)).
  rewrite Flg. cbn [packet_number full_header with_packet_number]. change (packet_number h) with (packet_number header).
  set (fin := put_largest_packet_number _ _).
  rewrite (M_bind_ok (visit (OnPacketHeader h)) _ _ true
    (mkEnv fin v' (new_reader (packet_payload f1 header frames packet_length) en) (wr e))).
  2: { unfold visit. cbn [fr vs put_fr put_rd put_vs]. change (visitor_ fin) with (visitor_ (fr e)). by rewrite Fv, Hv, Hc3. }
  cbn [negb]. rewrite (proj2 (Z.ltb_ge _ _)) by done.
  set (e2 := mkEnv _ _ _ _).
  assert (rendian (rd e2) = en) as Hen2 by apply new_reader_endian.
  destruct (process_frame_data f1 header h frames (packet_length - zlen (header_wire f1 en header)) e2)
    as (r3 & E3); try done.
  - change (visitor_ fin = true). change (visitor_ fin) with (visitor_ (fr e)). congruence.
  - change (transport_version (version_ (fr e)) = transport_version (version_ f1)). by rewrite Fver, Hver.
  - rewrite Hen2. unfold packet_wire, packet_payload in Hfit. fold en in Hfit. rewrite zlen_app in Hfit. lia.
  - rewrite Hen2. cbn [rd e2]. by rewrite new_reader_remaining.
  - exists r3. erewrite M_bind_ok by exact E3. rewrite Hen2. subst e2. cbn [put_vs put_rd vs fr rd wr].
    unfold notify, visit. cbn [put_vs put_rd vs fr rd wr]. change (visitor_ fin) with (visitor_ (fr e)).
    rewrite Fv, Hv. unfold after_frames. fold en. subst fin. by rewrite Hfr.
Qed.

(** Neither test of the version in [ProcessPacket] succeeds. *)
Lemma dispatch_version f1 f2 header : version_ f2 = version_ f1 ->
  let fh := after_header f1 (put_last_packet_is_ietf_quic false f2) header in let ph := public_header f1 f2 header in
  bool_decide (perspective_ fh = IS_SERVER) && version_flag ph && negb (bool_decide (header_version ph = version_ fh)) = false.
Proof.
  intros Hver fh ph. destruct (_ && _ && _) eqn:Eb; [|done]. exfalso.
  apply andb_true_iff in Eb as [Eb Hnv]. apply andb_true_iff in Eb as [_ Hvf].
  destruct (after_header_fields f1 (put_last_packet_is_ietf_quic false f2) header) as (Fver & _).
  cbn [version_flag header_version ph public_header] in Hvf, Hnv. unfold fh in Hnv. rewrite Hvf, Fver in Hnv.
  cbn [version_ put_last_packet_is_ietf_quic] in Hnv. by rewrite Hver, bool_decide_true in Hnv by done.
Qed.

Lemma dispatch_client f1 f2 header : header_ok f1 header -> peers f1 f2 header ->
  bool_decide (perspective_ f2 = IS_CLIENT) && version_flag (public_header f1 f2 header) = false.
Proof.
  intros Hh Hpe. destruct (_ && _) eqn:Ecl; [|done]. exfalso. apply andb_true_iff in Ecl as [Ec%bool_decide_eq_true Evf].
  pose proof (ho_version _ _ Hh Evf). destruct Hpe. congruence.
Qed.

(** A data packet's public header, as far as [ProcessDataPacket]. *)
Lemma packet_dispatched f1 f2 er header ct v1 :
  let en := endianness f1 in let packet := header_wire f1 en header ++ ct in
  fr er = f2 -> header_ok f1 header -> peers f1 f2 header ->
  version_ f2 = version_ f1 -> visitor_ f2 = true -> zlen packet <= kMaxPacketSize ->
  OnUnauthenticatedPublicHeader (public_header f1 f2 header) (OnPacket (vs er)) = (true, v1) ->
  exists r, rendian r = en /\ remaining r = number_wire en header ++ ct /\
    ProcessPacket packet er = ProcessDataPacket (public_header f1 f2 header) packet kMaxPacketSize
      (mkEnv (after_header f1 (put_last_packet_is_ietf_quic false f2) header) v1 r (wr er)).
Proof.
  intros en packet He2 Hh Hpe Hver Hv Hmax Hc0. set (f2' := put_last_packet_is_ietf_quic false f2).
  assert (endianness f2 = en) as Een by (unfold en, endianness; by rewrite Hver).
  unfold ProcessPacket. erewrite M_bind_ok by reflexivity. rewrite He2, Een.
  erewrite M_bind_ok by reflexivity. erewrite M_bind_ok by reflexivity.
  cbn [fr put_rd put_fr]. rewrite He2. fold f2'.
  set (r0 := new_reader packet en).
  rewrite (M_bind_ok (notify OnPacket) _ _ tt (mkEnv f2' (OnPacket (vs er)) r0 (wr er))).
  2: { unfold notify, visit. cbn [fr vs rd wr put_fr put_rd put_vs]. change (visitor_ f2') with (visitor_ f2). by rewrite Hv. }
  assert (peers f1 f2' header) as Hpe' by (destruct Hpe; by constructor).
  destruct (process_public_header f1 f2' en header (number_wire en header ++ ct) Hh Hpe'
    (mkEnv f2' (OnPacket (vs er)) r0 (wr er)) eq_refl (new_reader_endian _ _)) as (r1 & E1 & Hr1 & Hn1).
  { cbn [rd]. unfold r0. rewrite new_reader_remaining. unfold packet, header_wire. by rewrite <- !app_assoc. }
  erewrite M_bind_ok by (unfold or_raise, or_else; rewrite E1; reflexivity). clear E1.
  change (public_header f1 f2' header) with (public_header f1 f2 header).
  set (ph := public_header f1 f2 header) in *. set (fh := after_header f1 f2' header). cbn [put_fr put_rd fr vs rd wr].
  destruct (after_header_fields f1 f2' header) as (Fver & Fv & _ & _ & Fp & _). fold fh in Fver, Fv, Fp.
  rewrite (M_bind_ok (visit (OnUnauthenticatedPublicHeader ph)) _ _ true (mkEnv fh v1 r1 (wr er))).
  2: { unfold visit. cbn [fr vs put_fr put_rd]. rewrite Fv. change (visitor_ f2') with (visitor_ f2). by rewrite Hv, Hc0. }
  cbn [negb]. erewrite M_bind_ok by reflexivity. cbn [fr]. change (id fh) with fh.
  rewrite (M_bind_ok _ _ _ true (mkEnv fh v1 r1 (wr er))).
  2: { pose proof (dispatch_version f1 f2 header Hver) as Ev. cbv zeta in Ev. fold f2' fh ph in Ev. by rewrite Ev. }
  cbn [negb]. do 2 erewrite M_bind_ok by reflexivity. cbn [put_rd fr vs rd wr]. change (id fh) with fh.
  assert (endianness fh = en) as -> by (unfold en, endianness; by rewrite Fver, <- Hver).
  rewrite Fp. change (perspective_ f2') with (perspective_ f2).
  pose proof (dispatch_client f1 f2 header Hh Hpe) as Ec. fold ph in Ec. rewrite Ec. change (reset_flag ph) with false.
  rewrite (proj2 (Z.leb_le _ _)) by done. exists (set_endianness en r1).
  split; [apply set_endianness_endian|]. by rewrite set_endianness_remaining.
Qed.

(** C1: A data packet built by one end is processed by the other.  The bytes
    [BuildDataPacket] writes are the header followed by the frames; when the
    receiver's decrypter undoes the protection of the frames (the header being
    the associated data), [ProcessPacket] succeeds: the visitor is told of the
    packet, of its header with the full packet number, of its decryption, of
    every frame in order with its contents, and of its end, and the framer's
    largest packet number is updated.  The packet number only has to be within
    half a truncation window of the one expected. *)
Theorem data_packet_roundtrip f1 f2 es er header frames packet_length ct d d' v' :
  fr es = f1 -> fr er = f2 ->
  header_ok f1 header -> all_sendable f1 header frames -> frames <> [] ->
  0 <= packet_length -> zlen (packet_wire f1 header frames packet_length) <= packet_length ->
  peers f1 f2 header -> zlen (last_nonce_ f2) = 32 ->
  version_ f2 = version_ f1 -> visitor_ f2 = true -> decrypter_ f2 = Some d ->
  in_u 62 (largest_packet_number_ f2) -> in_u 62 (packet_number header) -> packet_number header <> 0 ->
  in_window (packet_number_length header) (largest_packet_number_ f2) (packet_number header) ->
  DecryptPacket (transport_version (version_ f1)) (packet_number header)
    (header_wire f1 (endianness f1) header) ct kMaxPacketSize d =
    (Some (packet_payload f1 header frames packet_length), d') ->
  zlen (header_wire f1 (endianness f1) header ++ ct) <= kMaxPacketSize ->
  accepts (decrypter_level_ f2) (public_header f1 f2 header) (full_header f1 f2 header) (vs er) v' ->
  (exists es', BuildDataPacket header frames packet_length es =
     (Ok (zlen (packet_wire f1 header frames packet_length)), es') /\
     written (wr es') = header_wire f1 (endianness f1) header ++ packet_payload f1 header frames packet_length) /\
  (exists r', ProcessPacket (header_wire f1 (endianness f1) header ++ ct) er =
     (Ok tt, put_rd r' (put_vs (after_frames f1 header frames packet_length v')
        (put_fr (after_packet f1 f2 header d') er)))).
Proof.
  intros He1 He2 Hh Hs Hne Hpl Hfit Hpe Hnl Hver Hv Hd Hb Hp Hz Hw Hdec Hmax (v1 & v2 & v3 & Hc0 & Hc1 & Hc2 & Hc3).
  split.
  - subst f1. pose proof (build_data_packet es header frames packet_length Hpl Hh Hs) as HB. cbv zeta in HB.
    rewrite (proj2 (Z.leb_le _ _)) in HB by done. destruct HB as (w & E & Ew). eexists. split; [exact E|]. exact Ew.
  - destruct (packet_dispatched f1 f2 er header ct v1) as (r & Hen & Hr & E); [done..|]. rewrite E.
    destruct (process_data_packet f1 (put_last_packet_is_ietf_quic false f2) header frames packet_length ct d d'
      (mkEnv (after_header f1 (put_last_packet_is_ietf_quic false f2) header) v1 r (wr er)) v2 v3 v') as (r' & E'); try done.
    + intros n En. rewrite <- Hnl. by apply Hpe.
    + exists r'. exact E'.
Qed.

End Packets.

(** ** Witnesses *)

Definition demo_header : QuicPacketHeader :=
  mkHeader 42 8 false true (mkVersion 1 41) 2 70000 None.

Definition demo_frames : list QuicFrame :=
  [ StreamFrame (Some (mkStreamFrame 5 true 1000 3 (Some [10; 11; 12])));
    MtuDiscoveryFrame; RstStreamFrame (mkRst 7 3 123456789);
    ConnectionCloseFrame (mkClose 9 [100; 101]); StopWaitingFrame (mkStopWaiting 69990);
    PaddingFrame (mkPadding 4); WindowUpdateFrame (mkWindowUpdate 3 (2 ^ 40));
    StreamFrame (Some (mkStreamFrame 300 false 0 2 (Some [1; 2]))) ].

Definition demo_client : MyQuicFramer := demo_framer IS_CLIENT 41.
Definition demo_server : MyQuicFramer := put_largest_packet_number 69995 (demo_framer IS_SERVER 41).

Definition demo_payload : list Z := packet_payload demo_client demo_header demo_frames 1200.
Definition demo_ad : list Z := header_wire demo_client (endianness demo_client) demo_header.
Definition demo_ct : list Z := demo_payload ++ [seal 70000 demo_ad demo_payload].
Definition demo_receiver : env := demo_env demo_server [] NETWORK_BYTE_ORDER.

(** The server's log after the client's header. *)
Definition demo_log : Visitor :=
  [EPacket; EPublicHeader (public_header demo_client demo_server demo_header);
   EHeader (full_header demo_client demo_server demo_header); EDecrypted 0;
   EPacketHeader (full_header demo_client demo_server demo_header)].

Ltac in_range := split; vm_compute; congruence.

Lemma demo_header_ok : header_ok demo_client demo_header.
Proof. constructor; [by right|in_range|done|by right; left|done|done]. Qed.

Lemma demo_sendable : all_sendable demo_client demo_header demo_frames.
Proof.
  cbn. unfold stream_ok, pn_length_ok. cbn. repeat split; auto; try (vm_compute; congruence).
Qed.

Lemma packet_number_roundtrip_witness :
  emits demo_client NETWORK_BYTE_ORDER tt (uint_bytes NETWORK_BYTE_ORDER 2 70000) (AppendPacketNumber 2 70000) /\
  parses demo_server NETWORK_BYTE_ORDER (uint_bytes NETWORK_BYTE_ORDER 2 70000) [] 70000
    (ProcessAndCalculatePacketNumber 2 69995).
Proof.
  apply (packet_number_roundtrip demo_client demo_server NETWORK_BYTE_ORDER 2 69995 70000 []);
    [by right; left|in_range|in_range|vm_compute; reflexivity].
Defined.

Lemma data_packet_roundtrip_witness :
  (exists es', BuildDataPacket demo_header demo_frames 1200 (demo_env demo_client [] NETWORK_BYTE_ORDER) =
     (Ok (zlen (packet_wire demo_client demo_header demo_frames 1200)), es') /\
     written (wr es') = demo_ad ++ demo_payload) /\
  (exists r', ProcessPacket (demo_ad ++ demo_ct) demo_receiver =
     (Ok tt, put_rd r' (put_vs (after_frames demo_client demo_header demo_frames 1200 demo_log)
        (put_fr (after_packet demo_client demo_server demo_header 1) demo_receiver)))).
Proof.
  apply (data_packet_roundtrip demo_client demo_server (demo_env demo_client [] NETWORK_BYTE_ORDER)
    demo_receiver demo_header demo_frames 1200 demo_ct 0 1 demo_log); try reflexivity.
  - apply demo_header_ok.
  - apply demo_sendable.
  - discriminate.
  - lia.
  - vm_compute. congruence.
  - constructor; done.
  - in_range.
  - in_range.
  - discriminate.
  - vm_compute. congruence.
  - do 3 eexists. split_and!; reflexivity.
Defined.
