(* ===== verification/FramerSafe.v ===== *)
(** * Any input: [ProcessFrameData] copes with every sequence of bytes

    [rsafe P m]: with a visitor set and any bytes in the reader, [m] is never
    stuck; it consumes a prefix of the input and leaves the writer alone; when
    it succeeds the framer changed in [last_timestamp_] at most, and when it
    fails in the error fields too, and [P] holds of it. *)

From S2P Require Import Prelude QuicTime FramerTypes FramerNumbers FramerAppend FramerProcess FramerWire.
From S2P Require Import FramerCodec FramerConcrete FramerStream.

Section Safe.
Context `{T : QuicTypes} `{Q : PacketQueueOps} `{A : !AckOps} `{C : CryptoOps} `{F : QuicFunctions}
  `{R : ReaderOps} `{W : WriterOps} `{V : !VisitorOps} `{P : !ProducerOps}
  `{RV : !ReaderView} `{RO : !ReaderOk} `{TO : !QuicTypesOk T} `{FO : !QuicFunctionsOk F}.

(** ** The predicate *)

Definition quiet (f f' : MyQuicFramer) : Prop :=
  put_last_timestamp Delta_Zero f' = put_last_timestamp Delta_Zero f.

Definition keeps (f f' : MyQuicFramer) : Prop :=
  quiet (put_error 0 (put_detailed_error "" f)) (put_error 0 (put_detailed_error "" f')).

Definition tail_of (e e' : env) : Prop :=
  (exists bs, remaining (rd e) = bs ++ remaining (rd e')) /\ wr e' = wr e.

Definition rsafe {X} (Fl : MyQuicFramer -> Prop) (Vl : X -> Prop) (m : M env X) : Prop :=
  forall e, visitor_ (fr e) = true -> bytes_ok (remaining (rd e)) ->
    match m e with
    | (Ok a, e') => quiet (fr e) (fr e') /\ tail_of e e' /\ Vl a
    | (Fail, e') => keeps (fr e) (fr e') /\ tail_of e e' /\ Fl (fr e')
    | (Stuck, _) => False
    end.

(** Failures explain themselves; those of the frame loop set the error too. *)
Definition explained (f : MyQuicFramer) : Prop := detailed_error_ f <> ""%string.
Definition raised (f : MyQuicFramer) : Prop := explained f /\ error_ f <> QUIC_NO_ERROR.

Lemma quiet_keeps f f' : quiet f f' -> keeps f f'.
Proof.
  intros H. unfold keeps, quiet in *.
  change (put_error 0 (put_detailed_error "" (put_last_timestamp Delta_Zero f')) =
          put_error 0 (put_detailed_error "" (put_last_timestamp Delta_Zero f))). by rewrite H.
Qed.

Lemma quiet_visitor f f' : quiet f f' -> visitor_ f' = visitor_ f.
Proof. intros H. exact (f_equal visitor_ H). Qed.

Lemma tail_refl e : tail_of e e.
Proof. split; [by exists []|done]. Qed.

Lemma tail_trans e1 e2 e3 : tail_of e1 e2 -> tail_of e2 e3 -> tail_of e1 e3.
Proof.
  intros [[b1 H1] W1] [[b2 H2] W2]. split; [|congruence].
  exists (b1 ++ b2). by rewrite H1, H2, app_assoc.
Qed.

Lemma tail_bytes e e' : tail_of e e' -> bytes_ok (remaining (rd e)) -> bytes_ok (remaining (rd e')).
Proof. intros [[bs ->] _]. by intros [_ ?]%Forall_app. Qed.

Lemma rsafe_mono {X} (Fl Fl' : MyQuicFramer -> Prop) (Vl Vl' : X -> Prop) m :
  rsafe Fl Vl m -> (forall f, Fl f -> Fl' f) -> (forall a, Vl a -> Vl' a) -> rsafe Fl' Vl' m.
Proof.
  intros H H1 H2 e Hv Hb. specialize (H e Hv Hb). destruct (m e) as [[a| |] e']; naive_solver.
Qed.

Lemma rsafe_ret {X} Fl (Vl : X -> Prop) a : Vl a -> rsafe Fl Vl (mret a).
Proof. intros Ha e _ _. split; [done|]. split; [apply tail_refl|done]. Qed.

Lemma rsafe_fail {X} (Vl : X -> Prop) : rsafe (fun _ => True) Vl mfail.
Proof. intros e _ _. split; [done|]. split; [apply tail_refl|done]. Qed.

Lemma rsafe_bind {X Y} Fl (Vl : X -> Prop) (Vl' : Y -> Prop) m k :
  rsafe Fl Vl m -> (forall a, Vl a -> rsafe Fl Vl' (k a)) -> rsafe Fl Vl' (m ≫= k).
Proof.
  intros H1 H2 e Hv Hb. specialize (H1 e Hv Hb). unfold mbind, M_bind.
  destruct (m e) as [[a| |] e1]; [|done..]. destruct H1 as (Hq & Ht & Ha).
  specialize (H2 a Ha e1). rewrite (quiet_visitor _ _ Hq) in H2.
  specialize (H2 Hv (tail_bytes _ _ Ht Hb)).
  destruct (k a e1) as [[b| |] e2]; [| |done].
  - destruct H2 as (Hq2 & Ht2 & Hb2). split; [by unfold quiet in *; rewrite Hq2|].
    split; [by eapply tail_trans|done].
  - destruct H2 as (Hk & Ht2 & Hb2). split; [|split; [by eapply tail_trans|done]].
    apply quiet_keeps in Hq. unfold keeps, quiet in *. by rewrite Hk.
Qed.

Lemma rsafe_gets {X Y} Fl (Vl : Y -> Prop) (g : MyQuicFramer -> X) k :
  (forall a, rsafe Fl Vl (k a)) -> rsafe Fl Vl (gets g ≫= k).
Proof. intros H e Hv Hb. by apply H. Qed.

Lemma rsafe_get_rd {X Y} Fl (Vl : Y -> Prop) (g : QuicDataReader -> X) k :
  (forall a, rsafe Fl Vl (k a)) -> rsafe Fl Vl (rd_get g ≫= k).
Proof. intros H e Hv Hb. by apply H. Qed.

Lemma rsafe_op {X} (Vl : X -> Prop) op p :
  reads op p -> (forall en, p_ok (p en) Vl) -> rsafe (fun _ => True) Vl (rd_op op).
Proof.
  intros H Hp e _ Hb. specialize (H (rd e)). specialize (Hp (rendian (rd e))). unfold rd_op.
  destruct (p _ _) as [[a l]|] eqn:E.
  - destruct H as (r' & -> & Hr & _). apply Hp in E as [[bs E] Ha]; [|done].
    split; [done|]. split; [|done]. split; [|done]. exists bs. cbn [rd put_rd]. by rewrite Hr.
  - destruct H as (r' & -> & [bs Hr] & _). split; [done|]. split; [|done]. split; [by exists bs|done].
Qed.

(** A failure message is not empty. *)
Lemma rsafe_or_detail {X} Fl (Vl : X -> Prop) msg m :
  msg <> ""%string -> rsafe Fl Vl m -> rsafe explained Vl (or_detail msg m).
Proof.
  intros Hm H e Hv Hb. specialize (H e Hv Hb). unfold or_detail, or_else.
  destruct (m e) as [[a| |] e1]; [done| |done]. destruct H as (Hk & Ht & _). by split.
Qed.

Lemma rsafe_explain {X} (Vl : X -> Prop) msg : msg <> ""%string ->
  rsafe explained Vl (set_detailed_error msg ;; mfail).
Proof. intros Hm e _ _. split; [done|]. split; [exact (tail_refl e)|done]. Qed.

Lemma rsafe_raise {X} (Vl : X -> Prop) err m : err <> QUIC_NO_ERROR ->
  rsafe explained Vl m -> rsafe raised Vl (or_raise err m).
Proof.
  intros He H e Hv Hb. specialize (H e Hv Hb). unfold or_raise, or_else.
  destruct (m e) as [[a| |] e1]; [done| |done]. destruct H as (Hk & Ht & Hx).
  unfold RaiseError, notify, visit. unfold mbind, M_bind. cbn [set_error mod_fr gets fr put_fr vs].
  change (visitor_ (put_error err (fr e1))) with (visitor_ (fr e1)).
  assert (visitor_ (fr e1) = visitor_ (fr e)) as -> by exact (f_equal visitor_ Hk). rewrite Hv.
  split; [done|]. by split.
Qed.

(** [set_detailed_error(msg); return RaiseError(err);] *)
Lemma rsafe_error {X} (Vl : X -> Prop) err msg : err <> QUIC_NO_ERROR -> msg <> ""%string ->
  rsafe raised Vl (set_detailed_error msg ;; RaiseError err).
Proof.
  intros He Hm e Hv Hb. unfold RaiseError, notify, visit, mbind, M_bind.
  cbn [set_detailed_error set_error mod_fr gets fr put_fr vs].
  change (visitor_ (put_error err (put_detailed_error msg (fr e)))) with (visitor_ (fr e)). rewrite Hv.
  split; [done|]. split; [exact (tail_refl e)|done].
Qed.

Lemma rsafe_visit Fl {X} (f : Visitor -> X * Visitor) : rsafe Fl (fun _ => True) (visit f).
Proof.
  intros e Hv Hb. unfold visit. rewrite Hv. destruct (f (vs e)). split; [done|].
  split; [exact (tail_refl e)|done].
Qed.

Lemma rsafe_if {X} Fl (Vl : X -> Prop) (b : bool) m1 m2 :
  rsafe Fl Vl m1 -> rsafe Fl Vl m2 -> rsafe Fl Vl (if b then m1 else m2).
Proof. by destruct b. Qed.

(** ** The reads *)

Definition anything {X} (_ : X) : Prop := True.

Lemma any_reads {X} op p (Vl : X -> Prop) :
  reads op p -> (forall en, p_ok (p en) Vl) -> rsafe (fun _ => True) anything (rd_op op).
Proof. intros H1 H2. eapply rsafe_mono; [by eapply rsafe_op|done..]. Qed.

Lemma rsafe_uint8 : rsafe (fun _ => True) (in_u 8) (rd_op ReadUInt8).
Proof. eapply rsafe_op; [apply ReadUInt8_ok|apply p_uint_ok]. Qed.

Lemma rsafe_uint32 : rsafe (fun _ => True) (in_u 32) (rd_op ReadUInt32).
Proof. eapply rsafe_op; [apply ReadUInt32_ok|apply p_uint_ok]. Qed.

Lemma rsafe_uint64 : rsafe (fun _ => True) (in_u 64) (rd_op ReadUInt64).
Proof. eapply rsafe_op; [apply ReadUInt64_ok|apply p_uint_ok]. Qed.

Lemma rsafe_bytes_uint n : 0 <= n <= 8 ->
  rsafe (fun _ => True) (in_u (8 * n)) (rd_op (ReadBytesToUInt64 n)).
Proof.
  intros Hn. eapply rsafe_op; [by apply ReadBytesToUInt64_ok|]. intros en.
  pose proof (p_uint_ok (Z.to_nat n) en) as H. by rewrite Z2Nat.id in H by lia.
Qed.

Lemma rsafe_ufloat16 : rsafe (fun _ => True) (fun v => 0 <= v < 2 ^ 62) (rd_op ReadUFloat16).
Proof.
  eapply rsafe_op; [apply ReadUFloat16_ok|]. intros en l a l' Hl.
  destruct (p_uint 2 en l) as [[v l1]|] eqn:E; [|done]. cbn. intros [= <- <-].
  apply p_uint_ok in E as [? ?]; [|done]. split; [done|]. by apply ufloat16_decode_range.
Qed.

Lemma rsafe_string16 : rsafe (fun _ => True) anything (rd_op ReadStringPiece16).
Proof. eapply any_reads; [apply ReadStringPiece16_ok|intros; apply p_string16_ok]. Qed.

Lemma rsafe_string n : rsafe (fun _ => True) anything (rd_op (ReadStringPiece n)).
Proof. eapply any_reads; [apply ReadStringPiece_ok|intros; apply p_bytes_ok]. Qed.

Lemma rsafe_bytes n : rsafe (fun _ => True) (fun bs => zlen bs = n /\ bytes_ok bs) (rd_op (ReadBytes n)).
Proof. eapply rsafe_op; [apply ReadBytes_ok|intros; apply p_bytes_ok]. Qed.
End Safe.

Create HintDb rsafe.
#[export] Hint Resolve rsafe_uint8 rsafe_uint32 rsafe_uint64 rsafe_bytes_uint rsafe_ufloat16
  rsafe_string16 rsafe_string rsafe_bytes : rsafe.

(** One step of a method: a read with its message, a test, a callback. *)
Ltac rsafe_step :=
  lazymatch goal with
  | |- rsafe _ _ (or_detail _ _ ≫= _) =>
      eapply rsafe_bind; [eapply rsafe_or_detail; [done|]; solve [eauto with rsafe lia]|intros ??]
  | |- rsafe _ _ (gets _ ≫= _) => apply rsafe_gets; intros ?
  | |- rsafe _ _ (tversion ≫= _) => apply rsafe_gets; intros ?
  | |- rsafe _ _ (rd_get _ ≫= _) => apply rsafe_get_rd; intros ?
  | |- rsafe _ _ (mret _) => by apply rsafe_ret
  | |- rsafe _ _ (if _ then _ else _) => apply rsafe_if
  | |- rsafe _ _ (set_detailed_error _ ;; mfail) => by apply rsafe_explain
  end.

(** An error code the framer raises is not [QUIC_NO_ERROR]. *)
Ltac is_error :=
  let H := fresh in pose proof errors_are_errors as H; repeat (apply Forall_cons in H as [? H]); done.

Section Frames.
Context `{T : QuicTypes} `{Q : PacketQueueOps} `{A : !AckOps} `{C : CryptoOps} `{F : QuicFunctions}
  `{R : ReaderOps} `{W : WriterOps} `{V : !VisitorOps} `{P : !ProducerOps}
  `{RV : !ReaderView} `{RO : !ReaderOk} `{TO : !QuicTypesOk T} `{FO : !QuicFunctionsOk F}.

(** ** Lengths read from type bytes *)

Lemma land_ones_bound x n : 0 <= n -> 0 <= Z.land x (Z.ones n) < 2 ^ n.
Proof. intros. rewrite Z.land_ones by done. apply Z.mod_pos_bound. apply Z.pow_pos_nonneg; lia. Qed.

Lemma stream_type_fields_bounds tv t :
  let '(id_len, off_len, _, _) := stream_type_fields tv t in 1 <= id_len <= 4 /\ 0 <= off_len <= 8.
Proof.
  unfold stream_type_fields. destruct (negb _).
  - pose proof (land_ones_bound (Z.land t (u8 (Z.lnot kQuicFrameTypeStreamMask_Pre40))) 2 ltac:(lia)) as H1.
    pose proof (land_ones_bound (Z.shiftr (Z.land t (u8 (Z.lnot kQuicFrameTypeStreamMask_Pre40)))
                  kQuicStreamIdShift_Pre40) 3 ltac:(lia)) as H2.
    change (Z.ones 2) with kQuicStreamIDLengthMask_Pre40 in H1.
    change (Z.ones 3) with kQuicStreamOffsetMask_Pre40 in H2.
    change (2 ^ 2) with 4 in H1. change (2 ^ 3) with 8 in H2. split; [lia|]. case_match; lia.
  - assert (forall x o, 0 <= ExtractBits x 2 o < 4) as Hb
      by (intros; apply (land_ones_bound (Z.shiftr x o) 2); lia).
    unfold kQuicStreamIDLengthNumBits, kQuicStreamOffsetNumBits. split; [pose proof (Hb (Z.land t (u8 (Z.lnot kQuicFrameTypeStreamMask))) kQuicStreamIDLengthShift); lia|].
    specialize (Hb (Z.land t (u8 (Z.lnot kQuicFrameTypeStreamMask))) kQuicStreamOffsetShift).
    set (b := ExtractBits _ _ _) in *. assert (b = 0 \/ b = 1 \/ b = 2 \/ b = 3) as H by lia.
    clearbody b. repeat destruct H as [-> | H]; [..|subst]; vm_compute; split; congruence.
Qed.

Lemma ack_length_bounds tv x : 0 <= ReadAckPacketNumberLength tv x <= 8.
Proof. unfold ReadAckPacketNumberLength. autorewrite with quic. repeat case_match; lia. Qed.

(** ** The methods *)

Ltac rsafe_method := repeat rsafe_step; eauto with rsafe.

Lemma rsafe_stream t : rsafe explained anything (ProcessStreamFrame t).
Proof.
  unfold ProcessStreamFrame. rsafe_step. pose proof (stream_type_fields_bounds a t) as H.
  destruct (stream_type_fields a t) as [[[id_len off_len] has] fin]. destruct H as [H1 H2].
  eapply rsafe_bind; [eapply rsafe_or_detail; [done|apply rsafe_bytes_uint; lia]|intros ??].
  eapply rsafe_bind; [eapply rsafe_or_detail; [done|apply rsafe_bytes_uint; lia]|intros ??].
  eapply (rsafe_bind _ anything); [|intros ??; by apply rsafe_ret]. apply rsafe_if.
  - eapply rsafe_or_detail; [done|apply rsafe_string16].
  - rsafe_step. eapply rsafe_or_detail; [done|apply rsafe_string].
Qed.

Lemma rsafe_last_timestamp Fl d : rsafe Fl anything (mod_fr (put_last_timestamp d)).
Proof. intros e _ _. split; [done|]. split; [exact (tail_refl e)|done]. Qed.

Lemma rsafe_timestamps n ack : rsafe explained anything (process_timestamps n ack).
Proof.
  revert ack. induction n as [|n IH]; intros ack; cbn [process_timestamps]; [by apply rsafe_ret|].
  do 3 rsafe_step. eapply rsafe_bind; [apply rsafe_last_timestamp|intros ??]. rsafe_step. apply IH.
Qed.

Lemma rsafe_ack_timestamps n ack : rsafe explained anything (ProcessTimestampsInAckFrame n ack).
Proof.
  unfold ProcessTimestampsInAckFrame. rsafe_step; [|by rsafe_step]. do 3 rsafe_step.
  eapply rsafe_bind; [apply rsafe_last_timestamp|intros ??]. rsafe_step. apply rsafe_timestamps.
Qed.

Lemma rsafe_visit_ack f : rsafe explained anything (visit_ack f).
Proof.
  unfold visit_ack. eapply rsafe_bind; [apply rsafe_visit|]. intros b _. rsafe_step; by rsafe_step.
Qed.

Lemma rsafe_strcat {X} (Vl : X -> Prop) s l : s <> ""%string ->
  rsafe explained Vl (set_detailed_error (QuicStrCat (inl s :: l)) ;; mfail).
Proof. intros. by apply rsafe_explain, QuicStrCat_nonempty. Qed.

Lemma rsafe_ack_blocks n : forall i num len first ack, 0 <= len <= 8 ->
  rsafe explained anything (process_ack_blocks n i num len first ack).
Proof.
  induction n as [|n IH]; intros i num len first ack Hlen; cbn [process_ack_blocks]; [by apply rsafe_ret|].
  rsafe_step. eapply rsafe_bind; [eapply rsafe_or_detail; [done|by apply rsafe_bytes_uint]|intros ??].
  eapply (rsafe_bind _ anything); [apply rsafe_if; [by apply rsafe_strcat|by apply rsafe_ret]|intros ??].
  rsafe_step. eapply (rsafe_bind _ anything); [|intros ??; by apply IH].
  apply rsafe_if; [|by apply rsafe_ret]. apply rsafe_if; [|by apply rsafe_ret].
  eapply rsafe_bind; [apply rsafe_visit_ack|intros ??; by apply rsafe_ret].
Qed.

Lemma rsafe_ack t ack : rsafe explained anything (ProcessAckFrame t ack).
Proof.
  unfold ProcessAckFrame. rsafe_step.
  eapply (rsafe_bind _ anything).
  { apply rsafe_if; [|by apply rsafe_ret]. eapply (rsafe_bind _ anything).
    - apply rsafe_if; [|by apply rsafe_ret]. eapply rsafe_mono; [eapply rsafe_or_detail; [done|apply rsafe_uint8]|done..].
    - intros ??. rsafe_step. by apply rsafe_ret. }
  intros [n p] _.
  eapply rsafe_bind; [eapply rsafe_or_detail; [done|apply rsafe_bytes_uint, ack_length_bounds]|intros ??].
  do 2 rsafe_step.
  eapply (rsafe_bind _ anything); [apply rsafe_if; [apply rsafe_visit_ack|by apply rsafe_ret]|intros ??].
  eapply (rsafe_bind _ anything).
  { apply rsafe_if; [|by apply rsafe_ret].
    eapply rsafe_mono; [eapply rsafe_or_detail; [done|apply rsafe_uint8]|done..]. }
  intros ??.
  eapply rsafe_bind; [eapply rsafe_or_detail; [done|apply rsafe_bytes_uint, ack_length_bounds]|intros ??].
  eapply (rsafe_bind _ anything); [apply rsafe_if; [by apply rsafe_strcat|by apply rsafe_ret]|intros ??].
  eapply (rsafe_bind _ anything); [apply rsafe_if; [by apply rsafe_strcat|by apply rsafe_ret]|intros ??].
  eapply (rsafe_bind _ anything).
  { apply rsafe_if; [|by apply rsafe_ret]. eapply rsafe_bind; [apply rsafe_visit_ack|intros ??; by apply rsafe_ret]. }
  intros ??. eapply rsafe_bind; [apply rsafe_ack_blocks, ack_length_bounds|intros ??].
  eapply (rsafe_bind _ anything); [|intros ??; apply rsafe_ack_timestamps].
  apply rsafe_if; [|by apply rsafe_ret].
  eapply rsafe_mono; [eapply rsafe_or_detail; [done|apply rsafe_uint8]|done..].
Qed.

Lemma rsafe_rst : rsafe explained anything ProcessRstStreamFrame.
Proof.
  unfold ProcessRstStreamFrame. do 2 rsafe_step. eapply (rsafe_bind _ anything).
  { apply rsafe_if; [|by apply rsafe_ret].
    eapply rsafe_mono; [eapply rsafe_or_detail; [done|apply rsafe_uint64]|done..]. }
  intros ??. rsafe_step. eapply (rsafe_bind _ anything); [|intros ??; by apply rsafe_ret].
  apply rsafe_if; [|by apply rsafe_ret].
  eapply rsafe_mono; [eapply rsafe_or_detail; [done|apply rsafe_uint64]|done..].
Qed.

Lemma rsafe_close : rsafe explained anything ProcessConnectionCloseFrame.
Proof. unfold ProcessConnectionCloseFrame. rsafe_method. Qed.

Lemma rsafe_goaway : rsafe explained anything ProcessGoAwayFrame.
Proof. unfold ProcessGoAwayFrame. rsafe_method. Qed.

Lemma rsafe_window : rsafe explained anything ProcessWindowUpdateFrame.
Proof. unfold ProcessWindowUpdateFrame. rsafe_method. Qed.

Lemma rsafe_blocked : rsafe explained anything ProcessBlockedFrame.
Proof. unfold ProcessBlockedFrame. rsafe_method. Qed.

Lemma rsafe_stop_waiting header : 0 <= packet_number_length header <= 8 ->
  rsafe explained anything (ProcessStopWaitingFrame header).
Proof.
  intros. unfold ProcessStopWaitingFrame. rsafe_step.
  eapply (rsafe_bind _ anything); [|intros ??; by apply rsafe_ret].
  apply rsafe_if; [by apply rsafe_explain|by apply rsafe_ret].
Qed.

(** *** Padding: the fuel is enough *)

Lemma padding_loop_safe fuel : forall n e, bytes_ok (remaining (rd e)) ->
  zlen (remaining (rd e)) <= Z.of_nat fuel ->
  exists k e', padding_loop fuel n e = (Ok k, e') /\ fr e' = fr e /\ tail_of e e'.
Proof.
  induction fuel as [|fuel IH]; intros n e Hb Hf.
  - assert (remaining (rd e) = []) as E by (destruct (remaining (rd e)); [done|rewrite zlen_cons in Hf;
      pose proof (zlen_nonneg l); lia]).
    exists n, e. split; [|split; [done|apply tail_refl]].
    cbn [padding_loop]. unfold rd_get, mbind, M_bind. by rewrite IsDoneReading_ok, bool_decide_true by done.
  - cbn [padding_loop]. unfold rd_get at 1 2, mbind at 1 2, M_bind at 1 2. rewrite IsDoneReading_ok.
    destruct (remaining (rd e)) as [|b l] eqn:E.
    { exists n, e. split; [done|split; [done|apply tail_refl]]. }
    rewrite bool_decide_false by done. rewrite (PeekByte_ok _ b l) by done. cbn [negb andb].
    destruct (b =? 0); [|exists n, e; split; [done|split; [done|apply tail_refl]]].
    rewrite zlen_cons in Hf. change (b :: l) with ([b] ++ l) in E.
    destruct (parses_bytes (fr e) (rendian (rd e)) [b] l 1 eq_refl e eq_refl eq_refl E) as (r' & E1 & Hr & _).
    rewrite (M_bind_ok _ _ _ tt (put_rd r' e)) by (unfold or_else; by erewrite M_bind_ok by exact E1).
    apply Forall_cons in Hb as [_ Hb].
    destruct (IH (n + 1) (put_rd r' e)) as (k & e' & E2 & Hfr & Ht);
      [cbn [rd put_rd]; by rewrite Hr|cbn [rd put_rd]; rewrite Hr; lia|]. exists k, e'. split; [done|]. split; [done|].
    eapply tail_trans; [|exact Ht]. split; [|done]. exists [b]. cbn [rd put_rd]. by rewrite Hr.
Qed.

Lemma rsafe_padding Fl : rsafe Fl anything ProcessPaddingFrame.
Proof.
  unfold ProcessPaddingFrame. apply rsafe_gets. intros tv e Hv Hb.
  unfold rd_get, mbind at 1, M_bind at 1. rewrite BytesRemaining_ok. destruct (tv <=? QUIC_VERSION_37).
  - destruct (ReadRemainingPayload_ok (rd e)) as (r' & E & Hr & _).
    unfold read_remaining, mbind, M_bind. rewrite E. cbn. split; [done|]. split; [|done].
    split; [|done]. exists (remaining (rd e)). cbn. by rewrite Hr, app_nil_r.
  - destruct (padding_loop_safe (Z.to_nat (zlen (remaining (rd e)))) 1 e Hb) as (k & e' & E & Hfr & Ht).
    { pose proof (zlen_nonneg (remaining (rd e))). lia. }
    erewrite M_bind_ok by exact E. cbn. by rewrite Hfr.
Qed.

(** *** The frame loop *)

Lemma rsafe_process_frame header t : 0 <= packet_number_length header <= 8 ->
  rsafe raised anything (process_frame header t).
Proof.
  intros Hl. unfold process_frame. apply rsafe_gets. intros tv.
  assert (forall X err (m : M env X) (k : X -> M env bool), err <> QUIC_NO_ERROR -> rsafe explained anything m ->
    (forall x, rsafe raised anything (k x)) -> rsafe raised anything (or_raise err m ≫= k)) as Hraise.
  { intros X err m k He Hm Hk. eapply rsafe_bind; [by apply rsafe_raise|]. intros x _. apply Hk. }
  assert (forall cb : Visitor -> bool * Visitor, rsafe raised anything (visit cb)) as Hvisit
    by (intros; eapply rsafe_mono; [apply rsafe_visit|done..]).
  apply rsafe_if; [apply rsafe_if; [|apply rsafe_if]|repeat apply rsafe_if].
  - apply Hraise; [is_error|apply rsafe_stream|done].
  - apply Hraise; [is_error|apply rsafe_ack|]. intros x. apply rsafe_gets. intros b.
    apply rsafe_if; [by apply rsafe_ret|done].
  - apply rsafe_error; [is_error|done].
  - eapply rsafe_bind; [apply rsafe_padding|intros ??; apply Hvisit].
  - apply Hraise; [is_error|apply rsafe_rst|done].
  - apply Hraise; [is_error|apply rsafe_close|done].
  - apply Hraise; [is_error|apply rsafe_goaway|done].
  - apply Hraise; [is_error|apply rsafe_window|done].
  - apply Hraise; [is_error|apply rsafe_blocked|done].
  - apply Hraise; [is_error|by apply rsafe_stop_waiting|done].
  - apply Hvisit.
  - apply rsafe_error; [is_error|done].
Qed.

(** The conclusion of [rsafe raised anything]. *)
Definition copes (e : env) (o : res unit * env) : Prop :=
  match o with
  | (Ok _, e') => quiet (fr e) (fr e') /\ tail_of e e'
  | (Fail, e') => keeps (fr e) (fr e') /\ tail_of e e' /\ raised (fr e')
  | (Stuck, _) => False
  end.

Lemma quiet_trans_copes e e1 o : quiet (fr e) (fr e1) -> tail_of e e1 -> copes e1 o -> copes e o.
Proof.
  intros Hq Ht. destruct o as [[a| |] e2]; cbn; [| |done].
  - intros [H1 H2]. split; [by unfold quiet in *; rewrite H1|by eapply tail_trans].
  - intros (H1 & H2 & H3). split; [|split; [by eapply tail_trans|done]].
    apply quiet_keeps in Hq. unfold keeps, quiet in *. by rewrite H1.
Qed.

Lemma frame_loop_safe header fuel : 0 <= packet_number_length header <= 8 -> forall e,
  visitor_ (fr e) = true -> bytes_ok (remaining (rd e)) -> zlen (remaining (rd e)) <= Z.of_nat fuel ->
  copes e (frame_loop fuel header e).
Proof.
  intros Hl. induction fuel as [|fuel IH]; intros e Hv Hb Hf;
    cbn [frame_loop]; unfold rd_get, mbind at 1, M_bind at 1; rewrite IsDoneReading_ok;
    destruct (remaining (rd e)) as [|b l] eqn:E; try by (split; [done|apply tail_refl]).
  { exfalso. rewrite zlen_cons in Hf. pose proof (zlen_nonneg l). lia. }
  rewrite bool_decide_false by done. rewrite zlen_cons in Hf.
  pose proof (Forall_inv_tail Hb) as Hb'. change (b :: l) with ([b] ++ l) in E.
  destruct (parses_bytes (fr e) (rendian (rd e)) [b] l 1 eq_refl e eq_refl eq_refl E) as (r' & E1 & Hr & _).
  erewrite M_bind_ok by (unfold or_else; rewrite E1; reflexivity).
  set (e1 := put_rd r' e). assert (remaining (rd e1) = l) as Hr1 by exact Hr.
  assert (tail_of e e1) as Ht1 by (split; [exists [b]; by rewrite Hr1|done]).
  pose proof (rsafe_process_frame header ([b] !!! 0%nat) Hl e1 Hv ltac:(by rewrite Hr1)) as Hpf.
  unfold mbind at 1, M_bind at 1.
  destruct (process_frame header ([b] !!! 0%nat) e1) as [[go| |] e2]; [| |done].
  - destruct Hpf as (Hq & Ht & _). apply (quiet_trans_copes e e2); [exact Hq|by eapply tail_trans|].
    destruct go; [|split; [done|apply tail_refl]]. apply IH.
    + by rewrite (quiet_visitor _ _ Hq).
    + eapply tail_bytes; [exact Ht|]. by rewrite Hr1.
    + destruct Ht as [[bs Ht] _]. rewrite Hr1 in Ht. rewrite Ht, zlen_app in Hf.
      pose proof (zlen_nonneg bs). lia.
  - destruct Hpf as (Hk & Ht & Hra). split; [done|]. split; [by eapply tail_trans|done].
Qed.

Lemma process_frame_data_copes header e :
  0 <= packet_number_length header <= 8 -> visitor_ (fr e) = true -> bytes_ok (remaining (rd e)) ->
  copes e (ProcessFrameData header e).
Proof.
  intros Hl Hv Hb. unfold ProcessFrameData, rd_get, mbind at 1, M_bind at 1. rewrite IsDoneReading_ok.
  destruct (bool_decide (remaining (rd e) = [])).
  - pose proof (rsafe_error (fun _ : unit => True) QUIC_MISSING_PAYLOAD "Packet has no frames."
      ltac:(is_error) ltac:(done) e Hv Hb) as H. revert H.
    destruct ((set_detailed_error _ ;; RaiseError _) e) as [[a| |] e']; cbn; naive_solver.
  - unfold mbind, M_bind. rewrite BytesRemaining_ok. apply frame_loop_safe; try done.
    pose proof (zlen_nonneg (remaining (rd e))). lia.
Qed.

(** [ProcessFrameData] copes with any bytes.  With a visitor set it always
    returns (the loops end within the fuel, no access leaves the input); what
    it consumes is a prefix of the input; when it returns true it changed
    nothing of the framer but [last_timestamp_], and when it returns false the
    error code and the detailed message are set. *)
Theorem process_frame_data_safe header e :
  0 <= packet_number_length header <= 8 -> visitor_ (fr e) = true -> bytes_ok (remaining (rd e)) ->
  copes e (ProcessFrameData header e).
Proof. apply process_frame_data_copes. Qed.
End Frames.

(** An ack frame cut off in the middle. *)
Lemma process_frame_data_safe_witness :
  let e := demo_env (demo_framer IS_SERVER 41) [7; 0xb4; 3; 0; 1] NETWORK_BYTE_ORDER in
  copes e (ProcessFrameData (mkHeader 1 8 false false (mkVersion 0 0) 2 5 None) e) /\
  error_ (fr (snd (ProcessFrameData (mkHeader 1 8 false false (mkVersion 0 0) 2 5 None) e))) =
    QUIC_INVALID_ACK_DATA.
Proof.
  intros e. split; [|reflexivity].
  apply (process_frame_data_safe (mkHeader 1 8 false false (mkVersion 0 0) 2 5 None) e).
  - split; vm_compute; congruence.
  - reflexivity.
  - repeat constructor; vm_compute; congruence.
Defined.
