(* ===== verification/FramerIetfSafe.v ===== *)
(** * IETF frames of any bytes: the readers cope with them

    [rsafe explained]: with a visitor set and any bytes in the reader, a reader
    of [FramerIetf] returns, consumes a prefix of the input, leaves the rest of
    the framer alone, and when it fails says why. *)

From S2P Require Import Prelude QuicTime FramerTypes FramerNumbers FramerAppend FramerProcess FramerIetf.
From S2P Require Import FramerWire FramerCodec FramerStream FramerFrames FramerIetfFrames FramerSafe.
Open Scope Z_scope.

Section Fields.
Context `{T : QuicTypes} `{Q : PacketQueueOps} `{A : !AckOps} `{C : CryptoOps} `{F : QuicFunctions}
  `{R : ReaderOps} `{W : WriterOps} `{V : !VisitorOps} `{P : !ProducerOps}
  `{RV : !ReaderView} `{RO : !ReaderOk} `{TO : !QuicTypesOk T} `{FO : !QuicFunctionsOk F}.

Lemma rsafe_uint16 : rsafe (fun _ => True) (in_u 16) (rd_op ReadUInt16).
Proof. eapply rsafe_op; [apply ReadUInt16_ok|apply p_uint_ok]. Qed.

Lemma rsafe_varint : rsafe (fun _ => True) (in_u 62) (rd_op ReadVarInt62).
Proof. eapply rsafe_op; [apply ReadVarInt62_ok|intros; apply p_varint_range]. Qed.

Lemma rsafe_stream_id : rsafe (fun _ => True) (in_u 62) (rd_op ReadVarIntStreamId).
Proof.
  eapply rsafe_op; [apply ReadVarIntStreamId_ok|]. intros _ l a l' Hl. unfold p_stream_id.
  destruct (p_varint l) as [[v l1]|] eqn:E; [|done]. cbn. destruct (v <=? _); [|done]. intros [= <- <-].
  by eapply p_varint_range.
Qed.
End Fields.

#[export] Hint Resolve rsafe_uint16 rsafe_varint rsafe_stream_id : rsafe.

Section IetfSafe.
Context `{T : QuicTypes} `{Q : PacketQueueOps} `{A : !AckOps} `{C : CryptoOps} `{F : QuicFunctions}
  `{R : ReaderOps} `{W : WriterOps} `{V : !VisitorOps} `{P : !ProducerOps}
  `{RV : !ReaderView} `{RO : !ReaderOk} `{TO : !QuicTypesOk T} `{FO : !QuicFunctionsOk F}.

Lemma rsafe_ietf_stream t : rsafe explained anything (ProcessIetfStreamFrame t).
Proof.
  unfold ProcessIetfStreamFrame. rsafe_step. eapply (rsafe_bind _ anything); [|intros ??].
  { apply rsafe_if; [|by apply rsafe_ret]. eapply rsafe_mono; [eapply rsafe_or_detail; [done|apply rsafe_varint]|done..]. }
  eapply (rsafe_bind _ anything); [|intros ??; by repeat rsafe_step].
  apply rsafe_if; [|by repeat rsafe_step]. rsafe_step. rsafe_step; [by apply rsafe_explain|by apply rsafe_ret].
Qed.

Lemma rsafe_ietf_close t : rsafe explained anything (ProcessIetfCloseFrame t).
Proof. unfold ProcessIetfCloseFrame. by repeat rsafe_step. Qed.

Lemma rsafe_wrap {X} (g : X -> ietf_frame) m : rsafe explained anything m ->
  rsafe explained anything (m ≫= fun x => mret (g x)).
Proof. intros H. eapply rsafe_bind; [exact H|]. intros x _. by apply rsafe_ret. Qed.

(** *** The blocks of an ack: a round reads at least two bytes *)

(** The conclusion of [rsafe explained anything]. *)
Definition copes_at {X} (e : env) (o : res X * env) : Prop :=
  match o with
  | (Ok _, e') => quiet (fr e) (fr e') /\ tail_of e e'
  | (Fail, e') => keeps (fr e) (fr e') /\ tail_of e e' /\ explained (fr e')
  | (Stuck, _) => False
  end.

Lemma copes_at_trans {X} e e1 (o : res X * env) :
  quiet (fr e) (fr e1) -> tail_of e e1 -> copes_at e1 o -> copes_at e o.
Proof.
  intros Hq Ht. destruct o as [[a| |] e2]; cbn; [| |done].
  - intros [H1 H2]. split; [by unfold quiet in *; rewrite H1|by eapply tail_trans].
  - intros (H1 & H2 & H3). split; [|split; [by eapply tail_trans|done]].
    apply quiet_keeps in Hq. unfold keeps, quiet in *. by rewrite H1.
Qed.

(** A variable-length integer, then the rest on a shorter input. *)
Lemma copes_varint {X} msg (k : Z -> M env X) e : msg <> ""%string ->
  visitor_ (fr e) = true -> bytes_ok (remaining (rd e)) ->
  (forall a e1, visitor_ (fr e1) = true -> bytes_ok (remaining (rd e1)) ->
     zlen (remaining (rd e1)) < zlen (remaining (rd e)) -> copes_at e1 (k a e1)) ->
  copes_at e ((or_detail msg (rd_op ReadVarInt62) ≫= k) e).
Proof.
  intros Hm Hv Hb Hk. pose proof (rsafe_or_detail _ _ msg _ Hm rsafe_varint e Hv Hb) as H.
  pose proof (ReadVarInt62_ok (rd e)) as Hop. unfold mbind, M_bind.
  unfold or_detail, or_else, rd_op in *. destruct (p_varint _) as [[v l]|] eqn:E.
  - destruct Hop as (r' & Eo & Hr & _). rewrite Eo in *. destruct H as (Hq & Ht & _).
    apply (copes_at_trans e (put_rd r' e)); [done..|]. apply Hk; [done|by eapply tail_bytes|].
    cbn [rd put_rd]. rewrite Hr. by eapply p_varint_shorter.
  - destruct Hop as (r' & Eo & _). by rewrite Eo in *.
Qed.

Lemma ietf_ack_loop_copes fuel : forall count hi lo ack e, visitor_ (fr e) = true -> bytes_ok (remaining (rd e)) ->
  zlen (remaining (rd e)) < Z.of_nat fuel -> copes_at e (ietf_ack_loop fuel count hi lo ack e).
Proof.
  induction fuel as [|fuel IH]; intros count hi lo ack e Hv Hb Hf;
    pose proof (zlen_nonneg (remaining (rd e))); [lia|]. cbn [ietf_ack_loop].
  destruct (count =? 0); [split; [done|apply tail_refl]|].
  apply copes_varint; [done..|]. intros gap e1 Hv1 Hb1 Hl1.
  apply copes_varint; [done..|]. intros block e2 Hv2 Hb2 Hl2. apply IH; [done..|lia].
Qed.

Lemma rsafe_ietf_ack t ack : rsafe explained anything (ProcessIetfAckFrame t ack).
Proof.
  unfold ProcessIetfAckFrame. do 4 rsafe_step. intros e Hv Hb. unfold rd_get, mbind at 1, M_bind at 1.
  rewrite BytesRemaining_ok. cbv zeta. pose proof (zlen_nonneg (remaining (rd e))).
  match goal with |- match ?m e with _ => _ end => enough (copes_at e (m e)) as Hc end.
  - unfold copes_at in Hc. destruct (ietf_ack_loop _ _ _ _ _ e) as [[a3| |] e']; naive_solver.
  - apply ietf_ack_loop_copes; [done..|lia].
Qed.

(** The reader of any kind of IETF frame copes with any bytes: it returns,
    within the fuel of its loop; what it consumes is a prefix of the input; it
    changes nothing of the framer, and when it fails it sets the detailed
    message. *)
Theorem ietf_readers_cope t :
  (forall like, rsafe explained anything (process_ietf like t)) /\
  (forall ack, rsafe explained anything (ProcessIetfAckFrame t ack)).
Proof.
  split; [|intros; apply rsafe_ietf_ack].
  intros [s|c|c|c|c|c|r|s|w|w|m|b|w|s]; cbn [process_ietf]; apply rsafe_wrap.
  1: apply rsafe_ietf_stream.
  1, 2: apply rsafe_ietf_close.
  1: apply rsafe_padding.
  - unfold ProcessIetfPathChallengeFrame. by repeat rsafe_step.
  - unfold ProcessIetfPathResponseFrame. by repeat rsafe_step.
  - unfold ProcessIetfResetStreamFrame. by repeat rsafe_step.
  - unfold ProcessIetfStopSendingFrame. by repeat rsafe_step.
  - unfold ProcessIetfMaxDataFrame. by repeat rsafe_step.
  - unfold ProcessIetfMaxStreamDataFrame. by repeat rsafe_step.
  - unfold ProcessIetfMaxStreamIdFrame. by repeat rsafe_step.
  - unfold ProcessIetfBlockedFrame. by repeat rsafe_step.
  - unfold ProcessIetfStreamBlockedFrame. by repeat rsafe_step.
  - unfold ProcessIetfStreamIdBlockedFrame. by repeat rsafe_step.
Qed.
End IetfSafe.
