(* ===== verification/FramerPacketSafe.v ===== *)
(** * Any datagram: [ProcessPacket] copes with every sequence of bytes

    [goes m e Post Err]: run from [e], [m] is never stuck; when it succeeds
    [Post] holds of its result and the state it leaves, when it fails [Err]
    holds of the state.  The framer is [ready] for a datagram when it has a
    visitor and a decrypter, and [ProcessPacket] leaves it ready, whatever the
    bytes: it can be given any sequence of datagrams. *)

From S2P Require Import Prelude QuicTime FramerTypes FramerNumbers FramerAppend FramerProcess FramerPacket.
From S2P Require Import FramerWire FramerCodec FramerConcrete FramerStream FramerSafe.

(** Decrypted bytes are bytes; a visitor that is told of a version mismatch
    changes the framer's version at most. *)
Class PeersOk `{C : CryptoOps} `{T : QuicTypes} `{Q : PacketQueueOps} `{A : !AckOps} `(V : !VisitorOps) : Prop := {
  decrypted_bytes : forall v pn ad ct n d out d', bytes_ok ct ->
    DecryptPacket v pn ad ct n d = (Some out, d') -> bytes_ok out;
  mismatch_version : forall v f s b f' s', OnProtocolVersionMismatch v f s = (b, (f', s')) ->
    exists v', f' = put_version v' f;
}.

(** ** The predicate *)

Section Goes.
Context `{T : QuicTypes} `{Q : PacketQueueOps} `{A : !AckOps} `{C : CryptoOps} `{F : QuicFunctions}
  `{R : ReaderOps} `{W : WriterOps} `{V : !VisitorOps} `{RV : !ReaderView} `{RO : !ReaderOk}.

Definition goes {X} (m : M env X) (e : env) (Post : X -> env -> Prop) (Err : env -> Prop) : Prop :=
  match m e with
  | (Ok a, e') => Post a e'
  | (Fail, e') => Err e'
  | (Stuck, _) => False
  end.

Lemma goes_ret {X} (a : X) e (Post : X -> env -> Prop) Err : Post a e -> goes (mret a) e Post Err.
Proof. done. Qed.

Lemma goes_fail {X} e (Post : X -> env -> Prop) (Err : env -> Prop) : Err e -> goes mfail e Post Err.
Proof. done. Qed.

Lemma goes_explain {X} msg e (Post : X -> env -> Prop) (Err : env -> Prop) :
  Err (put_fr (put_detailed_error msg (fr e)) e) -> goes (set_detailed_error msg ;; mfail) e Post Err.
Proof. done. Qed.

Lemma goes_mod_fr g e (Post : unit -> env -> Prop) Err : Post tt (put_fr (g (fr e)) e) -> goes (mod_fr g) e Post Err.
Proof. done. Qed.

Lemma goes_gets {X} (g : MyQuicFramer -> X) e (Post : X -> env -> Prop) Err : Post (g (fr e)) e -> goes (gets g) e Post Err.
Proof. done. Qed.

Lemma goes_bind {X Y} (m : M env X) (k : X -> M env Y) e Post Err :
  goes m e (fun a e1 => goes (k a) e1 Post Err) Err -> goes (m ≫= k) e Post Err.
Proof. unfold goes, mbind, M_bind. by destruct (m e) as [[a| |] e1]. Qed.

Lemma goes_mono {X} (m : M env X) e (Post Post' : X -> env -> Prop) (Err Err' : env -> Prop) :
  goes m e Post Err -> (forall a e', Post a e' -> Post' a e') -> (forall e', Err e' -> Err' e') -> goes m e Post' Err'.
Proof. unfold goes. destruct (m e) as [[a| |] e1]; auto. Qed.

Lemma goes_or_else {X} (m h : M env X) e Post Err :
  goes m e Post (fun e1 => goes h e1 Post Err) -> goes (or_else m h) e Post Err.
Proof. unfold goes, or_else. by destruct (m e) as [[a| |] e1]. Qed.

Lemma goes_detail {X} (m : M env X) msg e (Post : X -> env -> Prop) (Err : env -> Prop) :
  goes m e Post (fun e1 => Err (put_fr (put_detailed_error msg (fr e1)) e1)) -> goes (or_detail msg m) e Post Err.
Proof. intros H. by apply goes_or_else. Qed.

Lemma goes_visit {X} (cb : Visitor -> X * Visitor) e (Post : X -> env -> Prop) Err : visitor_ (fr e) = true ->
  (forall a v, Post a (put_vs v e)) -> goes (visit cb) e Post Err.
Proof. intros Hv H. unfold goes, visit. rewrite Hv. destruct (cb (vs e)). apply H. Qed.

Lemma goes_notify cb e (Post : unit -> env -> Prop) Err : visitor_ (fr e) = true ->
  (forall v, Post tt (put_vs v e)) -> goes (notify cb) e Post Err.
Proof. intros Hv H. apply goes_visit; [done|]. intros []. apply H. Qed.

Lemma goes_raise {X} err e (Post : X -> env -> Prop) (Err : env -> Prop) : visitor_ (fr e) = true ->
  (forall v, Err (put_vs v (put_fr (put_error err (fr e)) e))) -> goes (RaiseError err) e Post Err.
Proof.
  intros Hv H. unfold RaiseError. apply goes_bind, goes_ret, goes_bind, goes_ret, goes_bind.
  by apply goes_notify.
Qed.

Lemma p_bytes_len n l a l' : p_bytes n l = Some (a, l') -> zlen a = n.
Proof.
  unfold p_bytes. destruct (_ && _) eqn:E; [|done].
  apply andb_true_iff in E as [E1%Z.leb_le E2%Z.leb_le]. intros [= <- <-]. by rewrite zlen_ztake.
Qed.

(** [p] consumes [n] bytes. *)
Definition eats {X} (n : Z) (p : list Z -> option (X * list Z)) : Prop :=
  forall l a l', p l = Some (a, l') -> exists bs, l = bs ++ l' /\ zlen bs = n.

Lemma eats_bytes n : eats n (p_bytes n).
Proof.
  intros l a l'. unfold p_bytes. destruct (_ && _) eqn:E; [|done].
  apply andb_true_iff in E as [E1%Z.leb_le E2%Z.leb_le]. intros [= <- <-].
  exists (ztake n l). rewrite ztake_drop, zlen_ztake by lia. done.
Qed.

Lemma eats_uint n en : eats (Z.of_nat n) (p_uint n en).
Proof.
  intros l a l'. unfold p_uint. destruct (p_bytes _ l) as [[bs l1]|] eqn:E; [|done].
  apply eats_bytes in E. cbn. by intros [= _ <-].
Qed.

Lemma goes_op {X} op p e (Post : X -> env -> Prop) (Err : env -> Prop) : reads op p ->
  (forall a r', p (rendian (rd e)) (remaining (rd e)) = Some (a, remaining r') -> Post a (put_rd r' e)) ->
  (forall r', Err (put_rd r' e)) -> goes (rd_op op) e Post Err.
Proof.
  intros H H1 H2. specialize (H (rd e)). unfold goes, rd_op.
  destruct (p _ _) as [[a l]|].
  - destruct H as (r' & -> & <- & _). by apply H1.
  - destruct H as (r' & -> & _). apply H2.
Qed.
End Goes.

Section PacketSafe.
Context `{T : QuicTypes} `{Q : PacketQueueOps} `{A : !AckOps} `{C : CryptoOps} `{F : QuicFunctions}
  `{R : ReaderOps} `{W : WriterOps} `{V : !VisitorOps} `{RV : !ReaderView} `{RO : !ReaderOk}
  `{TO : !QuicTypesOk T} `{FO : !QuicFunctionsOk F} `{VO : !PeersOk V}.

Implicit Types (f : MyQuicFramer) (e : env) (header : QuicPacketHeader).

(** ** Ready framers *)

Record ready (p : Perspective) f : Prop := {
  ready_visitor : visitor_ f = true;
  ready_perspective : perspective_ f = p;
  ready_decrypter : is_Some (decrypter_ f);
  ready_nonce : zlen (last_nonce_ f) = 32;
}.

Definition stop_message : string := "Visitor asked to stop processing of unauthenticated header.".

(** Why a datagram was refused: an error, or the visitor's word. *)
Definition refused f : Prop := error_ f <> QUIC_NO_ERROR \/ detailed_error_ f = stop_message.

Context (p : Perspective) (packet : list Z) (w0 : QuicDataWriter) (Hpacket : bytes_ok packet).

(** [k] bytes of the datagram are read. *)
Definition at_byte (k : Z) e : Prop :=
  ready p (fr e) /\ wr e = w0 /\ exists bs, packet = bs ++ remaining (rd e) /\ zlen bs = k.

(** The framer can go on; it refused the datagram. *)
Definition goes_on e : Prop := ready p (fr e) /\ wr e = w0.
Definition gave_up e : Prop := goes_on e /\ refused (fr e).

Lemma at_byte_on k e : at_byte k e -> goes_on e.
Proof. intros (H1 & H2 & _). done. Qed.

(** Changes that leave a framer ready. *)
Lemma ready_eq f f' : ready p f -> visitor_ f' = visitor_ f -> perspective_ f' = perspective_ f ->
  decrypter_ f' = decrypter_ f -> last_nonce_ f' = last_nonce_ f -> ready p f'.
Proof. intros [H1 H2 H3 H4] E1 E2 E3 E4. constructor; by rewrite ?E1, ?E2, ?E3, ?E4. Qed.

Lemma at_byte_fr k f e : at_byte k e -> ready p f -> at_byte k (put_fr f e).
Proof. by intros (H1 & H2 & H3) ?. Qed.

Lemma at_byte_vs k v e : at_byte k e -> at_byte k (put_vs v e).
Proof. done. Qed.

(** A message, an error. *)
Lemma goes_on_detail msg e : goes_on e -> goes_on (put_fr (put_detailed_error msg (fr e)) e).
Proof. intros [H1 H2]. split; [|done]. by eapply ready_eq. Qed.

(** A read of [n] bytes. *)
Lemma goes_read {X} n k op q msg e (Post : X -> env -> Prop) (Err : env -> Prop) :
  at_byte k e -> reads op q -> (forall en, eats n (q en)) ->
  (forall a e' en l l', at_byte (k + n) e' -> fr e' = fr e -> q en l = Some (a, l') -> Post a e') ->
  (forall e', goes_on e' -> Err e') -> goes (or_detail msg (rd_op op)) e Post Err.
Proof.
  intros He Hop Hn H Herr. apply goes_detail, (goes_op _ q); [done| |].
  - intros a r' E. eapply H; [|done|exact E]. destruct (Hn _ _ _ _ E) as (b2 & E2 & L2).
    destruct He as (H1 & H2 & b1 & E1 & L1). split; [done|]. split; [done|].
    exists (b1 ++ b2). cbn [rd put_rd]. by rewrite E1, E2, zlen_app, L1, L2, app_assoc.
  - intros r'. apply Herr, (goes_on_detail _ (put_rd r' e)). by apply at_byte_on in He.
Qed.

Lemma goes_raise_on {X} err e (Post : X -> env -> Prop) : err <> QUIC_NO_ERROR -> goes_on e ->
  goes (RaiseError err) e Post gave_up.
Proof.
  intros He [H1 H2]. apply goes_raise; [apply H1|]. intros v.
  split; [|by left]. split; [by eapply ready_eq|done].
Qed.

Lemma goes_error {X} err msg e (Post : X -> env -> Prop) : err <> QUIC_NO_ERROR -> goes_on e ->
  goes (set_detailed_error msg ;; RaiseError err) e Post gave_up.
Proof. intros He H. apply goes_bind, goes_ret, goes_raise_on; [done|]. by apply goes_on_detail. Qed.

(** ** The public header *)

Lemma land_8 x : Z.land x 8 = 0 \/ Z.land x 8 = 8.
Proof.
  destruct (Z.testbit x 3) eqn:E; [right|left]; apply Z.bits_inj'; intros n Hn; rewrite Z.land_spec;
    change 8 with (2 ^ 3); rewrite ?Z.bits_0, Z.pow2_bits_eqb by lia; destruct (Z.eqb_spec 3 n) as [<-|];
    by rewrite ?E, ?andb_false_r.
Qed.

Lemma sequence_length_bounds x : 1 <= ReadSequenceNumberLength x <= 6.
Proof. unfold ReadSequenceNumberLength. autorewrite with quic. cbv zeta. repeat case_match; lia. Qed.

(** The bytes the header took. *)
Definition public_length header : Z :=
  1 + connection_id_length header + (if version_flag header then 4 else 0) +
  (if bool_decide (is_Some (nonce header)) then 32 else 0).

(** What the reader of the public header promises.  A client does not read the
    versions, which end the datagram. *)
Definition header_read header e : Prop :=
  1 <= packet_number_length header <= 6 /\ 0 <= connection_id_length header /\ (exists k, at_byte k e) /\
  (p = IS_SERVER \/ version_flag header = false -> at_byte (public_length header) e).

Lemma goes_cid k flags f e (Post : Z * Z -> env -> Prop) (Err : env -> Prop) : at_byte k e ->
  (forall id len e', 0 <= len -> at_byte (k + len) e' -> Post (id, len) e') -> (forall e', goes_on e' -> Err e') ->
  goes (let cid_bits := Z.land flags PACKET_PUBLIC_FLAGS_8BYTE_CONNECTION_ID in
        if cid_bits =? PACKET_PUBLIC_FLAGS_8BYTE_CONNECTION_ID then
          id ← or_detail "Unable to read ConnectionId." (rd_op ReadConnectionId);
          mret (id, PACKET_8BYTE_CONNECTION_ID)
        else if cid_bits =? PACKET_PUBLIC_FLAGS_0BYTE_CONNECTION_ID then
          mret (last_serialized_connection_id_ f, PACKET_0BYTE_CONNECTION_ID)
        else mret (0, PACKET_8BYTE_CONNECTION_ID)) e Post Err.
Proof.
  intros He H Herr. autorewrite with quic. cbv zeta. destruct (land_8 flags) as [-> | ->]; cbn [Z.eqb Pos.eqb].
  - apply goes_ret, H; [done|]. by rewrite Z.add_0_r.
  - apply goes_bind, (goes_read 8 k _ (fun _ => p_uint 8 NETWORK_BYTE_ORDER));
      [done|apply ReadConnectionId_ok|intros _; apply (eats_uint 8)| |done].
    intros id e' _ l l' He' _ _. by apply goes_ret, H.
Qed.

(** A guard: [if (b) { set_detailed_error(msg); return false; }] *)
Lemma goes_guard (b : bool) msg e (Post : unit -> env -> Prop) : goes_on e -> Post tt e ->
  goes (if b then set_detailed_error msg ;; mfail else mret tt) e Post goes_on.
Proof.
  intros He H. destruct b; [|done]. by apply goes_explain, goes_on_detail.
Qed.

Lemma goes_version k vflag flags f e (Post : ParsedQuicVersion -> env -> Prop) : at_byte k e -> perspective_ f = p ->
  (forall v e', at_byte (k + if vflag && bool_decide (p = IS_SERVER) then 4 else 0) e' -> Post v e') ->
  goes (if vflag && bool_decide (perspective_ f = IS_SERVER) then
          label ← or_detail "Unable to read protocol version." (rd_op ReadTag);
          let label := NetToHost32 label in
          mod_fr (put_last_version_label label) ;;
          let version := ParseQuicVersionLabel label in
          if bool_decide (version = version_ f) && (PACKET_PUBLIC_FLAGS_MAX <? flags)
          then set_detailed_error illegal_flags ;; mfail else mret version
        else mret (mkVersion PROTOCOL_UNSUPPORTED QUIC_VERSION_UNSUPPORTED)) e Post goes_on.
Proof.
  intros He -> H. destruct (vflag && _); [|apply goes_ret, H; by rewrite Z.add_0_r].
  apply goes_bind, (goes_read 4 k _ (fun _ => p_uint 4 HOST_BYTE_ORDER));
    [done|apply ReadTag_ok|intros _; apply (eats_uint 4)| |done].
  intros label e' _ l l' He' _ _. cbv zeta. apply goes_bind, goes_mod_fr.
  assert (at_byte (k + 4) (put_fr (put_last_version_label (NetToHost32 label) (fr e')) e')) as He2.
  { apply at_byte_fr; [done|]. destruct He' as [He' _]. by eapply ready_eq. }
  destruct (_ && _); [|by apply goes_ret, H]. apply goes_explain, goes_on_detail.
  by apply at_byte_on in He2.
Qed.

Lemma goes_nonce k (b : bool) f e (Post : option (list Z) -> env -> Prop) : at_byte k e -> zlen (last_nonce_ f) = 32 ->
  (forall n e', at_byte (k + if bool_decide (is_Some n) then 32 else 0) e' -> Post n e') ->
  goes (if b then n ← or_detail "Unable to read nonce." (rd_op (ReadBytes (zlen (last_nonce_ f))));
                  mod_fr (put_last_nonce n) ;;
                  mret (Some n)
        else mret None) e Post goes_on.
Proof.
  intros He Hn H. destruct b; [|apply goes_ret, H; by rewrite bool_decide_false, Z.add_0_r by (by intros [])].
  rewrite Hn. apply goes_bind, (goes_read 32 k _ (fun _ => p_bytes 32));
    [done|apply ReadBytes_ok|intros _; apply eats_bytes| |done].
  intros n e' _ l l' He' _ E. apply goes_bind, goes_mod_fr, goes_ret, H. rewrite bool_decide_true by done.
  apply at_byte_fr; [done|]. destruct He' as [[H1 H2 H3 _] _]. constructor; [done..|].
  by apply p_bytes_len in E.
Qed.

Lemma public_header_read e : at_byte 0 e -> goes ProcessPublicHeader e header_read goes_on.
Proof.
  intros He. unfold ProcessPublicHeader. apply goes_bind, (goes_read 1 0 _ (fun _ => p_bytes 1));
    [done|apply ReadBytes_ok|intros _; apply eats_bytes| |done].
  intros bs e1 _ l l' He1 _ _. clear e He. cbv zeta. set (flags := bs !!! 0%nat). clearbody flags. clear bs l l'.
  apply goes_bind, goes_gets. unfold id. set (f := fr e1).
  assert (goes_on e1) as Hon by (by apply at_byte_on in He1).
  assert (perspective_ f = p /\ zlen (last_nonce_ f) = 32) as [Hp Hnonce] by (destruct Hon as [[] _]; done).
  apply goes_bind, goes_guard; [done|]. apply goes_bind, goes_guard; [done|].
  clearbody f. clear Hon. apply goes_bind, (goes_cid (0 + 1)); [done| |done]. clear e1 He1. intros id len e Hlen He.
  apply goes_bind, (goes_version (0 + 1 + len)); [done..|]. clear e He. intros version e He.
  apply goes_bind, (goes_nonce _ _ _ _ _ He Hnonce). clear e He. intros n e He.
  apply goes_ret. split; [apply sequence_length_bounds|]. cbn [connection_id_length fst snd]. split; [done|].
  split; [by eexists|]. intros Hs. unfold public_length. cbn [connection_id_length version_flag nonce fst snd].
  revert He. set (vflag := has_bits _ _) in *. cbn in Hs. fold vflag in Hs.
  destruct Hs as [Hs| ->]; [|done]. by rewrite (bool_decide_true _ Hs), andb_true_r.
Qed.

(** ** Version negotiation and public reset *)

(** The list of versions ends: every round reads four bytes. *)
Lemma goes_versions fuel : forall acc k e, at_byte k e -> zlen (remaining (rd e)) <= Z.of_nat fuel ->
  goes (read_versions fuel acc) e (fun _ e' => goes_on e') gave_up.
Proof.
  induction fuel as [|fuel IH]; intros acc k e He Hf; cbn [read_versions];
    apply goes_bind, goes_or_else, (goes_op _ (fun _ => p_uint 4 HOST_BYTE_ORDER));
    try apply ReadTag_ok.
  2, 4: intros r; apply goes_error; [is_error|by apply at_byte_on in He].
  all: intros label r E; apply (eats_uint 4) in E as (bs & E & L);
    pose proof (zlen_nonneg (remaining r)) as H0; rewrite E, zlen_app, L in Hf; try lia.
  cbv zeta. apply goes_bind. unfold goes at 1, rd_get. destruct (IsDoneReading _).
  - apply goes_ret. apply at_byte_on in He. done.
  - apply (IH _ (k + 4)); [|cbn [rd put_rd]; lia]. destruct He as (H1 & H2 & b1 & E1 & L1).
    split; [done|]. split; [done|]. exists (b1 ++ bs). cbn [rd put_rd]. by rewrite E1, E, zlen_app, L, L1, app_assoc.
Qed.

Lemma goes_version_negotiation header k e : at_byte k e ->
  goes (ProcessVersionNegotiationPacket header) e (fun _ e' => goes_on e') gave_up.
Proof.
  intros He. unfold ProcessVersionNegotiationPacket. apply goes_bind. unfold goes at 1, rd_get. rewrite BytesRemaining_ok.
  apply goes_bind. eapply goes_mono; [apply (goes_versions _ [] k e He)| |done].
  - pose proof (zlen_nonneg (remaining (rd e))). lia.
  - intros vs e' Hon. apply goes_notify; [apply Hon|done].
Qed.

Lemma goes_remaining e (Post : list Z -> env -> Prop) Err :
  (forall r, Post (remaining (rd e)) (put_rd r e)) -> goes read_remaining e Post Err.
Proof. intros H. unfold goes, read_remaining. destruct (ReadRemainingPayload_ok (rd e)) as (r & -> & _). apply H. Qed.

Lemma goes_public_reset header e : goes_on e -> goes (ProcessPublicResetPacket header) e (fun _ e' => goes_on e') gave_up.
Proof.
  intros He. unfold ProcessPublicResetPacket. apply goes_bind, goes_remaining. intros r.
  apply goes_bind, goes_gets. assert (goes_on (put_rd r e)) as Hr by exact He.
  assert (forall msg, goes (reset_error (X := unit) msg) (put_rd r e) (fun _ e' => goes_on e') gave_up) as Hreset
    by (intros; apply goes_error; [is_error|done]).
  destruct (ParseMessage _ _) as [reset|]; [|apply Hreset]. destruct (negb _); [apply Hreset|].
  destruct (GetUint64 _ _); [|apply Hreset]. apply goes_notify; [apply Hr|done].
Qed.

(** ** Data packets *)

Lemma goes_unauthenticated header k e : at_byte k e -> 1 <= packet_number_length header <= 6 ->
  goes (ProcessUnauthenticatedHeader header) e
    (fun h e' => at_byte (k + packet_number_length header) e' /\ exists pn, h = with_packet_number header pn) gave_up.
Proof.
  intros He Hl. unfold ProcessUnauthenticatedHeader. apply goes_bind, goes_gets, goes_bind, goes_or_else, goes_bind,
    (goes_op _ (p_uint (Z.to_nat (packet_number_length header)))).
  - apply ReadBytesToUInt64_ok. lia.
  - intros wire r E. apply goes_ret. set (pn := CalculatePacketNumberFromWire _ _ _). clearbody pn.
    assert (at_byte (k + packet_number_length header) (put_rd r e)) as Hr.
    { apply eats_uint in E as (b2 & E2 & L2). rewrite Z2Nat.id in L2 by lia. destruct He as (H1 & H2 & b1 & E1 & L1).
      split; [done|]. split; [done|]. exists (b1 ++ b2). cbn [rd put_rd]. by rewrite E1, E2, zlen_app, L1, L2, app_assoc. }
    cbv zeta. apply goes_bind. destruct (pn =? 0); [apply goes_error; [is_error|by apply at_byte_on in Hr]|].
    apply goes_ret. apply goes_bind, goes_visit; [apply Hr|]. intros b v. destruct b.
    + apply goes_ret. split; [exact Hr|]. by eexists.
    + apply goes_explain. split; [|by right]. apply (goes_on_detail _ (put_vs v (put_rd r e))). by apply at_byte_on in Hr.
  - intros r. apply goes_error; [is_error|by apply at_byte_on in He].
Qed.

(** A decrypter that was run. *)
Lemma run_decrypter_goes version header ad encrypted n e : goes_on e -> bytes_ok encrypted ->
  goes (run_decrypter version header ad encrypted n) e
    (fun r e' => goes_on e' /\ alternative_decrypter_ (fr e') = alternative_decrypter_ (fr e) /\
       (forall out, r = Some out -> bytes_ok out)) gave_up.
Proof.
  intros [[H1 H2 [d Hd] H4] Hw] Hb. unfold run_decrypter. apply goes_bind, goes_gets. unfold id. rewrite Hd.
  destruct (DecryptPacket _ _ _ _ _ d) as [r d'] eqn:E. apply goes_bind, goes_mod_fr, goes_ret.
  split; [split; [by constructor|done]|]. split; [done|]. intros out ->. by eapply decrypted_bytes.
Qed.

Lemma run_alternative_goes version header ad encrypted n e : goes_on e -> bytes_ok encrypted ->
  is_Some (alternative_decrypter_ (fr e)) ->
  goes (run_alternative_decrypter version header ad encrypted n) e
    (fun r e' => goes_on e' /\ is_Some (alternative_decrypter_ (fr e')) /\
       (forall out, r = Some out -> bytes_ok out)) gave_up.
Proof.
  intros [[H1 H2 H3 H4] Hw] Hb [d Hd]. unfold run_alternative_decrypter. apply goes_bind, goes_gets. unfold id. rewrite Hd.
  destruct (DecryptPacket _ _ _ _ _ d) as [r d'] eqn:E. apply goes_bind, goes_mod_fr, goes_ret.
  split; [split; [by constructor|done]|]. split; [done|]. intros out ->. by eapply decrypted_bytes.
Qed.

Lemma latch_or_swap_ready f : ready p f -> is_Some (alternative_decrypter_ f) -> ready p (latch_or_swap f).
Proof. intros [H1 H2 H3 H4] H. unfold latch_or_swap. destruct (alternative_decrypter_latch_ f); by constructor. Qed.

(** The associated data is the header that was read. *)
Lemma associated_data version header k e : at_byte k e -> k = public_length header + packet_number_length header ->
  exists ad, GetAssociatedDataFromEncryptedPacket version packet (connection_id_length header) (version_flag header)
    (bool_decide (is_Some (nonce header))) (packet_number_length header) = Some ad.
Proof.
  intros (_ & _ & bs & -> & L) Hk. unfold GetAssociatedDataFromEncryptedPacket. rewrite GetStartOfEncryptedData_eq.
  eexists. eapply (load_ok [] bs (remaining (rd e))); [done|]. rewrite L, Hk. unfold public_length. lia.
Qed.

Lemma goes_decrypt header n k e : at_byte k e -> k = public_length header + packet_number_length header ->
  goes (DecryptPayload header packet n) e (fun out e' => goes_on e' /\ bytes_ok out) goes_on.
Proof.
  intros He Hk. unfold DecryptPayload. apply goes_bind, goes_remaining. intros r.
  apply goes_bind, goes_gets. unfold id. set (f := fr (put_rd r e)). cbv zeta.
  destruct (associated_data (transport_version (version_ f)) header k e He Hk) as [ad ->].
  assert (bytes_ok (remaining (rd e))) as Hb.
  { destruct He as (_ & _ & bs & E & _). rewrite E in Hpacket. by apply Forall_app in Hpacket as [_ ?]. }
  assert (goes_on (put_rd r e)) as Hon by (apply at_byte_on in He; done).
  apply goes_bind. eapply goes_mono; [by apply run_decrypter_goes| |by intros ? []].
  intros [out|] e1 (H1 & Ha & Hout).
  { apply goes_bind, goes_gets, goes_bind, goes_notify; [apply H1|]. intros v. apply goes_ret. split; [done|by apply Hout]. }
  fold f in Ha. destruct (alternative_decrypter_ f) as [d|] eqn:Ed; [|by apply goes_fail].
  apply goes_bind. apply (goes_mono _ _ (fun _ e' => goes_on e' /\ is_Some (alternative_decrypter_ (fr e'))) _ goes_on _);
    [|clear e1 H1 Ha Hout; intros _ e1 [H1 Ha]|done].
  { destruct (nonce header); [apply goes_mod_fr|apply goes_ret; rewrite Ha; by split].
    split; [|done]. destruct H1 as [H1 Hw]. split; [by eapply ready_eq|done]. }
  cbv zeta. apply goes_bind. eapply (goes_mono _ _ (fun r e' => goes_on e' /\ is_Some (alternative_decrypter_ (fr e')) /\
    (forall out, r = Some out -> bytes_ok out)) _ gave_up _); [|clear e1 H1 Ha|by intros ? []].
  { match goal with |- goes (if ?b then _ else _) _ _ _ => destruct b end; [by apply run_alternative_goes|by apply goes_ret]. }
  intros [out|] e1 (H1 & Ha & Hout); [|by apply goes_fail].
  apply goes_bind, goes_gets, goes_bind, goes_notify; [apply H1|]. intros v. apply goes_bind, goes_mod_fr, goes_ret.
  split; [|by apply Hout]. split; [by apply latch_or_swap_ready; [apply H1|]|apply H1].
Qed.

(** [ProcessFrameData] leaves the framer ready. *)
Lemma goes_frame_data header e : goes_on e -> bytes_ok (remaining (rd e)) -> 0 <= packet_number_length header <= 8 ->
  goes (ProcessFrameData header) e (fun _ e' => goes_on e') gave_up.
Proof.
  intros [H1 Hw] Hb Hl. pose proof (process_frame_data_copes header e Hl (ready_visitor _ _ H1) Hb) as H.
  unfold goes, copes in *. destruct (ProcessFrameData header e) as [[[]| |] e']; [| |done].
  - destruct H as (Hq & _ & Hw'). split; [|by rewrite Hw'].
    eapply ready_eq; [exact H1|exact (f_equal visitor_ Hq)|exact (f_equal perspective_ Hq)|
      exact (f_equal decrypter_ Hq)|exact (f_equal last_nonce_ Hq)].
  - destruct H as (Hq & [_ Hw'] & _ & Hr). split; [|by left]. split; [|by rewrite Hw'].
    eapply ready_eq; [exact H1|exact (f_equal visitor_ Hq)|exact (f_equal perspective_ Hq)|
      exact (f_equal decrypter_ Hq)|exact (f_equal last_nonce_ Hq)].
Qed.

Lemma goes_data_packet header n e : at_byte (public_length header) e -> 1 <= packet_number_length header <= 6 ->
  goes (ProcessDataPacket header packet n) e (fun _ e' => goes_on e') gave_up.
Proof.
  intros He Hl. unfold ProcessDataPacket. apply goes_bind. eapply goes_mono; [by apply goes_unauthenticated| |done].
  clear e He. intros h e [He [pn ->]]. apply goes_bind, goes_or_else.
  eapply goes_mono; [by eapply goes_decrypt| |intros e'; apply goes_error; is_error].
  clear e He. intros out e [Hon Hout]. apply goes_bind, goes_gets, goes_bind. unfold goes at 1.
  set (e1 := put_rd _ e). assert (goes_on e1) as Hon1 by exact Hon.
  assert (bytes_ok (remaining (rd e1))) as Hb1 by (unfold e1; cbn [rd put_rd]; by rewrite new_reader_remaining).
  clearbody e1. clear e Hon. apply goes_bind, goes_mod_fr. set (e2 := put_fr _ e1).
  assert (goes_on e2) as Hon2 by (destruct Hon1 as [H1 Hw]; split; [by eapply ready_eq|done]).
  assert (bytes_ok (remaining (rd e2))) as Hb2 by exact Hb1. clearbody e2. clear e1 Hon1 Hb1.
  apply goes_bind, goes_visit; [apply Hon2|]. intros b v. destruct b; [|by apply goes_ret]. cbn [negb].
  destruct (kMaxPacketSize <? zlen packet); [apply goes_raise_on; [is_error|done]|].
  apply goes_bind. eapply goes_mono; [apply goes_frame_data; [done|done|cbn; lia]| |done].
  intros ? e3 Hon3. apply goes_notify; [apply Hon3|done].
Qed.

(** ** The datagram *)

Lemma goes_packet e : goes_on e -> goes (ProcessPacket packet) e (fun _ e' => goes_on e') gave_up.
Proof.
  intros Hon. unfold ProcessPacket. apply goes_bind, goes_gets, goes_bind. unfold goes at 1.
  set (e1 := put_rd _ e). assert (at_byte 0 e1) as H1.
  { destruct Hon as [H1 Hw]. split; [done|]. split; [done|]. exists []. unfold e1. cbn [rd put_rd].
    by rewrite new_reader_remaining. }
  clearbody e1. clear e Hon. apply goes_bind, goes_mod_fr, goes_bind, goes_notify; [apply H1|]. intros v.
  set (e2 := put_vs v _). assert (at_byte 0 e2) as H2.
  { apply at_byte_vs, at_byte_fr; [done|]. destruct H1 as [H1 _]. by eapply ready_eq. }
  clearbody e2. clear e1 H1 v. apply goes_bind. apply goes_or_else.
  eapply goes_mono; [by apply public_header_read| |intros e'; apply goes_raise_on; is_error].
  clear e2 H2. intros header e (Hpn & Hcid & [k Hk] & Hat).
  apply goes_bind, goes_visit; [apply Hk|]. intros b v. destruct b; [|by apply goes_ret; apply at_byte_on in Hk].
  cbn [negb]. apply goes_bind, goes_gets, goes_bind. unfold id.
  apply (goes_mono _ _ (fun _ e' => (exists k, at_byte k e') /\
    (p = IS_SERVER \/ version_flag header = false -> at_byte (public_length header) e')) _ gave_up _); [| |done].
  { set (e1 := put_vs v e). assert ((exists k, at_byte k e1) /\
      (p = IS_SERVER \/ version_flag header = false -> at_byte (public_length header) e1)) as [Hk1 Hat1]
      by (split; [by exists k|exact Hat]). clearbody e1. clear e k Hk Hat v.
    destruct (_ && _ && _); [|by apply goes_ret]. unfold goes, version_mismatch. destruct Hk1 as [k Hk].
    rewrite (ready_visitor _ _ (proj1 Hk)). destruct (OnProtocolVersionMismatch _ _ _) as [b [f' v]] eqn:E.
    apply mismatch_version in E as [v' ->].
    assert (forall k, at_byte k e1 -> at_byte k (put_fr (put_version v' (fr e1)) (put_vs v e1))) as Hput.
    { intros k' Hk'. apply at_byte_fr; [done|]. destruct Hk' as [Hk' _]. by eapply ready_eq. }
    split; [exists k; by apply Hput|]. intros Hs. by apply Hput, Hat1. }
  clear e k Hk Hat v. intros go e [[k Hk] Hat]. destruct go; [|by apply goes_ret; apply at_byte_on in Hk].
  cbn [negb]. apply goes_bind, goes_gets, goes_bind. unfold goes at 1, id. set (e1 := put_rd _ e).
  assert (forall k, at_byte k e -> at_byte k e1) as He1.
  { intros k' (H1 & H2 & bs & E & L). split; [done|]. split; [done|]. exists bs. unfold e1. cbn [rd put_rd].
    by rewrite set_endianness_remaining. }
  apply He1 in Hk. assert (goes_on e1) as Hon by (by apply at_byte_on in Hk).
  assert (perspective_ (fr e) = p) as -> by apply Hon.
  destruct (bool_decide (p = IS_CLIENT) && version_flag header) eqn:Eneg; [by eapply goes_version_negotiation|].
  destruct (reset_flag header); [by apply goes_public_reset|].
  assert (at_byte (public_length header) e1) as Hd.
  { apply He1, Hat. apply andb_false_iff in Eneg as [E%bool_decide_eq_false|E]; [left; by destruct p|by right]. }
  destruct (zlen packet <=? kMaxPacketSize); by apply goes_data_packet.
Qed.

End PacketSafe.

(** ** Sequences of datagrams *)

Section Datagrams.
Context `{T : QuicTypes} `{Q : PacketQueueOps} `{A : !AckOps} `{C : CryptoOps} `{F : QuicFunctions}
  `{R : ReaderOps} `{W : WriterOps} `{V : !VisitorOps} `{RV : !ReaderView} `{RO : !ReaderOk}
  `{TO : !QuicTypesOk T} `{FO : !QuicFunctionsOk F} `{VO : !PeersOk V}.

(** The framer gets one datagram after the other, whatever it says of each; it
    is never stuck, stays ready and says why it refuses one. *)
Fixpoint survives (p : Perspective) (datagrams : list (list Z)) (e : env) : Prop :=
  match datagrams with
  | [] => True
  | packet :: datagrams =>
      match ProcessPacket packet e with
      | (Ok _, e') => ready p (fr e') /\ wr e' = wr e /\ survives p datagrams e'
      | (Fail, e') => ready p (fr e') /\ wr e' = wr e /\ refused (fr e') /\ survives p datagrams e'
      | (Stuck, _) => False
      end
  end.

Lemma new_framer_ready versions now p f : new_framer versions now p = Some f -> ready p (put_visitor true f).
Proof.
  unfold new_framer. destruct versions; [done|]. intros [= <-]. constructor; [done..|]. cbn [last_nonce_ put_visitor].
  unfold zlen. rewrite length_replicate. pose proof size_values as (_ & _ & _ & -> & _). done.
Qed.

(** C3: The framer copes with every sequence of datagrams, of any bytes.  A
    new framer that was given its visitor is ready; a ready framer never reads
    outside a datagram, never runs its loops out of fuel and never calls a
    decrypter or a visitor it does not have; after each datagram it is ready
    for the next one and has written nothing, and when it returned false its
    error is set or the visitor asked to stop. *)
Theorem datagrams_survived p :
  (forall versions now f, new_framer versions now p = Some f -> ready p (put_visitor true f)) /\
  (forall datagrams e, ready p (fr e) -> Forall bytes_ok datagrams -> survives p datagrams e).
Proof.
  split; [by intros ???; apply new_framer_ready|].
  induction datagrams as [|packet datagrams IH]; intros e Hr Hb; [done|].
  apply Forall_cons in Hb as [Hp Hb]. cbn [survives].
  pose proof (goes_packet p packet (wr e) Hp e (conj Hr eq_refl)) as H. unfold goes in H.
  destruct (ProcessPacket packet e) as [[a| |] e']; [| |done].
  - destruct H as [H1 Hw]. split_and!; auto.
  - destruct H as [[H1 Hw] Hx]. split_and!; auto.
Qed.
End Datagrams.

(** ** Witness *)

#[export] Instance log_peers_ok : PeersOk log_visitor.
Proof.
  constructor.
  - intros v pn ad ct n d out d' Hct. cbn. destruct (_ <=? _); [|done]. unfold open_sealed.
    destruct (rev ct) as [|c l] eqn:E; [done|]. destruct (_ =? _); [|done]. intros [= <- _].
    apply (f_equal (@rev Z)) in E. rewrite rev_involutive in E. rewrite E in Hct. cbn in Hct.
    by apply Forall_app in Hct as [? _].
  - intros v f s b f' s'. cbn. intros [= _ <- _]. by eexists.
Qed.

(** Nothing, a header cut short, a stray reset, a packet that does not decrypt,
    one that claims another version. *)
Definition demo_datagrams : list (list Z) :=
  [ []; [9; 1; 2]; 2 :: replicate 12 7; 8 :: replicate 20 1; 9 :: replicate 30 77 ].

Lemma datagrams_survived_witness :
  survives IS_SERVER demo_datagrams (demo_env (demo_framer IS_SERVER 41) [] NETWORK_BYTE_ORDER).
Proof.
  apply (datagrams_survived IS_SERVER).
  - constructor; [done|done|by eexists|done].
  - repeat constructor; vm_compute; congruence.
Defined.
