(* ===== verification/FramerAck.v ===== *)
(** * Ack frames: the acknowledged packets survive the wire

    An ack's intervals are sent as a first block and a list of (gap, length)
    blocks, a gap longer than 255 taking blocks of length 0. *)

From S2P Require Import Prelude QuicTime FramerTypes FramerNumbers FramerAppend FramerProcess FramerPacket.
From S2P Require Import FramerWire FramerCodec FramerConcrete FramerStream FramerFrames FramerData.
From S2P Require Import FramerHeader FramerPackets.

(** ** Blocks and ranges *)

Definition gaps (gap : Z) : Z := (gap + 254) / 255.

(** The blocks of the intervals [l], which end below [prev]. *)
Fixpoint blocks_of (prev : Z) (l : list (Z * Z)) : list (Z * Z) :=
  match l with
  | [] => []
  | (lo, hi) :: l =>
      let g := prev - hi in
      replicate (Z.to_nat (gaps g - 1)) (255, 0) ++ (g - (gaps g - 1) * 255, hi - lo) :: blocks_of lo l
  end.

(** The ranges a receiver reads off the blocks that follow [first]; [n]: how
    many blocks are left.  An empty block is no range. *)
Fixpoint ranges_of (first : Z) (bs : list (Z * Z)) : list (Z * Z * bool) :=
  match bs with
  | [] => []
  | (gap, len) :: bs =>
      let first := first - (gap + len) in
      let last := match bs with [] => true | _ => false end in
      if 0 <? len then (first, first + len, last) :: ranges_of first bs else ranges_of first bs
  end.

Lemma gaps_bounds g : 0 < g -> 1 <= gaps g /\ 0 < g - (gaps g - 1) * 255 <= 255.
Proof. unfold gaps. intros. Z.to_euclidean_division_equations. lia. Qed.

Lemma ranges_of_empty k first bs : bs <> [] ->
  ranges_of first (replicate k (255, 0) ++ bs) = ranges_of (first - Z.of_nat k * 255) bs.
Proof.
  intros Hbs. revert first. induction k as [|k IH]; intros first.
  - cbn [replicate app]. by replace (first - Z.of_nat 0 * 255) with first by lia.
  - cbn [replicate app ranges_of Z.ltb Z.compare]. rewrite IH. f_equal. lia.
Qed.

(** All blocks give all intervals, the last one marked. *)
Fixpoint marked (l : list (Z * Z)) : list (Z * Z * bool) :=
  match l with
  | [] => []
  | (lo, hi) :: l => (lo, hi, match l with [] => true | _ => false end) :: marked l
  end.

Lemma blocks_of_nil prev l : blocks_of prev l = [] <-> l = [].
Proof.
  destruct l as [|[lo hi] l]; [done|]. cbn. split; [|done]. intros E.
  by apply app_eq_nil in E as [_ ?].
Qed.

Lemma ranges_of_blocks l : forall prev, intervals_below (prev - 1) l ->
  ranges_of prev (blocks_of prev l) = marked l.
Proof.
  induction l as [|[lo hi] l IH]; intros prev H; [done|]. destruct H as (Hlo & Hhi & Hl).
  pose proof (gaps_bounds (prev - hi) ltac:(lia)) as Hg. cbn [blocks_of marked].
  rewrite ranges_of_empty by done. cbn [ranges_of].
  rewrite (proj2 (Z.ltb_lt _ _)) by lia. rewrite Z2Nat.id by lia.
  replace (prev - (gaps (prev - hi) - 1) * 255 -
    (prev - hi - (gaps (prev - hi) - 1) * 255 + (hi - lo))) with lo by lia.
  replace (lo + (hi - lo)) with hi by lia. rewrite IH by done.
  f_equal. f_equal. pose proof (blocks_of_nil lo l) as Hn. destruct l as [|p l]; [done|].
  destruct (blocks_of lo (p :: l)) eqn:Eb; [discriminate (proj1 Hn eq_refl) || discriminate (proj1 Hn Eb)|done].
Qed.

(** A number of blocks short of all gives the ranges of the first intervals. *)
Lemma ranges_of_prefix l : forall prev n, intervals_below (prev - 1) l ->
  exists k, map fst (ranges_of prev (take n (blocks_of prev l))) = take k l.
Proof.
  induction l as [|[lo hi] l IH]; intros prev n H; [exists 0%nat; cbn [blocks_of]; by rewrite take_nil|].
  destruct H as (Hlo & Hhi & Hl).
  pose proof (gaps_bounds (prev - hi) ltac:(lia)) as Hg. cbn [blocks_of].
  set (m := Z.to_nat (gaps (prev - hi) - 1)).
  destruct (decide (n <= m)%nat) as [Hn|Hn].
  - exists 0%nat. rewrite take_app_le by (by rewrite length_replicate). rewrite take_replicate.
    replace (n `min` m)%nat with n by lia. clear.
    assert (forall first, ranges_of first (replicate n (255, 0)) = []) as ->; [|done].
    induction n as [|n IH]; intros first; [done|]. cbn. apply IH.
  - rewrite take_app_ge by (rewrite length_replicate; lia). rewrite length_replicate.
    destruct (n - m)%nat as [|n'] eqn:En; [lia|]. cbn [take].
    rewrite ranges_of_empty by done. cbn [ranges_of].
    rewrite (proj2 (Z.ltb_lt _ _)) by lia. cbn [map fst]. unfold m. rewrite Z2Nat.id by lia.
    replace (prev - (gaps (prev - hi) - 1) * 255 -
      (prev - hi - (gaps (prev - hi) - 1) * 255 + (hi - lo))) with lo by lia.
    replace (lo + (hi - lo)) with hi by lia.
    destruct (IH lo n' Hl) as [k Hk]. exists (S k). cbn [take]. by rewrite Hk.
Qed.

Section Ack.
Context `{T : QuicTypes} `{Q : PacketQueueOps} `{A : !AckOps} `{C : CryptoOps} `{F : QuicFunctions}
  `{R : ReaderOps} `{W : WriterOps} `{V : !VisitorOps} `{P : !ProducerOps}
  `{RV : !ReaderView} `{WV : !WriterView} `{RO : !ReaderOk} `{WO : !WriterOk}
  `{PV : !ProducerView} `{PO : !ProducerOk P} `{TO : !QuicTypesOk T} `{FO : !QuicFunctionsOk F}
  `{QO : !PacketQueueOk Q} `{AO : !AckOk A}.

Implicit Types (f : MyQuicFramer) (a : QuicAckFrame).

(** ** Writing the blocks *)

Definition ack_len_ok (n : Z) : Prop := pn_length_ok n \/ n = 8.

Lemma emits_ack_number f en n v : ack_len_ok n ->
  emits f en tt (uint_bytes en (Z.to_nat n) v) (AppendPacketNumber n v).
Proof.
  intros [Hn | ->]; [by apply emits_packet_number|]. apply emits_uint. lia.
Qed.

Definition block_wire en (blen : Z) (b : Z * Z) : list Z := b.1 :: uint_bytes en (Z.to_nat blen) b.2.
Definition blocks_wire en (blen : Z) (bs : list (Z * Z)) : list Z := concat (map (block_wire en blen) bs).

Lemma blocks_wire_app en blen bs bs' :
  blocks_wire en blen (bs ++ bs') = blocks_wire en blen bs ++ blocks_wire en blen bs'.
Proof. unfold blocks_wire. by rewrite map_app, concat_app. Qed.

Lemma emits_block f en blen gap len : in_u 8 gap -> ack_len_ok blen ->
  emits f en tt (block_wire en blen (gap, len)) (AppendAckBlock gap blen len).
Proof.
  intros. apply (emits_bind _ _ tt _ [_]); [by apply emits_uint8|by apply emits_ack_number].
Qed.

Lemma emits_empty_blocks f en blen num fuel : ack_len_ok blen -> forall i n w, num - w = Z.of_nat fuel ->
  let bs := take fuel (replicate (Z.to_nat (n - i)) (255, 0)) in
  emits f en (w + zlen bs) (blocks_wire en blen bs) (append_empty_blocks fuel i n w num blen).
Proof.
  intros Hb. induction fuel as [|fuel IH]; intros i n w Hw bs; subst bs.
  - cbn. rewrite Z.add_0_r. apply emits_ret.
  - cbn [append_empty_blocks]. rewrite (proj2 (Z.ltb_lt w num)), andb_true_r by lia.
    destruct (Z.ltb_spec i n) as [Hi|Hi].
    + replace (Z.to_nat (n - i)) with (S (Z.to_nat (n - (i + 1)))) by lia. cbn [replicate take].
      change (blocks_wire en blen (?x :: ?l)) with (block_wire en blen x ++ blocks_wire en blen l).
      eapply emits_bind; [apply emits_block; done|].
      rewrite zlen_cons, Z.add_assoc. apply (IH (i + 1) n (w + 1)). lia.
    + replace (Z.to_nat (n - i)) with 0%nat by lia. cbn. rewrite Z.add_0_r. apply emits_ret.
Qed.

Lemma encoded_gaps_eq g : 0 < g <= 2 ^ 62 -> encoded_gaps g = gaps g.
Proof.
  intros. unfold encoded_gaps, gaps, uint8_max. change (2 ^ 62) with 4611686018427387904 in *.
  rewrite wrap_id by (unfold in_u; change (2 ^ 64) with 18446744073709551616; lia). f_equal. lia.
Qed.

Lemma emits_ack_blocks f en blen num : ack_len_ok blen -> num <= 255 -> forall l prev w,
  0 <= w <= num -> prev <= 2 ^ 62 -> intervals_below (prev - 1) l ->
  emits f en tt (blocks_wire en blen (take (Z.to_nat (num - w)) (blocks_of prev l)))
    (append_ack_blocks l prev w num blen).
Proof.
  intros Hb Hnum. induction l as [|[lo hi] l IH]; intros prev w Hw Hprev H; cbn [append_ack_blocks blocks_of].
  { rewrite take_nil. apply emits_ret. }
  destruct (Z.ltb_spec w num) as [Hlt|Hge].
  2: { replace (Z.to_nat (num - w)) with 0%nat by lia. apply emits_ret. }
  destruct H as (Hlo & Hhi & Hl). cbn [fst snd]. change (2 ^ 62) with 4611686018427387904 in *.
  rewrite (wrap_id 64 (prev - hi)) by (unfold in_u; change (2 ^ 64) with 18446744073709551616; lia).
  rewrite encoded_gaps_eq by (change (2 ^ 62) with 4611686018427387904; lia).
  pose proof (gaps_bounds (prev - hi) ltac:(lia)) as Hg.
  set (g := prev - hi) in *. set (k := Z.to_nat (gaps g - 1)). set (m := Z.to_nat (num - w)).
  rewrite take_app, blocks_wire_app, length_replicate.
  eapply emits_bind; [apply (emits_empty_blocks f en blen num m Hb 1 (gaps g) w); lia|].
  fold k. rewrite take_replicate.
  assert (zlen (replicate (m `min` k)%nat (255, 0)) = Z.of_nat (m `min` k)) as ->
    by (unfold zlen; by rewrite length_replicate).
  destruct (Z.leb_spec num (w + Z.of_nat (m `min` k))) as [Hle|Hgt].
  - replace (m - k)%nat with 0%nat by lia. apply emits_ret.
  - replace (m `min` k)%nat with k in * by lia. replace (m - k)%nat with (S (m - k - 1)) by lia. cbn [take].
    change (blocks_wire en blen (?x :: ?l)) with (block_wire en blen x ++ blocks_wire en blen l).
    unfold uint8_max. rewrite (wrap_id 8) by (unfold in_u; change (2 ^ 8) with 256; lia).
    unfold interval_length. cbn [fst snd].
    rewrite (wrap_id 64) by (unfold in_u; change (2 ^ 64) with 18446744073709551616; lia).
    eapply emits_bind.
    + apply emits_block; [unfold in_u; change (2 ^ 8) with 256; lia|done].
    + replace (m - k - 1)%nat with (Z.to_nat (num - (w + Z.of_nat k + 1))) by lia.
      apply IH; [lia|lia|done].
Qed.

(** ** Reading with a visitor *)

(** [parses], and the visitor's state goes through [vf]. *)
Definition reports {X} f en (bs rest : list Z) (a : X) (vf : Visitor -> Visitor) (m : M env X) : Prop :=
  forall e, fr e = f -> rendian (rd e) = en -> remaining (rd e) = bs ++ rest ->
    exists r', m e = (Ok a, put_vs (vf (vs e)) (put_rd r' e)) /\ remaining r' = rest /\ rendian r' = en.

Lemma reports_parses {X} f en bs rest (a : X) m :
  parses f en bs rest a m -> reports f en bs rest a id m.
Proof.
  intros H e He Hn Hr. destruct (H e He Hn Hr) as (r' & E & Hr'). exists r'. split; [|done].
  rewrite E. by destruct e.
Qed.

Lemma reports_ret {X} f en rest (a : X) : reports f en [] rest a id (mret a).
Proof. apply reports_parses, parses_ret. Qed.

Lemma reports_bind {X Y} f en (a : X) (b : Y) bs1 bs2 rest vf1 vf2 m k :
  reports f en bs1 (bs2 ++ rest) a vf1 m -> reports f en bs2 rest b vf2 (k a) ->
  reports f en (bs1 ++ bs2) rest b (fun v => vf2 (vf1 v)) (m ≫= k).
Proof.
  intros H1 H2 e He Hn Hr. rewrite <- app_assoc in Hr.
  destruct (H1 e He Hn Hr) as (r1 & E1 & Hr1 & Hn1). erewrite M_bind_ok by done.
  destruct (H2 (put_vs (vf1 (vs e)) (put_rd r1 e)) He Hn1 Hr1) as (r2 & E2 & Hr2 & Hn2). by exists r2.
Qed.

Lemma reports_vf {X} f en bs rest (a : X) vf vf' m :
  reports f en bs rest a vf m -> (forall v, vf v = vf' v) -> reports f en bs rest a vf' m.
Proof.
  intros H Hv e He Hn Hr. destruct (H e He Hn Hr) as (r' & E & Hr'). exists r'. split; [|done].
  by rewrite E, Hv.
Qed.

Lemma reports_eq {X} f en bs bs' rest (a : X) vf vf' m :
  reports f en bs rest a vf m -> bs = bs' -> (forall v, vf v = vf' v) -> reports f en bs' rest a vf' m.
Proof.
  intros H <- Hv e He Hn Hr. destruct (H e He Hn Hr) as (r' & E & Hr'). exists r'. split; [|done].
  by rewrite E, Hv.
Qed.

(** A read, then the rest; nothing read, then the rest. *)
Lemma reports_read {X Y} f en (a : X) (b : Y) bs1 bs2 rest vf m k :
  parses f en bs1 (bs2 ++ rest) a m -> reports f en bs2 rest b vf (k a) ->
  reports f en (bs1 ++ bs2) rest b vf (m ≫= k).
Proof. intros H1 H2. exact (reports_bind _ _ _ _ _ _ _ id vf _ _ (reports_parses _ _ _ _ _ _ H1) H2). Qed.

Lemma reports_skip {X Y} f en (a : X) (b : Y) bs rest vf m k :
  parses f en [] (bs ++ rest) a m -> reports f en bs rest b vf (k a) -> reports f en bs rest b vf (m ≫= k).
Proof. apply (reports_read f en a b []). Qed.

Lemma reports_gets {X Y} f en bs rest vf (g : MyQuicFramer -> X) (b : Y) k :
  reports f en bs rest b vf (k (g f)) -> reports f en bs rest b vf (gets g ≫= k).
Proof. intros H e He Hn Hr. unfold gets, mbind, M_bind. rewrite He. by apply H. Qed.

(** A visitor that never stops an ack frame. *)
Record polite : Prop := {
  polite_range : forall s t last v, (OnAckRange s t last v).1 = true;
  polite_start : forall l d v, (OnAckFrameStart l d v).1 = true;
}.

Lemma reports_visit_ack f en rest (cb : Visitor -> bool * Visitor) :
  visitor_ f = true -> (forall v, (cb v).1 = true) ->
  reports f en [] rest tt (fun v => (cb v).2) (visit_ack cb).
Proof.
  intros Hv Hcb e He Hn Hr. exists (rd e). split; [|done]. unfold visit_ack, visit, mbind, M_bind.
  rewrite He, Hv. specialize (Hcb (vs e)). destruct (cb (vs e)) as [b v]. cbn in *. subst b.
  by destruct e.
Qed.

(** The visitor told of the ranges. *)
Definition told (rs : list (Z * Z * bool)) (v : Visitor) : Visitor :=
  foldl (fun v '(s, t, last) => (OnAckRange s t last v).2) v rs.

(** Blocks that stay within [first] and in their fields. *)
Fixpoint blocks_fit (blen first : Z) (bs : list (Z * Z)) : Prop :=
  match bs with
  | [] => True
  | (gap, len) :: bs => 0 <= gap <= 255 /\ in_u (8 * blen) len /\ gap + len <= first /\
      blocks_fit blen (first - (gap + len)) bs
  end.

Lemma reports_ack_blocks f en blen ack rest num : visitor_ f = true -> polite ->
  use_incremental_ack_processing_ f = true -> 0 <= blen <= 8 -> forall bs i first,
  i + zlen bs = num -> 0 <= first <= 2 ^ 62 -> blocks_fit blen first bs ->
  reports f en (blocks_wire en blen bs) rest ack (told (ranges_of first bs))
    (process_ack_blocks (length bs) i num blen first ack).
Proof.
  intros Hv Hpol Hinc Hblen. change (2 ^ 62) with 4611686018427387904.
  induction bs as [|[gap len] bs IH]; intros i first Hi Hf H; [apply reports_ret|].
  destruct H as (Hg & Hl & Hle & Hbs). rewrite zlen_cons in Hi. pose proof (zlen_nonneg bs).
  assert (0 <= len) as Hl0 by apply Hl.
  change (blocks_wire en blen ((gap, len) :: bs)) with
    ([gap] ++ uint_bytes en (Z.to_nat blen) len ++ blocks_wire en blen bs).
  cbn [length process_ack_blocks].
  eapply reports_read; [apply parses_or_detail, parses_byte; unfold in_u; change (2 ^ 8) with 256; lia|].
  eapply reports_read; [by apply parses_or_detail, parses_bytes_uint|].
  rewrite (wrap_id 64 (gap + len)) by (unfold in_u; change (2 ^ 64) with 18446744073709551616; lia).
  eapply (reports_skip _ _ tt); [rewrite (proj2 (Z.ltb_ge _ _)) by lia; apply parses_ret|].
  rewrite (wrap_id 64 (first - (gap + len))) by (unfold in_u; change (2 ^ 64) with 18446744073709551616; lia).
  apply reports_gets. rewrite Hinc. cbn [ranges_of].
  assert (i + 1 + zlen bs = num) as Hi' by lia. assert (0 <= first - (gap + len) <= 4611686018427387904) as Hf' by lia.
  specialize (IH (i + 1) (first - (gap + len)) Hi' Hf' Hbs).
  destruct (Z.ltb_spec 0 len).
  - rewrite (wrap_id 64) by (unfold in_u; change (2 ^ 64) with 18446744073709551616; lia).
    assert ((i + 1 =? num) = match bs with [] => true | _ => false end) as Elast.
    { destruct bs; [apply Z.eqb_eq; rewrite zlen_nil in Hi'; lia|apply Z.eqb_neq; rewrite zlen_cons in Hi';
        pose proof (zlen_nonneg bs); lia]. }
    rewrite Elast. eapply reports_eq.
    { eapply (reports_bind _ _ ack ack []); [|exact IH].
      eapply (reports_bind _ _ tt ack [] []); [apply reports_visit_ack; [done|intros; apply Hpol]|apply reports_ret]. }
    all: done.
  - eapply (reports_skip _ _ ack); [apply parses_ret|exact IH].
Qed.

(** ** The shape of an ack *)

(** An ack whose largest packet is in its queue and fits the wire. *)
Definition ack_ok (tv : Z) a (lo : Z) (l : list (Z * Z)) : Prop :=
  rev_intervals (packets a) = (lo, largest_acked a + 1) :: l /\
  (tv <> 41 -> largest_acked a + 1 < 2 ^ 48).

Lemma ack_intervals tv a lo l : ack_ok tv a lo l ->
  0 <= lo <= largest_acked a /\ largest_acked a + 1 <= 2 ^ 62 /\ intervals_below (lo - 1) l.
Proof.
  intros [E _]. pose proof (rev_intervals_wf (packets a)) as H. rewrite E in H. destruct H as (H1 & H2 & H3).
  split_and!; [lia..|done].
Qed.

(** The loop looks at enough intervals for 255 blocks; their number and the
    longest length it saw. *)
Lemma ack_info_loop_spec l : forall prev info, intervals_below (prev - 1) l -> prev <= 2 ^ 62 ->
  0 <= num_ack_blocks info <= 2 ^ 62 ->
  exists l1 l2, l = l1 ++ l2 /\ (l2 = [] \/ 255 <= num_ack_blocks (ack_info_loop l prev info)) /\
    num_ack_blocks (ack_info_loop l prev info) = num_ack_blocks info + zlen (blocks_of prev l1) /\
    first_block_length (ack_info_loop l prev info) = first_block_length info /\
    max_block_length info <= max_block_length (ack_info_loop l prev info) <= Z.max (max_block_length info) prev /\
    Forall (fun i => i.2 - i.1 <= max_block_length (ack_info_loop l prev info)) l1.
Proof.
  induction l as [|[lo hi] l IH]; intros prev info H Hprev Hn; cbn [ack_info_loop].
  { exists [], []. change (zlen (blocks_of prev [])) with 0. split_and!; auto; lia. }
  destruct H as (Hlo & Hhi & Hl). unfold uint8_max. destruct (Z.ltb_spec (num_ack_blocks info) 255) as [Hlt|Hge].
  2: { exists [], ((lo, hi) :: l). change (zlen (blocks_of prev [])) with 0. split_and!; auto; lia. }
  cbn [fst snd]. change (2 ^ 62) with 4611686018427387904 in *.
  unfold interval_length. cbn [fst snd].
  rewrite !(wrap_id 64 (prev - hi)), (wrap_id 64 (hi - lo))
    by (unfold in_u; change (2 ^ 64) with 18446744073709551616; lia).
  rewrite encoded_gaps_eq by (change (2 ^ 62) with 4611686018427387904; lia).
  pose proof (gaps_bounds (prev - hi) ltac:(lia)) as Hg.
  assert (gaps (prev - hi) <= 18085043209519170) as Hg2
    by (unfold gaps; Z.to_euclidean_division_equations; lia).
  rewrite (wrap_id 64 (num_ack_blocks info + _)) by (unfold in_u; change (2 ^ 64) with 18446744073709551616; lia).
  set (info' := mkAckInfo _ _ _).
  destruct (IH lo info' Hl) as (l1 & l2 & -> & Hl2 & Hnum & Hfst & Hmax & Hall);
    [lia|subst info'; cbn; lia|].
  exists ((lo, hi) :: l1), l2. split; [done|]. split; [done|]. split; [|split; [done|split]].
  - rewrite Hnum. subst info'. cbn [num_ack_blocks blocks_of]. rewrite zlen_app, zlen_cons.
    unfold zlen at 2. rewrite length_replicate. lia.
  - subst info'. cbn [max_block_length] in *. lia.
  - constructor; [|done]. subst info'. cbn [max_block_length fst snd] in *. lia.
Qed.

Lemma min_length_ok tv v : 0 <= v < 2 ^ 64 -> (tv <> 41 -> v < 2 ^ 48) ->
  ack_len_ok (GetMinPacketNumberLength tv v) /\ in_u (8 * GetMinPacketNumberLength tv v) v /\
  ReadAckPacketNumberLength tv (GetPacketNumberFlags (GetMinPacketNumberLength tv v)) =
    GetMinPacketNumberLength tv v /\
  0 <= GetPacketNumberFlags (GetMinPacketNumberLength tv v) <= 3.
Proof.
  change (2 ^ 64) with 18446744073709551616. change (2 ^ 48) with 281474976710656. intros Hv H48.
  unfold GetMinPacketNumberLength, ack_len_ok, pn_length_ok, GetPacketNumberFlags, ReadAckPacketNumberLength, in_u.
  autorewrite with quic.
  change (Z.shiftl 1 (1 * 8)) with 256. change (Z.shiftl 1 (2 * 8)) with 65536.
  change (Z.shiftl 1 (4 * 8)) with 4294967296.
  destruct (Z.ltb_spec v 256); [|destruct (Z.ltb_spec v 65536); [|destruct (Z.ltb_spec v 4294967296);
    [|destruct (Z.eqb_spec tv 41)]]]; cbn [negb];
    (split; [auto 10|split; [split; [lia|]|split; [reflexivity|cbn; lia]]]).
  - change (2 ^ (8 * 1)) with 256. lia.
  - change (2 ^ (8 * 2)) with 65536. lia.
  - change (2 ^ (8 * 4)) with 4294967296. lia.
  - change (2 ^ (8 * 8)) with 18446744073709551616. lia.
  - change (2 ^ (8 * 6)) with 281474976710656. lia.
Qed.

(** The type byte tells the reader the lengths and whether blocks follow. *)
Lemma ack_type_byte_ok tv llen blen info :
  ReadAckPacketNumberLength tv (GetPacketNumberFlags llen) = llen ->
  ReadAckPacketNumberLength tv (GetPacketNumberFlags blen) = blen ->
  0 <= GetPacketNumberFlags llen <= 3 -> 0 <= GetPacketNumberFlags blen <= 3 ->
  let t := ack_type_byte tv llen blen info in
  in_u 8 t /\ has_bits t kQuicFrameTypeSpecialMask = true /\ is_stream_type tv t = false /\
  is_ack_type tv t = true /\
  ExtractBit t (if negb (tv =? QUIC_VERSION_41) then kQuicHasMultipleAckBlocksOffset_Pre40
                else kQuicHasMultipleAckBlocksOffset) = negb (num_ack_blocks info =? 0) /\
  ReadAckPacketNumberLength tv (ExtractBits t kQuicSequenceNumberLengthNumBits kLargestAckedOffset) = llen /\
  ReadAckPacketNumberLength tv (ExtractBits t kQuicSequenceNumberLengthNumBits kActBlockLengthOffset) = blen.
Proof.
  intros Hl Hb Hlf Hbf t.
  enough (in_u 8 t /\ has_bits t kQuicFrameTypeSpecialMask = true /\ is_stream_type tv t = false /\
    is_ack_type tv t = true /\
    ExtractBit t (if negb (tv =? QUIC_VERSION_41) then kQuicHasMultipleAckBlocksOffset_Pre40
                  else kQuicHasMultipleAckBlocksOffset) = negb (num_ack_blocks info =? 0) /\
    ExtractBits t kQuicSequenceNumberLengthNumBits kLargestAckedOffset = GetPacketNumberFlags llen /\
    ExtractBits t kQuicSequenceNumberLengthNumBits kActBlockLengthOffset = GetPacketNumberFlags blen)
    as (H1 & H2 & H3 & H4 & H5 & H6 & H7) by (by rewrite H6, H7, Hl, Hb; split_and!).
  subst t. unfold ack_type_byte, is_stream_type, is_ack_type. autorewrite with quic.
  set (x := GetPacketNumberFlags llen) in *. set (y := GetPacketNumberFlags blen) in *.
  assert (x = 0 \/ x = 1 \/ x = 2 \/ x = 3) as Hx by lia. assert (y = 0 \/ y = 1 \/ y = 2 \/ y = 3) as Hy by lia.
  clearbody x y. clear Hl Hb Hlf Hbf.
  destruct (negb (num_ack_blocks info =? 0)); destruct (Z.eqb_spec tv 41) as [->|Hne]; cbn [negb andb orb];
    rewrite ?andb_false_r;
    repeat destruct Hx as [-> | Hx]; try rewrite Hx; repeat destruct Hy as [-> | Hy]; try rewrite Hy;
    (split; [split; vm_compute; congruence|]); split_and!; try reflexivity;
    try (apply orb_false_iff; split; [reflexivity|apply andb_false_iff; right; reflexivity]).
Qed.

(** ** The frame *)

Definition largest_length (tv : Z) a : Z := GetMinPacketNumberLength tv (largest_acked a).
Definition block_length (tv : Z) a : Z := GetMinPacketNumberLength tv (max_block_length (GetAckFrameInfo a)).

Definition ack_delay_us a : Z :=
  if negb (IsInfinite (ack_delay_time a)) then u64 (ToMicroseconds (ack_delay_time a)) else kUFloat16MaxValue.

(** How many blocks the frame carries, given the room. *)
Definition block_count (tv cap len : Z) a : Z :=
  let max := u64 (Z.quot (available_ack_bytes cap len tv (largest_length tv a) (block_length tv a) (GetAckFrameInfo a))
                         (block_length tv a + PACKET_1BYTE_PACKET_NUMBER)) in
  let num := Z.min (num_ack_blocks (GetAckFrameInfo a)) max in
  if uint8_max <? num then uint8_max else num.

(** The payload with [n] blocks of an ack whose intervals are [(lo, _) :: l]. *)
Definition ack_wire (tv : Z) en a (n lo : Z) (l : list (Z * Z)) : list Z :=
  let count := if 0 <? n then [n] else [] in
  (if tv =? 41 then count ++ [0] else []) ++
  uint_bytes en (Z.to_nat (largest_length tv a)) (largest_acked a) ++
  uint_bytes en 2 (ufloat16_encode (ack_delay_us a)) ++
  (if tv =? 41 then [] else count) ++
  uint_bytes en (Z.to_nat (block_length tv a)) (largest_acked a + 1 - lo) ++
  blocks_wire en (block_length tv a) (take (Z.to_nat n) (blocks_of lo l)) ++
  (if tv =? 41 then [] else [0]).

Definition ack_type (tv : Z) a : Z :=
  ack_type_byte tv (largest_length tv a) (block_length tv a) (GetAckFrameInfo a).

(** What the sizes and the type byte are made of. *)
Record ack_shape (tv : Z) a (lo : Z) (l : list (Z * Z)) (n : Z) : Prop := {
  sh_llen : ack_len_ok (largest_length tv a);
  sh_largest : in_u (8 * largest_length tv a) (largest_acked a);
  sh_blen : ack_len_ok (block_length tv a);
  sh_first : in_u (8 * block_length tv a) (largest_acked a + 1 - lo);
  sh_first_eq : first_block_length (GetAckFrameInfo a) = largest_acked a + 1 - lo;
  sh_type : in_u 8 (ack_type tv a) /\ has_bits (ack_type tv a) kQuicFrameTypeSpecialMask = true /\
    is_stream_type tv (ack_type tv a) = false /\ is_ack_type tv (ack_type tv a) = true /\
    ExtractBit (ack_type tv a) (if negb (tv =? QUIC_VERSION_41) then kQuicHasMultipleAckBlocksOffset_Pre40
                                else kQuicHasMultipleAckBlocksOffset) =
      negb (num_ack_blocks (GetAckFrameInfo a) =? 0) /\
    ReadAckPacketNumberLength tv (ExtractBits (ack_type tv a) kQuicSequenceNumberLengthNumBits kLargestAckedOffset) =
      largest_length tv a /\
    ReadAckPacketNumberLength tv (ExtractBits (ack_type tv a) kQuicSequenceNumberLengthNumBits kActBlockLengthOffset) =
      block_length tv a;
  sh_blocks : blocks_fit (block_length tv a) lo (take (Z.to_nat n) (blocks_of lo l));
  sh_count : 0 <= n -> zlen (take (Z.to_nat n) (blocks_of lo l)) = n;
  sh_all : n = num_ack_blocks (GetAckFrameInfo a) -> n < 255 -> take (Z.to_nat n) (blocks_of lo l) = blocks_of lo l;
  sh_num : 0 <= num_ack_blocks (GetAckFrameInfo a);
}.

Lemma blocks_of_app prev l1 l2 : exists q, blocks_of prev (l1 ++ l2) = blocks_of prev l1 ++ blocks_of q l2.
Proof.
  revert prev. induction l1 as [|[lo hi] l1 IH]; intros prev; [by exists prev|].
  destruct (IH lo) as [q E]. exists q. cbn [app blocks_of]. by rewrite E, <- app_assoc.
Qed.

Lemma blocks_fit_take blen bs : forall first n, blocks_fit blen first bs -> blocks_fit blen first (take n bs).
Proof.
  induction bs as [|[g len] bs IH]; intros first n H; [by rewrite take_nil|].
  destruct n as [|n]; [done|]. destruct H as (H1 & H2 & H3 & H4). cbn. split_and!; auto; lia.
Qed.

Lemma blocks_fit_of blen max l : 0 <= blen -> max < 2 ^ (8 * blen) -> forall prev, intervals_below (prev - 1) l ->
  Forall (fun i => i.2 - i.1 <= max) l -> blocks_fit blen prev (blocks_of prev l).
Proof.
  intros Hb Hm. induction l as [|[lo hi] l IH]; intros prev H Hall; [done|].
  destruct H as (Hlo & Hhi & Hl). apply Forall_cons in Hall as [Hlen Hall]. cbn [fst snd] in Hlen.
  pose proof (gaps_bounds (prev - hi) ltac:(lia)) as Hg. cbn [blocks_of].
  assert (forall k first bs, Z.of_nat k * 255 <= first -> blocks_fit blen (first - Z.of_nat k * 255) bs ->
    blocks_fit blen first (replicate k (255, 0) ++ bs)) as Hrep.
  { intros k. induction k as [|k IHk]; intros first bs Hk Hbs.
    - by replace (first - Z.of_nat 0 * 255) with first in Hbs by lia.
    - cbn [replicate app blocks_fit]. assert (0 < 2 ^ (8 * blen)) by (apply Z.pow_pos_nonneg; lia).
      split_and!; [lia..|unfold in_u; lia|lia|]. apply IHk; [lia|].
      by replace (first - (255 + 0) - Z.of_nat k * 255) with (first - Z.of_nat (S k) * 255) by lia. }
  apply Hrep; rewrite Z2Nat.id by lia; [lia|]. cbn [blocks_fit]. split_and!; [lia..|unfold in_u; lia|lia|].
  replace (prev - (gaps (prev - hi) - 1) * 255 -
    (prev - hi - (gaps (prev - hi) - 1) * 255 + (hi - lo))) with lo by lia. by apply IH.
Qed.

Lemma ack_shape_ok tv a lo l n : ack_ok tv a lo l ->
  n <= num_ack_blocks (GetAckFrameInfo a) -> n <= 255 -> ack_shape tv a lo l n.
Proof.
  intros Ha Hn Hn255. pose proof (ack_intervals tv a lo l Ha) as (Hlo & Htop & Hl). destruct Ha as [E H48].
  unfold ack_type, largest_length, block_length in *.
  assert (GetAckFrameInfo a = ack_info_loop l lo (mkAckInfo (largest_acked a + 1 - lo) (largest_acked a + 1 - lo) 0)) as Ei.
  { unfold GetAckFrameInfo. rewrite E. unfold interval_length. cbn [fst snd].
    change (2 ^ 62) with 4611686018427387904 in Htop.
    by rewrite wrap_id by (unfold in_u; change (2 ^ 64) with 18446744073709551616; lia). }
  destruct (ack_info_loop_spec l lo (mkAckInfo (largest_acked a + 1 - lo) (largest_acked a + 1 - lo) 0) Hl
    ltac:(lia) ltac:(cbn; lia)) as (l1 & l2 & El & Hl2 & Hnum & Hfst & Hmax & Hall).
  rewrite <- Ei in *. cbn [num_ack_blocks first_block_length max_block_length] in *.
  set (info := GetAckFrameInfo a) in *. change (2 ^ 62) with 4611686018427387904 in *.
  destruct (min_length_ok tv (largest_acked a)) as (L1 & L2 & L3 & L4);
    [change (2 ^ 64) with 18446744073709551616; lia|intros; specialize (H48 ltac:(done)); lia|].
  destruct (min_length_ok tv (max_block_length info)) as (B1 & B2 & B3 & B4);
    [change (2 ^ 64) with 18446744073709551616; lia|intros; specialize (H48 ltac:(done)); lia|].
  assert (intervals_below (lo - 1) l1) as Hl1.
  { subst l. clear -Hl. revert Hl. generalize (lo - 1). induction l1 as [|[x y] l1 IH]; intros h; [done|].
    cbn. intros (? & ? & ?). split_and!; auto; lia. }
  assert (take (Z.to_nat n) (blocks_of lo l) = take (Z.to_nat n) (blocks_of lo l1)) as Et.
  { subst l. destruct (blocks_of_app lo l1 l2) as [q ->]. apply take_app_le. unfold zlen in Hnum. lia. }
  constructor; try done.
  - unfold block_length. fold info. unfold in_u in *. lia.
  - by apply ack_type_byte_ok.
  - rewrite Et. apply blocks_fit_take. eapply blocks_fit_of; [|apply B2|done|done].
    unfold block_length. fold info. destruct B1 as [[?|[?|[?|?]]]|?]; lia.
  - intros H0. rewrite Et. unfold zlen in *. rewrite length_take. lia.
  - intros -> H255. fold info in H255. destruct Hl2 as [->|?]; [|lia]. rewrite app_nil_r in El. subst l1.
    apply take_ge. fold info. unfold zlen in Hnum. lia.
  - fold info. rewrite Hnum. pose proof (zlen_nonneg (blocks_of lo l1)). lia.
Qed.

Lemma block_count_range tv cap len a : 0 <= num_ack_blocks (GetAckFrameInfo a) ->
  0 <= block_count tv cap len a <= 255 /\ block_count tv cap len a <= num_ack_blocks (GetAckFrameInfo a).
Proof.
  intros H. unfold block_count, uint8_max. set (max := u64 _).
  assert (0 <= max) by (apply (wrap_range 64); lia).
  destruct (Z.ltb_spec 255 (Z.min (num_ack_blocks (GetAckFrameInfo a)) max)); lia.
Qed.

Lemma emits_bytes f en bs : emits f en tt bs (wr_op (WriteBytes bs)).
Proof. apply (emits_op f en _ (fun _ => bs)), WriteBytes_ok. Qed.

(** A first part whose result depends on the writer. *)
Lemma emits_bind_any {X Y} f en (b : Y) bs1 bs2 (m : M env X) (k : X -> M env Y) :
  (forall e, fr e = f -> wendian (wr e) = en -> exists x, emits_at e x bs1 m) ->
  (forall x, emits f en b bs2 (k x)) -> emits f en b (bs1 ++ bs2) (m ≫= k).
Proof.
  intros H1 H2 e He Hn. destruct (H1 e He Hn) as [x Hx]. eapply emits_at_bind; [exact Hx|].
  intros w Hw. apply H2; [done|]. cbn [wr put_wr]. by rewrite (proj2 (proj2 Hw)).
Qed.

Lemma emits_wr_get {X Y} f en (g : QuicDataWriter -> X) (b : Y) bs k :
  (forall x, emits f en b bs (k x)) -> emits f en b bs (wr_get g ≫= k).
Proof. intros H e He Hn. apply emits_at_wr_get. by apply H. Qed.

Lemma ack_num_nonneg tv a lo l : ack_ok tv a lo l -> 0 <= num_ack_blocks (GetAckFrameInfo a).
Proof.
  intros Ha. apply (sh_num tv a lo l (Z.min 0 (num_ack_blocks (GetAckFrameInfo a)))).
  apply ack_shape_ok; [done|lia..].
Qed.

(** The count and the placeholder of the timestamps, in version 41. *)
Lemma emits_counts f en n : 0 <= n <= 255 -> forall e, fr e = f -> wendian (wr e) = en ->
  exists off, emits_at e off ((if 0 <? n then [n] else []) ++ [0])
    ((if 0 <? n then wr_op (WriteBytes [u8 n]) else mret tt) ;;
     off ← wr_get wlength; wr_op (WriteUInt8 0) ;; mret off).
Proof.
  intros Hn e He Hen. rewrite wrap_id by (unfold in_u; change (2 ^ 8) with 256; lia).
  exists (wlength (wr e) + zlen (if 0 <? n then [n] else [])). apply (emits_at_bind e tt).
  - destruct (0 <? n); [by apply (emits_bytes f en)|apply emits_at_ret].
  - intros w Hw. apply emits_at_wr_get. cbn [wr put_wr]. rewrite (wext_length _ _ _ Hw).
    apply (emits_at_bind _ tt _ [0] []); [by apply (emits_uint8 f (wendian w))|intros; apply emits_at_ret].
Qed.

(** An ack frame is appended as its wire format, with as many blocks as there
    is room for. *)
Lemma emits_ack e a lo l :
  let tv := transport_version (version_ (fr e)) in
  use_incremental_ack_processing_ (fr e) = true -> ack_ok tv a lo l ->
  emits_at e tt (ack_type tv a ::
      ack_wire tv (wendian (wr e)) a (block_count tv (capacity (wr e)) (wlength (wr e)) a) lo l)
    (AppendAckFrameAndTypeByte a).
Proof.
  intros tv Hinc Ha. set (en := wendian (wr e)). set (n := block_count tv (capacity (wr e)) (wlength (wr e)) a).
  destruct (block_count_range tv (capacity (wr e)) (wlength (wr e)) a (ack_num_nonneg _ _ _ _ Ha)) as [Hn Hn2].
  fold n in Hn, Hn2. destruct (ack_shape_ok tv a lo l n Ha Hn2 ltac:(lia)) as [Hll _ Hbl _ Hfst Hty _ _ _ _].
  pose proof (ack_intervals tv a lo l Ha) as (Hlo & Htop & Hl). destruct Ha as [E _].
  unfold AppendAckFrameAndTypeByte. rewrite (LargestAcked_eq _ _ _ E).
  apply emits_at_gets. fold tv. apply emits_at_wr_get, emits_at_wr_get. cbv zeta.
  fold (largest_length tv a). fold (block_length tv a). fold (ack_delay_us a). fold (ack_type tv a).
  match goal with |- context [if uint8_max <? ?x then uint8_max else ?x] =>
    change (if uint8_max <? x then uint8_max else x) with n end.
  apply (emits_at_bind e tt tt [ack_type tv a]); [by apply (emits_uint8 (fr e) en _ (proj1 Hty))|].
  intros w (_ & _ & Hwen).
  match goal with |- emits_at _ _ ?bs ?m => enough (emits (fr e) en tt bs m) as H by by apply H end.
  unfold ack_wire. rewrite V41.
  rewrite Hfst, E. cbn [fst].
  assert (forall k, emits (fr e) en tt (if tv =? 41 then [] else [0])
    (incremental ← gets use_incremental_ack_processing_; cap ← wr_get capacity; len ← wr_get wlength;
     if negb incremental && (GetAckFrameTimeStampSize a <=? u64 (cap - len)) then k
     else if negb (tv =? 41) then wr_op (WriteBytes [0]) else mret tt)) as Hend.
  { intros k. apply emits_gets. rewrite Hinc. do 2 (apply emits_wr_get; intros ?). cbn [negb andb].
    destruct (tv =? 41); cbn [negb]; [apply emits_ret|apply emits_bytes]. }
  assert (emits (fr e) en tt (blocks_wire en (block_length tv a) (take (Z.to_nat n) (blocks_of lo l)))
    (if 0 <? n then append_ack_blocks l lo 0 n (block_length tv a) else mret tt)) as Hblocks.
  { destruct (Z.ltb_spec 0 n).
    - rewrite <- (Z.sub_0_r n) at 1. apply emits_ack_blocks; try done; lia.
    - replace (Z.to_nat n) with 0%nat by lia. apply emits_ret. }
  assert (u8 n = n) as Hu by (apply wrap_id; unfold in_u; change (2 ^ 8) with 256; lia).
  eapply emits_bind_any.
  { intros e1 He1 Hen1. destruct (Z.eqb_spec tv 41); cbn [negb].
    - apply (emits_counts (fr e) en n Hn e1 He1 Hen1).
    - exists 0. apply emits_at_ret. }
  intros off. eapply emits_bind; [by apply emits_ack_number|].
  eapply emits_bind; [apply (emits_op _ _ _ _ (WriteUFloat16_ok _))|].
  eapply emits_bind.
  { destruct (tv =? 41); cbn [negb andb]; [apply emits_ret|]. rewrite Hu.
    destruct (0 <? n); [apply emits_bytes|apply emits_ret]. }
  eapply emits_bind; [by apply emits_ack_number|].
  eapply emits_bind; [exact Hblocks|apply Hend].
Qed.

(** The delay the receiver reads. *)
Definition ack_delay a : Delta := ack_delay_from_wire (ufloat16_decode (ufloat16_encode (ack_delay_us a))).

(** What the receiver's visitor is told of an ack with [n] blocks. *)
Definition ack_told a (n lo : Z) (l : list (Z * Z)) (v : Visitor) : Visitor :=
  told ((lo, largest_acked a + 1, num_ack_blocks (GetAckFrameInfo a) =? 0) ::
        ranges_of lo (take (Z.to_nat n) (blocks_of lo l)))
    (OnAckFrameStart (largest_acked a) (ack_delay a) v).2.

Lemma ack_len_range n : ack_len_ok n -> 0 <= n <= 8.
Proof. unfold ack_len_ok, pn_length_ok. lia. Qed.

(** The number of blocks, where either version writes it. *)
Lemma parses_count f en n d rest : 0 <= n <= 255 ->
  parses f en (if 0 <? n then [n] else []) rest n (if 0 <? n then or_detail d (rd_op ReadUInt8) else mret 0).
Proof.
  intros Hn. destruct (Z.ltb_spec 0 n).
  - apply parses_or_detail, parses_byte. unfold in_u. change (2 ^ 8) with 256. lia.
  - replace n with 0 by lia. apply parses_ret.
Qed.

Lemma parses_counts f en (tv : Z) n d d' rest : 0 <= n <= 255 ->
  parses f en (if tv =? 41 then (if 0 <? n then [n] else []) ++ [0] else []) rest (if tv =? 41 then (n, 0) else (0, 0))
    (if tv =? 41
     then n ← (if 0 <? n then or_detail d (rd_op ReadUInt8) else mret 0);
          p ← or_detail d' (rd_op ReadUInt8);
          mret (n, p)
     else mret (0, 0)).
Proof.
  intros Hn. destruct (tv =? 41); [|apply parses_ret]. eapply parses_bind; [by apply parses_count|].
  apply (parses_bind _ _ 0 _ [0] []); [apply parses_or_detail, parses_byte; done|apply parses_ret].
Qed.

Lemma parses_num_blocks f en (tv : Z) n d rest : 0 <= n <= 255 ->
  parses f en (if tv =? 41 then [] else if 0 <? n then [n] else []) rest n
    (if (0 <? n) && negb (tv =? 41) then or_detail d (rd_op ReadUInt8) else mret (if tv =? 41 then (n, 0) else (0, 0)).1).
Proof.
  intros Hn. pose proof (parses_count f en n d rest Hn) as Hc.
  destruct (tv =? 41); cbn [negb andb fst]; rewrite ?andb_false_r, ?andb_true_r; [apply parses_ret|done].
Qed.

Lemma reports_ack f en a lo l n rest :
  let tv := transport_version (version_ f) in
  visitor_ f = true -> polite -> use_incremental_ack_processing_ f = true -> ack_ok tv a lo l ->
  0 <= n <= 255 -> n <= num_ack_blocks (GetAckFrameInfo a) ->
  (n = 0 -> num_ack_blocks (GetAckFrameInfo a) = 0) ->
  reports f en (ack_wire tv en a n lo l) rest new_ack_frame (ack_told a n lo l)
    (ProcessAckFrame (ack_type tv a) new_ack_frame).
Proof.
  intros tv Hv Hpol Hinc Ha Hn Hn2 Hn0.
  destruct (ack_shape_ok tv a lo l n Ha Hn2 ltac:(lia)) as [Hll Hlv Hbl Hbv _ Hty Hfit Hcount _ Hnum].
  destruct Hty as (_ & _ & _ & _ & Hhas & Hl & Hb). pose proof (ack_intervals tv a lo l Ha) as (Hlo & Htop & _).
  apply ack_len_range in Hll, Hbl. specialize (Hcount (proj1 Hn)). change (2 ^ 62) with 4611686018427387904 in *.
  assert (negb (num_ack_blocks (GetAckFrameInfo a) =? 0) = (0 <? n)) as Hpos
    by (destruct (Z.ltb_spec 0 n), (Z.eqb_spec (num_ack_blocks (GetAckFrameInfo a)) 0); auto; lia).
  unfold ProcessAckFrame. apply reports_gets. fold tv. rewrite Hhas, Hl, Hb, Hpos. rewrite V41. cbv zeta.
  unfold ack_wire. set (bs := take (Z.to_nat n) (blocks_of lo l)) in *.
  (* the counts *)
  eapply reports_read; [by apply parses_counts|].
  eapply reports_read; [by apply parses_or_detail, parses_bytes_uint|].
  eapply (reports_read _ _ (ufloat16_decode (ufloat16_encode (ack_delay_us a)))).
  { apply parses_or_detail. eapply parses_op; [apply ReadUFloat16_ok|]. cbv beta.
    rewrite p_uint_app; [done|]. apply ufloat16_encode_range. }
  apply reports_gets. rewrite Hinc. cbn [negb].
  eapply reports_vf.
  { eapply (reports_bind _ _ tt new_ack_frame []).
    { apply reports_visit_ack; [done|]. intros v. apply Hpol. }
    eapply reports_read; [by apply parses_num_blocks|].
    eapply reports_read; [by apply parses_or_detail, parses_bytes_uint|].
    eapply (reports_skip _ _ tt).
    { rewrite (proj2 (Z.eqb_neq (largest_acked a + 1 - lo) 0)) by lia. apply parses_ret. }
    rewrite (wrap_id 64 (largest_acked a + 1)) by (unfold in_u; change (2 ^ 64) with 18446744073709551616; lia).
    eapply (reports_skip _ _ tt).
    { rewrite (proj2 (Z.ltb_ge _ _)) by lia. apply parses_ret. }
    replace (largest_acked a + 1 - (largest_acked a + 1 - lo)) with lo by lia.
    rewrite (wrap_id 64 lo) by (unfold in_u; change (2 ^ 64) with 18446744073709551616; lia).
    eapply (reports_bind _ _ new_ack_frame new_ack_frame []).
    { eapply (reports_bind _ _ tt new_ack_frame [] []); [apply reports_visit_ack; [done|intros; apply Hpol]|apply reports_ret]. }
    replace (Z.to_nat n) with (length bs) by (unfold zlen in Hcount; lia).
    eapply (reports_bind _ _ new_ack_frame).
    { apply (reports_ack_blocks _ _ _ _ _ n); try done; lia. }
    eapply (reports_eq _ _ ((if tv =? 41 then [] else [0]) ++ [])); [|apply app_nil_r|reflexivity].
    eapply (reports_read _ _ 0 new_ack_frame _ []).
    { destruct (tv =? 41); cbn [negb snd]; [apply parses_ret|].
      apply parses_or_detail, parses_byte. done. }
    unfold ProcessTimestampsInAckFrame. cbn [Z.ltb Z.compare]. apply reports_ret. }
  - intros v. unfold ack_told, told. cbn [foldl]. fold bs. unfold id. do 3 f_equal.
    rewrite <- Hpos. by rewrite negb_involutive.
Qed.

(** ** The round trip *)

Lemma process_frame_ack f en header a lo l n rest :
  let tv := transport_version (version_ f) in
  visitor_ f = true -> polite -> use_incremental_ack_processing_ f = true -> ack_ok tv a lo l ->
  0 <= n <= 255 -> n <= num_ack_blocks (GetAckFrameInfo a) ->
  (n = 0 -> num_ack_blocks (GetAckFrameInfo a) = 0) ->
  reports f en (ack_wire tv en a n lo l) rest true (ack_told a n lo l) (process_frame header (ack_type tv a)).
Proof.
  intros tv Hv Hpol Hinc Ha Hn Hn2 Hn0.
  destruct (sh_type _ _ _ _ _ (ack_shape_ok tv a lo l n Ha Hn2 ltac:(lia))) as (_ & Hsp & Hst & Hack & _).
  unfold process_frame. apply reports_gets. fold tv. rewrite Hsp, Hst, Hack.
  eapply (reports_eq _ _ (_ ++ [])); [|apply app_nil_r|reflexivity].
  eapply reports_vf.
  - eapply (reports_bind _ _ new_ack_frame true).
    + assert (reports f en (ack_wire tv en a n lo l) ([] ++ rest) new_ack_frame (ack_told a n lo l)
        (ProcessAckFrame (ack_type tv a) new_ack_frame)) as H by by apply reports_ack.
      intros e He Hen Hr. destruct (H e He Hen Hr) as (r' & E & Hr'). exists r'. split; [|done].
      unfold or_raise, or_else. by rewrite E.
    + apply reports_gets. rewrite Hinc. apply reports_ret.
  - done.
Qed.

Lemma block_count_all f a cap len lo l : let tv := transport_version (version_ f) in
  ack_ok tv a lo l -> use_incremental_ack_processing_ f = true ->
  num_ack_blocks (GetAckFrameInfo a) <= 255 -> GetAckFrameSize f a <= cap - len -> 0 <= len -> cap < 2 ^ 31 ->
  block_count tv cap len a = num_ack_blocks (GetAckFrameInfo a).
Proof.
  intros tv Ha Hinc Hnum Hroom Hlen Hcap. pose proof (ack_num_nonneg tv a lo l Ha) as Hn0.
  pose proof (ack_shape_ok tv a lo l 0 Ha Hn0 ltac:(lia)) as [Hll _ Hbl _ _ _ _ _ _ _].
  apply ack_len_range in Hll, Hbl. assert (block_length tv a <> 0) as Hb0.
  { unfold block_length, GetMinPacketNumberLength. autorewrite with quic. repeat case_match; lia. }
  unfold GetAckFrameSize in Hroom. rewrite Hinc in Hroom. fold tv in Hroom. rewrite (LargestAcked_eq _ _ _ (proj1 Ha)) in Hroom.
  fold (largest_length tv a) in Hroom. fold (block_length tv a) in Hroom. cbn [negb] in Hroom. cbv zeta in Hroom.
  unfold block_count, available_ack_bytes. set (info := GetAckFrameInfo a) in *.
  unfold GetMinAckFrameSize, kQuicFrameTypeSize, kQuicDeltaTimeLargestObservedSize, kQuicNumTimestampsSize,
    kNumberOfAckBlocksSize, uint8_max in *. change kMaxAckBlocks with 255 in Hroom.
  autorewrite with quic in *. rewrite Z.min_l in Hroom by lia.
  set (avail := cap - len - _ - _ - _).
  assert (num_ack_blocks info * (block_length tv a + 1) <= avail < 2147483648) as Hav.
  { subst avail. change (2 ^ 31) with 2147483648 in Hcap.
    destruct (Z.eqb_spec (num_ack_blocks info) 0) as [E|E]; cbn [negb] in *; lia. }
  assert (0 <= num_ack_blocks info * (block_length tv a + 1)) by nia.
  rewrite (wrap_id 64 avail) by (unfold in_u; change (2 ^ 64) with 18446744073709551616; lia).
  rewrite swrap_id; [|lia|unfold in_s; change (2 ^ (32 - 1)) with 2147483648; lia].
  assert (num_ack_blocks info <= Z.quot avail (block_length tv a + 1)) as Hq
    by (apply Z.quot_le_lower_bound; lia).
  rewrite wrap_id.
  - rewrite Z.min_l by done. by rewrite (proj2 (Z.ltb_ge _ _)) by lia.
  - split; [lia|]. change (2 ^ 64) with 18446744073709551616.
    pose proof (Z.quot_le_upper_bound avail (block_length tv a + 1) avail). nia.
Qed.

Lemma ack_wire_length tv en a n lo l : ack_shape tv a lo l n -> 0 <= n ->
  1 + zlen (ack_wire tv en a n lo l) =
    GetMinAckFrameSize tv (largest_length tv a) + block_length tv a +
    (if 0 <? n then 1 + n * (block_length tv a + 1) else 0).
Proof.
  intros [Hll _ Hbl _ _ _ _ Hcount _ _] Hn. apply ack_len_range in Hll, Hbl. specialize (Hcount Hn).
  assert (forall bs, zlen (blocks_wire en (block_length tv a) bs) = zlen bs * (block_length tv a + 1)) as Hb.
  { induction bs as [|b bs IH]; [done|].
    change (blocks_wire en ?x (b :: bs)) with (block_wire en x b ++ blocks_wire en x bs).
    unfold block_wire. rewrite zlen_app, !zlen_cons, uint_bytes_len, IH. lia. }
  unfold ack_wire, GetMinAckFrameSize. rewrite !zlen_app, Hb, Hcount, !uint_bytes_len, !Z2Nat.id by lia.
  unfold kQuicFrameTypeSize, kQuicDeltaTimeLargestObservedSize, kQuicNumTimestampsSize.
  destruct (tv =? 41); rewrite ?zlen_app; destruct (Z.ltb_spec 0 n);
    autorewrite with lens; lia || (replace n with 0 by lia; lia).
Qed.

Lemma all_ranges tv a lo l : ack_ok tv a lo l -> num_ack_blocks (GetAckFrameInfo a) < 255 ->
  (lo, largest_acked a + 1, num_ack_blocks (GetAckFrameInfo a) =? 0) ::
    ranges_of lo (take (Z.to_nat (num_ack_blocks (GetAckFrameInfo a))) (blocks_of lo l)) =
  marked (rev_intervals (packets a)).
Proof.
  intros Ha Hn. destruct (ack_intervals tv a lo l Ha) as (_ & _ & Hl).
  pose proof (ack_num_nonneg tv a lo l Ha) as H0.
  destruct (ack_shape_ok tv a lo l _ Ha (Z.le_refl _) ltac:(lia)) as [_ _ _ _ _ _ _ Hc Hall _].
  specialize (Hall eq_refl Hn). specialize (Hc H0). rewrite Hall in *.
  destruct Ha as [-> _]. cbn [marked]. rewrite ranges_of_blocks by done. do 2 f_equal.
  pose proof (blocks_of_nil lo l) as Hnil.
  destruct l as [|i l]; [by rewrite <- Hc|]. apply Z.eqb_neq. intros E. rewrite E in Hc.
  destruct (blocks_of lo (i :: l)); [|rewrite zlen_cons in Hc; pose proof (zlen_nonneg l0); lia].
  discriminate (proj1 Hnil eq_refl).
Qed.

(** With room for all of it an ack frame is written whole, in as many bytes as
    [GetAckFrameSize] says. *)
Lemma append_ack_ok e1 a lo l : let tv := transport_version (version_ (fr e1)) in
  use_incremental_ack_processing_ (fr e1) = true -> ack_ok tv a lo l ->
  num_ack_blocks (GetAckFrameInfo a) < 255 ->
  GetAckFrameSize (fr e1) a <= capacity (wr e1) - wlength (wr e1) -> capacity (wr e1) < 2 ^ 31 ->
  let bs := ack_wire tv (wendian (wr e1)) a (num_ack_blocks (GetAckFrameInfo a)) lo l in
  exists w, AppendAckFrameAndTypeByte a e1 = (Ok tt, put_wr w e1) /\
    wext (wr e1) (ack_type tv a :: bs) w /\ zlen (ack_type tv a :: bs) = GetAckFrameSize (fr e1) a.
Proof.
  intros tv Hi1 Ha Hn Hroom Hcap bs.
  pose proof (ack_num_nonneg tv a lo l Ha) as Hn0.
  assert (0 <= wlength (wr e1)) as Hw0 by (rewrite wlength_ok; apply zlen_nonneg).
  pose proof (block_count_all (fr e1) a _ _ lo l Ha Hi1 ltac:(lia) Hroom Hw0 Hcap) as Hbc. fold tv in Hbc.
  pose proof (ack_shape_ok tv a lo l _ Ha (Z.le_refl _) ltac:(lia)) as Hsh.
  pose proof (ack_wire_length tv (wendian (wr e1)) a _ lo l Hsh Hn0) as Hlen. fold bs in Hlen.
  assert (zlen (ack_type tv a :: bs) = GetAckFrameSize (fr e1) a) as Hsize.
  { rewrite zlen_cons, Hlen. unfold GetAckFrameSize. fold tv. rewrite Hi1, (LargestAcked_eq _ _ _ (proj1 Ha)).
    fold (largest_length tv a). fold (block_length tv a). cbn [negb]. cbv zeta.
    unfold kNumberOfAckBlocksSize. change kMaxAckBlocks with 255. autorewrite with quic.
    rewrite Z.min_l by lia.
    destruct (Z.ltb_spec 0 (num_ack_blocks (GetAckFrameInfo a))),
      (Z.eqb_spec (num_ack_blocks (GetAckFrameInfo a)) 0); cbn [negb]; lia. }
  pose proof (emits_ack e1 a lo l) as Hem. fold tv in Hem. specialize (Hem Hi1 Ha).
  rewrite Hbc in Hem. fold bs in Hem. unfold emits_at in Hem.
  rewrite Hsize, (proj2 (Z.leb_le _ _)) in Hem by lia.
  destruct Hem as (w & E & Hw). by exists w.
Qed.

(** Read back, it tells the visitor of every interval. *)
Lemma process_ack_ok f en header a lo l rest : let tv := transport_version (version_ f) in
  visitor_ f = true -> polite -> use_incremental_ack_processing_ f = true -> ack_ok tv a lo l ->
  num_ack_blocks (GetAckFrameInfo a) < 255 ->
  reports f en (ack_wire tv en a (num_ack_blocks (GetAckFrameInfo a)) lo l) rest true
    (fun v => told (marked (rev_intervals (packets a))) (OnAckFrameStart (largest_acked a) (ack_delay a) v).2)
    (process_frame header (ack_type tv a)).
Proof.
  intros tv Hv Hpol Hi Ha Hn. pose proof (ack_num_nonneg tv a lo l Ha) as Hn0.
  eapply reports_vf; [apply process_frame_ack; try done; lia|].
  intros v. unfold ack_told. by rewrite (all_ranges tv) by done.
Qed.

(** C2: An ack frame survives the wire.  Where the packet has the room
    [GetAckFrameSize] asks for, the frame takes exactly that many bytes, and
    from them the receiver's visitor is told of the largest packet and of every
    interval of acknowledged packets, from the largest down, the last one
    marked as such.  (Incremental processing, the framer's default; fewer than
    255 blocks; packet numbers below 2^48, or version 41.) *)
Theorem ack_roundtrip f1 f2 e1 header a lo l rest :
  fr e1 = f1 -> version_ f2 = version_ f1 -> visitor_ f2 = true -> polite ->
  use_incremental_ack_processing_ f1 = true -> use_incremental_ack_processing_ f2 = true ->
  ack_ok (transport_version (version_ f1)) a lo l -> num_ack_blocks (GetAckFrameInfo a) < 255 ->
  GetAckFrameSize f1 a <= capacity (wr e1) - wlength (wr e1) -> capacity (wr e1) < 2 ^ 31 ->
  exists w t bs, AppendAckFrameAndTypeByte a e1 = (Ok tt, put_wr w e1) /\
    wext (wr e1) (t :: bs) w /\ zlen (t :: bs) = GetAckFrameSize f1 a /\
    reports f2 (wendian (wr e1)) bs rest true
      (fun v => told (marked (rev_intervals (packets a))) (OnAckFrameStart (largest_acked a) (ack_delay a) v).2)
      (process_frame header t).
Proof.
  intros <- Hver Hv Hpol Hi1 Hi2 Ha Hn Hroom Hcap.
  destruct (append_ack_ok e1 a lo l Hi1 Ha Hn Hroom Hcap) as (w & E & Hw & Hsize).
  exists w. do 2 eexists. split; [exact E|]. split; [exact Hw|]. split; [exact Hsize|].
  rewrite <- Hver in *. by apply process_ack_ok.
Qed.

(** C19: Whatever the room, as long as one block fits, an ack frame cut short
    is still read: the receiver's visitor is told of the largest intervals
    only, each with its bounds. *)
Theorem ack_truncated_prefix f1 f2 e1 w header a lo l rest :
  fr e1 = f1 -> version_ f2 = version_ f1 -> visitor_ f2 = true -> polite ->
  use_incremental_ack_processing_ f1 = true -> use_incremental_ack_processing_ f2 = true ->
  ack_ok (transport_version (version_ f1)) a lo l ->
  1 <= block_count (transport_version (version_ f1)) (capacity (wr e1)) (wlength (wr e1)) a ->
  AppendAckFrameAndTypeByte a e1 = (Ok tt, put_wr w e1) ->
  exists t bs rs k, wext (wr e1) (t :: bs) w /\ (1 <= k)%nat /\
    map fst rs = take k (rev_intervals (packets a)) /\
    reports f2 (wendian (wr e1)) bs rest true
      (fun v => told rs (OnAckFrameStart (largest_acked a) (ack_delay a) v).2) (process_frame header t).
Proof.
  intros He Hver Hv Hpol Hi1 Hi2 Ha Hbc Happ. set (tv := transport_version (version_ f1)) in *.
  pose proof (ack_num_nonneg tv a lo l Ha) as Hn0.
  destruct (block_count_range tv (capacity (wr e1)) (wlength (wr e1)) a Hn0) as [Hr1 Hr2].
  pose proof (emits_ack e1 a lo l) as Hem. rewrite He in Hem. fold tv in Hem. specialize (Hem Hi1 Ha).
  set (n := block_count _ _ _ _) in *. unfold emits_at in Hem. destruct (_ <=? _).
  2: { destruct Hem as (e' & E). rewrite E in Happ. discriminate. }
  destruct Hem as (w' & E & Hw). rewrite E in Happ. injection Happ as Hww. subst w'.
  destruct (ack_intervals tv a lo l Ha) as (_ & _ & Hl).
  destruct (ranges_of_prefix l lo (Z.to_nat n) Hl) as [k Hk].
  do 2 eexists.
  exists ((lo, largest_acked a + 1, num_ack_blocks (GetAckFrameInfo a) =? 0) ::
          ranges_of lo (take (Z.to_nat n) (blocks_of lo l))), (S k).
  split; [exact Hw|]. split; [lia|]. split.
  - destruct Ha as [-> _]. cbn [map fst take]. by rewrite Hk.
  - assert (tv = transport_version (version_ f2)) as Etv by (unfold tv; by rewrite Hver).
    clearbody tv. subst tv. apply process_frame_ack; try done; try lia.
Qed.
End Ack.

(** ** Witnesses and a defect *)

Definition demo_ack : QuicAckFrame := mkAckFrame 2000 (mkDelta 5000) []
  [(1990, 2001); (1000, 1900); (3, 5)].

Definition demo_writer_env (version cap : Z) : env :=
  mkEnv (demo_framer IS_SERVER version) [] (new_reader [] NETWORK_BYTE_ORDER) (new_writer cap NETWORK_BYTE_ORDER).

Lemma demo_polite : polite.
Proof. by constructor. Qed.

Lemma demo_ack_ok tv : ack_ok tv demo_ack 1990 [(1000, 1900); (3, 5)].
Proof. split; [reflexivity|]. intros _. vm_compute. reflexivity. Qed.

Lemma ack_roundtrip_witness :
  exists w t bs, AppendAckFrameAndTypeByte demo_ack (demo_writer_env 41 100) =
      (Ok tt, put_wr w (demo_writer_env 41 100)) /\
    wext (wr (demo_writer_env 41 100)) (t :: bs) w /\
    zlen (t :: bs) = GetAckFrameSize (demo_framer IS_SERVER 41) demo_ack /\
    reports (demo_framer IS_CLIENT 41) (wendian (wr (demo_writer_env 41 100))) bs [7] true
      (fun v => told (marked (rev_intervals (packets demo_ack)))
                  (OnAckFrameStart (largest_acked demo_ack) (ack_delay demo_ack) v).2) (process_frame demo_header t).
Proof.
  apply (ack_roundtrip (demo_framer IS_SERVER 41) (demo_framer IS_CLIENT 41) (demo_writer_env 41 100)
    demo_header demo_ack 1990 [(1000, 1900); (3, 5)] [7]); try reflexivity.
  - apply demo_polite.
  - apply demo_ack_ok.
  - vm_compute. congruence.
Defined.

Lemma ack_truncated_prefix_witness :
  exists w t bs rs k, wext (wr (demo_writer_env 39 16)) (t :: bs) w /\ (1 <= k)%nat /\
    map fst rs = take k (rev_intervals (packets demo_ack)) /\
    reports (demo_framer IS_CLIENT 39) (wendian (wr (demo_writer_env 39 16))) bs [] true
      (fun v => told rs (OnAckFrameStart (largest_acked demo_ack) (ack_delay demo_ack) v).2) (process_frame demo_header t).
Proof.
  exists (wr (snd (AppendAckFrameAndTypeByte demo_ack (demo_writer_env 39 16)))).
  apply (ack_truncated_prefix (demo_framer IS_SERVER 39) (demo_framer IS_CLIENT 39) (demo_writer_env 39 16)
    (wr (snd (AppendAckFrameAndTypeByte demo_ack (demo_writer_env 39 16))))
    demo_header demo_ack 1990 [(1000, 1900); (3, 5)] []); try reflexivity.
  - apply demo_polite.
  - apply demo_ack_ok.
  - vm_compute. congruence.
Defined.

(** An ack of two intervals in a packet with 10 bytes left. *)
Definition tight_ack : QuicAckFrame := mkAckFrame 70000 (mkDelta 0) [] [(70000, 70001); (69990, 69995)].

(** [GetSerializedFrameLength] grants a first frame that is an ack 10 bytes,
    for it can be truncated; with a 4-byte largest packet that leaves no room
    for a block, and the frame is written with the flag that announces blocks
    but without their number.  The peer takes the next byte for the number and
    rejects the packet. *)
Theorem ack_without_room_misread :
  let e := demo_writer_env 39 10 in
  let '(r, e') := AppendAckFrameAndTypeByte tight_ack e in
  (GetSerializedFrameLength (AckFrame (Some tight_ack)) 10 true true 4 e).1 = Ok 10 /\
  r = Ok tt /\
  let received := demo_env (demo_framer IS_CLIENT 39) (written (wr e')) NETWORK_BYTE_ORDER in
  let '(r2, e2) := ProcessFrameData demo_header received in
  r2 = Fail /\ error_ (fr e2) = QUIC_INVALID_ACK_DATA.
Proof. vm_compute. repeat split. Qed.

(** An ack cut off inside a gap of more than 255 packets ends with empty
    blocks, and the receiver's visitor, told of a range only for a block that is
    not empty, is never told that a range is the last. *)
Theorem ack_truncated_in_gap_no_last :
  let e := demo_writer_env 39 14 in
  let a := mkAckFrame 2000 (mkDelta 5000) [] [(1990, 2001); (3, 5)] in
  let e' := snd (AppendAckFrameAndTypeByte a e) in
  let received := demo_env (demo_framer IS_CLIENT 39) (written (wr e')) NETWORK_BYTE_ORDER in
  vs (snd (ProcessFrameData demo_header received)) =
    [EAckStart 2000 (mkDelta 5000); EAckRange 1990 2001 false].
Proof. vm_compute. reflexivity. Qed.
