(* ===== verification/Platform.v ===== *)
(** * The platform layer: [cf_platform.h], [posix.c], [quic-test/net/socket.{h,cc}]

    Socket addresses and their textual form, the datagram calls over the
    operating system's, and the [Socket] interface the QUIC and BBR programs
    are written against with its one implementation, [UdpSocket].  The system
    calls and [inet_addr] are parameters.

    [mininet-webrtc/razor/posix.c] and [quic-test/net/posix.c] are the same
    file but for the parser of addresses, which is modelled twice, and the size
    of buffers.  The creation of sockets, threads, mutexes and the rest of
    [posix.c] are in [Posix]. *)

From S2P Require Import Prelude.

(** ** Addresses *)

(** [struct sockaddr_in]; port and address are stored in network byte order. *)
Record su_addr := mkAddr { sin_family : Z; sin_port : Z; s_addr : Z }.

#[export] Instance su_addr_eq_dec : EqDecision su_addr.
Proof. solve_decision. Defined.

Definition AF_INET : Z := 2.
Definition IP_SIZE : Z := 32.

(** A 16-bit value whose bytes lie in network order, read on a little-endian host. *)
Definition htons (v : Z) : Z := le_val (be_bytes 2 v).
Definition ntohs (v : Z) : Z := be_val (le_bytes 2 v).

Lemma ntohs_htons v : in_u 16 v -> ntohs (htons v) = v.
Proof.
  intros Hv. unfold ntohs, htons, le_bytes, le_val.
  pose proof (be_bytes_val (rev (be_bytes 2 v)) ltac:(apply Forall_rev, be_bytes_ok)) as E.
  rewrite length_rev, be_bytes_length in E. rewrite E, rev_involutive. by apply be_val_bytes_id.
Qed.

Class Inet := inet_addr : list Z -> Z.

Section Addresses.
Context `{Inet}.

Definition su_set_addr (ip : list Z) (port : Z) : su_addr := mkAddr AF_INET (htons port) (inet_addr ip).

Definition su_set_addr2 (ip port : Z) : su_addr := mkAddr AF_INET (htons port) ip.

(** What becomes of [dst]. *)
Definition su_addr_to_addr (src : su_addr) : su_addr := mkAddr AF_INET (sin_port src) (s_addr src).

Definition su_addr_cmp (src dst : su_addr) : Z :=
  if s_addr dst <? s_addr src then 1
  else if s_addr src <? s_addr dst then -1
  else if sin_port dst <? sin_port src then 1
  else if sin_port src <? sin_port dst then -1
  else 0.

Definition su_addr_eq (src dst : su_addr) : Z :=
  if (s_addr src =? s_addr dst) && (sin_port src =? sin_port dst) then 0 else -1.

(** *** Text

    A [char *] is the list of the bytes from it to the end of the memory it
    points into; reading past them is [None]. *)

Definition colon : Z := 58.

(** [atoi] from a position: the digits after blanks and a sign. *)
Fixpoint atoi_digits (acc : Z) (mem : list Z) : option Z :=
  match mem with
  | [] => None
  | c :: mem => if (48 <=? c) && (c <=? 57) then atoi_digits (acc * 10 + (c - 48)) mem else Some acc
  end.

Fixpoint atoi (mem : list Z) : option Z :=
  match mem with
  | [] => None
  | c :: rest =>
      if (c =? 32) || ((9 <=? c) && (c <=? 13)) then atoi rest
      else if c =? 45 then v ← atoi_digits 0 rest; Some (- v)
      else if c =? 43 then atoi_digits 0 rest
      else atoi_digits 0 mem
  end.

(** The copy loop of [su_string_to_addr]: one byte, then more while the next is
    to be copied and there is room; [n] is the room left. *)
Fixpoint copy_ip (n : nat) (go : Z -> bool) (ip mem : list Z) : option (list Z * list Z) :=
  match mem with
  | [] => None
  | c :: mem =>
      match mem with
      | [] => None
      | d :: _ =>
          match n with
          | O => Some (ip ++ [c], mem)
          | S n => if go d then copy_ip n go (ip ++ [c]) mem else Some (ip ++ [c], mem)
          end
      end
  end.

(** The bytes of a C string in a buffer padded with zeros. *)
Fixpoint c_string (buf : list Z) : list Z :=
  match buf with [] => [] | c :: buf => if c =? 0 then [] else c :: c_string buf end.

Definition string_to_addr (go : Z -> bool) (str : list Z) : option su_addr :=
  '(ip, pos) ← copy_ip (Z.to_nat (IP_SIZE - 2)) go [] str;
  let pos := match pos with c :: rest => if c =? colon then rest else pos | [] => pos end in
  port ← atoi pos;
  Some (su_set_addr (c_string ip) (u16 port)).

(** [razor/posix.c]: the loop stops at the end of the string. *)
Definition razor_su_string_to_addr : list Z -> option su_addr :=
  string_to_addr (fun d => negb (d =? colon) && negb (d =? 0)).

(** [net/posix.c]: it compares the pointer with zero, not the byte. *)
Definition net_su_string_to_addr : list Z -> option su_addr :=
  string_to_addr (fun d => negb (d =? colon)).

(** [strrchr(in, ':')] *)
Fixpoint last_colon (i : Z) (found : option Z) (mem : list Z) : option (option Z) :=
  match mem with
  | [] => None
  | c :: mem =>
      if c =? 0 then Some found
      else last_colon (i + 1) (if c =? colon then Some i else found) mem
  end.

(** The buffer [ip] and the value of [*pport]. *)
Definition su_addrstr_to_iport (str ip : list Z) : option (list Z * Z) :=
  p ← last_colon 0 None str;
  match p with
  | Some len =>
      ip ← store ip 0 (ztake len str);
      ip ← store ip len [0];
      port ← atoi (zdrop (len + 1) str);
      Some (ip, u16 port)
  | None => Some (ip, -1)
  end.

(** ** What the parser makes of a string *)

Definition digit (c : Z) : Prop := 48 <= c <= 57.

Definition decimal (ds : list Z) : Z := foldl (fun acc c => acc * 10 + (c - 48)) 0 ds.

Lemma atoi_digits_ok ds acc c mem : Forall digit ds -> ~ digit c ->
  atoi_digits acc (ds ++ c :: mem) = Some (foldl (fun acc c => acc * 10 + (c - 48)) acc ds).
Proof.
  intros Hds Hc. revert acc. induction Hds as [|d ds Hd _ IH]; intros; cbn.
  - destruct (_ && _) eqn:E; [|done]. unfold digit in Hc. apply andb_true_iff in E. lia.
  - unfold digit in Hd. rewrite !(proj2 (Z.leb_le _ _)) by lia. apply IH.
Qed.

Lemma atoi_ok ds c mem : ds <> [] -> Forall digit ds -> ~ digit c ->
  atoi (ds ++ c :: mem) = Some (decimal ds).
Proof.
  intros Hn Hds Hc. destruct ds as [|d ds]; [done|]. pose proof (Forall_inv Hds) as Hd. unfold digit in Hd.
  cbn [app atoi]. replace (d =? 32) with false by lia. replace (d <=? 13) with false by lia.
  rewrite andb_false_r. cbn [orb]. replace (d =? 45) with false by lia. replace (d =? 43) with false by lia.
  by apply (atoi_digits_ok (d :: ds)).
Qed.

(** The loop copies the text before the byte it stops at. *)
Lemma copy_ip_ok n go ip c text stop rest :
  (length text <= n)%nat -> Forall (fun d => go d = true) text -> go stop = false ->
  copy_ip n go ip (c :: text ++ stop :: rest) = Some (ip ++ c :: text, stop :: rest).
Proof.
  intros Hn Ht Hs. revert n ip c Hn. induction Ht as [|d text Hd _ IH]; intros.
  - destruct n; cbn; [done|by rewrite Hs].
  - cbn in Hn. destruct n as [|n]; [lia|]. cbn [app]. cbn [copy_ip]. rewrite Hd.
    replace (ip ++ c :: d :: text) with ((ip ++ [c]) ++ d :: text) by (by rewrite <- app_assoc).
    apply IH. lia.
Qed.

(** Out of memory before it is out of room, the loop reads past it. *)
Lemma copy_ip_overrun n go ip mem :
  (length mem <= n)%nat -> Forall (fun d => go d = true) mem -> copy_ip n go ip mem = None.
Proof.
  intros Hn Hg. revert n ip Hn. induction Hg as [|c mem _ Hm IH]; intros; [by destruct n|].
  cbn in Hn. destruct n as [|n]; [lia|]. cbn [copy_ip]. destruct Hm as [|d mem Hd Hm]; [done|].
  rewrite Hd. apply IH. cbn in *. lia.
Qed.

Definition plain (c : Z) : Prop := c <> colon /\ c <> 0.

Lemma c_string_plain ip : Forall plain ip -> c_string ip = ip.
Proof.
  induction 1 as [|c ip Hc _ IH]; [done|]. destruct Hc as [_ Hc]. cbn. by rewrite (proj2 (Z.eqb_neq _ _) Hc), IH.
Qed.

Lemma string_to_addr_eval go c text stop rest port :
  (length text <= 30)%nat -> Forall (fun d => go d = true) text -> go stop = false ->
  Forall plain (c :: text) ->
  atoi (if stop =? colon then rest else stop :: rest) = Some port ->
  string_to_addr go (c :: text ++ stop :: rest) = Some (su_set_addr (c :: text) (u16 port)).
Proof.
  intros Hl Hg Hs Hp Ha. unfold string_to_addr.
  change (Z.to_nat (IP_SIZE - 2)) with 30%nat. rewrite copy_ip_ok by done.
  cbn [mbind option_bind app]. rewrite Ha. cbn [mbind option_bind]. by rewrite c_string_plain by done.
Qed.

Lemma plain_go text : Forall plain text ->
  Forall (fun d => negb (d =? colon) && negb (d =? 0) = true) text /\
  Forall (fun d => negb (d =? colon) = true) text.
Proof.
  intros Ht. split; (eapply Forall_impl; [exact Ht|]); intros d [H1 H2]; cbn;
    rewrite ?(proj2 (Z.eqb_neq _ _) H1), ?(proj2 (Z.eqb_neq _ _) H2); done.
Qed.

(** An address ["ip:port"] is parsed to that address and port by both
    copies of [su_string_to_addr].  Without a port the [razor] copy stops at the
    end of the string and takes port zero; the [net] copy tests the pointer
    instead of the byte, runs past the end of the string, and off the end of
    the memory when that is nearer than the size of its buffer. *)
Theorem string_to_addr_branches c text ds tail :
  (length text <= 30)%nat -> Forall plain (c :: text) ->
  ds <> [] -> Forall digit ds -> in_u 16 (decimal ds) ->
  let parsed port := Some (mkAddr AF_INET (htons port) (inet_addr (c :: text))) in
  razor_su_string_to_addr (c :: text ++ colon :: ds ++ 0 :: tail) = parsed (decimal ds) /\
  net_su_string_to_addr (c :: text ++ colon :: ds ++ 0 :: tail) = parsed (decimal ds) /\
  razor_su_string_to_addr (c :: text ++ 0 :: tail) = parsed 0 /\
  (Forall (fun d => d <> colon) tail -> (length text + length tail <= 28)%nat ->
   net_su_string_to_addr (c :: text ++ 0 :: tail) = None).
Proof.
  intros Hl Hp Hn Hds Hport parsed. destruct (plain_go text (Forall_inv_tail Hp)) as [G1 G2].
  assert (~ digit 0) as H0 by (unfold digit; lia).
  assert (u16 (decimal ds) = decimal ds) as E by (by apply wrap_id).
  unfold razor_su_string_to_addr, net_su_string_to_addr, parsed.
  split; [|split; [|split]].
  - rewrite (string_to_addr_eval _ _ _ _ _ (decimal ds)) by first [done|by apply atoi_ok].
    unfold su_set_addr. by rewrite E.
  - rewrite (string_to_addr_eval _ _ _ _ _ (decimal ds)) by first [done|by apply atoi_ok].
    unfold su_set_addr. by rewrite E.
  - by rewrite (string_to_addr_eval _ _ _ _ _ 0).
  - intros Ht Hle. unfold string_to_addr. rewrite copy_ip_overrun; [done| |].
    + cbn. rewrite length_app. cbn. change (Z.to_nat (IP_SIZE - 2)) with 30%nat. lia.
    + pose proof (Forall_inv Hp) as [Hc _]. constructor; [by rewrite (proj2 (Z.eqb_neq _ _) Hc)|].
      apply Forall_app. split; [done|]. constructor; [done|].
      eapply Forall_impl; [exact Ht|]. intros d Hd. by rewrite (proj2 (Z.eqb_neq _ _) Hd).
Qed.

(** The comparison is a total order on address and port, zero exactly where
    [su_addr_eq] is. *)
Lemma addr_cmp_eq a b :
  (su_addr_cmp a b = 0 <-> su_addr_eq a b = 0) /\ su_addr_cmp b a = - su_addr_cmp a b.
Proof.
  unfold su_addr_cmp, su_addr_eq. split; [split|]; repeat case_match; lia.
Qed.

End Addresses.

(** ** Datagrams *)

(** The system calls on the world [W]: what [recvfrom] returns with the sender
    and the bytes it stored, whether [select] saw the descriptor readable. *)
Class Sockets (W : Type) := {
  sys_recvfrom : Z -> Z -> W -> (Z * option (su_addr * list Z)) * W;
  sys_sendto : Z -> list Z -> su_addr -> W -> Z * W;
  sys_select : Z -> Z -> W -> (Z * bool) * W
}.

(** What [recvfrom] documents: a positive result is the number of bytes stored,
    at most the length given. *)
Definition datagram_ok (n r : Z) (d : option (su_addr * list Z)) : Prop :=
  0 < r -> exists a bs, d = Some (a, bs) /\ zlen bs = r /\ r <= n /\ bytes_ok bs.

Class SocketsOk (W : Type) `{Sockets W} : Prop :=
  recvfrom_ok : forall fd n w, let '(r, d, _) := sys_recvfrom fd n w in datagram_ok n r d.

Section Udp.
Context {W : Type} `{Sockets W}.

Definition su_udp_send (fd : Z) (addr : su_addr) (buf : list Z) (w : W) : Z * W :=
  let '(r, w) := sys_sendto fd buf addr w in (s32 r, w).

Definition su_udp_recv (fd len ms : Z) (w : W) : (Z * option (su_addr * list Z)) * W :=
  let recv (w : W) :=
    let '(r, d, w) := sys_recvfrom fd len w in
    if r <=? 0 then (-1, None, w) else (r, d, w) in
  if 0 <? ms then
    let '(n, isset, w) := sys_select fd (u32 (ms * 1000)) w in
    if n =? -1 then (-1, None, w)
    else if n =? 0 then (0, None, w)
    else if isset : bool then recv w else (-1, None, w)
  else recv w.

Lemma udp_recv_ok `{!SocketsOk W} fd len ms w :
  let '(r, d, _) := su_udp_recv fd len ms w in datagram_ok len r d.
Proof.
  assert (forall w, let '(r, d, _) := let '(r, d, w) := sys_recvfrom fd len w in
    if r <=? 0 then (-1, None, w) else (r, d, w) in datagram_ok len r d) as Hr.
  { intros w'. pose proof (recvfrom_ok fd len w') as R. destruct (sys_recvfrom fd len w') as [[r d] w1].
    destruct (r <=? 0); [intros ?; lia|done]. }
  unfold su_udp_recv. destruct (0 <? ms); [|apply Hr].
  destruct (sys_select _ _ w) as [[n isset] w1].
  destruct (n =? -1); [intros ?; lia|]. destruct (n =? 0); [intros ?; lia|].
  destruct isset; [apply Hr|intros ?; lia].
Qed.

End Udp.

(** ** The socket interface *)

(** [zsy::Socket]: what a program needs of the descriptor it was given. *)
Class Socket (W : Type) := {
  RecvFrom : Z -> W -> (Z * option (su_addr * list Z)) * W;
  SendTo : su_addr -> list Z -> W -> Z * W
}.

Class SocketOk (W : Type) `{Socket W} : Prop :=
  RecvFrom_ok : forall n w, let '(r, d, _) := RecvFrom n w in datagram_ok n r d.

Definition UdpSocket {W : Type} `{Sockets W} (fd : Z) : Socket W := {|
  RecvFrom len w := su_udp_recv fd len 0 w;
  SendTo peer buf w := su_udp_send fd peer buf w
|}.

#[export] Instance udp_socket_ok {W : Type} `{SocketsOk W} fd : @SocketOk W (UdpSocket fd).
Proof. intros n w. apply udp_recv_ok. Qed.

(** ** Witnesses *)

(** The dotted quad "10.0.0.1" as a checksum of its bytes. *)
Lemma string_to_addr_branches_witness :
  let H : Inet := fun ip => be_val (ztake 4 ip) in
  razor_su_string_to_addr [49; 48; 46; 49; 58; 56; 48; 48; 48; 0; 7] =
    Some (mkAddr 2 (htons 8000) (inet_addr [49; 48; 46; 49])) /\
  net_su_string_to_addr [49; 48; 46; 49; 0; 7] = None.
Proof.
  cbn zeta.
  pose proof (@string_to_addr_branches (fun ip => be_val (ztake 4 ip)) 49 [48; 46; 49]
    [56; 48; 48; 48] [7]) as P.
  destruct P as (P1 & _ & _ & P4).
  - cbn. lia.
  - repeat constructor; discriminate.
  - discriminate.
  - repeat constructor; unfold digit; lia.
  - split; [vm_compute; congruence|reflexivity].
  - split; [exact P1|apply P4; [repeat constructor; discriminate|cbn; lia]].
Defined.
