(* ===== verification/Posix.v ===== *)
(** * The rest of [posix.c]: descriptors, threads, locks, interfaces;
      [quic-test/net/socket.cc]

    What creates and configures sockets, over the system calls as operations of
    the world ([Kernel]); the calls of [pthread] and of the allocator
    ([Pthreads]); the enumeration of interfaces ([Interfaces]).  [net/posix.c]
    and [razor/posix.c] differ in the size of the buffers of [su_udp_create]
    and in the parser of addresses ([Platform]); the rest is the same text, and
    [RazorPosix] names it a second time.  A [NULL] pointer is [None]; [Fail] is a
    result of -1 or [NULL].  [SU_SERVER] is not defined. *)

From stdpp Require Import gmap.
From S2P Require Import Prelude Platform Clock.
Open Scope Z_scope.

Definition INADDR_ANY : Z := 0.

(** A 32-bit value whose bytes lie in network order, on a little-endian host. *)
Definition htonl (v : Z) : Z := le_val (be_bytes 4 v).
Definition ntohl (v : Z) : Z := be_val (le_bytes 4 v).

(** ** Sockets *)

(** Constants of the Linux headers. *)
Definition SOCK_STREAM : Z := 1.
Definition SOCK_DGRAM : Z := 2.
Definition IPPROTO_TCP : Z := 6.
Definition SOL_SOCKET : Z := 1.
Definition SO_SNDBUF : Z := 7.
Definition SO_RCVBUF : Z := 8.
Definition O_NONBLOCK : Z := 2048.

Class Kernel (W : Type) := {
  sys_socket : Z -> Z -> Z -> W -> Z * W;
  sys_setsockopt : Z -> Z -> Z -> Z -> W -> Z * W;
  sys_bind : Z -> su_addr -> W -> Z * W;
  sys_listen : Z -> Z -> W -> Z * W;
  sys_getfl : Z -> W -> Z * W;
  sys_setfl : Z -> Z -> W -> Z * W;
  sys_close : Z -> W -> W;
  sys_pause : Z -> Z -> W -> W
}.

(** [f(..)] whose result is used, and [f(..);]. *)
Definition call {W A} (f : W -> A * W) : M W A := fun w => let '(r, w) := f w in (Ok r, w).
Definition ignore {W A} (f : W -> A * W) : M W unit := fun w => (Ok tt, (f w).2).

Section Creation.
Context {W : Type} `{KN : Kernel W} `{IN : Inet}.

Definition su_socket_noblocking (fd : Z) : M W unit :=
  val ← call (sys_getfl fd);
  ignore (sys_setfl fd (s32 (Z.lor val O_NONBLOCK))).

(** Its result is the 0 that [su_socket_noblocking] returns. *)
Definition su_udp_noblocking (fd : Z) : M W unit := su_socket_noblocking fd.

Definition su_socket_destroy (fd : Z) : M W unit := fun w => (Ok tt, sys_close fd w).

(** The address [ip] stands for; [NULL] and the empty string are any. *)
Definition bind_address (ip : option (list Z)) : Z :=
  match ip with
  | None | Some [] => htonl INADDR_ANY
  | Some text => inet_addr text
  end.

(** The value stored in [*fd]; a result of -1 stores none. *)
Definition udp_create (buf_size : Z) (ip : option (list Z)) (port : Z) : M W Z :=
  s ← call (sys_socket AF_INET SOCK_DGRAM 0);
  ignore (sys_setsockopt s SOL_SOCKET SO_SNDBUF buf_size);;
  ignore (sys_setsockopt s SOL_SOCKET SO_RCVBUF buf_size);;
  let addr := mkAddr AF_INET (htons port) (bind_address ip) in
  bound ← call (sys_bind s addr);
  if bound <? 0 then mfail
  else su_socket_noblocking s;; mret s.

Definition su_udp_create : option (list Z) -> Z -> M W Z := udp_create (1024 * 1024).

Definition su_tcp_create : M W Z :=
  let buf_size := 16 * 1024 in
  s ← call (sys_socket AF_INET SOCK_STREAM IPPROTO_TCP);
  if s <? 0 then mfail
  else
    ignore (sys_setsockopt s SOL_SOCKET SO_RCVBUF buf_size);;
    ignore (sys_setsockopt s SOL_SOCKET SO_SNDBUF buf_size);;
    mret s.

Definition close_and_fail (s : Z) : M W Z := su_socket_destroy s;; mfail.

Definition su_tcp_listen_create (port : Z) : M W Z :=
  s ← call (sys_socket AF_INET SOCK_STREAM IPPROTO_TCP);
  if s <? 0 then mfail
  else
    flags ← call (sys_getfl s);
    if flags <? 0 then close_and_fail s
    else
      nonblocking ← call (sys_setfl s (Z.lor flags O_NONBLOCK));
      if nonblocking <? 0 then close_and_fail s
      else
        let buf_size := 16 * 1024 in
        ignore (sys_setsockopt s SOL_SOCKET SO_RCVBUF buf_size);;
        ignore (sys_setsockopt s SOL_SOCKET SO_SNDBUF buf_size);;
        bound ← call (sys_bind s (mkAddr AF_INET (htons port) (htonl INADDR_ANY)));
        if bound <? 0 then close_and_fail s
        else
          listening ← call (sys_listen s 4096);
          if listening =? -1 then close_and_fail s else mret s.

(** [su_sleep]: [select] without descriptors. *)
Definition su_sleep (seconds micro_seconds : Z) : M W unit := fun w =>
  (Ok tt, sys_pause (s64 (u64 (seconds + micro_seconds / 1000000))) (micro_seconds mod 1000000) w).

(** *** [UdpSocket]

    [fd_] has no value before [Bind] stores one. *)
Definition UdpSocket_Bind (ip : option (list Z)) (port : Z) (fd : option Z) : M W (option Z) := fun w =>
  match su_udp_create ip port w with
  | (Ok s, w) => (Ok (Some s), w)
  | (_, w) => (Ok fd, w)
  end.

Definition UdpSocket_destroy (fd : option Z) : M W unit :=
  match fd with Some fd => su_socket_destroy fd | None => mstuck end.

End Creation.

Definition su_platform_init : Z := 0.
Definition su_platform_uninit : Z := 0.

Definition su_get_sys_time {W : Type} `{TimeOfDay W} : M W Z :=
  tv ← call gettimeofday;
  mret (s64 (tv.2 + s64 (s64 (tv.1 * 1000) * 1000))).

(** [printf] and [sscanf] of addresses: [inet_ntop] stores the text and its
    terminator when they fit. *)
Class InetText := inet_ntop : Z -> Z -> list Z.

Section Text.
Context `{InetText}.

(** The buffer and [*port]; [Fail]: the result is [NULL]. *)
Definition su_addr_to_iport (addr : option su_addr) (str : option (list Z)) (len : Z) : res (list Z * Z) :=
  if len <? 24 then Fail
  else match addr, str with
  | Some addr, Some str =>
      let text := inet_ntop (sin_family addr) (s_addr addr) ++ [0] in
      let port := ntohs (sin_port addr) in
      if len <? zlen text then Ok (str, port)
      else match store str 0 text with Some str => Ok (str, port) | None => Stuck end
  | _, _ => Fail
  end.

(** It prints [str] into [str], which [sprintf] does not define. *)
Definition su_addr_to_string (addr : option su_addr) (str : option (list Z)) (len : Z) : res (list Z) :=
  match su_addr_to_iport addr str len with
  | Ok _ => Stuck
  | Fail => Fail
  | Stuck => Stuck
  end.

End Text.

(** ** Threads and locks *)

(** [malloc] and [pthread]; blocks are addresses.  A blocking call is its
    return.  [cond_at] is the offset of the member [cond] of [su_cond_t]. *)
Class Pthreads (W : Type) := {
  sizeof_mutex : Z; sizeof_cond_t : Z; cond_at : Z;
  sys_malloc : Z -> W -> option Z * W;
  sys_free : Z -> W -> W;
  pthread_create : Z -> Z -> W -> option Z * W;
  pthread_join : Z -> W -> W;
  pthread_mutex_init : Z -> W -> W;
  pthread_mutex_lock : Z -> W -> W;
  pthread_mutex_trylock : Z -> W -> Z * W;
  pthread_mutex_unlock : Z -> W -> W;
  pthread_mutex_destroy : Z -> W -> W;
  pthread_cond_init : Z -> W -> W;
  pthread_cond_wait : Z -> Z -> W -> W;
  pthread_cond_broadcast : Z -> W -> W;
  pthread_cond_destroy : Z -> W -> W
}.

Section Threads.
Context {W : Type} `{PT : Pthreads W}.

Definition does (f : W -> W) : M W unit := fun w => (Ok tt, f w).

(** A block from [malloc], used without a test. *)
Definition allocate (size : Z) : M W Z :=
  p ← call (sys_malloc size);
  match p with Some p => mret p | None => mstuck end.

(** When [pthread_create] fails it has not set [thread], which is then passed
    to [pthread_detach]. *)
Definition su_create_thread (func data : Z) : M W Z :=
  thread ← call (pthread_create func data);
  match thread with Some thread => mret thread | None => mstuck end.

Definition su_destroy_thread (thread : Z) : M W unit := does (pthread_join thread).

Definition su_create_mutex : M W Z :=
  mutex ← allocate sizeof_mutex;
  does (pthread_mutex_init mutex);;
  mret mutex.

Definition su_mutex_lock (mutex : Z) : M W unit := does (pthread_mutex_lock mutex).
Definition su_mutex_trylock (mutex : Z) : M W Z := call (pthread_mutex_trylock mutex).
Definition su_mutex_unlock (mutex : Z) : M W unit := does (pthread_mutex_unlock mutex).
Definition su_destroy_mutex (mutex : Z) : M W unit := does (pthread_mutex_destroy mutex);; does (sys_free mutex).

Definition su_create_cond : M W Z :=
  cond ← allocate sizeof_cond_t;
  does (pthread_cond_init (cond + cond_at));;
  does (pthread_mutex_init cond);;
  mret cond.

Definition su_cond_wait (c : Z) : M W unit :=
  does (pthread_mutex_lock c);;
  does (pthread_cond_wait (c + cond_at) c);;
  does (pthread_mutex_unlock c).

Definition su_cond_signal (c : Z) : M W unit :=
  does (pthread_mutex_lock c);;
  does (pthread_cond_broadcast (c + cond_at));;
  does (pthread_mutex_unlock c).

Definition su_destroy_cond (c : Z) : M W unit :=
  does (pthread_cond_destroy (c + cond_at));;
  does (pthread_mutex_destroy c);;
  does (sys_free c).

End Threads.

(** ** Interfaces *)

Definition IS_PRIVATE_IP (ip : Z) : bool :=
  (Z.shiftr ip 24 =? 127) || (Z.shiftr ip 24 =? 10) ||
  (Z.shiftr ip 20 =? Z.lor (Z.shiftl 172 4) 1) || (Z.shiftr ip 16 =? Z.lor (Z.shiftl 192 8) 168).

Definition IS_VPN (ip : Z) : bool := 250 <? Z.land (Z.shiftr ip 16) 0x00ff.

Definition MAXINTERFACES : Z := 16.

(** [ioctl(SIOCGIFCONF)]: the number of interfaces stored; [ioctl(SIOCGIFADDR)]
    of one; [inet_ntoa]. *)
Class Interfaces (W : Type) := {
  sys_ifconf : Z -> W -> option nat * W;
  sys_ifaddr : Z -> nat -> W -> option Z * W;
  inet_ntoa : Z -> list Z
}.

Section LocalIp.
Context {W : Type} `{KN : Kernel W} `{IF : Interfaces W} `{IN : Inet}.

(** [while (intrface-- > 0)] *)
Fixpoint local_ip_loop (fd : Z) (intrface : nat) (ip : Z) : M W Z :=
  match intrface with
  | O => mret ip
  | S intrface =>
      a ← call (sys_ifaddr fd intrface);
      match a with
      | None => local_ip_loop fd intrface ip
      | Some a =>
          let ip := inet_addr (inet_ntoa a) in
          if IS_PRIVATE_IP (ntohl ip) && negb (IS_VPN (ntohl ip)) then mret ip
          else local_ip_loop fd intrface ip
      end
  end.

Definition su_get_local_ip : M W Z :=
  fd ← call (sys_socket AF_INET SOCK_DGRAM 0);
  if fd <? 0 then mret (Z.land (-1) 0xffffffff)
  else
    n ← call (sys_ifconf fd);
    ip ← (match n with Some n => local_ip_loop fd n (-1) | None => mret (-1) end);
    su_socket_destroy fd;;
    mret (Z.land ip 0xffffffff).

End LocalIp.

Create HintDb own.

(** ** Who owns the descriptors *)

(** What the system calls document of the set of open descriptors. *)
Class KernelOk (W : Type) `{Kernel W} := {
  open_fds : W -> gset Z;
  socket_ok d t p w : let '(s, w') := sys_socket d t p w in
    (s < 0 /\ open_fds w' = open_fds w) \/
    (0 <= s /\ (s ∉ open_fds w) /\ open_fds w' = ({[s]} ∪ open_fds w));
  close_ok fd w : open_fds (sys_close fd w) = open_fds w ∖ {[fd]};
  bind_bad fd a w : fd < 0 -> (sys_bind fd a w).1 < 0;
  bind_open fd a w : open_fds (sys_bind fd a w).2 = open_fds w;
  setsockopt_open fd l n v w : open_fds (sys_setsockopt fd l n v w).2 = open_fds w;
  listen_open fd n w : open_fds (sys_listen fd n w).2 = open_fds w;
  getfl_open fd w : open_fds (sys_getfl fd w).2 = open_fds w;
  setfl_open fd n w : open_fds (sys_setfl fd n w).2 = open_fds w
}.

Section Ownership.
Context {W : Type} `{KO : KernelOk W} `{IN : Inet}.

(** The descriptors open afterwards are those of [w], and [s]. *)
Definition opened (w : W) (s : Z) (w' : W) : Prop :=
  (s ∉ open_fds w) /\ open_fds w' = ({[s]} ∪ open_fds w).

(** A creation that closes what it has opened when it fails. *)
Definition creates (m : M W Z) : Prop := forall w,
  match m w with
  | (Ok s, w') => opened w s w'
  | (Fail, w') => (open_fds w' = open_fds w)
  | (Stuck, _) => False
  end.

(** A step that leaves the descriptors alone. *)
Definition neutral {A} (m : M W A) : Prop := forall w, exists a w', m w = (Ok a, w') /\ open_fds w' = open_fds w.

Lemma neutral_call {A} (f : W -> A * W) : (forall w, open_fds (f w).2 = open_fds w) -> neutral (call f).
Proof. intros Hf w. unfold call. specialize (Hf w). destruct (f w) as [r w']. by exists r, w'. Qed.

Lemma neutral_ignore {A} (f : W -> A * W) : (forall w, open_fds (f w).2 = open_fds w) -> neutral (ignore f).
Proof. intros Hf w. by exists tt, (f w).2. Qed.

Lemma neutral_bind {A B} (m : M W A) (f : A -> M W B) : neutral m -> (forall a, neutral (f a)) -> neutral (m ≫= f).
Proof.
  intros Hm Hf w. destruct (Hm w) as (a & w1 & E & E1). destruct (Hf a w1) as (b & w2 & E2 & E3).
  exists b, w2. rewrite (M_bind_ok _ _ _ _ _ E), E2. split; [done|congruence].
Qed.

(** With descriptor [s] just opened. *)
Definition finishes (s : Z) (m : M W Z) : Prop := forall w w1, opened w s w1 ->
  match m w1 with
  | (Ok s', w') => s' = s /\ opened w s w'
  | (Fail, w') => (open_fds w' = open_fds w)
  | (Stuck, _) => False
  end.

Lemma finishes_bind {A} s (m : M W A) (f : A -> M W Z) :
  neutral m -> (forall a, finishes s (f a)) -> finishes s (m ≫= f).
Proof.
  intros Hm Hf w w1 [H1 H2]. destruct (Hm w1) as (a & w2 & E & E1). rewrite (M_bind_ok _ _ _ _ _ E).
  apply (Hf a w w2). split; [done|congruence].
Qed.

Lemma finishes_ret s : finishes s (mret s).
Proof. intros w w1 Ho. by split. Qed.

Lemma finishes_close s : finishes s (close_and_fail s).
Proof.
  intros w w1 [H1 H2]. unfold close_and_fail, su_socket_destroy, mbind, M_bind, mfail.
  rewrite close_ok, H2. set_solver.
Qed.

Lemma finishes_if s (b : bool) (m m' : M W Z) : finishes s m -> finishes s m' -> finishes s (if b then m else m').
Proof. by destruct b. Qed.

Lemma creates_socket d t p (f : Z -> M W Z) : (forall s, finishes s (f s)) ->
  creates (s ← call (sys_socket d t p); if s <? 0 then mfail else f s).
Proof.
  intros Hf w. unfold call, mbind, M_bind. pose proof (socket_ok d t p w) as Hs.
  destruct (sys_socket d t p w) as [s w1]. destruct Hs as [[Hs E]|(Hs & Hn & E)].
  - rewrite (proj2 (Z.ltb_lt _ _) Hs). done.
  - rewrite (proj2 (Z.ltb_ge _ _) Hs). specialize (Hf s w w1 (conj Hn E)).
    destruct (f s w1) as [[s'| |] w']; [|done..]. by destruct Hf as [-> ?].
Qed.

#[local] Hint Resolve finishes_ret finishes_close finishes_if neutral_call neutral_ignore bind_open
  setsockopt_open listen_open getfl_open setfl_open : own.

Ltac step_own := repeat first [apply finishes_if; [auto with own|]|apply finishes_bind; [auto with own|intros]|auto with own].

Lemma tcp_create_owns : creates su_tcp_create.
Proof. apply creates_socket. intros s. step_own. Qed.

Lemma tcp_listen_owns port : creates (su_tcp_listen_create port).
Proof. apply creates_socket. intros s. step_own. Qed.

Lemma noblocking_neutral fd : neutral (su_socket_noblocking fd).
Proof. unfold su_socket_noblocking. apply neutral_bind; intros; auto with own. Qed.

Lemma udp_create_eq buf_size ip port w :
  let '(s, w1) := sys_socket AF_INET SOCK_DGRAM 0 w in
  let w2 := (sys_setsockopt s SOL_SOCKET SO_RCVBUF buf_size (sys_setsockopt s SOL_SOCKET SO_SNDBUF buf_size w1).2).2 in
  let '(b, w3) := sys_bind s (mkAddr AF_INET (htons port) (bind_address ip)) w2 in
  udp_create buf_size ip port w = if b <? 0 then (Fail, w3) else (su_socket_noblocking s;; mret s) w3.
Proof.
  unfold udp_create. destruct (sys_socket _ _ _ w) as [s w1] eqn:Es. cbv zeta.
  rewrite (M_bind_ok _ _ _ s w1) by (unfold call; by rewrite Es).
  rewrite (M_bind_ok _ _ _ tt (sys_setsockopt s SOL_SOCKET SO_SNDBUF buf_size w1).2) by done.
  rewrite (M_bind_ok _ _ _ tt (sys_setsockopt s SOL_SOCKET SO_RCVBUF buf_size
    (sys_setsockopt s SOL_SOCKET SO_SNDBUF buf_size w1).2).2) by done.
  destruct (sys_bind _ _ _) as [b w3] eqn:E. rewrite (M_bind_ok _ _ _ b w3) by (unfold call; by rewrite E).
  by destruct (b <? 0).
Qed.

(** C27: Who owns a descriptor.  The TCP functions return one that was not open
    and is the only one more, and leave none open when they fail, at whichever
    call.  [su_udp_create], of either copy, leaves the socket open and unknown
    to the caller when [bind] fails; [UdpSocket::Bind] then reports nothing and
    leaves [fd_] as it was, without a value in a new object. *)
Theorem descriptor_ownership buf_size ip port w :
  creates su_tcp_create /\ creates (su_tcp_listen_create port) /\
  (let '(r, w') := udp_create buf_size ip port w in
   let s := (sys_socket AF_INET SOCK_DGRAM 0 w).1 in
   match r with
   | Ok fd => fd = s /\ opened w s w'
   | Fail => if s <? 0 then (open_fds w' = open_fds w) else opened w s w'
   | Stuck => False
   end) /\
  (forall w', su_udp_create ip port w = (Fail, w') -> UdpSocket_Bind ip port None w = (Ok None, w')).
Proof.
  split; [apply tcp_create_owns|]. split; [apply tcp_listen_owns|]. split.
  - pose proof (udp_create_eq buf_size ip port w) as E. pose proof (socket_ok AF_INET SOCK_DGRAM 0 w) as Hs.
    destruct (sys_socket _ _ _ w) as [s w1]. cbv zeta in E. cbn [fst].
    pose proof (bind_bad s (mkAddr AF_INET (htons port) (bind_address ip))
      (sys_setsockopt s SOL_SOCKET SO_RCVBUF buf_size (sys_setsockopt s SOL_SOCKET SO_SNDBUF buf_size w1).2).2) as Hbad.
    pose proof (bind_open s (mkAddr AF_INET (htons port) (bind_address ip))
      (sys_setsockopt s SOL_SOCKET SO_RCVBUF buf_size (sys_setsockopt s SOL_SOCKET SO_SNDBUF buf_size w1).2).2) as Hb.
    rewrite !setsockopt_open in Hb.
    destruct (sys_bind _ _ _) as [b w3]. cbn [fst snd] in *. rewrite E. unfold opened.
    destruct (b <? 0) eqn:Eb.
    + destruct Hs as [[Hs ?]|(Hs & ? & ?)]; [rewrite (proj2 (Z.ltb_lt _ _) Hs)|rewrite (proj2 (Z.ltb_ge _ _) Hs)];
        [congruence|split; [done|congruence]].
    + destruct (noblocking_neutral s w3) as (a & w4 & En & E4). rewrite (M_bind_ok _ _ _ _ _ En).
      destruct Hs as [[Hs ?]|(Hs & ? & ?)]; [specialize (Hbad Hs); apply Z.ltb_ge in Eb; lia|].
      split; [done|]. split; [done|congruence].
  - intros w' E. unfold UdpSocket_Bind. by rewrite E.
Qed.

End Ownership.

(** ** Which address is the local one *)

Section LocalIpProps.
Context {W : Type} `{KN : Kernel W} `{IF : Interfaces W} `{IN : Inet}.

Definition suitable (ip : Z) : bool := IS_PRIVATE_IP (ntohl ip) && negb (IS_VPN (ntohl ip)).

(** The addresses of interfaces [n-1] down to 0. *)
Definition answers (addrs : nat -> option Z) (n : nat) : list Z :=
  omap (fun i => (fun a => inet_addr (inet_ntoa a)) <$> addrs i) (rev (seq 0 n)).

Lemma local_ip_loop_eq addrs fd n ip w : (forall i w, sys_ifaddr fd i w = (addrs i, w)) ->
  local_ip_loop fd n ip w =
    (Ok (default (default ip (last (answers addrs n))) (head (filter suitable (answers addrs n)))), w).
Proof.
  intros Ha. revert ip. induction n as [|n IH]; intros ip; [done|]. cbn [local_ip_loop].
  rewrite (M_bind_ok _ _ _ (addrs n) w) by (unfold call; by rewrite Ha).
  unfold answers. rewrite seq_S, rev_app_distr. cbn [app rev omap list_omap Nat.add].
  change (omap _ (rev (seq 0 n))) with (answers addrs n).
  destruct (addrs n) as [a|]; cbn [fmap option_fmap option_map]; [|apply IH].
  fold (suitable (inet_addr (inet_ntoa a))). rewrite filter_cons.
  destruct (suitable _); [by rewrite decide_True|]. rewrite decide_False by (intros []). rewrite IH.
  f_equal. f_equal. f_equal. rewrite last_cons. by destruct (last _).
Qed.

(** The local address is that of the last interface whose address is private and
    not one of the private network's VPN range; without one, of the first
    interface that has an address; and all ones when there is none, or no
    socket to ask with. *)
Lemma local_ip addrs n w : (forall fd i w, sys_ifaddr fd i w = (addrs i, w)) ->
  (forall fd w, sys_ifconf fd w = (Some n, w)) -> Forall (in_u 32) (answers addrs n) ->
  (su_get_local_ip w).1 = Ok (
    if (sys_socket AF_INET SOCK_DGRAM 0 w).1 <? 0 then 2 ^ 32 - 1
    else default (default (2 ^ 32 - 1) (last (answers addrs n))) (head (filter suitable (answers addrs n)))).
Proof.
  intros Ha Hn Hr. unfold su_get_local_ip. destruct (sys_socket _ _ _ w) as [s w1] eqn:Es.
  rewrite (M_bind_ok _ _ _ s w1) by (unfold call; by rewrite Es). cbn [fst].
  destruct (s <? 0); [done|].
  rewrite (M_bind_ok _ _ _ (Some n) w1) by (unfold call; by rewrite Hn).
  rewrite (M_bind_ok _ _ _ _ _ (local_ip_loop_eq addrs s n (-1) w1 (Ha s))).
  rewrite (M_bind_ok _ _ _ tt (sys_close s w1)) by done. cbn [fst mret M_ret]. f_equal.
  change 0xffffffff with (Z.ones 32). rewrite Z.land_ones by lia.
  assert (forall a, a ∈ answers addrs n -> a mod 2 ^ 32 = a) as Hmod.
  { intros a Hin. rewrite Forall_forall in Hr. by apply (wrap_id 32), Hr. }
  destruct (head (filter suitable _)) as [a|] eqn:Eh; cbn.
  - apply Hmod. apply head_Some_elem_of in Eh. by apply list_elem_of_filter in Eh as [_ ?].
  - destruct (last (answers addrs n)) as [a|] eqn:El; cbn; [|done]. apply Hmod. by apply last_Some_elem_of.
Qed.

End LocalIpProps.

(** ** Witnesses *)

(** A system that is the set of its open descriptors; [bind] refuses port 80. *)
Definition next_fd (w : gset Z) : Z := foldr Z.max 2 (elements w) + 1.

#[export] Instance mini_kernel : Kernel (gset Z) := {
  sys_socket _ _ _ w := (next_fd w, {[next_fd w]} ∪ w);
  sys_setsockopt _ _ _ _ w := (0, w);
  sys_bind fd a w := (if (fd <? 0) || (sin_port a =? htons 80) then -1 else 0, w);
  sys_listen _ _ w := (0, w);
  sys_getfl _ w := (2, w);
  sys_setfl _ _ w := (0, w);
  sys_close fd w := w ∖ {[fd]};
  sys_pause _ _ w := w
}.

Lemma next_fd_fresh w : 0 <= next_fd w /\ next_fd w ∉ w.
Proof.
  unfold next_fd. assert (2 <= foldr Z.max 2 (elements w) /\ forall x, x ∈ elements w -> x <= foldr Z.max 2 (elements w)) as [H1 H2].
  { induction (elements w) as [|y l [IH1 IH2]]; cbn; [split; [lia|by intros ? ?%not_elem_of_nil]|].
    split; [lia|]. intros x [->|Hx]%elem_of_cons; [lia|]. specialize (IH2 x Hx). lia. }
  split; [lia|]. intros Hin%elem_of_elements%H2. lia.
Qed.

#[export] Instance mini_kernel_ok : KernelOk (gset Z).
Proof.
  refine {| open_fds (w : gset Z) := w |}; try done.
  - intros d t p w. cbn. right. destruct (next_fd_fresh w). by split.
  - intros fd a w Hfd. cbn. by rewrite (proj2 (Z.ltb_lt _ _) Hfd).
Defined.

(** With port 80 refused the datagram socket stays open. *)
Lemma descriptor_ownership_witness :
  let _ : Inet := fun _ => 0 in
  su_udp_create None 80 (∅ : gset Z) = (Fail, {[3]}) /\ UdpSocket_Bind None 80 None (∅ : gset Z) = (Ok None, {[3]}).
Proof.
  cbn zeta. assert (@su_udp_create _ mini_kernel (fun _ => 0) None 80 (∅ : gset Z) = (Fail, {[3]})) as E by (vm_compute; reflexivity).
  split; [exact E|].
  pose proof (@descriptor_ownership (gset Z) mini_kernel mini_kernel_ok (fun _ => 0) (1024 * 1024) None 80 ∅) as (_ & _ & _ & P).
  exact (P _ E).
Defined.
