(* ===== verification/RazorPosix.v ===== *)
(** * The copy of [posix.c] in [mininet-webrtc/razor]

    [razor/posix.c] is the text of [net/posix.c] but for the size of the buffers
    of [su_udp_create], and for the parser of addresses, which is
    [razor_su_string_to_addr] of [Platform]. *)

From S2P Require Import Prelude Platform Clock Posix.
Open Scope Z_scope.

Section Copy.
Context {W : Type} `{KN : Kernel W} `{IF : Interfaces W} `{IN : Inet} `{TX : InetText} `{PT : Pthreads W}
  `{TD : TimeOfDay W} `{SK : Sockets W}.

Definition su_udp_create : option (list Z) -> Z -> M W Z := Posix.udp_create (128 * 1024).
Definition su_tcp_create : M W Z := Posix.su_tcp_create.
Definition su_tcp_listen_create : Z -> M W Z := Posix.su_tcp_listen_create.
Definition su_socket_noblocking : Z -> M W unit := Posix.su_socket_noblocking.
Definition su_udp_noblocking : Z -> M W unit := Posix.su_socket_noblocking.
Definition su_socket_destroy : Z -> M W unit := Posix.su_socket_destroy.
Definition su_sleep : Z -> Z -> M W unit := Posix.su_sleep.
Definition su_get_sys_time : M W Z := Posix.su_get_sys_time.
Definition su_addr_to_iport : option su_addr -> option (list Z) -> Z -> res (list Z * Z) := Posix.su_addr_to_iport.
Definition su_addr_to_string : option su_addr -> option (list Z) -> Z -> res (list Z) := Posix.su_addr_to_string.
Definition su_addrstr_to_iport : list Z -> list Z -> option (list Z * Z) := Platform.su_addrstr_to_iport.
Definition su_set_addr : list Z -> Z -> su_addr := Platform.su_set_addr.
Definition su_set_addr2 : Z -> Z -> su_addr := Platform.su_set_addr2.
Definition su_addr_to_addr : su_addr -> su_addr := Platform.su_addr_to_addr.
Definition su_addr_cmp : su_addr -> su_addr -> Z := Platform.su_addr_cmp.
Definition su_addr_eq : su_addr -> su_addr -> Z := Platform.su_addr_eq.
Definition su_udp_send : Z -> su_addr -> list Z -> W -> Z * W := Platform.su_udp_send.
Definition su_udp_recv : Z -> Z -> Z -> W -> (Z * option (su_addr * list Z)) * W := Platform.su_udp_recv.
Definition su_create_thread : Z -> Z -> M W Z := Posix.su_create_thread.
Definition su_destroy_thread : Z -> M W unit := Posix.su_destroy_thread.
Definition su_create_mutex : M W Z := Posix.su_create_mutex.
Definition su_mutex_lock : Z -> M W unit := Posix.su_mutex_lock.
Definition su_mutex_trylock : Z -> M W Z := Posix.su_mutex_trylock.
Definition su_mutex_unlock : Z -> M W unit := Posix.su_mutex_unlock.
Definition su_destroy_mutex : Z -> M W unit := Posix.su_destroy_mutex.
Definition su_create_cond : M W Z := Posix.su_create_cond.
Definition su_cond_wait : Z -> M W unit := Posix.su_cond_wait.
Definition su_cond_signal : Z -> M W unit := Posix.su_cond_signal.
Definition su_destroy_cond : Z -> M W unit := Posix.su_destroy_cond.
Definition su_get_local_ip : M W Z := Posix.su_get_local_ip.

End Copy.
