(* ===== verification/Cmdline.v ===== *)
(** * The option parser: [quic-test/myquic/cmdline.h]

    The programs declare their options in a [cmdline::parser], parse the command
    line and read the options' values.  The templates are instantiated at [int]
    and [std::string], so an option's type is one of these ([ty], which is also
    what [dynamic_cast] compares); [lexical_cast] is the stream extraction of
    the standard library at these types.  An exception is the left of a sum, or
    [None] where only its being thrown matters ([reader]).  [ordered] holds
    pointers to the objects of [options]; it is the list of their keys.  A
    [char *] of [argv] is a string without the character 0. *)

From Stdlib Require Import Ascii.
From Stdlib Require String.
From stdpp Require Import sorting gmap.
From S2P Require Import Prelude.
Open Scope Z_scope.

(** The character of a code. *)
Definition ch (n : nat) : ascii := Ascii.ascii_of_nat n.
#[global] Arguments ch : simpl never.

(** ** The values of options *)

Inductive ty := TInt | TString.

#[export] Instance ty_eq_dec : EqDecision ty.
Proof. solve_decision. Defined.

Definition val (T : ty) : Type := match T with TInt => Z | TString => string end.

#[export] Instance val_eq_dec T : EqDecision (val T).
Proof. destruct T; exact _. Defined.

(** [operator<=] of the type; a [std::string] compares its bytes. *)
Definition val_leb {T : ty} : val T -> val T -> bool :=
  match T with TInt => Z.leb | TString => String.leb end.

(** *** Decimal numbers

    [std::istringstream >> int] skips blanks and takes a sign and the digits
    that follow; no digit, or a value outside [int], sets the failure bit. *)

Definition is_space (c : ascii) : bool :=
  let n := Ascii.nat_of_ascii c in (n =? 32)%nat || ((9 <=? n)%nat && (n <=? 13)%nat).

Definition digit_val (c : ascii) : option Z :=
  let n := Ascii.nat_of_ascii c in
  if (48 <=? n)%nat && (n <=? 57)%nat then Some (Z.of_nat n - 48) else None.

Fixpoint skip_spaces (s : string) : string :=
  match s with String c s' => if is_space c then skip_spaces s' else s | EmptyString => s end.

(** The value of the digits in front, whether there is one, and the rest. *)
Fixpoint take_digits (acc : Z) (some : bool) (s : string) : Z * bool * string :=
  match s with
  | EmptyString => (acc, some, s)
  | String c s' =>
      match digit_val c with
      | Some d => take_digits (acc * 10 + d) true s'
      | None => (acc, some, s)
      end
  end.

Definition is_char (n : nat) (c : ascii) : bool := (Ascii.nat_of_ascii c =? n)%nat.

(** The value read and what is left in the stream; [None]: [fail()]. *)
Definition extract_int (s : string) : option (Z * string) :=
  let s := skip_spaces s in
  let '(neg, s) :=
    match s with
    | String c s' => if is_char 45 c then (true, s') else if is_char 43 c then (false, s') else (false, s)
    | EmptyString => (false, s)
    end in
  let '(n, some, rest) := take_digits 0 false s in
  let v := if neg : bool then - n else n in
  if some && (- 2 ^ 31 <=? v) && (v <? 2 ^ 31) then Some (v, rest) else None.

(** [lexical_cast<T>(std::string)]; [None]: [std::bad_cast].  The whole string
    must have been read ([eof]). *)
Definition lexical_cast (T : ty) : string -> option (val T) :=
  match T with
  | TInt => fun arg =>
      '(ret, rest) ← extract_int arg;
      match rest with EmptyString => Some ret | String _ _ => None end
  | TString => fun arg => Some arg
  end.

(** [std::ostringstream << int]: the digits of a number below [10^(n+1)]. *)
Fixpoint digits (n : nat) (v : Z) (rest : string) : string :=
  let rest := String (Ascii.ascii_of_nat (Z.to_nat (48 + v mod 10))) rest in
  match n with
  | O => rest
  | S n => if v / 10 =? 0 then rest else digits n (v / 10) rest
  end.

Definition to_string (v : Z) : string :=
  if v <? 0 then String (ch 45) (digits 9 (- v) "") else digits 9 v "".

(** [lexical_cast<std::string>(T)] *)
Definition default_value (T : ty) : val T -> string :=
  match T with TInt => to_string | TString => fun s => s end.

Definition readable_typename (T : ty) : string :=
  match T with TInt => "int" | TString => "string" end.

(** *** Readers *)

(** What turns an argument into a value; [None]: it throws. *)
Definition reader (T : ty) : Type := string -> option (val T).

Definition default_reader {T : ty} : reader T := fun str => lexical_cast T str.

Definition range_reader {T : ty} (low high : val T) : reader T := fun s =>
  ret ← default_reader s;
  if negb (val_leb low ret && val_leb ret high) then None else Some ret.

Definition range {T : ty} (low high : val T) : reader T := range_reader low high.

(** [std::find(alt.begin(), alt.end(), ret)] *)
Definition oneof_reader {T : ty} (alt : list (val T)) : reader T := fun s =>
  ret ← default_reader s;
  if decide (ret ∈ alt) then Some ret else None.

(** The ten overloads: each [add]s its arguments in order. *)
Definition oneof {T : ty} (args : list (val T)) : reader T :=
  oneof_reader (foldl (fun alt v => alt ++ [v]) [] args).

(** ** Options *)

(** [option_base] and its two families of subclasses. *)
Inductive option_base : Type :=
  | option_without_value (nam : string) (snam : ascii) (desc : string) (has : bool)
  | option_with_value (T : ty) (nam : string) (snam : ascii) (need : bool) (desc : string)
      (has : bool) (def actual : val T) (read : reader T).

Definition full_description (T : ty) (need : bool) (def : val T) (desc : string) : string :=
  desc +:+ " (" +:+ readable_typename T +:+
  (if need then "" else " [=" +:+ default_value T def +:+ "]") +:+ ")".

Definition new_option_without_value (name : string) (short_name : ascii) (desc : string) : option_base :=
  option_without_value name short_name desc false.

Definition new_option_with_value {T : ty} (name : string) (short_name : ascii) (need : bool)
    (def : val T) (desc : string) (F : reader T) : option_base :=
  option_with_value T name short_name need (full_description T need def desc) false def def F.

Definition has_value (o : option_base) : bool :=
  match o with option_without_value _ _ _ _ => false | option_with_value _ _ _ _ _ _ _ _ _ => true end.

(** [set()] *)
Definition set (o : option_base) : bool * option_base :=
  match o with
  | option_without_value nam snam desc _ => (true, option_without_value nam snam desc true)
  | option_with_value _ _ _ _ _ _ _ _ _ => (false, o)
  end.

(** [set(value)]; what the reader throws is caught. *)
Definition set_value (value : string) (o : option_base) : bool * option_base :=
  match o with
  | option_without_value _ _ _ _ => (false, o)
  | option_with_value T nam snam need desc has def actual read =>
      match read value with
      | Some actual => (true, option_with_value T nam snam need desc true def actual read)
      | None => (false, o)
      end
  end.

Definition has_set (o : option_base) : bool :=
  match o with
  | option_without_value _ _ _ has => has
  | option_with_value _ _ _ _ _ has _ _ _ => has
  end.

Definition valid (o : option_base) : bool :=
  match o with
  | option_without_value _ _ _ _ => true
  | option_with_value _ _ _ need _ has _ _ _ => if need && negb has then false else true
  end.

Definition must (o : option_base) : bool :=
  match o with
  | option_without_value _ _ _ _ => false
  | option_with_value _ _ _ need _ _ _ _ _ => need
  end.

Definition name (o : option_base) : string :=
  match o with
  | option_without_value nam _ _ _ => nam
  | option_with_value _ nam _ _ _ _ _ _ _ => nam
  end.

Definition short_name (o : option_base) : ascii :=
  match o with
  | option_without_value _ snam _ _ => snam
  | option_with_value _ _ snam _ _ _ _ _ _ => snam
  end.

Definition description (o : option_base) : string :=
  match o with
  | option_without_value _ _ desc _ => desc
  | option_with_value _ _ _ _ desc _ _ _ _ => desc
  end.

Definition short_description (o : option_base) : string :=
  match o with
  | option_without_value nam _ _ _ => "--" +:+ nam
  | option_with_value T nam _ _ _ _ _ _ _ => "--" +:+ nam +:+ "=" +:+ readable_typename T
  end.

(** ** The parser *)

Record parser := mkParser {
  options : gmap string option_base;
  ordered : list string;
  ftr : string;
  prog_name : string;
  others : list string;
  errors : list string
}.

Definition new_parser : parser := mkParser ∅ [] "" "" [] [].

Definition with_options f p := mkParser (f (options p)) (ordered p) (ftr p) (prog_name p) (others p) (errors p).
Definition with_others f p := mkParser (options p) (ordered p) (ftr p) (prog_name p) (f (others p)) (errors p).
Definition with_errors f p := mkParser (options p) (ordered p) (ftr p) (prog_name p) (others p) (f (errors p)).
Definition with_prog_name n p := mkParser (options p) (ordered p) (ftr p) n (others p) (errors p).

(** [errors.push_back] *)
Definition push_error (e : string) : parser -> parser := with_errors (fun es => es ++ [e]).

(** The order a [std::map] of strings is iterated in. *)
Definition key_order (a b : string) : Prop := String.leb a b = true.

#[export] Instance key_order_dec a b : Decision (key_order a b).
Proof. unfold key_order. exact _. Defined.

Definition iterate (m : gmap string option_base) : list (string * option_base) :=
  merge_sort (fun a b => key_order a.1 b.1) (map_to_list m).

(** The two bodies of [add]; the left is the message of the exception. *)
Definition add_option (o : option_base) (p : parser) : string + parser :=
  match options p !! name o with
  | Some _ => inl ("multiple definition: " +:+ name o)
  | None =>
      inr (mkParser (<[name o := o]> (options p)) (ordered p ++ [name o]) (ftr p) (prog_name p) (others p) (errors p))
  end.

Definition add (name : string) (short_name : ascii) (desc : string) : parser -> string + parser :=
  add_option (new_option_without_value name short_name desc).

Definition add_reader {T : ty} (name : string) (short_name : ascii) (desc : string) (need : bool)
    (def : val T) (F : reader T) : parser -> string + parser :=
  add_option (new_option_with_value name short_name need def desc F).

Definition add_value {T : ty} (name : string) (short_name : ascii) (desc : string) (need : bool)
    (def : val T) : parser -> string + parser :=
  add_reader name short_name desc need def default_reader.

Definition footer (f : string) (p : parser) : parser :=
  mkParser (options p) (ordered p) f (prog_name p) (others p) (errors p).

Definition set_program_name (n : string) (p : parser) : parser := with_prog_name n p.

Definition exist (name : string) (p : parser) : string + bool :=
  match options p !! name with
  | None => inl ("there is no flag: --" +:+ name)
  | Some o => inr (has_set o)
  end.

(** [get<T>(name)] *)
Definition get (T : ty) (name : string) (p : parser) : string + val T :=
  match options p !! name with
  | None => inl ("there is no flag: --" +:+ name)
  | Some (option_with_value T' _ _ _ _ _ _ actual _) =>
      match decide (T' = T) with
      | left E => inr (eq_rect T' val actual T E)
      | right _ => inl ("type mismatch flag '" +:+ name +:+ "'")
      end
  | Some (option_without_value _ _ _ _) => inl ("type mismatch flag '" +:+ name +:+ "'")
  end.

Definition rest (p : parser) : list string := others p.

(** [set_option(name)] *)
Definition set_option (name : string) (p : parser) : parser :=
  match options p !! name with
  | None => push_error ("undefined option: --" +:+ name) p
  | Some o =>
      let '(ok, o) := set o in
      let p := with_options <[name := o]> p in
      if ok then p else push_error ("option needs value: --" +:+ name) p
  end.

(** [set_option(name, value)] *)
Definition set_option_value (name value : string) (p : parser) : parser :=
  match options p !! name with
  | None => push_error ("undefined option: --" +:+ name) p
  | Some o =>
      let '(ok, o) := set_value value o in
      let p := with_options <[name := o]> p in
      if ok then p else push_error ("option value is invalid: --" +:+ name +:+ "=" +:+ value) p
  end.

(** *** The arguments *)

(** The table of short names; the left is the ambiguous one. *)
Fixpoint short_names (entries : list (string * option_base)) (lookup : gmap ascii string) : ascii + gmap ascii string :=
  match entries with
  | [] => inr lookup
  | (first, o) :: entries =>
      if (String.length first =? 0)%nat then short_names entries lookup
      else
        let initial := short_name o in
        if decide (initial = ch 0) then short_names entries lookup
        else if decide (is_Some (lookup !! initial)) then inl initial
        else short_names entries (<[initial := first]> lookup)
  end.

(** A short option that is not the last of its argument. *)
Definition short_option (lookup : gmap ascii string) (c : ascii) (p : parser) : parser :=
  match lookup !! c with
  | None => push_error ("undefined short option: -" +:+ String c "") p
  | Some n => if decide (n = "") then push_error ("ambiguous short option: -" +:+ String c "") p else set_option n p
  end.

(** The loop over [argv[i][1..]]: it handles all characters but the last, which
    it returns. *)
Fixpoint short_options (lookup : gmap ascii string) (last : ascii) (cs : string) (p : parser) : ascii * parser :=
  match cs with
  | EmptyString => (last, p)
  | String c cs => short_options lookup c cs (short_option lookup last p)
  end.

(** [strncmp(s, "--", 2) == 0] and what follows. *)
Definition after_dashes (s : string) : option string :=
  match s with String a (String b s') => if is_char 45 a && is_char 45 b then Some s' else None | _ => None end.

(** [strncmp(s, "-", 1) == 0] *)
Definition after_dash (s : string) : option string :=
  match s with String a s' => if is_char 45 a then Some s' else None | EmptyString => None end.

(** [strchr(s, '=')]: what is before and after it. *)
Fixpoint split_equals (s : string) : option (string * string) :=
  match s with
  | EmptyString => None
  | String c s' => if is_char 61 c then Some ("", s') else '(n, v) ← split_equals s'; Some (String c n, v)
  end.

(** The loop of [parse] from argument 1 on. *)
Fixpoint parse_args (lookup : gmap ascii string) (args : list string) (p : parser) : parser :=
  match args with
  | [] => p
  | arg :: args =>
      match after_dashes arg with
      | Some body =>
          match split_equals body with
          | Some (n, v) => parse_args lookup args (set_option_value n v p)
          | None =>
              match options p !! body with
              | None => parse_args lookup args (push_error ("undefined option: --" +:+ body) p)
              | Some o =>
                  if has_value o then
                    match args with
                    | [] => parse_args lookup args (push_error ("option needs value: --" +:+ body) p)
                    | v :: args => parse_args lookup args (set_option_value body v p)
                    end
                  else parse_args lookup args (set_option body p)
              end
          end
      | None =>
          match after_dash arg with
          | Some EmptyString => parse_args lookup args p
          | Some (String c cs) =>
              let '(last, p) := short_options lookup c cs p in
              match lookup !! last with
              | None => parse_args lookup args (push_error ("undefined short option: -" +:+ String last "") p)
              | Some n =>
                  if decide (n = "") then
                    parse_args lookup args (push_error ("ambiguous short option: -" +:+ String last "") p)
                  else
                    match args, options p !! n with
                    | v :: args', Some o =>
                        if has_value o then parse_args lookup args' (set_option_value n v p)
                        else parse_args lookup args (set_option n p)
                    | _, _ => parse_args lookup args (set_option n p)
                    end
              end
          | None => parse_args lookup args (with_others (fun os => os ++ [arg]) p)
          end
      end
  end.

Definition check_needed (p : parser) : parser :=
  foldl (fun p '(first, o) => if valid o then p else push_error ("need option: --" +:+ first) p) p (iterate (options p)).

(** [parse(argc, argv)] *)
Definition parse (argv : list string) (p : parser) : bool * parser :=
  let p := with_others (fun _ => []) (with_errors (fun _ => []) p) in
  match argv with
  | [] => (false, push_error "argument number must be longer than 0" p)
  | arg0 :: args =>
      let p := if decide (prog_name p = "") then with_prog_name arg0 p else p in
      match short_names (iterate (options p)) ∅ with
      | inl initial => (false, push_error ("short option '" +:+ String initial "" +:+ "' is ambiguous") p)
      | inr lookup =>
          let p := check_needed (parse_args lookup args p) in
          ((length (errors p) =? 0)%nat, p)
      end
  end.

(** [c_str()]: what a reader of a C string sees. *)
Fixpoint c_str (s : string) : string :=
  match s with
  | EmptyString => ""
  | String c s => if is_char 0 c then "" else String c (c_str s)
  end.

(** [parse(std::vector)]: [&argv[0]] needs an element. *)
Definition parse_vector (args : list string) : M parser bool := fun p =>
  match args with
  | [] => (Stuck, p)
  | _ => let '(ok, p) := parse (c_str <$> args) p in (Ok ok, p)
  end.

(** The loop of [parse(std::string)]; the left is the error. *)
Fixpoint split_args (arg : string) (in_quote : bool) (buf : string) (args : list string) : string + list string :=
  match arg with
  | EmptyString =>
      if in_quote then inl "quote is not closed"
      else inr (if (0 <? String.length buf)%nat then args ++ [buf] else args)
  | String c arg =>
      if is_char 34 c then split_args arg (negb in_quote) buf args
      else if is_char 32 c && negb in_quote then split_args arg in_quote "" (args ++ [buf])
      else if is_char 92 c then
        match arg with
        | EmptyString => inl "unexpected occurrence of '\' at end of string"
        | String c arg => split_args arg in_quote (buf +:+ String c "") args
        end
      else split_args arg in_quote (buf +:+ String c "") args
  end.

(** [parse(std::string)], with the lines it prints. *)
Definition parse_string (arg : string) (p : parser) : list string * (res bool * parser) :=
  match split_args arg false "" [] with
  | inl e => ([], (Ok false, push_error e p))
  | inr args => ((fun a => String (ch 34) (a +:+ String (ch 34) "")) <$> args, parse_vector args p)
  end.

(** *** Reports *)

Definition error (p : parser) : string := default "" (head (errors p)).

Definition endl : string := String (ch 10) "".

Definition error_full (p : parser) : string := foldl (fun oss e => oss +:+ e +:+ endl) "" (errors p).

(** The objects [ordered] points to. *)
Definition ordered_options (p : parser) : list option_base := omap (fun n => options p !! n) (ordered p).

Fixpoint spaces (n : nat) : string := match n with O => "" | S n => String (ch 32) (spaces n) end.

Definition usage_line (max_width : nat) (o : option_base) : string :=
  (if decide (short_name o = ch 0) then "      " else "  -" +:+ String (short_name o) "" +:+ ", ") +:+
  "--" +:+ name o +:+ spaces (max_width + 4 - String.length (name o)) +:+ description o +:+ endl.

Definition usage (p : parser) : string :=
  let os := ordered_options p in
  let oss := "usage: " +:+ prog_name p +:+ " " in
  let oss := foldl (fun oss o => if must o then oss +:+ short_description o +:+ " " else oss) oss os in
  let oss := oss +:+ "[options] ... " +:+ ftr p +:+ endl +:+ "options:" +:+ endl in
  let max_width := foldl (fun w o => Nat.max w (String.length (name o))) O os in
  foldl (fun oss o => oss +:+ usage_line max_width o) oss os.

(** What [check] comes to: the exit status with what was printed to [cerr], or
    its return. *)
Inductive checked :=
  | exits (status : Z) (cerr : string)
  | returns.

Definition check (argc : Z) (ok : bool) (p : parser) : string + checked :=
  let failed := if ok then returns else exits 1 (error p +:+ endl +:+ usage p) in
  if (argc =? 1) && negb ok then inr (exits 0 (usage p))
  else match exist "help" p with
       | inl e => inl e
       | inr true => inr (exits 0 (usage p))
       | inr false => inr failed
       end.

Definition add_help (p : parser) : string + parser :=
  match options p !! "help" with
  | Some _ => inr p
  | None => add "help" (ch 63) "print this message" p
  end.

(** [parse_check(argc, argv)] *)
Definition parse_check (argv : list string) (p : parser) : string + (checked * parser) :=
  match add_help p with
  | inl e => inl e
  | inr p =>
      let '(ok, p) := parse argv p in
      match check (zlen argv) ok p with inl e => inl e | inr c => inr (c, p) end
  end.

(** [parse_check(std::vector)] *)
Definition parse_check_vector (args : list string) (p : parser) : string + (res checked * parser) :=
  match add_help p with
  | inl e => inl e
  | inr p =>
      match parse_vector args p with
      | (Ok ok, p) => match check (zlen args) ok p with inl e => inl e | inr c => inr (Ok c, p) end
      | (_, p) => inr (Stuck, p)
      end
  end.

(** [parse_check(std::string)] *)
Definition parse_check_string (arg : string) (p : parser) : string + (res checked * parser) :=
  match add_help p with
  | inl e => inl e
  | inr p =>
      match parse_string arg p with
      | (_, (Ok ok, p)) => match check 0 ok p with inl e => inl e | inr c => inr (Ok c, p) end
      | (_, (_, p)) => inr (Stuck, p)
      end
  end.
