(* ===== verification/CmdlineProps.v ===== *)
(** * What the option parser accepts

    The command lines [parse] accepts are described by a grammar: an [item] is
    an argument, or two, and comes to settings of options.  [parse] accepts
    exactly the lines the grammar derives, and its options end up with what the
    settings say.  [parse(std::string)] is the inverse of quoting.  The values
    of options are always the default or something the reader made. *)

From Stdlib Require Import Ascii.
From Stdlib Require String.
From stdpp Require Import sorting gmap.
From S2P Require Import Prelude Cmdline.
Open Scope Z_scope.

(** ** The grammar *)

(** An option, and the value it is to get if it takes one. *)
Abbreviation setting := (string * option string)%type.

Inductive item :=
  | Word (w : string)
  | Dash
  | Equals (n v : string)
  | Long (n : string) (v : option string)
  | Shorts (ns : list string) (n : string) (v : option string).

Definition settings (it : item) : list setting :=
  match it with
  | Word _ | Dash => []
  | Equals n v => [(n, Some v)]
  | Long n v => [(n, v)]
  | Shorts ns n v => ((fun n => (n, None)) <$> ns) ++ [(n, v)]
  end.

Definition words (it : item) : list string := match it with Word w => [w] | _ => [] end.

Definition setting_on (v : option string) (o : option_base) : bool * option_base :=
  match v with None => set o | Some v => set_value v o end.

Definition apply_setting (m : gmap string option_base) (s : setting) : gmap string option_base :=
  alter (fun o => (setting_on s.2 o).2) s.1 m.

Definition settle : list setting -> gmap string option_base -> gmap string option_base :=
  fun ss m => foldl apply_setting m ss.
#[global] Arguments settle : simpl never.

Section Grammar.
Variable m : gmap string option_base.

Definition short_char (n : string) : ascii := from_option short_name (ch 0) (m !! n).

Definition string_of (cs : list ascii) : string := foldr String "" cs.

(** How an item is spelled. *)
Definition render (it : item) : list string :=
  match it with
  | Word w => [w]
  | Dash => [String (ch 45) ""]
  | Equals n v => [String (ch 45) (String (ch 45) (n +:+ String (ch 61) v))]
  | Long n v => String (ch 45) (String (ch 45) n) :: option_list v
  | Shorts ns n v => String (ch 45) (string_of (short_char <$> ns ++ [n])) :: option_list v
  end.

(** The option exists, takes a value or not as the setting says, and reads the
    value. *)
Definition setting_ok (s : setting) : Prop :=
  exists o, m !! s.1 = Some o /\ (setting_on s.2 o).1 = true.

Definition has_short (n : string) : Prop := n <> "" /\ short_char n <> ch 0.

Definition spelled_ok (it : item) : Prop :=
  match it with
  | Word w => after_dash w = None
  | Dash => True
  | Equals n _ | Long n _ => split_equals n = None
  | Shorts ns n _ => Forall has_short (ns ++ [n]) /\ head (short_char <$> ns ++ [n]) <> Some (ch 45)
  end.

Definition item_ok (it : item) : Prop := Forall setting_ok (settings it) /\ spelled_ok it.

Definition unambiguous : Prop :=
  forall n n', has_short n -> has_short n' -> short_char n = short_char n' -> n = n'.

(** The table of short names. *)
Definition table_ok (lookup : gmap ascii string) : Prop :=
  forall c n, lookup !! c = Some n <-> has_short n /\ short_char n = c.

End Grammar.
#[global] Arguments short_char : simpl never.

(** ** Options that differ in what was set only *)

#[export] Instance option_base_equiv : Equiv option_base := fun o o' =>
  name o = name o' /\ short_name o = short_name o' /\ has_value o = has_value o' /\
  forall v, (setting_on v o).1 = (setting_on v o').1.

#[export] Instance option_base_equivalence : Equivalence (≡@{option_base}).
Proof.
  split; unfold equiv, option_base_equiv.
  - done.
  - intros o o' (? & ? & ? & E). repeat split; auto.
  - intros o o' o'' (? & ? & ? & E) (? & ? & ? & E'). repeat split; congruence.
Qed.

Lemma setting_on_equiv v o : (setting_on v o).2 ≡ o.
Proof.
  destruct o, v; cbn; try done; repeat case_match; repeat split; intros [];
    cbn; repeat case_match; simplify_eq/=; done.
Qed.

Lemma apply_setting_equiv m s : apply_setting m s ≡ m.
Proof.
  intros n. unfold apply_setting. destruct (decide (s.1 = n)) as [<-|Hn].
  - rewrite lookup_alter. rewrite decide_True by done. destruct (m !! s.1) as [o|]; [|done].
    cbn. constructor. apply setting_on_equiv.
  - by rewrite lookup_alter_ne.
Qed.

Lemma settle_equiv ss m : settle ss m ≡ m.
Proof.
  revert m. induction ss as [|s ss IH]; intros m; [done|]. cbn. etrans; [apply IH|apply apply_setting_equiv].
Qed.

Section Equivalent.
Context {m m' : gmap string option_base} (E : m ≡ m').

Lemma lookup_equiv n o : m !! n = Some o -> exists o', m' !! n = Some o' /\ o ≡ o'.
Proof. intros Hn. specialize (E n). rewrite Hn in E. inversion E as [? o' Ho Ho'|]; subst. by exists o'. Qed.

Lemma short_char_equiv n : short_char m n = short_char m' n.
Proof. unfold short_char. destruct (E n) as [o o' Ho|]; [apply Ho|done]. Qed.

Lemma setting_ok_equiv s : setting_ok m s -> setting_ok m' s.
Proof. intros (o & Ho & Hs). apply lookup_equiv in Ho as (o' & Ho' & Eo). exists o'. split; [done|]. by rewrite <- (proj2 (proj2 (proj2 Eo))). Qed.

Lemma render_equiv it : render m it = render m' it.
Proof.
  destruct it; try done. cbn. do 3 f_equal. induction (ns ++ [n]) as [|k ks IH]; [done|].
  cbn. by rewrite short_char_equiv, IH.
Qed.

Lemma has_short_equiv n : has_short m n <-> has_short m' n.
Proof. unfold has_short. by rewrite short_char_equiv. Qed.

End Equivalent.

#[export] Instance setting_ok_proper : Proper ((≡) ==> (=) ==> iff) setting_ok.
Proof. intros m m' E s _ <-. split; apply setting_ok_equiv; [done|by symmetry]. Qed.

#[export] Instance has_short_proper : Proper ((≡) ==> (=) ==> iff) has_short.
Proof. intros m m' E s _ <-. by apply has_short_equiv. Qed.

#[export] Instance short_char_proper : Proper ((≡) ==> (=) ==> (=)) short_char.
Proof. intros m m' E n _ <-. by apply short_char_equiv. Qed.

#[export] Instance spelled_ok_proper : Proper ((≡) ==> (=) ==> iff) spelled_ok.
Proof.
  intros m m' E it _ <-. destruct it; cbn; try done. rewrite !Forall_forall.
  replace (short_char m <$> ns ++ [n]) with (short_char m' <$> ns ++ [n])
    by (apply list_fmap_ext; intros; symmetry; by apply short_char_equiv).
  split; intros [H1 H2]; (split; [|done]); intros k Hk; [rewrite <- E|rewrite E]; auto.
Qed.

#[export] Instance item_ok_proper : Proper ((≡) ==> (=) ==> iff) item_ok.
Proof.
  intros m m' E it _ <-. unfold item_ok. rewrite !Forall_forall, E.
  split; (intros [H1 H2]; split; [|done]); intros k Hk; [rewrite <- E|rewrite E]; auto.
Qed.

#[export] Instance table_ok_proper : Proper ((≡) ==> (=) ==> iff) table_ok.
Proof.
  intros m m' E t _ <-. unfold table_ok.
  split; intros Ht c n; [rewrite <- E|rewrite E]; apply Ht.
Qed.

(** ** The table of short names *)

Lemma is_char_eq n c : (n < 256)%nat -> is_char n c = true <-> c = ch n.
Proof.
  intros Hn. unfold is_char. rewrite Nat.eqb_eq. split.
  - intros <-. by rewrite Ascii.ascii_nat_embedding.
  - intros ->. by apply Ascii.nat_ascii_embedding.
Qed.

(** An entry with a short name. *)
Definition named (entries : list (string * option_base)) (c : ascii) (n : string) : Prop :=
  exists o, (n, o) ∈ entries /\ n <> "" /\ short_name o = c /\ c <> ch 0.

Lemma named_cons n o entries c k :
  named ((n, o) :: entries) c k <-> (k = n /\ n <> "" /\ short_name o = c /\ c <> ch 0) \/ named entries c k.
Proof.
  unfold named. split.
  - intros (o' & [[= -> ->]|Hin]%elem_of_cons & ?); [by left|right; eauto].
  - intros [(-> & ?)|(o' & ? & ?)]; [exists o|exists o']; rewrite elem_of_cons; auto.
Qed.

Lemma length_zero s : (String.length s =? 0)%nat = true <-> s = "".
Proof. by destruct s. Qed.

Lemma short_names_inr entries lk lk' : short_names entries lk = inr lk' ->
  forall c n, lk' !! c = Some n <-> lk !! c = Some n \/ named entries c n.
Proof.
  revert lk. induction entries as [|[k o] entries IH]; intros lk; cbn [short_names].
  - intros [= ->] c n. split; [by left|]. intros [|(o & []%not_elem_of_nil & _)]; done.
  - destruct (String.length k =? 0)%nat eqn:Ek.
    { apply length_zero in Ek as ->. intros Hs c n. rewrite (IH _ Hs), named_cons. naive_solver. }
    assert (k <> "") by (intros ->; done). clear Ek.
    case_decide as H0; [intros Hs c n; rewrite (IH _ Hs), named_cons; naive_solver|].
    case_decide as Hl; [done|]. intros Hs c n. rewrite (IH _ Hs), named_cons.
    destruct (decide (short_name o = c)) as [<-|Hc].
    + rewrite lookup_insert_eq. apply eq_None_not_Some in Hl. rewrite Hl. naive_solver.
    + rewrite lookup_insert_ne by done. naive_solver.
Qed.

Lemma short_names_total entries lk : NoDup entries.*1 ->
  (forall c n, lk !! c = Some n -> n ∉ entries.*1) ->
  (forall c n n', lk !! c = Some n \/ named entries c n -> lk !! c = Some n' \/ named entries c n' -> n = n') ->
  exists lk', short_names entries lk = inr lk'.
Proof.
  revert lk. induction entries as [|[k o] entries IH]; intros lk Hnd Hlk Hu; cbn [short_names]; [eauto|].
  cbn in Hnd. apply NoDup_cons in Hnd as [Hk Hnd].
  assert (forall c n, named entries c n -> named ((k, o) :: entries) c n) as Hin
    by (intros; rewrite named_cons; auto).
  destruct (String.length k =? 0)%nat eqn:Ek; [|case_decide as H0; [|case_decide as Hl]].
  - apply IH; [done| |naive_solver]. intros c n Hn. specialize (Hlk _ _ Hn). set_solver.
  - apply IH; [done| |naive_solver]. intros c n Hn. specialize (Hlk _ _ Hn). set_solver.
  - destruct Hl as [n Hn]. exfalso. apply (Hlk _ _ Hn). cbn. apply elem_of_cons.
    assert (n = k) as ->; [|by left]. apply (Hu (short_name o)); [by left|right].
    rewrite named_cons. left. repeat split; try done. by intros ->.
  - assert (k <> "") by (intros ->; done). apply eq_None_not_Some in Hl.
    assert (named ((k, o) :: entries) (short_name o) k) as Hself by (rewrite named_cons; by left).
    apply IH; [done| |].
    + intros c n. destruct (decide (short_name o = c)) as [<-|Hc].
      * rewrite lookup_insert_eq. by intros [= <-].
      * rewrite lookup_insert_ne by done. intros Hn. specialize (Hlk _ _ Hn). set_solver.
    + intros c n n'. destruct (decide (short_name o = c)) as [<-|Hc].
      * rewrite lookup_insert_eq. intros H1 H2. apply (Hu (short_name o)); naive_solver.
      * rewrite !lookup_insert_ne by done. naive_solver.
Qed.

Lemma elem_iterate m n o : (n, o) ∈ iterate m <-> m !! n = Some o.
Proof. unfold iterate. by rewrite merge_sort_Permutation, elem_of_map_to_list. Qed.

Lemma named_iterate m c n : named (iterate m) c n <-> has_short m n /\ short_char m n = c.
Proof.
  unfold named, has_short, short_char. setoid_rewrite elem_iterate. split.
  - intros (o & -> & Hn & <- & Hc). by cbn.
  - intros ([Hn Hc] & <-). destruct (m !! n) as [o|]; [|done]. by exists o.
Qed.

Lemma iterate_keys m : NoDup (iterate m).*1.
Proof. unfold iterate. rewrite merge_sort_Permutation. apply NoDup_fst_map_to_list. Qed.

(** The table is made exactly when no two options share a short name. *)
Lemma table_made m :
  (forall lookup, short_names (iterate m) ∅ = inr lookup -> table_ok m lookup) /\
  (unambiguous m <-> exists lookup, short_names (iterate m) ∅ = inr lookup).
Proof.
  assert (forall lookup, short_names (iterate m) ∅ = inr lookup -> table_ok m lookup) as Ht.
  { intros lookup Hs c n. rewrite (short_names_inr _ _ _ Hs), named_iterate, lookup_empty. naive_solver. }
  split; [done|]. split.
  - intros Hu. apply short_names_total; [apply iterate_keys|by intros ??; rewrite lookup_empty|].
    intros c n n'. rewrite !lookup_empty, !named_iterate. intros [?|[? <-]] [?|[? E]]; try done.
    by apply Hu.
  - intros [lookup Hs] n n' Hn Hn' E. apply Ht in Hs.
    assert (lookup !! short_char m n = Some n) as H1 by (by apply Hs).
    assert (lookup !! short_char m n = Some n') as H2 by (by apply Hs). congruence.
Qed.

(** ** Errors are never taken back *)

Lemma errors_push e p : errors p `prefix_of` errors (push_error e p).
Proof. by exists [e]. Qed.

Lemma errors_set_option n p : errors p `prefix_of` errors (set_option n p).
Proof. unfold set_option. repeat case_match; cbn; first [reflexivity|by apply prefix_app_r]. Qed.

Lemma errors_set_option_value n v p : errors p `prefix_of` errors (set_option_value n v p).
Proof. unfold set_option_value. repeat case_match; cbn; first [reflexivity|by apply prefix_app_r]. Qed.

#[local] Hint Resolve errors_push errors_set_option errors_set_option_value : core.

(** A preorder that contains the elementary changes contains the loop's. *)
Section Changes.
Context (R : relation parser) `{!PreOrder R}.
Context (R_error : forall e p, R p (push_error e p)) (R_set : forall n p, R p (set_option n p))
  (R_set_value : forall n v p, R p (set_option_value n v p)) (R_others : forall f p, R p (with_others f p)).

Lemma short_option_rel lk c p : R p (short_option lk c p).
Proof. unfold short_option. repeat case_match; auto. Qed.

Lemma short_options_rel lk c cs p : R p (short_options lk c cs p).2.
Proof.
  revert c p. induction cs as [|d cs IH]; intros c p; cbn; [done|].
  etrans; [apply (short_option_rel lk)|apply IH].
Qed.

Lemma parse_args_rel lk args p : R p (parse_args lk args p).
Proof.
  remember (length args) as n eqn:En. revert args p En.
  induction (lt_wf n) as [n _ IH]. intros [|arg args] p ->; cbn [parse_args]; [done|].
  assert (forall args' p', (length args' <= length args)%nat -> R p p' -> R p (parse_args lk args' p')) as Hnext.
  { intros args' p' Hl Hp. etrans; [exact Hp|]. by apply (IH (length args')); cbn; try lia. }
  repeat case_match; subst; (apply Hnext; [cbn; lia|]); auto; try reflexivity;
    match goal with E : short_options _ ?c ?cs _ = _ |- _ =>
      pose proof (short_options_rel lk c cs p) as Hs; rewrite E in Hs; cbn in Hs end;
    (etrans; [exact Hs|]); auto.
Qed.

End Changes.

Abbreviation more_errors := (fun p q => errors p `prefix_of` errors q).

#[local] Instance more_errors_preorder : PreOrder more_errors.
Proof. split; [intros p; reflexivity|intros p q r; cbn; by intros ->]. Qed.

Lemma errors_short_options lk c cs p : errors p `prefix_of` errors (short_options lk c cs p).2.
Proof. by apply (short_options_rel more_errors). Qed.

Lemma errors_parse_args lk args p : errors p `prefix_of` errors (parse_args lk args p).
Proof. by apply (parse_args_rel more_errors). Qed.

Lemma prefix_nil_inv {A} (l k : list A) : l `prefix_of` k -> k = [] -> l = [].
Proof. intros [k' ->]. by intros [-> _]%app_nil. Qed.

Lemma push_not_nil e p : errors (push_error e p) <> [].
Proof. cbn. by intros [_ ?]%app_nil. Qed.

(** ** Setting options *)

Lemma set_option_ok n p : setting_ok (options p) (n, None) ->
  set_option n p = with_options (settle [(n, None)]) p.
Proof.
  intros (o & Ho & Hs). unfold set_option. cbn in Ho, Hs. rewrite Ho. destruct (set o) as [ok o'] eqn:E.
  cbn in Hs. subst ok. unfold with_options. f_equal. unfold settle, apply_setting. cbn.
  apply map_eq. intros k. destruct (decide (n = k)) as [<-|Hk].
  - by rewrite lookup_insert_eq, lookup_alter_eq, Ho; cbn; rewrite E.
  - by rewrite lookup_insert_ne, lookup_alter_ne.
Qed.

Lemma set_option_value_ok n v p : setting_ok (options p) (n, Some v) ->
  set_option_value n v p = with_options (settle [(n, Some v)]) p.
Proof.
  intros (o & Ho & Hs). unfold set_option_value. cbn in Ho, Hs. rewrite Ho. destruct (set_value v o) as [ok o'] eqn:E.
  cbn in Hs. subst ok. unfold with_options. f_equal. unfold settle, apply_setting. cbn.
  apply map_eq. intros k. destruct (decide (n = k)) as [<-|Hk].
  - by rewrite lookup_insert_eq, lookup_alter_eq, Ho; cbn; rewrite E.
  - by rewrite lookup_insert_ne, lookup_alter_ne.
Qed.

Lemma set_option_inv n p : errors (set_option n p) = [] -> setting_ok (options p) (n, None).
Proof.
  unfold set_option, setting_ok. cbn. destruct (options p !! n) as [o|]; [|by intros ?%push_not_nil].
  intros He. exists o. split; [done|]. destruct (set o) as [[] o']; [done|]. by apply push_not_nil in He.
Qed.

Lemma set_option_value_inv n v p : errors (set_option_value n v p) = [] -> setting_ok (options p) (n, Some v).
Proof.
  unfold set_option_value, setting_ok. cbn. destruct (options p !! n) as [o|]; [|by intros ?%push_not_nil].
  intros He. exists o. split; [done|]. destruct (set_value v o) as [[] o']; [done|]. by apply push_not_nil in He.
Qed.

Lemma setting_ok_has_value m n v o : setting_ok m (n, v) -> m !! n = Some o ->
  has_value o = match v with Some _ => true | None => false end.
Proof. intros (o' & Ho' & Hs) Ho. cbn in *. rewrite Ho in Ho'. simplify_eq. by destruct o', v. Qed.

(** ** Spellings *)

Lemma after_dashes_eq s b : after_dashes s = Some b <-> s = String (ch 45) (String (ch 45) b).
Proof.
  split.
  - destruct s as [|a [|b' s]]; cbn; try done. destruct (_ && _) eqn:E; [|done].
    apply andb_true_iff in E as [Ea%is_char_eq Eb%is_char_eq]; [|lia..]. intros [= <-]. by subst.
  - by intros ->.
Qed.

Lemma after_dash_eq s b : after_dash s = Some b <-> s = String (ch 45) b.
Proof.
  split.
  - destruct s as [|a s]; cbn; [done|]. destruct (is_char 45 a) eqn:E; [|done].
    apply is_char_eq in E; [|lia]. intros [= <-]. by subst.
  - by intros ->.
Qed.

Lemma app_String c s s' : String c s +:+ s' = String c (s +:+ s').
Proof. done. Qed.

Lemma split_equals_join n v : split_equals n = None -> split_equals (n +:+ String (ch 61) v) = Some (n, v).
Proof.
  induction n as [|c n IH]; [done|]. rewrite app_String. cbn. destruct (is_char 61 c); [done|].
  destruct (split_equals n) as [[]|]; [done|]. intros _. by rewrite IH.
Qed.

Lemma split_equals_inv b n v : split_equals b = Some (n, v) ->
  b = n +:+ String (ch 61) v /\ split_equals n = None.
Proof.
  revert n. induction b as [|c b IH]; intros n; cbn; [done|].
  destruct (is_char 61 c) eqn:E.
  - intros [= <- <-]. apply is_char_eq in E as ->; [done|lia].
  - destruct (split_equals b) as [[k w]|]; [|done]. intros [= <- <-].
    destruct (IH k eq_refl) as [-> Hk]. rewrite app_String. cbn. rewrite E. by rewrite Hk.
Qed.

Lemma string_of_list s : exists cs, s = string_of cs.
Proof. induction s as [|c s [cs ->]]; [by exists []|by exists (c :: cs)]. Qed.

(** ** One item *)

Definition run (it : item) (p : parser) : parser :=
  mkParser (settle (settings it) (options p)) (ordered p) (ftr p) (prog_name p) (others p ++ words it) (errors p).

Definition run_all (items : list item) (p : parser) : parser := foldl (fun p it => run it p) p items.

Lemma run_all_eq items p : run_all items p =
  mkParser (settle (items ≫= settings) (options p)) (ordered p) (ftr p) (prog_name p) (others p ++ (items ≫= words)) (errors p).
Proof.
  revert p. induction items as [|it items IH]; intros p.
  - cbn. rewrite app_nil_r. by destruct p.
  - cbn [run_all foldl]. unfold run_all in IH. rewrite IH. unfold run, settle. cbn. by rewrite foldl_app, app_assoc.
Qed.

Section Items.
Context (m : gmap string option_base) (lookup : gmap ascii string) (Ht : table_ok m lookup).

Lemma lookup_short n : has_short m n -> lookup !! short_char m n = Some n.
Proof. intros Hn. by apply Ht. Qed.

Lemma short_option_ok n p : options p ≡ m -> has_short m n -> setting_ok m (n, None) ->
  short_option lookup (short_char m n) p = with_options (settle [(n, None)]) p.
Proof.
  intros Hp Hn Hs. unfold short_option. rewrite lookup_short by done.
  rewrite decide_False by apply Hn. apply set_option_ok. by rewrite Hp.
Qed.

Lemma with_options_settle p ss ss' :
  with_options (settle ss') (with_options (settle ss) p) = with_options (settle (ss ++ ss')) p.
Proof. unfold with_options, settle. cbn. by rewrite foldl_app. Qed.

Lemma short_options_ok ns n c cs p : options p ≡ m -> Forall (has_short m) ns ->
  Forall (setting_ok m) ((fun n => (n, None)) <$> ns) ->
  String c cs = string_of (short_char m <$> ns ++ [n]) ->
  short_options lookup c cs p = (short_char m n, with_options (settle ((fun n => (n, None)) <$> ns)) p).
Proof.
  revert c cs p. induction ns as [|k ns IH]; intros c cs p Hp Hk Hs; cbn [fmap list_fmap app string_of foldr].
  - intros [= -> ->]. cbn. by destruct p.
  - apply Forall_cons in Hk as [Hk Hks]. apply Forall_cons in Hs as [Hs Hss].
    intros [= -> ->]. change (foldr String "" ?l) with (string_of l).
    destruct (string_of _) as [|d ds] eqn:Ed; [by destruct ns|]. cbn [short_options].
    rewrite short_option_ok by done. rewrite (IH d ds) by (try done; cbn; by rewrite settle_equiv).
    by rewrite with_options_settle.
Qed.

(** An item is taken as a whole, whatever follows it. *)
Lemma parse_item it args p : options p ≡ m -> item_ok m it ->
  parse_args lookup (render m it ++ args) p = parse_args lookup args (run it p).
Proof.
  intros Hp [Hs Hsp]. destruct it as [w| |n v|n v|ns n v]; cbn [render spelled_ok settings] in *.
  - cbn [app parse_args]. rewrite Hsp. destruct (after_dashes w) eqn:E; [|done].
    apply after_dashes_eq in E as ->. done.
  - cbn. unfold run, settle. cbn. rewrite app_nil_r. by destruct p.
  - cbn [app parse_args]. rewrite (proj2 (after_dashes_eq _ _) eq_refl), split_equals_join by done.
    rewrite set_option_value_ok by (rewrite Hp; by apply Forall_inv in Hs). unfold run. cbn. by rewrite app_nil_r.
  - apply Forall_inv in Hs. assert (setting_ok (options p) (n, v)) as Hs' by (by rewrite Hp).
    cbn [app parse_args]. rewrite (proj2 (after_dashes_eq _ _) eq_refl), Hsp.
    pose proof Hs' as (o & Ho & _). cbn in Ho. rewrite Ho, (setting_ok_has_value _ _ _ _ Hs' Ho).
    destruct v as [v|]; cbn; [rewrite set_option_value_ok by done|rewrite set_option_ok by done];
      unfold run; cbn; by rewrite app_nil_r.
  - apply Forall_app in Hs as [Hns Hn%Forall_inv]. destruct Hsp as [Hh Hd].
    apply Forall_app in Hh as [Hh Hl%Forall_inv].
    cbn [app parse_args]. destruct (string_of (short_char m <$> ns ++ [n])) as [|c cs] eqn:Ec; [by destruct ns|].
    assert (after_dashes (String (ch 45) (String c cs)) = None) as ->.
    { destruct (after_dashes _) eqn:E; [|done]. apply after_dashes_eq in E as [= -> ->].
      exfalso. apply Hd. by destruct ns; cbn in *; injection Ec as ->. }
    rewrite (proj2 (after_dash_eq _ _) eq_refl), (short_options_ok ns n) by done.
    rewrite lookup_short by done. rewrite decide_False by apply Hl.
    assert (setting_ok (settle ((fun n => (n, None)) <$> ns) (options p)) (n, v)) as Hn'
      by (by rewrite settle_equiv, Hp).
    assert (run (Shorts ns n v) p = with_options (settle [(n, v)])
      (with_options (settle ((fun n => (n, None)) <$> ns)) p)) as ->
      by (rewrite with_options_settle; unfold run; cbn; by rewrite app_nil_r).
    pose proof Hn' as (o & Ho & _). cbn in Ho. cbn [options with_options]. rewrite Ho, (setting_ok_has_value _ _ _ _ Hn' Ho).
    destruct v as [v|]; cbn; [by rewrite set_option_value_ok by done|].
    rewrite set_option_ok by done. by destruct args.
Qed.

Lemma parse_items items p : options p ≡ m -> Forall (item_ok m) items ->
  parse_args lookup (items ≫= render m) p = run_all items p.
Proof.
  intros Hp Hi. revert p Hp. induction Hi as [|it items Hit _ IH]; intros p Hp; [done|].
  cbn [mbind list_bind]. rewrite parse_item by done. apply IH. cbn. by rewrite settle_equiv.
Qed.

(** ** What was taken was an item *)

Lemma parsed_errors args p : errors (parse_args lookup args p) = [] -> errors p = [].
Proof. apply prefix_nil_inv, errors_parse_args. Qed.

Lemma short_option_inv c p : options p ≡ m -> errors (short_option lookup c p) = [] ->
  exists n, has_short m n /\ short_char m n = c /\ setting_ok m (n, None).
Proof.
  intros Hp. unfold short_option. destruct (lookup !! c) as [n|] eqn:E; [|by intros ?%push_not_nil].
  apply Ht in E as [Hn Hc]. rewrite decide_False by apply Hn. intros Hs%set_option_inv.
  exists n. rewrite Hp in Hs. done.
Qed.

Lemma short_options_inv c cs p : options p ≡ m ->
  errors (short_options lookup c cs p).2 = [] ->
  exists ns, String c cs = string_of ((short_char m <$> ns) ++ [(short_options lookup c cs p).1]) /\
    Forall (has_short m) ns /\ Forall (setting_ok m) ((fun n => (n, None)) <$> ns).
Proof.
  revert c p. induction cs as [|d cs IH]; intros c p Hp; cbn [short_options].
  - intros _. exists []. by split; [|split].
  - intros He. assert (errors (short_option lookup c p) = []) as He'
      by (eapply prefix_nil_inv; [apply errors_short_options|exact He]).
    destruct (short_option_inv _ _ Hp He') as (n & Hn & <- & Hs).
    rewrite short_option_ok in * by done. apply IH in He as (ns & E & H1 & H2); [|cbn; by rewrite settle_equiv].
    exists (n :: ns). cbn. rewrite E. by repeat split; try constructor.
Qed.

Lemma parse_first_long body args p : options p ≡ m ->
  errors (parse_args lookup (String (ch 45) (String (ch 45) body) :: args) p) = [] ->
  exists it args', String (ch 45) (String (ch 45) body) :: args = render m it ++ args' /\ item_ok m it.
Proof.
  intros Hp. cbn [parse_args]. rewrite (proj2 (after_dashes_eq _ _) eq_refl).
  destruct (split_equals body) as [[n v]|] eqn:Eb.
  - apply split_equals_inv in Eb as [-> Hn]. intros Hs%parsed_errors%set_option_value_inv.
    rewrite Hp in Hs. exists (Equals n v), args. split; [done|]. split; [|done]. by constructor.
  - destruct (options p !! body) as [o|] eqn:Eo; [|by intros ?%parsed_errors%push_not_nil].
    destruct (has_value o) eqn:Ev.
    + destruct args as [|v args]; [by intros ?%parsed_errors%push_not_nil|].
      intros Hs%parsed_errors%set_option_value_inv. rewrite Hp in Hs.
      exists (Long body (Some v)), args. split; [done|]. split; [|done]. by constructor.
    + intros Hs%parsed_errors%set_option_inv. rewrite Hp in Hs.
      exists (Long body None), args. split; [done|]. split; [|done]. by constructor.
Qed.

Lemma parse_first_short c cs args p : options p ≡ m -> c <> ch 45 ->
  errors (parse_args lookup (String (ch 45) (String c cs) :: args) p) = [] ->
  exists it args', String (ch 45) (String c cs) :: args = render m it ++ args' /\ item_ok m it.
Proof.
  intros Hp Hc. cbn [parse_args].
  assert (after_dashes (String (ch 45) (String c cs)) = None) as ->.
  { destruct (after_dashes _) eqn:E; [|done]. by apply after_dashes_eq in E as [= -> ->]. }
  rewrite (proj2 (after_dash_eq _ _) eq_refl).
  assert (forall p', errors (parse_args lookup args p') = [] -> errors p' = []) as Hend by apply parsed_errors.
  pose proof (short_options_inv c cs p Hp) as Hi. destruct (short_options lookup c cs p) as [l p'] eqn:Es.
  cbn in Hi. destruct (lookup !! l) as [n|] eqn:El; [|by intros ?%Hend%push_not_nil].
  apply Ht in El as [Hn <-]. rewrite decide_False by apply Hn. intros He.
  assert (errors p' = [] /\ exists v args', args = option_list v ++ args' /\ setting_ok (options p') (n, v)) as [He' (v & args' & -> & Hv)].
  { destruct args as [|w args]; [|destruct (options p' !! n) as [o|]; [destruct (has_value o)|]].
    - apply Hend in He. split; [by eapply prefix_nil_inv; [apply errors_set_option|]|].
      exists None, []. split; [done|]. by apply set_option_inv.
    - apply parsed_errors in He. split; [by eapply prefix_nil_inv; [apply errors_set_option_value|]|].
      exists (Some w), args. split; [done|]. by apply set_option_value_inv.
    - apply Hend in He. split; [by eapply prefix_nil_inv; [apply errors_set_option|]|].
      exists None, (w :: args). split; [done|]. by apply set_option_inv.
    - apply Hend in He. split; [by eapply prefix_nil_inv; [apply errors_set_option|]|].
      exists None, (w :: args). split; [done|]. by apply set_option_inv. }
  destruct (Hi He') as (ns & E & H1 & H2).
  rewrite (short_options_ok ns n) in Es by (try done; by rewrite fmap_app). injection Es as <-.
  cbn in Hv. rewrite settle_equiv, Hp in Hv. exists (Shorts ns n v), args'. split; [|split].
  - cbn [render app]. by rewrite E, fmap_app.
  - cbn. apply Forall_app. split; [done|by constructor].
  - cbn. split; [apply Forall_app; split; [done|by constructor]|]. rewrite fmap_app. destruct ns; cbn in *; congruence.
Qed.

Lemma parse_first arg args p : options p ≡ m -> errors (parse_args lookup (arg :: args) p) = [] ->
  exists it args', arg :: args = render m it ++ args' /\ item_ok m it.
Proof.
  intros Hp He. destruct (after_dash arg) as [s|] eqn:Ea.
  - apply after_dash_eq in Ea as ->. destruct s as [|c s].
    + exists Dash, args. split; [done|]. split; [constructor|done].
    + destruct (decide (c = ch 45)) as [->|Hc]; [by apply (parse_first_long s args p)|by apply (parse_first_short c s args p)].
  - exists (Word arg), args. split; [done|]. split; [constructor|done].
Qed.

Lemma render_not_nil it : exists arg args, render m it = arg :: args.
Proof. destruct it; cbn; eauto. Qed.

(** Without an error the arguments were items. *)
Lemma parse_args_inv args p : options p ≡ m -> errors (parse_args lookup args p) = [] ->
  exists items, args = items ≫= render m /\ Forall (item_ok m) items.
Proof.
  remember (length args) as n eqn:En. revert args p En. induction (lt_wf n) as [n _ IH].
  intros [|arg args] p -> Hp He; [by exists []|].
  destruct (parse_first _ _ _ Hp He) as (it & args' & E & Hit). rewrite E, parse_item in He by done.
  destruct (render_not_nil it) as (a & as' & Er).
  destruct (IH (length args') ltac:(rewrite E, Er; cbn; rewrite length_app; lia) args' (run it p)) as (items & -> & Hi);
    [done|cbn; by rewrite settle_equiv|done|].
  exists (it :: items). split; [by rewrite E|by constructor].
Qed.

End Items.

(** ** Required options *)

Definition needed (m : gmap string option_base) : list string :=
  omap (fun '(n, o) => if valid o then None else Some ("need option: --" +:+ n)) (iterate m).

Lemma check_needed_eq p : check_needed p = with_errors (fun es => es ++ needed (options p)) p.
Proof.
  unfold check_needed, needed. generalize (iterate (options p)) as k. intros k.
  revert p. induction k as [|[n o] k IH]; intros p; cbn.
  - unfold with_errors. rewrite app_nil_r. by destruct p.
  - rewrite IH. destruct (valid o); [done|]. unfold with_errors. cbn. by rewrite <- app_assoc.
Qed.

Lemma needed_nil m : needed m = [] <-> map_Forall (fun _ o => valid o = true) m.
Proof.
  unfold needed, map_Forall. setoid_rewrite <- elem_iterate. generalize (iterate m) as l. intros l.
  induction l as [|[n o] l IH]; cbn; [split; [intros _ k x Hk; by apply not_elem_of_nil in Hk|done]|].
  destruct (valid o) eqn:Ev.
  - rewrite IH. split; [|intros Hl k x Hk; by apply (Hl k), elem_of_cons; right].
    intros Hl k x [[= -> ->]|Hk]%elem_of_cons; [done|by eapply Hl].
  - split; [done|]. intros Hl. specialize (Hl n o ltac:(apply elem_of_cons; by left)). congruence.
Qed.

(** ** What the settings leave in the options *)

Definition mentions (n : string) (ss : list setting) : bool :=
  existsb (fun s => if decide (s.1 = n) then true else false) ss.

(** The value of the last setting of [n], as [read] reads it. *)
Definition last_value {T} (read : reader T) (n : string) (actual : val T) (ss : list setting) : val T :=
  foldl (fun a s => if decide (s.1 = n) then default a (s.2 ≫= read) else a) actual ss.

Lemma settle_cons s ss m : settle (s :: ss) m = settle ss (apply_setting m s).
Proof. done. Qed.

Lemma settle_valued m ss n T nam sn need desc has def actual read : Forall (setting_ok m) ss ->
  m !! n = Some (option_with_value T nam sn need desc has def actual read) ->
  settle ss m !! n = Some (option_with_value T nam sn need desc (has || mentions n ss) def (last_value read n actual ss) read).
Proof.
  intros Hs. revert m has actual Hs. induction ss as [|[k v] ss IH]; intros m has actual Hs Hm.
  - cbn. by rewrite orb_false_r.
  - apply Forall_cons in Hs as [Hk Hs]. rewrite settle_cons.
    assert (Forall (setting_ok (apply_setting m (k, v))) ss) as Hs'
      by (eapply Forall_impl; [exact Hs|]; intros s; by rewrite apply_setting_equiv).
    cbn [mentions existsb last_value foldl fst snd].
    destruct (decide (k = n)) as [->|Hkn].
    + destruct Hk as (o & Ho & Hv). cbn in Ho, Hv. rewrite Hm in Ho. injection Ho as <-.
      destruct v as [v|]; [|done]. cbn in Hv. destruct (read v) as [x|] eqn:Ex; [|done].
      rewrite (IH _ true x Hs'); [by rewrite orb_true_r; cbn; rewrite Ex|].
      unfold apply_setting. cbn. rewrite lookup_alter_eq, Hm. cbn. by rewrite Ex.
    + apply (IH _ has actual Hs'). unfold apply_setting. by rewrite lookup_alter_ne by done.
Qed.

Lemma settle_flag m ss n nam sn desc has : Forall (setting_ok m) ss ->
  m !! n = Some (option_without_value nam sn desc has) ->
  settle ss m !! n = Some (option_without_value nam sn desc (has || mentions n ss)).
Proof.
  intros Hs. revert m has Hs. induction ss as [|[k v] ss IH]; intros m has Hs Hm.
  - cbn. by rewrite orb_false_r.
  - apply Forall_cons in Hs as [Hk Hs]. rewrite settle_cons.
    assert (Forall (setting_ok (apply_setting m (k, v))) ss) as Hs'
      by (eapply Forall_impl; [exact Hs|]; intros s; by rewrite apply_setting_equiv).
    cbn [mentions existsb fst]. destruct (decide (k = n)) as [->|Hkn].
    + destruct Hk as (o & Ho & Hv). cbn in Ho, Hv. rewrite Hm in Ho. injection Ho as <-.
      destruct v as [v|]; [done|]. rewrite (IH _ true Hs'); [by rewrite orb_true_r|].
      unfold apply_setting. cbn. by rewrite lookup_alter_eq, Hm.
    + apply (IH _ has Hs'). unfold apply_setting. by rewrite lookup_alter_ne by done.
Qed.

(** ** The command lines that are accepted *)

(** The parser after a line was accepted. *)
Definition accepted (arg0 : string) (items : list item) (p : parser) : parser :=
  mkParser (settle (items ≫= settings) (options p)) (ordered p) (ftr p)
    (if decide (prog_name p = "") then arg0 else prog_name p) (items ≫= words) [].

Definition all_given (m : gmap string option_base) : Prop := map_Forall (fun _ o => valid o = true) m.

Lemma accepted_parse arg0 items p : unambiguous (options p) -> Forall (item_ok (options p)) items ->
  parse (arg0 :: (items ≫= render (options p))) p =
    let p' := accepted arg0 items p in
    ((length (needed (options p')) =? 0)%nat, with_errors (fun es => es ++ needed (options p')) p').
Proof.
  intros Hu Hi. pose proof (proj1 (proj2 (table_made (options p))) Hu) as [lookup Hl].
  pose proof (proj1 (table_made (options p)) _ Hl) as Ht. unfold parse.
  assert (forall q, options q = options p -> others q = [] -> errors q = [] ->
    check_needed (parse_args lookup (items ≫= render (options p)) q) =
    with_errors (fun es => es ++ needed (settle (items ≫= settings) (options p)))
      (mkParser (settle (items ≫= settings) (options p)) (ordered q) (ftr q) (prog_name q) (items ≫= words) [])) as Hq.
  { intros q E1 E2 E3. rewrite (parse_items (options p) lookup Ht items q) by (by rewrite ?E1).
    rewrite check_needed_eq, run_all_eq, E1, E2, E3. done. }
  destruct (decide _) as [E|E]; cbn [options with_prog_name with_others with_errors]; rewrite Hl, Hq by done;
    unfold accepted; cbn in E |- *; [rewrite decide_True by done|rewrite decide_False by done]; done.
Qed.

(** C12: The command lines [parse] accepts are exactly those of the grammar: no
    two options share a short name, the arguments spell items whose settings
    name declared options and give values to those that take one, values their
    readers read, and every required option has been set.  The options then are
    what the settings make of them, and the other words are kept in order. *)
Theorem accepted_lines arg0 args p p' :
  parse (arg0 :: args) p = (true, p') <->
  unambiguous (options p) /\
  exists items, args = items ≫= render (options p) /\ Forall (item_ok (options p)) items /\
    p' = accepted arg0 items p /\ all_given (options p').
Proof.
  split.
  - intros Hp. assert (errors p' = []) as He.
    { unfold parse in Hp. destruct (short_names _ _); simplify_eq. apply length_zero_iff_nil. by apply Nat.eqb_eq. }
    pose proof (table_made (options p)) as [Htab Hun].
    destruct (short_names (iterate (options p)) ∅) as [c|lookup] eqn:Hl.
    { exfalso. unfold parse in Hp. revert Hp. destruct (decide _); cbn; by rewrite Hl. }
    assert (unambiguous (options p)) as Hu by (apply Hun; eauto). split; [done|].
    assert (exists items, args = items ≫= render (options p) /\ Forall (item_ok (options p)) items) as (items & -> & Hi).
    { revert Hp. unfold parse. destruct (decide _); cbn [options with_prog_name with_others with_errors]; rewrite Hl;
        intros [= _ <-]; rewrite check_needed_eq in He; apply app_nil in He as [He _];
        (eapply parse_args_inv; [apply (Htab _ eq_refl)| |exact He]); done. }
    exists items. split; [done|]. split; [done|]. rewrite accepted_parse in Hp by done. cbn zeta in Hp.
    injection Hp as Hn <-. apply Nat.eqb_eq, length_zero_iff_nil in Hn. rewrite Hn.
    split; [done|]. apply needed_nil in Hn. done.
  - intros (Hu & items & -> & Hi & -> & Hg). rewrite accepted_parse by done. cbn zeta.
    apply needed_nil in Hg. rewrite Hg. done.
Qed.

Lemma items_settings_ok m items : Forall (item_ok m) items -> Forall (setting_ok m) (items ≫= settings).
Proof. induction 1 as [|it items Hit _ IH]; [constructor|]. cbn. apply Forall_app. split; [apply Hit|done]. Qed.

Lemma settled_given m ss : Forall (setting_ok m) ss ->
  (forall n o, m !! n = Some o -> valid o || mentions n ss = true) -> all_given (settle ss m).
Proof.
  intros Hs Hn n o' Ho'. destruct (lookup_equiv (settle_equiv ss m) _ _ Ho') as (o & Ho & _).
  specialize (Hn n o Ho). destruct o as [nam sn desc has|T nam sn need desc has def actual read].
  - rewrite (settle_flag _ _ _ _ _ _ _ Hs Ho) in Ho'. by injection Ho' as <-.
  - rewrite (settle_valued _ _ _ _ _ _ _ _ _ _ _ _ Hs Ho) in Ho'. injection Ho' as <-.
    cbn in *. destruct need, has; cbn in *; try done. by rewrite Hn.
Qed.

Lemma given_parse arg0 items p : unambiguous (options p) -> Forall (item_ok (options p)) items ->
  (forall n o, options p !! n = Some o -> valid o || mentions n (items ≫= settings) = true) ->
  parse (arg0 :: (items ≫= render (options p))) p = (true, accepted arg0 items p).
Proof.
  intros Hu Hi Hn. rewrite accepted_parse by done. cbn zeta. cbn [options accepted].
  rewrite (proj2 (needed_nil _) (settled_given _ _ (items_settings_ok _ _ Hi) Hn)). done.
Qed.

Lemma accepted_get arg0 items p n T nam sn need desc has def actual read :
  Forall (item_ok (options p)) items ->
  options p !! n = Some (option_with_value T nam sn need desc has def actual read) ->
  get T n (accepted arg0 items p) = inr (last_value read n actual (items ≫= settings)).
Proof.
  intros Hi%items_settings_ok Ho. unfold get. cbn [options accepted].
  rewrite (settle_valued _ _ _ _ _ _ _ _ _ _ _ _ Hi Ho).
  destruct (decide (T = T)) as [E|]; [|done]. by rewrite (proof_irrel E eq_refl).
Qed.

Lemma accepted_exist arg0 items p n o : Forall (item_ok (options p)) items -> options p !! n = Some o ->
  exist n (accepted arg0 items p) = inr (has_set o || mentions n (items ≫= settings)).
Proof.
  intros Hi%items_settings_ok Ho. unfold exist. cbn [options accepted].
  destruct o; [by rewrite (settle_flag _ _ _ _ _ _ _ Hi Ho)|by rewrite (settle_valued _ _ _ _ _ _ _ _ _ _ _ _ Hi Ho)].
Qed.

(** C22: Whatever settings are written on the command line, in whatever style and
    mixed with other words, [parse] accepts it when the required options are
    among them, and afterwards [get] returns for each option the value last
    given, or the one it had, [exist] tells whether it was given, and [rest]
    the other words in order. *)
Theorem assigned_values arg0 items p :
  unambiguous (options p) -> Forall (item_ok (options p)) items ->
  let ss := items ≫= settings in
  (forall n o, options p !! n = Some o -> valid o || mentions n ss = true) ->
  let '(ok, p') := parse (arg0 :: (items ≫= render (options p))) p in
  ok = true /\ rest p' = items ≫= words /\
  (forall n T nam sn need desc has def actual read,
    options p !! n = Some (option_with_value T nam sn need desc has def actual read) ->
    get T n p' = inr (last_value read n actual ss)) /\
  (forall n o, options p !! n = Some o -> exist n p' = inr (has_set o || mentions n ss)).
Proof.
  intros Hu Hi ss Hn. rewrite given_parse by done. split; [done|]. split; [done|].
  split; intros; [by eapply accepted_get|by apply accepted_exist].
Qed.

(** ** Quoting *)

Fixpoint escape (s : string) : string :=
  match s with
  | EmptyString => ""
  | String c s => if is_char 34 c || is_char 92 c then String (ch 92) (String c (escape s)) else String c (escape s)
  end.

Definition quote (s : string) : string := String (ch 34) (escape s +:+ String (ch 34) "").

Fixpoint quoted_line (args : list string) : string :=
  match args with
  | [] => ""
  | [a] => quote a
  | a :: args => quote a +:+ String (ch 32) (quoted_line args)
  end.

(** A last argument that is empty is lost. *)
Definition kept (args : list string) : list string :=
  if decide (last args = Some "") then removelast args else args.

Lemma app_snoc_String buf c s : (buf +:+ String c "") +:+ s = buf +:+ String c s.
Proof. induction buf as [|b buf IH]; [done|]. by rewrite !app_String, IH. Qed.

Lemma app_nil_String s : s +:+ "" = s.
Proof. induction s as [|c s IH]; [done|]. by rewrite app_String, IH. Qed.

Lemma split_quoted s arg buf args :
  split_args (escape s +:+ String (ch 34) arg) true buf args = split_args arg false (buf +:+ s) args.
Proof.
  assert (forall c arg buf, split_args (String (ch 92) (String c arg)) true buf args =
    split_args arg true (buf +:+ String c "") args) as Hesc by done.
  revert buf. induction s as [|c s IH]; intros buf; cbn [escape].
  - rewrite app_nil_String. done.
  - destruct (is_char 34 c) eqn:E1; [|destruct (is_char 92 c) eqn:E2]; cbn [orb]; rewrite !app_String.
    + by rewrite Hesc, IH, app_snoc_String.
    + by rewrite Hesc, IH, app_snoc_String.
    + cbn [split_args]. rewrite E1, andb_false_r, E2. by rewrite IH, app_snoc_String.
Qed.

Lemma split_quote s arg buf args :
  split_args (quote s +:+ arg) false buf args = split_args arg false (buf +:+ s) args.
Proof.
  unfold quote. rewrite app_String. cbn [split_args]. change (is_char 34 (ch 34)) with true. cbn [negb].
  rewrite <- split_quoted. f_equal. induction (escape s) as [|c e IH]; [done|]. by rewrite !app_String, IH.
Qed.

Lemma split_quoted_line arg args done_ :
  split_args (quoted_line (arg :: args)) false "" done_ = inr (done_ ++ kept (arg :: args)).
Proof.
  revert arg done_. induction args as [|a args IH]; intros arg done_.
  - cbn [quoted_line]. rewrite <- (app_nil_String (quote arg)), split_quote. cbn. unfold kept. cbn.
    destruct arg; cbn; [by rewrite app_nil_r|done].
  - change (quoted_line (arg :: a :: args)) with (quote arg +:+ String (ch 32) (quoted_line (a :: args))).
    rewrite split_quote. cbn [split_args]. change (is_char 34 (ch 32)) with false.
    change (is_char 32 (ch 32) && negb false) with true. cbn match. rewrite IH.
    unfold kept. change (last (arg :: a :: args)) with (last (a :: args)).
    destruct (decide _); cbn; by rewrite <- app_assoc.
Qed.

(** [parse(std::string)] undoes quoting: the line made of arguments put in
    quotation marks, their quotation marks and backslashes escaped, is parsed
    as these arguments, except that a last one that is empty is lost; nothing
    left, [&argv[0]] is taken of an empty vector.  On a line that is not well
    quoted it keeps the errors of an earlier call, and [error] reports the
    first of those. *)
Theorem quoted_line_parsed arg args p :
  parse_string (quoted_line (arg :: args)) p =
    ((fun a => String (ch 34) (a +:+ String (ch 34) "")) <$> kept (arg :: args),
     match kept (arg :: args) with
     | [] => (Stuck, p)
     | a :: l => let '(ok, p') := parse (c_str <$> a :: l) p in (Ok ok, p')
     end) /\
  forall line e, split_args line false "" [] = inl e ->
    let '(_, (ok, p')) := parse_string line p in
    ok = Ok false /\ options p' = options p /\
    error p' = match errors p with first :: _ => first | [] => e end.
Proof.
  split.
  - unfold parse_string. rewrite split_quoted_line. cbn [app]. unfold parse_vector.
    destruct (kept (arg :: args)) as [|a l]; [done|]. by destruct (parse _ p).
  - intros line e E. unfold parse_string. rewrite E. split; [done|]. split; [done|].
    unfold error. cbn. by destruct (errors p).
Qed.

(** ** The states a parser can be in *)

(** The calls a program makes; [add] may throw, which leaves the parser. *)
Inductive parser_step (p : parser) : parser -> Prop :=
  | step_add n sn desc p' : add n sn desc p = inr p' -> parser_step p p'
  | step_add_reader T n sn desc need (def : val T) F p' :
      add_reader n sn desc need def F p = inr p' -> parser_step p p'
  | step_footer f : parser_step p (footer f p)
  | step_program_name n : parser_step p (set_program_name n p)
  | step_parse argv : parser_step p (parse argv p).2
  | step_parse_vector args : parser_step p (parse_vector args p).2
  | step_parse_string arg : parser_step p (parse_string arg p).2.2
  | step_parse_check argv c p' : parse_check argv p = inr (c, p') -> parser_step p p'
  | step_parse_check_vector args c p' : parse_check_vector args p = inr (c, p') -> parser_step p p'
  | step_parse_check_string arg c p' : parse_check_string arg p = inr (c, p') -> parser_step p p'.

Definition reachable_parser : parser -> Prop := rtc parser_step new_parser.

Definition option_typed (n : string) (o : option_base) : Prop :=
  name o = n /\
  match o with
  | option_without_value _ _ _ _ => True
  | option_with_value T _ _ _ _ has def actual read =>
      if has then exists s, read s = Some actual else actual = def
  end.

Record well_typed (p : parser) : Prop := {
  typed_options : map_Forall option_typed (options p);
  typed_ordered n : n ∈ ordered p <-> is_Some (options p !! n);
  typed_once : NoDup (ordered p)
}.

(** The calls that parse do nothing to the options but set them. *)
Definition evolves (p q : parser) : Prop :=
  ordered q = ordered p /\ exists ss, options q = settle ss (options p).

#[export] Instance evolves_preorder : PreOrder evolves.
Proof.
  split.
  - intros p. split; [done|by exists []].
  - intros p q r [E1 [ss E]] [E2 [ss' E']]. split; [congruence|].
    exists (ss ++ ss'). rewrite E', E. unfold settle. by rewrite foldl_app.
Qed.

Lemma settle_one m n v o : m !! n = Some o -> settle [(n, v)] m = <[n := (setting_on v o).2]> m.
Proof.
  intros Ho. unfold settle, apply_setting. cbn. apply map_eq. intros k. destruct (decide (n = k)) as [<-|Hk].
  - by rewrite lookup_insert_eq, lookup_alter_eq, Ho.
  - by rewrite lookup_insert_ne, lookup_alter_ne.
Qed.

Lemma evolves_same p q : ordered q = ordered p -> options q = options p -> evolves p q.
Proof. intros. split; [done|]. by exists []. Qed.

Lemma evolves_set_option n p : evolves p (set_option n p).
Proof.
  unfold set_option. destruct (options p !! n) as [o|] eqn:Ho; [|by apply evolves_same].
  pose proof (settle_one _ _ None _ Ho) as E. cbn in E. destruct (set o) as [ok o'].
  split; [by destruct ok|]. exists [(n, None)]. rewrite E. by destruct ok.
Qed.

Lemma evolves_set_option_value n v p : evolves p (set_option_value n v p).
Proof.
  unfold set_option_value. destruct (options p !! n) as [o|] eqn:Ho; [|by apply evolves_same].
  pose proof (settle_one _ _ (Some v) _ Ho) as E. cbn in E. destruct (set_value v o) as [ok o'].
  split; [by destruct ok|]. exists [(n, Some v)]. rewrite E. by destruct ok.
Qed.

Lemma evolves_parse argv p : evolves p (parse argv p).2.
Proof.
  assert (forall q, ordered q = ordered p -> options q = options p ->
    evolves p (check_needed (parse_args (match short_names (iterate (options p)) ∅ with inr l => l | inl _ => ∅ end) (tail argv) q))) as Hq.
  { intros q E1 E2. trans q; [by apply evolves_same|]. rewrite check_needed_eq.
    trans (parse_args (match short_names (iterate (options p)) ∅ with inr l => l | inl _ => ∅ end) (tail argv) q);
      [|by apply evolves_same].
    apply (parse_args_rel evolves); intros; auto using evolves_set_option, evolves_set_option_value; by apply evolves_same. }
  unfold parse. destruct argv as [|arg0 args]; [by apply evolves_same|].
  destruct (decide _); cbn [options with_prog_name with_others with_errors]; cbn [tail] in Hq;
    destruct (short_names _ _); cbn [snd]; first [by apply Hq|by apply evolves_same].
Qed.

Lemma evolves_parse_vector args p : evolves p (parse_vector args p).2.
Proof.
  unfold parse_vector. destruct args as [|a args]; [done|].
  pose proof (evolves_parse (c_str <$> a :: args) p) as E. by destruct (parse _ p).
Qed.

Lemma evolves_parse_string arg p : evolves p (parse_string arg p).2.2.
Proof. unfold parse_string. destruct (split_args _ _ _ _); [by apply evolves_same|apply evolves_parse_vector]. Qed.

Lemma option_typed_setting n v o : option_typed n o -> option_typed n (setting_on v o).2.
Proof.
  intros [Hn Ho]. destruct o as [|T nam sn need desc has def actual read], v as [v|]; cbn in *; try done.
  destruct (read v) as [x|] eqn:E; cbn; [|done]. split; [done|]. by exists v.
Qed.

Lemma evolves_typed p q : evolves p q -> well_typed p -> well_typed q.
Proof.
  intros [Eo [ss Es]] [H1 H2 H3]. split.
  - rewrite Es. clear -H1. revert H1. generalize (options p). induction ss as [|[k v] ss IH]; intros m Hm; [done|].
    rewrite settle_cons. apply IH. intros n o. unfold apply_setting. cbn.
    destruct (decide (k = n)) as [->|Hk]; [rewrite lookup_alter_eq|rewrite lookup_alter_ne by done; apply Hm].
    destruct (m !! n) as [o'|] eqn:E; [|done]. cbn. intros [= <-]. by apply option_typed_setting, Hm.
  - intros n. rewrite Eo, H2, Es. pose proof (settle_equiv ss (options p) n) as E.
    destruct E; split; intros []; by eauto.
  - by rewrite Eo.
Qed.

Lemma add_typed o p p' : option_typed (name o) o -> add_option o p = inr p' -> well_typed p -> well_typed p'.
Proof.
  intros Ho. unfold add_option. destruct (options p !! name o) eqn:E; [done|]. intros [= <-] [H1 H2 H3].
  split; cbn.
  - by apply map_Forall_insert_2.
  - intros n. rewrite elem_of_app, H2, list_elem_of_singleton. destruct (decide (name o = n)) as [<-|Hn].
    + rewrite lookup_insert_eq. split; [eauto|auto].
    + rewrite lookup_insert_ne by done. naive_solver.
  - apply NoDup_app. split; [done|]. split; [|apply NoDup_singleton].
    intros n Hn%H2. rewrite list_elem_of_singleton. intros ->. rewrite E in Hn. by destruct Hn.
Qed.

Lemma add_help_typed p p' : add_help p = inr p' -> well_typed p -> well_typed p'.
Proof. unfold add_help. destruct (options p !! "help"); [by intros [= ->]|]. by apply add_typed. Qed.

Lemma step_typed p p' : parser_step p p' -> well_typed p -> well_typed p'.
Proof.
  destruct 1 as [n sn desc p' E|T n sn desc need def F p' E|f|n|argv|args|arg|argv c p' E|args c p' E|arg c p' E]; intros Hp.
  - revert E Hp. by apply add_typed.
  - revert E Hp. by apply add_typed.
  - by destruct Hp.
  - by destruct Hp.
  - by eapply evolves_typed; [apply evolves_parse|].
  - by eapply evolves_typed; [apply evolves_parse_vector|].
  - by eapply evolves_typed; [apply evolves_parse_string|].
  - unfold parse_check in E. destruct (add_help p) as [|q] eqn:Eh; [done|].
    pose proof (evolves_parse argv q) as Ev. destruct (parse argv q). destruct (check _ _ _); simplify_eq.
    by eapply evolves_typed; [exact Ev|eapply add_help_typed].
  - unfold parse_check_vector in E. destruct (add_help p) as [|q] eqn:Eh; [done|].
    pose proof (evolves_parse_vector args q) as Ev. destruct (parse_vector args q) as [r q'].
    assert (q' = p') as <- by (repeat case_match; by simplify_eq).
    by eapply evolves_typed; [exact Ev|eapply add_help_typed].
  - unfold parse_check_string in E. destruct (add_help p) as [|q] eqn:Eh; [done|].
    pose proof (evolves_parse_string arg q) as Ev. destruct (parse_string arg q) as [l [r q']].
    assert (q' = p') as <- by (repeat case_match; by simplify_eq).
    by eapply evolves_typed; [exact Ev|eapply add_help_typed].
Qed.

Lemma reachable_typed p : reachable_parser p -> well_typed p.
Proof.
  unfold reachable_parser. intros Hr. remember new_parser as p0 eqn:E0.
  assert (well_typed p0) as H0.
  { subst. split; cbn; [by intros ??; rewrite lookup_empty|intros n; rewrite lookup_empty|constructor].
    split; [by intros ?%not_elem_of_nil|by intros []]. }
  clear E0. induction Hr as [|p0 p1 p Hs _ IH]; [done|]. apply IH. by eapply step_typed.
Qed.

(** C24: Values are typed: whatever a program has done with a parser, [get]
    returns a value only at the type its option was declared with, and the
    value is the declared default or, once the option was set, one its reader
    accepted - for a [range], one within the bounds. *)
Theorem values_typed p T n v : reachable_parser p -> get T n p = inr v ->
  exists sn need desc has def read,
    options p !! n = Some (option_with_value T n sn need desc has def v read) /\
    (if has then exists s, read s = Some v else v = def) /\
    (forall low high, read = range low high -> has = true -> val_leb low v = true /\ val_leb v high = true).
Proof.
  intros Hp%reachable_typed. unfold get. destruct (options p !! n) as [o|] eqn:Eo; [|done].
  pose proof (typed_options _ Hp _ _ Eo) as [Hn Ht]. destruct o as [|T' nam sn need desc has def actual read]; [done|].
  destruct (decide (T' = T)) as [->|]; [|done]. intros [= <-]. cbn in Hn. subst nam.
  exists sn, need, desc, has, def, read. split; [done|]. split; [done|].
  intros low high -> ->. destruct Ht as [s Hs]. unfold range, range_reader in Hs.
  destruct (default_reader s) as [x|]; [|done]. cbn in Hs. destruct (_ && _) eqn:E; [|done].
  injection Hs as <-. by apply andb_true_iff in E.
Qed.
