(* ===== verification/AppHeader.v ===== *)
(** * What the sending and receiving programs share:
      [my_quic_header.{h,cc}], [my_quic_utils.{h,cc}], [fakevideogenerator.{h,cc}],
      [mybbr/my_proto.h]

    The packet header of the test programs (a byte of flags and type, then the
    packet number in one, two, four or six bytes), the splitting of a frame into
    pieces, the fake video source, and the files the programs log to. *)

From S2P Require Import Prelude QuicTime FramerTypes FramerWire.
Open Scope Z_scope.

(** ** The packet header *)

(** [my_proto.h] *)
Inductive TestProto := test_proto_stream | test_proto_padding | test_proto_ack.

Definition proto_value (p : TestProto) : Z :=
  match p with test_proto_stream => 0 | test_proto_padding => 1 | test_proto_ack => 2 end.

Definition kPublicHeaderSequenceNumberShift : Z := 4.

Section Header.
Context `{T : QuicTypes}.

Definition GetMinSeqLength (packet_number : Z) : Z :=
  if packet_number <? Z.shiftl 1 (PACKET_1BYTE_PACKET_NUMBER * 8) then PACKET_1BYTE_PACKET_NUMBER
  else if packet_number <? Z.shiftl 1 (PACKET_2BYTE_PACKET_NUMBER * 8) then PACKET_2BYTE_PACKET_NUMBER
  else if packet_number <? Z.shiftl 1 (PACKET_4BYTE_PACKET_NUMBER * 8) then PACKET_4BYTE_PACKET_NUMBER
  else PACKET_6BYTE_PACKET_NUMBER.

Definition ReadSequenceNumberLength (flags : Z) : Z :=
  let v := Z.land flags PACKET_FLAGS_8BYTE_PACKET in
  if v =? PACKET_FLAGS_8BYTE_PACKET then PACKET_6BYTE_PACKET_NUMBER
  else if v =? PACKET_FLAGS_4BYTE_PACKET then PACKET_4BYTE_PACKET_NUMBER
  else if v =? PACKET_FLAGS_2BYTE_PACKET then PACKET_2BYTE_PACKET_NUMBER
  else if v =? PACKET_FLAGS_1BYTE_PACKET then PACKET_1BYTE_PACKET_NUMBER
  else PACKET_6BYTE_PACKET_NUMBER.

Definition GetPacketNumberFlags (seq_len : Z) : Z :=
  if seq_len =? PACKET_1BYTE_PACKET_NUMBER then PACKET_FLAGS_1BYTE_PACKET
  else if seq_len =? PACKET_2BYTE_PACKET_NUMBER then PACKET_FLAGS_2BYTE_PACKET
  else if seq_len =? PACKET_4BYTE_PACKET_NUMBER then PACKET_FLAGS_4BYTE_PACKET
  else if (seq_len =? PACKET_6BYTE_PACKET_NUMBER) || (seq_len =? PACKET_8BYTE_PACKET_NUMBER)
  then PACKET_FLAGS_8BYTE_PACKET
  else PACKET_FLAGS_8BYTE_PACKET.

(** [public_flags |= GetPacketNumberFlags(seq_len) << kPublicHeaderSequenceNumberShift] *)
Definition app_flags (seq_len : Z) : Z :=
  u8 (Z.shiftl (GetPacketNumberFlags seq_len) kPublicHeaderSequenceNumberShift).

Context `{W : WriterOps} `{R : ReaderOps}.

(** The flags and the packet number, as every program writes them; the results
    of the writes are dropped. *)
Definition write_header (flags seq_len seq : Z) (w : QuicDataWriter) : QuicDataWriter :=
  (WriteBytesToUInt64 seq_len seq (WriteBytes [flags] w).2).2.

(** A byte read into a variable that keeps its value when there is none. *)
Definition read_byte (dflt : Z) (r : QuicDataReader) : Z * QuicDataReader :=
  match ReadBytes 1 r with
  | (Some [b], r) => (b, r)
  | (_, r) => (dflt, r)
  end.

(** The packet number, zero when it is cut short. *)
Definition read_number (seq_len : Z) (r : QuicDataReader) : Z * QuicDataReader :=
  match ReadBytesToUInt64 seq_len r with
  | (Some v, r) => (v, r)
  | (None, r) => (0, r)
  end.

End Header.

(** ** Splitting a frame *)

Definition MAX_SPLIT_NUMBER : Z := 1024.
Definition QUIC_MAX_VIDEO_SIZE : Z := 1000.

(** [splits[i] = v]; an index past the array is a stray write. *)
Definition set_split (i v : Z) : M (list Z) unit := fun splits =>
  if (0 <=? i) && (i <? zlen splits) then (Ok tt, <[Z.to_nat i := v]> splits) else (Stuck, splits).

(** The body [my_quic_utils.cc] and [mininet-webrtc/sender.cc] share, with the
    piece's size. *)
Definition frame_split (piece size : Z) : M (list Z) Z :=
  if size <=? piece then
    set_split 0 (u16 size);;
    mret 1
  else
    let ret := u16 (size / piece) in
    mfor (Z.to_nat ret) 0 (fun i => set_split (Z.of_nat i) piece);;
    let remain_size := u16 (size mod piece) in
    if 0 <? remain_size then
      set_split ret remain_size;;
      mret (u16 (ret + 1))
    else mret ret.

Definition FrameSplit (size : Z) : M (list Z) Z := frame_split QUIC_MAX_VIDEO_SIZE size.

(** The pieces of a frame, at the head of an array of [MAX_SPLIT_NUMBER]. *)
Definition split_frame (frame_len : Z) : res (list Z) :=
  if Z.quot frame_len QUIC_MAX_VIDEO_SIZE <? MAX_SPLIT_NUMBER then
    match FrameSplit frame_len (replicate (Z.to_nat MAX_SPLIT_NUMBER) 0) with
    | (Ok total, splits) => Ok (ztake total splits)
    | (Fail, _) => Fail
    | (Stuck, _) => Stuck
    end
  else Stuck.

(** ** The fake video source *)

Record FakeVideoGenerator := mkGenerator {
  min_rate_ : Z; rate_ : Z; max_rate_ : Z; duration_ : Z; gen_next_ : QuicTime }.

(** Division by a frame rate of zero traps. *)
Definition new_generator (fs start_rate : Z) : option FakeVideoGenerator :=
  if fs =? 0 then None
  else Some (mkGenerator start_rate start_rate 2000000 (Z.quot 1000 fs) Time_Zero).

Definition UpdataRate (bps : Z) (g : FakeVideoGenerator) : FakeVideoGenerator :=
  let bw := bps in
  let bw := if max_rate_ g <? bw then max_rate_ g else bw in
  let bw := if bw <? min_rate_ g then min_rate_ g else bw in
  mkGenerator (min_rate_ g) bw (max_rate_ g) (duration_ g) (gen_next_ g).

Definition GetMaxRate (g : FakeVideoGenerator) : Z := max_rate_ g.

Definition GetFrame (now : QuicTime) (g : FakeVideoGenerator) : Z * FakeVideoGenerator :=
  let expect := Z.quot (s64 (rate_ g * duration_ g)) (1000 * 8) in
  if time_gt now (gen_next_ g) then
    (expect, mkGenerator (min_rate_ g) (rate_ g) (max_rate_ g) (duration_ g)
       (time_add now (FromMilliseconds (duration_ g))))
  else (0, g).

(** ** Log files *)

(** A [std::fstream]: whether it is open, whether an operation failed, and the
    lines written.  A line is the list of the numbers printed. *)
Record log_file := mkLog { is_open : bool; failbit : bool; lines : list (list Z) }.

Definition closed_log : log_file := mkLog false false [].

(** [open]: fails on an open stream and when the system refuses. *)
Definition log_open (granted : bool) (f : log_file) : log_file :=
  if is_open f || negb granted then mkLog (is_open f) true (lines f) else mkLog true false (lines f).

(** [f << line << std::endl] *)
Definition log_line (line : list Z) (f : log_file) : log_file :=
  if is_open f && negb (failbit f) then mkLog (is_open f) (failbit f) (lines f ++ [line]) else f.

(** [getcwd] and [open] of the log's path. *)
Class Files (W : Type) := grant_open : string -> W -> bool * W.

(** ** The header's round trip *)

Section HeaderLaws.
Context `{T : QuicTypes} `{TOk : !QuicTypesOk T} `{F : QuicFunctions}
  `{R : ReaderOps} `{RV : !ReaderView} `{ROk : !ReaderOk}
  `{W : WriterOps} `{WV : !WriterView} `{WOk : !WriterOk}.

(** Rewrites with the library's documented values. *)
Ltac header_values :=
  let a := fresh in let b := fresh in let c := fresh in let d := fresh in let e := fresh in
  destruct pn_len_values as (a & b & c & d & e); rewrite ?a, ?b, ?c, ?d, ?e; clear a b c d e;
  destruct pn_flag_values as (a & b & c & d); rewrite ?a, ?b, ?c, ?d; clear a b c d.

Lemma min_seq_length_cases n :
  GetMinSeqLength n = if n <? 256 then 1 else if n <? 65536 then 2
    else if n <? 4294967296 then 4 else 6.
Proof. unfold GetMinSeqLength. header_values. reflexivity. Qed.

Lemma min_seq_length_range n : 1 <= GetMinSeqLength n <= 6.
Proof. rewrite min_seq_length_cases. repeat case_match; lia. Qed.

(** The number fits in the bytes chosen for it, if six can hold it. *)
Lemma min_seq_length_fits n : in_u 48 n -> in_u (8 * GetMinSeqLength n) n.
Proof.
  rewrite min_seq_length_cases. unfold in_u. intros [H1 H2]. split; [done|].
  destruct (Z.ltb_spec n 256); [done|]. destruct (Z.ltb_spec n 65536); [done|].
  destruct (Z.ltb_spec n 4294967296); done.
Qed.

(** A byte of flags whose low half is [type]. *)
Definition flags_byte (type n : Z) : Z := u8 (Z.lor (app_flags (GetMinSeqLength n)) type).

Lemma flags_byte_cases type n : flags_byte type n =
  u8 (Z.lor (if n <? 256 then 0 else if n <? 65536 then 16 else if n <? 4294967296 then 32 else 48) type).
Proof.
  unfold flags_byte, app_flags, GetPacketNumberFlags. rewrite min_seq_length_cases. header_values.
  destruct (n <? 256); [done|]. destruct (n <? 65536); [done|]. by destruct (n <? 4294967296).
Qed.

Lemma flags_byte_read type n : type ∈ [0; 1; 2] ->
  byte_ok (flags_byte type n) /\
  Z.land (flags_byte type n) 0x0F = type /\
  ReadSequenceNumberLength (Z.shiftr (flags_byte type n) kPublicHeaderSequenceNumberShift) =
    GetMinSeqLength n.
Proof.
  intros Ht. rewrite flags_byte_cases, min_seq_length_cases. unfold ReadSequenceNumberLength. header_values.
  rewrite !elem_of_cons, elem_of_nil in Ht.
  split; [by apply wrap_range|].
  destruct (n <? 256), (n <? 65536), (n <? 4294967296); destruct Ht as [->|[->|[->|[]]]]; done.
Qed.

(** The bytes of a header. *)
Definition header_bytes (flags seq_len seq : Z) : list Z := flags :: be_bytes (Z.to_nat seq_len) seq.

Lemma header_bytes_len flags seq_len seq : 0 <= seq_len -> zlen (header_bytes flags seq_len seq) = 1 + seq_len.
Proof. intros. unfold header_bytes. rewrite zlen_cons, zlen_be. lia. Qed.

Lemma writes_app ok op bs w : writes_if ok op bs -> ok = true ->
  wlength w + zlen (bs (wendian w)) <= capacity w ->
  exists w', op w = (true, w') /\ wext w (bs (wendian w)) w'.
Proof. intros Hop -> Hfit. pose proof (Hop w) as E. by rewrite (proj2 (Z.leb_le _ _) Hfit) in E. Qed.

(** A fresh writer with room holds the header and nothing else. *)
Lemma write_header_ok n flags seq_len seq :
  0 <= seq_len <= 8 -> 1 + seq_len <= n ->
  let w := write_header flags seq_len seq (new_writer n NETWORK_BYTE_ORDER) in
  written w = header_bytes flags seq_len seq /\ capacity w = n /\ wendian w = NETWORK_BYTE_ORDER.
Proof.
  intros Hs Hn. unfold write_header.
  destruct (new_writer_written n NETWORK_BYTE_ORDER ltac:(lia)) as (W1 & W2 & W3).
  set (w0 := new_writer n NETWORK_BYTE_ORDER) in *.
  destruct (writes_app true (WriteBytes [flags]) _ w0 (WriteBytes_ok _) eq_refl) as (w1 & -> & V1 & V2 & V3).
  { rewrite wlength_ok, W1, W2, zlen_cons, !zlen_nil. lia. }
  cbn [snd]. rewrite W1, app_nil_l in V1.
  destruct (writes_app true (WriteBytesToUInt64 seq_len seq) _ w1
    (WriteBytesToUInt64_ok _ _ Hs) eq_refl) as (w2 & -> & U1 & U2 & U3).
  { rewrite wlength_ok, V1, V2, W2, uint_bytes_len, zlen_cons, zlen_nil. lia. }
  cbn [snd]. rewrite U1, U2, U3, V1, V2, V3, W2, W3. done.
Qed.

Lemma read_byte_ok dflt r b l : remaining r = b :: l ->
  exists r', read_byte dflt r = (b, r') /\ remaining r' = l /\ rendian r' = rendian r.
Proof.
  intros Hr. unfold read_byte. pose proof (ReadBytes_ok 1 r) as E. cbv beta in E. rewrite Hr in E.
  change (b :: l) with ([b] ++ l) in E. rewrite (p_bytes_app' 1 [b]) in E by done.
  destruct E as (r' & -> & E). by exists r'.
Qed.

Lemma read_byte_nil dflt r : remaining r = [] ->
  exists r', read_byte dflt r = (dflt, r') /\ remaining r' = [] /\ rendian r' = rendian r.
Proof.
  intros Hr. unfold read_byte. pose proof (ReadBytes_ok 1 r) as E. cbv beta in E. rewrite Hr in E.
  cbn in E. destruct E as (r' & -> & [bs E] & E2). exists r'. split; [done|]. split; [|done].
  symmetry in E. by apply app_eq_nil in E as [_ E].
Qed.

Lemma read_number_ok n r v l : 0 <= n <= 8 -> in_u (8 * n) v ->
  remaining r = uint_bytes (rendian r) (Z.to_nat n) v ++ l ->
  exists r', read_number n r = (v, r') /\ remaining r' = l /\ rendian r' = rendian r.
Proof.
  intros Hn Hv Hr. unfold read_number. pose proof (ReadBytesToUInt64_ok n Hn r) as E. cbv beta in E.
  rewrite Hr, p_uint_app in E by (by rewrite Z2Nat.id by lia).
  destruct E as (r' & -> & E). by exists r'.
Qed.

(** Whatever is there, the number read is of its width; the reader is left on a
    suffix. *)
Lemma read_number_range n r : 0 <= n <= 8 -> bytes_ok (remaining r) ->
  exists v r', read_number n r = (v, r') /\ in_u (8 * n) v /\
    (exists bs, remaining r = bs ++ remaining r') /\ rendian r' = rendian r.
Proof.
  intros Hn Hb. unfold read_number. pose proof (ReadBytesToUInt64_ok n Hn r) as E. cbv beta in E.
  destruct (p_uint _ _ _) as [[v l]|] eqn:P.
  - destruct E as (r' & -> & <- & E). apply p_uint_ok in P as [Hs Hv]; [|done].
    rewrite Z2Nat.id in Hv by lia. by exists v, r'.
  - destruct E as (r' & -> & Hs & E). exists 0, r'. split; [done|]. split; [|done].
    unfold in_u. split; [done|]. apply Z.pow_pos_nonneg; lia.
Qed.

(** A header written by one program is read back by the other. *)
Lemma header_read type n tail :
  type ∈ [0; 1; 2] -> in_u 48 n ->
  let r := new_reader (header_bytes (flags_byte type n) (GetMinSeqLength n) n ++ tail) NETWORK_BYTE_ORDER in
  exists r1 r2, read_byte 0 r = (flags_byte type n, r1) /\
    read_number (GetMinSeqLength n) r1 = (n, r2) /\ remaining r2 = tail /\
    rendian r2 = NETWORK_BYTE_ORDER.
Proof.
  intros Ht Hn r. pose proof (min_seq_length_range n).
  destruct (read_byte_ok 0 r (flags_byte type n) (be_bytes (Z.to_nat (GetMinSeqLength n)) n ++ tail))
    as (r1 & -> & R1 & E1); [by apply new_reader_remaining|].
  subst r. rewrite new_reader_endian in E1.
  destruct (read_number_ok (GetMinSeqLength n) r1 n tail) as (r2 & E & R2 & E2).
  - lia.
  - by apply min_seq_length_fits.
  - by rewrite R1, E1.
  - exists r1, r2. by rewrite E2, E1.
Qed.

End HeaderLaws.

(** ** Splitting: the pieces *)

Lemma set_split_ok pre x post v :
  set_split (zlen pre) v (pre ++ x :: post) = (Ok tt, pre ++ v :: post).
Proof.
  unfold set_split. rewrite zlen_app, zlen_cons. pose proof (zlen_nonneg pre). pose proof (zlen_nonneg post).
  rewrite (proj2 (Z.leb_le _ _)), (proj2 (Z.ltb_lt _ _)) by lia. cbn [andb]. do 2 f_equal.
  unfold zlen. rewrite Nat2Z.id. replace (length pre) with (length pre + 0)%nat by lia.
  by rewrite insert_app_r.
Qed.

Lemma fill_ok piece n pre old post : length old = n ->
  mfor n (length pre) (fun i => set_split (Z.of_nat i) piece) (pre ++ old ++ post) =
    (Ok tt, pre ++ replicate n piece ++ post).
Proof.
  revert pre old. induction n as [|n IH]; intros pre old Hl.
  - apply nil_length_inv in Hl. by subst.
  - destruct old as [|x old]; [done|]. cbn [mfor app replicate].
    rewrite (M_bind_ok _ _ _ _ _ (set_split_ok pre x (old ++ post) piece)).
    replace (S (length pre)) with (length (pre ++ [piece])) by (rewrite length_app; cbn; lia).
    replace (pre ++ piece :: old ++ post) with ((pre ++ [piece]) ++ old ++ post) by (by rewrite <- app_assoc).
    rewrite IH by (cbn in Hl; lia). by rewrite <- app_assoc.
Qed.

(** The pieces a frame is split into: all of full size but the last. *)
Definition pieces (piece size : Z) : list Z :=
  if size <=? piece then [size]
  else replicate (Z.to_nat (size / piece)) piece ++
    (if 0 <? size mod piece then [size mod piece] else []).

Lemma fill_prefix piece n (splits : list Z) : (n <= length splits)%nat ->
  mfor n 0 (fun i => set_split (Z.of_nat i) piece) splits =
    (Ok tt, replicate n piece ++ drop n splits).
Proof.
  intros Hn. pose proof (fill_ok piece n [] (take n splits) (drop n splits)) as E.
  rewrite !app_nil_l, take_drop in E. apply E. rewrite length_take. lia.
Qed.

Lemma frame_split_ok piece size splits :
  0 < piece < 65536 -> 0 <= size -> zlen splits < 65536 ->
  zlen (pieces piece size) <= zlen splits -> 0 < zlen splits ->
  exists tail, frame_split piece size splits =
    (Ok (zlen (pieces piece size)), pieces piece size ++ tail) /\
    zlen (pieces piece size ++ tail) = zlen splits.
Proof.
  intros Hp Hs Hl Hfit Hne. unfold frame_split, pieces in *.
  destruct (Z.leb_spec size piece) as [Hle|Hgt].
  { destruct splits as [|x splits]; [done|]. exists splits.
    rewrite (M_bind_ok _ _ _ _ _ (set_split_ok [] x splits (u16 size))).
    rewrite (wrap_id 16) by (unfold_int; lia). done. }
  assert (1 <= size / piece) by (apply Z.div_le_lower_bound; lia).
  pose proof (Z.mod_pos_bound size piece ltac:(lia)) as Hmod.
  set (q := size / piece) in *. set (m := size mod piece) in *.
  assert (q <= zlen splits /\ (0 < m -> q + 1 <= zlen splits)) as [Hq Hq1].
  { rewrite zlen_app in Hfit. unfold zlen at 1 in Hfit. rewrite length_replicate, Z2Nat.id in Hfit by lia.
    destruct (Z.ltb_spec 0 m); rewrite ?zlen_cons, ?zlen_nil in Hfit; lia. }
  rewrite (wrap_id 16 q), (wrap_id 16 m) by (unfold_int; lia).
  rewrite (M_bind_ok _ _ _ _ _ (fill_prefix piece (Z.to_nat q) splits ltac:(unfold zlen in Hq; lia))).
  assert (zlen (replicate (Z.to_nat q) piece) = q) as Hrep
    by (unfold zlen; rewrite length_replicate; lia).
  pose proof (zlen_zdrop q splits ltac:(lia)) as Hdrop. unfold zdrop in Hdrop.
  destruct (Z.ltb_spec 0 m) as [Hm|Hm].
  - destruct (drop (Z.to_nat q) splits) as [|x tail] eqn:Ed.
    { rewrite zlen_nil in Hdrop. specialize (Hq1 Hm). lia. }
    exists tail. pose proof (set_split_ok (replicate (Z.to_nat q) piece) x tail m) as E.
    rewrite Hrep in E. rewrite (M_bind_ok _ _ _ _ _ E), !zlen_app, Hrep.
    rewrite zlen_cons in Hdrop |- *. rewrite zlen_nil. specialize (Hq1 Hm).
    rewrite (wrap_id 16) by (unfold_int; lia). rewrite <- app_assoc. split; [by do 2 f_equal|lia].
  - exists (drop (Z.to_nat q) splits). rewrite app_nil_r, zlen_app, Hrep.
    split; [done|lia].
Qed.

Lemma sum_replicate n x : foldr Z.add 0 (replicate n x) = Z.of_nat n * x.
Proof. induction n; cbn [replicate foldr]; lia. Qed.

Lemma pieces_spec piece size : 0 < piece -> 0 <= size ->
  foldr Z.add 0 (pieces piece size) = size /\
  Forall (fun x => 0 <= x <= piece) (pieces piece size) /\
  zlen (pieces piece size) = Z.max 1 ((size + piece - 1) / piece).
Proof.
  intros Hp Hs. unfold pieces. pose proof (Z.div_mod size piece ltac:(lia)) as Hdm.
  pose proof (Z.mod_pos_bound size piece ltac:(lia)). pose proof (Z.div_pos size piece Hs Hp).
  destruct (Z.leb_spec size piece) as [Hle|Hgt].
  { cbn. split; [lia|]. split; [constructor; [lia|done]|]. change (zlen [size]) with 1.
    assert ((size + piece - 1) / piece <= 1); [|lia].
    apply Z.lt_succ_r, Z.div_lt_upper_bound; lia. }
  assert (1 <= size / piece) by (apply Z.div_le_lower_bound; lia).
  assert ((size + piece - 1) / piece = size / piece + (if 0 <? size mod piece then 1 else 0)) as E.
  { symmetry. destruct (Z.ltb_spec 0 (size mod piece));
      [apply Z.div_unique with (size mod piece - 1)|apply Z.div_unique with (piece - 1)]; lia. }
  rewrite foldr_app, zlen_app, E. unfold zlen at 1. rewrite length_replicate.
  destruct (Z.ltb_spec 0 (size mod piece)); cbn [foldr].
  - split; [|split].
    + replace (size mod piece + 0) with (size mod piece) by lia.
      assert (forall n a, foldr Z.add a (replicate n piece) = Z.of_nat n * piece + a) as ->
        by (intros n a; induction n; cbn [replicate foldr]; lia). lia.
    + apply Forall_app. split; [apply Forall_replicate; lia|]. constructor; [lia|done].
    + change (zlen [size mod piece]) with 1. lia.
  - rewrite sum_replicate. split; [lia|]. split; [|rewrite zlen_nil; lia].
    rewrite app_nil_r. apply Forall_replicate. lia.
Qed.

Lemma split_frame_ok len : 0 < len < 1024000 ->
  exists v, split_frame len = Ok v /\ foldr Z.add 0 v = len /\
    Forall (fun x => 0 <= x <= QUIC_MAX_VIDEO_SIZE) v /\ zlen v = (len + 999) / 1000 /\
    zlen v <= MAX_SPLIT_NUMBER.
Proof.
  intros Hlen. unfold split_frame. rewrite Z.quot_div_nonneg by (unfold QUIC_MAX_VIDEO_SIZE; lia).
  unfold QUIC_MAX_VIDEO_SIZE, MAX_SPLIT_NUMBER, FrameSplit in *.
  assert (1 <= (len + 999) / 1000) by (apply Z.div_le_lower_bound; lia).
  rewrite (proj2 (Z.ltb_lt _ _)) by (apply Z.div_lt_upper_bound; lia).
  destruct (pieces_spec 1000 len ltac:(lia) ltac:(lia)) as (Hsum & Hall & Hn).
  replace (len + 1000 - 1) with (len + 999) in Hn by lia. rewrite Z.max_r in Hn by lia.
  assert ((len + 999) / 1000 < 1025) by (apply Z.div_lt_upper_bound; lia).
  set (buf := replicate (Z.to_nat 1024) 0).
  assert (zlen buf = 1024) as Hbuf by (unfold zlen, buf; rewrite length_replicate; lia).
  destruct (frame_split_ok 1000 len buf) as (tail & E & Et); [lia|lia|rewrite Hbuf; lia..|].
  unfold QUIC_MAX_VIDEO_SIZE. rewrite E. exists (pieces 1000 len). rewrite ztake_app.
  split; [done|]. split; [done|]. split; [done|]. split; [done|lia].
Qed.

(** A frame shorter than 1,024,000 bytes is split into pieces of at most 1000
    bytes that add up to it, as few as possible, which stay inside the array of
    1024; a longer one aborts on the assertion before the array is touched. *)
Theorem split_frame_spec len : 0 < len ->
  if len <? 1024000 then
    exists v, split_frame len = Ok v /\ foldr Z.add 0 v = len /\
      Forall (fun x => 0 <= x <= QUIC_MAX_VIDEO_SIZE) v /\ zlen v = (len + 999) / 1000 /\
      zlen v <= MAX_SPLIT_NUMBER
  else split_frame len = Stuck.
Proof.
  intros Hlen. destruct (Z.ltb_spec len 1024000) as [Hlt|Hge]; [by apply split_frame_ok|].
  unfold split_frame. rewrite Z.quot_div_nonneg by (unfold QUIC_MAX_VIDEO_SIZE; lia).
  rewrite (proj2 (Z.ltb_ge _ _)); [done|].
  unfold QUIC_MAX_VIDEO_SIZE, MAX_SPLIT_NUMBER. apply Z.div_le_lower_bound; lia.
Qed.

Lemma split_frame_spec_witness :
  split_frame 2500 = Ok [1000; 1000; 500] /\
  exists v, split_frame 2500 = Ok v /\ foldr Z.add 0 v = 2500 /\
    Forall (fun x => 0 <= x <= QUIC_MAX_VIDEO_SIZE) v /\ zlen v = 3 /\ zlen v <= MAX_SPLIT_NUMBER.
Proof.
  split; [by vm_compute|]. refine (split_frame_spec 2500 _). reflexivity.
Defined.
