(* ===== verification/BbrApps.v ===== *)
(** * The programs over the congestion controller:
      [mybbr/my_bbr_sender_app.{h,cc}], [my_bbr_video_sender_app.{h,cc}],
      [my_bbr_receiver_app.{h,cc}]

    A sender paced by [MyPacingSender] that numbers its packets, a variant fed
    by a video source, and a receiver that acknowledges every packet and logs
    the losses it infers.  The world [W] is behind the interfaces of the clock,
    the socket and the log files; [beyond] is what lies on the stack after a
    sender's 1400-byte buffer, of which [kMaxPacketSize] bytes are sent.  The
    pacing sender owns the controller it points to. *)

From S2P Require Import Prelude QuicTime Clock StdMap Bbr Platform FramerTypes FramerWire AppHeader.
Open Scope Z_scope.

(** [QuicBandwidth::ToKBitsPerSecond] *)
Class BandwidthKbps `{BbrLib} := ToKBitsPerSecond : QuicBandwidth -> Z.

Definition MaxPacketSize : Z := 1400.

Section Apps.
Context `{T : QuicTypes} `{L : BbrLib} `{K : !BandwidthKbps} `{R : ReaderOps} `{WO : WriterOps}.
Context {W : Type} `{TD : TimeOfDay W} `{SK : Socket W} `{F : Files W}.
Context (beyond : list Z).

(** ** The sender *)

Record MyBbrSenderApp := mkApp {
  app_world : W;
  app_peer : su_addr;
  app_seq : Z;
  app_next : QuicTime;
  app_ref_time : QuicTime;
  app_stop : QuicTime;
  app_enable_log : bool;
  app_f_rate : log_file;
  app_offset : Z;
  app_pacing : MyPacingSender
}.

Local Abbreviation A := (M MyBbrSenderApp).

(** [peer_] is set before the program runs. *)
Definition new_app (w : W) (peer : su_addr) (min_bps start_bps max_bps : Z) (random : QuicRandom) :
    MyBbrSenderApp :=
  mkApp w peer 1 Time_Zero Time_Zero Time_Zero false closed_log 0
    (set_sender (new_sender min_bps start_bps max_bps random) new_pacing).

Definition app_upd_world (w : W) (s : MyBbrSenderApp) : MyBbrSenderApp :=
  mkApp w (app_peer s) (app_seq s) (app_next s) (app_ref_time s) (app_stop s) (app_enable_log s)
    (app_f_rate s) (app_offset s) (app_pacing s).

Definition app_upd_seq (n : Z) (s : MyBbrSenderApp) : MyBbrSenderApp :=
  mkApp (app_world s) (app_peer s) n (app_next s) (app_ref_time s) (app_stop s) (app_enable_log s)
    (app_f_rate s) (app_offset s) (app_pacing s).

Definition app_upd_pacing (p : MyPacingSender) (s : MyBbrSenderApp) : MyBbrSenderApp :=
  mkApp (app_world s) (app_peer s) (app_seq s) (app_next s) (app_ref_time s) (app_stop s)
    (app_enable_log s) (app_f_rate s) (app_offset s) p.

Definition app_upd_next (t : QuicTime) (s : MyBbrSenderApp) : MyBbrSenderApp :=
  mkApp (app_world s) (app_peer s) (app_seq s) t (app_ref_time s) (app_stop s) (app_enable_log s)
    (app_f_rate s) (app_offset s) (app_pacing s).

Definition app_upd_ref (t : QuicTime) (s : MyBbrSenderApp) : MyBbrSenderApp :=
  mkApp (app_world s) (app_peer s) (app_seq s) (app_next s) t (app_stop s) (app_enable_log s)
    (app_f_rate s) (app_offset s) (app_pacing s).

Definition app_upd_stop (t : QuicTime) (s : MyBbrSenderApp) : MyBbrSenderApp :=
  mkApp (app_world s) (app_peer s) (app_seq s) (app_next s) (app_ref_time s) t (app_enable_log s)
    (app_f_rate s) (app_offset s) (app_pacing s).

Definition app_upd_log (enabled : bool) (f : log_file) (s : MyBbrSenderApp) : MyBbrSenderApp :=
  mkApp (app_world s) (app_peer s) (app_seq s) (app_next s) (app_ref_time s) (app_stop s) enabled f
    (app_offset s) (app_pacing s).

Definition SetTimeOffset (offset : Z) : A unit := mmodify (fun s =>
  mkApp (app_world s) (app_peer s) (app_seq s) (app_next s) (app_ref_time s) (app_stop s)
    (app_enable_log s) (app_f_rate s) offset (app_pacing s)).

(** [clock_.Now()], [socket_->RecvFrom], [socket_->SendTo], a call of [pacing_]. *)
Definition app_now : A QuicTime :=
  s ← mget;
  let '(now, w) := SysClock_Now (app_world s) in
  mmodify (app_upd_world w);; mret now.

Definition app_recv (n : Z) : A (option (list Z)) :=
  s ← mget;
  let '(recv, data, w) := RecvFrom n (app_world s) in
  mmodify (app_upd_world w);;
  mret (if 0 <? recv then snd <$> data else None).

Definition app_send (buf : list Z) : A unit := mmodify (fun s =>
  app_upd_world (SendTo (app_peer s) buf (app_world s)).2 s).

Definition app_on_pacing {X} (m : M MyPacingSender X) : A X := fun s =>
  let '(r, p) := m (app_pacing s) in (r, app_upd_pacing p s).

Definition app_on_cc {X} (f : MyBbrSender -> X) : A X :=
  app_on_pacing (on_sender (s ← mget; mret (f s))).

Definition set_duration (ms : Z) : A unit :=
  now ← app_now;
  mmodify (app_upd_stop (time_add now (FromMilliseconds ms))).

Definition EnableRateRecord (name : string) : A unit :=
  s ← mget;
  let '(granted, w) := grant_open (name ++ "-rate.txt") (app_world s) in
  mmodify (app_upd_world w);;
  mmodify (app_upd_log true (log_open granted (app_f_rate s))).

(** [RecordRate] of either sender, with the estimate it logs. *)
Definition record_rate (estimate : MyBbrSender -> QuicBandwidth) (now : QuicTime) : A unit :=
  s ← mget;
  if time_eq (app_next s) Time_Zero then
    mmodify (app_upd_next (time_add now (FromMilliseconds 100)))
  else if time_gt now (app_next s) then
    let delta := time_diff now (app_ref_time s) in
    let ms := s64 (ToMilliseconds delta + app_offset s) in
    bw ← app_on_cc estimate;
    mmodify (app_upd_log (app_enable_log s) (log_line [ms; ToKBitsPerSecond bw] (app_f_rate s)));;
    mmodify (app_upd_next (time_add now (FromMilliseconds 100)))
  else mret tt.

Definition RecordRate (now : QuicTime) : A unit := record_rate GetReferenceRate now.

(** The sender's buffer: what was written, then the zeros it was filled with. *)
Definition filled (size : Z) (w : QuicDataWriter) : list Z :=
  written w ++ replicate (Z.to_nat (size - zlen (written w))) 0.

(** A packet of the given type: [SendFakePacket] and [SendPaddingPacket]. *)
Definition send_packet (type : TestProto) (now : QuicTime) : A unit :=
  s ← mget;
  let seq := app_seq s in
  let seq_len := GetMinSeqLength seq in
  let public_flags := u8 (Z.lor (app_flags seq_len) (proto_value type)) in
  let writer := write_header public_flags seq_len seq (new_writer MaxPacketSize NETWORK_BYTE_ORDER) in
  mmodify (app_upd_seq (u32 (seq + 1)));;
  match load (filled MaxPacketSize writer ++ beyond) 0 kMaxPacketSize with
  | None => mstuck
  | Some buf =>
      app_send buf;;
      let payload := u16 (MaxPacketSize - (1 + seq_len)) in
      app_on_pacing (Pacing_OnPacketSent now seq payload)
  end.

Definition SendFakePacket (now : QuicTime) : A unit := send_packet test_proto_stream now.

(** The copy into a 1400-byte array is unchecked. *)
Definition ProcessAckFrame (now : QuicTime) (data : list Z) : A unit :=
  match store (replicate (Z.to_nat MaxPacketSize) 0) 0 data with
  | None => mstuck
  | Some buf =>
      let header_reader := new_reader (ztake (zlen data) buf) NETWORK_BYTE_ORDER in
      let '(public_flags, header_reader) := read_byte 0 header_reader in
      let type := Z.land public_flags 0x0F in
      let seq_len := ReadSequenceNumberLength (Z.shiftr public_flags kPublicHeaderSequenceNumberShift) in
      if type =? proto_value test_proto_ack then
        let '(num, _) := read_number seq_len header_reader in
        app_on_pacing (OnCongestionEvent now num)
      else mret tt
  end.

(** The head and the tail of either sender's [Process]. *)
Definition start_process : A QuicTime :=
  now ← app_now;
  s ← mget;
  (if time_eq (app_ref_time s) Time_Zero then mmodify (app_upd_ref now) else mret tt);;
  mret now.

Definition receive_and_finish (estimate : MyBbrSender -> QuicBandwidth) (now : QuicTime) : A bool :=
  recv ← app_recv 1500;
  (match recv with Some data => ProcessAckFrame now data | None => mret tt end);;
  s ← mget;
  let ret := if time_ne (app_stop s) Time_Zero then negb (time_gt now (app_stop s)) else true in
  record_rate estimate now;;
  mret ret.

Definition Process : A bool :=
  now ← start_process;
  s ← mget;
  (if delta_eq (TimeUntilSend now (app_pacing s)) Delta_Zero then SendFakePacket now else mret tt);;
  receive_and_finish GetReferenceRate now.

(** ** The video sender *)

(** [MyBbrVideoSenderApp]: the members of the sender, and the source and the
    sizes of the pieces waiting to be sent. *)
Record MyBbrVideoSenderApp := mkVideoApp {
  va_app : MyBbrSenderApp;
  source_ : FakeVideoGenerator;
  pending_queue_ : list Z
}.

(** [source]: what [SetVideoSource] is given before the program runs. *)
Definition new_video_app (w : W) (peer : su_addr) (min_bps start_bps max_bps : Z) (random : QuicRandom)
    (source : FakeVideoGenerator) : MyBbrVideoSenderApp :=
  mkVideoApp (new_app w peer min_bps start_bps max_bps random) source [].

Local Abbreviation V := (M MyBbrVideoSenderApp).

Definition on_app {X} (m : A X) : V X := fun s =>
  let '(r, a) := m (va_app s) in (r, mkVideoApp a (source_ s) (pending_queue_ s)).

Definition Video_set_duration (ms : Z) : V unit := on_app (set_duration ms).
Definition Video_EnableRateRecord (name : string) : V unit := on_app (EnableRateRecord name).
Definition Video_RecordRate (now : QuicTime) : V unit := on_app (record_rate BandwidthEstimate now).
Definition Video_SendFakePacket (now : QuicTime) : V unit := on_app (send_packet test_proto_stream now).
Definition SendPaddingPacket (now : QuicTime) : V unit := on_app (send_packet test_proto_padding now).
Definition Video_ProcessAckFrame (now : QuicTime) (data : list Z) : V unit := on_app (ProcessAckFrame now data).

Definition SendDataOrPadding (now : QuicTime) : V unit :=
  s ← mget;
  match pending_queue_ s with
  | [] =>
      probe ← on_app (app_on_cc ShouldSendProbePacket);
      if probe : bool then SendPaddingPacket now else mret tt
  | _ :: _ => Video_SendFakePacket now
  end.

Definition PollSource (now : QuicTime) : V unit :=
  s ← mget;
  let '(frame_len, g) := GetFrame now (source_ s) in
  mmodify (fun s => mkVideoApp (va_app s) g (pending_queue_ s));;
  if 0 <? frame_len then
    match split_frame frame_len with
    | Ok values => mmodify (fun s => mkVideoApp (va_app s) (source_ s) (pending_queue_ s ++ values))
    | _ => mstuck
    end
  else mret tt.

Definition Video_Process : V bool :=
  now ← on_app start_process;
  PollSource now;;
  s ← mget;
  (if delta_eq (TimeUntilSend now (app_pacing (va_app s))) Delta_Zero then SendDataOrPadding now
   else mret tt);;
  on_app (receive_and_finish BandwidthEstimate now).

(** ** The receiver *)

Record MyBbrReceiverApp := mkReceiver {
  rx_world : W;
  first_ : bool;
  rx_peer : su_addr;
  base_seq_ : Z;
  rx_stop : QuicTime;
  rx_duration : Z;
  rx_ref_time : QuicTime;
  rx_next : QuicTime;
  recv_byte_ : Z;
  rx_offset : Z;
  enable_loss_record_ : bool;
  enable_rate_record_ : bool;
  f_loss_ : log_file;
  f_rate_ : log_file;
  log_prefix_ : string
}.

Local Abbreviation C := (M MyBbrReceiverApp).

Definition new_receiver (w : W) (peer : su_addr) : MyBbrReceiverApp :=
  mkReceiver w true peer 0 Time_Zero 0 Time_Zero Time_Zero 0 0 false false closed_log closed_log "".

Definition rx_upd_world (w : W) (s : MyBbrReceiverApp) : MyBbrReceiverApp :=
  mkReceiver w (first_ s) (rx_peer s) (base_seq_ s) (rx_stop s) (rx_duration s) (rx_ref_time s)
    (rx_next s) (recv_byte_ s) (rx_offset s) (enable_loss_record_ s) (enable_rate_record_ s)
    (f_loss_ s) (f_rate_ s) (log_prefix_ s).

Definition rx_upd_base (n : Z) (s : MyBbrReceiverApp) : MyBbrReceiverApp :=
  mkReceiver (rx_world s) (first_ s) (rx_peer s) n (rx_stop s) (rx_duration s) (rx_ref_time s)
    (rx_next s) (recv_byte_ s) (rx_offset s) (enable_loss_record_ s) (enable_rate_record_ s)
    (f_loss_ s) (f_rate_ s) (log_prefix_ s).

Definition rx_upd_rate (next : QuicTime) (bytes : Z) (f : log_file) (s : MyBbrReceiverApp) : MyBbrReceiverApp :=
  mkReceiver (rx_world s) (first_ s) (rx_peer s) (base_seq_ s) (rx_stop s) (rx_duration s)
    (rx_ref_time s) next bytes (rx_offset s) (enable_loss_record_ s) (enable_rate_record_ s)
    (f_loss_ s) f (log_prefix_ s).

Definition rx_upd_loss (f : log_file) (s : MyBbrReceiverApp) : MyBbrReceiverApp :=
  mkReceiver (rx_world s) (first_ s) (rx_peer s) (base_seq_ s) (rx_stop s) (rx_duration s)
    (rx_ref_time s) (rx_next s) (recv_byte_ s) (rx_offset s) (enable_loss_record_ s)
    (enable_rate_record_ s) f (f_rate_ s) (log_prefix_ s).

Definition rx_upd_enabled (loss rate : bool) (s : MyBbrReceiverApp) : MyBbrReceiverApp :=
  mkReceiver (rx_world s) (first_ s) (rx_peer s) (base_seq_ s) (rx_stop s) (rx_duration s)
    (rx_ref_time s) (rx_next s) (recv_byte_ s) (rx_offset s) loss rate
    (f_loss_ s) (f_rate_ s) (log_prefix_ s).

Definition rx_upd_ref (t : QuicTime) (s : MyBbrReceiverApp) : MyBbrReceiverApp :=
  mkReceiver (rx_world s) (first_ s) (rx_peer s) (base_seq_ s) (rx_stop s) (rx_duration s) t
    (rx_next s) (recv_byte_ s) (rx_offset s) (enable_loss_record_ s) (enable_rate_record_ s)
    (f_loss_ s) (f_rate_ s) (log_prefix_ s).

(** The first datagram: its sender is the peer, and the run's end is fixed. *)
Definition rx_connect (peer : su_addr) (stop : QuicTime) (s : MyBbrReceiverApp) : MyBbrReceiverApp :=
  mkReceiver (rx_world s) false peer (base_seq_ s) stop (rx_duration s) (rx_ref_time s)
    (rx_next s) (recv_byte_ s) (rx_offset s) (enable_loss_record_ s) (enable_rate_record_ s)
    (f_loss_ s) (f_rate_ s) (log_prefix_ s).

Definition Receiver_set_duration (ms : Z) : C unit := mmodify (fun s =>
  mkReceiver (rx_world s) (first_ s) (rx_peer s) (base_seq_ s) (rx_stop s) ms (rx_ref_time s)
    (rx_next s) (recv_byte_ s) (rx_offset s) (enable_loss_record_ s) (enable_rate_record_ s)
    (f_loss_ s) (f_rate_ s) (log_prefix_ s)).

Definition Receiver_SetTimeOffset (offset : Z) : C unit := mmodify (fun s =>
  mkReceiver (rx_world s) (first_ s) (rx_peer s) (base_seq_ s) (rx_stop s) (rx_duration s)
    (rx_ref_time s) (rx_next s) (recv_byte_ s) offset (enable_loss_record_ s) (enable_rate_record_ s)
    (f_loss_ s) (f_rate_ s) (log_prefix_ s)).

Definition SetRecordPrefix (name : string) : C unit := mmodify (fun s =>
  mkReceiver (rx_world s) (first_ s) (rx_peer s) (base_seq_ s) (rx_stop s) (rx_duration s)
    (rx_ref_time s) (rx_next s) (recv_byte_ s) (rx_offset s) (enable_loss_record_ s)
    (enable_rate_record_ s) (f_loss_ s) (f_rate_ s) name).

Definition rx_open (suffix : string) : C bool :=
  s ← mget;
  let '(granted, w) := grant_open (log_prefix_ s ++ suffix) (rx_world s) in
  mmodify (rx_upd_world w);; mret granted.

Definition Receiver_EnableRateRecord : C unit :=
  mmodify (fun s => rx_upd_enabled (enable_loss_record_ s) true s);;
  granted ← rx_open "-rate.txt";
  mmodify (fun s => rx_upd_rate (rx_next s) (recv_byte_ s) (log_open granted (f_rate_ s)) s).

Definition EnableLossRecord : C unit :=
  mmodify (fun s => rx_upd_enabled true (enable_rate_record_ s) s);;
  granted ← rx_open "-loss.txt";
  mmodify (fun s => rx_upd_loss (log_open granted (f_loss_ s)) s).

Definition rx_now : C QuicTime :=
  s ← mget;
  let '(now, w) := SysClock_Now (rx_world s) in
  mmodify (rx_upd_world w);; mret now.

Definition rx_send (buf : list Z) : C unit := mmodify (fun s =>
  rx_upd_world (SendTo (rx_peer s) buf (rx_world s)).2 s).

(** [%lld] prints the unsigned values as signed ones. *)
Definition RecordLoss (seq : Z) : C unit :=
  s ← mget;
  if enable_loss_record_ s then
    now ← rx_now;
    let delta := time_diff now (rx_ref_time s) in
    let abs := s64 (ToMilliseconds delta + rx_offset s) in
    mmodify (fun s => rx_upd_loss (log_line [abs; s64 seq] (f_loss_ s)) s)
  else mret tt.

Definition Receiver_RecordRate (now : QuicTime) : C unit :=
  s ← mget;
  if enable_rate_record_ s then
    if time_eq (rx_next s) Time_Zero then
      mmodify (rx_upd_rate (time_add now (FromMilliseconds 500)) (recv_byte_ s) (f_rate_ s))
    else if time_gt now (rx_next s) then
      let kbps := u64 (recv_byte_ s * 8) / 500 in
      let delta := time_diff now (rx_ref_time s) in
      let abs := s64 (ToMilliseconds delta + rx_offset s) in
      mmodify (rx_upd_rate (time_add now (FromMilliseconds 500)) 0 (log_line [abs; kbps] (f_rate_ s)))
    else mret tt
  else mret tt.

Definition SendAck (packet_number : Z) : C unit :=
  let seq_len := GetMinSeqLength packet_number in
  let public_flags := u8 (Z.lor (app_flags seq_len) (proto_value test_proto_ack)) in
  let writer := write_header public_flags seq_len packet_number (new_writer MaxPacketSize NETWORK_BYTE_ORDER) in
  let total_len := u32 (wlength writer) in
  rx_send (ztake total_len (filled MaxPacketSize writer)).

(** [for (i = from; i < upto; i++) RecordLoss(i)] *)
Fixpoint record_losses (n : nat) (i : Z) : C unit :=
  match n with
  | O => mret tt
  | S n => RecordLoss i;; record_losses n (i + 1)
  end.

Definition CountLosses (seq : Z) : C unit :=
  s ← mget;
  let base := u64 (base_seq_ s + 1) in
  (if base <? seq then record_losses (Z.to_nat (seq - base)) base else mret tt);;
  if base <=? seq then mmodify (rx_upd_base seq) else mret tt.

Definition OnIncomingData (data : list Z) : C unit :=
  mmodify (fun s => rx_upd_rate (rx_next s) (u64 (recv_byte_ s + zlen data)) (f_rate_ s) s);;
  let reader := new_reader data NETWORK_BYTE_ORDER in
  let '(public_flags, reader) := read_byte 0 reader in
  let seq_len := ReadSequenceNumberLength (Z.shiftr public_flags kPublicHeaderSequenceNumberShift) in
  let type := Z.land public_flags 0x0F in
  if (type =? proto_value test_proto_stream) || (type =? proto_value test_proto_padding) then
    let '(seq, _) := read_number seq_len reader in
    SendAck seq;;
    CountLosses seq
  else mret tt.

Definition Receiver_Process : C bool :=
  s ← mget;
  let '(recv, data, w) := RecvFrom 1500 (rx_world s) in
  mmodify (rx_upd_world w);;
  now ← rx_now;
  (match (if 0 <? recv then data else None) with
   | Some (remote, bytes) =>
       s ← mget;
       (if time_eq (rx_ref_time s) Time_Zero then mmodify (rx_upd_ref now) else mret tt);;
       s ← mget;
       (if first_ s then
          mmodify (rx_connect remote (time_add now (FromMilliseconds (rx_duration s))))
        else mret tt);;
       OnIncomingData bytes
   | None => mret tt
   end);;
  s ← mget;
  let ret := if first_ s then true else negb (time_gt now (rx_stop s)) in
  Receiver_RecordRate now;;
  mret ret.

End Apps.
