(* ===== verification/BbrAppProps.v ===== *)
(** * Theorems on the BBR programs

    What goes on the wire and comes back, which packets the receiver logs
    lost, and when a sender's loop is safe. *)

From S2P Require Import Prelude QuicTime Clock StdMap Bbr BbrInv BbrProps Platform FramerTypes FramerWire AppHeader BbrApps.
Open Scope Z_scope.

Section AppProps.
Context `{T : QuicTypes} `{TOk : !QuicTypesOk T} `{Q : QuicFunctions}
  `{L : BbrLib} `{K : !BandwidthKbps}
  `{R : ReaderOps} `{RV : !ReaderView} `{ROk : !ReaderOk}
  `{WO : WriterOps} `{WV : !WriterView} `{WOk : !WriterOk}.
Context {W : Type} `{TD : TimeOfDay W} `{SK : Socket W} `{F : Files W}.
Context (beyond : list Z).
Local Abbreviation sapp := (@MyBbrSenderApp L W).
Local Abbreviation rxs := (@MyBbrReceiverApp W).

(** ** The wire *)

(** A header of the given type and number, as each program writes it. *)
Definition packet (type : TestProto) (n : Z) : list Z :=
  header_bytes (flags_byte (proto_value type) n) (GetMinSeqLength n) n.

(** What a sender sends: the header, zeros to the end of its buffer, and what
    lies on the stack after the buffer. *)
Definition datagram (type : TestProto) (n : Z) : list Z :=
  packet type n ++ replicate (Z.to_nat (MaxPacketSize - zlen (packet type n))) 0 ++
  ztake (kMaxPacketSize - MaxPacketSize) beyond.

Lemma proto_values type : proto_value type ∈ [0; 1; 2].
Proof. destruct type; rewrite !elem_of_cons; auto. Qed.

Lemma packet_len type n : zlen (packet type n) = 1 + GetMinSeqLength n /\ 2 <= zlen (packet type n) <= 7.
Proof.
  pose proof (min_seq_length_range n). unfold packet. rewrite header_bytes_len by lia. lia.
Qed.

Lemma written_header type n :
  let w := write_header (flags_byte (proto_value type) n) (GetMinSeqLength n) n
    (new_writer MaxPacketSize NETWORK_BYTE_ORDER) in
  written w = packet type n /\ wlength w = zlen (packet type n).
Proof.
  pose proof (min_seq_length_range n). unfold MaxPacketSize.
  destruct (write_header_ok 1400 (flags_byte (proto_value type) n) (GetMinSeqLength n) n) as (E & _ & _);
    [lia..|]. cbn zeta. by rewrite wlength_ok, E.
Qed.

Lemma filled_header type n :
  filled MaxPacketSize (write_header (flags_byte (proto_value type) n) (GetMinSeqLength n) n
    (new_writer MaxPacketSize NETWORK_BYTE_ORDER)) =
  packet type n ++ replicate (Z.to_nat (MaxPacketSize - zlen (packet type n))) 0.
Proof. unfold filled. by destruct (written_header type n) as [-> _]. Qed.

Lemma filled_len type n :
  zlen (packet type n ++ replicate (Z.to_nat (MaxPacketSize - zlen (packet type n))) 0) = MaxPacketSize.
Proof.
  pose proof (packet_len type n). rewrite zlen_app. unfold zlen at 2. rewrite length_replicate.
  unfold MaxPacketSize in *. lia.
Qed.

(** The bytes beyond the buffer that [kMaxPacketSize] takes in. *)
Definition enough_beyond : Prop := MaxPacketSize <= kMaxPacketSize <= MaxPacketSize + zlen beyond.

Lemma load_datagram type n : enough_beyond ->
  load ((packet type n ++ replicate (Z.to_nat (MaxPacketSize - zlen (packet type n))) 0) ++ beyond)
    0 kMaxPacketSize = Some (datagram type n).
Proof.
  unfold enough_beyond. intros Hb. set (buf := packet type n ++ _).
  assert (zlen buf = MaxPacketSize) as Hl by apply filled_len.
  unfold datagram. rewrite app_assoc. fold buf.
  rewrite <- (ztake_drop (kMaxPacketSize - MaxPacketSize) beyond) at 1.
  rewrite app_assoc. apply (load_ok [] (buf ++ _) _ 0); [done|].
  rewrite zlen_app, Hl, zlen_ztake by lia. lia.
Qed.

Lemma send_packet_eq type now (s : sapp) : enough_beyond ->
  send_packet beyond type now s =
    (app_send (datagram type (app_seq s));;
     app_on_pacing (Pacing_OnPacketSent now (app_seq s) (MaxPacketSize - (1 + GetMinSeqLength (app_seq s)))))
      (app_upd_seq (u32 (app_seq s + 1)) s).
Proof.
  intros Hb. unfold send_packet. rewrite (M_bind_ok mget _ _ s s) by done. cbv beta zeta.
  fold (flags_byte (proto_value type) (app_seq s)).
  rewrite filled_header, load_datagram by done.
  pose proof (min_seq_length_range (app_seq s)).
  by rewrite (wrap_id 16) by (unfold MaxPacketSize; unfold_int; lia).
Qed.

Lemma SendAck_eq n (s : rxs) : SendAck n s = rx_send (packet test_proto_ack n) s.
Proof.
  unfold SendAck. fold (flags_byte (proto_value test_proto_ack) n).
  rewrite filled_header. destruct (written_header test_proto_ack n) as [_ ->].
  pose proof (packet_len test_proto_ack n). rewrite (wrap_id 32) by (unfold_int; lia).
  by rewrite ztake_app.
Qed.

Lemma parse_packet type n tail {X} (k : Z -> Z -> X) : in_u 48 n ->
  (let '(flags, r) := read_byte 0 (new_reader (packet type n ++ tail) NETWORK_BYTE_ORDER) in
   let seq_len := ReadSequenceNumberLength (Z.shiftr flags kPublicHeaderSequenceNumberShift) in
   let '(num, _) := read_number seq_len r in k (Z.land flags 0x0F) num) = k (proto_value type) n.
Proof.
  intros Hn. destruct (header_read (proto_value type) n tail (proto_values type) Hn)
    as (r1 & r2 & E1 & E2 & _). unfold packet. rewrite E1.
  destruct (flags_byte_read (proto_value type) n (proto_values type)) as (_ & E3 & E4).
  rewrite E4, E2. by rewrite E3.
Qed.

Lemma store_zeros (data : list Z) : zlen data <= MaxPacketSize ->
  store (replicate (Z.to_nat MaxPacketSize) 0) 0 data =
    Some (data ++ zdrop (zlen data) (replicate (Z.to_nat MaxPacketSize) 0)).
Proof.
  intros Hl. unfold store. pose proof (zlen_nonneg data).
  unfold zlen at 2. rewrite length_replicate, (proj2 (Z.leb_le (0 + _) _)) by (unfold MaxPacketSize in *; lia).
  done.
Qed.

(** The handling of a datagram once it is copied. *)
Definition handle_ack (now : QuicTime) (data : list Z) : M sapp unit :=
  let '(flags, r) := read_byte 0 (new_reader data NETWORK_BYTE_ORDER) in
  let seq_len := ReadSequenceNumberLength (Z.shiftr flags kPublicHeaderSequenceNumberShift) in
  if Z.land flags 0x0F =? 2 then
    let '(num, _) := read_number seq_len r in app_on_pacing (OnCongestionEvent now num)
  else mret tt.

Lemma ProcessAckFrame_eq now data (s : sapp) :
  ProcessAckFrame now data s =
  if zlen data <=? MaxPacketSize then handle_ack now data s else (Stuck, s).
Proof.
  unfold ProcessAckFrame. destruct (Z.leb_spec (zlen data) MaxPacketSize) as [Hl|Hl].
  - rewrite store_zeros by done. cbv zeta. by rewrite ztake_app.
  - unfold store. unfold zlen at 2. rewrite length_replicate, andb_comm.
    by rewrite (proj2 (Z.leb_gt _ _)) by (unfold MaxPacketSize in *; lia).
Qed.

Lemma ProcessAckFrame_ack now n (s : sapp) : in_u 48 n ->
  ProcessAckFrame now (packet test_proto_ack n) s = app_on_pacing (OnCongestionEvent now n) s.
Proof.
  intros Hn. rewrite ProcessAckFrame_eq. pose proof (packet_len test_proto_ack n).
  rewrite (proj2 (Z.leb_le _ _)) by (unfold MaxPacketSize; lia). unfold handle_ack.
  pose proof (parse_packet test_proto_ack n []
    (fun type num => if type =? 2 then app_on_pacing (OnCongestionEvent now num) s else (Ok tt, s)) Hn) as E.
  rewrite app_nil_r in E. change (proto_value test_proto_ack =? 2) with true in E. cbn [andb] in E.
  rewrite <- E. destruct (read_byte _ _) as [flags r]. destruct (read_number _ r) as [num r'].
  by destruct (Z.land flags 15 =? 2).
Qed.

(** The bytes counted before anything else. *)
Definition count_bytes (n : Z) (s : rxs) : rxs :=
  rx_upd_rate (rx_next s) (u64 (recv_byte_ s + n)) (f_rate_ s) s.

Lemma OnIncomingData_packet type n tail (s : rxs) :
  type <> test_proto_ack -> in_u 48 n ->
  OnIncomingData (packet type n ++ tail) s =
    (rx_send (packet test_proto_ack n);; CountLosses n) (count_bytes (zlen (packet type n ++ tail)) s).
Proof.
  intros Ht Hn. unfold OnIncomingData. set (data := packet type n ++ tail).
  rewrite (M_bind_ok _ _ _ tt (count_bytes (zlen data) s)) by done.
  set (s1 := count_bytes (zlen data) s).
  pose proof (parse_packet type n tail
    (fun type num => (if (type =? 0) || (type =? 1)
      then (SendAck num;; CountLosses num) s1 else (Ok tt, s1))) Hn) as E.
  assert ((proto_value type =? 0) || (proto_value type =? 1) = true) as Ep by (by destruct type).
  cbv beta zeta in E. rewrite Ep in E. fold data in E.
  change (proto_value test_proto_stream) with 0. change (proto_value test_proto_padding) with 1.
  transitivity ((SendAck n;; CountLosses n) s1); [rewrite <- E|unfold mbind, M_bind; by rewrite SendAck_eq].
  destruct (read_byte _ _) as [flags r]. destruct (read_number _ r) as [num r'].
  by destruct (_ || _).
Qed.

(** C9: The loop of the BBR programs closes.  A sender's packet [n] goes out as
    one datagram - its header, zeros, and the bytes that lie behind the 1400-byte
    buffer, up to [kMaxPacketSize] - after which the controller is told of [n];
    the receiver answers that datagram with one acknowledgement before it counts
    losses up to [n]; and that acknowledgement makes a sender tell its controller
    exactly that [n] arrived. *)
Theorem bbr_ack_loop type now (s : sapp) : enough_beyond -> in_u 32 (app_seq s) ->
  type <> test_proto_ack ->
  let n := app_seq s in
  let d := datagram type n in
  let ack := packet test_proto_ack n in
  send_packet beyond type now s =
    (app_send d;;
     app_on_pacing (Pacing_OnPacketSent now n (MaxPacketSize - (1 + GetMinSeqLength n))))
      (app_upd_seq (u32 (n + 1)) s) /\
  zlen d = kMaxPacketSize /\
  (forall r : rxs, OnIncomingData d r = (rx_send ack;; CountLosses n) (count_bytes kMaxPacketSize r)) /\
  (forall now' (s' : sapp), ProcessAckFrame now' ack s' = app_on_pacing (OnCongestionEvent now' n) s').
Proof.
  intros Hb Hn Ht n d ack.
  assert (in_u 48 n) as Hn'.
  { unfold in_u in *. change (2 ^ 48) with 281474976710656. change (2 ^ 32) with 4294967296 in Hn. lia. }
  assert (zlen d = kMaxPacketSize) as Hd.
  { pose proof (filled_len type n) as E. unfold d, datagram. rewrite app_assoc, zlen_app, E.
    unfold enough_beyond in Hb. rewrite zlen_ztake by lia. lia. }
  split; [by apply send_packet_eq|]. split; [done|]. split.
  - intros r. rewrite <- Hd. unfold d, datagram at 1. by apply OnIncomingData_packet.
  - intros. by apply ProcessAckFrame_ack.
Qed.

(** ** The losses reported *)

(** The log of losses is being written. *)
Definition logging (s : rxs) : Prop :=
  enable_loss_record_ s = true /\ is_open (f_loss_ s) = true /\ failbit (f_loss_ s) = false.

(** The numbers in it: the second column. *)
Definition reported (s : rxs) : list Z := (fun line => nth 1 line 0) <$> lines (f_loss_ s).

(** [s'] is [s] with [l] appended to the log, whatever the clock said. *)
Definition logs_more (l : list Z) (s s' : rxs) : Prop :=
  logging s' /\ base_seq_ s' = base_seq_ s /\ reported s' = reported s ++ l.

Lemma s64_small n : in_u 48 n -> s64 n = n.
Proof.
  intros Hn. apply swrap_id; [lia|]. unfold in_u in Hn. unfold in_s. simpl (64 - 1).
  change (2 ^ 63) with 9223372036854775808. change (2 ^ 48) with 281474976710656 in Hn. lia.
Qed.

Lemma RecordLoss_ok i (s : rxs) : in_u 48 i -> logging s ->
  exists s', RecordLoss i s = (Ok tt, s') /\ logs_more [i] s s'.
Proof.
  intros Hi (H1 & H2 & H3). unfold RecordLoss, rx_now.
  rewrite (M_bind_ok mget _ _ s s) by done. cbv beta. rewrite H1.
  unfold mbind, M_bind, mget, mmodify, mret, M_ret. destruct (SysClock_Now (rx_world s)) as [now w].
  eexists. split; [reflexivity|]. unfold logs_more, logging, reported, log_line. cbn. rewrite H2, H3. cbn.
  rewrite fmap_app. cbn. by rewrite s64_small.
Qed.

Lemma record_losses_ok n : forall i (s : rxs), logging s -> 0 <= i -> i + Z.of_nat n <= 2 ^ 48 ->
  exists s', record_losses n i s = (Ok tt, s') /\ logs_more (seqZ i (Z.of_nat n)) s s'.
Proof.
  induction n as [|n IH]; intros i s Hl Hi Hn.
  - exists s. split; [done|]. split; [done|]. split; [done|]. by rewrite app_nil_r.
  - cbn [record_losses]. destruct (RecordLoss_ok i s) as (s1 & E1 & Hl1 & Hb1 & Hr1).
    { unfold in_u. lia. }
    { done. }
    rewrite (M_bind_ok _ _ _ _ _ E1).
    destruct (IH (i + 1) s1 Hl1) as (s2 & E2 & Hl2 & Hb2 & Hr2); [lia|lia|].
    exists s2. split; [done|]. split; [done|]. split; [congruence|].
    rewrite Hr2, Hr1, <- app_assoc, (seqZ_cons i (Z.of_nat (S n))) by lia.
    cbn [app]. do 3 f_equal; lia.
Qed.

Lemma CountLosses_ok n (s : rxs) : in_u 48 n -> in_u 48 (base_seq_ s) -> logging s ->
  exists s', CountLosses n s = (Ok tt, s') /\ logging s' /\
    base_seq_ s' = Z.max (base_seq_ s) n /\
    reported s' = reported s ++ seqZ (base_seq_ s + 1) (n - base_seq_ s - 1).
Proof.
  intros Hn Hb Hl. unfold CountLosses. rewrite (M_bind_ok mget _ _ s s) by done. cbv beta zeta.
  set (b := base_seq_ s) in *. unfold in_u in Hn, Hb. change (2 ^ 48) with 281474976710656 in Hn, Hb.
  rewrite (wrap_id 64) by (unfold_int; lia).
  destruct (Z.ltb_spec (b + 1) n) as [Hlt|Hge].
  - destruct (record_losses_ok (Z.to_nat (n - (b + 1))) (b + 1) s Hl) as (s1 & E & Hl1 & Hb1 & Hr1);
      [lia|change (2 ^ 48) with 281474976710656; lia|].
    rewrite (M_bind_ok _ _ _ _ _ E), (proj2 (Z.leb_le _ _)) by lia.
    eexists. split; [reflexivity|]. split; [done|]. split; [cbn; lia|].
    change (reported s1 = reported s ++ seqZ (b + 1) (n - b - 1)). rewrite Hr1. do 2 f_equal. lia.
  - rewrite (M_bind_ok _ _ _ tt s) by done.
    rewrite (seqZ_nil (b + 1)) by lia. rewrite app_nil_r.
    destruct (Z.leb_spec (b + 1) n); (eexists; split; [reflexivity|]); (split; [done|]);
      (split; [cbn; fold b; lia|done]).
Qed.

(** A datagram with a packet of number [n], whatever follows the header. *)
Definition carries (d : list Z) (n : Z) : Prop :=
  in_u 48 n /\ exists type tail, type <> test_proto_ack /\ d = packet type n ++ tail.

Fixpoint receive_all (ds : list (list Z)) : M rxs unit :=
  match ds with
  | [] => mret tt
  | d :: ds => OnIncomingData d;; receive_all ds
  end.

(** The numbers that exceed all the ones before them, and [b]. *)
Fixpoint records (b : Z) (ns : list Z) : list Z :=
  match ns with
  | [] => []
  | n :: ns => if b <? n then n :: records n ns else records b ns
  end.

Definition highest (b : Z) (ns : list Z) : Z := foldl Z.max b ns.

Lemma highest_ge ns : forall b, b <= highest b ns.
Proof. induction ns as [|n ns IH]; intros b; cbn; [lia|]. specialize (IH (Z.max b n)). unfold highest in IH. lia. Qed.

Lemma records_gt ns : forall b x, x ∈ records b ns -> b < x.
Proof.
  induction ns as [|n ns IH]; intros b x; cbn; [by intros ?%not_elem_of_nil|].
  destruct (Z.ltb_spec b n); [|apply IH]. intros [->|Hx]%elem_of_cons; [done|]. apply IH in Hx. lia.
Qed.

Lemma filter_all {A} (P : A -> Prop) `{!forall x, Decision (P x)} (l : list A) :
  Forall P l -> filter P l = l.
Proof.
  induction 1 as [|x l Hx _ IH]; [done|]. by rewrite filter_cons_True, IH.
Qed.

Lemma filter_agree {A} (P P' : A -> Prop) `{!forall x, Decision (P x), !forall x, Decision (P' x)}
    (l : list A) : (forall x, x ∈ l -> P x <-> P' x) -> filter P l = filter P' l.
Proof.
  induction l as [|x l IH]; intros Hag; [done|]. pose proof (Hag x ltac:(constructor)) as Hx.
  rewrite !filter_cons, IH by (intros y Hy; apply Hag; by constructor).
  destruct (decide (P x)), (decide (P' x)); tauto.
Qed.

(** The numbers up to the highest that set no record: those missing so far when
    a higher one came. *)
Definition skipped (b : Z) (ns : list Z) : list Z :=
  filter (fun k => k ∉ records b ns) (seqZ (b + 1) (highest b ns - b)).

Lemma skipped_cons b n ns :
  skipped b (n :: ns) =
  if b <? n then seqZ (b + 1) (n - b - 1) ++ skipped n ns else skipped b ns.
Proof.
  unfold skipped. cbn [records highest foldl]. fold (highest (Z.max b n) ns).
  destruct (Z.ltb_spec b n) as [Hlt|Hge].
  2:{ by rewrite Z.max_l by lia. }
  rewrite Z.max_r by lia. pose proof (highest_ge ns n) as Hh. set (h := highest n ns) in *.
  replace (h - b) with ((n - b - 1) + (1 + (h - n))) by lia.
  rewrite (seqZ_app (b + 1) (n - b - 1)), (seqZ_app _ 1) by lia.
  replace (b + 1 + (n - b - 1)) with n by lia.
  rewrite !filter_app. f_equal.
  - apply filter_all, Forall_forall. intros k Hk%elem_of_seqZ.
    rewrite not_elem_of_cons. split; [lia|]. intros Hr%records_gt. lia.
  - rewrite (seqZ_cons n 1), (seqZ_nil (Z.succ n)) by lia.
    rewrite filter_cons_False by (intros Hn; apply Hn; constructor). cbn [filter list_filter app].
    apply filter_agree. intros k Hk%elem_of_seqZ. rewrite not_elem_of_cons. split; [tauto|].
    intros ?. split; [lia|done].
Qed.

Lemma receive_all_ok ds ns : Forall2 carries ds ns -> forall s : rxs, logging s -> in_u 48 (base_seq_ s) ->
  exists s', receive_all ds s = (Ok tt, s') /\ logging s' /\ base_seq_ s' = highest (base_seq_ s) ns /\
    reported s' = reported s ++ skipped (base_seq_ s) ns.
Proof.
  induction 1 as [|d n ds ns (Hn & type & tail & Ht & ->) _ IH]; intros s Hl Hb.
  { exists s. split; [done|]. split; [done|]. split; [done|]. unfold skipped. cbn.
    rewrite Z.sub_diag, seqZ_nil by lia. by rewrite app_nil_r. }
  cbn [receive_all]. set (d := packet type n ++ tail).
  set (s1 := count_bytes (zlen d) s).
  set (s2 := rx_upd_world (SendTo (rx_peer s1) (packet test_proto_ack n) (rx_world s1)).2 s1).
  destruct (CountLosses_ok n s2) as (s3 & E3 & Hl3 & Hb3 & Hr3); [done|done|done|].
  assert (OnIncomingData d s = (Ok tt, s3)) as E.
  { unfold d. rewrite OnIncomingData_packet by done. fold d. fold s1.
    by rewrite (M_bind_ok _ _ s1 tt s2). }
  rewrite (M_bind_ok _ _ _ _ _ E). change (base_seq_ s2) with (base_seq_ s) in *.
  change (reported s2) with (reported s) in Hr3.
  destruct (IH s3 Hl3) as (s4 & E4 & Hl4 & Hb4 & Hr4).
  { rewrite Hb3. unfold in_u in *. lia. }
  exists s4. split; [done|]. split; [done|]. split; [by rewrite Hb4, Hb3|].
  rewrite Hr4, Hr3, Hb3, <- app_assoc, skipped_cons. f_equal.
  destruct (Z.ltb_spec (base_seq_ s) n) as [Hlt|Hge]; [by rewrite Z.max_r by lia|].
  rewrite seqZ_nil, Z.max_l by lia. done.
Qed.

(** C35: The receiver's log of losses: after any sequence of packets, the numbers
    logged are, in increasing order and once each, those up to the highest
    packet seen that were not themselves, on arrival, higher than everything
    before - so a packet that is only late stays in the log as lost. *)
Theorem receiver_losses ds ns (s : rxs) :
  Forall2 carries ds ns -> logging s -> base_seq_ s = 0 -> reported s = [] ->
  exists s', receive_all ds s = (Ok tt, s') /\ base_seq_ s' = highest 0 ns /\
    reported s' = filter (fun k => k ∉ records 0 ns) (seqZ 1 (highest 0 ns)).
Proof.
  intros Hd Hl Hb Hr. destruct (receive_all_ok ds ns Hd s Hl) as (s' & E & _ & Hb' & Hr').
  { rewrite Hb. split; lia. }
  exists s'. rewrite Hb in *. rewrite Hr in Hr'. unfold skipped in Hr'. rewrite Z.sub_0_r in Hr'.
  split; [done|]. by split.
Qed.

(** ** The sender's loop *)

Definition app_ok (N rounds : Z) (s : sapp) : Prop :=
  exists c, sender_ (app_pacing s) = Some c /\ sender_ok N rounds c /\ app_seq s = N.

(** Nothing but the world, the times and the log has changed. *)
Definition same (s s' : sapp) : Prop := app_seq s' = app_seq s /\ app_pacing s' = app_pacing s.

Lemma app_ok_same N rounds s s' : same s s' -> app_ok N rounds s -> app_ok N rounds s'.
Proof. intros [H1 H2]. unfold app_ok. by rewrite H1, H2. Qed.

Lemma sender_ok_more N k k' (c : MyBbrSender) : k <= k' -> sender_ok N k c -> sender_ok N k' c.
Proof. intros Hk [? Hr ?]. split; [done|lia|done]. Qed.

Lemma app_ok_more N k k' s : k <= k' -> app_ok N k s -> app_ok N k' s.
Proof. intros Hk (c & E & Hc & Hn). exists c. split; [done|]. split; [by eapply sender_ok_more|done]. Qed.

Lemma app_now_ok (s : sapp) : exists s', app_now s = (Ok (SysClock_Now (app_world s)).1, s') /\ same s s'.
Proof.
  unfold app_now, mbind, M_bind, mget, mmodify, mret, M_ret.
  destruct (SysClock_Now (app_world s)) as [now w]. by eexists.
Qed.

Lemma app_recv_ok n (s : sapp) :
  let '(r, d, w) := RecvFrom n (app_world s) in
  exists s', app_recv n s = (Ok (if 0 <? r then snd <$> d else None), s') /\ same s s'.
Proof.
  unfold app_recv, mbind, M_bind, mget, mmodify, mret, M_ret.
  destruct (RecvFrom n (app_world s)) as [[r d] w]. by eexists.
Qed.

Lemma paced_ok N k now bytes p c : sender_ p = Some c -> sender_ok N k c ->
  0 <= k -> k + 1 < 2 ^ 64 -> 0 <= N ->
  exists p' c', Pacing_OnPacketSent now N bytes p = (Ok tt, p') /\ sender_ p' = Some c' /\
    sender_ok (N + 1) (k + 1) c' /\ last_ack_seq_ c' = last_ack_seq_ c.
Proof.
  intros Ep Hc Hk Hk' HN. destruct (OnPacketSent_ok N k now bytes c) as (c' & E & Hc' & El); [done..|].
  unfold Pacing_OnPacketSent. rewrite (M_bind_ok mget _ _ p p) by done. cbv beta. rewrite Ep.
  unfold on_sender, mbind, M_bind, mmodify, mget, mret, M_ret. rewrite Ep, E. cbn.
  eexists _, c'. split; [reflexivity|]. by split.
Qed.

Lemma congestion_ok N k now n p c : sender_ p = Some c -> sender_ok N k c ->
  0 <= k -> k + 2 < 2 ^ 64 -> N <= 2 ^ 32 -> now <> Time_Zero ->
  exists p' c', OnCongestionEvent now n p = (Ok tt, p') /\ sender_ p' = Some c' /\
    sender_ok N (k + 2) c' /\ last_ack_seq_ c' = Z.max (last_ack_seq_ c) n.
Proof.
  intros Ep Hc Hk Hk' HN Hnow. unfold OnCongestionEvent.
  rewrite (M_bind_ok mget _ _ p p) by done. cbv beta. rewrite Ep. unfold on_sender. rewrite Ep.
  destruct (decide (last_ack_seq_ c < n)) as [Hn|Hn].
  - destruct (OnAck_ok N k now n c) as (c' & -> & Hc' & El & _); [done..|].
    eexists _, c'. split; [reflexivity|]. split; [done|]. split; [done|lia].
  - exists (mkPacing (ideal_next_packet_send_time_ p) (alarm_granularity_ p) (Some c)), c.
    unfold OnAck. rewrite (M_bind_ok mget _ _ c c) by done. cbv beta.
    rewrite (proj2 (Z.leb_le _ _)) by lia. split; [done|]. split; [done|].
    split; [apply (sender_ok_more _ k); [lia|done]|lia].
Qed.

Lemma on_cc_ok {X} (f : MyBbrSender -> X) (s : sapp) c : sender_ (app_pacing s) = Some c ->
  exists s', app_on_cc f s = (Ok (f c), s') /\ app_seq s' = app_seq s /\ sender_ (app_pacing s') = Some c.
Proof.
  intros Ec. unfold app_on_cc, app_on_pacing, on_sender. rewrite Ec.
  unfold mbind, M_bind, mget, mret, M_ret. by eexists.
Qed.

Lemma record_rate_ok est now N k (s : sapp) : app_ok N k s ->
  exists s', record_rate est now s = (Ok tt, s') /\ app_ok N k s'.
Proof.
  intros Hs. unfold record_rate. rewrite (M_bind_ok mget _ _ s s) by done. cbv beta.
  destruct (time_eq _ _); [eexists; split; [reflexivity|]; by apply (app_ok_same _ _ s)|].
  destruct (time_gt _ _); [|by exists s]. cbv zeta.
  pose proof Hs as (c & Ec & Hc & Hn). destruct (on_cc_ok est s c Ec) as (s1 & E1 & Hs1 & Ec1).
  rewrite (M_bind_ok _ _ _ _ _ E1). eexists. split; [reflexivity|].
  exists c. split; [done|]. split; [done|]. cbn. congruence.
Qed.

Lemma handle_ack_ok N k now data (s : sapp) : app_ok N k s ->
  0 <= k -> k + 2 < 2 ^ 64 -> N <= 2 ^ 32 -> now <> Time_Zero ->
  exists s', handle_ack now data s = (Ok tt, s') /\ app_ok N (k + 2) s'.
Proof.
  intros Hs Hk Hk' HN Hnow. unfold handle_ack. destruct (read_byte _ _) as [flags r]. cbv zeta.
  destruct (_ =? 2); [|exists s; split; [done|]; apply (app_ok_more _ k); [lia|done]].
  destruct (read_number _ r) as [num r']. destruct Hs as (c & Ec & Hc & Hn).
  destruct (congestion_ok N k now num _ c Ec Hc) as (p & c' & E & Ec' & Hc' & _); [done..|].
  unfold app_on_pacing. rewrite E. eexists. split; [reflexivity|]. by exists c'.
Qed.

Lemma send_packet_ok type now N k (s : sapp) : enough_beyond -> app_ok N k s ->
  0 <= k -> k + 1 < 2 ^ 64 -> 0 <= N -> N + 1 < 2 ^ 32 ->
  exists s', send_packet beyond type now s = (Ok tt, s') /\ app_ok (N + 1) (k + 1) s'.
Proof.
  intros Hb (c & Ec & Hc & Hn) Hk Hk' HN HN'. rewrite send_packet_eq by done. rewrite Hn.
  rewrite (wrap_id 32) by (unfold in_u; lia).
  set (s1 := app_upd_seq (N + 1) s).
  destruct (paced_ok N k now (MaxPacketSize - (1 + GetMinSeqLength N)) (app_pacing s1) c)
    as (p & c' & E & Ec' & Hc' & _); [done..|].
  rewrite (M_bind_ok _ _ s1 tt (app_upd_world (SendTo (app_peer s1) (datagram type N) (app_world s1)).2 s1))
    by done.
  unfold app_on_pacing. cbn [app_pacing app_upd_world]. fold (app_pacing s1). rewrite E.
  eexists. split; [reflexivity|]. by exists c'.
Qed.

(** The network brings no datagram longer than the buffer it is copied to. *)
Definition short_datagrams : Prop :=
  forall n w a bs, (RecvFrom n w).1.2 = Some (a, bs) -> zlen bs <= MaxPacketSize.

Fixpoint run_app (n : nat) : M sapp unit :=
  match n with
  | O => mret tt
  | S n => Process beyond;; run_app n
  end.

(** What the loop takes for granted: the clock does not read zero, the buffer
    over-read finds memory, and datagrams are short. *)
Section Loop.
Hypothesis clock_runs : forall w, (SysClock_Now w).1 <> Time_Zero.
Hypothesis beyond_ok : enough_beyond.
Hypothesis short : short_datagrams.

Lemma start_process_ok N k (s : sapp) : app_ok N k s ->
  exists now s', start_process s = (Ok now, s') /\ app_ok N k s' /\ now <> Time_Zero.
Proof.
  intros Hs. unfold start_process. destruct (app_now_ok s) as (s1 & E1 & H1).
  rewrite (M_bind_ok _ _ _ _ _ E1), (M_bind_ok mget _ _ s1 s1) by done. cbv beta.
  pose proof (clock_runs (app_world s)) as Hnow. set (now := (SysClock_Now (app_world s)).1) in *.
  apply (app_ok_same N k) in H1; [|done].
  destruct (time_eq _ _); eexists now, _; (split; [reflexivity|]); (split; [|done]); [|done].
  by apply (app_ok_same _ _ s1).
Qed.

Lemma receive_and_finish_ok est now N k (s : sapp) : app_ok N k s ->
  0 <= k -> k + 2 < 2 ^ 64 -> N <= 2 ^ 32 -> now <> Time_Zero ->
  exists b s', receive_and_finish est now s = (Ok b, s') /\ app_ok N (k + 2) s'.
Proof.
  intros Hs Hk Hk' HN Hnow. unfold receive_and_finish.
  pose proof (app_recv_ok 1500 s) as Hr. pose proof (short 1500 (app_world s)) as Hshort.
  destruct (RecvFrom 1500 (app_world s)) as [[r d] w]. destruct Hr as (s1 & E1 & H1).
  rewrite (M_bind_ok _ _ _ _ _ E1). apply (app_ok_same N k) in H1; [|done].
  assert (exists s2, match (if 0 <? r then snd <$> d else None) with
      | Some data => ProcessAckFrame now data | None => mret tt end s1 = (Ok tt, s2) /\
    app_ok N (k + 2) s2) as (s2 & E2 & H2).
  { assert (app_ok N (k + 2) s1) by (apply (app_ok_more _ k); [lia|done]).
    destruct (0 <? r); [|by exists s1]. destruct d as [[a bs]|]; [|by exists s1].
    cbn [fmap option_fmap option_map snd]. rewrite ProcessAckFrame_eq.
    rewrite (proj2 (Z.leb_le _ _)) by (by eapply Hshort).
    by apply handle_ack_ok. }
  rewrite (M_bind_ok _ _ _ _ _ E2), (M_bind_ok mget _ _ s2 s2) by done. cbv beta zeta.
  destruct (record_rate_ok est now N (k + 2) s2 H2) as (s3 & E3 & H3).
  rewrite (M_bind_ok _ _ _ _ _ E3). eexists _, s3. by split.
Qed.

Lemma Process_ok N k (s : sapp) : app_ok N k s ->
  0 <= k -> k + 3 < 2 ^ 64 -> 0 <= N -> N + 1 < 2 ^ 32 ->
  exists b s' N', Process beyond s = (Ok b, s') /\ app_ok N' (k + 3) s' /\ N <= N' <= N + 1.
Proof.
  intros Hs Hk Hk' HN HN'. unfold Process.
  destruct (start_process_ok N k s Hs) as (now & s1 & E1 & H1 & Hnow).
  rewrite (M_bind_ok _ _ _ _ _ E1), (M_bind_ok mget _ _ s1 s1) by done. cbv beta.
  assert (exists s2 N', (if delta_eq (TimeUntilSend now (app_pacing s1)) Delta_Zero
      then SendFakePacket beyond now else mret tt) s1 = (Ok tt, s2) /\
    app_ok N' (k + 1) s2 /\ N <= N' <= N + 1) as (s2 & N' & E2 & H2 & Hr).
  { destruct (delta_eq _ _).
    - destruct (send_packet_ok test_proto_stream now N k s1) as (s2 & E2 & H2); [done|done|lia..|].
      exists s2, (N + 1). split; [done|]. split; [done|lia].
    - exists s1, N. split; [done|]. split; [apply (app_ok_more _ k); [lia|done]|lia]. }
  rewrite (M_bind_ok _ _ _ _ _ E2).
  destruct (receive_and_finish_ok GetReferenceRate now N' (k + 1) s2) as (b & s3 & E3 & H3); [done|lia..|done|].
  exists b, s3, N'. split; [done|]. split; [|done]. by replace (k + 3) with (k + 1 + 2) by lia.
Qed.

Lemma run_app_ok n : forall N k (s : sapp), app_ok N k s -> 0 <= k -> 0 <= N ->
  k + 3 * Z.of_nat n < 2 ^ 64 -> N + Z.of_nat n < 2 ^ 32 ->
  exists s' N' k', run_app n s = (Ok tt, s') /\ app_ok N' k' s'.
Proof.
  induction n as [|n IH]; intros N k s Hs Hk HN Hkn HNn; [by exists s, N, k|].
  cbn [run_app]. destruct (Process_ok N k s Hs) as (b & s1 & N1 & E1 & H1 & Hr); [lia..|].
  rewrite (M_bind_ok _ _ _ _ _ E1). apply (IH N1 (k + 3)); [done|lia..].
Qed.

End Loop.

(** A sender's loop is safe exactly as far as its buffer reaches.  While no
    datagram exceeds 1400 bytes, any number of iterations (up to [2^31]) from the
    start completes, whatever the peer sends: the controller's clusters stay
    consistent.  A datagram of 1401 bytes or more, which [Process] accepts up to
    1500, is copied over the end of a 1400-byte array on the stack. *)
Theorem bbr_app_loop n w peer min_bps start_bps max_bps random :
  (forall w, (SysClock_Now w).1 <> Time_Zero) -> enough_beyond -> Z.of_nat n < 2 ^ 31 ->
  (short_datagrams -> exists s N k,
     run_app n (new_app w peer min_bps start_bps max_bps random) = (Ok tt, s) /\ app_ok N k s) /\
  (forall est now (s s' : sapp) data, app_recv 1500 s = (Ok (Some data), s') ->
     MaxPacketSize < zlen data -> receive_and_finish est now s = (Stuck, s')).
Proof.
  intros Hc Hb Hn. split.
  - intros Hs. apply (run_app_ok Hc Hb Hs n 1 0); [|lia..].
    eexists. split; [reflexivity|]. split; [apply new_sender_ok|done].
  - intros est now s s' data E Hl. unfold receive_and_finish. rewrite (M_bind_ok _ _ _ _ _ E).
    unfold mbind, M_bind. rewrite ProcessAckFrame_eq. by rewrite (proj2 (Z.leb_gt _ _)).
Qed.

(** ** The video sender *)

Local Abbreviation vapp := (@MyBbrVideoSenderApp L W).

(** A computation that takes nothing from the queue. *)
Definition grows {X} (m : M vapp X) : Prop :=
  forall s, pending_queue_ s `prefix_of` pending_queue_ (m s).2.

Lemma grows_bind {X Y} (m : M vapp X) (f : X -> M vapp Y) :
  grows m -> (forall x, grows (f x)) -> grows (m ≫= f).
Proof.
  intros Hm Hf s. unfold mbind, M_bind. specialize (Hm s).
  destruct (m s) as [[x| |] s1]; [|done..]. etrans; [exact Hm|apply Hf].
Qed.

Lemma grows_on_app {X} (m : M sapp X) : grows (on_app m).
Proof. intros s. unfold on_app. by destruct (m (va_app s)). Qed.

Lemma grows_here {X} (m : M vapp X) : (forall s, (m s).2 = s) -> grows m.
Proof. intros Hm s. by rewrite Hm. Qed.

Lemma grows_SendDataOrPadding now : grows (SendDataOrPadding beyond now).
Proof.
  unfold SendDataOrPadding. apply grows_bind; [by apply grows_here|]. intros s.
  destruct (pending_queue_ s); [|apply grows_on_app].
  apply grows_bind; [apply grows_on_app|]. intros [|]; [apply grows_on_app|by apply grows_here].
Qed.

Lemma grows_PollSource now : grows (PollSource now : M vapp unit).
Proof.
  intros s. unfold PollSource. rewrite (M_bind_ok mget _ _ s s) by done. cbv beta.
  destruct (GetFrame now (source_ s)) as [len g].
  rewrite (M_bind_ok _ _ _ tt (mkVideoApp (va_app s) g (pending_queue_ s))) by done.
  destruct (0 <? len); [|done]. destruct (split_frame len) as [v| |]; [|done..].
  cbn. by apply prefix_app_r.
Qed.

Lemma grows_Process : grows (Video_Process beyond).
Proof.
  unfold Video_Process. apply grows_bind; [apply grows_on_app|]. intros now.
  apply grows_bind; [apply grows_PollSource|]. intros _.
  apply grows_bind; [by apply grows_here|]. intros s.
  apply grows_bind; [|intros _; apply grows_on_app].
  destruct (delta_eq _ _); [apply grows_SendDataOrPadding|by apply grows_here].
Qed.

Fixpoint run_video (n : nat) : M vapp unit :=
  match n with
  | O => mret tt
  | S n => Video_Process beyond;; run_video n
  end.

(** The video sender's queue never drains: however often its loop runs, the
    sizes once queued stay at the head of the queue, [SendFakePacket] taking
    none.  From the first frame on the sender therefore behaves as if it always
    had data - it sends a full-size packet whenever the pacer allows and never
    again asks the controller whether to pad. *)
Theorem video_queue_never_drains n (s : vapp) :
  let s' := (run_video n s).2 in
  pending_queue_ s `prefix_of` pending_queue_ s' /\
  (pending_queue_ s <> [] -> forall now, SendDataOrPadding beyond now s' = Video_SendFakePacket beyond now s').
Proof.
  intros s'. assert (pending_queue_ s `prefix_of` pending_queue_ s') as Hp.
  { subst s'. revert s. induction n as [|n IH]; [done|]. cbn [run_video].
    apply grows_bind; [apply grows_Process|]. intros _. exact IH. }
  split; [done|]. intros Hne now. unfold SendDataOrPadding.
  rewrite (M_bind_ok mget _ _ s' s') by done. cbv beta.
  destruct Hp as [k ->]. by destruct (pending_queue_ s).
Qed.

End AppProps.
