(* ===== verification/BbrAppDemo.v ===== *)
(** * The BBR programs run on a concrete world

    Time starts at one second and advances by 300 us per reading of the clock, the socket takes its
    datagrams from a list and appends what is sent to another, files always
    open. *)

From S2P Require Import Prelude QuicTime Clock StdMap Bbr BbrInv BbrProps BbrDemo Platform FramerTypes FramerWire FramerCodec FramerConcrete AppHeader BbrApps BbrAppProps.
Open Scope Z_scope.

Record net_world := mkNet { clock_us : Z; inbox : list (list Z); outbox : list (list Z) }.

#[export] Instance net_clock : TimeOfDay net_world := fun w =>
  ((1 + (clock_us w / 1000000) mod 2 ^ 30, clock_us w mod 1000000),
   mkNet (clock_us w + 300) (inbox w) (outbox w)).

Definition here : su_addr := mkAddr AF_INET (htons 5432) 0.

#[export] Instance net_socket : Socket net_world := {|
  RecvFrom n w :=
    match inbox w with
    | [] => (-1, None, w)
    | d :: ds =>
        let d := ztake n d in
        (zlen d, Some (here, d), mkNet (clock_us w) ds (outbox w))
    end;
  SendTo _ buf w := (zlen buf, mkNet (clock_us w) (inbox w) (outbox w ++ [buf]))
|}.

#[export] Instance net_files : Files net_world := fun _ w => (true, w).

#[export] Instance demo_kbps : BandwidthKbps := fun bps => bps / 1000.

Definition demo_beyond : list Z := replicate 52 204.

Definition demo_app (seq : Z) : MyBbrSenderApp :=
  app_upd_seq seq (new_app (mkNet 1000000 [] []) here 500000 1000000 2000000 1).

Lemma demo_beyond_ok : enough_beyond demo_beyond.
Proof. vm_compute. by split. Qed.

Lemma bbr_ack_loop_witness :
  let n := 300 in
  let d := datagram demo_beyond test_proto_stream n in
  let ack := packet test_proto_ack n in
  send_packet demo_beyond test_proto_stream (mkTime 5000) (demo_app 300) =
    (app_send d;;
     app_on_pacing (Pacing_OnPacketSent (mkTime 5000) n (MaxPacketSize - (1 + GetMinSeqLength n))))
      (app_upd_seq (u32 (n + 1)) (demo_app 300)) /\
  zlen d = kMaxPacketSize /\
  (forall r : @MyBbrReceiverApp net_world,
     OnIncomingData d r = (rx_send ack;; CountLosses n) (count_bytes kMaxPacketSize r)) /\
  (forall now' (s' : @MyBbrSenderApp demo_lib net_world),
     ProcessAckFrame now' ack s' = app_on_pacing (OnCongestionEvent now' n) s').
Proof.
  refine (bbr_ack_loop demo_beyond test_proto_stream (mkTime 5000) (demo_app 300) demo_beyond_ok _ _).
  - split; vm_compute; congruence.
  - discriminate.
Defined.

(** Packets 1, 4 and 2 arrive: 2 and 3 are reported, 2 although it came. *)
Definition demo_rx : MyBbrReceiverApp :=
  (EnableLossRecord (new_receiver (mkNet 1000000 [] []) here)).2.

Lemma receiver_losses_witness :
  exists s', receive_all [packet test_proto_stream 1; packet test_proto_padding 4 ++ [7];
      packet test_proto_stream 2] demo_rx = (Ok tt, s') /\
    base_seq_ s' = 4 /\ reported s' = [2; 3].
Proof.
  refine (receiver_losses [packet test_proto_stream 1; packet test_proto_padding 4 ++ [7];
    packet test_proto_stream 2] [1; 4; 2] demo_rx _ _ _ _).
  - repeat constructor; try (vm_compute; congruence).
    + exists test_proto_stream, []. by rewrite app_nil_r.
    + exists test_proto_padding, [7]. done.
    + exists test_proto_stream, []. by rewrite app_nil_r.
  - vm_compute. done.
  - reflexivity.
  - reflexivity.
Defined.

Lemma net_clock_range (w : net_world) : 0 < time_ (SysClock_Now w).1 < 2 ^ 62.
Proof.
  unfold SysClock_Now, iclock64, gettimeofday, net_clock. cbn [fst].
  pose proof (Z.mod_pos_bound (clock_us w / 1000000) (2 ^ 30) ltac:(lia)) as Hs.
  pose proof (Z.mod_pos_bound (clock_us w) 1000000 ltac:(lia)) as Hu.
  set (s := (clock_us w / 1000000) mod 2 ^ 30) in *. set (u := clock_us w mod 1000000) in *.
  change (2 ^ 30) with 1073741824 in Hs. rewrite Z.quot_div_nonneg by lia.
  assert (0 <= u / 1000 < 1000) by (split; [apply Z.div_pos|apply Z.div_lt_upper_bound]; lia).
  assert (forall z, 0 <= z < 9223372036854775808 -> s64 z = z) as Hid
    by (intros z Hz; apply swrap_id; [lia|]; unfold in_s; change (2 ^ (64 - 1)) with 9223372036854775808; lia).
  set (q := u / 1000) in *. change (2 ^ 62) with 4611686018427387904.
  unfold time_add, FromMilliseconds, Time_Zero. cbn [time_ time_offset_].
  rewrite (Hid ((1 + s) * 1000 + q)), (Hid (_ * 1000)), Hid by lia. lia.
Qed.

Lemma clock_runs (w : net_world) : (SysClock_Now w).1 <> Time_Zero.
Proof. intros E. pose proof (net_clock_range w) as Hr. rewrite E in Hr. cbn in Hr. lia. Qed.

(** A network whose datagrams fit the senders' buffer. *)
Definition short_socket : Socket net_world := {|
  RecvFrom n w := RecvFrom (Z.min n MaxPacketSize) w;
  SendTo peer buf w := SendTo peer buf w
|}.

Lemma short_socket_short : short_datagrams (SK := short_socket).
Proof.
  intros n w a bs. cbn. destruct (inbox w) as [|d ds]; [done|]. cbn. intros [= _ <-].
  unfold zlen, ztake. rewrite length_take. unfold MaxPacketSize. lia.
Qed.

(** An acknowledgement padded to 1401 bytes. *)
Definition long_ack : list Z := packet test_proto_ack 1 ++ replicate 1399 0.

Definition attacked : MyBbrSenderApp :=
  new_app (mkNet 1000000 [long_ack] []) here 500000 1000000 2000000 1.

Lemma bbr_app_loop_witness :
  (exists s N k, run_app (SK := short_socket) demo_beyond 5 (new_app (mkNet 0 [] []) here 500000 1000000 2000000 1)
     = (Ok tt, s) /\ app_ok N k s) /\
  receive_and_finish GetReferenceRate (mkTime 1000) attacked = (Stuck, (app_recv 1500 attacked).2).
Proof.
  split.
  - refine (proj1 (bbr_app_loop (SK := short_socket) demo_beyond 5 (mkNet 0 [] []) here 500000 1000000 2000000 1
      clock_runs demo_beyond_ok _) short_socket_short). reflexivity.
  - refine (proj2 (bbr_app_loop demo_beyond 5 (mkNet 0 [] []) here 500000 1000000 2000000 1
      clock_runs demo_beyond_ok _) GetReferenceRate (mkTime 1000) attacked _ long_ack _ _).
    + reflexivity.
    + assert (match app_recv 1500 attacked with (Ok (Some d), _) => d = long_ack | _ => False end) as E
        by (vm_compute; reflexivity).
      destruct (app_recv 1500 attacked) as [[[d|]| |] s]; [by subst|done..].
    + by vm_compute.
Defined.
