(* ===== verification/Network.v ===== *)
(** * Endpoints of a network

    What the clock, the sockets and the file system promise a program at one end
    of a network that loses, repeats, delays and reorders datagrams but makes
    none up: the interface the theorems on whole systems are proved against. *)

From S2P Require Import Prelude QuicTime Clock Platform AppHeader.
Open Scope Z_scope.

(** What the network has brought to the socket and not taken back, and what was
    handed to it to send. *)
Class Endpoint (W : Type) `{TD : TimeOfDay W} `{SK : Socket W} `{F : Files W} := {
  arrived : W -> list (list Z);
  sent : W -> list (list Z);
  clock_quiet w : sent (SysClock_Now w).2 = sent w /\ arrived (SysClock_Now w).2 ⊆ arrived w;
  files_quiet name w : sent (grant_open name w).2 = sent w /\ arrived (grant_open name w).2 ⊆ arrived w;
  recv_quiet n w : sent (RecvFrom n w).2 = sent w /\ arrived (RecvFrom n w).2 ⊆ arrived w;
  send_sends a buf w : sent (SendTo a buf w).2 ⊆ buf :: sent w /\ arrived (SendTo a buf w).2 ⊆ arrived w;
  recv_arrived n w a d : (RecvFrom n w).1.2 = Some (a, d) -> exists d0, d0 ∈ arrived w /\ d = ztake n d0;
  clock_nonzero w : (SysClock_Now w).1 <> Time_Zero
}.

(** Nothing sent, nothing that was not there before. *)
Definition untouched {W} `{Endpoint W} (w w' : W) : Prop := sent w' = sent w /\ arrived w' ⊆ arrived w.

#[export] Instance untouched_preorder {W} `{Endpoint W} : PreOrder untouched.
Proof. split; [by split|]. intros w w1 w2 [E1 H1] [E2 H2]. split; [congruence|by etrans]. Qed.

(** The network between two worlds: the other side's world, [w'] for [w], may
    have lost datagrams and got others, in any order and number, of those [v]
    sent. *)
Definition brings {W} `{Endpoint W} (v w w' : W) : Prop := sent w' = sent w /\ arrived w' ⊆ arrived w ++ sent v.

Lemma Forall_subseteq {A} (P : A -> Prop) (l k : list A) : k ⊆ l -> Forall P l -> Forall P k.
Proof. rewrite !Forall_forall. auto. Qed.

Lemma brings_all (P : list Z -> Prop) {W} `{Endpoint W} (v w w' : W) : brings v w w' -> Forall P (sent v) -> Forall P (arrived w) -> Forall P (arrived w').
Proof. intros [_ Hb] Hv Hw. eapply Forall_subseteq; [exact Hb|]. by apply Forall_app. Qed.

Lemma fmap_subseteq {A B} (f : A -> B) (l k : list A) : l ⊆ k -> f <$> l ⊆ f <$> k.
Proof. intros H y (x & -> & Hx)%list_elem_of_fmap. apply list_elem_of_fmap. eauto. Qed.

Lemma ztake_all n (l : list Z) : zlen l <= n -> ztake n l = l.
Proof. intros H. unfold ztake. apply take_ge. unfold zlen in H. lia. Qed.

(** ** A world that remembers

    Any world with a record of what its program has taken off the socket and
    handed to it, oldest first.  Programs take the world as a parameter, so they
    run on it unchanged. *)

Record traced (W : Type) := mkTraced { inner : W; taken : list (list Z); handed : list (list Z) }.
Arguments mkTraced {W}.
Arguments inner {W}.
Arguments taken {W}.
Arguments handed {W}.

(** What a call of [RecvFrom] brought: the programs look at the datagram only
    when the result is positive. *)
Definition took (r : Z) (d : option (su_addr * list Z)) : list (list Z) :=
  match d with
  | Some (_, bytes) => if 0 <? r then [bytes] else []
  | None => []
  end.

Section Traced.
Context {W : Type} `{EP : Endpoint W}.

Definition at_inner (w' : W) (w : traced W) : traced W := mkTraced w' (taken w) (handed w).

#[export] Instance traced_clock : TimeOfDay (traced W) := fun w =>
  let '(t, w') := gettimeofday (inner w) in (t, at_inner w' w).

#[export] Instance traced_files : Files (traced W) := fun name w =>
  let '(granted, w') := grant_open name (inner w) in (granted, at_inner w' w).

#[export] Instance traced_socket : Socket (traced W) := {|
  RecvFrom n w :=
    let '(r, d, w') := RecvFrom n (inner w) in (r, d, mkTraced w' (taken w ++ took r d) (handed w));
  SendTo a buf w :=
    let '(r, w') := SendTo a buf (inner w) in (r, mkTraced w' (taken w) (handed w ++ [buf]))
|}.

(** Neither taken nor handed anything, and nothing new to take. *)
Definition calm (w w' : traced W) : Prop :=
  taken w' = taken w /\ handed w' = handed w /\ arrived (inner w') ⊆ arrived (inner w).

#[export] Instance calm_preorder : PreOrder calm.
Proof.
  split; [intros w; by split_and!|]. intros w w1 w2 (E1 & E2 & E3) (F1 & F2 & F3).
  split; [congruence|]. split; [congruence|by etrans].
Qed.

Lemma clock_calm (w : traced W) : calm w (SysClock_Now w).2.
Proof.
  pose proof (clock_quiet (inner w)) as [_ H]. unfold SysClock_Now, iclock64 in *.
  unfold gettimeofday at 1, traced_clock. destruct (gettimeofday (inner w)) as [[s u] w']. by split_and!.
Qed.

Lemma clock_traced (w : traced W) : (SysClock_Now w).1 <> Time_Zero.
Proof.
  pose proof (clock_nonzero (inner w)) as H. unfold SysClock_Now, iclock64 in *.
  unfold gettimeofday at 1, traced_clock. by destruct (gettimeofday (inner w)) as [[s u] w'].
Qed.

Lemma files_calm name (w : traced W) : calm w (grant_open name w).2.
Proof.
  pose proof (files_quiet name (inner w)) as [_ H]. unfold grant_open at 1, traced_files.
  destruct (grant_open name (inner w)) as [g w']. by split_and!.
Qed.

Lemma send_traced a buf (w : traced W) : let w' := (SendTo a buf w).2 in
  taken w' = taken w /\ handed w' = handed w ++ [buf] /\ arrived (inner w') ⊆ arrived (inner w).
Proof. pose proof (send_sends a buf (inner w)) as [_ H]. cbn. by destruct (SendTo a buf (inner w)) as [r w']. Qed.

(** A datagram taken is one that had arrived, cut to the size asked for. *)
Lemma recv_traced n (w : traced W) : let '(r, d, w') := RecvFrom n w in
  taken w' = taken w ++ took r d /\ handed w' = handed w /\ arrived (inner w') ⊆ arrived (inner w) /\
  forall a bytes, d = Some (a, bytes) -> exists d0, d0 ∈ arrived (inner w) /\ bytes = ztake n d0.
Proof.
  pose proof (recv_quiet n (inner w)) as [_ H]. pose proof (recv_arrived n (inner w)) as Hd. cbn.
  destruct (RecvFrom n (inner w)) as [[r d] w']. split_and!; [done..|]. intros a bytes ->. by apply (Hd a).
Qed.

(** What the network may do between the worlds [v] and [w], of which [w] becomes
    [w']: lose, repeat, delay and reorder what [v] was handed. *)
Definition delivers (v w w' : traced W) : Prop :=
  taken w' = taken w /\ handed w' = handed w /\ arrived (inner w') ⊆ arrived (inner w) ++ handed v.

End Traced.
