(* ===== verification/BbrSystem.v ===== *)
(** * A sender and a receiver with a network between them

    The BBR sender and receiver, each in its own world, and a network that
    loses, repeats, delays and reorders datagrams but makes none up.  What the
    system calls promise each side is the class [Endpoint] of [Network], and its
    [traced] worlds remember the datagrams each side took and sent; a step of the
    system is a round of one of the loops, a call that sets a program up, or
    anything the network does.  The invariants hold in every reachable state. *)

From S2P Require Import Prelude QuicTime Clock StdMap Bbr BbrInv BbrProps Platform FramerTypes FramerWire AppHeader BbrApps BbrAppProps Network.
Open Scope Z_scope.

Create HintDb quiet.

Section System.
Context `{T : QuicTypes} `{TOk : !QuicTypesOk T} `{Q : QuicFunctions}
  `{L : BbrLib} `{K : !BandwidthKbps}
  `{R : ReaderOps} `{RV : !ReaderView} `{ROk : !ReaderOk}
  `{WO : WriterOps} `{WV : !WriterView} `{WOk : !WriterOk}.
Context {W : Type} `{EP : Endpoint W}.
Local Abbreviation world := (traced W).
Context (beyond : list Z) (beyond_ok : enough_beyond beyond).
Local Abbreviation sapp := (@MyBbrSenderApp L world).
Local Abbreviation rxs := (@MyBbrReceiverApp world).

Record system := mkSystem { tx : sapp; rx : rxs }.

(** The calls of [main] before the loop. *)
Inductive tx_setup : M sapp unit -> Prop :=
  | tx_duration ms : tx_setup (set_duration ms)
  | tx_offset o : tx_setup (SetTimeOffset o)
  | tx_record name : tx_setup (EnableRateRecord name).

Inductive rx_setup : M rxs unit -> Prop :=
  | rx_set_duration ms : rx_setup (Receiver_set_duration ms)
  | rx_set_offset o : rx_setup (Receiver_SetTimeOffset o)
  | rx_prefix name : rx_setup (SetRecordPrefix name)
  | rx_record_rate : rx_setup Receiver_EnableRateRecord
  | rx_record_loss : rx_setup EnableLossRecord.

(** Steps; [bool]: a round of the sender's loop. *)
Inductive system_step : bool -> system -> system -> Prop :=
  | step_sender s r b s' : Process beyond s = (Ok b, s') -> system_step true (mkSystem s r) (mkSystem s' r)
  | step_receiver s r b r' : Receiver_Process r = (Ok b, r') -> system_step false (mkSystem s r) (mkSystem s r')
  | step_tx_setup s r m s' : tx_setup m -> m s = (Ok tt, s') -> system_step false (mkSystem s r) (mkSystem s' r)
  | step_rx_setup s r m r' : rx_setup m -> m r = (Ok tt, r') -> system_step false (mkSystem s r) (mkSystem s r')
  | step_data s r w : delivers (app_world s) (rx_world r) w -> system_step false (mkSystem s r) (mkSystem s (rx_upd_world w r))
  | step_acks s r w : delivers (rx_world r) (app_world s) w -> system_step false (mkSystem s r) (mkSystem (app_upd_world w s) r).

Inductive reaches : nat -> system -> Prop :=
  | reaches_start w v peer peer' min_bps start_bps max_bps random :
      arrived w = [] -> arrived v = [] ->
      reaches 0 (mkSystem (new_app (mkTraced w [] []) peer min_bps start_bps max_bps random)
        (new_receiver (mkTraced v [] []) peer'))
  | reaches_step n round c c' : reaches n c -> system_step round c c' -> reaches (if round : bool then S n else n) c'.

(** ** The sender's side *)

Definition acked (s : sapp) : Z := match sender_ (app_pacing s) with Some c => last_ack_seq_ c | None => 0 end.

Definition quiet (s s' : sapp) : Prop :=
  acked s' = acked s /\ app_seq s' = app_seq s /\ calm (app_world s) (app_world s').

#[local] Instance quiet_preorder : PreOrder quiet.
Proof.
  split; [by intros s|]. intros s s1 s2 (E1 & E2 & E3) (F1 & F2 & F3).
  split; [congruence|]. split; [congruence|by etrans].
Qed.

Definition quietly {X} (m : M sapp X) : Prop := forall s, quiet s (m s).2.

Lemma quietly_bind {X Y} (m : M sapp X) (f : X -> M sapp Y) : quietly m -> (forall x, quietly (f x)) -> quietly (m ≫= f).
Proof.
  intros Hm Hf s. unfold mbind, M_bind. specialize (Hm s).
  destruct (m s) as [[x| |] s1]; [|done..]. etrans; [exact Hm|apply Hf].
Qed.

Lemma quietly_here {X} (m : M sapp X) : (forall s, (m s).2 = s) -> quietly m.
Proof. intros Hm s. by rewrite Hm. Qed.

Lemma quietly_ret {X} (x : X) : quietly (mret x).
Proof. by apply quietly_here. Qed.

Lemma quietly_get : quietly mget.
Proof. by apply quietly_here. Qed.

Lemma quietly_modify f : (forall s, app_pacing (f s) = app_pacing s) -> (forall s, app_seq (f s) = app_seq s) ->
  (forall s, app_world (f s) = app_world s) -> quietly (mmodify f).
Proof. intros H1 H2 H3 s. split; [cbn; unfold acked; by rewrite H1|]. split; [apply H2|]. cbn. by rewrite H3. Qed.

Lemma quietly_now : quietly app_now.
Proof.
  intros s. unfold app_now, mbind, M_bind, mget, mmodify, mret, M_ret.
  pose proof (clock_calm (app_world s)). destruct (SysClock_Now (app_world s)). by split.
Qed.

Lemma quietly_on_cc {X} (f : MyBbrSender -> X) : quietly (app_on_cc f).
Proof.
  intros s. unfold app_on_cc, app_on_pacing, on_sender, quiet, acked.
  destruct (sender_ (app_pacing s)) as [c|] eqn:Ec; cbn; by rewrite ?Ec.
Qed.

#[local] Hint Resolve quietly_ret quietly_get quietly_now quietly_on_cc : quiet.

Ltac quieted := repeat first
  [ solve [auto with quiet]
  | apply quietly_bind; [|intros]
  | apply quietly_modify; intros; reflexivity
  | match goal with |- quietly (match ?x with _ => _ end) => destruct x end ].

Lemma quietly_record_rate est now : quietly (record_rate est now).
Proof. unfold record_rate. cbv zeta. quieted. Qed.

Lemma quietly_start : quietly start_process.
Proof. unfold start_process. quieted. Qed.

Lemma quietly_setup m : tx_setup m -> quietly m.
Proof.
  destruct 1; [unfold set_duration; quieted|unfold SetTimeOffset; quieted|].
  intros s. unfold EnableRateRecord, mbind, M_bind, mget, mmodify, mret, M_ret.
  pose proof (files_calm (name +:+ "-rate.txt") (app_world s)). destruct (grant_open _ _). by split.
Qed.

(** ** A round of the sender *)

(** The packet of number [n] as the sender hands it to the network. *)
Definition sent_packet (n : Z) : list Z := datagram beyond test_proto_stream n.

Definition ack_of (n : Z) : list Z := packet test_proto_ack n.

Lemma highest_snoc ns n : highest 0 (ns ++ [n]) = Z.max (highest 0 ns) n.
Proof. unfold highest. by rewrite foldl_app. Qed.

Lemma highest_range N ns : 1 <= N -> ns ⊆ seqZ 1 (N - 1) -> 0 <= highest 0 ns < N.
Proof.
  intros HN H. split; [apply highest_ge|]. induction ns as [|n ns IH] using rev_ind; [cbn; lia|].
  rewrite highest_snoc. assert (n ∈ seqZ 1 (N - 1)) as Hn%elem_of_seqZ by (apply H, elem_of_app; right; by left).
  specialize (IH (fun x Hx => H x (proj2 (elem_of_app _ _ _) (or_introl Hx)))). lia.
Qed.

Lemma numbers_snoc N : 1 <= N -> seqZ 1 (N + 1 - 1) = seqZ 1 (N - 1) ++ [N].
Proof.
  intros HN. replace (N + 1 - 1) with ((N - 1) + 1) by lia. rewrite seqZ_app by lia.
  by replace (1 + (N - 1)) with N by lia.
Qed.

Lemma numbers_more N N' : N <= N' -> seqZ 1 (N - 1) ⊆ seqZ 1 (N' - 1).
Proof. intros HN x. rewrite !elem_of_seqZ. lia. Qed.

(** A sender of the packets below [N] that heard the acknowledgements of [ks],
    to which acknowledgements of packets in [ns] are under way. *)
Record tx_inv (N : Z) (ns ks : list Z) (k : Z) (s : sapp) : Prop := {
  tx_app : app_ok N k s;
  tx_acked : acked s = highest 0 ks;
  tx_only : ks ⊆ ns;
  tx_taken : taken (app_world s) = ack_of <$> ks;
  tx_handed : handed (app_world s) = sent_packet <$> seqZ 1 (N - 1);
  tx_arrived : arrived (inner (app_world s)) ⊆ ack_of <$> ns
}.

Lemma tx_quiet N ns ks k k' s s' : quiet s s' -> app_ok N k' s' -> tx_inv N ns ks k s -> tx_inv N ns ks k' s'.
Proof.
  intros (E1 & E2 & E3 & E4 & E5) Ha [H1 H2 H3 H4 H5 H6]. split; [done|congruence|done|congruence|congruence|by etrans].
Qed.

Lemma send_round now N ns ks k (s : sapp) : tx_inv N ns ks k s ->
  0 <= k -> k + 1 < 2 ^ 64 -> 1 <= N -> N + 1 < 2 ^ 32 ->
  exists s', SendFakePacket beyond now s = (Ok tt, s') /\ tx_inv (N + 1) ns ks (k + 1) s'.
Proof.
  intros [Ha Hack Ho Ht Hh Hr] Hk Hk' HN HN'. pose proof Ha as (c & Ec & Hc & Hn). unfold SendFakePacket.
  destruct (send_packet_ok beyond test_proto_stream now N k s) as (s' & E & Ha'); [done|done|lia..|].
  exists s'. split; [done|]. rewrite send_packet_eq, Hn in E by done.
  set (s1 := app_upd_seq _ s) in E. fold (sent_packet N) in E.
  set (s2 := app_upd_world (SendTo (app_peer s1) (sent_packet N) (app_world s1)).2 s1).
  rewrite (M_bind_ok _ _ s1 tt s2) in E by done.
  destruct (paced_ok N k now (MaxPacketSize - (1 + GetMinSeqLength N)) (app_pacing s2) c)
    as (p & c' & Ep & Ec' & _ & El); [done|done|lia..|].
  unfold app_on_pacing in E. rewrite Ep in E. injection E as <-.
  pose proof (send_traced (app_peer s1) (sent_packet N) (app_world s1)) as (S1 & S2 & S3).
  unfold acked in Hack. rewrite Ec in Hack. split; [done| |done| | |].
  - unfold acked. cbn [app_pacing app_upd_pacing]. by rewrite Ec', El.
  - cbn [app_world app_upd_pacing]. subst s2. cbn [app_world app_upd_world]. rewrite S1. exact Ht.
  - cbn [app_world app_upd_pacing]. subst s2. cbn [app_world app_upd_world]. rewrite S2, numbers_snoc by done.
    rewrite fmap_app. cbn. f_equal. exact Hh.
  - by etrans.
Qed.

(** Hearing an acknowledgement just taken: [s] is the sender before it was. *)
Lemma hear_ack now N ns ks k n (s s1 : sapp) : tx_inv N ns ks k s -> 0 <= k -> k + 2 < 2 ^ 64 -> N <= 2 ^ 32 ->
  now <> Time_Zero -> in_u 48 n -> n ∈ ns -> same s s1 ->
  taken (app_world s1) = taken (app_world s) ++ [ack_of n] -> handed (app_world s1) = handed (app_world s) ->
  arrived (inner (app_world s1)) ⊆ arrived (inner (app_world s)) ->
  exists s2, ProcessAckFrame now (ack_of n) s1 = (Ok tt, s2) /\ tx_inv N ns (ks ++ [n]) (k + 2) s2.
Proof.
  intros [Ha Hack Ho Ht Hh Hr] Hk Hk' HN Hnow Hn Hin H1 W1 W2 W3. unfold ack_of at 1.
  rewrite ProcessAckFrame_ack by done. assert (app_ok N k s1) as (c & Ec & Hc & Hseq) by (by eapply app_ok_same).
  destruct (congestion_ok N k now n (app_pacing s1) c) as (p & c' & E & Ec' & Hc' & El); [done..|].
  unfold app_on_pacing. rewrite E. eexists. split; [reflexivity|]. destruct H1 as [_ Hp].
  unfold acked in Hack. rewrite <- Hp, Ec in Hack. split; cbn [app_world app_upd_pacing].
  - by exists c'.
  - unfold acked. cbn [app_pacing app_upd_pacing]. by rewrite Ec', El, highest_snoc, Hack.
  - intros x [Hx|Hx%list_elem_of_singleton]%elem_of_app; [by apply Ho|by subst].
  - rewrite W1, Ht. by rewrite fmap_app.
  - by rewrite W2.
  - by etrans.
Qed.

Lemma ack_cut n : ztake 1500 (ack_of n) = ack_of n.
Proof. unfold ack_of. pose proof (packet_len test_proto_ack n). apply ztake_all. lia. Qed.

Lemma receive_round est now N ns ks k (s : sapp) : tx_inv N ns ks k s -> Forall (in_u 48) ns ->
  0 <= k -> k + 2 < 2 ^ 64 -> N <= 2 ^ 32 -> now <> Time_Zero ->
  exists b s' ks', receive_and_finish est now s = (Ok b, s') /\ tx_inv N ns ks' (k + 2) s'.
Proof.
  intros Hi Hns Hk Hk' HN Hnow. unfold receive_and_finish.
  pose proof (recv_traced 1500 (app_world s)) as Hd.
  destruct (RecvFrom 1500 (app_world s)) as [[r d] w] eqn:Er. destruct Hd as (W1 & W2 & W3 & Hd).
  set (s1 := app_upd_world w s).
  assert (app_recv 1500 s = (Ok (if 0 <? r then snd <$> d else None), s1)) as E1.
  { unfold app_recv, mbind, M_bind, mget, mmodify, mret, M_ret. by rewrite Er. }
  rewrite (M_bind_ok _ _ _ _ _ E1).
  assert (exists s2 ks', match (if 0 <? r then snd <$> d else None) with
      | Some data => ProcessAckFrame now data | None => mret tt end s1 = (Ok tt, s2) /\
    tx_inv N ns ks' (k + 2) s2) as (s2 & ks' & E2 & Hi2).
  { assert (took r d = [] -> tx_inv N ns ks (k + 2) s1) as Hnone.
    { intros Hz. rewrite Hz, app_nil_r in W1. eapply (tx_quiet N ns ks k); [|apply (app_ok_more _ k); [lia|]|exact Hi].
      - by split_and!.
      - apply Hi. }
    unfold took in *. destruct d as [[a bs]|]; [|exists s1, ks; split; [by destruct (0 <? r)|by apply Hnone]].
    destruct (0 <? r); [|exists s1, ks; split; [done|by apply Hnone]]. cbn [fmap option_fmap option_map snd].
    destruct (Hd a bs eq_refl) as (d0 & Hd0 & ->). apply (tx_arrived _ _ _ _ _ Hi) in Hd0.
    apply list_elem_of_fmap in Hd0 as (n & -> & Hn). rewrite ack_cut in *. rewrite Forall_forall in Hns.
    destruct (hear_ack now N ns ks k n s s1) as (s2 & E2 & H2); [by auto..|].
    by exists s2, (ks ++ [n]). }
  rewrite (M_bind_ok _ _ _ _ _ E2), (M_bind_ok mget _ _ s2 s2) by done. cbv beta zeta.
  destruct (record_rate_ok est now N (k + 2) s2) as (s3 & E3 & H3); [apply Hi2|].
  pose proof (quietly_record_rate est now s2) as Hq3. rewrite E3 in Hq3.
  rewrite (M_bind_ok _ _ _ _ _ E3). eexists _, s3, ks'. split; [reflexivity|]. by eapply tx_quiet.
Qed.

Lemma sender_round N ns ks k (s : sapp) : tx_inv N ns ks k s -> Forall (in_u 48) ns ->
  0 <= k -> k + 3 < 2 ^ 64 -> 1 <= N -> N + 1 < 2 ^ 32 ->
  exists b s' N' ks', Process beyond s = (Ok b, s') /\ tx_inv N' ns ks' (k + 3) s' /\ N <= N' <= N + 1.
Proof.
  intros Hi Hns Hk Hk' HN HN'. unfold Process.
  destruct (start_process_ok clock_traced N k s) as (now & s1 & E1 & H1 & Hnow); [apply Hi|].
  pose proof (quietly_start s) as Hq. rewrite E1 in Hq. pose proof (tx_quiet _ _ _ _ k _ _ Hq H1 Hi) as Hi1.
  rewrite (M_bind_ok _ _ _ _ _ E1), (M_bind_ok mget _ _ s1 s1) by done. cbv beta.
  assert (exists s2 N', (if delta_eq (TimeUntilSend now (app_pacing s1)) Delta_Zero
      then SendFakePacket beyond now else mret tt) s1 = (Ok tt, s2) /\
    tx_inv N' ns ks (k + 1) s2 /\ N <= N' <= N + 1) as (s2 & N' & E2 & H2 & Hr).
  { destruct (delta_eq _ _).
    - destruct (send_round now N ns ks k s1) as (s2 & E2 & H2); [done|lia..|].
      exists s2, (N + 1). split; [done|]. split; [done|lia].
    - exists s1, N. split; [done|]. split; [|lia]. eapply (tx_quiet _ _ _ _ _ s1); [reflexivity| |done].
      apply (app_ok_more _ k); [lia|apply Hi1]. }
  rewrite (M_bind_ok _ _ _ _ _ E2).
  destruct (receive_round GetReferenceRate now N' ns ks (k + 1) s2) as (b & s3 & ks' & E3 & H3); [done|done|lia..|done|].
  exists b, s3, N', ks'. split; [done|]. split; [|done]. by replace (k + 3) with (k + 1 + 2) by lia.
Qed.

(** ** The receiver's side *)

Definition rx_quiet (r r' : rxs) : Prop := base_seq_ r' = base_seq_ r /\ calm (rx_world r) (rx_world r').

#[local] Instance rx_quiet_preorder : PreOrder rx_quiet.
Proof. split; [by intros r|]. intros r r1 r2 [E1 E2] [F1 F2]. split; [congruence|by etrans]. Qed.

(** It returns, and is quiet. *)
Local Abbreviation settles := (always rx_quiet).

Lemma settles_now : settles rx_now.
Proof.
  intros r. unfold rx_now, mbind, M_bind, mget, mmodify, mret, M_ret.
  pose proof (clock_calm (rx_world r)). destruct (SysClock_Now (rx_world r)) as [t w]. by exists t, (rx_upd_world w r).
Qed.

Lemma settles_open suffix : settles (rx_open suffix).
Proof.
  intros r. unfold rx_open, mbind, M_bind, mget, mmodify, mret, M_ret.
  pose proof (files_calm (log_prefix_ r +:+ suffix) (rx_world r)).
  destruct (grant_open _ _) as [g w]. by exists g, (rx_upd_world w r).
Qed.

#[local] Hint Resolve settles_now settles_open : completes.

Lemma settles_loss i : settles (RecordLoss i).
Proof. unfold RecordLoss. cbv zeta. always_steps. Qed.

#[local] Hint Resolve settles_loss : completes.

Lemma settles_losses n : forall i, settles (record_losses n i).
Proof. induction n as [|n IH]; intros i; cbn [record_losses]; always_steps. Qed.

Lemma settles_rate now : settles (Receiver_RecordRate now).
Proof. unfold Receiver_RecordRate. cbv zeta. always_steps. Qed.

Lemma settles_setup m : rx_setup m -> settles m.
Proof.
  destruct 1; unfold Receiver_set_duration, Receiver_SetTimeOffset, SetRecordPrefix, Receiver_EnableRateRecord,
    EnableLossRecord; always_steps.
Qed.

Lemma count_round n (r : rxs) : in_u 48 n -> in_u 48 (base_seq_ r) ->
  exists r', CountLosses n r = (Ok tt, r') /\ base_seq_ r' = Z.max (base_seq_ r) n /\ calm (rx_world r) (rx_world r').
Proof.
  intros Hn Hb. unfold CountLosses. rewrite (M_bind_ok mget _ _ r r) by done. cbv beta zeta.
  unfold in_u in Hn, Hb. change (2 ^ 48) with 281474976710656 in Hn, Hb.
  rewrite (wrap_id 64) by (unfold_int; lia).
  assert (settles (if base_seq_ r + 1 <? n then record_losses (Z.to_nat (n - (base_seq_ r + 1))) (base_seq_ r + 1)
    else mret tt)) as Hs by (destruct (_ <? _); [apply settles_losses|apply always_ret, _]).
  destruct (Hs r) as ([] & r1 & E & Hb1 & Hw). rewrite (M_bind_ok _ _ _ _ _ E).
  destruct (Z.leb_spec (base_seq_ r + 1) n); (eexists; split; [reflexivity|]); cbn; (split; [lia|done]).
Qed.

(** A receiver of the packets of [ns], to which packets below [N] are under way. *)
Record rx_inv (N : Z) (ns : list Z) (r : rxs) : Prop := {
  rx_base : base_seq_ r = highest 0 ns;
  rx_only : ns ⊆ seqZ 1 (N - 1);
  rx_taken : Forall2 carries (taken (rx_world r)) ns;
  rx_handed : handed (rx_world r) = ack_of <$> ns;
  rx_arrived : arrived (inner (rx_world r)) ⊆ sent_packet <$> seqZ 1 (N - 1)
}.

Lemma rx_quiet_inv N ns r r' : rx_quiet r r' -> rx_inv N ns r -> rx_inv N ns r'.
Proof.
  intros (E1 & E2 & E3 & E4) [H1 H2 H3 H4 H5]. split; [congruence|done|by rewrite E2|congruence|by etrans].
Qed.

(** A packet sent, cut to the receiver's buffer, carries its number. *)
Lemma sent_carries N n : N <= 2 ^ 32 -> n ∈ seqZ 1 (N - 1) -> carries (ztake 1500 (sent_packet n)) n.
Proof.
  intros HN Hn%elem_of_seqZ. change (2 ^ 32) with 4294967296 in HN.
  split; [unfold in_u; change (2 ^ 48) with 281474976710656; lia|].
  pose proof (packet_len test_proto_stream n) as Hl. unfold sent_packet, datagram. set (tail := replicate _ 0 ++ _).
  exists test_proto_stream, (ztake (1500 - zlen (packet test_proto_stream n)) tail). split; [done|].
  unfold ztake, zlen in *. rewrite take_app, take_ge by lia. do 2 f_equal. lia.
Qed.

(** Answering the packet just taken: [r0] is the receiver before it was. *)
Lemma answer_round N ns n d (r0 r : rxs) : 1 <= N <= 2 ^ 32 -> n ∈ seqZ 1 (N - 1) -> carries d n -> rx_inv N ns r0 ->
  base_seq_ r = base_seq_ r0 -> taken (rx_world r) = taken (rx_world r0) ++ [d] ->
  handed (rx_world r) = handed (rx_world r0) -> arrived (inner (rx_world r)) ⊆ arrived (inner (rx_world r0)) ->
  exists r', OnIncomingData d r = (Ok tt, r') /\ rx_inv N (ns ++ [n]) r'.
Proof.
  intros HN Hin Hd [H1 H2 H3 H4 H5] W0 W1 W2 W3. pose proof Hd as (Hn & type & tail & Ht & Ed).
  pose proof (highest_range N ns ltac:(lia) H2) as Hb. change (2 ^ 32) with 4294967296 in HN.
  subst d. rewrite OnIncomingData_packet by done. set (r1 := count_bytes _ r).
  set (r2 := rx_upd_world (SendTo (rx_peer r1) (packet test_proto_ack n) (rx_world r1)).2 r1).
  rewrite (M_bind_ok _ _ r1 tt r2) by done.
  destruct (count_round n r2) as (r3 & E & Hb3 & S1 & S2 & S3);
    [done|unfold in_u; change (2 ^ 48) with 281474976710656; cbn; lia|].
  pose proof (send_traced (rx_peer r1) (packet test_proto_ack n) (rx_world r1)) as (T1 & T2 & T3).
  cbv zeta in T1, T2, T3. change (SendTo _ _ _).2 with (rx_world r2) in T1, T2, T3.
  change (base_seq_ r2) with (base_seq_ r) in Hb3. change (rx_world r1) with (rx_world r) in T1, T2, T3.
  exists r3. split; [done|]. split.
  - rewrite Hb3, W0, H1. by rewrite highest_snoc.
  - intros x [Hx|Hx%list_elem_of_singleton]%elem_of_app; [by apply H2|by subst].
  - rewrite S1, T1, W1. apply Forall2_app; [done|by constructor].
  - rewrite S2, T2, W2, H4. by rewrite fmap_app.
  - etrans; [exact S3|]. etrans; [exact T3|]. by etrans.
Qed.

(** What a round does with a datagram, up to processing it. *)
Lemma rx_ready_ok now remote bytes (r : rxs) : exists r',
  (s ← mget;
   (if time_eq (rx_ref_time s) Time_Zero then mmodify (rx_upd_ref now) else mret tt);;
   s ← mget;
   (if first_ s then mmodify (rx_connect remote (time_add now (FromMilliseconds (rx_duration s)))) else mret tt);;
   OnIncomingData bytes) r = OnIncomingData bytes r' /\ rx_quiet r r'.
Proof.
  rewrite (M_bind_ok mget _ _ r r) by done. cbv beta.
  assert (settles (if time_eq (rx_ref_time r) Time_Zero then mmodify (rx_upd_ref now) else mret tt)) as Hs1 by always_steps.
  destruct (Hs1 r) as ([] & r2 & E2 & Q2). rewrite (M_bind_ok _ _ _ _ _ E2), (M_bind_ok mget _ _ r2 r2) by done. cbv beta.
  assert (settles (if first_ r2 then mmodify (rx_connect remote (time_add now (FromMilliseconds (rx_duration r2))))
    else mret tt)) as Hs2 by always_steps.
  destruct (Hs2 r2) as ([] & r3 & E3 & Q3). rewrite (M_bind_ok _ _ _ _ _ E3). exists r3. split; [done|by etrans].
Qed.

Lemma receiver_round N ns (r : rxs) : 1 <= N <= 2 ^ 32 -> rx_inv N ns r ->
  exists b r' ns', Receiver_Process r = (Ok b, r') /\ rx_inv N ns' r' /\ ns ⊆ ns'.
Proof.
  intros HN Hi. unfold Receiver_Process. rewrite (M_bind_ok mget _ _ r r) by done. cbv beta.
  pose proof (recv_traced 1500 (rx_world r)) as Hd.
  destruct (RecvFrom 1500 (rx_world r)) as [[n d] w]. destruct Hd as (W1 & W2 & W3 & Hd).
  set (r0 := rx_upd_world w r). rewrite (M_bind_ok _ _ r tt r0) by done.
  destruct (settles_now r0) as (now & r1 & E1 & Q1). rewrite (M_bind_ok _ _ _ _ _ E1).
  match goal with |- context [(match _ with Some _ => _ | None => _ end) ≫= ?f] => set (tail := f) end.
  assert (forall ns2 r2, rx_inv N ns2 r2 -> ns ⊆ ns2 ->
    exists b r' ns', tail tt r2 = (Ok b, r') /\ rx_inv N ns' r' /\ ns ⊆ ns') as Htail.
  { intros ns2 r2 Hi2 Hs. unfold tail. rewrite (M_bind_ok mget _ _ r2 r2) by done. cbv beta zeta.
    destruct (settles_rate now r2) as ([] & r3 & E3 & Q3). rewrite (M_bind_ok _ _ _ _ _ E3).
    eexists _, r3, ns2. split; [reflexivity|]. split; [by eapply rx_quiet_inv|done]. }
  assert (took n d = [] -> rx_inv N ns r1) as Hnone.
  { intros Hz. rewrite Hz, app_nil_r in W1. eapply rx_quiet_inv; [|exact Hi]. etrans; [|exact Q1]. by split_and!. }
  unfold took in *. destruct d as [[remote bytes]|].
  2:{ assert ((if 0 <? n then @None (su_addr * list Z) else None) = None) as -> by (by destruct (0 <? n)).
      rewrite (M_bind_ok _ _ r1 tt r1) by done. eapply Htail; [by apply Hnone|done]. }
  destruct (0 <? n); [|rewrite (M_bind_ok _ _ r1 tt r1) by done; eapply Htail; [by apply Hnone|done]].
  destruct (Hd remote bytes eq_refl) as (d0 & Hd0 & ->). apply (rx_arrived _ _ _ Hi) in Hd0.
  apply list_elem_of_fmap in Hd0 as (m & -> & Hm). pose proof (sent_carries N m (proj2 HN) Hm) as Hc.
  destruct (rx_ready_ok now remote (ztake 1500 (sent_packet m)) r1) as (r2 & Eb & Q2).
  assert (rx_quiet r0 r2) as (B1 & B2 & B3 & B4) by (by etrans).
  destruct (answer_round N ns m (ztake 1500 (sent_packet m)) r r2) as (r3 & E3 & Hi3); [done|done|done|done|..].
  - by rewrite B1.
  - by rewrite B2, <- W1.
  - by rewrite B3.
  - by etrans.
  - rewrite <- Eb in E3. rewrite (M_bind_ok _ _ _ _ _ E3). eapply Htail; [exact Hi3|].
    intros x Hx. apply elem_of_app. by left.
Qed.

(** ** Every reachable state *)

Definition system_inv (n : Z) (c : system) : Prop :=
  exists N ns ks k, tx_inv N ns ks k (tx c) /\ rx_inv N ns (rx c) /\ 1 <= N <= 1 + n /\ 0 <= k <= 3 * n.

Lemma tx_more N ns ns' ks k (s : sapp) : ns ⊆ ns' -> tx_inv N ns ks k s -> tx_inv N ns' ks k s.
Proof.
  intros H [H1 H2 H3 H4 H5 H6]. split; [done|done|by etrans|done|done|]. etrans; [exact H6|]. by apply fmap_subseteq.
Qed.

Lemma rx_more N N' ns (r : rxs) : N <= N' -> rx_inv N ns r -> rx_inv N' ns r.
Proof.
  intros HN [H1 H2 H3 H4 H5]. pose proof (numbers_more N N' HN).
  split; [done|by etrans|done|done|]. etrans; [exact H5|]. by apply fmap_subseteq.
Qed.

Lemma received_range N ns (r : rxs) : N <= 2 ^ 32 -> rx_inv N ns r -> Forall (in_u 48) ns.
Proof.
  intros HN [_ H _ _ _]. apply Forall_forall. intros x Hx%H%elem_of_seqZ. change (2 ^ 32) with 4294967296 in HN.
  unfold in_u. change (2 ^ 48) with 281474976710656. lia.
Qed.

Lemma tx_setup_keeps m (s s' : sapp) a : tx_setup m -> m s = (Ok a, s') -> app_pacing s' = app_pacing s.
Proof.
  destruct 1; unfold set_duration, EnableRateRecord, SetTimeOffset, app_now, mbind, M_bind, mget, mmodify, mret, M_ret.
  - destruct (SysClock_Now _). by intros [= <- <-].
  - by intros [= <- <-].
  - destruct (grant_open _ _). by intros [= <- <-].
Qed.

(** What the network delivers is among what was sent. *)
Lemma delivered (v w w' : world) l : delivers v w w' -> arrived (inner w) ⊆ l -> handed v ⊆ l -> arrived (inner w') ⊆ l.
Proof. intros (_ & _ & H) Hw Hv x [Hx|Hx]%H%elem_of_app; auto. Qed.

Lemma step_inv round (c c' : system) n : system_step round c c' -> 0 <= n -> n + 1 < 2 ^ 31 -> system_inv n c ->
  system_inv (if round then n + 1 else n) c'.
Proof.
  intros Hstep Hn0 Hn (N & ns & ks & k & Ht & Hr & HN & Hk). change (2 ^ 31) with 2147483648 in Hn.
  pose proof (received_range N ns (rx c) ltac:(lia) Hr) as Hns.
  destruct Hstep as [s r b s' E|s r b r' E|s r m s' Hm E|s r m r' Hm E|s r w Hw|s r w Hw]; cbn [tx rx] in *.
  - destruct (sender_round N ns ks k s) as (b' & s2 & N' & ks' & E' & Ht' & HN'); [done|done|lia..|].
    rewrite E in E'. injection E' as <- <-. exists N', ns, ks', (k + 3). split; [done|]. split; [eapply rx_more; [|done]; lia|lia].
  - destruct (receiver_round N ns r) as (b' & r2 & ns' & E' & Hr' & Hb); [lia|done|].
    rewrite E in E'. injection E' as <- <-. exists N, ns', ks, k. split; [by eapply tx_more|]. done.
  - pose proof (quietly_setup m Hm s) as Hq. rewrite E in Hq. exists N, ns, ks, k. split; [|done].
    eapply tx_quiet; [exact Hq| |done]. eapply app_ok_same; [|apply Ht].
    split; [apply Hq|by eapply tx_setup_keeps].
  - destruct (settles_setup m Hm r) as (a & r2 & E' & Hq). rewrite E in E'. injection E' as <- <-.
    exists N, ns, ks, k. split; [done|]. split; [by eapply rx_quiet_inv|done].
  - exists N, ns, ks, k. split; [done|]. split; [|done]. pose proof Hw as (W1 & W2 & _). destruct Hr as [H1 H2 H3 H4 H5].
    split; cbn [rx_world rx_upd_world rx tx]; [done|done|by rewrite W1|by rewrite W2|].
    eapply delivered; [exact Hw|done|]. by rewrite (tx_handed _ _ _ _ _ Ht).
  - exists N, ns, ks, k. split; [|done]. pose proof Hw as (W1 & W2 & _). destruct Ht as [H1 H2 H3 H4 H5 H6].
    split; cbn [app_world app_upd_world rx tx]; [done|done|done|by rewrite W1|by rewrite W2|].
    eapply delivered; [exact Hw|done|]. by rewrite (rx_handed _ _ _ Hr).
Qed.

Lemma reaches_inv n c : reaches n c -> Z.of_nat n < 2 ^ 31 - 1 -> system_inv (Z.of_nat n) c.
Proof.
  induction 1 as [w v peer peer' a b d random Hw Hv|n round c c' _ IH Hs]; intros Hn.
  - exists 1, [], [], 0. cbn. split; [|split; [|lia]].
    + split; cbn; [|done|done|done|done|by rewrite Hw]. eexists. split; [reflexivity|]. split; [apply new_sender_ok|done].
    + split; cbn; [done|done|constructor|done|by rewrite Hv].
  - change (2 ^ 31) with 2147483648 in *.
    destruct round; (eapply (step_inv _ _ _ (Z.of_nat n)) in Hs; [|lia|lia|apply IH; lia]); [|done].
    by replace (Z.of_nat (S n)) with (Z.of_nat n + 1) by lia.
Qed.

(** C5: The sender and the receiver over any network.  However the rounds of the
    two loops interleave, and whatever datagrams the network loses, repeats,
    delays or reorders: the sender has handed over its packets one by one, from
    1 to the last number used; the receiver has taken packets [ns] of those off
    its socket, has answered each of them, in that order, with the
    acknowledgement of its number and has sent nothing else, and its highest
    number is the highest of them; the sender has taken off its socket
    acknowledgements of packets [ks], all of them received, and what the
    controller holds for acknowledged last is the highest of those; the
    datagrams under way are packets sent and acknowledgements of packets
    received; and the next round of either loop completes. *)
Theorem bbr_system_safe n c : reaches n c -> Z.of_nat n < 2 ^ 31 - 1 ->
  exists ns ks,
    let numbers := seqZ 1 (app_seq (tx c) - 1) in
    handed (app_world (tx c)) = sent_packet <$> numbers /\
    Forall2 carries (taken (rx_world (rx c))) ns /\ ns ⊆ numbers /\
    handed (rx_world (rx c)) = ack_of <$> ns /\
    base_seq_ (rx c) = highest 0 ns /\
    taken (app_world (tx c)) = ack_of <$> ks /\ ks ⊆ ns /\
    acked (tx c) = highest 0 ks /\
    arrived (inner (rx_world (rx c))) ⊆ sent_packet <$> numbers /\
    arrived (inner (app_world (tx c))) ⊆ ack_of <$> ns /\
    (exists b s, Process beyond (tx c) = (Ok b, s)) /\
    (exists b r, Receiver_Process (rx c) = (Ok b, r)).
Proof.
  intros Hc Hn. destruct (reaches_inv n c Hc Hn) as (N & ns & ks & k & Ht & Hr & HN & Hk).
  change (2 ^ 31) with 2147483648 in Hn. exists ns, ks. pose proof (received_range N ns (rx c) ltac:(lia) Hr) as Hns.
  destruct (sender_round N ns ks k (tx c)) as (b & s & N' & ks' & Ep & _); [done|done|lia..|].
  destruct (receiver_round N ns (rx c)) as (b' & r & ns' & Er & _); [lia|done|].
  destruct Ht as [(p & _ & _ & Es) T2 T3 T4 T5 T6], Hr as [R1 R2 R3 R4 R5]. rewrite Es. cbv zeta.
  split_and!; [done..|by exists b, s|by exists b', r].
Qed.

End System.
