(* ===== verification/BbrSystemDemo.v ===== *)
(** * A sender and a receiver on concrete worlds *)

From S2P Require Import Prelude QuicTime Clock StdMap Bbr BbrInv BbrProps BbrDemo Platform FramerTypes FramerWire FramerCodec FramerConcrete AppHeader BbrApps BbrAppProps BbrAppDemo Network BbrSystem.
Open Scope Z_scope.

#[export] Instance net_endpoint : Endpoint net_world.
Proof.
  refine {| arrived := inbox; sent := outbox |}.
  - intros w. split; [done|]. done.
  - by split.
  - intros n w. cbn. destruct w as [c [|d ds] o]; [by split|]. split; [done|]. by apply list_subseteq_cons.
  - intros a buf w. cbn. split; [|done]. intros d. rewrite elem_of_app, list_elem_of_singleton, elem_of_cons. tauto.
  - intros n w a d. cbn. destruct w as [c [|d0 ds] o]; [done|]. cbn. intros [= _ <-]. exists d0. split; [constructor|done].
  - exact clock_runs.
Defined.

Local Abbreviation demo_system := (@system demo_lib net_world).
Definition finished {X S} (p : res X * S) : bool := match p.1 with Ok _ => true | _ => false end.

(** The network brings all there is. *)
Definition deliver (v w : net_world) : net_world := mkNet (clock_us w) (inbox w ++ outbox v) (outbox w).

Definition pass (v w : traced net_world) : traced net_world :=
  at_inner (mkNet (clock_us (inner w)) (inbox (inner w) ++ handed v) (outbox (inner w))) w.

(** One round of each, with the network in between. *)
Definition exchange (c : demo_system) : demo_system :=
  let s := (Process demo_beyond (tx c)).2 in
  let r := (Receiver_Process (rx_upd_world (pass (app_world s) (rx_world (rx c))) (rx c))).2 in
  mkSystem (app_upd_world (pass (rx_world r) (app_world s)) s) r.

Lemma exchange_reaches n (c : demo_system) :
  finished (Process demo_beyond (tx c)) = true ->
  finished (Receiver_Process (rx_upd_world (pass (app_world (Process demo_beyond (tx c)).2) (rx_world (rx c))) (rx c))) = true ->
  reaches demo_beyond n c -> reaches demo_beyond (S n) (exchange c).
Proof.
  destruct c as [s r]. unfold exchange. cbn [tx rx]. intros Hs Hr Hc. cbv zeta.
  destruct (Process demo_beyond s) as [[b| |] s1] eqn:Es; [|done..]. cbn [snd] in *.
  apply (reaches_step _ _ true) with (c' := mkSystem s1 r) in Hc; [|by eapply step_sender].
  apply (reaches_step _ _ false) with (c' := mkSystem s1 (rx_upd_world (pass (app_world s1) (rx_world r)) r)) in Hc;
    [|apply step_data; by split_and!].
  destruct (Receiver_Process _) as [[b'| |] r1] eqn:Er; [|done..]. cbn [snd] in *.
  apply (reaches_step _ _ false) with (c' := mkSystem s1 r1) in Hc; [|by eapply step_receiver].
  apply (reaches_step _ _ false) with (c := mkSystem s1 r1); [done|]. apply step_acks. by split_and!.
Qed.

Definition start : demo_system :=
  mkSystem (new_app (mkTraced (mkNet 1000000 [] []) [] []) here 500000 1000000 2000000 1)
    (new_receiver (mkTraced (mkNet 1000000 [] []) [] []) here).

Definition after (n : nat) : demo_system := Nat.iter n exchange start.

(** Packet 1 is sent, received and acknowledged more than once. *)
Lemma bbr_system_safe_witness :
  reaches demo_beyond 3 (after 3) /\
  handed (rx_world (rx (after 3))) = [ack_of 1; ack_of 1; ack_of 1] /\ app_seq (tx (after 3)) = 2 /\
  exists ns ks,
    handed (app_world (tx (after 3))) = sent_packet demo_beyond <$> seqZ 1 (app_seq (tx (after 3)) - 1) /\
    Forall2 carries (taken (rx_world (rx (after 3)))) ns /\
    handed (rx_world (rx (after 3))) = ack_of <$> ns /\ base_seq_ (rx (after 3)) = highest 0 ns /\
    taken (app_world (tx (after 3))) = ack_of <$> ks /\ ks ⊆ ns /\ acked (tx (after 3)) = highest 0 ks /\
    exists b s, Process demo_beyond (tx (after 3)) = (Ok b, s).
Proof.
  assert (reaches demo_beyond 3 (after 3)) as Hr.
  { unfold after, Nat.iter. cbn [nat_rect]. do 3 (apply exchange_reaches; [vm_compute; reflexivity..|]).
    by apply reaches_start. }
  split; [exact Hr|]. split; [vm_compute; reflexivity|]. split; [vm_compute; reflexivity|].
  destruct (bbr_system_safe demo_beyond demo_beyond_ok 3 (after 3) Hr) as
    (ns & ks & H1 & H2 & _ & H3 & H4 & H5 & H6 & H7 & _ & _ & H8 & _); [vm_compute; reflexivity|].
  exists ns, ks. by split_and!.
Defined.
