(* ===== verification/QuicReceiver.v ===== *)
(** * The QUIC receiver: [my_quic_receiver.{h,cc}], [quic_framer_visitor.{h,cc}]

    [MyQuicReceiver] records the packets it gets with the library's
    [QuicReceivedPacketManager], answers with ack frames built by the framer -
    at once for the first hundred packets, then every tenth packet or 25 ms
    after the first unanswered one - and logs losses, rates and one-way delays.
    The manager, the socket, the clock and the log files are behind interfaces;
    the framer is the development's own. *)

From S2P Require Import Prelude QuicTime Clock Platform FramerTypes FramerNumbers FramerAppend FramerPacket FramerWire AppHeader.
Open Scope Z_scope.

(** The one version the programs speak, and what the library's constructor of
    [QuicPacketHeader] leaves in a header nobody fills in: its length is one of
    the enumeration's, the rest is anything. *)
Class AppVersion := {
  PROTOCOL_QUIC_CRYPTO : Z; QUIC_VERSION_43 : Z;
  default_header : QuicPacketHeader;
  default_header_length : 0 <= packet_number_length default_header <= 8
}.

Definition app_versions `{AppVersion} : list ParsedQuicVersion :=
  [mkVersion PROTOCOL_QUIC_CRYPTO QUIC_VERSION_43].

(** ** Visitors *)

Section Visitors.
Context `{T : QuicTypes} `{Q : PacketQueueOps} `{A : !AckOps} `{C : CryptoOps}.

(** [AbstractQuicFramerVisitor] with the three callbacks its descendants
    override. *)
Definition abstract_visitor (S : Type) (on_ack : QuicAckFrame -> S -> bool * S)
    (on_start : Z -> Delta -> S -> bool * S) (on_range : Z -> Z -> bool -> S -> bool * S) : VisitorOps := {|
  Visitor := S;
  OnError _ s := s;
  OnProtocolVersionMismatch _ f s := (true, (f, s));
  OnPacket s := s;
  OnPublicResetPacket _ s := s;
  OnVersionNegotiationPacket _ s := s;
  OnUnauthenticatedPublicHeader _ s := (true, s);
  OnUnauthenticatedHeader _ s := (true, s);
  OnDecryptedPacket _ s := s;
  OnPacketHeader _ s := (true, s);
  OnStreamFrame _ s := (true, s);
  OnAckFrame := on_ack;
  OnAckFrameStart := on_start;
  OnAckRange := on_range;
  OnStopWaitingFrame _ s := (true, s);
  OnPaddingFrame _ s := (true, s);
  OnPingFrame s := (true, s);
  OnRstStreamFrame _ s := (true, s);
  OnConnectionCloseFrame _ s := (true, s);
  OnGoAwayFrame _ s := (true, s);
  OnWindowUpdateFrame _ s := (true, s);
  OnBlockedFrame _ s := (true, s);
  OnPacketComplete s := s;
  IsValidStatelessResetToken _ _ := true;
  OnAuthenticatedIetfStatelessResetPacket _ s := s;
|}.

(** [AccFrameVisitor]: keeps the frame it is given and prints the rest. *)
Definition AckFrameVisitor : VisitorOps :=
  abstract_visitor (option QuicAckFrame) (fun frame _ => (false, Some frame))
    (fun _ _ s => (true, s)) (fun _ _ _ s => (true, s)).

(** A framer without a visitor. *)
Definition no_visitor : VisitorOps :=
  abstract_visitor unit (fun _ s => (true, s)) (fun _ _ s => (true, s)) (fun _ _ _ s => (true, s)).

End Visitors.

(** ** [MyQuicAlarm] *)

Record MyQuicAlarm := mkQuicAlarm { m_deadline : QuicTime }.

Definition new_alarm : MyQuicAlarm := mkQuicAlarm Time_Zero.
Definition alarm_IsSet (a : MyQuicAlarm) : bool := time_gt (m_deadline a) Time_Zero.
Definition alarm_Update (t : QuicTime) (a : MyQuicAlarm) : MyQuicAlarm := mkQuicAlarm t.

Definition alarm_IsExpired (now : QuicTime) (a : MyQuicAlarm) : bool * MyQuicAlarm :=
  if alarm_IsSet a then
    let ret := time_ge now (m_deadline a) in
    (ret, if ret then mkQuicAlarm Time_Zero else a)
  else (false, a).

(** ** The received-packet manager *)

Section Receiver.
Context `{T : QuicTypes} `{Q : PacketQueueOps} `{A : !AckOps} `{C : CryptoOps} `{F : QuicFunctions}
  `{R : ReaderOps} `{WO : WriterOps} `{P : !ProducerOps} `{AV : AppVersion}.

Class ReceivedPackets := {
  RPM : Type;
  new_rpm : RPM;
  (** the packet's number and the time *)
  RecordPacketReceived : Z -> QuicTime -> RPM -> RPM;
  ack_frame_updated : RPM -> bool;
  GetUpdatedAckFrame : QuicTime -> RPM -> QuicAckFrame * RPM;
  DontWaitForPacketsBefore : Z -> RPM -> RPM
}.

Context `{RM : ReceivedPackets}.
Context {W : Type} `{TD : TimeOfDay W} `{SK : Socket W} `{FS : Files W}.

Definition mMinReceivedBeforeAckDecimation : Z := 100.
Definition mMaxRetransmittablePacketsBeforeAck : Z := 10.
Definition mMaxDelayedAckTimeMs : Z := 25.
Definition mMinRetransmissionTimeMs : Z := 200.

(** The members, in groups: the connection, what acknowledgements depend on,
    the logs. *)
Record QrNet := mkQrNet {
  qr_world : W; qr_first : bool; qr_peer : su_addr; qr_stop : QuicTime; qr_duration : Z }.

Record QrAck := mkQrAck {
  ack_sent_ : bool; ack_alarm_ : MyQuicAlarm; received_ : Z;
  m_num_packets_received_since_last_ack_sent : Z }.

Record QrLog := mkQrLog {
  qr_offset : Z; qr_ref_time : QuicTime; next_output_ : QuicTime; qr_recv_byte : Z;
  qr_f_loss : log_file; qr_f_rate : log_file; qr_f_owd : log_file; qr_prefix : string }.

Record MyQuicReceiver := mkQuicReceiver {
  net : QrNet;
  recv_packet_manager_ : RPM;
  acking : QrAck;
  qr_seq : Z;
  qr_base_seq : Z;
  log : QrLog
}.

Local Abbreviation M' := (M MyQuicReceiver).

Definition new_quic_receiver (w : W) (peer : su_addr) : MyQuicReceiver :=
  mkQuicReceiver (mkQrNet w true peer Time_Zero 0) new_rpm (mkQrAck false new_alarm 0 0) 1 0
    (mkQrLog 0 Time_Zero Time_Zero 0 closed_log closed_log closed_log "").

Definition upd_net (f : QrNet -> QrNet) : M' unit := mmodify (fun s =>
  mkQuicReceiver (f (net s)) (recv_packet_manager_ s) (acking s) (qr_seq s) (qr_base_seq s) (log s)).

Definition upd_rpm (f : RPM -> RPM) : M' unit := mmodify (fun s =>
  mkQuicReceiver (net s) (f (recv_packet_manager_ s)) (acking s) (qr_seq s) (qr_base_seq s) (log s)).

Definition upd_ack (f : QrAck -> QrAck) : M' unit := mmodify (fun s =>
  mkQuicReceiver (net s) (recv_packet_manager_ s) (f (acking s)) (qr_seq s) (qr_base_seq s) (log s)).

Definition upd_base (n : Z) : M' unit := mmodify (fun s =>
  mkQuicReceiver (net s) (recv_packet_manager_ s) (acking s) (qr_seq s) n (log s)).

Definition upd_log (f : QrLog -> QrLog) : M' unit := mmodify (fun s =>
  mkQuicReceiver (net s) (recv_packet_manager_ s) (acking s) (qr_seq s) (qr_base_seq s) (f (log s))).

Definition set_world (w : W) (n : QrNet) : QrNet :=
  mkQrNet w (qr_first n) (qr_peer n) (qr_stop n) (qr_duration n).

Definition set_alarm (a : MyQuicAlarm) (k : QrAck) : QrAck :=
  mkQrAck (ack_sent_ k) a (received_ k) (m_num_packets_received_since_last_ack_sent k).

Definition set_files (loss rate owd : log_file) (l : QrLog) : QrLog :=
  mkQrLog (qr_offset l) (qr_ref_time l) (next_output_ l) (qr_recv_byte l) loss rate owd (qr_prefix l).

Definition qr_now : M' QuicTime :=
  s ← mget;
  let '(now, w) := SysClock_Now (qr_world (net s)) in
  upd_net (set_world w);; mret now.

Definition Quic_SetRecordPrefix (name : string) : M' unit := upd_log (fun l =>
  mkQrLog (qr_offset l) (qr_ref_time l) (next_output_ l) (qr_recv_byte l)
    (qr_f_loss l) (qr_f_rate l) (qr_f_owd l) name).

Definition Quic_receiver_SetTimeOffset (offset : Z) : M' unit := upd_log (fun l =>
  mkQrLog offset (qr_ref_time l) (next_output_ l) (qr_recv_byte l)
    (qr_f_loss l) (qr_f_rate l) (qr_f_owd l) (qr_prefix l)).

Definition Quic_receiver_set_duration (ms : Z) : M' unit := upd_net (fun n =>
  mkQrNet (qr_world n) (qr_first n) (qr_peer n) (qr_stop n) ms).

Definition qr_open (suffix : string) : M' bool :=
  s ← mget;
  let '(granted, w) := grant_open (qr_prefix (log s) ++ suffix) (qr_world (net s)) in
  upd_net (set_world w);; mret granted.

Definition Quic_receiver_EnableRateRecord : M' unit :=
  granted ← qr_open "-rate.txt";
  upd_log (fun l => set_files (qr_f_loss l) (log_open granted (qr_f_rate l)) (qr_f_owd l) l).

Definition Quic_EnableLossRecord : M' unit :=
  granted ← qr_open "-loss.txt";
  upd_log (fun l => set_files (log_open granted (qr_f_loss l)) (qr_f_rate l) (qr_f_owd l) l).

Definition EnableOwdRecord : M' unit :=
  granted ← qr_open "-owd.txt";
  upd_log (fun l => set_files (qr_f_loss l) (qr_f_rate l) (log_open granted (qr_f_owd l)) l).

Definition Quic_RecordLoss (seq : Z) : M' unit :=
  s ← mget;
  if is_open (qr_f_loss (log s)) then
    now ← qr_now;
    let delta := time_diff now (qr_ref_time (log s)) in
    let abs := s64 (ToMilliseconds delta + qr_offset (log s)) in
    upd_log (fun l => set_files (log_line [abs; s64 seq] (qr_f_loss l)) (qr_f_rate l) (qr_f_owd l) l)
  else mret tt.

(** The seconds are printed as a float; the line keeps the milliseconds. *)
Definition Quic_receiver_RecordRate (now : QuicTime) : M' unit :=
  s ← mget;
  let l := log s in
  if is_open (qr_f_rate l) then
    let next := time_add now (FromMilliseconds 500) in
    if time_eq (next_output_ l) Time_Zero then
      upd_log (fun l => mkQrLog (qr_offset l) (qr_ref_time l) next (qr_recv_byte l)
        (qr_f_loss l) (qr_f_rate l) (qr_f_owd l) (qr_prefix l))
    else if time_gt now (next_output_ l) then
      let kbps := u32 (u64 (qr_recv_byte l * 8) / 500) in
      let delta := time_diff now (qr_ref_time l) in
      let abs := u32 (ToMilliseconds delta + qr_offset l) in
      upd_log (fun l => mkQrLog (qr_offset l) (qr_ref_time l) next 0
        (qr_f_loss l) (log_line [abs; s32 kbps] (qr_f_rate l)) (qr_f_owd l) (qr_prefix l))
    else mret tt
  else mret tt.

Definition RecordOnewayDelay (seq owd : Z) : M' unit :=
  s ← mget;
  if is_open (qr_f_owd (log s)) then
    upd_log (fun l => set_files (qr_f_loss l) (qr_f_rate l) (log_line [s64 seq; s32 owd] (qr_f_owd l)) l)
  else mret tt.

(** [AppendAckFrameAndTypeByte] of a fresh framer on a fresh writer: what the
    writer holds afterwards, whatever the method returned. *)
Definition ack_payload (now : QuicTime) (packet_length : Z) (ackframe : QuicAckFrame) : option (list Z) :=
  framer ← new_framer app_versions now IS_CLIENT;
  let e := mkEnv (V := no_visitor) framer tt (new_reader [] NETWORK_BYTE_ORDER)
    (new_writer packet_length NETWORK_BYTE_ORDER) in
  match AppendAckFrameAndTypeByte (V := no_visitor) ackframe e with
  | (Stuck, _) => None
  | (_, e') => Some (written (wr e'))
  end.

Definition Quic_SendAck : M' unit :=
  approx ← qr_now;
  s ← mget;
  let '(ackframe, rpm) := GetUpdatedAckFrame approx (recv_packet_manager_ s) in
  upd_rpm (fun _ => rpm);;
  let seq := qr_seq s in
  let seq_len := GetMinSeqLength seq in
  let public_flags := app_flags seq_len in
  let header_len := u32 (1 + seq_len) in
  let header_writer := write_header public_flags seq_len seq (new_writer header_len NETWORK_BYTE_ORDER) in
  let packet_length := u32 (kMaxPacketSize - header_len) in
  match ack_payload approx packet_length ackframe with
  | None => mstuck
  | Some payload =>
      upd_net (fun n => set_world (SendTo (qr_peer n) (written header_writer ++ payload) (qr_world n)).2 n);;
      upd_ack (fun k => mkQrAck true (ack_alarm_ k) (received_ k) 0)
  end.

Definition MaybeSendAck : M' unit :=
  s ← mget;
  let k := acking s in
  should_send ← (
    if received_ k <? mMinReceivedBeforeAckDecimation then mret true
    else if mMaxRetransmittablePacketsBeforeAck <=? m_num_packets_received_since_last_ack_sent k then mret true
    else if alarm_IsSet (ack_alarm_ k) then mret false
    else
      let ack_delay := Z.min mMaxDelayedAckTimeMs (Z.quot mMinRetransmissionTimeMs 2) in
      now ← qr_now;
      upd_ack (set_alarm (alarm_Update (time_add now (FromMilliseconds ack_delay)) (ack_alarm_ k)));;
      mret false);
  if should_send : bool then Quic_SendAck else mret tt.

Fixpoint quic_record_losses (n : nat) (i : Z) : M' unit :=
  match n with
  | O => mret tt
  | S n => Quic_RecordLoss i;; quic_record_losses n (i + 1)
  end.

(** The body of a stream packet's handling. *)
Definition OnStreamPacket (seq len : Z) (reader : QuicDataReader) : M' unit :=
  now ← qr_now;
  let recv_ts := u32 (ToMilliseconds (time_diff now Time_Zero)) in
  let sent_ts := match ReadUInt32 reader with (Some v, _) => v | (None, _) => 0 end in
  let owd := u32 (recv_ts - sent_ts) in
  RecordOnewayDelay seq owd;;
  upd_rpm (RecordPacketReceived seq now);;
  s ← mget;
  let base := u64 (qr_base_seq s + 1) in
  (if base <=? seq then
     quic_record_losses (Z.to_nat (seq - base)) base;; upd_base seq
   else mret tt);;
  upd_ack (fun k => mkQrAck (ack_sent_ k) (ack_alarm_ k) (u64 (received_ k + 1))
    (u64 (m_num_packets_received_since_last_ack_sent k + 1)));;
  upd_log (fun l => mkQrLog (qr_offset l) (qr_ref_time l) (next_output_ l) (u64 (qr_recv_byte l + len))
    (qr_f_loss l) (qr_f_rate l) (qr_f_owd l) (qr_prefix l));;
  Quic_receiver_RecordRate now;;
  s ← mget;
  if ack_frame_updated (recv_packet_manager_ s) then MaybeSendAck else mret tt.

Definition Quic_receiver_OnIncomingData (data : list Z) : M' unit :=
  let reader := new_reader data NETWORK_BYTE_ORDER in
  let '(public_flags, reader) := read_byte 0 reader in
  let seq_len := ReadSequenceNumberLength (Z.shiftr public_flags kPublicHeaderSequenceNumberShift) in
  let '(seq, reader) := read_number seq_len reader in
  let '(type, reader) := read_byte 0 reader in
  (if type =? STREAM_FRAME then OnStreamPacket seq (zlen data) reader else mret tt);;
  if type =? STOP_WAITING_FRAME then
    let '(least_unack, _) := read_number seq_len reader in
    upd_rpm (DontWaitForPacketsBefore least_unack)
  else mret tt.

(** The first datagram: its sender is the peer, and the run's end is fixed. *)
Definition qr_connect (remote : su_addr) (now : QuicTime) (n : QrNet) : QrNet :=
  if qr_first n then
    mkQrNet (qr_world n) false remote (time_add now (FromMilliseconds (qr_duration n))) (qr_duration n)
  else n.

Definition qr_start (now : QuicTime) (l : QrLog) : QrLog :=
  if time_eq (qr_ref_time l) Time_Zero then
    mkQrLog (qr_offset l) now (next_output_ l) (qr_recv_byte l)
      (qr_f_loss l) (qr_f_rate l) (qr_f_owd l) (qr_prefix l)
  else l.

Definition Quic_receiver_Process : M' bool :=
  s ← mget;
  let '(recv, data, w) := RecvFrom 1500 (qr_world (net s)) in
  upd_net (set_world w);;
  now ← qr_now;
  (match (if 0 <? recv then data else None) with
   | Some (remote, bytes) =>
       upd_log (qr_start now);;
       upd_net (qr_connect remote now);;
       Quic_receiver_OnIncomingData bytes
   | None => mret tt
   end);;
  s ← mget;
  let ret := if qr_first (net s) then true else negb (time_gt now (qr_stop (net s))) in
  now2 ← qr_now;
  s ← mget;
  let '(expired, alarm) := alarm_IsExpired now2 (ack_alarm_ (acking s)) in
  upd_ack (set_alarm alarm);;
  (if expired : bool then Quic_SendAck else mret tt);;
  mret ret.

(** The destructor logs the last packet when losses are logged. *)
Definition Quic_receiver_destroy : M' unit :=
  s ← mget;
  if is_open (qr_f_loss (log s)) then Quic_RecordLoss (qr_base_seq s) else mret tt.

End Receiver.
