(* ===== verification/QuicSender.v ===== *)
(** * The QUIC senders: [my_quic_sender.{h,cc}], [my_quic_video_sender.{h,cc}]

    Both drive the library's [QuicSentPacketManager], here an interface: packets
    sent, acknowledgements as the framer reports them, pending retransmissions.
    A sender is itself the visitor of the framer it builds for each datagram;
    the part of its state the callbacks touch is the visitor's state.  The loop
    over the pending retransmissions takes fuel. *)

From S2P Require Import Prelude QuicTime Clock StdMap Platform FramerTypes FramerNumbers FramerProcess FramerPacket FramerWire AppHeader QuicReceiver.
Open Scope Z_scope.

Inductive TransmissionType := NOT_RETRANSMISSION | LOSS_RETRANSMISSION.
Inductive HasRetransmittableData := NO_RETRANSMITTABLE_DATA | HAS_RETRANSMITTABLE_DATA.

Section Senders.
Context `{T : QuicTypes} `{Q : PacketQueueOps} `{A : !AckOps} `{C : CryptoOps} `{F : QuicFunctions}
  `{R : ReaderOps} `{WO : WriterOps} `{P : !ProducerOps} `{AV : AppVersion}.

(** ** The sent-packet manager *)

Record SerializedPacket := mkSerialized {
  sp_packet_number : Z; sp_packet_number_length : Z; sp_encrypted_length : Z;
  sp_retransmittable_frames : list QuicFrame }.

Record QuicPendingRetransmission := mkPendingRetransmission {
  pr_packet_number : Z; pr_retransmittable_frames : list QuicFrame }.

Class SentPackets := {
  SPM : Type;
  (** a manager in the given role, with BBR and nack loss detection *)
  new_spm : Perspective -> SPM;
  SetHandshakeConfirmed : SPM -> SPM;
  SetPacing : SPM -> SPM;
  spm_OnAckFrameStart : Z -> Delta -> QuicTime -> SPM -> SPM;
  spm_OnAckRange : Z -> Z -> SPM -> SPM;
  spm_OnAckFrameEnd : QuicTime -> SPM -> bool * SPM;
  (** packet, the number it retransmits or 0, the time *)
  spm_OnPacketSent : SerializedPacket -> Z -> QuicTime -> TransmissionType -> HasRetransmittableData ->
    SPM -> SPM;
  spm_GetLeastUnacked : SPM -> Z;
  spm_TimeUntilSend : QuicTime -> SPM -> Delta;
  HasPendingRetransmissions : SPM -> bool;
  NextPendingRetransmission : SPM -> QuicPendingRetransmission;
  bandwidth_kbps : SPM -> Z;
  ShouldSendProbingPacket : SPM -> bool;
  (** [new QuicStreamFrame()] *)
  new_stream_frame : QuicStreamFrame
}.

Context `{SP : SentPackets}.
Context {W : Type} `{TD : TimeOfDay W} `{SK : Socket W} `{FS : Files W}.

(** ** What the callbacks touch *)

Record AckState := mkAckState {
  sent_packet_manager_ : SPM;
  time_of_last_received_packet_ : QuicTime;
  largest_acked_ : Z;
  stop_waiting_count_ : Z
}.

Definition upd_spm (f : SPM -> SPM) (a : AckState) : AckState :=
  mkAckState (f (sent_packet_manager_ a)) (time_of_last_received_packet_ a) (largest_acked_ a)
    (stop_waiting_count_ a).

Definition GetLeastUnacked (a : AckState) : Z := spm_GetLeastUnacked (sent_packet_manager_ a).

Definition PostProcessAfterAckFrame (send_stop_waiting acked_new_packet : bool) (a : AckState) : AckState :=
  mkAckState (sent_packet_manager_ a) (time_of_last_received_packet_ a) (largest_acked_ a)
    (if send_stop_waiting then s32 (stop_waiting_count_ a + 1) else 0).

Definition Sender_OnAckFrame (frame : QuicAckFrame) (a : AckState) : bool * AckState := (false, a).

Definition Sender_OnAckFrameStart (largest_acked : Z) (ack_delay_time : Delta) (a : AckState) :
    bool * AckState :=
  (true, mkAckState
    (spm_OnAckFrameStart largest_acked ack_delay_time (time_of_last_received_packet_ a)
      (sent_packet_manager_ a))
    (time_of_last_received_packet_ a)
    (if largest_acked_ a <=? largest_acked then largest_acked else largest_acked_ a)
    (stop_waiting_count_ a)).

Definition Sender_OnAckRange (start end_ : Z) (last_range : bool) (a : AckState) : bool * AckState :=
  let a := upd_spm (spm_OnAckRange start end_) a in
  if negb last_range then (true, a)
  else
    let '(acked_new_packet, spm) :=
      spm_OnAckFrameEnd (time_of_last_received_packet_ a) (sent_packet_manager_ a) in
    let a := upd_spm (fun _ => spm) a in
    (true, PostProcessAfterAckFrame (start <? GetLeastUnacked a) acked_new_packet a).

Definition sender_visitor : VisitorOps :=
  abstract_visitor AckState Sender_OnAckFrame Sender_OnAckFrameStart Sender_OnAckRange.

(** ** The framer on a datagram *)

(** Copies the datagram into a packet-sized buffer of zeros, skips the header,
    and lets a fresh framer process the rest with the given visitor.  The length
    passed on is a 32-bit difference. *)
Definition process_datagram (V : VisitorOps) (now : QuicTime) (pespective : Perspective)
    (data : list Z) (v : Visitor) : res unit * Visitor :=
  match store (replicate (Z.to_nat kMaxPacketSize) 0) 0 data with
  | None => (Stuck, v)
  | Some buf =>
      let len := zlen data in
      let header_reader := new_reader (ztake len buf) NETWORK_BYTE_ORDER in
      let '(public_flags, header_reader) := read_byte 0 header_reader in
      let seq_len := ReadSequenceNumberLength (Z.shiftr public_flags kPublicHeaderSequenceNumberShift) in
      let '(seq, header_reader) := read_number seq_len header_reader in
      let header_len := u32 (1 + seq_len) in
      let remain := u32 (len - header_len) in
      match load buf header_len remain, new_framer app_versions now pespective with
      | Some bytes, Some framer =>
          let framer := put_visitor true framer in
          let e := mkEnv framer v (new_reader bytes NETWORK_BYTE_ORDER) (new_writer 0 NETWORK_BYTE_ORDER) in
          let '(r, e') := ProcessFrameData default_header e in
          (match r with Stuck => Stuck | _ => Ok tt end, vs e')
      | _, _ => (Stuck, v)
      end
  end.

(** ** Logging the bandwidth *)

Record RateLog := mkRateLog {
  rl_last_output : QuicTime; rl_ref_time : QuicTime; rl_enable_log : bool; rl_f_rate : log_file;
  rl_offset : Z }.

Definition new_rate_log : RateLog := mkRateLog Time_Zero Time_Zero false closed_log 0.

(** The seconds are printed as a float; the line keeps the milliseconds, 32 bits
    of them or 64. *)
Definition rate_log_step (narrow : Z -> Z) (kbps : Z) (now : QuicTime) (l : RateLog) : RateLog :=
  if negb (rl_enable_log l) then l
  else if time_eq (rl_last_output l) Time_Zero then
    mkRateLog (time_add now (FromMilliseconds 100)) now true (rl_f_rate l) (rl_offset l)
  else if time_gt now (rl_last_output l) then
    let delta := time_diff now (rl_ref_time l) in
    let ms := narrow (ToMilliseconds delta + rl_offset l) in
    mkRateLog (time_add now (FromMilliseconds 100)) (rl_ref_time l) true
      (log_line [ms; kbps] (rl_f_rate l)) (rl_offset l)
  else l.

(** ** [MyQuicSender] *)

Record MyQuicSender := mkQuicSender {
  qs_world : W;
  pespective_ : Perspective;
  acks : AckState;
  qs_peer : su_addr;
  qs_seq : Z;
  counter_ : Z;
  qs_stop : QuicTime;
  qs_log : RateLog
}.

Local Abbreviation QS := (M MyQuicSender).

Definition new_quic_sender (w : W) (peer : su_addr) (pespective : Perspective) : MyQuicSender :=
  let '(now, w) := SysClock_Now w in
  mkQuicSender w pespective (mkAckState (SetHandshakeConfirmed (new_spm pespective)) now 1 0) peer 1 0
    Time_Zero new_rate_log.

Definition qs_upd_world (w : W) (s : MyQuicSender) : MyQuicSender :=
  mkQuicSender w (pespective_ s) (acks s) (qs_peer s) (qs_seq s) (counter_ s) (qs_stop s) (qs_log s).

Definition qs_upd_acks (a : AckState) (s : MyQuicSender) : MyQuicSender :=
  mkQuicSender (qs_world s) (pespective_ s) a (qs_peer s) (qs_seq s) (counter_ s) (qs_stop s) (qs_log s).

Definition qs_upd_seq (n : Z) (s : MyQuicSender) : MyQuicSender :=
  mkQuicSender (qs_world s) (pespective_ s) (acks s) (qs_peer s) n (counter_ s) (qs_stop s) (qs_log s).

Definition qs_upd_counter (n : Z) (s : MyQuicSender) : MyQuicSender :=
  mkQuicSender (qs_world s) (pespective_ s) (acks s) (qs_peer s) (qs_seq s) n (qs_stop s) (qs_log s).

Definition qs_upd_stop (t : QuicTime) (s : MyQuicSender) : MyQuicSender :=
  mkQuicSender (qs_world s) (pespective_ s) (acks s) (qs_peer s) (qs_seq s) (counter_ s) t (qs_log s).

Definition qs_upd_log (l : RateLog) (s : MyQuicSender) : MyQuicSender :=
  mkQuicSender (qs_world s) (pespective_ s) (acks s) (qs_peer s) (qs_seq s) (counter_ s) (qs_stop s) l.

Definition qs_now : QS QuicTime :=
  s ← mget;
  let '(now, w) := SysClock_Now (qs_world s) in
  mmodify (qs_upd_world w);; mret now.

Definition qs_send (buf : list Z) : QS unit := mmodify (fun s =>
  qs_upd_world (SendTo (qs_peer s) buf (qs_world s)).2 s).

Definition qs_spm (f : SPM -> SPM) : QS unit := mmodify (fun s => qs_upd_acks (upd_spm f (acks s)) s).

Definition Quic_set_duration (ms : Z) : QS unit :=
  now ← qs_now;
  mmodify (qs_upd_stop (time_add now (FromMilliseconds ms))).

Definition Quic_SetTimeOffset (offset : Z) : QS unit := mmodify (fun s =>
  qs_upd_log (mkRateLog (rl_last_output (qs_log s)) (rl_ref_time (qs_log s)) (rl_enable_log (qs_log s))
    (rl_f_rate (qs_log s)) offset) s).

Definition Quic_EnableRateRecord (name : string) : QS unit :=
  s ← mget;
  let '(granted, w) := grant_open (name ++ "-rate.txt") (qs_world s) in
  mmodify (qs_upd_world w);;
  mmodify (fun s => qs_upd_log (mkRateLog (rl_last_output (qs_log s)) (rl_ref_time (qs_log s)) true
    (log_open granted (rl_f_rate (qs_log s))) (rl_offset (qs_log s))) s).

Definition Quic_RecordRate (now : QuicTime) : QS unit := mmodify (fun s =>
  qs_upd_log (rate_log_step s32 (bandwidth_kbps (sent_packet_manager_ (acks s))) now (qs_log s)) s).

Definition Quic_OnIncomingData (data : list Z) : QS unit :=
  now ← qs_now;
  s ← mget;
  let a := mkAckState (sent_packet_manager_ (acks s)) now (largest_acked_ (acks s))
    (stop_waiting_count_ (acks s)) in
  let '(r, a) := process_datagram sender_visitor now (pespective_ s) data a in
  (fun s => (r, qs_upd_acks a s)) : QS unit.

Definition Quic_OnPacketSent (packet_number packet_number_length encrypted_length : Z) : QS unit :=
  now ← qs_now;
  let info := mkSerialized packet_number packet_number_length encrypted_length
    [StreamFrame (Some new_stream_frame)] in
  qs_spm (spm_OnPacketSent info 0 now NOT_RETRANSMISSION HAS_RETRANSMITTABLE_DATA).

(** Header, type byte and timestamp: the buffer both kinds of stream packet
    send in full. *)
Definition stream_buffer (seq : Z) (now : QuicTime) : list Z :=
  let seq_len := GetMinSeqLength seq in
  let writer := write_header (app_flags seq_len) seq_len seq (new_writer kMaxPacketSize NETWORK_BYTE_ORDER) in
  let writer := (WriteBytes [STREAM_FRAME] writer).2 in
  let ts := u32 (ToMilliseconds (time_diff now Time_Zero)) in
  let writer := (WriteUInt32 ts writer).2 in
  written writer ++ replicate (Z.to_nat (kMaxPacketSize - zlen (written writer))) 0.

Definition Quic_SendFakePacket : QS unit :=
  s ← mget;
  let seq := qs_seq s in
  let seq_len := GetMinSeqLength seq in
  now ← qs_now;
  qs_send (stream_buffer seq now);;
  let payload := u16 (kMaxPacketSize - (1 + seq_len + 1)) in
  Quic_OnPacketSent seq seq_len payload;;
  mmodify (fun s => qs_upd_seq (u32 (qs_seq s + 1)) s).

Definition Quic_OnRetransPacket (pending : QuicPendingRetransmission) : QS unit :=
  s ← mget;
  let seq := qs_seq s in
  let seq_len := GetMinSeqLength seq in
  now ← qs_now;
  qs_send (stream_buffer seq now);;
  let payload := u16 (kMaxPacketSize - (1 + seq_len + 1)) in
  let info := mkSerialized seq seq_len payload (pr_retransmittable_frames pending) in
  let old_seq := pr_packet_number pending in
  qs_spm (spm_OnPacketSent info old_seq now LOSS_RETRANSMISSION HAS_RETRANSMITTABLE_DATA);;
  mmodify (fun s => qs_upd_seq (u32 (qs_seq s + 1)) s).

(** [while (TimeUntilSend(now) == 0 && HasPendingRetransmissions())]; [Fail]
    when the fuel runs out. *)
Fixpoint quic_retrans_loop (fuel : nat) (now : QuicTime) : QS unit :=
  s ← mget;
  let spm := sent_packet_manager_ (acks s) in
  if delta_eq (spm_TimeUntilSend now spm) Delta_Zero && HasPendingRetransmissions spm then
    match fuel with
    | O => mfail
    | S fuel =>
        Quic_OnRetransPacket (NextPendingRetransmission spm);;
        quic_retrans_loop fuel now
    end
  else mret tt.

Definition Quic_SendRetransmission (fuel : nat) : QS unit :=
  now ← qs_now;
  quic_retrans_loop fuel now.

(** Header, type byte and the least packet the peer should still wait for. *)
Definition stop_waiting_buffer (seq unack_seq : Z) : list Z :=
  let seq_len := GetMinSeqLength seq in
  let writer := write_header (app_flags seq_len) seq_len seq (new_writer kMaxPacketSize NETWORK_BYTE_ORDER) in
  let writer := (WriteBytes [STOP_WAITING_FRAME] writer).2 in
  let writer := (WriteBytesToUInt64 seq_len unack_seq writer).2 in
  ztake (u32 (wlength writer)) (written writer).

Definition reset_stop_waiting (a : AckState) : AckState :=
  mkAckState (sent_packet_manager_ a) (time_of_last_received_packet_ a) (largest_acked_ a) 0.

Definition Quic_SendStopWaitingFrame : QS unit :=
  mmodify (fun s => qs_upd_acks (reset_stop_waiting (acks s)) s);;
  s ← mget;
  qs_send (stop_waiting_buffer (qs_seq s) (GetLeastUnacked (acks s))).

Definition Quic_Process (fuel : nat) : QS bool :=
  now ← qs_now;
  s ← mget;
  (if delta_eq (spm_TimeUntilSend now (sent_packet_manager_ (acks s))) Delta_Zero then
     Quic_SendFakePacket;;
     mmodify (fun s => qs_upd_counter (u32 (counter_ s + 1)) s)
   else mret tt);;
  s ← mget;
  let '(recv, data, w) := RecvFrom 1500 (qs_world s) in
  mmodify (qs_upd_world w);;
  (match (if 0 <? recv then data else None) with
   | Some (_, bytes) => Quic_OnIncomingData bytes
   | None => mret tt
   end);;
  s ← mget;
  let ret := if time_ne (qs_stop s) Time_Zero then negb (time_gt now (qs_stop s)) else true in
  Quic_SendRetransmission fuel;;
  s ← mget;
  (if 2 <? stop_waiting_count_ (acks s) then Quic_SendStopWaitingFrame else mret tt);;
  Quic_RecordRate now;;
  mret ret.

End Senders.
