(* ===== verification/QuicProps.v ===== *)
(** * Theorems on the QUIC programs

    What a sender makes of a datagram, an ack frame's way from the receiver's
    manager to the sender's, when the receiver answers, and that a sender's
    retransmissions end. *)

From S2P Require Import Prelude QuicTime Clock StdMap Platform FramerTypes FramerNumbers FramerAppend FramerProcess FramerPacket FramerWire FramerCodec FramerSafe FramerAck AppHeader QuicReceiver QuicSender.
Open Scope Z_scope.

Section Datagrams.
Context `{T : QuicTypes} `{Q : PacketQueueOps} `{A : !AckOps} `{C : CryptoOps} `{F : QuicFunctions}
  `{R : ReaderOps} `{W' : WriterOps} `{P : !ProducerOps} `{AV : AppVersion}
  `{RV : !ReaderView} `{RO : !ReaderOk} `{TO : !QuicTypesOk T} `{FO : !QuicFunctionsOk F}.

(** ** The header of a datagram *)

(** The length of the packet number announced by the first byte. *)
Definition announced_length (data : list Z) : Z :=
  ReadSequenceNumberLength (Z.shiftr (hd 0 data) kPublicHeaderSequenceNumberShift).

Lemma announced_length_range data : 1 <= announced_length data <= 6.
Proof.
  unfold announced_length, ReadSequenceNumberLength. destruct pn_len_values as (-> & -> & -> & -> & _).
  repeat case_match; lia.
Qed.

(** The framer built for a datagram, its visitor set. *)
Definition app_framer (now : QuicTime) (p : Perspective) : MyQuicFramer :=
  match new_framer app_versions now p with
  | Some f => put_visitor true f
  | None => {| detailed_error_ := ""; visitor_ := true; error_ := 0; largest_packet_number_ := 0;
      last_serialized_connection_id_ := 0; last_version_label_ := 0; last_packet_is_ietf_quic_ := false;
      version_ := mkVersion 0 0; supported_versions_ := []; decrypter_ := None;
      alternative_decrypter_ := None; decrypter_level_ := 0; alternative_decrypter_level_ := 0;
      alternative_decrypter_latch_ := false; encrypter_ := []; perspective_ := p; validate_flags_ := true;
      creation_time_ := now; last_timestamp_ := Delta_Zero; last_nonce_ := []; data_producer_ := None;
      use_incremental_ack_processing_ := true |}
  end.

(** A datagram the sender can take: at least its header, at most its buffer. *)
Definition fits (data : list Z) : bool :=
  (zlen data <=? kMaxPacketSize) && (1 + announced_length data <=? zlen data).

Definition framer_env (V : VisitorOps) (now : QuicTime) (p : Perspective) (data : list Z) (v : Visitor) : env :=
  mkEnv (app_framer now p) v (new_reader (zdrop (1 + announced_length data) data) NETWORK_BYTE_ORDER)
    (new_writer 0 NETWORK_BYTE_ORDER).

Lemma process_datagram_eq (V : VisitorOps) now p data v : data <> [] ->
  process_datagram V now p data v =
  if fits data then
    let '(r, e') := ProcessFrameData default_header (framer_env V now p data v) in
    (match r with Stuck => Stuck | _ => Ok tt end, vs e')
  else (Stuck, v).
Proof.
  intros Hne. pose proof (announced_length_range data) as Hsl. unfold process_datagram, fits.
  assert (0 < kMaxPacketSize < 65536) as Hk by apply size_values.
  pose proof (zlen_nonneg data). unfold store. unfold zlen at 2. rewrite length_replicate, Z2Nat.id by lia.
  rewrite Z.add_0_l. cbn [andb]. change (0 <=? 0) with true. cbn [andb].
  destruct (Z.leb_spec (zlen data) kMaxPacketSize) as [Hl|Hl]; [|done]. cbn [andb].
  change (ztake 0 ?l) with (@nil Z). rewrite app_nil_l. cbv zeta. rewrite ztake_app.
  destruct data as [|b data]; [done|]. set (d := b :: data) in *.
  destruct (read_byte_ok 0 (new_reader d NETWORK_BYTE_ORDER) b data) as (r1 & -> & _ & _);
    [by rewrite new_reader_remaining|].
  change (ReadSequenceNumberLength (Z.shiftr b _)) with (announced_length d).
  destruct (read_number _ r1) as [sq r2]. set (sl := announced_length d) in *.
  rewrite (wrap_id 32) by (unfold_int; lia).
  set (zeros := zdrop (zlen d) (replicate (Z.to_nat kMaxPacketSize) 0)).
  assert (zlen (d ++ zeros) = kMaxPacketSize) as Hbuf.
  { unfold zeros. rewrite zlen_app, zlen_zdrop; unfold zlen at 2 || idtac; unfold zlen in *;
      rewrite ?length_replicate; lia. }
  destruct (Z.leb_spec (1 + sl) (zlen d)) as [Hh|Hh].
  - rewrite (wrap_id 32) by (unfold_int; lia).
    rewrite <- (ztake_drop (1 + sl) d) at 1. rewrite <- app_assoc.
    rewrite (load_ok (ztake (1 + sl) d) (zdrop (1 + sl) d) zeros).
    + reflexivity.
    + rewrite zlen_ztake; lia.
    + rewrite zlen_zdrop; lia.
  - rewrite wrap_neg by (change (2 ^ 32) with 4294967296; lia). change (2 ^ 32) with 4294967296.
    unfold load. rewrite Hbuf. rewrite (proj2 (Z.leb_gt (1 + sl + _) _)) by lia. by rewrite andb_false_r.
Qed.

Lemma drop_bytes n data : bytes_ok data -> bytes_ok (zdrop n data).
Proof. intros. by apply Forall_drop. Qed.

(** The framer never goes astray in a datagram that fits. *)
Lemma process_datagram_ok (V : VisitorOps) now p data v : data <> [] -> bytes_ok data ->
  exists v', process_datagram V now p data v = (if fits data then Ok tt else Stuck, v').
Proof.
  intros Hne Hb. rewrite process_datagram_eq by done. destruct (fits data); [|by exists v].
  pose proof (process_frame_data_copes default_header (framer_env V now p data v) default_header_length eq_refl) as H.
  specialize (H ltac:(cbn; rewrite new_reader_remaining; by apply drop_bytes)).
  unfold copes in H. destruct (ProcessFrameData _ _) as [[u| |] e']; [..|done]; by eexists.
Qed.

Context `{SP : !SentPackets}.
Context {W : Type} `{TD : TimeOfDay W} `{SK : Socket W}.
Local Abbreviation qsender := (@MyQuicSender Q SP W).

Lemma qs_now_eq (s : qsender) :
  qs_now s = (Ok (SysClock_Now (qs_world s)).1, qs_upd_world (SysClock_Now (qs_world s)).2 s).
Proof. unfold qs_now, mbind, M_bind, mget, mmodify, mret, M_ret. by destruct (SysClock_Now _). Qed.

(** The acknowledgement state as the callbacks find it: the datagram's time set. *)
Definition stamped (now : QuicTime) (a : AckState) : AckState :=
  mkAckState (sent_packet_manager_ a) now (largest_acked_ a) (stop_waiting_count_ a).

Lemma Quic_OnIncomingData_eq data (s : qsender) :
  let '(now, w) := SysClock_Now (qs_world s) in
  let '(r, a) := process_datagram sender_visitor now (pespective_ s) data (stamped now (acks s)) in
  Quic_OnIncomingData data s = (r, qs_upd_acks a (qs_upd_world w s)).
Proof.
  unfold Quic_OnIncomingData. rewrite (M_bind_ok _ _ _ _ _ (qs_now_eq s)).
  destruct (SysClock_Now (qs_world s)) as [now w]. cbn [fst snd].
  rewrite (M_bind_ok mget _ _ (qs_upd_world w s) (qs_upd_world w s)) by done. cbv beta zeta.
  change (acks (qs_upd_world w s)) with (acks s). change (pespective_ (qs_upd_world w s)) with (pespective_ s).
  unfold stamped. by destruct (process_datagram _ _ _ _ _).
Qed.

(** C28: What a datagram does to a sender.  One whose length lies between its
    header and [kMaxPacketSize] is taken whatever its bytes: the callbacks
    update the acknowledgement state, nothing else changes but the clock.  A
    longer one - [Process] accepts 1500 bytes - is copied past the end of the
    buffer, and one shorter than the header it announces makes the length of the
    rest wrap around, so that the framer is sent beyond the buffer. *)
Theorem quic_datagram_cases (s : qsender) data : data <> [] -> bytes_ok data ->
  exists a w, Quic_OnIncomingData data s =
    (if (zlen data <=? kMaxPacketSize) && (1 + announced_length data <=? zlen data)
     then Ok tt else Stuck, qs_upd_acks a (qs_upd_world w s)).
Proof.
  intros Hne Hb. pose proof (Quic_OnIncomingData_eq data s) as E.
  destruct (SysClock_Now (qs_world s)) as [now w].
  destruct (process_datagram_ok sender_visitor now (pespective_ s) data (stamped now (acks s)) Hne Hb)
    as [a Ea]. rewrite Ea in E. by exists a, w.
Qed.

End Datagrams.

(** ** From the receiver's manager to the sender's *)

Section Acks.
Context `{T : QuicTypes} `{Q : PacketQueueOps} `{A : !AckOps} `{C : CryptoOps} `{F : QuicFunctions}
  `{R : ReaderOps} `{W' : WriterOps} `{P : !ProducerOps} `{AV : AppVersion}
  `{RV : !ReaderView} `{WV : !WriterView} `{RO : !ReaderOk} `{WO : !WriterOk}
  `{PV : !ProducerView} `{PO : !ProducerOk P} `{TO : !QuicTypesOk T} `{FO : !QuicFunctionsOk F}
  `{QO : !PacketQueueOk Q} `{AO : !AckOk A}.
Context `{SP : !SentPackets} `{RM : !ReceivedPackets}.
Context {W : Type} `{TD : TimeOfDay W} `{SK : Socket W}.
Local Abbreviation qsender := (@MyQuicSender Q SP W).
Local Abbreviation qreceiver := (@MyQuicReceiver Q RM W).

(** [ProcessFrameData] on a single frame. *)
Lemma one_frame `{V : !VisitorOps} header e t bs (vf : Visitor -> Visitor) :
  byte_ok t -> remaining (rd e) = t :: bs ->
  reports (fr e) (rendian (rd e)) bs [] true vf (process_frame header t) ->
  exists r, ProcessFrameData header e = (Ok tt, put_vs (vf (vs e)) (put_rd r e)).
Proof.
  intros Ht Hr Hp. unfold ProcessFrameData, rd_get, mbind at 1, M_bind at 1.
  rewrite IsDoneReading_ok, Hr, bool_decide_false by done.
  unfold mbind at 1, M_bind at 1. rewrite BytesRemaining_ok, Hr, zlen_cons.
  pose proof (zlen_nonneg bs). replace (Z.to_nat (1 + zlen bs)) with (S (Z.to_nat (zlen bs))) by lia.
  cbn [frame_loop]. unfold rd_get, mbind at 1, M_bind at 1. rewrite IsDoneReading_ok, Hr, bool_decide_false by done.
  change (t :: bs) with ([t] ++ bs) in Hr.
  destruct (parses_bytes (fr e) (rendian (rd e)) [t] bs 1 eq_refl e eq_refl eq_refl Hr) as (r' & E1 & Hr1 & Hn1).
  erewrite M_bind_ok by (unfold or_else; rewrite E1; reflexivity).
  destruct (Hp (put_rd r' e)) as (r2 & E2 & Hr2 & _); [done|done|by rewrite app_nil_r|].
  change ([t] !!! 0%nat) with t. erewrite M_bind_ok by exact E2.
  exists r2. cbn [frame_loop]. destruct (Z.to_nat (zlen bs));
    cbn [frame_loop]; unfold rd_get, mbind at 1, M_bind at 1;
    rewrite IsDoneReading_ok; cbn [rd put_vs put_rd]; rewrite Hr2; done.
Qed.

(** The packet number's header without a type, as the QUIC programs write it. *)
Definition quic_header (n : Z) : list Z := header_bytes (app_flags (GetMinSeqLength n)) (GetMinSeqLength n) n.

Lemma app_flags_eq n : app_flags (GetMinSeqLength n) = flags_byte 0 n.
Proof. unfold flags_byte. rewrite Z.lor_0_r. unfold app_flags. by rewrite wrap_idemp. Qed.

Lemma quic_header_len n : zlen (quic_header n) = 1 + GetMinSeqLength n.
Proof. pose proof (min_seq_length_range n). apply header_bytes_len. lia. Qed.

Lemma announced_header n tail : announced_length (quic_header n ++ tail) = GetMinSeqLength n.
Proof.
  unfold announced_length, quic_header, header_bytes. cbn [app hd]. rewrite app_flags_eq.
  apply flags_byte_read. rewrite elem_of_cons. by left.
Qed.

Lemma app_framer_fields now p : version_ (app_framer now p) = mkVersion PROTOCOL_QUIC_CRYPTO QUIC_VERSION_43 /\
  visitor_ (app_framer now p) = true /\ use_incremental_ack_processing_ (app_framer now p) = true.
Proof. done. Qed.

(** The bytes of an ack frame in the programs' version. *)
Definition ack_frame_wire (a : QuicAckFrame) lo l : list Z :=
  ack_type QUIC_VERSION_43 a ::
  ack_wire QUIC_VERSION_43 NETWORK_BYTE_ORDER a (num_ack_blocks (GetAckFrameInfo a)) lo l.

Definition ack_size (a : QuicAckFrame) : Z := GetAckFrameSize (app_framer Time_Zero IS_CLIENT) a.

(** The frame the manager holds fits a packet whose header is [n]'s. *)
Definition ack_fits (a : QuicAckFrame) (n : Z) lo l : Prop :=
  ack_ok QUIC_VERSION_43 a lo l /\ num_ack_blocks (GetAckFrameInfo a) < 255 /\
  ack_size a <= kMaxPacketSize - (1 + GetMinSeqLength n).

Lemma ack_size_nonneg a lo l : ack_ok QUIC_VERSION_43 a lo l -> num_ack_blocks (GetAckFrameInfo a) < 255 ->
  ack_size a < 2 ^ 31 -> 0 <= ack_size a.
Proof.
  intros Ha Hn Hs. set (c := Z.max 0 (ack_size a)).
  destruct (new_writer_written c NETWORK_BYTE_ORDER ltac:(lia)) as (E1 & E2 & E3).
  set (e := mkEnv (V := no_visitor) (app_framer Time_Zero IS_CLIENT) tt
    (new_reader [] NETWORK_BYTE_ORDER) (new_writer c NETWORK_BYTE_ORDER)).
  destruct (append_ack_ok (V := no_visitor) e a lo l eq_refl Ha Hn) as (w & _ & _ & E).
  - cbn [wr fr e]. fold (ack_size a). rewrite wlength_ok, E1, E2, zlen_nil. lia.
  - cbn [wr e]. rewrite E2. change (2 ^ 31) with 2147483648 in *. lia.
  - cbn [fr e] in E. fold (ack_size a) in E. rewrite <- E. apply zlen_nonneg.
Qed.

(** A fresh framer writes it whole into a packet with the room. *)
Lemma ack_payload_room now len a lo l : ack_ok QUIC_VERSION_43 a lo l -> num_ack_blocks (GetAckFrameInfo a) < 255 ->
  ack_size a <= len -> len < 2 ^ 31 ->
  ack_payload now len a = Some (ack_frame_wire a lo l) /\ zlen (ack_frame_wire a lo l) = ack_size a.
Proof.
  intros Ha Hn Hsize Hlen. unfold ack_payload.
  pose proof (ack_size_nonneg a lo l Ha Hn ltac:(lia)) as Hs0. assert (0 <= len) as Hl by lia.
  destruct (new_writer_written len NETWORK_BYTE_ORDER Hl) as (E1 & E2 & E3).
  destruct (new_framer app_versions now IS_CLIENT) as [f|] eqn:Ef; [|done].
  set (e := mkEnv (V := no_visitor) f tt (new_reader [] NETWORK_BYTE_ORDER) (new_writer len NETWORK_BYTE_ORDER)).
  assert (version_ f = mkVersion PROTOCOL_QUIC_CRYPTO QUIC_VERSION_43 /\
    use_incremental_ack_processing_ f = true) as [Ev Ei] by (injection Ef as <-; done).
  assert (GetAckFrameSize f a = ack_size a) as Es by (injection Ef as <-; done).
  assert (transport_version (version_ (fr e)) = QUIC_VERSION_43) as Et by (cbn; by rewrite Ev).
  destruct (append_ack_ok (V := no_visitor) e a lo l) as (w & E & Hw & Hz).
  - done.
  - by rewrite Et.
  - done.
  - cbn [fr wr e]. rewrite wlength_ok, E1, E2, zlen_nil, Es. lia.
  - cbn [wr e]. rewrite E2. done.
  - rewrite Et in Hw, Hz. cbn [wr fr e] in Hw, Hz. rewrite E3 in Hw, Hz. rewrite Es in Hz.
    cbn [mbind option_bind]. fold e. rewrite E. destruct Hw as [Hw _]. cbn [wr put_wr].
    rewrite Hw, E1, app_nil_l. by split.
Qed.

Lemma ack_payload_ok now n a lo l : ack_fits a n lo l ->
  ack_payload now (kMaxPacketSize - (1 + GetMinSeqLength n)) a = Some (ack_frame_wire a lo l) /\
  zlen (ack_frame_wire a lo l) = ack_size a.
Proof.
  intros (Ha & Hn & Hsize). pose proof (min_seq_length_range n).
  assert (0 < kMaxPacketSize < 65536) as Hk by apply size_values.
  apply ack_payload_room; [done..|]. change (2 ^ 31) with 2147483648. lia.
Qed.

(** The acknowledgement leaves with everything in it; the count of unanswered
    packets starts again. *)
Lemma Quic_SendAck_ok (s : qreceiver) lo l :
  let '(now, w) := SysClock_Now (qr_world (net s)) in
  let '(a, rpm) := GetUpdatedAckFrame now (recv_packet_manager_ s) in
  in_u 48 (qr_seq s) -> ack_fits a (qr_seq s) lo l ->
  let d := quic_header (qr_seq s) ++ ack_frame_wire a lo l in
  Quic_SendAck s = (Ok tt, mkQuicReceiver (set_world (SendTo (qr_peer (net s)) d w).2 (net s)) rpm
    (mkQrAck true (ack_alarm_ (acking s)) (received_ (acking s)) 0) (qr_seq s) (qr_base_seq s) (log s)).
Proof.
  destruct (SysClock_Now (qr_world (net s))) as [now w] eqn:Enow.
  destruct (GetUpdatedAckFrame now (recv_packet_manager_ s)) as [a rpm] eqn:Eack. intros Hn Hfit d.
  unfold Quic_SendAck. set (s1 := mkQuicReceiver (set_world w (net s)) (recv_packet_manager_ s) (acking s)
    (qr_seq s) (qr_base_seq s) (log s)).
  assert (qr_now s = (Ok now, s1)) as E1.
  { unfold qr_now. rewrite (M_bind_ok mget _ _ s s) by done. cbv beta. rewrite Enow. done. }
  rewrite (M_bind_ok _ _ _ _ _ E1), (M_bind_ok mget _ _ s1 s1) by done. cbv beta.
  change (recv_packet_manager_ s1) with (recv_packet_manager_ s). rewrite Eack.
  set (s2 := mkQuicReceiver (set_world w (net s)) rpm (acking s) (qr_seq s) (qr_base_seq s) (log s)).
  rewrite (M_bind_ok (upd_rpm _) _ _ tt s2) by done. cbv zeta. change (qr_seq s1) with (qr_seq s).
  pose proof (min_seq_length_range (qr_seq s)) as Hl.
  assert (0 < kMaxPacketSize < 65536) as Hk by apply size_values.
  assert (0 <= kMaxPacketSize - (1 + GetMinSeqLength (qr_seq s))) as Hroom.
  { destruct (ack_payload_ok now (qr_seq s) a lo l Hfit) as [_ Hz].
    pose proof (zlen_nonneg (ack_frame_wire a lo l)). destruct Hfit as (_ & _ & Hsz). lia. }
  rewrite (wrap_id 32 (1 + _)) by (unfold_int; lia).
  rewrite (wrap_id 32 (kMaxPacketSize - _)) by (unfold_int; lia).
  destruct (ack_payload_ok now (qr_seq s) a lo l Hfit) as [-> _].
  destruct (write_header_ok (1 + GetMinSeqLength (qr_seq s)) (app_flags (GetMinSeqLength (qr_seq s)))
    (GetMinSeqLength (qr_seq s)) (qr_seq s)) as (-> & _ & _); [lia..|]. done.
Qed.

(** C4: An acknowledgement's whole way.  What the receiver's manager reports, if
    it fits a packet, leaves the receiver as one datagram; a sender that gets
    that datagram accepts it, and its manager is told, with the time of arrival,
    of the largest packet and the delay, then of every interval from the largest
    down, and, after the last and only then, that the frame is complete. *)
Theorem quic_ack_delivered (r : qreceiver) (q : qsender) lo l :
  let '(t1, w1) := SysClock_Now (qr_world (net r)) in
  let '(a, rpm) := GetUpdatedAckFrame t1 (recv_packet_manager_ r) in
  in_u 48 (qr_seq r) -> ack_fits a (qr_seq r) lo l ->
  exists d r' q',
    Quic_SendAck r = (Ok tt, r') /\
    qr_world (net r') = (SendTo (qr_peer (net r)) d w1).2 /\
    zlen d <= kMaxPacketSize /\
    Quic_OnIncomingData d q = (Ok tt, q') /\
    acks q' = foldl (fun k '(s, e, last) => (Sender_OnAckRange s e last k).2)
      (Sender_OnAckFrameStart (largest_acked a) (ack_delay a)
        (stamped (SysClock_Now (qs_world q)).1 (acks q))).2
      (marked (rev_intervals (packets a))).
Proof.
  pose proof (Quic_SendAck_ok r lo l) as Hsend.
  destruct (SysClock_Now (qr_world (net r))) as [t1 w1].
  destruct (GetUpdatedAckFrame t1 (recv_packet_manager_ r)) as [a rpm]. intros Hn Hfit.
  specialize (Hsend Hn Hfit). cbv zeta in Hsend. set (n := qr_seq r) in *.
  set (d := quic_header n ++ ack_frame_wire a lo l) in *.
  destruct (ack_payload_ok t1 n a lo l Hfit) as [_ Hz].
  pose proof (min_seq_length_range n) as Hl. pose proof (announced_header n (ack_frame_wire a lo l)) as Han.
  fold d in Han. pose proof Hfit as (Ha & Hnum & Hsz).
  assert (zlen d = 1 + GetMinSeqLength n + ack_size a) as Hd
    by (unfold d; rewrite zlen_app, quic_header_len, Hz; lia).
  assert (0 <= ack_size a) as Hs0 by (rewrite <- Hz; apply zlen_nonneg).
  pose proof (Quic_OnIncomingData_eq d q) as Hin.
  destruct (SysClock_Now (qs_world q)) as [t2 w2]. cbn [fst].
  rewrite process_datagram_eq in Hin by (intros E; rewrite E, zlen_nil in Hd; lia).
  assert (fits d = true) as Ef.
  { unfold fits. rewrite Han, !(proj2 (Z.leb_le _ _)) by lia. done. }
  rewrite Ef in Hin. set (e := framer_env sender_visitor t2 (pespective_ q) d (stamped t2 (acks q))) in *.
  assert (remaining (rd e) = ack_frame_wire a lo l) as Hr.
  { change (rd e) with (new_reader (zdrop (1 + announced_length d) d) NETWORK_BYTE_ORDER).
    rewrite new_reader_remaining, Han, <- quic_header_len. unfold d. apply zdrop_app. }
  assert (rendian (rd e) = NETWORK_BYTE_ORDER) as Hen by (cbn; apply new_reader_endian).
  destruct (one_frame (V := sender_visitor) default_header e (ack_type QUIC_VERSION_43 a)
    (ack_wire QUIC_VERSION_43 NETWORK_BYTE_ORDER a (num_ack_blocks (GetAckFrameInfo a)) lo l)
    (fun v => told (V := sender_visitor) (marked (rev_intervals (packets a)))
       (Sender_OnAckFrameStart (largest_acked a) (ack_delay a) v).2)) as (r2 & E).
  - apply (sh_type _ _ _ _ _ (ack_shape_ok QUIC_VERSION_43 a lo l _ Ha (Z.le_refl _) ltac:(lia))).
  - exact Hr.
  - rewrite Hen. apply (process_ack_ok (V := sender_visitor) (fr e) NETWORK_BYTE_ORDER default_header a lo l []);
      [done| |done|done|done].
    split; [intros s t last v|done]. cbn. unfold Sender_OnAckRange.
    destruct last; cbn [negb]; [|done]. by destruct (spm_OnAckFrameEnd _ _).
  - rewrite E in Hin. exists d. do 2 eexists. split; [exact Hsend|]. split; [done|]. split; [lia|].
    split; [exact Hin|]. done.
Qed.

(** ** When the receiver answers *)

(** A packet number whose successor fits the longest encoding. *)
Definition trackable (n : Z) : Prop := 0 <= n /\ n + 1 < 2 ^ 48.

(** What the manager documents: it tracks packets of such numbers as long as it
    is given such; recording one updates the ack frame; and once it has heard of
    a packet the frame it hands out is well formed. *)
Class ReceivedPacketsOk := {
  tracks : RPM -> Prop;
  heard : RPM -> Prop;
  new_rpm_tracks : tracks new_rpm;
  heard_tracks : forall m, heard m -> tracks m;
  record_heard : forall n t m, tracks m -> trackable n ->
    heard (RecordPacketReceived n t m) /\ ack_frame_updated (RecordPacketReceived n t m) = true;
  updated_frame_ok : forall t m, heard m ->
    let '(a, m') := GetUpdatedAckFrame t m in heard m' /\ exists lo l, ack_ok QUIC_VERSION_43 a lo l;
  dont_wait_tracks : forall n m, tracks m -> tracks (DontWaitForPacketsBefore n m)
}.

Context `{RMO : ReceivedPacketsOk}.

Definition unanswered (s : qreceiver) : Z := m_num_packets_received_since_last_ack_sent (acking s).

(** Fewer than ten packets are unanswered, and if there is one the alarm is set. *)
Definition answering (s : qreceiver) : Prop :=
  tracks (recv_packet_manager_ s) /\ 0 <= unanswered s < mMaxRetransmittablePacketsBeforeAck /\
  (unanswered s = 0 \/ alarm_IsSet (ack_alarm_ (acking s)) = true).

Definition keeps_ack (s s' : qreceiver) : Prop :=
  recv_packet_manager_ s' = recv_packet_manager_ s /\ acking s' = acking s.

#[export] Instance keeps_ack_preorder : PreOrder keeps_ack.
Proof. split; [by intros s|]. intros s1 s2 s3 [E1 E2] [F1 F2]. split; congruence. Qed.

(** A computation that always completes and leaves the acknowledging alone. *)
Local Abbreviation harmless := (always keeps_ack).

Lemma harmless_net f : harmless (upd_net f).
Proof. by apply always_modify. Qed.

Lemma harmless_log f : harmless (upd_log f).
Proof. by apply always_modify. Qed.

Lemma harmless_base n : harmless (upd_base n).
Proof. by apply always_modify. Qed.

#[local] Hint Resolve harmless_net harmless_log harmless_base : completes.

Lemma harmless_now : harmless qr_now.
Proof. unfold qr_now. always_steps. Qed.

#[local] Hint Resolve harmless_now : completes.

Lemma harmless_loss n : harmless (Quic_RecordLoss n).
Proof. unfold Quic_RecordLoss. cbv zeta. always_steps. Qed.

#[local] Hint Resolve harmless_loss : completes.

Lemma harmless_losses n : forall i, harmless (quic_record_losses n i).
Proof. induction n as [|n IH]; intros i; cbn [quic_record_losses]; always_steps. Qed.

Lemma harmless_rate now : harmless (Quic_receiver_RecordRate now).
Proof. unfold Quic_receiver_RecordRate. cbv zeta. always_steps. Qed.

Lemma harmless_owd n owd : harmless (RecordOnewayDelay n owd).
Proof. unfold RecordOnewayDelay. always_steps. Qed.

#[local] Hint Resolve harmless_losses : completes.

(** Whatever its size, a well-formed ack frame leaves something to send. *)
Lemma ack_payload_some now len a lo l : ack_ok QUIC_VERSION_43 a lo l -> 0 <= len ->
  exists payload, ack_payload now len a = Some payload.
Proof.
  intros Ha Hl. unfold ack_payload. destruct (new_framer app_versions now IS_CLIENT) as [f|] eqn:Ef; [|done].
  cbn [mbind option_bind].
  set (e := mkEnv (V := no_visitor) f tt (new_reader [] NETWORK_BYTE_ORDER) (new_writer len NETWORK_BYTE_ORDER)).
  assert (transport_version (version_ (fr e)) = QUIC_VERSION_43 /\
    use_incremental_ack_processing_ (fr e) = true) as [Et Ei] by (injection Ef as <-; done).
  pose proof (emits_ack (V := no_visitor) e a lo l Ei) as Hem. rewrite Et in Hem. specialize (Hem Ha).
  unfold emits_at in Hem. destruct (_ <=? _).
  - destruct Hem as (w & -> & _). by eexists.
  - destruct Hem as (e' & ->). by eexists.
Qed.

Lemma SendAck_answers (s : qreceiver) : heard (recv_packet_manager_ s) ->
  exists s', Quic_SendAck s = (Ok tt, s') /\ heard (recv_packet_manager_ s') /\
    unanswered s' = 0 /\ received_ (acking s') = received_ (acking s).
Proof.
  intros Hh. unfold Quic_SendAck. destruct (harmless_now s) as (now & s1 & E1 & Hr1 & Ha1).
  rewrite (M_bind_ok _ _ _ _ _ E1), (M_bind_ok mget _ _ s1 s1) by done. cbv beta. rewrite Hr1.
  pose proof (updated_frame_ok now _ Hh) as Hu.
  destruct (GetUpdatedAckFrame now (recv_packet_manager_ s)) as [a rpm]. destruct Hu as (Hrpm & lo & l & Ha).
  set (s2 := mkQuicReceiver (net s1) rpm (acking s1) (qr_seq s1) (qr_base_seq s1) (log s1)).
  rewrite (M_bind_ok (upd_rpm _) _ _ tt s2) by done. cbv zeta.
  destruct (ack_payload_some now (u32 (kMaxPacketSize - u32 (1 + GetMinSeqLength (qr_seq s1)))) a lo l Ha)
    as [payload ->]; [apply (wrap_range 32); lia|].
  eexists. split; [reflexivity|]. cbn. by rewrite Ha1.
Qed.

(** The clock reads a time in the next 146,000 years. *)
Definition clock_sane : Prop := forall w, 0 < time_ (SysClock_Now w).1 < 2 ^ 62.

Section Answering.
Hypothesis clock_ok : clock_sane.

Lemma alarm_armed w : alarm_IsSet (alarm_Update (time_add (SysClock_Now w).1
  (FromMilliseconds (Z.min mMaxDelayedAckTimeMs (Z.quot mMinRetransmissionTimeMs 2)))) new_alarm) = true.
Proof.
  unfold alarm_IsSet, alarm_Update, time_gt, time_lt, time_add. cbn [m_deadline time_].
  change (time_offset_ (FromMilliseconds _)) with 25000. pose proof (clock_ok w) as Hc.
  apply Z.ltb_lt. change (2 ^ 62) with 4611686018427387904 in Hc.
  rewrite swrap_id; [cbn; lia|lia|]. unfold in_s. change (2 ^ (64 - 1)) with 9223372036854775808. lia.
Qed.

Lemma MaybeSendAck_answers (s : qreceiver) : heard (recv_packet_manager_ s) ->
  1 <= unanswered s <= mMaxRetransmittablePacketsBeforeAck ->
  exists s', MaybeSendAck s = (Ok tt, s') /\ answering s' /\ received_ (acking s') = received_ (acking s) /\
    (received_ (acking s) < mMinReceivedBeforeAckDecimation -> unanswered s' = 0).
Proof.
  intros Hh Hu. unfold mMaxRetransmittablePacketsBeforeAck in Hu.
  destruct (SendAck_answers s Hh) as (s1 & E1 & H1 & Hu1 & Hr1).
  assert (answering s1) as Hans.
  { split; [by apply heard_tracks|]. rewrite Hu1. split; [unfold mMaxRetransmittablePacketsBeforeAck; lia|].
    by left. }
  unfold MaybeSendAck. rewrite (M_bind_ok mget _ _ s s) by done. cbv beta zeta.
  destruct (received_ (acking s) <? _) eqn:Erec.
  { rewrite (M_bind_ok _ _ _ true s) by done. by exists s1. }
  assert (received_ (acking s) < mMinReceivedBeforeAckDecimation -> False) as Hno by lia.
  fold (unanswered s). unfold mMaxRetransmittablePacketsBeforeAck at 1.
  destruct (10 <=? unanswered s) eqn:Ecount.
  { rewrite (M_bind_ok _ _ _ true s) by done. by exists s1. }
  destruct (alarm_IsSet (ack_alarm_ (acking s))) eqn:Eset.
  { rewrite (M_bind_ok _ _ _ false s) by done. exists s. split; [done|]. split; [|by split].
    split; [by apply heard_tracks|]. unfold mMaxRetransmittablePacketsBeforeAck.
    split; [unfold unanswered in *; lia|by right]. }
  set (now := (SysClock_Now (qr_world (net s))).1).
  set (a := alarm_Update (time_add now (FromMilliseconds (Z.min mMaxDelayedAckTimeMs
    (Z.quot mMinRetransmissionTimeMs 2)))) (ack_alarm_ (acking s))).
  set (s2 := mkQuicReceiver (set_world (SysClock_Now (qr_world (net s))).2 (net s)) (recv_packet_manager_ s)
    (set_alarm a (acking s)) (qr_seq s) (qr_base_seq s) (log s)).
  rewrite (M_bind_ok _ _ _ false s2).
  - exists s2. split; [done|]. split; [|by split].
    split; [by apply heard_tracks|]. unfold mMaxRetransmittablePacketsBeforeAck.
    split; [change (unanswered s2) with (unanswered s); unfold unanswered in *; lia|].
    right. apply (alarm_armed (qr_world (net s))).
  - unfold qr_now, s2, a, now, mbind, M_bind, mget, mret, M_ret.
    by destruct (SysClock_Now (qr_world (net s))).
Qed.

Lemma OnStreamPacket_answers n len reader (s : qreceiver) : answering s -> trackable n ->
  exists s', OnStreamPacket n len reader s = (Ok tt, s') /\ answering s' /\
    received_ (acking s') = u64 (received_ (acking s) + 1) /\
    (u64 (received_ (acking s) + 1) < mMinReceivedBeforeAckDecimation -> unanswered s' = 0).
Proof.
  intros (Ht & Hu & Hal) Hn. unfold OnStreamPacket.
  destruct (harmless_now s) as (now & s1 & E1 & K1). rewrite (M_bind_ok _ _ _ _ _ E1). cbv zeta.
  match goal with |- context [RecordOnewayDelay n ?o] => destruct (harmless_owd n o s1) as ([] & s2 & E2 & K2) end.
  rewrite (M_bind_ok _ _ _ _ _ E2). destruct (transitivity K1 K2) as [R2 A2].
  destruct (record_heard n now (recv_packet_manager_ s2)) as [Hh Hup]; [by rewrite R2|done|].
  set (s3 := mkQuicReceiver (net s2) (RecordPacketReceived n now (recv_packet_manager_ s2)) (acking s2)
    (qr_seq s2) (qr_base_seq s2) (log s2)).
  rewrite (M_bind_ok (upd_rpm _) _ _ tt s3), (M_bind_ok mget _ _ s3 s3) by done. cbv beta zeta.
  assert (harmless (if u64 (qr_base_seq s3 + 1) <=? n
    then quic_record_losses (Z.to_nat (n - u64 (qr_base_seq s3 + 1))) (u64 (qr_base_seq s3 + 1));; upd_base n
    else mret tt)) as Hloss
    by always_steps.
  destruct (Hloss s3) as ([] & s4 & E4 & R4 & A4). rewrite (M_bind_ok _ _ _ _ _ E4).
  match goal with |- context [upd_ack ?f] => set (upd := f) end.
  set (s5 := mkQuicReceiver (net s4) (recv_packet_manager_ s4) (upd (acking s4)) (qr_seq s4) (qr_base_seq s4) (log s4)).
  rewrite (M_bind_ok (upd_ack upd) _ _ tt s5) by done.
  match goal with |- context [upd_log ?f] => destruct (harmless_log f s5) as ([] & s6 & E6 & K6) end.
  rewrite (M_bind_ok _ _ _ _ _ E6). destruct (harmless_rate now s6) as ([] & s7 & E7 & K7).
  rewrite (M_bind_ok _ _ _ _ _ E7), (M_bind_ok mget _ _ s7 s7) by done. cbv beta.
  destruct (transitivity K6 K7) as [R7 A7].
  assert (recv_packet_manager_ s7 = RecordPacketReceived n now (recv_packet_manager_ s2)) as Er
    by (rewrite R7; unfold s5; cbn; by rewrite R4).
  assert (acking s7 = upd (acking s)) as Ea
    by (rewrite A7; unfold s5; cbn; rewrite A4; unfold s3; cbn; by rewrite A2).
  rewrite Er, Hup. unfold mMaxRetransmittablePacketsBeforeAck in Hu.
  assert (unanswered s7 = unanswered s + 1) as Eu.
  { unfold unanswered. rewrite Ea. cbn. apply wrap_id. fold (unanswered s). unfold_int. lia. }
  destruct (MaybeSendAck_answers s7) as (s8 & E8 & H8 & Hr8 & Hz).
  - by rewrite Er.
  - unfold mMaxRetransmittablePacketsBeforeAck. lia.
  - exists s8. split; [done|]. split; [done|]. rewrite Ea in Hr8, Hz. by split.
Qed.

(** A packet of the senders: header, the type of a stream frame, anything. *)
Definition stream_packet (d : list Z) : Prop :=
  exists n tail, trackable n /\ d = quic_header n ++ STREAM_FRAME :: tail.

(** What the receiver does with a packet depends on the type after the header. *)
Lemma OnIncomingData_type n type tail (s : qreceiver) : in_u 48 n ->
  let d := quic_header n ++ type :: tail in
  exists r, Quic_receiver_OnIncomingData d s =
    ((if type =? STREAM_FRAME then OnStreamPacket n (zlen d) r else mret tt);;
     if type =? STOP_WAITING_FRAME then upd_rpm (DontWaitForPacketsBefore (read_number (GetMinSeqLength n) r).1)
     else mret tt) s.
Proof.
  intros Hn d. destruct (header_read 0 n (type :: tail)) as (r1 & r2 & E1 & E2 & Hr2 & _);
    [rewrite elem_of_cons; by left|done|].
  destruct (read_byte_ok 0 r2 type tail Hr2) as (r3 & E3 & _).
  destruct (flags_byte_read 0 n) as (_ & _ & E4); [rewrite elem_of_cons; by left|].
  assert (d = header_bytes (flags_byte 0 n) (GetMinSeqLength n) n ++ type :: tail) as Ed
    by (unfold d, quic_header; by rewrite app_flags_eq).
  exists r3. unfold Quic_receiver_OnIncomingData. rewrite Ed, E1, E4, E2, E3. by destruct (read_number _ r3).
Qed.

Lemma stop_not_stream : (STREAM_FRAME =? STOP_WAITING_FRAME) = false.
Proof. by destruct frame_type_values as (_ & _ & _ & _ & _ & _ & -> & _ & -> & _). Qed.

Lemma OnIncomingData_stream d (s : qreceiver) : stream_packet d ->
  exists n r, trackable n /\ Quic_receiver_OnIncomingData d s = OnStreamPacket n (zlen d) r s.
Proof.
  intros (n & tail & Hn & ->). destruct (OnIncomingData_type n STREAM_FRAME tail s) as (r & E);
    [unfold trackable, in_u in *; lia|].
  exists n, r. split; [done|]. rewrite E, Z.eqb_refl, stop_not_stream.
  unfold mbind, M_bind. by destruct (OnStreamPacket _ _ _ _) as [[[]| |] s'].
Qed.

Fixpoint quic_receive_all (ds : list (list Z)) : M qreceiver unit :=
  match ds with
  | [] => mret tt
  | d :: ds => Quic_receiver_OnIncomingData d;; quic_receive_all ds
  end.

Lemma receive_all_answers ds : Forall stream_packet ds -> forall s : qreceiver, answering s ->
  0 <= received_ (acking s) -> received_ (acking s) + zlen ds < 2 ^ 64 ->
  exists s', quic_receive_all ds s = (Ok tt, s') /\ answering s' /\
    received_ (acking s') = received_ (acking s) + zlen ds /\
    (ds <> [] -> received_ (acking s') < mMinReceivedBeforeAckDecimation -> unanswered s' = 0).
Proof.
  induction 1 as [|d ds Hd _ IH]; intros s Hs H0 Hlt.
  { exists s. split; [done|]. split; [done|]. rewrite zlen_nil. split; [lia|done]. }
  rewrite zlen_cons in *. pose proof (zlen_nonneg ds).
  destruct (OnIncomingData_stream d s Hd) as (n & r & Hn & E).
  destruct (OnStreamPacket_answers n (zlen d) r s Hs Hn) as (s1 & E1 & H1 & Hr1 & Hz1).
  rewrite wrap_id in Hr1, Hz1 by (unfold in_u; lia).
  cbn [quic_receive_all]. rewrite (M_bind_ok _ _ s tt s1) by congruence.
  destruct (IH s1 H1) as (s2 & E2 & H2 & Hr2 & Hz2); [lia|lia|].
  exists s2. split; [done|]. split; [done|]. split; [lia|]. intros _ Hlow.
  destruct ds as [|d' ds]; [|by apply Hz2].
  injection E2 as <-. apply Hz1. rewrite zlen_nil in Hr2. lia.
Qed.

End Answering.

(** C13: The receiver answers what it gets.  After any sequence of stream packets
    fewer than ten are unanswered, and if any is the delay alarm is set; among
    the first 99 every single one has been answered at once. *)
Theorem quic_receiver_answers w peer ds :
  clock_sane -> Forall stream_packet ds -> zlen ds < 2 ^ 63 ->
  exists s', quic_receive_all ds (new_quic_receiver w peer) = (Ok tt, s') /\
    0 <= unanswered s' < 10 /\
    (unanswered s' <> 0 -> alarm_IsSet (ack_alarm_ (acking s')) = true) /\
    (zlen ds < 100 -> unanswered s' = 0).
Proof.
  intros Hc Hd Hlt. set (s := new_quic_receiver w peer).
  assert (answering s) as Hs.
  { split; [apply new_rpm_tracks|]. unfold mMaxRetransmittablePacketsBeforeAck. cbn. split; [lia|by left]. }
  destruct (receive_all_answers Hc ds Hd s Hs) as (s' & E & (Ht & Hu & Hal) & Hr & Hz); [done|cbn; lia|].
  exists s'. split; [done|]. split; [done|]. split; [tauto|]. intros H100.
  destruct ds as [|d ds]; [by injection E as <-|]. apply Hz; [done|].
  rewrite Hr. unfold mMinReceivedBeforeAckDecimation. cbn. lia.
Qed.

(** ** Retransmissions end *)

(** What the manager documents: something is pending when it says so, and
    sending a retransmission of the packet it offers takes that one off. *)
Class SentPacketsOk := {
  pending_count : SPM -> nat;
  has_pending : forall m, HasPendingRetransmissions m = true -> (0 < pending_count m)%nat;
  retransmitted : forall m info now has, HasPendingRetransmissions m = true ->
    (pending_count (spm_OnPacketSent info (pr_packet_number (NextPendingRetransmission m)) now
       LOSS_RETRANSMISSION has m) < pending_count m)%nat
}.

Context `{SPO : SentPacketsOk}.

Definition qs_manager (s : qsender) : SPM := sent_packet_manager_ (acks s).

(** The loop's guard. *)
Definition may_retransmit (now : QuicTime) (s : qsender) : bool :=
  delta_eq (spm_TimeUntilSend now (qs_manager s)) Delta_Zero && HasPendingRetransmissions (qs_manager s).

Lemma OnRetransPacket_ok pending (s : qsender) :
  exists info now s', Quic_OnRetransPacket pending s = (Ok tt, s') /\
    qs_manager s' = spm_OnPacketSent info (pr_packet_number pending) now LOSS_RETRANSMISSION
      HAS_RETRANSMITTABLE_DATA (qs_manager s) /\
    qs_seq s' = u32 (qs_seq s + 1).
Proof.
  unfold Quic_OnRetransPacket. rewrite (M_bind_ok mget _ _ s s) by done. cbv beta zeta.
  rewrite (M_bind_ok _ _ _ _ _ (qs_now_eq s)). set (now := (SysClock_Now (qs_world s)).1).
  eexists _, now, _. split; [reflexivity|]. split; reflexivity.
Qed.

(** What every retransmission keeps holds after the loop, which ends - with as
    much fuel as there are pending ones, where its guard is false. *)
Lemma quic_retrans_rule (I : qsender -> Prop) now :
  (forall s s', I s -> may_retransmit now s = true ->
    Quic_OnRetransPacket (NextPendingRetransmission (qs_manager s)) s = (Ok tt, s') ->
    (pending_count (qs_manager s') < pending_count (qs_manager s))%nat -> I s') ->
  forall fuel s, I s -> exists r s', quic_retrans_loop fuel now s = (r, s') /\ I s' /\
    (r = Ok tt /\ may_retransmit now s' = false \/ r = Fail /\ (fuel < pending_count (qs_manager s))%nat).
Proof.
  intros Hstep fuel. induction fuel as [|fuel IH]; intros s Hs; cbn [quic_retrans_loop];
    rewrite (M_bind_ok mget _ _ s s) by done; cbv beta zeta; fold (qs_manager s); fold (may_retransmit now s);
    destruct (may_retransmit now s) eqn:Hm; try (exists (Ok tt), s; by eauto);
    pose proof (proj2 (proj1 (andb_true_iff _ _) Hm)) as Hp.
  { exists Fail, s. split; [done|]. split; [done|]. right. split; [done|by apply has_pending]. }
  destruct (OnRetransPacket_ok (NextPendingRetransmission (qs_manager s)) s) as (info & t & s1 & E & Em & _).
  pose proof (retransmitted (qs_manager s) info t HAS_RETRANSMITTABLE_DATA Hp) as Hlt. rewrite <- Em in Hlt.
  rewrite (M_bind_ok _ _ _ _ _ E). destruct (IH s1) as (r & s2 & E2 & I2 & Hr); [by eapply Hstep|].
  exists r, s2. split; [done|]. split; [done|]. destruct Hr as [Hr|[-> Hr]]; [by left|right; split; [done|lia]].
Qed.

(** C29: The loop over the pending retransmissions ends: with as much fuel as
    there are pending ones - and so with any more - it runs to the point where
    nothing is pending or the pacer holds it back, sends each retransmission
    under a fresh number, and never more than were pending. *)
Theorem quic_retransmissions_end now (s : qsender) : in_u 32 (qs_seq s) ->
  forall fuel, (pending_count (qs_manager s) <= fuel)%nat ->
  exists k s', quic_retrans_loop fuel now s = (Ok tt, s') /\ may_retransmit now s' = false /\
    (k <= pending_count (qs_manager s))%nat /\ qs_seq s' = u32 (qs_seq s + Z.of_nat k).
Proof.
  intros Hseq fuel Hle.
  destruct (quic_retrans_rule (fun s' => exists k, (k + pending_count (qs_manager s') <= pending_count (qs_manager s))%nat /\
    qs_seq s' = u32 (qs_seq s + Z.of_nat k)) now) with (fuel := fuel) (s := s) as (r & s' & E & (k & Hk & Es) & Hr).
  - intros s1 s2 (k & Hk & Es) _ E Hlt. exists (S k). split; [lia|].
    destruct (OnRetransPacket_ok (NextPendingRetransmission (qs_manager s1)) s1) as (? & ? & s3 & E3 & _ & E4).
    rewrite E in E3. injection E3 as <-. rewrite E4, Es. unfold wrap. rewrite Zplus_mod_idemp_l. f_equal. lia.
  - exists 0%nat. split; [lia|]. by rewrite Z.add_0_r, wrap_id.
  - destruct Hr as [[-> Hm]|[-> Hlt]]; [|lia]. exists k, s'. split; [done|]. split; [done|]. split; [lia|done].
Qed.

End Acks.
