(* ===== verification/QuicAcks.v ===== *)
(** * What a QUIC sender makes of the acknowledgements it gets

    Whatever frame the receiver's manager hands out - however many intervals,
    or none, as after a stop-waiting frame for everything received - the bytes
    of [SendAck] make the sender's manager hear of intervals of that frame and
    of nothing else. *)

From S2P Require Import Prelude QuicTime Clock StdMap Platform FramerTypes FramerNumbers FramerAppend FramerProcess FramerPacket FramerWire FramerCodec FramerStream FramerFrames FramerSafe FramerAck AppHeader QuicReceiver QuicSender QuicProps.
Open Scope Z_scope.

(** ** Frames cut short to fit *)

Section Room.
Context `{T : QuicTypes} `{Q : PacketQueueOps} `{A : !AckOps} `{C : CryptoOps} `{F : QuicFunctions}
  `{R : ReaderOps} `{W : WriterOps} `{V : !VisitorOps} `{P : !ProducerOps}
  `{RV : !ReaderView} `{WV : !WriterView} `{RO : !ReaderOk} `{WO : !WriterOk}
  `{PV : !ProducerView} `{PO : !ProducerOk P} `{TO : !QuicTypesOk T} `{FO : !QuicFunctionsOk F}
  `{QO : !PacketQueueOk Q} `{AO : !AckOk A}.

(** With 40 bytes of room there is room for a block, and the blocks counted fit. *)
Lemma block_count_some tv a cap len lo l en : ack_ok tv a lo l -> 40 <= cap - len -> 0 <= len -> cap < 2 ^ 31 ->
  let n := block_count tv cap len a in
  (n = 0 -> num_ack_blocks (GetAckFrameInfo a) = 0) /\ 1 + zlen (ack_wire tv en a n lo l) <= cap - len.
Proof.
  intros Ha Hroom Hlen Hcap n. pose proof (ack_num_nonneg tv a lo l Ha) as Hn0.
  destruct (block_count_range tv cap len a Hn0) as [Hr Hr2]. fold n in Hr, Hr2.
  pose proof (ack_shape_ok tv a lo l n Ha Hr2 ltac:(lia)) as Hsh. rewrite (ack_wire_length tv en a n lo l Hsh) by lia.
  destruct Hsh as [Hll _ Hbl _ _ _ _ _ _ _]. apply ack_len_range in Hll, Hbl. assert (block_length tv a <> 0) as Hb0.
  { unfold block_length, GetMinPacketNumberLength. autorewrite with quic. repeat case_match; lia. }
  unfold n, block_count, available_ack_bytes. set (info := GetAckFrameInfo a) in *.
  unfold GetMinAckFrameSize, kQuicFrameTypeSize, kQuicDeltaTimeLargestObservedSize, kQuicNumTimestampsSize,
    kNumberOfAckBlocksSize, uint8_max in *. autorewrite with quic in *.
  set (avail := cap - len - _ - _ - _). change (2 ^ 31) with 2147483648 in Hcap.
  assert (0 < avail /\ block_length tv a + 1 <= avail < 2147483648 /\
    avail = cap - len - block_length tv a - (1 + largest_length tv a + 2 + 1) -
      (if negb (num_ack_blocks info =? 0) then 1 else 0)) as (Ha0 & Hav & Eav).
  { subst avail. destruct (negb _); lia. }
  clearbody avail. rewrite (wrap_id 64 avail) by (unfold in_u; change (2 ^ 64) with 18446744073709551616; lia).
  rewrite swrap_id; [|lia|unfold in_s; change (2 ^ (32 - 1)) with 2147483648; lia].
  assert (block_length tv a + 1 <> 0) as Hd by lia. assert (0 <= avail) as Ha1 by lia.
  pose proof (Z.mul_quot_le avail (block_length tv a + 1) Ha1 Hd) as Hq2.
  assert (1 <= Z.quot avail (block_length tv a + 1)) as Hq1 by (apply Z.quot_le_lower_bound; lia).
  set (q := Z.quot avail (block_length tv a + 1)) in *. clearbody q.
  assert (q <= avail) as Hq3 by nia.
  rewrite (wrap_id 64 q) by (unfold in_u; change (2 ^ 64) with 18446744073709551616; lia).
  set (m := if 255 <? _ then 255 else _).
  assert (0 <= m <= q /\ m <= num_ack_blocks info /\ (m = 0 -> num_ack_blocks info = 0)) as (Hm & Hm2 & Hm3)
    by (unfold m; destruct (Z.ltb_spec 255 (Z.min (num_ack_blocks info) q)); lia).
  clearbody m. split; [done|]. destruct (Z.ltb_spec 0 m); [|nia].
  rewrite (proj2 (Z.eqb_neq (num_ack_blocks info) 0)) in Eav by lia. cbn [negb] in Eav. nia.
Qed.

(** A frame written with room for 40 bytes is read back as the largest of its
    intervals. *)
Lemma append_ack_room e1 a lo l : let tv := transport_version (version_ (fr e1)) in
  use_incremental_ack_processing_ (fr e1) = true -> ack_ok tv a lo l ->
  40 <= capacity (wr e1) - wlength (wr e1) -> capacity (wr e1) < 2 ^ 31 ->
  exists w n, 0 <= n <= 255 /\ n <= num_ack_blocks (GetAckFrameInfo a) /\
    (n = 0 -> num_ack_blocks (GetAckFrameInfo a) = 0) /\
    AppendAckFrameAndTypeByte a e1 = (Ok tt, put_wr w e1) /\
    wext (wr e1) (ack_type tv a :: ack_wire tv (wendian (wr e1)) a n lo l) w.
Proof.
  intros tv Hinc Ha Hroom Hcap. pose proof (ack_num_nonneg tv a lo l Ha) as Hn0.
  destruct (block_count_range tv (capacity (wr e1)) (wlength (wr e1)) a Hn0) as [Hr Hr2].
  destruct (block_count_some tv a (capacity (wr e1)) (wlength (wr e1)) lo l (wendian (wr e1)) Ha Hroom) as [H0 Hz];
    [rewrite wlength_ok; apply zlen_nonneg|done|].
  pose proof (emits_ack e1 a lo l Hinc Ha) as Hem. fold tv in Hem. unfold emits_at in Hem. rewrite zlen_cons in Hem.
  rewrite (proj2 (Z.leb_le _ _)) in Hem by lia. destruct Hem as (w & E & Hw).
  exists w, (block_count tv (capacity (wr e1)) (wlength (wr e1)) a). split_and!; first [done|lia].
Qed.

End Room.

(** ** Frames without intervals *)

Section Empty.
Context `{T : QuicTypes} `{Q : PacketQueueOps} `{A : !AckOps} `{C : CryptoOps} `{F : QuicFunctions}
  `{R : ReaderOps} `{W : WriterOps} `{P : !ProducerOps}
  `{RV : !ReaderView} `{WV : !WriterView} `{RO : !ReaderOk} `{WO : !WriterOk}
  `{PV : !ProducerView} `{PO : !ProducerOk P} `{TO : !QuicTypesOk T} `{FO : !QuicFunctionsOk F}
  `{QO : !PacketQueueOk Q} `{AO : !AckOk A}.

(** A frame for no packet at all. *)
Definition empty_ack (a : QuicAckFrame) : Prop := rev_intervals (packets a) = [] /\ 0 <= LargestAcked a < 2 ^ 48.

Definition empty_type (tv : Z) (a : QuicAckFrame) : Z :=
  ack_type_byte tv (GetMinPacketNumberLength tv (LargestAcked a)) (GetMinPacketNumberLength tv 0) (mkAckInfo 0 0 0).

(** The four fields after the type: all counts and lengths are zero. *)
Definition empty_wire (tv : Z) en (a : QuicAckFrame) : list Z :=
  uint_bytes en (Z.to_nat (GetMinPacketNumberLength tv (LargestAcked a))) (LargestAcked a) ++
  uint_bytes en 2 (ufloat16_encode (ack_delay_us a)) ++
  uint_bytes en (Z.to_nat (GetMinPacketNumberLength tv 0)) 0 ++ [0].

Lemma empty_lengths tv a : empty_ack a ->
  let llen := GetMinPacketNumberLength tv (LargestAcked a) in let blen := GetMinPacketNumberLength tv 0 in
  ack_len_ok llen /\ ack_len_ok blen /\ in_u (8 * llen) (LargestAcked a) /\ in_u (8 * blen) 0 /\
  let t := empty_type tv a in
  in_u 8 t /\ has_bits t kQuicFrameTypeSpecialMask = true /\ is_stream_type tv t = false /\ is_ack_type tv t = true /\
  ExtractBit t (if negb (tv =? QUIC_VERSION_41) then kQuicHasMultipleAckBlocksOffset_Pre40
                else kQuicHasMultipleAckBlocksOffset) = false /\
  ReadAckPacketNumberLength tv (ExtractBits t kQuicSequenceNumberLengthNumBits kLargestAckedOffset) = llen /\
  ReadAckPacketNumberLength tv (ExtractBits t kQuicSequenceNumberLengthNumBits kActBlockLengthOffset) = blen.
Proof.
  intros [_ Hl]. cbv zeta. change (2 ^ 48) with 281474976710656 in Hl.
  destruct (min_length_ok tv (LargestAcked a)) as (L1 & L2 & L3 & L4);
    [change (2 ^ 64) with 18446744073709551616; lia|intros; change (2 ^ 48) with 281474976710656; lia|].
  destruct (min_length_ok tv 0) as (B1 & B2 & B3 & B4); [done|done|].
  split; [done|]. split; [done|]. split; [done|]. split; [done|].
  exact (ack_type_byte_ok tv _ _ (mkAckInfo 0 0 0) L3 B3 L4 B4).
Qed.

Lemma empty_wire_length tv en a : empty_ack a -> zlen (empty_wire tv en a) <= 19.
Proof.
  intros Ha. destruct (empty_lengths tv a Ha) as (Hll & Hbl & _). apply ack_len_range in Hll, Hbl.
  unfold empty_wire. autorewrite with lens. lia.
Qed.

Lemma emits_empty `{V : !VisitorOps} e a : let tv := transport_version (version_ (fr e)) in
  tv <> 41 -> use_incremental_ack_processing_ (fr e) = true -> empty_ack a ->
  emits_at e tt (empty_type tv a :: empty_wire tv (wendian (wr e)) a) (AppendAckFrameAndTypeByte a).
Proof.
  intros tv Hv Hinc Ha. destruct (empty_lengths tv a Ha) as (Hll & Hbl & _ & _ & Hty & _). destruct Ha as [Eq _].
  assert (GetAckFrameInfo a = mkAckInfo 0 0 0) as Ei by (unfold GetAckFrameInfo; by rewrite Eq).
  unfold AppendAckFrameAndTypeByte. rewrite Ei. cbn [num_ack_blocks max_block_length first_block_length].
  apply emits_at_gets. fold tv. apply emits_at_wr_get, emits_at_wr_get. cbv zeta. fold (empty_type tv a).
  fold (ack_delay_us a).
  match goal with |- context [if uint8_max <? ?x then uint8_max else ?x] =>
    replace (if uint8_max <? x then uint8_max else x) with 0
      by (rewrite Z.min_l by (apply (wrap_range 64); lia); done) end.
  apply (emits_at_bind e tt tt [empty_type tv a]); [by apply (emits_uint8 (fr e) (wendian (wr e)) _ Hty)|].
  intros w (_ & _ & Hwen). rewrite V41, (proj2 (Z.eqb_neq _ _) Hv). cbn [negb andb Z.ltb Z.compare].
  match goal with |- emits_at _ _ ?bs ?m => enough (emits (fr e) (wendian (wr e)) tt bs m) as Hem by by apply Hem end.
  unfold empty_wire.
  eapply (emits_bind _ _ 0 _ []); [apply emits_ret|].
  eapply emits_bind; [by apply emits_ack_number|].
  eapply emits_bind; [apply (emits_op _ _ _ _ (WriteUFloat16_ok _))|].
  eapply (emits_bind _ _ tt _ []); [apply emits_ret|].
  eapply emits_bind; [by apply emits_ack_number|].
  eapply (emits_bind _ _ tt _ []); [apply emits_ret|].
  apply emits_gets. rewrite Hinc. do 2 (apply emits_wr_get; intros ?). cbn [negb andb]. apply emits_bytes.
Qed.

(** Such a frame is refused after the largest packet has been reported, unless
    that is zero: then an interval without packets is. *)
Lemma process_empty `{V : !VisitorOps} f en a : let tv := transport_version (version_ f) in
  tv <> 41 -> visitor_ f = true -> polite -> use_incremental_ack_processing_ f = true -> empty_ack a ->
  forall e, fr e = f -> rendian (rd e) = en -> remaining (rd e) = empty_wire tv en a ->
  let start := OnAckFrameStart (LargestAcked a) (ack_delay a) in
  (exists e', ProcessAckFrame (empty_type tv a) new_ack_frame e = (Fail, e') /\ visitor_ (fr e') = true /\
     vs e' = (start (vs e)).2) \/
  (exists x e', ProcessAckFrame (empty_type tv a) new_ack_frame e = (Ok x, e') /\ fr e' = f /\ remaining (rd e') = [] /\
     vs e' = (OnAckRange 1 1 true (start (vs e)).2).2).
Proof.
  intros tv Hv Hvis Hpol Hinc Ha e He Hen Hr start.
  destruct (empty_lengths tv a Ha) as (Hll & Hbl & Hlv & Hbv & _ & _ & _ & _ & Hhas & Hl & Hb).
  apply ack_len_range in Hll, Hbl.
  unfold ProcessAckFrame. erewrite M_bind_ok by reflexivity. rewrite He. fold tv. rewrite Hhas, Hl, Hb, V41.
  rewrite (proj2 (Z.eqb_neq _ _) Hv). cbn [negb andb]. erewrite M_bind_ok by reflexivity. cbv zeta.
  unfold empty_wire in Hr. cbn [fst snd].
  destruct (parses_or_detail f en _ _ _ _ "Unable to read largest acked."
    (parses_bytes_uint f en _ (LargestAcked a) _ Hll Hlv) e He Hen Hr) as (r1 & E1 & Hr1 & Hn1).
  rewrite (M_bind_ok _ _ _ _ _ E1).
  assert (parses f en (uint_bytes en 2 (ufloat16_encode (ack_delay_us a)))
    (uint_bytes en (Z.to_nat (GetMinPacketNumberLength tv 0)) 0 ++ [0]) (ufloat16_decode (ufloat16_encode (ack_delay_us a)))
    (rd_op ReadUFloat16)) as Hdelay.
  { eapply parses_op; [apply ReadUFloat16_ok|]. cbv beta. rewrite p_uint_app; [done|]. apply ufloat16_encode_range. }
  destruct (parses_or_detail f en _ _ _ _ "Unable to read ack delay time." Hdelay (put_rd r1 e) He Hn1 Hr1) as (r2 & E2 & Hr2 & Hn2).
  rewrite (M_bind_ok _ _ _ _ _ E2). fold (ack_delay a). erewrite M_bind_ok by reflexivity.
  cbn [fr put_rd]. rewrite He, Hinc.
  set (e2 := put_rd r2 (put_rd r1 e)).
  destruct (reports_visit_ack f en (uint_bytes en (Z.to_nat (GetMinPacketNumberLength tv 0)) 0 ++ [0]) start Hvis)
    with (e := e2) as (r3 & E3 & Hr3 & Hn3); [intros v; apply Hpol|done..|].
  rewrite (M_bind_ok _ _ _ _ _ E3). erewrite M_bind_ok by reflexivity. change (vs e2) with (vs e).
  destruct (parses_or_detail f en _ _ _ _ "Unable to read first ack block length."
    (parses_bytes_uint f en _ 0 [0] Hbl Hbv) (put_vs (start (vs e)).2 (put_rd r3 e2)) He Hn3 Hr3) as (r4 & E4 & Hr4 & Hn4).
  rewrite (M_bind_ok _ _ _ _ _ E4). set (e4 := put_rd r4 _). change (0 =? 0) with true. cbn [negb orb andb].
  rewrite orb_false_r. destruct (Z.eqb_spec (LargestAcked a) 0) as [E0|Hne]; cbn [negb].
  - rewrite E0. erewrite M_bind_ok by reflexivity. erewrite M_bind_ok by reflexivity.
    change (u64 (0 + 1 - 0)) with 1. change (u64 (0 + 1)) with 1.
    destruct (reports_visit_ack f en [0] (OnAckRange 1 1 true) Hvis) with (e := e4) as (r5 & E5 & Hr5 & Hn5);
      [intros v; apply Hpol|done..|].
    rewrite (M_bind_ok _ _ _ new_ack_frame (put_vs (OnAckRange 1 1 true (vs e4)).2 (put_rd r5 e4)))
      by (by rewrite (M_bind_ok _ _ _ _ _ E5)).
    rewrite (M_bind_ok (process_ack_blocks _ _ _ _ _ _) _ _ new_ack_frame (put_vs (OnAckRange 1 1 true (vs e4)).2 (put_rd r5 e4)))
      by done.
    destruct (parses_or_detail f en [0] [] 0 (rd_op ReadUInt8) "Unable to read num received packets."
      (parses_byte f en 0 [] ltac:(done)) (put_vs (OnAckRange 1 1 true (vs e4)).2 (put_rd r5 e4)) He Hn5 Hr5)
      as (r6 & E6 & Hr6 & _).
    rewrite (M_bind_ok _ _ _ _ _ E6). right. eexists _, _. split; [reflexivity|]. by split_and!.
  - left. eexists. split; [reflexivity|]. split; [|done]. cbn. by rewrite He.
Qed.

End Empty.

(** ** What the sender's manager hears *)

Section Hearing.
Context `{T : QuicTypes} `{Q : PacketQueueOps} `{A : !AckOps} `{C : CryptoOps} `{F : QuicFunctions}
  `{R : ReaderOps} `{W' : WriterOps} `{P : !ProducerOps} `{AV : AppVersion}
  `{RV : !ReaderView} `{WV : !WriterView} `{RO : !ReaderOk} `{WO : !WriterOk}
  `{PV : !ProducerView} `{PO : !ProducerOk P} `{TO : !QuicTypesOk T} `{FO : !QuicFunctionsOk F}
  `{QO : !PacketQueueOk Q} `{AO : !AckOk A}.
Context `{SP : !SentPackets}.

(** A manager's history: the numbers it was told were sent, and the intervals it
    was told were acknowledged, the last first. *)
Class SentHistory := {
  spm_history : SPM -> list Z * list (Z * Z);
  new_history p : spm_history (new_spm p) = ([], []);
  handshake_history m : spm_history (SetHandshakeConfirmed m) = spm_history m;
  start_history l d t m : spm_history (spm_OnAckFrameStart l d t m) = spm_history m;
  range_history s e m : spm_history (spm_OnAckRange s e m) = ((spm_history m).1, (s, e) :: (spm_history m).2);
  end_history t m : spm_history (spm_OnAckFrameEnd t m).2 = spm_history m;
  sent_history info old t kind has m :
    spm_history (spm_OnPacketSent info old t kind has m) = (sp_packet_number info :: (spm_history m).1, (spm_history m).2)
}.

Context `{SH : SentHistory}.

(** Between [m] and [m'] nothing was sent and only numbers in [I] acknowledged. *)
Definition hears (I : Z -> Prop) (m m' : SPM) : Prop :=
  (spm_history m').1 = (spm_history m).1 /\
  exists new, (spm_history m').2 = new ++ (spm_history m).2 /\ forall s e k, (s, e) ∈ new -> s <= k < e -> I k.

#[export] Instance hears_preorder I : PreOrder (hears I).
Proof.
  split.
  - intros m. split; [done|]. exists []. split; [done|]. by intros s e k ?%not_elem_of_nil.
  - intros m m1 m2 (E1 & n1 & F1 & H1) (E2 & n2 & F2 & H2). split; [congruence|]. exists (n2 ++ n1).
    split; [by rewrite F2, F1, app_assoc|]. intros s e k [Hs|Hs]%elem_of_app; eauto.
Qed.

Lemma hears_quiet I m m' : spm_history m' = spm_history m -> hears I m m'.
Proof. intros E. split; [by rewrite E|]. exists []. split; [by rewrite E|]. by intros s e k ?%not_elem_of_nil. Qed.

Lemma hears_start I l d v : hears I (sent_packet_manager_ v) (sent_packet_manager_ (Sender_OnAckFrameStart l d v).2).
Proof. apply hears_quiet. apply start_history. Qed.

Lemma hears_range (I : Z -> Prop) s e last v : (forall k, s <= k < e -> I k) ->
  hears I (sent_packet_manager_ v) (sent_packet_manager_ (Sender_OnAckRange s e last v).2).
Proof.
  intros HI. assert (hears I (sent_packet_manager_ v) (spm_OnAckRange s e (sent_packet_manager_ v))) as Hr.
  { split; [by rewrite range_history|]. exists [(s, e)]. split; [by rewrite range_history|].
    intros s' e' k [= -> ->]%list_elem_of_singleton. apply HI. }
  unfold Sender_OnAckRange. destruct last; cbn [negb]; [|exact Hr]. etrans; [exact Hr|].
  cbn [sent_packet_manager_ upd_spm]. pose proof (end_history (time_of_last_received_packet_ v)
    (spm_OnAckRange s e (sent_packet_manager_ v))) as He. cbn [time_of_last_received_packet_].
  destruct (spm_OnAckFrameEnd _ _) as [b m]. by apply hears_quiet.
Qed.

Lemma hears_told (I : Z -> Prop) rs : (forall s e b k, (s, e, b) ∈ rs -> s <= k < e -> I k) -> forall v,
  hears I (sent_packet_manager_ v) (sent_packet_manager_ (told (V := sender_visitor) rs v)).
Proof.
  induction rs as [|[[s e] b] rs IH]; intros HI v; [reflexivity|].
  etrans; [apply (hears_range I s e b v)|].
  - intros k. apply (HI s e b k). by left.
  - apply (IH ltac:(intros s' e' b' k Hin; apply (HI s' e' b' k); by right)).
Qed.

Lemma sender_polite : polite (V := sender_visitor).
Proof.
  split; [intros s t last v|done]. cbn. unfold Sender_OnAckRange.
  destruct last; cbn [negb]; [|done]. by destruct (spm_OnAckFrameEnd _ _).
Qed.

(** The numbers a frame acknowledges. *)
Definition acknowledges (a : QuicAckFrame) (k : Z) : Prop := exists s e, (s, e) ∈ rev_intervals (packets a) /\ s <= k < e.

(** What an acknowledgement may look like. *)
Definition ack_any (a : QuicAckFrame) : Prop := (exists lo l, ack_ok QUIC_VERSION_43 a lo l) \/ empty_ack a.

Lemma hears_ack_told a lo l n v : ack_ok QUIC_VERSION_43 a lo l ->
  hears (acknowledges a) (sent_packet_manager_ v) (sent_packet_manager_ (ack_told (V := sender_visitor) a n lo l v)).
Proof.
  intros Ha. destruct (ack_intervals _ _ _ _ Ha) as (_ & _ & Hl). destruct (ranges_of_prefix l lo (Z.to_nat n) Hl) as [j Hj].
  unfold ack_told. etrans; [apply (hears_start _ (largest_acked a) (ack_delay a) v)|]. apply hears_told.
  intros s e b k Hin Hk. exists s, e. split; [|done]. destruct Ha as [-> _].
  apply elem_of_cons in Hin as [[= -> -> _]|Hin]; [by left|right].
  assert ((s, e) ∈ take j l) as Ht by (rewrite <- Hj; apply list_elem_of_fmap; by exists (s, e, b)).
  rewrite <- (take_drop j l). apply elem_of_app. by left.
Qed.

(** *** A datagram with an acknowledgement *)

Context (v43 : QUIC_VERSION_43 = 43) (packet_size : 100 <= kMaxPacketSize <= 1500).

(** What a frame may be on the wire: a prefix of its intervals, the largest
    among them, or nothing. *)
Definition wire_of (a : QuicAckFrame) (payload : list Z) : Prop :=
  (exists lo l n, ack_ok QUIC_VERSION_43 a lo l /\ 0 <= n <= 255 /\ n <= num_ack_blocks (GetAckFrameInfo a) /\
    (n = 0 -> num_ack_blocks (GetAckFrameInfo a) = 0) /\
    payload = ack_type QUIC_VERSION_43 a :: ack_wire QUIC_VERSION_43 NETWORK_BYTE_ORDER a n lo l) \/
  (empty_ack a /\ payload = empty_type QUIC_VERSION_43 a :: empty_wire QUIC_VERSION_43 NETWORK_BYTE_ORDER a).

(** That is what an acknowledgement's payload is. *)
Lemma ack_payload_any now len a : ack_any a -> 40 <= len < 65536 ->
  exists payload, ack_payload now len a = Some payload /\ zlen payload <= len /\ wire_of a payload.
Proof.
  intros Ha Hl. unfold ack_payload. destruct (new_framer app_versions now IS_CLIENT) as [f|] eqn:Ef; [|done].
  cbn [mbind option_bind]. destruct (new_writer_written len NETWORK_BYTE_ORDER ltac:(lia)) as (W1 & W2 & W3).
  set (e := mkEnv (V := no_visitor) f tt (new_reader [] NETWORK_BYTE_ORDER) (new_writer len NETWORK_BYTE_ORDER)).
  assert (transport_version (version_ (fr e)) = QUIC_VERSION_43 /\
    use_incremental_ack_processing_ (fr e) = true) as [Et Ei] by (injection Ef as <-; done).
  assert (wlength (wr e) = 0) as Hw0 by (cbn; by rewrite wlength_ok, W1). assert (capacity (wr e) = len) as Hcap by done.
  destruct Ha as [(lo & l & Ha)|Ha].
  - destruct (append_ack_room (V := no_visitor) e a lo l Ei) as (w & n & Hn & Hn2 & Hn0 & E & Hw);
      [by rewrite Et|lia|change (2 ^ 31) with 2147483648; lia|].
    rewrite E. rewrite Et in Hw. destruct Hw as (Hw & Hwc & _). cbn [wr e] in Hw. rewrite W1, W3 in Hw. eexists. split; [reflexivity|].
    cbn [wr put_wr]. split; [|left; exists lo, l, n; by rewrite Hw].
    rewrite <- wlength_ok. pose proof (capacity_ok w). lia.
  - pose proof (emits_empty (V := no_visitor) e a) as Hem. cbv zeta in Hem. rewrite Et in Hem.
    specialize (Hem ltac:(rewrite v43; done) Ei Ha). unfold emits_at in Hem. rewrite Hw0, Hcap in Hem.
    pose proof (empty_wire_length QUIC_VERSION_43 (wendian (wr e)) a Ha) as Hwl. rewrite zlen_cons in Hem.
    rewrite (proj2 (Z.leb_le _ _)) in Hem by lia. destruct Hem as (w & E & Hw & _). cbn [wr e] in Hw.
    rewrite E. cbn [wr put_wr]. rewrite Hw, W1, W3. eexists. split; [reflexivity|]. cbn [app].
    cbn [wr e] in Hwl. rewrite W3 in Hwl. rewrite zlen_cons. split; [lia|]. by right.
Qed.

(** [ProcessFrameData] on a first frame: what is done with the rest is left to
    the caller. *)
Lemma first_frame (e : env (V := sender_visitor)) t bs : remaining (rd e) = t :: bs ->
  exists r n, remaining r = bs /\ rendian r = rendian (rd e) /\
    ProcessFrameData default_header e =
      (continue ← process_frame default_header t; if continue : bool then frame_loop n default_header else mret tt) (put_rd r e).
Proof.
  intros Hr. unfold ProcessFrameData, rd_get, mbind at 1, M_bind at 1.
  rewrite IsDoneReading_ok, Hr, bool_decide_false by done.
  unfold mbind at 1, M_bind at 1. rewrite BytesRemaining_ok, Hr, zlen_cons.
  pose proof (zlen_nonneg bs). replace (Z.to_nat (1 + zlen bs)) with (S (Z.to_nat (zlen bs))) by lia.
  cbn [frame_loop]. unfold rd_get, mbind at 1, M_bind at 1. rewrite IsDoneReading_ok, Hr, bool_decide_false by done.
  change (t :: bs) with ([t] ++ bs) in Hr.
  destruct (parses_bytes (fr e) (rendian (rd e)) [t] bs 1 eq_refl e eq_refl eq_refl Hr) as (r' & E1 & Hr1 & Hn1).
  exists r', (Z.to_nat (zlen bs)). split; [done|]. split; [done|].
  erewrite M_bind_ok by (unfold or_else; rewrite E1; reflexivity). reflexivity.
Qed.

(** The rest of a round, once the branch for ack frames is taken. *)
Lemma process_frame_is_ack header t (e : env (V := sender_visitor)) : let tv := transport_version (version_ (fr e)) in
  has_bits t kQuicFrameTypeSpecialMask = true -> is_stream_type tv t = false -> is_ack_type tv t = true ->
  process_frame header t e =
  (frame ← or_raise QUIC_INVALID_ACK_DATA (ProcessAckFrame t new_ack_frame);
   incremental ← gets use_incremental_ack_processing_;
   if incremental : bool then mret true else visit (OnAckFrame frame)) e.
Proof.
  intros tv Hsp Hst Hack. unfold process_frame, tversion. erewrite (M_bind_ok (gets _)) by reflexivity. fold tv.
  by rewrite Hsp, Hst, Hack.
Qed.

Lemma raise_quiet B error (e : env (V := sender_visitor)) : visitor_ (fr e) = true ->
  exists e', RaiseError (A := B) error e = (Fail, e') /\ vs e' = vs e.
Proof.
  intros Hv. unfold RaiseError, set_error, notify, visit. erewrite M_bind_ok by reflexivity.
  erewrite M_bind_ok by reflexivity. unfold mbind, M_bind. cbn [fr put_fr]. unfold put_error at 1. cbn [visitor_]. rewrite Hv.
  eexists. split; [reflexivity|done].
Qed.

(** A frame without intervals makes the manager hear of nothing, whether it is
    refused or not. *)
Lemma process_empty_frame (e : env (V := sender_visitor)) a :
  transport_version (version_ (fr e)) = QUIC_VERSION_43 -> visitor_ (fr e) = true ->
  use_incremental_ack_processing_ (fr e) = true -> empty_ack a ->
  remaining (rd e) = empty_type QUIC_VERSION_43 a :: empty_wire QUIC_VERSION_43 (rendian (rd e)) a ->
  exists r e', ProcessFrameData default_header e = (r, e') /\ r <> Stuck /\
    hears (acknowledges a) (sent_packet_manager_ (vs e)) (sent_packet_manager_ (vs e')).
Proof.
  intros Ht Hv Hinc Ha Hr. destruct (first_frame e _ _ Hr) as (r1 & n & Hr1 & Hn1 & ->).
  destruct (empty_lengths QUIC_VERSION_43 a Ha) as (_ & _ & _ & _ & _ & Hsp & Hst & Hack & _).
  pose proof (process_empty (V := sender_visitor) (fr e) (rendian (rd e)) a) as Hp. cbv zeta in Hp. rewrite Ht in Hp.
  specialize (Hp ltac:(by rewrite v43) Hv sender_polite Hinc Ha (put_rd r1 e) eq_refl Hn1 Hr1).
  pose proof (process_frame_is_ack default_header (empty_type QUIC_VERSION_43 a) (put_rd r1 e)) as Hf. cbv zeta in Hf.
  cbn [fr put_rd] in Hf. rewrite Ht in Hf. specialize (Hf Hsp Hst Hack).
  pose proof (hears_start (acknowledges a) (LargestAcked a) (ack_delay a) (vs e)) as Hs.
  destruct Hp as [(e' & E & Hv' & Evs)|(x & e' & E & Ef & Er & Evs)].
  - destruct (raise_quiet QuicAckFrame QUIC_INVALID_ACK_DATA e' Hv') as (e2 & E2 & Ev2).
    assert (process_frame default_header (empty_type QUIC_VERSION_43 a) (put_rd r1 e) = (Fail, e2)) as Ep
      by (rewrite Hf; unfold mbind at 1, M_bind at 1, or_raise, or_else; by rewrite E, E2).
    unfold mbind at 1, M_bind at 1. rewrite Ep. eexists _, _. split; [reflexivity|]. split; [done|].
    rewrite Ev2, Evs. exact Hs.
  - assert (process_frame default_header (empty_type QUIC_VERSION_43 a) (put_rd r1 e) = (Ok true, e')) as Ep.
    { rewrite Hf. unfold mbind at 1, M_bind at 1, or_raise, or_else. rewrite E.
      unfold gets, mbind, M_bind. by rewrite Ef, Hinc. }
    rewrite (M_bind_ok _ _ _ _ _ Ep). exists (Ok tt), e'. split_and!; [|done|].
    { destruct n; cbn [frame_loop]; unfold rd_get, mbind, M_bind; by rewrite IsDoneReading_ok, Er. }
    rewrite Evs. etrans; [exact Hs|]. apply (hears_range _ 1 1 true). intros k Hk. lia.
Qed.

Lemma wire_heard (e : env (V := sender_visitor)) a payload :
  transport_version (version_ (fr e)) = QUIC_VERSION_43 -> visitor_ (fr e) = true ->
  use_incremental_ack_processing_ (fr e) = true -> rendian (rd e) = NETWORK_BYTE_ORDER ->
  wire_of a payload -> remaining (rd e) = payload ->
  exists r e', ProcessFrameData default_header e = (r, e') /\ r <> Stuck /\
    hears (acknowledges a) (sent_packet_manager_ (vs e)) (sent_packet_manager_ (vs e')).
Proof.
  intros Ht Hv Hinc Hen [(lo & l & n & Ha & Hn & Hn2 & Hn0 & ->)|[Ha ->]] Hr.
  2:{ rewrite <- Hen in Hr. by apply process_empty_frame. }
  destruct (one_frame (V := sender_visitor) default_header e (ack_type QUIC_VERSION_43 a)
    (ack_wire QUIC_VERSION_43 NETWORK_BYTE_ORDER a n lo l) (ack_told (V := sender_visitor) a n lo l)) as (r & E).
  - apply (sh_type _ _ _ _ _ (ack_shape_ok QUIC_VERSION_43 a lo l n Ha Hn2 ltac:(lia))).
  - exact Hr.
  - pose proof (process_frame_ack (V := sender_visitor) (fr e) (rendian (rd e)) default_header a lo l n []) as Hp.
    cbv zeta in Hp. rewrite Ht, Hen in Hp. rewrite Hen. apply Hp; first [done|lia|apply sender_polite].
  - eexists _, _. split; [exact E|]. split; [done|]. by apply hears_ack_told.
Qed.

(** A datagram with a frame makes the manager hear of packets of that frame. *)
Lemma datagram_heard now p a n payload v : wire_of a payload -> zlen (quic_header n ++ payload) <= kMaxPacketSize ->
  exists v', process_datagram sender_visitor now p (quic_header n ++ payload) v = (Ok tt, v') /\
    hears (acknowledges a) (sent_packet_manager_ v) (sent_packet_manager_ v').
Proof.
  intros Hw Hz. set (d := quic_header n ++ payload) in *. pose proof (announced_header n payload) as Han. fold d in Han.
  assert (d <> []) as Hd by done. rewrite (process_datagram_eq sender_visitor now p d v Hd).
  pose proof (quic_header_len n) as Hh. pose proof (zlen_nonneg payload) as Hp.
  assert (fits d = true) as ->.
  { unfold fits. rewrite Han, !(proj2 (Z.leb_le _ _)); [done|unfold d; rewrite zlen_app; lia|done]. }
  destruct (wire_heard (framer_env sender_visitor now p d v) a payload) as (r & e' & E & Hr & Hh'); try done.
  - apply new_reader_endian.
  - change (rd _) with (new_reader (zdrop (1 + announced_length d) d) NETWORK_BYTE_ORDER).
    rewrite new_reader_remaining, Han, <- Hh. apply zdrop_app.
  - rewrite E. exists (vs e'). by destruct r.
Qed.

End Hearing.
