(* ===== verification/QuicSystem.v ===== *)
(** * A QUIC sender and a QUIC receiver with a network between them

    [MyQuicSender] and [MyQuicReceiver], each in its own world, and a network
    that loses, repeats, delays and reorders datagrams but makes none up.  The
    packet managers are the library's: what they are told of is their history,
    and the theorem compares the histories at both ends. *)

From S2P Require Import Prelude QuicTime Clock StdMap Platform FramerTypes FramerNumbers FramerAppend FramerProcess FramerPacket FramerWire FramerCodec FramerSafe FramerAck AppHeader Network QuicReceiver QuicSender QuicProps QuicAcks.
From stdpp Require Import relations.
Open Scope Z_scope.

Section System.
Context `{T : QuicTypes} `{Q : PacketQueueOps} `{A : !AckOps} `{C : CryptoOps} `{F : QuicFunctions}
  `{R : ReaderOps} `{W' : WriterOps} `{P : !ProducerOps} `{AV : AppVersion}
  `{RV : !ReaderView} `{WV : !WriterView} `{RO : !ReaderOk} `{WO : !WriterOk}
  `{PV : !ProducerView} `{PO : !ProducerOk P} `{TO : !QuicTypesOk T} `{FO : !QuicFunctionsOk F}
  `{QO : !PacketQueueOk Q} `{AO : !AckOk A}.
Context `{SP : !SentPackets} `{SH : !SentHistory} `{SPO : !SentPacketsOk}.
Context `{RM : !ReceivedPackets} `{RMO : !ReceivedPacketsOk}.
Context {W : Type} `{EP : Endpoint W}.
Context (v43 : QUIC_VERSION_43 = 43) (packet_size : 100 <= kMaxPacketSize <= 1500).
Local Abbreviation qsender := (@MyQuicSender Q SP W).
Local Abbreviation qreceiver := (@MyQuicReceiver Q RM W).

(** A manager's history at the receiver: the packets recorded.  While it tracks,
    the frames it hands out are fit for the wire and acknowledge only those. *)
Class ReceivedHistory := {
  rpm_history : RPM -> list Z;
  new_rpm_history : rpm_history new_rpm = [];
  record_history n t m : rpm_history (RecordPacketReceived n t m) = n :: rpm_history m;
  dont_wait_history n m : rpm_history (DontWaitForPacketsBefore n m) = rpm_history m;
  updated_history t m : rpm_history (GetUpdatedAckFrame t m).2 = rpm_history m;
  updated_tracks t m : tracks m -> tracks (GetUpdatedAckFrame t m).2;
  updated_any t m : tracks m -> ack_any (GetUpdatedAckFrame t m).1;
  updated_acks t m k : tracks m -> acknowledges (GetUpdatedAckFrame t m).1 k -> k ∈ rpm_history m
}.

Context `{RH : ReceivedHistory}.

(** ** States and steps *)

Record quic_system := mkQuicSystem { q_tx : qsender; q_rx : qreceiver }.

Definition told_sent (s : qsender) : list Z := (spm_history (qs_manager s)).1.
Definition told_acked (s : qsender) : list (Z * Z) := (spm_history (qs_manager s)).2.
Definition recorded (r : qreceiver) : list Z := rpm_history (recv_packet_manager_ r).
Definition qr_upd_world (w : W) (r : qreceiver) : qreceiver :=
  mkQuicReceiver (set_world w (net r)) (recv_packet_manager_ r) (acking r) (qr_seq r) (qr_base_seq r) (log r).

(** The calls of the mains before their loops. *)
Inductive q_tx_setup : M qsender unit -> Prop :=
  | q_duration ms : q_tx_setup (Quic_set_duration ms)
  | q_offset o : q_tx_setup (Quic_SetTimeOffset o)
  | q_record name : q_tx_setup (Quic_EnableRateRecord name).

Inductive q_rx_setup : M qreceiver unit -> Prop :=
  | q_rx_duration ms : q_rx_setup (Quic_receiver_set_duration ms)
  | q_rx_offset o : q_rx_setup (Quic_receiver_SetTimeOffset o)
  | q_rx_prefix name : q_rx_setup (Quic_SetRecordPrefix name)
  | q_rx_rate : q_rx_setup Quic_receiver_EnableRateRecord
  | q_rx_loss : q_rx_setup Quic_EnableLossRecord
  | q_rx_owd : q_rx_setup EnableOwdRecord.

Inductive quic_step : quic_system -> quic_system -> Prop :=
  | q_sender s r fuel b s' : Quic_Process fuel s = (Ok b, s') -> quic_step (mkQuicSystem s r) (mkQuicSystem s' r)
  | q_receiver s r b r' : Quic_receiver_Process r = (Ok b, r') -> quic_step (mkQuicSystem s r) (mkQuicSystem s r')
  | q_set_tx s r m s' : q_tx_setup m -> m s = (Ok tt, s') -> quic_step (mkQuicSystem s r) (mkQuicSystem s' r)
  | q_set_rx s r m r' : q_rx_setup m -> m r = (Ok tt, r') -> quic_step (mkQuicSystem s r) (mkQuicSystem s r')
  | q_data s r w : brings (qs_world s) (qr_world (net r)) w ->
      quic_step (mkQuicSystem s r) (mkQuicSystem s (qr_upd_world w r))
  | q_acks s r w : brings (qr_world (net r)) (qs_world s) w ->
      quic_step (mkQuicSystem s r) (mkQuicSystem (qs_upd_world w s) r).

Inductive quic_start : quic_system -> Prop :=
  quic_start_intro w v peer peer' p : sent w = [] -> arrived w = [] -> sent v = [] -> arrived v = [] ->
    quic_start (mkQuicSystem (new_quic_sender w peer p) (new_quic_receiver v peer')).

Definition quic_reachable (c : quic_system) : Prop := exists c0, quic_start c0 /\ rtc quic_step c0 c.

(** ** What is under way *)

(** A data packet or a stop-waiting frame; the numbers of data packets in [X]. *)
Definition carried (X : Z -> Prop) (d : list Z) : Prop :=
  exists n tail, in_u 32 n /\
    (X n /\ d = quic_header n ++ STREAM_FRAME :: tail \/ d = quic_header n ++ STOP_WAITING_FRAME :: tail).

(** An acknowledgement of packets in [I] only. *)
Definition answered (I : Z -> Prop) (d : list Z) : Prop :=
  exists a n payload, wire_of a payload /\ (forall k, acknowledges a k -> I k) /\
    d = quic_header n ++ payload /\ zlen d <= kMaxPacketSize.

Lemma carried_more (X X' : Z -> Prop) d : (forall n, X n -> X' n) -> carried X d -> carried X' d.
Proof. intros H (n & tail & Hn & [[HX Hd]|Hd]); exists n, tail; auto. Qed.

Lemma answered_more (I I' : Z -> Prop) d : (forall n, I n -> I' n) -> answered I d -> answered I' d.
Proof. intros H (a & n & payload & Hw & Hk & Hd). exists a, n, payload. auto. Qed.

Lemma carried_cut X d : carried X d -> carried X (ztake 1500 d).
Proof.
  intros (n & tail & Hn & Hd). exists n, (ztake (1499 - zlen (quic_header n)) tail). split; [done|].
  pose proof (quic_header_len n) as Hl. pose proof (min_seq_length_range n) as Hr.
  assert (forall t, ztake 1500 (quic_header n ++ t :: tail) = quic_header n ++ t :: ztake (1499 - zlen (quic_header n)) tail) as E.
  { intros t. unfold ztake, zlen in *. rewrite take_app, take_ge by lia. f_equal.
    replace (Z.to_nat 1500 - length (quic_header n))%nat with (S (Z.to_nat (1499 - Z.of_nat (length (quic_header n))))) by lia.
    done. }
  destruct Hd as [[HX ->]| ->]; rewrite E; auto.
Qed.

Lemma answered_cut I d : answered I d -> ztake 1500 d = d.
Proof. intros (a & n & payload & _ & _ & _ & Hd). apply ztake_all. lia. Qed.

(** ** The sender's side *)

Record qtx_inv (I : Z -> Prop) (s : qsender) : Prop := {
  qtx_seq : in_u 32 (qs_seq s);
  qtx_acked : forall a b k, (a, b) ∈ told_acked s -> a <= k < b -> I k;
  qtx_sent : Forall (carried (.∈ told_sent s)) (sent (qs_world s));
  qtx_arrived : Forall (answered I) (arrived (qs_world s))
}.

(** What is known to be sent grows. *)
Definition q_more (s s' : qsender) : Prop := told_sent s ⊆ told_sent s'.

#[local] Instance q_more_preorder : PreOrder q_more.
Proof. unfold q_more. split; [intros s; reflexivity|]. intros s1 s2 s3 H1 H2. by etrans. Qed.

Definition qs_quiet (s s' : qsender) : Prop :=
  qs_seq s' = qs_seq s /\ spm_history (qs_manager s') = spm_history (qs_manager s) /\
  untouched (qs_world s) (qs_world s').

#[local] Instance qs_quiet_preorder : PreOrder qs_quiet.
Proof.
  split; [by intros s|]. intros s s1 s2 (E1 & E2 & E3) (F1 & F2 & F3). split; [congruence|]. split; [congruence|by etrans].
Qed.

Lemma qs_quiet_inv I s s' : qs_quiet s s' -> qtx_inv I s -> qtx_inv I s' /\ q_more s s'.
Proof.
  intros (E1 & E2 & E3 & E4) [H1 H2 H3 H4]. unfold q_more, told_sent, told_acked in *. rewrite E2. split; [|done].
  split; unfold told_sent, told_acked; rewrite ?E2; [by rewrite E1|done|by rewrite E3|by eapply Forall_subseteq].
Qed.

Lemma qs_quiet_keeps I {X} (m : M qsender X) : always qs_quiet m -> completes (qtx_inv I) q_more m.
Proof. intros Hm. eapply always_completes; [exact Hm|]. intros s s' H Hs. by apply qs_quiet_inv. Qed.

Lemma quiet_now : always qs_quiet qs_now.
Proof.
  intros s. unfold qs_now, mbind, M_bind, mget, mmodify, mret, M_ret.
  pose proof (clock_quiet (qs_world s)). destruct (SysClock_Now (qs_world s)) as [t w]. by exists t, (qs_upd_world w s).
Qed.

#[local] Hint Resolve quiet_now : completes.

Lemma quiet_setup m : q_tx_setup m -> always qs_quiet m.
Proof.
  destruct 1; [unfold Quic_set_duration; always_steps|unfold Quic_SetTimeOffset; always_steps|].
  intros s. unfold Quic_EnableRateRecord, mbind, M_bind, mget, mmodify, mret, M_ret.
  pose proof (files_quiet (name +:+ "-rate.txt") (qs_world s)). destruct (grant_open _ _). by eexists _, _.
Qed.

Lemma quiet_rate now : always qs_quiet (Quic_RecordRate now).
Proof. unfold Quic_RecordRate. always_steps. Qed.

(** *** Sending *)

(** Whatever becomes of it, a write extends what is written. *)
Lemma writes_extend ok op bs w : writes_if ok op bs -> exists tail, wext w tail (op w).2.
Proof.
  intros H. specialize (H w). destruct (ok && _).
  - destruct H as (w' & -> & Hw). by eexists.
  - destruct H as (w' & part & -> & Hw & _). by eexists.
Qed.

(** Header and type at the head of a packet-sized buffer. *)
Lemma typed_header n type :
  let w := write_header (app_flags (GetMinSeqLength n)) (GetMinSeqLength n) n (new_writer kMaxPacketSize NETWORK_BYTE_ORDER) in
  written (WriteBytes [type] w).2 = quic_header n ++ [type].
Proof.
  intros w. pose proof (min_seq_length_range n).
  destruct (write_header_ok kMaxPacketSize (app_flags (GetMinSeqLength n)) (GetMinSeqLength n) n) as (E1 & E2 & E3); [lia..|].
  fold w in E1, E2, E3. pose proof (capacity_ok w).
  destruct (writes_app true (WriteBytes [type]) _ w (WriteBytes_ok _) eq_refl) as (w1 & -> & V & _).
  - rewrite wlength_ok, E1, E2. fold (quic_header n). rewrite quic_header_len, zlen_cons, zlen_nil. lia.
  - cbn [snd]. by rewrite V, E1.
Qed.

Lemma stream_buffer_packet n now : exists tail, stream_buffer n now = quic_header n ++ STREAM_FRAME :: tail.
Proof.
  unfold stream_buffer. cbv zeta. set (w := write_header _ _ _ _). pose proof (typed_header n STREAM_FRAME) as E.
  cbv zeta in E. fold w in E. set (w1 := (WriteBytes [STREAM_FRAME] w).2) in *.
  match goal with |- context [WriteUInt32 ?t w1] => destruct (writes_extend true (WriteUInt32 t) _ w1 (WriteUInt32_ok t)) as (tl & Hw & _) end.
  rewrite Hw, E, <- !app_assoc. by eexists.
Qed.

Lemma stop_waiting_packet n least : exists tail, stop_waiting_buffer n least = quic_header n ++ STOP_WAITING_FRAME :: tail.
Proof.
  unfold stop_waiting_buffer. cbv zeta. set (w := write_header _ _ _ _). pose proof (typed_header n STOP_WAITING_FRAME) as E.
  cbv zeta in E. fold w in E. set (w1 := (WriteBytes [STOP_WAITING_FRAME] w).2) in *. pose proof (min_seq_length_range n).
  assert (0 <= GetMinSeqLength n <= 8) as Hn by lia.
  destruct (writes_extend true (WriteBytesToUInt64 (GetMinSeqLength n) least) _ w1 (WriteBytesToUInt64_ok _ least Hn))
    as (tl & Hw & Hc & _).
  set (w2 := (WriteBytesToUInt64 _ _ _).2) in *.
  assert (capacity w2 = kMaxPacketSize) as Hcap.
  { rewrite Hc. destruct (writes_extend true (WriteBytes [STOP_WAITING_FRAME]) _ w (WriteBytes_ok _)) as (tl' & _ & Hc' & _).
    fold w1 in Hc'. rewrite Hc'. apply write_header_ok; lia. }
  pose proof (capacity_ok w2) as Hl. rewrite wlength_ok in *. pose proof (zlen_nonneg (written w2)).
  rewrite wrap_id by (unfold_int; lia). rewrite ztake_all by lia. rewrite Hw, E, <- !app_assoc. by eexists.
Qed.

(** A data packet sent and its number told to the manager. *)
Lemma qtx_tracked I (s s' : qsender) w d : qtx_inv I s -> untouched (qs_world s) w ->
  (exists tail, d = quic_header (qs_seq s) ++ STREAM_FRAME :: tail) ->
  untouched (SendTo (qs_peer s) d w).2 (qs_world s') ->
  spm_history (qs_manager s') = (qs_seq s :: told_sent s, told_acked s) -> in_u 32 (qs_seq s') ->
  qtx_inv I s' /\ q_more s s'.
Proof.
  intros [H1 H2 H3 H4] [U1 U2] [tail Hd] [S1 S2] Hm Hs. pose proof (send_sends (qs_peer s) d w) as [Z1 Z2].
  unfold q_more. assert (told_sent s' = qs_seq s :: told_sent s) as Et by (unfold told_sent at 1; by rewrite Hm).
  split; [|rewrite Et; intros k Hin; by right]. split; [done|unfold told_acked in *; by rewrite Hm| |].
  - rewrite S1. eapply Forall_subseteq; [exact Z1|]. rewrite U1. constructor.
    + exists (qs_seq s), tail. split; [done|]. left. split; [rewrite Et; by left|done].
    + eapply Forall_impl; [exact H3|]. intros d'. apply carried_more. intros n Hn. rewrite Et. by right.
  - eapply Forall_subseteq; [|exact H4]. etrans; [exact S2|]. by etrans.
Qed.

Lemma sends_fake I : completes (qtx_inv I) q_more Quic_SendFakePacket.
Proof.
  intros s Hs. unfold Quic_SendFakePacket, Quic_OnPacketSent, qs_spm, qs_send, qs_now, mbind, M_bind, mget, mmodify, mret, M_ret.
  pose proof (clock_quiet (qs_world s)) as Hc. destruct (SysClock_Now (qs_world s)) as [t w]. cbn [fst snd] in Hc.
  cbn [qs_upd_world qs_world qs_peer].
  pose proof (clock_quiet (SendTo (qs_peer s) (stream_buffer (qs_seq s) t) w).2) as Hc2.
  destruct (SysClock_Now (SendTo _ _ _).2) as [t2 w2]. cbn [fst snd] in Hc2. eexists tt, _. split; [reflexivity|].
  eapply (qtx_tracked I s _ w); [done|done|apply stream_buffer_packet|exact Hc2| |apply (wrap_range 32); lia].
  unfold qs_manager. cbn. by rewrite sent_history.
Qed.

Lemma sends_again I pending : completes (qtx_inv I) q_more (Quic_OnRetransPacket pending).
Proof.
  intros s Hs. unfold Quic_OnRetransPacket, qs_spm, qs_send, qs_now, mbind, M_bind, mget, mmodify, mret, M_ret.
  pose proof (clock_quiet (qs_world s)) as Hc. destruct (SysClock_Now (qs_world s)) as [t w]. cbn [fst snd] in Hc.
  eexists tt, _. split; [reflexivity|].
  eapply (qtx_tracked I s _ w); [done|done|apply stream_buffer_packet|split; [done|cbn; reflexivity]| |apply (wrap_range 32); lia].
  unfold qs_manager. cbn. by rewrite sent_history.
Qed.

Lemma sends_stop_waiting I : completes (qtx_inv I) q_more Quic_SendStopWaitingFrame.
Proof.
  intros s [H1 H2 H3 H4]. eexists tt, _. split; [reflexivity|]. split; [|unfold q_more; reflexivity].
  split; [done|done| |].
  all: cbn [qs_world qs_upd_world qs_upd_acks qs_peer].
  all: match goal with |- context [SendTo ?a ?d ?w] => pose proof (send_sends a d w) as [Z1 Z2] end.
  - eapply Forall_subseteq; [exact Z1|]. constructor; [|done].
    destruct (stop_waiting_packet (qs_seq s) (GetLeastUnacked (reset_stop_waiting (acks s)))) as [tail E].
    exists (qs_seq s), tail. split; [done|]. right. exact E.
  - by eapply Forall_subseteq.
Qed.

(** *** Hearing *)

Lemma hears_datagram I d : answered I d -> completes (qtx_inv I) q_more (Quic_OnIncomingData d).
Proof.
  intros (a & n & payload & Hw & Hk & -> & Hz) s Hs. pose proof (Quic_OnIncomingData_eq (quic_header n ++ payload) s) as E.
  pose proof (clock_quiet (qs_world s)) as Hc. destruct (SysClock_Now (qs_world s)) as [t w]. cbn [fst snd] in Hc.
  destruct (datagram_heard v43 t (pespective_ s) a n payload (stamped t (acks s)) Hw Hz) as (v & Ev & Hh).
  rewrite Ev in E. eexists tt, _. split; [exact E|]. destruct Hh as (Eh & new & En & Hnew).
  change (sent_packet_manager_ (stamped t (acks s))) with (qs_manager s) in *.
  destruct Hs as [H1 H2 H3 H4]. destruct Hc as [C1 C2].
  assert (told_sent (qs_upd_acks v (qs_upd_world w s)) = told_sent s) as Et by exact Eh.
  split; [|unfold q_more; by rewrite Et]. split; [done| | |].
  - intros x y k. unfold told_acked at 1. change (qs_manager (qs_upd_acks v _)) with (sent_packet_manager_ v). rewrite En.
    intros [Hin|Hin]%elem_of_app Hk'; [eauto|by eapply H2].
  - rewrite Et. cbn. by rewrite C1.
  - by eapply Forall_subseteq.
Qed.

(** *** A round *)

(** What follows the retransmissions. *)
Definition qs_finish (now : QuicTime) (ret : bool) : M qsender bool :=
  s ← mget;
  (if 2 <? stop_waiting_count_ (acks s) then Quic_SendStopWaitingFrame else mret tt);;
  Quic_RecordRate now;;
  mret ret.

Lemma finishes I now ret : completes (qtx_inv I) q_more (qs_finish now ret).
Proof.
  apply completes_get. intros s Hs.
  assert (completes (qtx_inv I) q_more (if 2 <? stop_waiting_count_ (acks s) then Quic_SendStopWaitingFrame else mret tt)) as H
    by (destruct (2 <? _); [apply sends_stop_waiting|by apply completes_ret, _]).
  refine (completes_bind _ _ _ _ H _ s Hs). intros _.
  apply completes_bind; [exact _|by apply qs_quiet_keeps, quiet_rate|]. intros _. by apply completes_ret, _.
Qed.

(** What comes before them. *)
Lemma qs_front I s : qtx_inv I s -> exists now ret s1,
  (forall fuel, Quic_Process fuel s = (Quic_SendRetransmission fuel;; qs_finish now ret) s1) /\ qtx_inv I s1 /\ q_more s s1.
Proof.
  intros Hs. destruct (qs_quiet_keeps I _ quiet_now s Hs) as (now & s1 & E1 & I1 & L1).
  assert (completes (qtx_inv I) q_more (if delta_eq (spm_TimeUntilSend now (sent_packet_manager_ (acks s1))) Delta_Zero then
     Quic_SendFakePacket;; mmodify (fun s => qs_upd_counter (u32 (counter_ s + 1)) s) else mret tt)) as H2.
  { destruct (delta_eq _ _); [|by apply completes_ret, _]. apply completes_bind; [exact _|apply sends_fake|].
    intros _. apply qs_quiet_keeps, always_modify. intros x. by split_and!. }
  destruct (H2 s1 I1) as ([] & s2 & E2 & I2 & L2).
  pose proof (recv_quiet 1500 (qs_world s2)) as Hq. pose proof (recv_arrived 1500 (qs_world s2)) as Hd.
  destruct (RecvFrom 1500 (qs_world s2)) as [[n d] w] eqn:Er. cbn [fst snd] in Hq, Hd.
  destruct (qs_quiet_inv I s2 (qs_upd_world w s2)) as [I3 L3]; [by split_and!|done|].
  assert (completes (qtx_inv I) q_more (match (if 0 <? n then d else None) with
    | Some (_, bytes) => Quic_OnIncomingData bytes | None => mret tt end)) as H4.
  { destruct (0 <? n); [|by apply completes_ret, _]. destruct d as [[a bytes]|]; [|by apply completes_ret, _].
    destruct (Hd a bytes eq_refl) as (d0 & Hin & ->). pose proof (qtx_arrived _ _ I2) as Hf.
    rewrite Forall_forall in Hf. specialize (Hf d0 Hin). rewrite (answered_cut _ _ Hf). by apply hears_datagram. }
  destruct (H4 _ I3) as ([] & s4 & E4 & I4 & L4).
  eexists now, _, s4. split; [intros fuel|split; [done|by repeat (etrans; [eassumption|])]].
  unfold Quic_Process. rewrite (M_bind_ok _ _ _ _ _ E1), (M_bind_ok mget _ _ s1 s1) by done. cbv beta.
  rewrite (M_bind_ok _ _ _ _ _ E2), (M_bind_ok mget _ _ s2 s2) by done. cbv beta. rewrite Er.
  rewrite (M_bind_ok (mmodify _) _ s2 tt (qs_upd_world w s2)) by done.
  rewrite (M_bind_ok _ _ _ _ _ E4), (M_bind_ok mget _ _ s4 s4) by done. reflexivity.
Qed.

(** With enough fuel a round completes; whatever the fuel, it keeps the
    invariant. *)
Lemma qs_round I s : qtx_inv I s -> exists enough, forall fuel, exists r s',
  Quic_Process fuel s = (r, s') /\ qtx_inv I s' /\ q_more s s' /\ ((enough <= fuel)%nat -> exists b, r = Ok b).
Proof.
  intros Hs. destruct (qs_front I s Hs) as (now & ret & s1 & E1 & I1 & L1).
  destruct (quiet_now s1) as (t & s2 & E2 & Q2). destruct (qs_quiet_inv I _ _ Q2 I1) as [I2 L2].
  exists (pending_count (qs_manager s2)). intros fuel.
  destruct (quic_retrans_rule (fun s' => qtx_inv I s' /\ q_more s2 s') t) with (fuel := fuel) (s := s2)
    as (r & s3 & E3 & [I3 L3] & Hr).
  { intros x y [Hx Lx] _ E _. destruct (sends_again I (NextPendingRetransmission (qs_manager x)) x Hx) as (u & y' & E' & Iy & Ly). rewrite E in E'.
    injection E' as _ <-. split; [done|by etrans]. }
  { split; [done|unfold q_more; reflexivity]. }
  assert (q_more s s3) as L by (by repeat (etrans; [eassumption|])).
  assert (Quic_SendRetransmission fuel s1 = (r, s3)) as E by (unfold Quic_SendRetransmission; by rewrite (M_bind_ok _ _ _ _ _ E2)).
  rewrite E1. destruct Hr as [[-> _]|[-> Hlt]].
  - rewrite (M_bind_ok _ _ _ _ _ E). destruct (finishes I now ret s3 I3) as (b & s4 & E4 & I4 & L4).
    exists (Ok b), s4. split; [done|]. split; [done|]. split; [by etrans|]. by exists b.
  - rewrite (M_bind_fail _ _ _ _ E). exists Fail, s3. split; [done|]. split; [done|]. split; [done|]. lia.
Qed.

(** ** The receiver's side *)

Record qrx_inv (X : Z -> Prop) (r : qreceiver) : Prop := {
  qrx_tracks : tracks (recv_packet_manager_ r);
  qrx_recorded : Forall X (recorded r);
  qrx_sent : Forall (answered (.∈ recorded r)) (sent (qr_world (net r)));
  qrx_arrived : Forall (carried X) (arrived (qr_world (net r)))
}.

Definition qr_more (r r' : qreceiver) : Prop := recorded r ⊆ recorded r'.

#[local] Instance qr_more_preorder : PreOrder qr_more.
Proof. unfold qr_more. split; [intros r; reflexivity|]. intros r1 r2 r3 H1 H2. by etrans. Qed.

Definition qr_quiet (r r' : qreceiver) : Prop :=
  recv_packet_manager_ r' = recv_packet_manager_ r /\ untouched (qr_world (net r)) (qr_world (net r')).

#[local] Instance qr_quiet_preorder : PreOrder qr_quiet.
Proof. split; [by intros r|]. intros r r1 r2 (E1 & E2) (F1 & F2). split; [congruence|by etrans]. Qed.

Lemma qr_quiet_inv X r r' : qr_quiet r r' -> qrx_inv X r -> qrx_inv X r' /\ qr_more r r'.
Proof.
  intros (E1 & E2 & E3) [H1 H2 H3 H4]. unfold qr_more, recorded in *. rewrite E1. split; [|done].
  split; unfold recorded; rewrite ?E1; [done|done|by rewrite E2|by eapply Forall_subseteq].
Qed.

Lemma qr_calm_keeps X {Y} (m : M qreceiver Y) : always qr_quiet m -> completes (qrx_inv X) qr_more m.
Proof. intros Hm. eapply always_completes; [exact Hm|]. intros r r' H Hr. by apply qr_quiet_inv. Qed.

Lemma qr_calm_now : always qr_quiet qr_now.
Proof.
  intros r. unfold qr_now, upd_net, mbind, M_bind, mget, mmodify, mret, M_ret.
  pose proof (clock_quiet (qr_world (net r))). destruct (SysClock_Now _) as [t w]. by exists t, (qr_upd_world w r).
Qed.

Lemma qr_calm_open suffix : always qr_quiet (qr_open suffix).
Proof.
  intros r. unfold qr_open, upd_net, mbind, M_bind, mget, mmodify, mret, M_ret.
  pose proof (files_quiet (qr_prefix (log r) +:+ suffix) (qr_world (net r))).
  destruct (grant_open _ _) as [g w]. by exists g, (qr_upd_world w r).
Qed.

#[local] Hint Resolve qr_calm_now qr_calm_open : completes.

Lemma qr_calm_setup m : q_rx_setup m -> always qr_quiet m.
Proof.
  destruct 1; unfold Quic_receiver_set_duration, Quic_receiver_SetTimeOffset, Quic_SetRecordPrefix,
    Quic_receiver_EnableRateRecord, Quic_EnableLossRecord, EnableOwdRecord; always_steps.
Qed.

Lemma qr_calm_loss n : always qr_quiet (Quic_RecordLoss n).
Proof. unfold Quic_RecordLoss. cbv zeta. always_steps. Qed.

#[local] Hint Resolve qr_calm_loss : completes.

Lemma qr_calm_losses n : forall i, always qr_quiet (quic_record_losses n i).
Proof. induction n as [|n IH]; intros i; cbn [quic_record_losses]; always_steps. Qed.

Lemma qr_calm_rate now : always qr_quiet (Quic_receiver_RecordRate now).
Proof. unfold Quic_receiver_RecordRate. cbv zeta. always_steps. Qed.

Lemma qr_calm_owd n owd : always qr_quiet (RecordOnewayDelay n owd).
Proof. unfold RecordOnewayDelay. always_steps. Qed.

#[local] Hint Resolve qr_calm_losses qr_calm_rate qr_calm_owd : completes.

Lemma qr_calm_connect remote now : always qr_quiet (upd_net (qr_connect remote now)).
Proof. apply always_modify. intros r. split; [done|]. cbn. unfold qr_connect. by destruct (qr_first _). Qed.

#[local] Hint Resolve qr_calm_connect : completes.

(** *** Answering *)

Lemma answers X : completes (qrx_inv X) qr_more Quic_SendAck.
Proof.
  intros r Hr. destruct (qr_calm_keeps X _ qr_calm_now r Hr) as (now & r1 & E1 & I1 & L1).
  unfold Quic_SendAck. rewrite (M_bind_ok _ _ _ _ _ E1), (M_bind_ok mget _ _ r1 r1) by done. cbv beta zeta.
  destruct I1 as [H1 H2 H3 H4]. set (m := recv_packet_manager_ r1) in *. pose proof (updated_history now m) as Hh.
  pose proof (updated_tracks now m H1) as Ht. pose proof (updated_any now m H1) as Ha.
  pose proof (fun k => updated_acks now m k H1) as Hk.
  destruct (GetUpdatedAckFrame now m) as [a m']. cbn [fst snd] in Hh, Ht, Ha, Hk.
  rewrite (M_bind_ok (upd_rpm _) _ r1 tt (mkQuicReceiver (net r1) m' (acking r1) (qr_seq r1) (qr_base_seq r1) (log r1))) by done.
  pose proof (min_seq_length_range (qr_seq r1)) as Hl. rewrite (wrap_id 32 (1 + _)) by (unfold_int; lia).
  rewrite (wrap_id 32 (kMaxPacketSize - _)) by (unfold_int; lia).
  assert (40 <= kMaxPacketSize - (1 + GetMinSeqLength (qr_seq r1)) < 65536) as Hroom by lia.
  destruct (ack_payload_any v43 now _ a Ha Hroom) as (payload & -> & Hz & Hw).
  destruct (write_header_ok (1 + GetMinSeqLength (qr_seq r1)) (app_flags (GetMinSeqLength (qr_seq r1)))
    (GetMinSeqLength (qr_seq r1)) (qr_seq r1)) as (-> & _ & _); [lia..|]. fold (quic_header (qr_seq r1)).
  eexists tt, _. split; [reflexivity|].
  unfold qr_more, recorded in *. cbn. rewrite Hh. split; [|exact L1].
  match goal with |- context [SendTo ?p ?d ?w] => pose proof (send_sends p d w) as [Z1 Z2] end.
  split; unfold recorded; cbn; rewrite ?Hh; [done|done| |by eapply Forall_subseteq].
  eapply Forall_subseteq; [exact Z1|]. constructor; [|done].
  exists a, (qr_seq r1), payload. split; [done|]. split; [done|]. split; [done|].
  change (zlen (quic_header (qr_seq r1) ++ payload) <= kMaxPacketSize). rewrite zlen_app, quic_header_len. lia.
Qed.

Lemma maybe_answers X : completes (qrx_inv X) qr_more MaybeSendAck.
Proof.
  apply completes_get. intros r Hr. refine (completes_bind _ _ _ _ _ _ r Hr); [apply qr_calm_keeps; always_steps|].
  intros b. destruct b; [apply answers|by apply completes_ret, _].
Qed.

(** *** Receiving *)

Lemma records (X : Z -> Prop) n t : X n -> trackable n -> completes (qrx_inv X) qr_more (upd_rpm (RecordPacketReceived n t)).
Proof.
  intros Hn Ht. apply completes_modify. intros r [H1 H2 H3 H4]. unfold qr_more, recorded in *. cbn. rewrite record_history.
  split; [|intros k Hk; by right]. split; unfold recorded; cbn; rewrite ?record_history; [|by constructor| |done].
  - by apply heard_tracks, record_heard.
  - eapply Forall_impl; [exact H3|]. intros d. apply answered_more. intros k Hk. by right.
Qed.

Lemma dont_waits X n : completes (qrx_inv X) qr_more (upd_rpm (DontWaitForPacketsBefore n)).
Proof.
  apply completes_modify. intros r [H1 H2 H3 H4]. unfold qr_more, recorded in *. cbn. rewrite dont_wait_history.
  split; [|done]. split; unfold recorded; cbn; rewrite ?dont_wait_history; [|done..]. by apply dont_wait_tracks.
Qed.

Lemma receives_stream (X : Z -> Prop) n len reader : X n -> trackable n -> completes (qrx_inv X) qr_more (OnStreamPacket n len reader).
Proof.
  intros Hn Ht. unfold OnStreamPacket. cbv zeta.
  repeat first [ solve [apply qr_calm_keeps; auto with completes] | by apply records
    | apply completes_bind; [exact _| |intros] | solve [apply qr_calm_keeps; always_steps] ].
  match goal with |- completes _ _ (if ?b then _ else _) => destruct b end; [apply maybe_answers|by apply completes_ret, _].
Qed.

Lemma receives X d : carried X d -> completes (qrx_inv X) qr_more (Quic_receiver_OnIncomingData d).
Proof.
  intros (n & tail & Hn & Hd) r Hr. unfold in_u in Hn. change (2 ^ 32) with 4294967296 in Hn.
  assert (in_u 48 n) as Hn48 by (unfold in_u; change (2 ^ 48) with 281474976710656; lia).
  assert (trackable n) as Ht by (unfold trackable; change (2 ^ 48) with 281474976710656; lia).
  assert (forall t, (t = STREAM_FRAME /\ X n \/ t = STOP_WAITING_FRAME) -> d = quic_header n ++ t :: tail ->
    exists a r', Quic_receiver_OnIncomingData d r = (Ok a, r') /\ qrx_inv X r' /\ qr_more r r') as H.
  { intros t Hkind ->. destruct (OnIncomingData_type n t tail r Hn48) as (rd & ->).
    match goal with |- exists a r', ?m r = _ /\ _ => assert (completes (qrx_inv X) qr_more m) as Hm end; [|by apply Hm].
    apply completes_bind; [exact _| |intros _].
    - destruct (t =? STREAM_FRAME) eqn:Et; [|by apply completes_ret, _]. apply receives_stream; [|done].
      destruct Hkind as [[_ HX]| ->]; [done|]. rewrite Z.eqb_sym, stop_not_stream in Et. done.
    - destruct (t =? STOP_WAITING_FRAME); [apply dont_waits|by apply completes_ret, _]. }
  destruct Hd as [[HX Hd]|Hd]; [apply (H STREAM_FRAME)|apply (H STOP_WAITING_FRAME)]; auto.
Qed.

Lemma qr_round X : completes (qrx_inv X) qr_more Quic_receiver_Process.
Proof.
  apply completes_get. intros r Hr. pose proof (recv_quiet 1500 (qr_world (net r))) as Hq.
  pose proof (recv_arrived 1500 (qr_world (net r))) as Hd.
  destruct (RecvFrom 1500 (qr_world (net r))) as [[n d] w]. cbn [fst snd] in Hq, Hd.
  destruct (qr_quiet_inv X r (qr_upd_world w r)) as [I1 L1]; [by split|done|].
  rewrite (M_bind_ok (upd_net _) _ r tt (qr_upd_world w r)) by done.
  match goal with |- exists a r', ?m _ = _ /\ _ => assert (completes (qrx_inv X) qr_more m) as Hm end.
  2:{ destruct (Hm _ I1) as (a & r' & E & I2 & L2). exists a, r'. split; [done|]. split; [done|by etrans]. }
  apply completes_bind; [exact _|by apply qr_calm_keeps, qr_calm_now|]. intros now.
  apply completes_bind; [exact _| |intros _].
  { destruct (0 <? n); [|by apply completes_ret, _]. destruct d as [[a bytes]|]; [|by apply completes_ret, _].
    destruct (Hd a bytes eq_refl) as (d0 & Hin & ->). pose proof (qrx_arrived _ _ Hr) as Hf.
    rewrite Forall_forall in Hf. specialize (Hf d0 Hin).
    repeat (apply completes_bind; [exact _|apply qr_calm_keeps; always_steps|intros _]). by apply receives, carried_cut. }
  apply completes_get. intros r2 H2. refine (completes_bind _ _ _ _ _ _ r2 H2); [by apply qr_calm_keeps, qr_calm_now|].
  intros now2. apply completes_get. intros r3 H3. destruct (alarm_IsExpired _ _) as [expired alarm].
  refine (completes_bind _ _ _ _ _ _ r3 H3); [apply qr_calm_keeps; always_steps|]. intros _.
  apply completes_bind; [exact _| |intros _; by apply completes_ret, _].
  destruct expired; [apply answers|by apply completes_ret, _].
Qed.

(** ** Every reachable state *)

Definition quic_inv (c : quic_system) : Prop :=
  qtx_inv (.∈ recorded (q_rx c)) (q_tx c) /\ qrx_inv (.∈ told_sent (q_tx c)) (q_rx c).

Lemma qtx_more (I I' : Z -> Prop) s : (forall k, I k -> I' k) -> qtx_inv I s -> qtx_inv I' s.
Proof.
  intros H [H1 H2 H3 H4]. split; [done|by eauto|done|]. eapply Forall_impl; [exact H4|]. intros d. by apply answered_more.
Qed.

Lemma qrx_more (X X' : Z -> Prop) r : (forall k, X k -> X' k) -> qrx_inv X r -> qrx_inv X' r.
Proof.
  intros H [H1 H2 H3 H4]. split; [done|by eapply Forall_impl|done|].
  eapply Forall_impl; [exact H4|]. intros d. by apply carried_more.
Qed.

(** A step of one side keeps the other side's part. *)
Lemma sender_stepped s s' r : qtx_inv (.∈ recorded r) s' /\ q_more s s' -> qrx_inv (.∈ told_sent s) r -> quic_inv (mkQuicSystem s' r).
Proof. intros [H L] Hr. split; [done|]. eapply qrx_more; [|exact Hr]. intros k. apply L. Qed.

Lemma receiver_stepped s r r' : qrx_inv (.∈ told_sent s) r' /\ qr_more r r' -> qtx_inv (.∈ recorded r) s -> quic_inv (mkQuicSystem s r').
Proof. intros [H L] Hs. split; [|done]. eapply qtx_more; [|exact Hs]. intros k. apply L. Qed.

(** What a computation returns from a state is what the rule says of it. *)
Lemma completed {St X} (I : St -> Prop) (L : St -> St -> Prop) (m : M St X) s a s' :
  completes I L m -> I s -> m s = (Ok a, s') -> I s' /\ L s s'.
Proof. intros Hm Hs E. destruct (Hm s Hs) as (b & s2 & E2 & H). rewrite E in E2. by injection E2 as _ <-. Qed.

Lemma quic_step_inv c c' : quic_step c c' -> quic_inv c -> quic_inv c'.
Proof.
  intros Hstep [Ht Hr].
  destruct Hstep as [s r fuel b s' E|s r b r' E|s r m s' Hm E|s r m r' Hm E|s r w Hw|s r w Hw]; cbn [q_tx q_rx] in *.
  - eapply sender_stepped; [|exact Hr]. destruct (qs_round _ s Ht) as (n & H). destruct (H fuel) as (x & s2 & E2 & I2 & L2 & _).
    rewrite E in E2. by injection E2 as _ <-.
  - eapply receiver_stepped; [|exact Ht]. eapply completed; [apply qr_round|done|exact E].
  - eapply sender_stepped; [|exact Hr]. eapply completed; [by apply qs_quiet_keeps, quiet_setup|done|exact E].
  - eapply receiver_stepped; [|exact Ht]. eapply completed; [by apply qr_calm_keeps, qr_calm_setup|done|exact E].
  - split; [done|]. destruct Hr as [H1 H2 H3 H4]. split; [done|done| |].
    + destruct Hw as [Es _]. cbn. by rewrite Es.
    + eapply brings_all; [exact Hw|apply Ht|done].
  - split; [|done]. destruct Ht as [H1 H2 H3 H4]. split; [done|done| |].
    + destruct Hw as [Es _]. cbn. by rewrite Es.
    + eapply brings_all; [exact Hw|apply Hr|done].
Qed.

Lemma quic_reachable_inv c : quic_reachable c -> quic_inv c.
Proof.
  intros (c0 & [w v peer peer' p Hw Hw' Hv Hv'] & Hsteps).
  eapply (rtc_ind_r quic_inv); [|intros x y _ Hxy Hx; by eapply quic_step_inv|exact Hsteps].
  unfold new_quic_sender. pose proof (clock_quiet w) as [C1 C2]. destruct (SysClock_Now w) as [t w1]. cbn [fst snd] in C1, C2.
  assert (arrived w1 = []) as Ea by (apply list_nil_subseteq; by rewrite <- Hw').
  split; (split; unfold told_sent, told_acked, qs_manager, recorded; cbn;
    rewrite ?handshake_history, ?new_history, ?new_rpm_history, ?C1, ?Hw, ?Ea, ?Hv, ?Hv'; try done).
  - by intros a b k ?%not_elem_of_nil.
  - apply new_rpm_tracks.
Qed.

(** C6: The QUIC sender and receiver over any network.  However the rounds of
    the two loops interleave, and whatever datagrams the network loses, repeats,
    delays or reorders: the sender's manager hears of acknowledgements only for
    packets the receiver's manager has recorded, and those are packets the
    sender's manager was told were sent; what is under way to the receiver are
    such packets and stop-waiting frames, what is under way to the sender ack
    frames for recorded packets; and the next round of either loop completes, the
    sender's with fuel for the retransmissions pending. *)
Theorem quic_system_safe c : quic_reachable c ->
  (forall a b k, (a, b) ∈ told_acked (q_tx c) -> a <= k < b -> k ∈ recorded (q_rx c)) /\
  (forall k, k ∈ recorded (q_rx c) -> k ∈ told_sent (q_tx c)) /\
  Forall (carried (.∈ told_sent (q_tx c))) (arrived (qr_world (net (q_rx c)))) /\
  Forall (answered (.∈ recorded (q_rx c))) (arrived (qs_world (q_tx c))) /\
  (exists enough, forall fuel, (enough <= fuel)%nat -> exists b s, Quic_Process fuel (q_tx c) = (Ok b, s)) /\
  (exists b r, Quic_receiver_Process (q_rx c) = (Ok b, r)).
Proof.
  intros Hc. destruct (quic_reachable_inv c Hc) as [Ht Hr].
  split; [apply Ht|]. split; [intros k Hk; by apply (proj1 (Forall_forall _ _) (qrx_recorded _ _ Hr))|].
  split; [apply Hr|]. split; [apply Ht|]. split.
  - destruct (qs_round _ _ Ht) as (n & H). exists n. intros fuel Hf. destruct (H fuel) as (x & s & E & _ & _ & Hx).
    destruct (Hx Hf) as [b ->]. by exists b, s.
  - destruct (qr_round _ _ Hr) as (b & r & E & _). by exists b, r.
Qed.

End System.
