(* ===== verification/QuicVideo.v ===== *)
(** * The QUIC video sender: [my_quic_video_sender.{h,cc}]

    [MyQuicSender]'s members and a video source: the pieces of its frames wait in
    [pending_queue_], what is sent and may have to be sent again is in
    [sent_queue_], and the source's rate follows the bandwidth estimate. *)

From S2P Require Import Prelude QuicTime Clock StdMap Platform FramerTypes FramerNumbers FramerProcess FramerPacket FramerWire FramerCodec FramerSafe FramerAck AppHeader QuicReceiver QuicSender QuicProps.
Open Scope Z_scope.

Section Video.
Context `{T : QuicTypes} `{Q : PacketQueueOps} `{A : !AckOps} `{C : CryptoOps} `{F : QuicFunctions}
  `{R : ReaderOps} `{W' : WriterOps} `{P : !ProducerOps} `{AV : AppVersion} `{SP : !SentPackets}.
Context {W : Type} `{TD : TimeOfDay W} `{SK : Socket W} `{FS : Files W}.

(** ** State *)

(** [vs_sender]: the members [MyQuicSender] has too; [seq_] is 64 bits wide here. *)
Record MyQuicVideoSender := mkVideoSender {
  vs_sender : @MyQuicSender Q SP W;
  vs_source : FakeVideoGenerator;
  vs_pending_queue : list Z;
  sent_queue_ : smap Z;
  next_rate_update_ : QuicTime;
  rate_updata_gap_ : Z
}.

Local Abbreviation VS := (M MyQuicVideoSender).

Definition new_video_sender (w : W) (peer : su_addr) (pespective : Perspective) (source : FakeVideoGenerator) :
    MyQuicVideoSender :=
  let s := new_quic_sender w peer pespective in
  mkVideoSender (qs_upd_acks (upd_spm SetPacing (acks s)) s) source [] [] Time_Zero 200.

Definition on_qs {X} (m : M MyQuicSender X) : VS X := fun s =>
  let '(r, q) := m (vs_sender s) in
  (r, mkVideoSender q (vs_source s) (vs_pending_queue s) (sent_queue_ s) (next_rate_update_ s)
        (rate_updata_gap_ s)).

Definition vs_upd_pending (q : list Z) : VS unit := mmodify (fun s =>
  mkVideoSender (vs_sender s) (vs_source s) q (sent_queue_ s) (next_rate_update_ s) (rate_updata_gap_ s)).

Definition vs_upd_sent (f : smap Z -> smap Z) : VS unit := mmodify (fun s =>
  mkVideoSender (vs_sender s) (vs_source s) (vs_pending_queue s) (f (sent_queue_ s)) (next_rate_update_ s)
    (rate_updata_gap_ s)).

Definition vs_upd_source (g : FakeVideoGenerator) : VS unit := mmodify (fun s =>
  mkVideoSender (vs_sender s) g (vs_pending_queue s) (sent_queue_ s) (next_rate_update_ s) (rate_updata_gap_ s)).

Definition vs_upd_next (t : QuicTime) : VS unit := mmodify (fun s =>
  mkVideoSender (vs_sender s) (vs_source s) (vs_pending_queue s) (sent_queue_ s) t (rate_updata_gap_ s)).

Definition vs_manager (s : MyQuicVideoSender) : SPM := sent_packet_manager_ (acks (vs_sender s)).

Definition QuicVideo_set_duration (ms : Z) : VS unit := on_qs (Quic_set_duration ms).
Definition QuicVideo_EnableRateRecord (name : string) : VS unit := on_qs (Quic_EnableRateRecord name).

Definition QuicVideo_RecordRate (now : QuicTime) : VS unit := on_qs (mmodify (fun s =>
  qs_upd_log (rate_log_step s64 (bandwidth_kbps (sent_packet_manager_ (acks s))) now (qs_log s)) s)).

(** ** Acknowledgements *)

(** [erase(find(seq))] when there. *)
Definition RemoveAckedPacket (seq : Z) (m : smap Z) : smap Z :=
  match find seq m with Some _ => erase seq m | None => m end.

Fixpoint remove_acked (n : nat) (i : Z) (m : smap Z) : smap Z :=
  match n with
  | O => m
  | S n => remove_acked n (i + 1) (RemoveAckedPacket i m)
  end.

Definition Video_OnAckFrame (frame : QuicAckFrame) (v : AckState * smap Z) : bool * (AckState * smap Z) :=
  (false, v).

Definition Video_OnAckFrameStart (largest_acked : Z) (ack_delay_time : Delta) (v : AckState * smap Z) :
    bool * (AckState * smap Z) :=
  let '(b, a) := Sender_OnAckFrameStart largest_acked ack_delay_time v.1 in (b, (a, v.2)).

(** The packets of the range leave [sent_queue_] between the two calls of the
    manager. *)
Definition Video_OnAckRange (start end_ : Z) (last_range : bool) (v : AckState * smap Z) :
    bool * (AckState * smap Z) :=
  let m := remove_acked (Z.to_nat (end_ - start)) start v.2 in
  let '(b, a) := Sender_OnAckRange start end_ last_range v.1 in (b, (a, m)).

Definition video_visitor : VisitorOps :=
  abstract_visitor (AckState * smap Z) Video_OnAckFrame Video_OnAckFrameStart Video_OnAckRange.

Definition QuicVideo_OnIncomingData (data : list Z) : VS unit :=
  now ← on_qs qs_now;
  s ← mget;
  let q := vs_sender s in
  let a := mkAckState (sent_packet_manager_ (acks q)) now (largest_acked_ (acks q))
    (stop_waiting_count_ (acks q)) in
  let '(r, (a, m)) := process_datagram video_visitor now (pespective_ q) data (a, sent_queue_ s) in
  (fun s => (r, mkVideoSender (qs_upd_acks a (vs_sender s)) (vs_source s) (vs_pending_queue s) m
     (next_rate_update_ s) (rate_updata_gap_ s))) : VS unit.

(** ** Sending *)

Definition QuicVideo_OnPacketSent (packet_number packet_number_length encrypted_length : Z)
    (has_retransmittable_data : HasRetransmittableData) : VS unit :=
  now ← on_qs qs_now;
  let info := mkSerialized packet_number packet_number_length encrypted_length
    (match has_retransmittable_data with
     | HAS_RETRANSMITTABLE_DATA => [StreamFrame (Some new_stream_frame)]
     | NO_RETRANSMITTABLE_DATA => []
     end) in
  on_qs (qs_spm (spm_OnPacketSent info 0 now NOT_RETRANSMISSION has_retransmittable_data)).

(** Header and type byte in a buffer of [size] zeros. *)
Definition video_buffer (seq size : Z) : list Z :=
  let seq_len := GetMinSeqLength seq in
  let writer := write_header (app_flags seq_len) seq_len seq (new_writer kMaxPacketSize NETWORK_BYTE_ORDER) in
  let writer := (WriteBytes [STREAM_FRAME] writer).2 in
  written writer ++ replicate (Z.to_nat (size - zlen (written writer))) 0.

(** [SendTo(buf, n)]; reading past the buffer is [Stuck]. *)
Definition vs_send (buf : list Z) (n : Z) : VS unit :=
  match load buf 0 n with Some bytes => on_qs (qs_send bytes) | None => mstuck end.

Definition vs_next_seq : VS unit :=
  on_qs (mmodify (fun q => qs_upd_seq (u64 (qs_seq q + 1)) q)).

Definition QuicVideo_SendFakePacket : VS unit :=
  s ← mget;
  match vs_pending_queue s with
  | [] => mret tt
  | len :: rest =>
      vs_upd_pending rest;;
      let seq := qs_seq (vs_sender s) in
      let seq_len := GetMinSeqLength seq in
      let used := 1 + seq_len + 1 in
      vs_send (video_buffer seq kMaxPacketSize) (used + len);;
      let payload := u16 len in
      QuicVideo_OnPacketSent seq seq_len payload HAS_RETRANSMITTABLE_DATA;;
      vs_upd_sent (insert seq len);;
      vs_next_seq
  end.

Definition SendPaddingData : VS unit :=
  s ← mget;
  let seq := qs_seq (vs_sender s) in
  let seq_len := GetMinSeqLength seq in
  let used := 1 + seq_len + 1 in
  vs_send (video_buffer seq QUIC_MAX_VIDEO_SIZE) QUIC_MAX_VIDEO_SIZE;;
  let payload := u16 (QUIC_MAX_VIDEO_SIZE - used) in
  QuicVideo_OnPacketSent seq seq_len payload NO_RETRANSMITTABLE_DATA;;
  vs_next_seq.

Definition QuicVideo_SendDataOrPadding : VS unit :=
  s ← mget;
  match vs_pending_queue s with
  | [] => if ShouldSendProbingPacket (vs_manager s) then SendPaddingData else mret tt
  | _ :: _ => QuicVideo_SendFakePacket
  end.

(** A packet that is no longer in [sent_queue_] is skipped. *)
Definition QuicVideo_OnRetransPacket (pending : QuicPendingRetransmission) : VS unit :=
  s ← mget;
  let old_seq := pr_packet_number pending in
  match find old_seq (sent_queue_ s) with
  | None => mret tt
  | Some len =>
      vs_upd_sent (erase old_seq);;
      let seq := qs_seq (vs_sender s) in
      let seq_len := GetMinSeqLength seq in
      let used := 1 + seq_len + 1 in
      vs_send (video_buffer seq kMaxPacketSize) (used + len);;
      let payload := u16 len in
      now ← on_qs qs_now;
      let info := mkSerialized seq seq_len payload (pr_retransmittable_frames pending) in
      on_qs (qs_spm (spm_OnPacketSent info old_seq now LOSS_RETRANSMISSION HAS_RETRANSMITTABLE_DATA));;
      vs_upd_sent (insert seq len);;
      vs_next_seq
  end.

Fixpoint video_retrans_loop (fuel : nat) (now : QuicTime) : VS unit :=
  s ← mget;
  let spm := vs_manager s in
  if delta_eq (spm_TimeUntilSend now spm) Delta_Zero && HasPendingRetransmissions spm then
    match fuel with
    | O => mfail
    | S fuel =>
        QuicVideo_OnRetransPacket (NextPendingRetransmission spm);;
        video_retrans_loop fuel now
    end
  else mret tt.

Definition QuicVideo_SendRetransmission (fuel : nat) : VS unit :=
  now ← on_qs qs_now;
  video_retrans_loop fuel now.

Definition QuicVideo_SendStopWaitingFrame : VS unit := on_qs Quic_SendStopWaitingFrame.

Definition UpdateSourceRate (now : QuicTime) : VS unit :=
  s ← mget;
  let next := time_add now (FromMilliseconds (rate_updata_gap_ s)) in
  if time_eq (next_rate_update_ s) Time_Zero then vs_upd_next next
  else if time_gt now (next_rate_update_ s) then
    let bw := s64 (bandwidth_kbps (vs_manager s) * 1000) in
    vs_upd_source (UpdataRate bw (vs_source s));;
    vs_upd_next next
  else mret tt.

Definition QuicVideo_PollSource (now : QuicTime) : VS unit :=
  s ← mget;
  let '(frame_len, g) := GetFrame now (vs_source s) in
  vs_upd_source g;;
  if 0 <? frame_len then
    match split_frame frame_len with
    | Ok values => vs_upd_pending (vs_pending_queue s ++ values)
    | _ => mstuck
    end
  else mret tt.

Definition QuicVideo_Process (fuel : nat) : VS bool :=
  now ← on_qs qs_now;
  QuicVideo_PollSource now;;
  s ← mget;
  (if delta_eq (spm_TimeUntilSend now (vs_manager s)) Delta_Zero then QuicVideo_SendDataOrPadding
   else mret tt);;
  s ← mget;
  let '(recv, data, w) := RecvFrom 1500 (qs_world (vs_sender s)) in
  on_qs (mmodify (qs_upd_world w));;
  (match (if 0 <? recv then data else None) with
   | Some (_, bytes) => QuicVideo_OnIncomingData bytes
   | None => mret tt
   end);;
  s ← mget;
  let stop := qs_stop (vs_sender s) in
  let ret := if time_ne stop Time_Zero then negb (time_gt now stop) else true in
  (if 2 <? stop_waiting_count_ (acks (vs_sender s)) then QuicVideo_SendStopWaitingFrame else mret tt);;
  QuicVideo_SendRetransmission fuel;;
  UpdateSourceRate now;;
  QuicVideo_RecordRate now;;
  mret ret.

(** ** The pieces' way *)

Context `{WV : !WriterView} `{WO : !WriterOk} `{TO : !QuicTypesOk T}.

Lemma video_buffer_eq seq size : 9 <= kMaxPacketSize ->
  video_buffer seq size =
  quic_header seq ++ [STREAM_FRAME] ++ replicate (Z.to_nat (size - (2 + GetMinSeqLength seq))) 0.
Proof.
  intros Hk. pose proof (min_seq_length_range seq). unfold video_buffer.
  destruct (write_header_ok kMaxPacketSize (app_flags (GetMinSeqLength seq)) (GetMinSeqLength seq) seq)
    as (E1 & E2 & E3); [lia..|]. fold (quic_header seq) in E1.
  set (w := write_header _ _ _ _) in *.
  destruct (writes_app true (WriteBytes [STREAM_FRAME]) _ w (WriteBytes_ok _) eq_refl) as (w' & -> & V1 & _).
  { rewrite wlength_ok, E1, E2, quic_header_len, zlen_cons, zlen_nil. lia. }
  cbn [snd]. rewrite V1, E1, zlen_app, quic_header_len, zlen_cons, zlen_nil, <- app_assoc.
  do 4 f_equal. lia.
Qed.

Lemma vs_now_eq (s : MyQuicVideoSender) : on_qs qs_now s =
  (Ok (SysClock_Now (qs_world (vs_sender s))).1,
   mkVideoSender (qs_upd_world (SysClock_Now (qs_world (vs_sender s))).2 (vs_sender s)) (vs_source s)
     (vs_pending_queue s) (sent_queue_ s) (next_rate_update_ s) (rate_updata_gap_ s)).
Proof. unfold on_qs. by rewrite qs_now_eq. Qed.

(** A piece as it goes out: header, type, as many zeros as it has bytes. *)
Definition piece_datagram (seq len : Z) : list Z :=
  quic_header seq ++ [STREAM_FRAME] ++ replicate (Z.to_nat len) 0.

Lemma load_piece seq len : 0 <= len <= QUIC_MAX_VIDEO_SIZE -> QUIC_MAX_VIDEO_SIZE + 8 <= kMaxPacketSize ->
  load (video_buffer seq kMaxPacketSize) 0 (1 + GetMinSeqLength seq + 1 + len) = Some (piece_datagram seq len).
Proof.
  unfold QUIC_MAX_VIDEO_SIZE. intros Hl Hk. pose proof (min_seq_length_range seq).
  rewrite video_buffer_eq by lia.
  replace (Z.to_nat (kMaxPacketSize - (2 + GetMinSeqLength seq))) with
    (Z.to_nat len + Z.to_nat (kMaxPacketSize - (2 + GetMinSeqLength seq) - len))%nat by lia.
  rewrite replicate_add, !app_assoc. rewrite <- (app_assoc (quic_header seq)).
  apply (load_ok [] _ _ 0); [done|]. unfold piece_datagram.
  rewrite !zlen_app, quic_header_len, zlen_cons, zlen_nil.
  unfold zlen. rewrite length_replicate. lia.
Qed.

(** The QUIC video sender sends the head of its queue, once: given the go-ahead
    with pieces waiting, it takes the first off the queue, sends its header and
    exactly that many bytes - never past its buffer - tells the manager of a
    retransmittable packet, remembers the piece's size under the packet's
    number, and moves on to the next number. *)
Theorem video_sends_head (s : MyQuicVideoSender) len rest :
  vs_pending_queue s = len :: rest -> 0 <= len <= QUIC_MAX_VIDEO_SIZE ->
  QUIC_MAX_VIDEO_SIZE + 8 <= kMaxPacketSize -> in_u 64 (qs_seq (vs_sender s) + 1) ->
  let seq := qs_seq (vs_sender s) in
  exists s' now w1, QuicVideo_SendDataOrPadding s = (Ok tt, s') /\
    (now, qs_world (vs_sender s')) = SysClock_Now w1 /\
    w1 = (SendTo (qs_peer (vs_sender s)) (piece_datagram seq len) (qs_world (vs_sender s))).2 /\
    vs_manager s' = spm_OnPacketSent
      (mkSerialized seq (GetMinSeqLength seq) len [StreamFrame (Some new_stream_frame)]) 0 now
      NOT_RETRANSMISSION HAS_RETRANSMITTABLE_DATA (vs_manager s) /\
    vs_pending_queue s' = rest /\ sent_queue_ s' = insert seq len (sent_queue_ s) /\
    qs_seq (vs_sender s') = seq + 1.
Proof.
  intros Hq Hl Hk Hn seq. unfold QuicVideo_SendDataOrPadding, QuicVideo_SendFakePacket.
  rewrite (M_bind_ok mget _ _ s s) by done. cbv beta. rewrite Hq.
  rewrite (M_bind_ok mget _ _ s s) by done. cbv beta. rewrite Hq. fold seq. cbv zeta.
  rewrite (M_bind_ok (vs_upd_pending rest) _ s tt
    (mkVideoSender (vs_sender s) (vs_source s) rest (sent_queue_ s) (next_rate_update_ s) (rate_updata_gap_ s)))
    by done.
  unfold vs_send. rewrite load_piece by done.
  set (w1 := (SendTo (qs_peer (vs_sender s)) (piece_datagram seq len) (qs_world (vs_sender s))).2).
  set (s1 := mkVideoSender (qs_upd_world w1 (vs_sender s)) (vs_source s) rest (sent_queue_ s)
    (next_rate_update_ s) (rate_updata_gap_ s)).
  rewrite (M_bind_ok (on_qs _) _ _ tt s1) by done.
  assert (u16 len = len) as ->.
  { unfold QUIC_MAX_VIDEO_SIZE in Hl. apply wrap_id. unfold_int. lia. }
  unfold QuicVideo_OnPacketSent. rewrite M_assoc, (M_bind_ok _ _ _ _ _ (vs_now_eq s1)).
  change (qs_world (vs_sender s1)) with w1.
  destruct (SysClock_Now w1) as [now w2] eqn:Ew. cbn [fst snd].
  do 3 eexists. split; [reflexivity|]. split; [by rewrite Ew|]. split; [done|].
  split; [done|]. split; [done|]. split; [done|]. cbn. by apply wrap_id.
Qed.

(** C39: A retransmission the sender no longer knows hangs it: while the manager
    offers a packet that is not in [sent_queue_] - one whose range was reported
    in an ack frame that never reached its last range, say - [OnRetransPacket]
    does nothing, the manager keeps offering it, and no number of iterations
    ends the loop. *)
Theorem video_retransmission_hangs (s : MyQuicVideoSender) now fuel :
  spm_TimeUntilSend now (vs_manager s) = Delta_Zero -> HasPendingRetransmissions (vs_manager s) = true ->
  find (pr_packet_number (NextPendingRetransmission (vs_manager s))) (sent_queue_ s) = None ->
  video_retrans_loop fuel now s = (Fail, s).
Proof.
  intros Ht Hp Hf. induction fuel as [|fuel IH]; cbn [video_retrans_loop];
    rewrite (M_bind_ok mget _ _ s s) by done; cbv beta zeta; rewrite Ht, Hp;
    change (delta_eq Delta_Zero Delta_Zero && true) with true; cbv iota; [done|].
  unfold QuicVideo_OnRetransPacket. rewrite M_assoc, (M_bind_ok mget _ _ s s) by done. cbv beta zeta.
  rewrite Hf. by rewrite (M_bind_ok _ _ s tt s).
Qed.

End Video.
