(* ===== verification/QuicDemo.v ===== *)
(** * The QUIC programs run on concrete managers

    A received-packet manager that knows the last packet, one that hands out a
    given frame, and a sent-packet manager that logs what it is told and keeps
    the retransmissions it was given; the clock, the socket and the files are
    those of [BbrAppDemo.v]. *)

From S2P Require Import Prelude QuicTime Clock StdMap Platform FramerTypes FramerNumbers FramerAppend FramerProcess FramerPacket FramerWire FramerCodec FramerConcrete FramerSafe FramerAck AppHeader BbrAppDemo QuicReceiver QuicSender QuicProps QuicVideo.
Open Scope Z_scope.

#[export] Instance demo_version : AppVersion := {|
  PROTOCOL_QUIC_CRYPTO := 1; QUIC_VERSION_43 := 43;
  default_header := mkHeader 0 8 false false (mkVersion 0 0) PACKET_4BYTE_PACKET_NUMBER 0 None;
  default_header_length := ltac:(vm_compute; split; discriminate)
|}.

(** ** Received packets *)

(** An ack frame for one packet. *)
Definition single_ack (n : Z) : QuicAckFrame := mkAckFrame n (mkDelta 0) [] [(n, n + 1)].

Definition last_rpm : ReceivedPackets := {|
  RPM := option Z;
  new_rpm := None;
  RecordPacketReceived n _ _ := Some n;
  ack_frame_updated m := match m with Some _ => true | None => false end;
  GetUpdatedAckFrame _ m := (single_ack (default 0 m), m);
  DontWaitForPacketsBefore _ m := m
|}.

Lemma single_ack_ok n : trackable n -> ack_ok 43 (single_ack n) n [].
Proof.
  unfold trackable. change (2 ^ 48) with 281474976710656. intros [H1 H2]. split; [|by intros].
  cbn. unfold intervals, ordered. change (2 ^ 62) with 4611686018427387904.
  by rewrite !(proj2 (Z.leb_le _ _)), (proj2 (Z.ltb_lt _ _)) by lia.
Qed.

#[export] Instance last_rpm_ok : ReceivedPacketsOk (RM := last_rpm).
Proof.
  refine {| tracks := fun m : RPM (ReceivedPackets := last_rpm) => from_option trackable True m;
    heard := fun m : RPM (ReceivedPackets := last_rpm) => from_option trackable False m |}; cbn; try done.
  - by intros [n|].
  - intros t [n|] Hn; [|done]. split; [done|]. exists n, []. by apply single_ack_ok.
Defined.

(** ** The receiver answers *)

Definition demo_stream (n : Z) : list Z := quic_header n ++ STREAM_FRAME :: [0; 0; 0; 1].

Lemma demo_stream_packet n : trackable n -> stream_packet (demo_stream n).
Proof. intros. by exists n, [0; 0; 0; 1]. Qed.

Lemma quic_receiver_answers_witness :
  let ds := demo_stream <$> [1; 2; 5; 3] in
  exists s', quic_receive_all ds (new_quic_receiver (RM := last_rpm) (mkNet 0 [] []) here) = (Ok tt, s') /\
    0 <= unanswered s' < 10 /\
    (unanswered s' <> 0 -> alarm_IsSet (ack_alarm_ (acking s')) = true) /\
    (zlen ds < 100 -> unanswered s' = 0).
Proof.
  refine (quic_receiver_answers (RM := last_rpm) (mkNet 0 [] []) here (demo_stream <$> [1; 2; 5; 3])
    net_clock_range _ _).
  - repeat (apply Forall_cons; split; [apply demo_stream_packet; split; [discriminate|reflexivity]|]).
    by apply Forall_nil.
  - vm_compute. reflexivity.
Defined.

(** ** Sent packets *)

Inductive told_event :=
  | Sent (n old : Z) | Start (largest : Z) | Range (start stop : Z) | End.

Record log_spm := mkSpm { spm_log : list told_event; spm_pending : list Z }.

Definition tell (e : told_event) (m : log_spm) : log_spm := mkSpm (spm_log m ++ [e]) (spm_pending m).

#[export] Instance demo_sent : SentPackets := {|
  SPM := log_spm;
  new_spm _ := mkSpm [] [];
  SetHandshakeConfirmed m := m;
  SetPacing m := m;
  spm_OnAckFrameStart largest _ _ := tell (Start largest);
  spm_OnAckRange s t := tell (Range s t);
  spm_OnAckFrameEnd _ m := (true, tell End m);
  spm_OnPacketSent info old _ kind _ m :=
    mkSpm (spm_log m ++ [Sent (sp_packet_number info) old])
      (match kind with LOSS_RETRANSMISSION => tl (spm_pending m) | NOT_RETRANSMISSION => spm_pending m end);
  spm_GetLeastUnacked _ := 1;
  spm_TimeUntilSend _ _ := Delta_Zero;
  HasPendingRetransmissions m := match spm_pending m with [] => false | _ => true end;
  NextPendingRetransmission m := mkPendingRetransmission (hd 0 (spm_pending m)) [];
  bandwidth_kbps _ := 1000;
  ShouldSendProbingPacket _ := false;
  new_stream_frame := mkStreamFrame 0 false 0 0 None
|}.

#[export] Instance demo_sent_ok : SentPacketsOk (SP := demo_sent).
Proof.
  refine {| pending_count := fun m : SPM (SentPackets := demo_sent) => length (spm_pending m) |}.
  - intros [lg [|x l]]; cbn; [done|lia].
  - intros [lg [|x l]]; cbn; [done|lia].
Defined.

Definition demo_sender (pending : list Z) : MyQuicSender (W := net_world) :=
  qs_upd_acks (upd_spm (fun m => mkSpm (spm_log m) pending)
    (acks (new_quic_sender (SP := demo_sent) (mkNet 0 [] []) here IS_SERVER)))
    (new_quic_sender (SP := demo_sent) (mkNet 0 [] []) here IS_SERVER).

Lemma quic_retransmissions_end_witness :
  exists k s', quic_retrans_loop 5 (mkTime 7000) (demo_sender [3; 4; 9]) = (Ok tt, s') /\
    may_retransmit (mkTime 7000) s' = false /\ (k <= 3)%nat /\ qs_seq s' = u32 (1 + Z.of_nat k).
Proof.
  refine (quic_retransmissions_end (mkTime 7000) (demo_sender [3; 4; 9]) _ 5 _).
  - split; [discriminate|reflexivity].
  - cbn. lia.
Defined.

(** A datagram of one byte is too short for the header it announces. *)
Lemma quic_datagram_cases_witness :
  (exists a w, Quic_OnIncomingData [48] (demo_sender []) =
    (Stuck, qs_upd_acks a (qs_upd_world w (demo_sender [])))) /\
  exists a w, Quic_OnIncomingData (demo_stream 1) (demo_sender []) =
    (Ok tt, qs_upd_acks a (qs_upd_world w (demo_sender []))).
Proof.
  split.
  - refine (quic_datagram_cases (demo_sender []) [48] _ _); [discriminate|].
    repeat constructor; discriminate.
  - refine (quic_datagram_cases (demo_sender []) (demo_stream 1) _ _); [discriminate|].
    vm_compute. repeat constructor; discriminate.
Defined.

(** ** The acknowledgement's way *)

Definition fixed_rpm : ReceivedPackets := {|
  RPM := QuicAckFrame;
  new_rpm := demo_ack;
  RecordPacketReceived _ _ m := m;
  ack_frame_updated _ := true;
  GetUpdatedAckFrame _ m := (m, m);
  DontWaitForPacketsBefore _ m := m
|}.

Lemma quic_ack_delivered_witness :
  let r := new_quic_receiver (RM := fixed_rpm) (mkNet 0 [] []) here in
  exists d r' q', Quic_SendAck r = (Ok tt, r') /\ zlen d <= kMaxPacketSize /\
    Quic_OnIncomingData d (demo_sender []) = (Ok tt, q') /\
    spm_log (sent_packet_manager_ (acks q')) =
      [Start 2000; Range 1990 2001; Range 1000 1900; Range 3 5; End].
Proof.
  cbn zeta.
  destruct (quic_ack_delivered (RM := fixed_rpm)
    (new_quic_receiver (RM := fixed_rpm) (mkNet 0 [] []) here) (demo_sender []) 1990 [(1000, 1900); (3, 5)])
    as (d & r' & q' & E1 & _ & Hd & E2 & Ha).
  - split; [discriminate|reflexivity].
  - split; [apply (demo_ack_ok 43)|]. split; [reflexivity|vm_compute; congruence].
  - exists d, r', q'. split; [exact E1|]. split; [exact Hd|]. split; [exact E2|]. by rewrite Ha.
Defined.

(** ** The video sender *)

Definition demo_video (pending queue : list Z) (sent : smap Z) : MyQuicVideoSender (W := net_world) :=
  mkVideoSender (demo_sender pending) (mkGenerator 500000 500000 2000000 33 Time_Zero) queue sent Time_Zero 200.

Lemma video_sends_head_witness :
  exists s', QuicVideo_SendDataOrPadding (demo_video [] [1000; 250] []) = (Ok tt, s') /\
    vs_pending_queue s' = [250] /\ sent_queue_ s' = [(1, 1000)] /\
    outbox (qs_world (vs_sender s')) = [piece_datagram 1 1000] /\ qs_seq (vs_sender s') = 2.
Proof.
  destruct (video_sends_head (demo_video [] [1000; 250] []) 1000 [250]) as (s' & now & w1 & E & Hw & Ew & _ & H1 & H2 & H3).
  - reflexivity.
  - split; vm_compute; congruence.
  - vm_compute. congruence.
  - split; [discriminate|reflexivity].
  - exists s'. split; [exact E|]. split; [exact H1|]. split; [exact H2|]. split; [|exact H3].
    subst w1. by injection Hw as _ ->.
Defined.

Lemma video_retransmission_hangs_witness :
  video_retrans_loop 100 (mkTime 7000) (demo_video [5] [] [(4, 900)]) = (Fail, demo_video [5] [] [(4, 900)]).
Proof. refine (video_retransmission_hangs (demo_video [5] [] [(4, 900)]) (mkTime 7000) 100 _ _ _); reflexivity. Defined.
