(* ===== verification/QuicSystemDemo.v ===== *)
(** * The QUIC sender and receiver on concrete worlds

    The managers keep what they are told; the network brings everything that is
    sent between the rounds. *)

From S2P Require Import Prelude QuicTime Clock StdMap Platform FramerTypes FramerNumbers FramerAppend FramerProcess FramerPacket FramerWire FramerCodec FramerConcrete FramerSafe FramerAck AppHeader BbrAppDemo Network BbrSystemDemo QuicReceiver QuicSender QuicProps QuicAcks QuicSystem QuicDemo.
From stdpp Require Import relations.
Open Scope Z_scope.

(** ** The managers *)

(** The packets recorded, the last first; the frame is for the last. *)
Definition list_rpm : ReceivedPackets := {|
  RPM := list Z;
  new_rpm := [];
  RecordPacketReceived n _ m := n :: m;
  ack_frame_updated m := match m with [] => false | _ => true end;
  GetUpdatedAckFrame _ m := (match m with [] => mkAckFrame 0 (mkDelta 0) [] [] | n :: _ => single_ack n end, m);
  DontWaitForPacketsBefore _ m := m
|}.

#[export] Instance list_rpm_ok : ReceivedPacketsOk (RM := list_rpm).
Proof.
  refine {| tracks := fun m : RPM (ReceivedPackets := list_rpm) => Forall trackable m;
    heard := fun m : RPM (ReceivedPackets := list_rpm) => Forall trackable m /\ m <> [] |}; cbn.
  - done.
  - by intros m [H _].
  - intros n t m Hm Hn. split; [|done]. split; [by constructor|done].
  - intros t m [Hm Hne]. split; [done|]. destruct m as [|n m]; [done|]. exists n, [].
    apply single_ack_ok. by apply Forall_inv in Hm.
  - done.
Defined.

#[export] Instance list_history : ReceivedHistory (RM := list_rpm).
Proof.
  refine {| rpm_history := fun m : RPM (ReceivedPackets := list_rpm) => m |}; cbn; try done.
  - intros _ [|n m] Hm; [right|left].
    + split; [done|]. cbn. lia.
    + exists n, []. apply single_ack_ok. by apply Forall_inv in Hm.
  - intros _ [|n m] k Hm (s & e & Hin & Hk); [by apply not_elem_of_nil in Hin|].
    destruct (single_ack_ok n (Forall_inv Hm)) as [E _]. rewrite E in Hin. apply list_elem_of_singleton in Hin as [= -> ->].
    cbn in Hk.
    replace k with n by lia. by left.
Defined.

Definition note (h : list Z * list (Z * Z)) (e : told_event) : list Z * list (Z * Z) :=
  match e with
  | Sent n _ => (n :: h.1, h.2)
  | Range s e => (h.1, (s, e) :: h.2)
  | _ => h
  end.

#[export] Instance log_history : SentHistory (SP := demo_sent).
Proof.
  refine {| spm_history := fun m : SPM (SentPackets := demo_sent) => foldl note ([], []) (spm_log m) |};
    intros; cbn; rewrite ?foldl_app; done.
Defined.

(** ** A run *)

Local Abbreviation demo_quic := (@quic_system _ demo_sent list_rpm net_world).

(** One round of each, with the network bringing all there is in between. *)
Definition q_exchange (c : demo_quic) : demo_quic :=
  let s := (Quic_Process 5 (q_tx c)).2 in
  let r := (Quic_receiver_Process (qr_upd_world (deliver (qs_world s) (qr_world (net (q_rx c)))) (q_rx c))).2 in
  mkQuicSystem (qs_upd_world (deliver (qr_world (net r)) (qs_world s)) s) r.

Lemma q_exchange_steps (c : demo_quic) :
  finished (Quic_Process 5 (q_tx c)) = true ->
  finished (Quic_receiver_Process (qr_upd_world (deliver (qs_world (Quic_Process 5 (q_tx c)).2) (qr_world (net (q_rx c)))) (q_rx c))) = true ->
  rtc quic_step c (q_exchange c).
Proof.
  destruct c as [s r]. unfold q_exchange. cbn [q_tx q_rx]. intros Hs Hr. cbv zeta.
  destruct (Quic_Process 5 s) as [[b| |] s1] eqn:Es; [|done..]. cbn [snd] in *.
  eapply rtc_l; [by eapply q_sender|]. eapply rtc_l; [by apply (q_data s1 r (deliver (qs_world s1) (qr_world (net r))))|].
  destruct (Quic_receiver_Process _) as [[b'| |] r1] eqn:Er; [|done..]. cbn [snd] in *.
  eapply rtc_l; [by eapply q_receiver|]. apply rtc_once. by apply q_acks.
Qed.

Definition q_begin : demo_quic :=
  mkQuicSystem (new_quic_sender (mkNet 1000000 [] []) here IS_SERVER) (new_quic_receiver (mkNet 1000000 [] []) here).

Definition q_after (n : nat) : demo_quic := Nat.iter n q_exchange q_begin.

Lemma quic_system_safe_witness :
  quic_reachable (q_after 2) /\ told_acked (q_tx (q_after 2)) = [(1, 2)] /\
  recorded (q_rx (q_after 2)) = [1; 1] /\ told_sent (q_tx (q_after 2)) = [2; 1] /\
  (forall a b k, (a, b) ∈ told_acked (q_tx (q_after 2)) -> a <= k < b -> k ∈ recorded (q_rx (q_after 2))) /\
  exists b r, Quic_receiver_Process (q_rx (q_after 2)) = (Ok b, r).
Proof.
  assert (quic_reachable (q_after 2)) as Hr.
  { exists q_begin. split; [by apply quic_start_intro|]. unfold q_after, Nat.iter. cbn [nat_rect].
    etrans; apply q_exchange_steps; vm_compute; reflexivity. }
  split; [exact Hr|]. split; [vm_compute; reflexivity|]. split; [vm_compute; reflexivity|]. split; [vm_compute; reflexivity|].
  pose proof (fun version size => quic_system_safe version size (q_after 2) Hr) as H.
  destruct (H eq_refl ltac:(split; vm_compute; discriminate)) as (H1 & _ & _ & _ & _ & H2).
  split; [exact H1|exact H2].
Defined.
