(* ===== verification/Mininet.v ===== *)
(** * The emulation's end points: [mininet-webrtc/{sender,receiver}.{h,cc}]

    [Sender] cuts the frames of an encoder into segments, hands their numbers to
    WebRTC's pacer and sends a segment or padding when the pacer calls back;
    [Receiver] feeds what arrives to WebRTC's congestion controller, whose
    feedback it sends back; both keep a round-trip time by pings.  WebRTC, the
    encoder, the clock and the system calls are behind interfaces; [Stack] is
    what a local structure holds before it is written.  Each method is one
    step: the code lets the pacer's thread and the main thread use [stream_]
    and [trans_seq_] without a lock, and their interleavings are not modelled. *)

From S2P Require Import Prelude Stream Crc32 SimProto StdMap Platform AppHeader.
Open Scope Z_scope.

(** ** Surroundings *)

(** [rtc::TimeMillis]. *)
Class Millis (W : Type) := TimeMillis : W -> Z * W.

Class Webrtc (W : Type) := {
  PacedPacketInfo : Type;
  TransportFeedback : Type;
  (** [nullptr] for a malformed packet *)
  ParseFrom : list Z -> option TransportFeedback;
  (** [SetSenderSsrc] and [Build] *)
  Build : Z -> TransportFeedback -> list Z;
  (** [RtpTransportControllerSend] with the given minimum, start and maximum
      rates, registered with its observer and router *)
  new_controller : Z -> Z -> Z -> W -> W;
  (** the pacer: sender, number, capture time, bytes *)
  InsertPacket : Z -> Z -> Z -> Z -> W -> W;
  AddPacket : Z -> Z -> Z -> PacedPacketInfo -> W -> W;
  OnSentPacket : Z -> Z -> W -> W;
  ctl_OnRttUpdate : Z -> Z -> W -> W;
  OnTransportFeedback : TransportFeedback -> W -> W;
  (** [ReceiveSideCongestionController], its modules registered and started *)
  new_receive_side_cc : W -> W;
  stop_receive_side_cc : W -> W;
  (** time, bytes, sender, transport sequence number *)
  OnReceivedPacket : Z -> Z -> Z -> Z -> W -> W;
  cc_OnRttUpdate : Z -> Z -> W -> W
}.

Record video_frame := mkFrame { vf_payload_type : Z; vf_ftype : Z; vf_data : list Z; vf_len : Z }.

(** [VideoSource]: starting may hand over frames at once. *)
Class VideoSource (W : Type) := {
  src_RegisterVideoTarget : W -> W;
  src_SetMinRate : Z -> W -> W;
  src_Start : W -> list video_frame * W;
  src_Stop : W -> W;
  src_ChangeRate : Z -> W -> W
}.

Class Stack := {
  stack_stream : bin_stream_t;
  stack_ping : sim_ping_t;
  stack_segment : sim_segment_t;
  stack_feedback : sim_feedback_t;
  stack_pad : list Z
}.

Section Mininet.
Context `{P : Platform} (be : Z).
Context {W : Type} `{ML : Millis W} `{SK : Sockets W} `{RTC : Webrtc W} `{SRC : VideoSource W}
  `{ST : Stack} `{IN : Inet}.

(** ** What both ends have *)

Record Endpoint := mkEndpoint { ep_world : W; ep_fd : Z; ep_dst : su_addr; ep_stream : bin_stream_t }.

Definition ep_upd_world (w : W) (e : Endpoint) : Endpoint := mkEndpoint w (ep_fd e) (ep_dst e) (ep_stream e).
Definition ep_upd_dst (a : su_addr) (e : Endpoint) : Endpoint := mkEndpoint (ep_world e) (ep_fd e) a (ep_stream e).
Definition ep_upd_stream (s : bin_stream_t) (e : Endpoint) : Endpoint :=
  mkEndpoint (ep_world e) (ep_fd e) (ep_dst e) s.

Definition new_endpoint (w : W) (fd : Z) (dst : su_addr) : Endpoint :=
  mkEndpoint w fd dst (bin_stream_init stack_stream).2.

Definition ep_now : M Endpoint Z := fun e =>
  let '(now, w) := TimeMillis (ep_world e) in (Ok now, ep_upd_world w e).

Definition ep_do (f : W -> W) : M Endpoint unit := mmodify (fun e => ep_upd_world (f (ep_world e)) e).

Definition SendToNetwork (buf : list Z) (len : Z) : M Endpoint unit := fun e =>
  match load buf 0 (u32 len) with
  | Some bs => (Ok tt, ep_upd_world (su_udp_send (ep_fd e) (ep_dst e) bs (ep_world e)).2 e)
  | None => (Stuck, e)
  end.

(** [INIT_SIM_HEADER], [sim_encode_msg] into [stream_], [SendToNetwork]. *)
Definition send_msg (uid id : Z) (body : sim_body) : M Endpoint unit := fun e =>
  match sim_encode_msg be (INIT_SIM_HEADER id uid) body (ep_stream e) with
  | (Stuck, s) => (Stuck, ep_upd_stream s e)
  | (_, s) => SendToNetwork (data s) (used s) (ep_upd_stream s e)
  end.

(** The ping is decoded from the stream it arrived in and the pong written to
    the same. *)
Definition answer_ping (uid : Z) (header : sim_header_t) (stream : bin_stream_t) : M Endpoint unit := fun e =>
  match sim_decode_msg be header (BPing stack_ping) stream with
  | (Stuck, _) => (Stuck, e)
  | (r, s) =>
      let ping := match r with Ok b => b | _ => BPing stack_ping end in
      match sim_encode_msg be (INIT_SIM_HEADER SIM_PONG uid) ping s with
      | (Stuck, _) => (Stuck, e)
      | (_, s) => SendToNetwork (data s) (used s) e
      end
  end.

(** The timestamp of a pong. *)
Definition pong_ts (header : sim_header_t) (stream : bin_stream_t) : res Z :=
  match sim_decode_msg be header (BPing stack_ping) stream with
  | (Ok (BPing b), _) => Ok (ts b)
  | (Stuck, _) => Stuck
  | _ => Ok (ts stack_ping)
  end.

(** A datagram into a fresh stream. *)
Definition receive : M Endpoint (option (su_addr * bin_stream_t)) := fun e =>
  let '(_, rstream) := bin_stream_init stack_stream in
  let '(ret, d, w) := su_udp_recv (ep_fd e) (size rstream) 0 (ep_world e) in
  let e := ep_upd_world w e in
  match (if 0 <? ret then d else None) with
  | Some (remote, bytes) =>
      match store (data rstream) 0 bytes with
      | Some buf =>
          (Ok (Some (remote, mkStream buf (size rstream) (rptr rstream) (rsize rstream) (wptr rstream)
             ret (magic rstream))), e)
      | None => (Stuck, e)
      end
  | None => (Ok None, e)
  end.

Definition keep_rtt (time : Z) : Z := if 5 <? time then time else 5.

Definition smooth_rtt (rtt keep : Z) : Z :=
  let rtt := if rtt =? 0 then keep else rtt in
  let rtt := u32 (7 * rtt + keep) / 8 in
  if rtt <? 10 then 10 else rtt.

(** ** [Sender] *)

Definition kInitialBitrateBps : Z := 500000.
Definition MAX_PAD_SIZE : Z := 500.
Definition sender_uid : Z := 1234.

(** [sizeof(sim_header_t)] and [sizeof(sim_pad_t)], alignment included. *)
Definition sizeof_header : Z := 8.
Definition sizeof_pad : Z := 508.

Record RttStats := mkRtt {
  rtt_ : Z; sum_rtt_ : Z; rtt_num_ : Z; min_rtt_ : Z; max_rtt_ : Z; average_rtt_ : Z }.

Record Sender := mkSender {
  s_end : Endpoint;
  running_ : bool;
  pending_buf_ : smap sim_segment_t;
  frame_seed_ : Z;
  packet_seed_ : Z;
  trans_seq_ : Z;
  has_encoder : bool;
  first_ts_ : Z;
  s_rtt : RttStats;
  update_ping_ts_ : Z
}.

Local Abbreviation SM := (M Sender).

Definition new_sender (w : W) (fd : Z) (dst : su_addr) : Sender :=
  mkSender (new_endpoint (new_controller kInitialBitrateBps (2 * kInitialBitrateBps)
    (5 * kInitialBitrateBps) w) fd dst) false [] 1 1 1 false (-1) (mkRtt 0 0 0 0 0 0) 0.

Definition s_on_end {X} (m : M Endpoint X) : SM X := fun s =>
  let '(r, e) := m (s_end s) in
  (r, mkSender e (running_ s) (pending_buf_ s) (frame_seed_ s) (packet_seed_ s) (trans_seq_ s)
        (has_encoder s) (first_ts_ s) (s_rtt s) (update_ping_ts_ s)).

Definition s_upd_running (b : bool) : SM unit := mmodify (fun s =>
  mkSender (s_end s) b (pending_buf_ s) (frame_seed_ s) (packet_seed_ s) (trans_seq_ s)
    (has_encoder s) (first_ts_ s) (s_rtt s) (update_ping_ts_ s)).

Definition s_upd_pending (m : smap sim_segment_t) : SM unit := mmodify (fun s =>
  mkSender (s_end s) (running_ s) m (frame_seed_ s) (packet_seed_ s) (trans_seq_ s)
    (has_encoder s) (first_ts_ s) (s_rtt s) (update_ping_ts_ s)).

Definition s_upd_seeds (frame packet trans : Z) : SM unit := mmodify (fun s =>
  mkSender (s_end s) (running_ s) (pending_buf_ s) frame packet trans
    (has_encoder s) (first_ts_ s) (s_rtt s) (update_ping_ts_ s)).

Definition s_upd_first (t : Z) : SM unit := mmodify (fun s =>
  mkSender (s_end s) (running_ s) (pending_buf_ s) (frame_seed_ s) (packet_seed_ s) (trans_seq_ s)
    (has_encoder s) t (s_rtt s) (update_ping_ts_ s)).

Definition s_upd_rtt (r : RttStats) : SM unit := mmodify (fun s =>
  mkSender (s_end s) (running_ s) (pending_buf_ s) (frame_seed_ s) (packet_seed_ s) (trans_seq_ s)
    (has_encoder s) (first_ts_ s) r (update_ping_ts_ s)).

Definition s_upd_ping (t : Z) : SM unit := mmodify (fun s =>
  mkSender (s_end s) (running_ s) (pending_buf_ s) (frame_seed_ s) (packet_seed_ s) (trans_seq_ s)
    (has_encoder s) (first_ts_ s) (s_rtt s) t).

Definition s_now : SM Z := s_on_end ep_now.
Definition s_do (f : W -> W) : SM unit := s_on_end (ep_do f).

Definition SetEncoder : SM unit :=
  mmodify (fun s => mkSender (s_end s) (running_ s) (pending_buf_ s) (frame_seed_ s) (packet_seed_ s)
    (trans_seq_ s) true (first_ts_ s) (s_rtt s) (update_ping_ts_ s));;
  s_do src_RegisterVideoTarget.

Definition SetPeer (addr : list Z) : SM unit :=
  match razor_su_string_to_addr addr with
  | Some a => s_on_end (mmodify (ep_upd_dst a))
  | None => mstuck
  end.

(** *** Frames *)

(** One round of the loop of [SendVideo]: piece [i] of the frame, at [pos];
    its transport number and size. *)
Definition add_segment (payload_type ftype timestamp total : Z) (buf : list Z) (i pos split : Z) : SM (Z * Z) :=
  s ← mget;
  match load buf pos split with
  | None => mstuck
  | Some bytes =>
      match store (replicate (Z.to_nat SIM_VIDEO_SIZE) 0) 0 bytes with
      | None => mstuck
      | Some video =>
          let seg := {| packet_id := packet_seed_ s; fid := frame_seed_ s; timestamp := timestamp;
            index := u16 i; total := total; ftype := u8 ftype; payload_type := payload_type; remb := 1;
            send_ts := 0; transport_seq := trans_seq_ s; data_size := split; seg_data := video |} in
          let overhead := u16 (data_size seg + SIM_SEGMENT_HEADER_SIZE) in
          s_upd_seeds (frame_seed_ s) (u32 (packet_seed_ s + 1)) (u16 (trans_seq_ s + 1));;
          s_upd_pending (insert (transport_seq seg) seg (pending_buf_ s));;
          mret (transport_seq seg, overhead)
      end
  end.

Fixpoint add_segments (payload_type ftype timestamp total : Z) (buf : list Z) (i pos : Z)
    (splits : list Z) (seq_len_map : smap Z) : SM (smap Z) :=
  match splits with
  | [] => mret seq_len_map
  | split :: splits =>
      '(seq, overhead) ← add_segment payload_type ftype timestamp total buf i pos split;
      add_segments payload_type ftype timestamp total buf (i + 1) (pos + split) splits
        (insert seq overhead seq_len_map)
  end.

(** The file's own [FrameSplit]: as the one of [my_quic_utils.cc], in segments. *)
Definition Sender_FrameSplit (size : Z) : M (list Z) Z := frame_split SIM_VIDEO_SIZE size.

(** The pieces of a frame, behind the assertion. *)
Definition split_video (len : Z) : res (list Z) :=
  if len / SIM_VIDEO_SIZE <? MAX_SPLIT_NUMBER then
    match Sender_FrameSplit len (replicate (Z.to_nat MAX_SPLIT_NUMBER) 0) with
    | (Ok total, splits) => Ok (ztake total splits)
    | (Fail, _) => Fail
    | (Stuck, _) => Stuck
    end
  else Stuck.

Definition insert_packets (now : Z) (m : smap Z) : SM unit :=
  s_do (fun w => foldl (fun w '(seq, overhead) => InsertPacket sender_uid seq now overhead w) w m).

Definition SendVideo (payload_type ftype : Z) (buf : list Z) (len : Z) : SM unit :=
  s ← mget;
  if negb (running_ s) then mret tt
  else if len =? 0 then mret tt
  else
    now ← s_now;
    (if first_ts_ s =? -1 then s_upd_first now else mret tt);;
    s ← mget;
    let timestamp := u32 (now - first_ts_ s) in
    match split_video len with
    | Ok splits =>
        seq_len_map ← add_segments payload_type ftype timestamp (zlen splits) buf 0 0 splits [];
        s ← mget;
        s_upd_seeds (u32 (frame_seed_ s + 1)) (packet_seed_ s) (trans_seq_ s);;
        insert_packets now seq_len_map
    | _ => mstuck
    end.

Fixpoint send_frames (frames : list video_frame) : SM unit :=
  match frames with
  | [] => mret tt
  | f :: fs => SendVideo (vf_payload_type f) (vf_ftype f) (vf_data f) (vf_len f);; send_frames fs
  end.

Definition Start : SM unit :=
  s_upd_running true;;
  s ← mget;
  if has_encoder s then
    s_do (src_SetMinRate kInitialBitrateBps);;
    s ← mget;
    let '(frames, w) := src_Start (ep_world (s_end s)) in
    s_do (fun _ => w);;
    send_frames frames
  else mret tt.

Definition Stop : SM unit :=
  s_upd_running false;;
  s ← mget;
  if has_encoder s then s_do src_Stop else mret tt.

Definition OnTargetTransferRate (bps : Z) : SM unit :=
  s ← mget;
  if has_encoder s then s_do (src_ChangeRate (u32 bps)) else mret tt.

(** [rate.bps()] *)
Definition OnStartRateUpdate (bps : Z) : SM unit :=
  s ← mget;
  if has_encoder s then s_do (src_ChangeRate (u32 bps)) else mret tt.

(** *** What the pacer calls *)

Definition get_segment_t (sequence_number : Z) : SM (option sim_segment_t) :=
  s ← mget;
  match find sequence_number (pending_buf_ s) with
  | Some seg => s_upd_pending (erase sequence_number (pending_buf_ s));; mret (Some seg)
  | None => mret None
  end.

Definition stamp_segment (first now : Z) (seg : sim_segment_t) : sim_segment_t :=
  {| packet_id := packet_id seg; fid := fid seg; timestamp := timestamp seg; index := index seg;
     total := total seg; ftype := ftype seg; payload_type := payload_type seg; remb := remb seg;
     send_ts := u16 (now - first - timestamp seg); transport_seq := transport_seq seg;
     data_size := data_size seg; seg_data := seg_data seg |}.

Definition SendSegment (seg : sim_segment_t) (now : Z) : SM unit :=
  s ← mget;
  s_on_end (send_msg sender_uid SIM_SEG (BSegment (stamp_segment (first_ts_ s) now seg))).

Definition TimeToSendPacket (sequence_number : Z) (cluster_info : PacedPacketInfo) : SM bool :=
  seg ← get_segment_t sequence_number;
  now ← s_now;
  match seg with
  | Some seg =>
      SendSegment seg (u32 now);;
      let overhead := u16 (data_size seg + SIM_SEGMENT_HEADER_SIZE) in
      s_do (AddPacket sender_uid sequence_number overhead cluster_info);;
      s_do (OnSentPacket sequence_number now);;
      mret true
  | None => mret true
  end.

Definition SendPadding (payload_len ts : Z) (pacing_info : PacedPacketInfo) : SM Z :=
  s ← mget;
  let header_len := sizeof_header + sizeof_pad in
  let sequence_number := trans_seq_ s in
  let pad := {| pad_send_ts := ts; pad_transport_seq := sequence_number; pad_data_size := payload_len;
    pad_data := stack_pad |} in
  s_upd_seeds (frame_seed_ s) (packet_seed_ s) (u16 (trans_seq_ s + 1));;
  let overhead := header_len + payload_len in
  s_on_end (send_msg sender_uid SIM_PAD (BPad pad));;
  s_do (AddPacket sender_uid sequence_number overhead pacing_info);;
  s_do (OnSentPacket sequence_number ts);;
  mret overhead.

(** [while (remain > 0)]. *)
Fixpoint padding_loop (fuel : nat) (remain now : Z) (cluster_info : PacedPacketInfo) : SM unit :=
  if 0 <? remain then
    match fuel with
    | O => mfail
    | S fuel =>
        if MAX_PAD_SIZE <=? remain then
          ret ← SendPadding MAX_PAD_SIZE (u32 now) cluster_info;
          padding_loop fuel (remain - ret) now cluster_info
        else
          (if 100 <=? remain then SendPadding remain (u32 now) cluster_info;; mret tt else mret tt);;
          padding_loop fuel 0 now cluster_info
    end
  else mret tt.

Definition TimeToSendPadding (fuel : nat) (bytes : Z) (cluster_info : PacedPacketInfo) : SM Z :=
  now ← s_now;
  let remain := s32 bytes in
  (if bytes <? 100 then mret tt else padding_loop fuel remain now cluster_info);;
  mret bytes.

(** *** Round trips and messages *)

Definition RTT (s : Sender) : Z * Z * Z * Z :=
  let r := s_rtt s in (rtt_ r, average_rtt_ r, min_rtt_ r, max_rtt_ r).

(** What the controller is told, and the statistics afterwards. *)
Definition Sender_rtt_step (time : Z) (r : RttStats) : (Z * Z) * RttStats :=
  let keep := keep_rtt time in
  let rtt := smooth_rtt (rtt_ r) keep in
  if rtt_num_ r =? 0 then
    ((keep, keep), mkRtt rtt keep (s64 (rtt_num_ r + 1)) keep keep keep)
  else
    let num := s64 (rtt_num_ r + 1) in
    let sum := s64 (sum_rtt_ r + keep) in
    let average := Z.quot sum num in
    ((average, max_rtt_ r),
     mkRtt rtt sum num (if keep <? min_rtt_ r then keep else min_rtt_ r)
       (if max_rtt_ r <? keep then keep else max_rtt_ r) average).

Definition Sender_UpdateRtt (time : Z) : SM unit :=
  s ← mget;
  let '((average, max), r) := Sender_rtt_step time (s_rtt s) in
  s_upd_rtt r;;
  s_do (ctl_OnRttUpdate average max).

Definition Sender_SendPing (now : Z) : SM unit :=
  s_on_end (send_msg sender_uid SIM_PING (BPing {| ts := now |}));;
  s_upd_ping now.

(** A null result of [ParseFrom] is dereferenced. *)
Definition InnerProcessFeedback (fb : sim_feedback_t) : SM unit :=
  match load (feedback fb) 0 (feedback_size fb) with
  | Some bytes =>
      match ParseFrom bytes with
      | Some packet => s_do (OnTransportFeedback packet)
      | None => mstuck
      end
  | None => mstuck
  end.

Definition Sender_ProcessingMsg (stream : bin_stream_t) : SM unit :=
  match sim_decode_header be stream with
  | (Stuck, _) => mstuck
  | (Fail, _) => mret tt
  | (Ok header, stream) =>
      if (mid header <? MIN_MSG_ID) || (MAX_MSG_ID <? mid header) then mret tt
      else if mid header =? SIM_PING then s_on_end (answer_ping sender_uid header stream)
      else if mid header =? SIM_PONG then
        match pong_ts header stream with
        | Ok sent =>
            now ← s_now;
            let rtt := s64 (now - sent) in
            if 0 <? rtt then Sender_UpdateRtt (u32 rtt) else mret tt
        | _ => mstuck
        end
      else if mid header =? SIM_FEEDBACK then
        match sim_decode_msg be header (BFeedback stack_feedback) stream with
        | (Ok (BFeedback fb), _) => InnerProcessFeedback fb
        | (Stuck, _) => mstuck
        | _ => mret tt
        end
      else mret tt
  end.

Definition Sender_Process : SM unit :=
  s ← mget;
  if negb (running_ s) then mret tt
  else
    now ← s_now;
    let delta := if negb (rtt_ (s_rtt s) =? 0) then rtt_ (s_rtt s) else 100 in
    (if delta <? s64 (now - update_ping_ts_ s) then Sender_SendPing now else mret tt);;
    got ← s_on_end receive;
    match got with
    | Some (remote, stream) => s_on_end (mmodify (ep_upd_dst remote));; Sender_ProcessingMsg stream
    | None => mret tt
    end.

(** The destructor frees what was never sent. *)
Definition Sender_destroy : SM unit :=
  s_on_end (mmodify (fun e => ep_upd_stream (bin_stream_destroy (ep_stream e)) e));;
  s_upd_pending [].

(** ** [Receiver] *)

Definition receiver_uid : Z := 4321.

Record RecvRtt := mkRecvRtt { r_rtt_ : Z; r_sum_rtt_ : Z; r_rtt_num_ : Z; r_max_rtt_ : Z }.

Record Receiver := mkReceiver {
  r_end : Endpoint;
  session_connected_ : bool;
  first_packet_ : bool;
  receive_side_cc_ : bool;
  r_rtt : RecvRtt;
  r_update_ping_ts_ : Z;
  r_duration_ : Z;
  stop_ts_ : Z
}.

Local Abbreviation RM := (M Receiver).

Definition new_receiver (w : W) (fd : Z) (dst : su_addr) : Receiver :=
  mkReceiver (new_endpoint w fd dst) false true false (mkRecvRtt 0 0 0 0) 0 0 0.

Definition r_on_end {X} (m : M Endpoint X) : RM X := fun s =>
  let '(r, e) := m (r_end s) in
  (r, mkReceiver e (session_connected_ s) (first_packet_ s) (receive_side_cc_ s) (r_rtt s)
        (r_update_ping_ts_ s) (r_duration_ s) (stop_ts_ s)).

Definition r_upd_connected : RM unit := mmodify (fun s =>
  mkReceiver (r_end s) true (first_packet_ s) (receive_side_cc_ s) (r_rtt s)
    (r_update_ping_ts_ s) (r_duration_ s) (stop_ts_ s)).

Definition r_upd_stop (first : bool) (t : Z) : RM unit := mmodify (fun s =>
  mkReceiver (r_end s) (session_connected_ s) first (receive_side_cc_ s) (r_rtt s)
    (r_update_ping_ts_ s) (r_duration_ s) t).

Definition r_upd_rtt (r : RecvRtt) : RM unit := mmodify (fun s =>
  mkReceiver (r_end s) (session_connected_ s) (first_packet_ s) (receive_side_cc_ s) r
    (r_update_ping_ts_ s) (r_duration_ s) (stop_ts_ s)).

Definition r_upd_ping (t : Z) : RM unit := mmodify (fun s =>
  mkReceiver (r_end s) (session_connected_ s) (first_packet_ s) (receive_side_cc_ s) (r_rtt s)
    t (r_duration_ s) (stop_ts_ s)).

Definition r_now : RM Z := r_on_end ep_now.
Definition r_do (f : W -> W) : RM unit := r_on_end (ep_do f).

Definition SetRunDuration (delta : Z) : RM unit := mmodify (fun s =>
  mkReceiver (r_end s) (session_connected_ s) (first_packet_ s) (receive_side_cc_ s) (r_rtt s)
    (r_update_ping_ts_ s) delta (stop_ts_ s)).

Definition IsStop : RM bool :=
  s ← mget;
  if session_connected_ s && negb (stop_ts_ s =? 0) then
    now ← r_now;
    mret (stop_ts_ s <? u32 now)
  else mret false.

Definition Receiver_Stop : RM unit :=
  s ← mget;
  if receive_side_cc_ s then r_do stop_receive_side_cc else mret tt.

Definition ConfigureCongestion : RM unit :=
  s ← mget;
  if receive_side_cc_ s then mret tt
  else
    mmodify (fun s => mkReceiver (r_end s) (session_connected_ s) (first_packet_ s) true (r_rtt s)
      (r_update_ping_ts_ s) (r_duration_ s) (stop_ts_ s));;
    r_do new_receive_side_cc.

Definition OnRecvSegment (header : sim_header_t) (seg : sim_segment_t) : RM unit :=
  ConfigureCongestion;;
  now ← r_now;
  let now := u32 now in
  let overhead := u32 (data_size seg + SIM_SEGMENT_HEADER_SIZE) in
  r_do (OnReceivedPacket now overhead (uid header) (transport_seq seg));;
  s ← mget;
  if first_packet_ s then r_upd_stop false (u32 (now + r_duration_ s)) else mret tt.

Definition OnRecvPad (header : sim_header_t) (body : sim_pad_t) : RM unit :=
  now ← r_now;
  let now := u32 now in
  let header_len := sizeof_header + sizeof_pad in
  let overhead := u32 (pad_data_size body + header_len) in
  ConfigureCongestion;;
  r_do (OnReceivedPacket now overhead (uid header) (pad_transport_seq body)).

(** What the controller is told if there is one, and the statistics. *)
Definition Receiver_rtt_step (time : Z) (r : RecvRtt) : (Z * Z) * RecvRtt :=
  let keep := keep_rtt time in
  let rtt := smooth_rtt (r_rtt_ r) keep in
  if r_rtt_num_ r =? 0 then
    ((keep, keep), mkRecvRtt rtt keep (s64 (r_rtt_num_ r + 1)) keep)
  else
    let num := s64 (r_rtt_num_ r + 1) in
    let sum := s64 (r_sum_rtt_ r + keep) in
    let average := u32 (Z.quot sum num) in
    let max := if r_max_rtt_ r <? keep then keep else r_max_rtt_ r in
    ((average, max), mkRecvRtt rtt sum num max).

Definition Receiver_UpdateRtt (time : Z) : RM unit :=
  s ← mget;
  let '((average, max), r) := Receiver_rtt_step time (r_rtt s) in
  r_upd_rtt r;;
  if receive_side_cc_ s then r_do (cc_OnRttUpdate average max) else mret tt.

Definition Receiver_SendPing (now : Z) : RM unit :=
  r_on_end (send_msg receiver_uid SIM_PING (BPing {| ts := now |}));;
  r_upd_ping now.

(** The feedback structure is a local; only the bytes in use are written. *)
Definition SendTransportFeedback (packet : TransportFeedback) : RM bool :=
  let serialized := Build receiver_uid packet in
  let payload_size := u32 (zlen serialized) in
  if SIM_FEEDBACK_SIZE <? payload_size then mret false
  else
    match load serialized 0 payload_size with
    | Some bytes =>
        match store (feedback stack_feedback) 0 bytes with
        | Some buf =>
            r_on_end (send_msg receiver_uid SIM_FEEDBACK (BFeedback
              {| fb_base_packet_id := 0; feedback_size := u16 payload_size; feedback := buf |}));;
            mret true
        | None => mstuck
        end
    | None => mstuck
    end.

Definition Receiver_ProcessingMsg (stream : bin_stream_t) : RM unit :=
  match sim_decode_header be stream with
  | (Stuck, _) => mstuck
  | (Fail, _) => mret tt
  | (Ok header, stream) =>
      if (mid header <? MIN_MSG_ID) || (MAX_MSG_ID <? mid header) then mret tt
      else
        r_upd_connected;;
        if mid header =? SIM_PING then r_on_end (answer_ping receiver_uid header stream)
        else if mid header =? SIM_PONG then
          match pong_ts header stream with
          | Ok sent =>
              now ← r_now;
              let rtt := s64 (now - sent) in
              if 0 <? rtt then Receiver_UpdateRtt (u32 rtt) else mret tt
          | _ => mstuck
          end
        else if mid header =? SIM_SEG then
          match sim_decode_msg be header (BSegment stack_segment) stream with
          | (Ok (BSegment seg), _) => OnRecvSegment header seg
          | (Stuck, _) => mstuck
          | _ => mret tt
          end
        else if mid header =? SIM_PAD then
          match sim_decode_msg be header
            (BPad {| pad_send_ts := 0; pad_transport_seq := 0; pad_data_size := 0; pad_data := stack_pad |}) stream with
          | (Ok (BPad pad), _) => OnRecvPad header pad
          | (Stuck, _) => mstuck
          | _ => mret tt
          end
        else mret tt
  end.

(** The ping's time is cut to 32 bits. *)
Definition Receiver_Process : RM unit :=
  s ← mget;
  (if session_connected_ s then
     now ← r_now;
     let now := u32 now in
     let delta := if negb (r_rtt_ (r_rtt s) =? 0) then r_rtt_ (r_rtt s) else 100 in
     if delta <? s64 (now - r_update_ping_ts_ s) then Receiver_SendPing now else mret tt
   else mret tt);;
  got ← r_on_end receive;
  match got with
  | Some (remote, stream) =>
      s ← mget;
      (if session_connected_ s then mret tt
       else
         r_now;;
         r_upd_connected;;
         r_on_end (mmodify (ep_upd_dst remote)));;
      Receiver_ProcessingMsg stream
  | None => mret tt
  end.

(** The destructor. *)
Definition Receiver_destroy : RM unit :=
  r_on_end (mmodify (fun e => ep_upd_stream (bin_stream_destroy (ep_stream e)) e)).

End Mininet.
