(* ===== verification/MininetMsgs.v ===== *)
(** * Messages between the emulation's end points

    What a method of [Mininet.v] sends as a datagram, what the other end makes
    of it, and that a datagram longer than the fresh stream it is received into
    is lost. *)

From S2P Require Import Prelude Stream Crc32 SimProto StdMap Platform AppHeader Mininet.
Open Scope Z_scope.

(** A stream into which a datagram has just been received. *)
Definition holds (r : bin_stream_t) (d : list Z) : Prop := readable r /\ rsize r = 0 /\ content r = d.

(** The arrays of the local structures have their sizes and hold bytes. *)
Class StackOk (ST : Stack) : Prop := {
  stack_segment_ok : body_shape (BSegment stack_segment);
  stack_feedback_ok : body_shape (BFeedback stack_feedback) /\ bytes_ok (feedback stack_feedback);
  stack_pad_ok : zlen stack_pad = PADDING_DATA_SIZE /\ bytes_ok stack_pad
}.

Section Messages.
Context `{PO : PlatformOk} (be : Z).

Definition datagram (uid id : Z) (b : sim_body) : list Z :=
  content (sim_encode_msg be (INIT_SIM_HEADER id uid) b fresh_stream).2.

Lemma datagram_spec uid id b o :
  in_u 32 uid -> in_u 8 id -> body_ok b -> body_shape o -> body_matches id b = true -> body_matches id o = true ->
  zlen (datagram uid id b) = 10 + body_size b /\ bytes_ok (datagram uid id b) /\
  (forall s, readable s -> exists s1, sim_encode_msg be (INIT_SIM_HEADER id uid) b s = (Ok tt, s1) /\
     wf s1 /\ content s1 = datagram uid id b) /\
  (forall r, holds r (datagram uid id b) -> exists r1 r2,
     sim_decode_header be r = (Ok (INIT_SIM_HEADER id uid), r1) /\
     sim_decode_msg be (INIT_SIM_HEADER id uid) o r1 = (Ok (received b o), r2) /\ readable r2).
Proof.
  intros Hu Hi Hb Ho Mb Mo. assert (header_ok (INIT_SIM_HEADER id uid)) as Hh by (split; [done|by split]).
  destruct (encode_decode be (INIT_SIM_HEADER id uid) b o) as (d & Hl & Hby & Henc & Hdec); [done..|].
  destruct (Henc fresh_stream (proj1 fresh_stream_wf)) as (s0 & E0 & _ & Hc0).
  unfold datagram. rewrite E0. cbn [snd]. rewrite Hc0. unfold SIM_HEADER_SIZE in Hl.
  split; [lia|]. split; [done|]. split; [done|]. intros r (Hr & Hr0 & Hc).
  destruct (Hdec r Hr Hr0 Hc) as (r1 & r2 & E1 & E2 & H2 & _). by exists r1, r2.
Qed.

(** A message whose body holds what is decoded for it. *)
Lemma datagram_len uid id b : in_u 32 uid -> in_u 8 id -> body_ok b -> body_matches id b = true ->
  zlen (datagram uid id b) = 10 + body_size b.
Proof.
  intros Hu Hi Hb Mb. assert (body_shape b) as Hs by (destruct b; apply Hb).
  by destruct (datagram_spec uid id b b Hu Hi Hb Hs Mb Mb).
Qed.

Lemma datagram_bytes uid id b : in_u 32 uid -> in_u 8 id -> body_ok b -> body_matches id b = true ->
  bytes_ok (datagram uid id b).
Proof.
  intros Hu Hi Hb Mb. assert (body_shape b) as Hs by (destruct b; apply Hb).
  by destruct (datagram_spec uid id b b Hu Hi Hb Hs Mb Mb) as (_ & ? & _).
Qed.

(** The decoder's verdict on a datagram cut short. *)
Lemma truncated_rejected r d n :
  holds r (ztake n d) -> 4 <= n <= zlen d ->
  get_uint be (zdrop (n - 4) (ztake n d)) <> crc32_bytes CRC_VAL (ztake (n - 4) d) ->
  sim_decode_header be r = (Fail, r).
Proof.
  intros (Hr & _ & Hc) Hn Hne.
  assert (ztake n d = ztake (n - 4) d ++ zdrop (n - 4) (ztake n d)) as Hsplit.
  { rewrite <- (ztake_drop (n - 4) (ztake n d)) at 1. f_equal. unfold ztake. rewrite take_take. f_equal. lia. }
  rewrite (decode_header_eq be r (ztake (n - 4) d) (zdrop (n - 4) (ztake n d)) Hr).
  - by rewrite (proj2 (Z.eqb_neq _ _) Hne).
  - by rewrite Hc.
  - rewrite zlen_zdrop, zlen_ztake by (rewrite ?zlen_ztake; lia). lia.
Qed.

Context {W : Type} `{ML : Millis W} `{SK : Sockets W} `{RTC : Webrtc W} `{SRC : VideoSource W}
  `{ST : Stack} `{STO : !StackOk ST}.

Local Abbreviation endpoint := (@Endpoint W).

(** [bin_stream_init] finds memory. *)
Definition has_memory : Prop := exists d, malloc DEFAULT_PACKET_SIZE = Some d.

Lemma init_stream : has_memory ->
  let s := (bin_stream_init stack_stream).2 in
  wf s /\ size s = DEFAULT_PACKET_SIZE /\ rsize s = 0.
Proof.
  intros [d Hd]. unfold bin_stream_init. rewrite Hd. cbn.
  destruct (malloc_ok DEFAULT_PACKET_SIZE d ltac:(done) Hd) as [Hl Hb]. split; [|done].
  split; [|done]. split; cbn; unfold DEFAULT_PACKET_SIZE in *; try lia; done.
Qed.

(** What sending leaves behind. *)
Definition sent (d : list Z) (w : W) (fd : Z) (dst : su_addr) : W := (su_udp_send fd dst d w).2.

Lemma load_content s : readable s -> used s < 2 ^ 32 -> load (data s) 0 (u32 (used s)) = Some (content s).
Proof.
  intros Hs Hu. destruct Hs as [Hl _ _ Hr Hus _]. rewrite (wrap_id 32) by (unfold in_u; lia).
  unfold load, content. by rewrite !(proj2 (Z.leb_le _ _)) by lia.
Qed.

Lemma send_stream_ok (e : endpoint) s d : wf s -> content s = d -> zlen d < 2 ^ 32 ->
  SendToNetwork (data s) (used s) e =
    (Ok tt, ep_upd_world (sent d (ep_world e) (ep_fd e) (ep_dst e)) e).
Proof.
  intros [Hs _] Hc Hl. pose proof (content_len s Hs) as Hu. rewrite Hc in Hu.
  unfold SendToNetwork. by rewrite load_content, Hc by (done || lia).
Qed.

Lemma body_small b uid id : in_u 32 uid -> in_u 8 id -> body_ok b -> body_matches id b = true ->
  zlen (datagram uid id b) < 2 ^ 32.
Proof.
  intros. rewrite datagram_len by done. pose proof (body_size_range b ltac:(done)).
  change (2 ^ 32) with 4294967296. lia.
Qed.

Lemma send_msg_ok (e : endpoint) uid id b :
  readable (ep_stream e) -> in_u 32 uid -> in_u 8 id -> body_ok b -> body_matches id b = true ->
  exists s1, wf s1 /\ send_msg be uid id b e = (Ok tt,
    mkEndpoint (sent (datagram uid id b) (ep_world e) (ep_fd e) (ep_dst e)) (ep_fd e) (ep_dst e) s1).
Proof.
  intros Hs Hu Hi Hb Mb. assert (body_shape b) as Hsh by (destruct b; apply Hb).
  destruct (datagram_spec uid id b b Hu Hi Hb Hsh Mb Mb) as (_ & _ & Henc & _).
  destruct (Henc _ Hs) as (s1 & E & Hs1 & Hc). exists s1. split; [done|].
  unfold send_msg. rewrite E.
  by rewrite (send_stream_ok _ s1 (datagram uid id b) Hs1 Hc (body_small b uid id Hu Hi Hb Mb)).
Qed.

(** A datagram that fits is received whole. *)
Lemma receive_ok (e : endpoint) remote bytes w : has_memory ->
  su_udp_recv (ep_fd e) DEFAULT_PACKET_SIZE 0 (ep_world e) = (zlen bytes, Some (remote, bytes), w) ->
  bytes <> [] -> zlen bytes <= DEFAULT_PACKET_SIZE -> bytes_ok bytes ->
  exists r, receive e = (Ok (Some (remote, r)), ep_upd_world w e) /\ holds r bytes.
Proof.
  intros Hm E Hne Hl Hb. destruct (init_stream Hm) as ([Hs _] & Hsz & Hr0). unfold receive.
  destruct (bin_stream_init stack_stream) as [code s]. cbn [snd] in *.
  rewrite Hsz, E. cbv zeta.
  assert (0 < zlen bytes) as Hpos by (destruct bytes; [done|]; rewrite zlen_cons; pose proof (zlen_nonneg bytes); lia).
  rewrite (proj2 (Z.ltb_lt _ _) Hpos).
  pose proof (wf_len s Hs) as Hlen. rewrite Hsz in Hlen.
  unfold store at 1. rewrite !(proj2 (Z.leb_le _ _)) by lia. cbn [andb].
  eexists. split; [reflexivity|]. change (ztake 0 (data s)) with (@nil Z). rewrite app_nil_l, Z.add_0_l.
  assert (zlen (bytes ++ zdrop (zlen bytes) (data s)) = DEFAULT_PACKET_SIZE) as Hbuf
    by (rewrite zlen_app, zlen_zdrop; lia).
  split; [|split; [exact Hr0|]].
  - destruct Hs as [H1 H2 H3 H4 H5 H6]. split; cbn [data size rptr rsize used].
    + done.
    + apply Forall_app. split; [done|]. by apply Forall_drop.
    + done.
    + rewrite Hr0. lia.
    + lia.
    + done.
  - unfold content. cbn [used data]. apply ztake_app.
Qed.

(** *** Pings *)

Lemma ping_ok t : in_s 64 t -> body_ok (BPing {| ts := t |}).
Proof. by split. Qed.

Lemma pong_ts_ok uid id t r r1 :
  (id = SIM_PING \/ id = SIM_PONG) -> in_u 32 uid -> in_s 64 t ->
  holds r (datagram uid id (BPing {| ts := t |})) ->
  sim_decode_header be r = (Ok (INIT_SIM_HEADER id uid), r1) ->
  pong_ts be (INIT_SIM_HEADER id uid) r1 = Ok t.
Proof.
  intros Hid Hu Ht Hr E1.
  destruct (datagram_spec uid id (BPing {| ts := t |}) (BPing stack_ping)) as (_ & _ & _ & Hdec);
    [done|destruct Hid as [-> | ->]; by unfold in_u|by apply ping_ok|done|destruct Hid as [-> | ->]; done..|].
  destruct (Hdec r Hr) as (r1' & r2 & E1' & E2 & _). rewrite E1 in E1'. injection E1' as <-.
  unfold pong_ts. rewrite E2. done.
Qed.

(** The other end answers a ping with a pong of the same time. *)
Lemma answer_ping_ok (e : endpoint) uid peer t r r1 : in_u 32 uid -> in_u 32 peer -> in_s 64 t ->
  holds r (datagram peer SIM_PING (BPing {| ts := t |})) ->
  sim_decode_header be r = (Ok (INIT_SIM_HEADER SIM_PING peer), r1) ->
  answer_ping be uid (INIT_SIM_HEADER SIM_PING peer) r1 e = (Ok tt, ep_upd_world
    (sent (datagram uid SIM_PONG (BPing {| ts := t |})) (ep_world e) (ep_fd e) (ep_dst e)) e).
Proof.
  intros Hu Hp Ht Hr E1.
  destruct (datagram_spec peer SIM_PING (BPing {| ts := t |}) (BPing stack_ping)) as (_ & _ & _ & Hdec);
    [done|done|by apply ping_ok|done..|].
  destruct (Hdec r Hr) as (r1' & r2 & E1' & E2 & Hr2). rewrite E1 in E1'. injection E1' as <-.
  unfold answer_ping. rewrite E2.
  destruct (datagram_spec uid SIM_PONG (BPing {| ts := t |}) (BPing stack_ping)) as (_ & _ & Henc & _);
    [done|done|by apply ping_ok|done..|].
  destruct (Henc r2 Hr2) as (s1 & E & Hs1 & Hc1). change (received (BPing {| ts := t |}) (BPing stack_ping))
    with (BPing {| ts := t |}). rewrite E.
  apply send_stream_ok; [done|done|]. apply body_small; [done|done|by apply ping_ok|done].
Qed.

End Messages.
