(* ===== verification/MininetProps.v ===== *)
(** * Theorems on the emulation's end points

    Pings measure, segments and feedback get through or do not, padding is
    accounted for, and the statistics of the round-trip time. *)

From S2P Require Import Prelude Stream Crc32 SimProto StdMap Platform AppHeader Mininet MininetMsgs.
Open Scope Z_scope.

Section Ends.
Context `{PO : PlatformOk} (be : Z).
Context {W : Type} `{ML : Millis W} `{SK : Sockets W} `{RTC : Webrtc W} `{SRC : VideoSource W}
  `{ST : Stack} `{STO : !StackOk ST}.

Local Abbreviation sender := (@Sender W).
Local Abbreviation receiver := (@Receiver W).

Definition s_set_end (e : @Endpoint W) (s : sender) : sender :=
  mkSender e (running_ s) (pending_buf_ s) (frame_seed_ s) (packet_seed_ s) (trans_seq_ s)
    (has_encoder s) (first_ts_ s) (s_rtt s) (update_ping_ts_ s).

Definition r_set_end (e : @Endpoint W) (s : receiver) : receiver :=
  mkReceiver e (session_connected_ s) (first_packet_ s) (receive_side_cc_ s) (r_rtt s)
    (r_update_ping_ts_ s) (r_duration_ s) (stop_ts_ s).

(** The receiver once it has heard of its peer. *)
Definition connected (s : receiver) : receiver :=
  mkReceiver (r_end s) true (first_packet_ s) (receive_side_cc_ s) (r_rtt s)
    (r_update_ping_ts_ s) (r_duration_ s) (stop_ts_ s).

Lemma s_on_end_ok {X} (m : M (@Endpoint W) X) (s : sender) x e :
  m (s_end s) = (Ok x, e) -> s_on_end m s = (Ok x, s_set_end e s).
Proof. unfold s_on_end. by intros ->. Qed.

Lemma r_on_end_ok {X} (m : M (@Endpoint W) X) (s : receiver) x e :
  m (r_end s) = (Ok x, e) -> r_on_end m s = (Ok x, r_set_end e s).
Proof. unfold r_on_end. by intros ->. Qed.

Lemma s_now_eq (s : sender) :
  let '(now, w) := TimeMillis (ep_world (s_end s)) in
  s_now s = (Ok now, s_set_end (ep_upd_world w (s_end s)) s).
Proof. unfold s_now, s_on_end, ep_now. by destruct (TimeMillis _). Qed.

(** What both ends make of the header of a datagram they hold. *)
Lemma header_of uid id b r : in_u 32 uid -> in_u 8 id -> body_ok b -> body_matches id b = true ->
  holds r (datagram be uid id b) ->
  exists r1, sim_decode_header be r = (Ok (INIT_SIM_HEADER id uid), r1).
Proof.
  intros Hu Hi Hb Mb Hr. assert (body_shape b) as Hsh by (destruct b; apply Hb).
  destruct (datagram_spec be uid id b b Hu Hi Hb Hsh Mb Mb) as (_ & _ & _ & Hdec).
  destruct (Hdec r Hr) as (r1 & r2 & E & _). by exists r1.
Qed.

(** ** Pings *)

Definition ping (uid t : Z) : list Z := datagram be uid SIM_PING (BPing {| ts := t |}).
Definition pong (uid t : Z) : list Z := datagram be uid SIM_PONG (BPing {| ts := t |}).

(** C32: The round trip the sender measures.  A ping leaves with the time it was
    given; the receiver that gets it answers at once with a pong of the same
    time; and when the sender gets that, the difference to its clock, if
    positive, is what [UpdateRtt] is told, and nothing else changes. *)
Theorem ping_measures (s : sender) (r : receiver) t :
  readable (ep_stream (s_end s)) -> in_s 64 t ->
  (exists s1, Sender_SendPing be t s = (Ok tt, s1) /\ update_ping_ts_ s1 = t /\
     ep_world (s_end s1) =
       sent (ping sender_uid t) (ep_world (s_end s)) (ep_fd (s_end s)) (ep_dst (s_end s))) /\
  (forall p, holds p (ping sender_uid t) ->
     Receiver_ProcessingMsg be p r = (Ok tt, r_set_end (ep_upd_world
       (sent (pong receiver_uid t) (ep_world (r_end r)) (ep_fd (r_end r)) (ep_dst (r_end r))) (r_end r))
       (connected r))) /\
  (forall q, holds q (pong receiver_uid t) ->
     Sender_ProcessingMsg be q s =
       let '(now, w) := TimeMillis (ep_world (s_end s)) in
       let s1 := s_set_end (ep_upd_world w (s_end s)) s in
       if 0 <? s64 (now - t) then Sender_UpdateRtt (u32 (s64 (now - t))) s1 else (Ok tt, s1)).
Proof.
  intros Hs Ht. pose proof (ping_ok t Ht) as Hb. split; [|split].
  - destruct (send_msg_ok be (s_end s) sender_uid SIM_PING (BPing {| ts := t |}) Hs) as (st & _ & E); [done..|].
    unfold Sender_SendPing. rewrite (M_bind_ok _ _ _ _ _ (s_on_end_ok _ s tt _ E)). by eexists.
  - intros p Hp. destruct (header_of sender_uid SIM_PING _ p ltac:(done) ltac:(done) Hb eq_refl Hp) as (p1 & E).
    unfold Receiver_ProcessingMsg. rewrite E. cbn [INIT_SIM_HEADER mid].
    change ((SIM_PING <? MIN_MSG_ID) || (MAX_MSG_ID <? SIM_PING)) with false. change (SIM_PING =? SIM_PING) with true.
    cbv iota. rewrite (M_bind_ok r_upd_connected _ r tt (connected r)) by done.
    apply (r_on_end_ok (answer_ping be receiver_uid (INIT_SIM_HEADER SIM_PING sender_uid) p1)).
    apply (answer_ping_ok be (r_end r) receiver_uid sender_uid t p p1); done.
  - intros q Hq. destruct (header_of receiver_uid SIM_PONG _ q ltac:(done) ltac:(done) Hb eq_refl Hq) as (q1 & E).
    unfold Sender_ProcessingMsg. rewrite E. cbn [INIT_SIM_HEADER mid].
    change ((SIM_PONG <? MIN_MSG_ID) || (MAX_MSG_ID <? SIM_PONG)) with false.
    change (SIM_PONG =? SIM_PING) with false. change (SIM_PONG =? SIM_PONG) with true. cbv iota.
    fold (INIT_SIM_HEADER SIM_PONG receiver_uid).
    rewrite (pong_ts_ok be receiver_uid SIM_PONG t q q1); [|by right|done|done|done|done].
    pose proof (s_now_eq s) as En. destruct (TimeMillis (ep_world (s_end s))) as [now w].
    rewrite (M_bind_ok _ _ _ _ _ En). cbv beta zeta. by destruct (0 <? _).
Qed.

(** ** Segments *)

Lemma stamp_ok first now seg : body_ok (BSegment seg) -> body_ok (BSegment (stamp_segment first now seg)).
Proof.
  intros [Hsh H]. split; [done|]. cbn in *. destruct_and!. split_and?; try done. all: try apply wrap_range; try lia.
Qed.

(** C11: What becomes of a segment the pacer asks for.  It leaves in one datagram
    of 28 bytes more than its data, six more for large numbers, is taken from
    [pending_buf_] and reported to the controller.  A datagram of at most 1024
    bytes reaches the receiver's congestion controller.  But a fresh stream
    holds no more: of a longer one - every full segment has 1028 bytes or more -
    the receiver gets 1024 bytes, and drops them, unless the last four happen
    to be the checksum of the others. *)
Theorem segment_transport (s : sender) (r : receiver) n info seg :
  readable (ep_stream (s_end s)) -> find n (pending_buf_ s) = Some seg -> body_ok (BSegment seg) ->
  let '(now, w) := TimeMillis (ep_world (s_end s)) in
  let out := BSegment (stamp_segment (first_ts_ s) (u32 now) seg) in
  let d := datagram be sender_uid SIM_SEG out in
  exists s1, TimeToSendPacket be n info s = (Ok true, s1) /\
    pending_buf_ s1 = erase n (pending_buf_ s) /\
    ep_world (s_end s1) = OnSentPacket n now (AddPacket sender_uid n
      (u16 (data_size seg + SIM_SEGMENT_HEADER_SIZE)) info (sent d w (ep_fd (s_end s)) (ep_dst (s_end s)))) /\
    28 + data_size seg <= zlen d <= 34 + data_size seg /\
    (zlen d <= DEFAULT_PACKET_SIZE -> forall p, holds p d -> exists seg',
       received out (BSegment stack_segment) = BSegment seg' /\
       Receiver_ProcessingMsg be p r = OnRecvSegment (INIT_SIM_HEADER SIM_SEG sender_uid) seg' (connected r)) /\
    (DEFAULT_PACKET_SIZE < zlen d -> forall p, holds p (ztake DEFAULT_PACKET_SIZE d) ->
       get_uint be (zdrop (DEFAULT_PACKET_SIZE - 4) (ztake DEFAULT_PACKET_SIZE d)) <>
         crc32_bytes CRC_VAL (ztake (DEFAULT_PACKET_SIZE - 4) d) ->
       Receiver_ProcessingMsg be p r = (Ok tt, r)).
Proof.
  intros Hs Hf Hb. pose proof (s_now_eq (mkSender (s_end s) (running_ s) (erase n (pending_buf_ s))
    (frame_seed_ s) (packet_seed_ s) (trans_seq_ s) (has_encoder s) (first_ts_ s) (s_rtt s)
    (update_ping_ts_ s))) as En. cbn [s_end] in En.
  destruct (TimeMillis (ep_world (s_end s))) as [now w]. cbv zeta.
  pose proof (stamp_ok (first_ts_ s) (u32 now) seg Hb) as Ho. set (out := stamp_segment _ _ seg) in *.
  set (d := datagram be sender_uid SIM_SEG (BSegment out)).
  match type of En with s_now ?x = _ => set (s0 := x) in * end.
  destruct (send_msg_ok be (ep_upd_world w (s_end s)) sender_uid SIM_SEG (BSegment out) Hs)
    as (st & _ & E); [done..|].
  eexists. split; [|split; [|split; [|split; [|split]]]].
  - unfold TimeToSendPacket. rewrite (M_bind_ok _ _ s (Some seg) s0);
      [|unfold get_segment_t; rewrite (M_bind_ok mget _ _ s s) by done; cbv beta; by rewrite Hf].
    rewrite (M_bind_ok _ _ _ _ _ En). cbv beta iota zeta.
    rewrite (M_bind_ok (SendSegment be seg (u32 now)) _ (s_set_end (ep_upd_world w (s_end s)) s0) tt _
      (s_on_end_ok _ (s_set_end (ep_upd_world w (s_end s)) s0) tt _ E)). reflexivity.
  - done.
  - done.
  - assert (zlen d = 10 + body_size (BSegment out)) as -> by by apply datagram_len.
    change (data_size seg) with (data_size out). cbn [body_size]. unfold wide_size, index_size.
    repeat case_match; lia.
  - intros Hl p Hp. cbn [received]. eexists. split; [reflexivity|].
    destruct (datagram_spec be sender_uid SIM_SEG (BSegment out) (BSegment stack_segment))
      as (_ & _ & _ & Hdec); [done|done|done|apply stack_segment_ok|done|done|].
    destruct (Hdec p Hp) as (p1 & p2 & E1 & E2 & _).
    unfold Receiver_ProcessingMsg. rewrite E1. cbn [INIT_SIM_HEADER mid].
    change ((SIM_SEG <? MIN_MSG_ID) || (MAX_MSG_ID <? SIM_SEG)) with false.
    cbv iota. rewrite (M_bind_ok r_upd_connected _ r tt (connected r)) by done.
    change (SIM_SEG =? SIM_PING) with false. change (SIM_SEG =? SIM_PONG) with false.
    change (SIM_SEG =? SIM_SEG) with true. cbv iota. fold (INIT_SIM_HEADER SIM_SEG sender_uid).
    rewrite E2. reflexivity.
  - intros Hl p Hp Hne. unfold Receiver_ProcessingMsg.
    rewrite (truncated_rejected be p d DEFAULT_PACKET_SIZE Hp); [done| |done].
    unfold DEFAULT_PACKET_SIZE in *. lia.
Qed.

(** ** Feedback *)

(** What [Build] returns are bytes. *)
Definition builds_bytes : Prop := forall ssrc packet, bytes_ok (Build ssrc packet).

Lemma load_overwrite n src old : 0 <= n <= zlen src -> n <= zlen old ->
  load (overwrite n src old) 0 n = Some (ztake n src).
Proof.
  intros Hn Ho. unfold overwrite.
  rewrite <- (app_nil_l (ztake n src)) at 1. rewrite <- app_assoc.
  apply (load_ok [] (ztake n src)); [done|]. by rewrite zlen_ztake.
Qed.

Lemma overwrite_ok n src old : 0 <= n <= zlen src -> n <= zlen old -> bytes_ok src -> bytes_ok old ->
  bytes_ok (overwrite n src old) /\ zlen (overwrite n src old) = zlen old.
Proof.
  intros Hn Ho Hs Hold. unfold overwrite. split.
  - apply Forall_app. split; [by apply Forall_take|by apply Forall_drop].
  - rewrite zlen_app, zlen_ztake, zlen_zdrop by lia. lia.
Qed.

(** The message a packet of [bytes] travels in. *)
Definition feedback_body (bytes : list Z) : sim_body := BFeedback
  {| fb_base_packet_id := 0; feedback_size := zlen bytes; feedback := overwrite (zlen bytes) bytes (feedback stack_feedback) |}.

Lemma feedback_body_ok bytes : bytes_ok bytes -> zlen bytes <= SIM_FEEDBACK_SIZE -> body_ok (feedback_body bytes).
Proof.
  intros Hb Hle. destruct (stack_feedback_ok (ST := ST)) as [Hsf Hbf]. cbn [body_shape] in Hsf. pose proof (zlen_nonneg bytes).
  destruct (overwrite_ok (zlen bytes) bytes (feedback stack_feedback)) as [Hob Hol]; [lia|rewrite Hsf; lia|done|done|].
  split; [by cbn [body_shape feedback feedback_body]; rewrite Hol|]. by split_and!.
Qed.

Lemma feedback_not_sent (r : receiver) packet : SIM_FEEDBACK_SIZE < zlen (Build receiver_uid packet) ->
  zlen (Build receiver_uid packet) < 2 ^ 32 -> SendTransportFeedback be packet r = (Ok false, r).
Proof.
  intros Hgt Hlt. pose proof (zlen_nonneg (Build receiver_uid packet)). unfold SendTransportFeedback.
  by rewrite (wrap_id 32), (proj2 (Z.ltb_lt _ _)) by (unfold in_u; lia).
Qed.

Lemma feedback_sent (r : receiver) packet : readable (ep_stream (r_end r)) -> builds_bytes ->
  zlen (Build receiver_uid packet) <= SIM_FEEDBACK_SIZE ->
  let e := r_end r in
  let d := datagram be receiver_uid SIM_FEEDBACK (feedback_body (Build receiver_uid packet)) in
  exists st, wf st /\ SendTransportFeedback be packet r =
    (Ok true, r_set_end (mkEndpoint (sent d (ep_world e) (ep_fd e) (ep_dst e)) (ep_fd e) (ep_dst e) st) r).
Proof.
  intros Hr Hbytes Hle. cbv zeta. pose proof (feedback_body_ok _ (Hbytes receiver_uid packet) Hle) as Hbody.
  set (bytes := Build receiver_uid packet) in *. pose proof (zlen_nonneg bytes).
  destruct (send_msg_ok be (r_end r) receiver_uid SIM_FEEDBACK (feedback_body bytes) Hr) as (st & Hst & E); [done..|].
  exists st. split; [done|]. unfold SendTransportFeedback. fold bytes. unfold SIM_FEEDBACK_SIZE in *.
  rewrite (wrap_id 32) by (unfold_int; lia). rewrite (proj2 (Z.ltb_ge _ _)) by done. cbv zeta.
  destruct (stack_feedback_ok (ST := ST)) as [Hsf _]. cbn [body_shape] in Hsf. unfold SIM_FEEDBACK_SIZE in Hsf.
  assert (load bytes 0 (zlen bytes) = Some bytes) as -> by apply load_all.
  pose proof (store_prefix (zlen bytes) bytes (feedback stack_feedback) ltac:(lia) ltac:(rewrite Hsf; lia)) as Est.
  rewrite ztake_zlen in Est. rewrite Est, (wrap_id 16) by (unfold_int; lia).
  by rewrite (M_bind_ok _ _ _ _ _ (r_on_end_ok _ r tt _ E)).
Qed.

(** C33: The receiver's feedback.  A packet of up to 1000 bytes leaves in one
    datagram that fits the sender's stream, and the sender's controller is given
    exactly what WebRTC parses from those bytes; if that is nothing, the sender
    dereferences a null pointer.  A longer packet is not sent. *)
Theorem feedback_delivered (r : receiver) (s : sender) packet :
  readable (ep_stream (r_end r)) -> builds_bytes -> zlen (Build receiver_uid packet) < 2 ^ 32 ->
  let bytes := Build receiver_uid packet in
  if zlen bytes <=? SIM_FEEDBACK_SIZE then
    exists r1 d, SendTransportFeedback be packet r = (Ok true, r1) /\
      ep_world (r_end r1) = sent d (ep_world (r_end r)) (ep_fd (r_end r)) (ep_dst (r_end r)) /\
      zlen d <= DEFAULT_PACKET_SIZE /\
      forall q, holds q d -> Sender_ProcessingMsg be q s =
        match ParseFrom bytes with
        | Some fb => (Ok tt, s_set_end (ep_upd_world (OnTransportFeedback fb (ep_world (s_end s))) (s_end s)) s)
        | None => (Stuck, s)
        end
  else SendTransportFeedback be packet r = (Ok false, r).
Proof.
  intros Hr Hbytes Hlt. cbv zeta. destruct (Z.leb_spec (zlen (Build receiver_uid packet)) SIM_FEEDBACK_SIZE) as [Hle|Hgt];
    [|by apply feedback_not_sent].
  destruct (feedback_sent r packet Hr Hbytes Hle) as (st & _ & E).
  pose proof (feedback_body_ok _ (Hbytes receiver_uid packet) Hle) as Hbody. set (bytes := Build receiver_uid packet) in *.
  pose proof (zlen_nonneg bytes) as Hnn. destruct (stack_feedback_ok (ST := ST)) as [Hsf Hbf]. cbn [body_shape] in Hsf.
  unfold SIM_FEEDBACK_SIZE in *.
  eexists _, (datagram be receiver_uid SIM_FEEDBACK (feedback_body bytes)). split; [exact E|]. split; [done|]. split.
  - rewrite datagram_len by done. unfold DEFAULT_PACKET_SIZE. cbn [body_size feedback_body feedback_size]. lia.
  - intros q Hq.
    destruct (datagram_spec be receiver_uid SIM_FEEDBACK (feedback_body bytes) (BFeedback stack_feedback)) as (_ & _ & _ & Hdec);
      [done|done|done|done|done|done|].
    destruct (Hdec q Hq) as (q1 & q2 & E1 & E2 & _).
    unfold Sender_ProcessingMsg. rewrite E1. cbn [INIT_SIM_HEADER mid].
    change ((SIM_FEEDBACK <? MIN_MSG_ID) || (MAX_MSG_ID <? SIM_FEEDBACK)) with false.
    change (SIM_FEEDBACK =? SIM_PING) with false. change (SIM_FEEDBACK =? SIM_PONG) with false.
    change (SIM_FEEDBACK =? SIM_FEEDBACK) with true. cbv iota. fold (INIT_SIM_HEADER SIM_FEEDBACK receiver_uid).
    rewrite E2. unfold InnerProcessFeedback, feedback_body. cbn [received fb_base_packet_id feedback_size feedback].
    pose proof (proj1 Hbody) as Hol. cbn [body_shape feedback_body feedback] in Hol. unfold SIM_FEEDBACK_SIZE in Hol.
    rewrite load_overwrite by (rewrite ?Hol, ?Hsf; lia).
    assert (ztake (zlen bytes) (overwrite (zlen bytes) bytes (feedback stack_feedback)) = bytes) as ->.
    { unfold overwrite. rewrite ztake_zlen. apply ztake_app. }
    by destruct (ParseFrom bytes).
Qed.

(** ** Padding *)

Definition pad_datagram (seq n ts : Z) : list Z := datagram be sender_uid SIM_PAD
  (BPad {| pad_send_ts := ts; pad_transport_seq := seq; pad_data_size := n; pad_data := stack_pad |}).

Definition after_pad (n ts : Z) info (s : sender) st : sender :=
  let e := s_end s in
  mkSender (mkEndpoint (OnSentPacket (trans_seq_ s) ts (AddPacket sender_uid (trans_seq_ s) (516 + n) info
      (sent (pad_datagram (trans_seq_ s) n ts) (ep_world e) (ep_fd e) (ep_dst e)))) (ep_fd e) (ep_dst e) st)
    (running_ s) (pending_buf_ s) (frame_seed_ s) (packet_seed_ s) (u16 (trans_seq_ s + 1))
    (has_encoder s) (first_ts_ s) (s_rtt s) (update_ping_ts_ s).

Lemma pad_ok seq n ts : in_u 16 seq -> in_u 32 ts -> 0 <= n <= 500 ->
  body_ok (BPad {| pad_send_ts := ts; pad_transport_seq := seq; pad_data_size := n; pad_data := stack_pad |}).
Proof. intros. destruct stack_pad_ok. repeat split; cbn; try done; by apply H || apply H0 || apply H1. Qed.

Lemma SendPadding_ok n ts info (s : sender) : readable (ep_stream (s_end s)) -> in_u 16 (trans_seq_ s) ->
  in_u 32 ts -> 0 <= n <= 500 ->
  exists st, wf st /\ SendPadding be n ts info s = (Ok (516 + n), after_pad n ts info s st).
Proof.
  intros Hs Hseq Hts Hn. pose proof (pad_ok (trans_seq_ s) n ts Hseq Hts Hn) as Hb.
  destruct (send_msg_ok be (s_end s) sender_uid SIM_PAD _ Hs ltac:(done) ltac:(done) Hb eq_refl) as (st & Hst & E).
  exists st. split; [done|]. unfold SendPadding. rewrite (M_bind_ok mget _ _ s s) by done. cbv beta zeta.
  set (s0 := mkSender (s_end s) (running_ s) (pending_buf_ s) (frame_seed_ s) (packet_seed_ s)
    (u16 (trans_seq_ s + 1)) (has_encoder s) (first_ts_ s) (s_rtt s) (update_ping_ts_ s)).
  rewrite (M_bind_ok (s_upd_seeds _ _ _) _ s tt s0) by done.
  by rewrite (M_bind_ok _ _ _ _ _ (s_on_end_ok _ s0 tt _ E)).
Qed.

(** The pads a request is met with. *)
Definition padding_sizes (bytes : Z) : list Z :=
  let k := if 500 <=? bytes then (bytes - 500) / 1016 + 1 else 0 in
  let rest := bytes - 1016 * k in
  replicate (Z.to_nat k) 500 ++ (if 100 <=? rest then [rest] else []).

Lemma padding_sizes_step bytes : 500 <= bytes -> padding_sizes bytes = 500 :: padding_sizes (bytes - 1016).
Proof.
  intros Hb. unfold padding_sizes. rewrite (proj2 (Z.leb_le _ _) Hb).
  assert ((bytes - 500) / 1016 = if 500 <=? bytes - 1016 then (bytes - 1016 - 500) / 1016 + 1 else 0) as ->.
  { destruct (Z.leb_spec 500 (bytes - 1016)); [|apply Z.div_small; lia].
    replace (bytes - 500) with (bytes - 1016 - 500 + 1 * 1016) by lia. by rewrite Z.div_add by lia. }
  set (k := if 500 <=? bytes - 1016 then _ else 0).
  assert (0 <= k).
  { unfold k. destruct (Z.leb_spec 500 (bytes - 1016)); [|lia].
    pose proof (Z.div_pos (bytes - 1016 - 500) 1016). lia. }
  rewrite Z2Nat.inj_add by lia. rewrite Nat.add_1_r. cbn [replicate app].
  by replace (bytes - 1016 - 1016 * k) with (bytes - 1016 * (k + 1)) by lia.
Qed.

(** The world after a sequence of pads. *)
Fixpoint pads (sizes : list Z) (seq ts : Z) (info : PacedPacketInfo) (fd : Z) (dst : su_addr) (w : W) : W :=
  match sizes with
  | [] => w
  | n :: ns => pads ns (u16 (seq + 1)) ts info fd dst
      (OnSentPacket seq ts (AddPacket sender_uid seq (516 + n) info (sent (pad_datagram seq n ts) w fd dst)))
  end.

Definition padded (sizes : list Z) ts info (s s' : sender) : Prop :=
  ep_world (s_end s') = pads sizes (trans_seq_ s) ts info (ep_fd (s_end s)) (ep_dst (s_end s)) (ep_world (s_end s)).

Lemma padding_loop_ok now info fuel : forall remain (s : sender),
  readable (ep_stream (s_end s)) -> in_u 16 (trans_seq_ s) -> (length (padding_sizes remain) < fuel)%nat ->
  exists s', padding_loop be fuel remain now info s = (Ok tt, s') /\
    padded (padding_sizes remain) (u32 now) info s s'.
Proof.
  assert (in_u 32 (u32 now)) as Hts by by apply wrap_range.
  induction fuel as [|fuel IH]; intros remain s Hs Hseq Hf; [lia|].
  cbn [padding_loop]. unfold MAX_PAD_SIZE. destruct (Z.ltb_spec 0 remain) as [Hpos|Hneg].
  2: { exists s. split; [done|]. unfold padding_sizes. rewrite (proj2 (Z.leb_gt 500 _)) by lia.
       cbn [replicate Z.to_nat app]. by rewrite (proj2 (Z.leb_gt 100 _)) by lia. }
  destruct (Z.leb_spec 500 remain) as [Hbig|Hsmall].
  - destruct (SendPadding_ok 500 (u32 now) info s) as (st & Hst & E); [done|done|done|lia|].
    rewrite (M_bind_ok _ _ _ _ _ E). rewrite padding_sizes_step in Hf |- * by done. cbn [length] in Hf.
    destruct (IH (remain - (516 + 500)) (after_pad 500 (u32 now) info s st)) as (s' & -> & Hp);
      [by apply Hst|by apply wrap_range|change (516 + 500) with 1016; lia|].
    exists s'. by split.
  - assert (padding_sizes remain = if 100 <=? remain then [remain] else []) as ->.
    { unfold padding_sizes. rewrite (proj2 (Z.leb_gt 500 _)) by lia. cbn [replicate Z.to_nat app].
      by replace (remain - 1016 * 0) with remain by lia. }
    assert (forall s : sender, padding_loop be fuel 0 now info s = (Ok tt, s)) as Hend by (by destruct fuel).
    destruct (Z.leb_spec 100 remain).
    + destruct (SendPadding_ok remain (u32 now) info s) as (st & Hst & E); [done|done|done|lia|].
      rewrite M_assoc, (M_bind_ok _ _ _ _ _ E), M_left_id, Hend. by eexists.
    + rewrite M_left_id, Hend. by eexists.
Qed.

(** Padding ends and is over-counted.  A request of less than 2^31 bytes
    makes the loop send [padding_sizes] pads with consecutive numbers and
    return; each datagram has 18 bytes more than its padding, but what the
    controller is told and the request is reduced by is 516 more, because the
    size of the padding structure already counts its array.  So the sizes told
    cover the request to within 100 bytes, the bytes sent little more than
    half of it. *)
Theorem padding_accounting (s : sender) bytes info fuel :
  readable (ep_stream (s_end s)) -> in_u 16 (trans_seq_ s) -> 100 <= bytes < 2 ^ 31 ->
  (length (padding_sizes bytes) < fuel)%nat ->
  let '(now, w) := TimeMillis (ep_world (s_end s)) in
  let sizes := padding_sizes bytes in
  exists s', TimeToSendPadding be fuel bytes info s = (Ok bytes, s') /\
    ep_world (s_end s') = pads sizes (trans_seq_ s) (u32 now) info (ep_fd (s_end s)) (ep_dst (s_end s)) w /\
    Forall (fun n => 100 <= n <= 500 /\
      forall seq, in_u 16 seq -> zlen (pad_datagram seq n (u32 now)) = 18 + n) sizes /\
    bytes - 100 < foldr Z.add 0 (Z.add 516 <$> sizes) <= bytes + 516.
Proof.
  intros Hs Hseq Hb Hf. pose proof (s_now_eq s) as En. destruct (TimeMillis _) as [now w]. cbv zeta.
  assert (s32 bytes = bytes) as Es.
  { apply swrap_id; [lia|]. unfold in_s. change (2 ^ (32 - 1)) with 2147483648.
    change (2 ^ 31) with 2147483648 in Hb. lia. }
  destruct (padding_loop_ok now info fuel bytes (s_set_end (ep_upd_world w (s_end s)) s)) as (s' & E & Hp); [done..|].
  exists s'. split; [|split; [exact Hp|]].
  - unfold TimeToSendPadding. rewrite (M_bind_ok _ _ _ _ _ En). cbv beta zeta.
    rewrite (proj2 (Z.ltb_ge _ _)), Es by lia. by rewrite (M_bind_ok _ _ _ _ _ E).
  - assert (in_u 32 (u32 now)) as Hts by by apply wrap_range.
    assert (forall n seq, 100 <= n <= 500 -> in_u 16 seq -> zlen (pad_datagram seq n (u32 now)) = 18 + n) as Hlen.
    { intros n seq Hn Hq. unfold pad_datagram. rewrite datagram_len; [cbn; lia|done|done| |done].
      apply pad_ok; [done|done|lia]. }
    unfold padding_sizes. set (k := if 500 <=? bytes then (bytes - 500) / 1016 + 1 else 0).
    set (rest := bytes - 1016 * k).
    assert (0 <= k /\ -516 <= rest < 500) as [Hk Hrest].
    { unfold rest, k. destruct (Z.leb_spec 500 bytes); [|lia].
      pose proof (Z.div_mod (bytes - 500) 1016 ltac:(lia)). pose proof (Z.mod_pos_bound (bytes - 500) 1016 ltac:(lia)).
      pose proof (Z.div_pos (bytes - 500) 1016 ltac:(lia) ltac:(lia)). lia. }
    split.
    + apply Forall_app. split; [apply Forall_replicate; split; [lia|intros; by apply Hlen]|].
      destruct (Z.leb_spec 100 rest); [|done]. constructor; [|done]. split; [lia|]. intros. apply Hlen; [lia|done].
    + rewrite fmap_app, fmap_replicate, foldr_app.
      assert (forall n a, foldr Z.add a (replicate n (516 + 500)) = Z.of_nat n * 1016 + a) as Hsum
        by (intros n a; induction n; cbn [replicate foldr]; lia).
      rewrite Hsum, Z2Nat.id by done. unfold rest in *. destruct (100 <=? _) eqn:E100; cbn [fmap list_fmap foldr]; lia.
Qed.

End Ends.
