(* ===== verification/MininetVideo.v ===== *)
(** * Frames and round-trip statistics of the emulation

    [SendVideo] queues segments that make up the frame; [UpdateRtt] keeps the
    statistics of the round trips, and what it reports of them. *)

From S2P Require Import Prelude Stream Crc32 SimProto StdMap Platform AppHeader Mininet MininetMsgs MininetProps.
Open Scope Z_scope.

(** ** Round-trip times *)

Definition zsum (l : list Z) : Z := foldr Z.add 0 l.
Definition zmax (l : list Z) : Z := foldr Z.max 0 l.

Lemma zsum_snoc l x : zsum (l ++ [x]) = zsum l + x.
Proof. unfold zsum. induction l as [|y l IH]; cbn; lia. Qed.

Lemma zmax_snoc l x : 0 <= x -> zmax (l ++ [x]) = Z.max (zmax l) x.
Proof. unfold zmax. intros. induction l as [|y l IH]; cbn [app foldr]; [lia|]. rewrite IH. lia. Qed.

Lemma zsum_le_max l : Forall (Z.le 0) l -> 0 <= zsum l <= zlen l * zmax l.
Proof.
  induction 1 as [|x l Hx _ IH]; [done|]. rewrite zlen_cons. unfold zsum, zmax in *. cbn [foldr].
  pose proof (zlen_nonneg l). nia.
Qed.

(** A round trip of up to three days. *)
Definition sane_rtt (t : Z) : Prop := 0 <= t < 2 ^ 28.

Lemma keep_range t : sane_rtt t -> 5 <= keep_rtt t < 2 ^ 28.
Proof. unfold sane_rtt, keep_rtt. change (2 ^ 28) with 268435456. case_match; lia. Qed.

Lemma smooth_range rtt keep : 0 <= rtt < 2 ^ 28 -> 5 <= keep < 2 ^ 28 -> 10 <= smooth_rtt rtt keep < 2 ^ 28.
Proof.
  unfold smooth_rtt. change (2 ^ 28) with 268435456. intros H1 H2.
  assert (0 <= (if rtt =? 0 then keep else rtt) < 268435456) as H3 by (destruct (rtt =? 0); lia).
  set (x := if rtt =? 0 then keep else rtt) in *. rewrite (wrap_id 32) by (unfold_int; lia).
  assert (0 <= (7 * x + keep) / 8 < 268435456) by (split; [apply Z.div_pos|apply Z.div_lt_upper_bound]; lia).
  destruct (Z.ltb_spec ((7 * x + keep) / 8) 10); lia.
Qed.

Definition rtt_run (times : list Z) : RttStats :=
  foldl (fun r t => (Sender_rtt_step t r).2) (mkRtt 0 0 0 0 0 0) times.

Definition recv_rtt_run (times : list Z) : RecvRtt :=
  foldl (fun r t => (Receiver_rtt_step t r).2) (mkRecvRtt 0 0 0 0) times.

Definition kept (times : list Z) : list Z := keep_rtt <$> times.

(** The statistics kept are those of the times seen. *)
Record stats_of (ks : list Z) (r : RttStats) (q : RecvRtt) : Prop := {
  so_rtt : 10 <= rtt_ r < 2 ^ 28;
  so_recv : r_rtt_ q = rtt_ r /\ r_sum_rtt_ q = sum_rtt_ r /\ r_rtt_num_ q = rtt_num_ r /\ r_max_rtt_ q = max_rtt_ r;
  so_num : rtt_num_ r = zlen ks;
  so_sum : sum_rtt_ r = zsum ks;
  so_average : average_rtt_ r = zsum ks / zlen ks;
  so_max : max_rtt_ r = zmax ks;
  so_min : min_rtt_ r ∈ ks /\ Forall (Z.le (min_rtt_ r)) ks
}.

Lemma kept_range times : Forall sane_rtt times -> Forall (fun k => 5 <= k < 2 ^ 28) (kept times).
Proof. intros. apply Forall_fmap. eapply Forall_impl; [done|]. intros t Ht. by apply keep_range. Qed.

Lemma zmax_range ks b : 0 < b -> Forall (fun k => 5 <= k < b) ks -> 0 <= zmax ks < b.
Proof. intros Hb. unfold zmax. induction 1 as [|k ks Hk _ IH]; cbn [foldr]; lia. Qed.

(** Below 2^31 samples the 64-bit sums are exact. *)
Lemma sums_exact ks k : Forall (fun k => 5 <= k < 2 ^ 28) ks -> 5 <= k < 2 ^ 28 -> zlen ks < 2 ^ 31 ->
  s64 (zlen ks + 1) = zlen ks + 1 /\ s64 (zsum ks + k) = zsum ks + k /\
  Z.quot (zsum ks + k) (zlen ks + 1) = (zsum ks + k) / (zlen ks + 1) /\
  0 <= (zsum ks + k) / (zlen ks + 1) <= Z.max (zmax ks) k.
Proof.
  intros Hks Hk Hlen. pose proof (zmax_range ks (2 ^ 28) ltac:(done) Hks) as Hmax.
  assert (Forall (Z.le 0) ks) as Hpos by (eapply Forall_impl; [exact Hks|]; cbn; lia).
  pose proof (zsum_le_max ks Hpos) as Hsum. pose proof (zlen_nonneg ks).
  change (2 ^ 28) with 268435456 in *. change (2 ^ 31) with 2147483648 in *.
  assert (forall z, 0 <= z < 9223372036854775808 -> s64 z = z) as Hid.
  { intros z Hz. apply swrap_id; [lia|]. unfold in_s. change (2 ^ (64 - 1)) with 9223372036854775808. lia. }
  rewrite Z.quot_div_nonneg by lia. split; [apply Hid; lia|]. split; [apply Hid; nia|]. split; [done|].
  split; [apply Z.div_pos; lia|]. apply Z.div_le_upper_bound; nia.
Qed.

Lemma steps_ok ks r q t : stats_of ks r q -> Forall (fun k => 5 <= k < 2 ^ 28) ks -> sane_rtt t ->
  0 < zlen ks < 2 ^ 31 ->
  let k := keep_rtt t in let average := (zsum ks + k) / (zlen ks + 1) in
  stats_of (ks ++ [k]) (Sender_rtt_step t r).2 (Receiver_rtt_step t q).2 /\
  (Sender_rtt_step t r).1 = (average, zmax ks) /\
  (Receiver_rtt_step t q).1 = (average, zmax (ks ++ [k])).
Proof.
  intros [Hrtt (Q1 & Q2 & Q3 & Q4) Hnum Hsum Havg Hmax [Hin Hmin]] Hks Ht Hlen. cbv zeta.
  pose proof (keep_range t Ht) as Hk. destruct (sums_exact ks (keep_rtt t) Hks Hk ltac:(lia)) as (E1 & E2 & E3 & E4).
  pose proof (zmax_range ks (2 ^ 28) ltac:(done) Hks) as Hm.
  assert ((if zmax ks <? keep_rtt t then keep_rtt t else zmax ks) = zmax (ks ++ [keep_rtt t])) as Emax
    by (rewrite zmax_snoc by lia; destruct (Z.ltb_spec (zmax ks) (keep_rtt t)); lia).
  unfold Sender_rtt_step, Receiver_rtt_step. rewrite Q1, Q2, Q3, Q4, Hnum, Hsum, Hmax.
  rewrite (proj2 (Z.eqb_neq (zlen ks) 0)) by lia. cbv zeta. rewrite E1, E2, E3, Emax.
  rewrite (wrap_id 32) by (unfold_int; change (2 ^ 28) with 268435456 in *; lia).
  split; [|done]. split; cbn [fst snd rtt_ sum_rtt_ rtt_num_ min_rtt_ max_rtt_ average_rtt_ r_rtt_ r_sum_rtt_
    r_rtt_num_ r_max_rtt_]; rewrite ?zlen_app, ?zlen_cons, ?zlen_nil, ?zsum_snoc, ?Z.add_0_r; try done.
  - apply smooth_range; lia.
  - setoid_rewrite elem_of_app. setoid_rewrite list_elem_of_singleton.
    destruct (Z.ltb_spec (keep_rtt t) (min_rtt_ r)); (split; [auto|]); apply Forall_app; (split; [|constructor; [lia|done]]).
    + eapply Forall_impl; [exact Hmin|]. cbn. lia.
    + done.
Qed.

Lemma first_ok t : sane_rtt t -> stats_of [keep_rtt t] (rtt_run [t]) (recv_rtt_run [t]).
Proof.
  intros Ht. pose proof (keep_range t Ht) as Hk. unfold rtt_run, recv_rtt_run.
  cbn [foldl]. unfold Sender_rtt_step, Receiver_rtt_step. cbn [rtt_ r_rtt_ rtt_num_ r_rtt_num_ Z.eqb snd].
  split; cbn [rtt_ sum_rtt_ rtt_num_ min_rtt_ max_rtt_ average_rtt_ r_rtt_ r_sum_rtt_ r_rtt_num_ r_max_rtt_]; try done.
  - by apply smooth_range.
  - unfold zsum. cbn [foldr]. lia.
  - unfold zsum. cbn [foldr]. rewrite Z.add_0_r. symmetry. apply Z.div_1_r.
  - unfold zmax. cbn [foldr]. lia.
  - split; [by apply list_elem_of_singleton|]. constructor; [lia|done].
Qed.

Lemma rtt_run_ok times : times <> [] -> Forall sane_rtt times -> zlen times <= 2 ^ 31 ->
  stats_of (kept times) (rtt_run times) (recv_rtt_run times).
Proof.
  induction times as [|t times IH] using rev_ind; [done|]. intros _ Hs Hlen.
  apply Forall_app in Hs as [Hs Ht]. apply Forall_inv in Ht. rewrite zlen_app, zlen_cons, zlen_nil in Hlen.
  destruct times as [|t0 times]; [by apply first_ok|]. set (ts := t0 :: times) in *.
  assert (zlen (kept ts) = zlen ts) as El by (unfold zlen, kept; by rewrite length_fmap).
  pose proof (zlen_nonneg times).
  assert (0 < zlen ts) as Hpos by (unfold ts; rewrite zlen_cons; lia).
  destruct (steps_ok (kept ts) (rtt_run ts) (recv_rtt_run ts) t) as [H1 _];
    [apply IH; [done|done|lia]|by apply kept_range|done|rewrite El; lia|].
  unfold rtt_run, recv_rtt_run, kept in *. by rewrite !foldl_app, fmap_app.
Qed.

(** The round-trip statistics.  After any round trips [UpdateRtt] was told,
    their number, sum, average, least and greatest are what both ends keep (a
    trip under 5 ms counts as 5), and the smoothed time is at least 10 ms.  On
    the next one both report the new average; the receiver with the new
    maximum, so never an average above it, the sender with the maximum before
    the update, which the average may exceed. *)
Theorem rtt_statistics times t :
  times <> [] -> Forall sane_rtt times -> sane_rtt t -> zlen times < 2 ^ 31 ->
  let ks := kept times in let n := zlen times in let r := rtt_run times in
  let average := (zsum ks + keep_rtt t) / (n + 1) in
  10 <= rtt_ r /\ rtt_num_ r = n /\ sum_rtt_ r = zsum ks /\ average_rtt_ r = zsum ks / n /\
  max_rtt_ r = zmax ks /\ min_rtt_ r ∈ ks /\ Forall (Z.le (min_rtt_ r)) ks /\
  (Sender_rtt_step t r).1 = (average, zmax ks) /\
  (Receiver_rtt_step t (recv_rtt_run times)).1 = (average, zmax (kept (times ++ [t]))) /\
  average <= zmax (kept (times ++ [t])).
Proof.
  intros Hne Hs Ht Hlen. cbv zeta. pose proof (rtt_run_ok times Hne Hs ltac:(lia)) as H.
  assert (zlen (kept times) = zlen times) as El by (unfold zlen, kept; by rewrite length_fmap).
  assert (0 < zlen times) as Hpos
    by (destruct times; [done|]; rewrite zlen_cons; pose proof (zlen_nonneg times); lia).
  destruct (steps_ok _ _ _ t H (kept_range _ Hs) Ht ltac:(rewrite El; lia)) as (_ & E1 & E2).
  pose proof (keep_range t Ht) as Hk.
  destruct (sums_exact (kept times) (keep_rtt t) (kept_range _ Hs) Hk ltac:(rewrite El; lia)) as (_ & _ & _ & Ha).
  destruct H as [H1 _ H2 H3 H4 H5 [H6 H7]]. rewrite El in *.
  assert (kept (times ++ [t]) = kept times ++ [keep_rtt t]) as Esnoc by (unfold kept; by rewrite fmap_app).
  rewrite Esnoc. rewrite (zmax_snoc (kept times) (keep_rtt t)) in * by lia.
  split_and!; [lia|done..|lia].
Qed.


(** ** Frames *)

Section Video.
Context {W : Type} `{ML : Millis W} `{SK : Sockets W} `{RTC : Webrtc W} `{SRC : VideoSource W}.

Local Abbreviation sender := (@Sender W).

(** The state after queueing [segs]. *)
Definition queued (s : sender) (numbered : smap sim_segment_t) (T Pk : Z) : sender :=
  mkSender (s_end s) (running_ s) (pending_buf_ s ++ numbered) (frame_seed_ s) (u32 Pk) (u16 T)
    (has_encoder s) (first_ts_ s) (s_rtt s) (update_ping_ts_ s).

Definition below {A} (n : Z) (m : smap A) : Prop := forall k a, (k, a) ∈ m -> k < n.

Lemma below_snoc {A} n (m : smap A) a : below n m -> below (n + 1) (m ++ [(n, a)]).
Proof.
  intros H k b [Hin|Hin%list_elem_of_singleton]%elem_of_app; [apply H in Hin; lia|]. injection Hin. lia.
Qed.

(** The segment number [i] of a frame, as it is queued. *)
Definition segment (pt ft stamp total fseed seq packet i n : Z) (video : list Z) : sim_segment_t :=
  {| packet_id := packet; fid := fseed; timestamp := stamp; index := i; SimProto.total := total;
     ftype := u8 ft; payload_type := pt; remb := 1; send_ts := 0; transport_seq := seq;
     data_size := n; seg_data := video |}.

Definition seg_bytes (seg : sim_segment_t) : list Z := ztake (data_size seg) (seg_data seg).

(** A segment's transport number and its size on the wire. *)
Definition entry (seg : sim_segment_t) : Z * Z := (transport_seq seg, u16 (data_size seg + SIM_SEGMENT_HEADER_SIZE)).

Definition numbered (segs : list sim_segment_t) : smap sim_segment_t :=
  (fun seg => (transport_seq seg, seg)) <$> segs.

Lemma add_segment_ok pt ft stamp total buf i pos n (s : sender) T Pk :
  bytes_ok buf -> in_u 8 pt -> in_u 32 stamp -> in_u 16 total -> in_u 32 (frame_seed_ s) ->
  0 <= pos -> 0 <= n <= SIM_VIDEO_SIZE -> pos + n <= zlen buf -> 0 <= i < 65536 -> 0 <= T < 65536 ->
  trans_seq_ s = u16 T -> packet_seed_ s = u32 Pk -> below T (pending_buf_ s) ->
  exists video, let seg := segment pt ft stamp total (frame_seed_ s) T (u32 Pk) i n video in
    add_segment pt ft stamp total buf i pos n s = (Ok (entry seg), queued s [(T, seg)] (T + 1) (Pk + 1)) /\
    body_ok (BSegment seg) /\ seg_bytes seg = ztake n (zdrop pos buf).
Proof.
  intros Hbuf Hpt Hst Htot Hfs Hpos Hn Hfit Hi HT Et Ep Hbelow.
  unfold add_segment. rewrite (M_bind_ok mget _ _ s s) by done. cbv beta.
  assert (load buf pos n = Some (ztake n (zdrop pos buf))) as ->
    by (unfold load; by rewrite !(proj2 (Z.leb_le _ _)) by lia).
  set (bytes := ztake n (zdrop pos buf)).
  assert (zlen bytes = n) as Hl by (unfold bytes; rewrite zlen_ztake; [done|rewrite zlen_zdrop; lia]).
  set (zeros := replicate (Z.to_nat SIM_VIDEO_SIZE) 0).
  assert (zlen zeros = SIM_VIDEO_SIZE) as Hz by (unfold zlen, zeros; by rewrite length_replicate).
  assert (bytes_ok bytes) as Hb by (unfold bytes; by apply Forall_take, Forall_drop).
  assert (0 <= n <= 1000) as Hn' by exact Hn. change SIM_VIDEO_SIZE with 1000 in Hz.
  pose proof (store_prefix (zlen bytes) bytes zeros ltac:(lia) ltac:(lia)) as Es. rewrite ztake_zlen in Es. rewrite Es.
  destruct (overwrite_ok (zlen bytes) bytes zeros) as [Hob Hol]; [lia|lia|done|apply zeros_ok|].
  set (video := overwrite (zlen bytes) bytes zeros) in *.
  rewrite Et, Ep, (wrap_id 16 i), (wrap_id 16 T) by (unfold_int; lia).
  exists video. cbv zeta. split; [|split].
  - fold (segment pt ft stamp total (frame_seed_ s) T (u32 Pk) i n video).
    unfold mbind, M_bind, s_upd_seeds, s_upd_pending, mmodify, mret, M_ret. cbn [fst snd].
    rewrite (insert_last T _ _ Hbelow). unfold queued, entry, segment. cbn [transport_seq data_size].
    assert (u32 (u32 Pk + 1) = u32 (Pk + 1)) as -> by apply Zplus_mod_idemp_l. done.
  - split; [cbn [body_shape segment seg_data]; by rewrite Hol|].
    cbn [packet_id fid timestamp index SimProto.total ftype payload_type send_ts transport_seq data_size seg_data segment].
    split_and!; try done; try (by apply wrap_range); unfold_int; lia.
  - unfold seg_bytes. cbn [data_size seg_data segment]. unfold video, overwrite. rewrite ztake_zlen, <- Hl.
    apply ztake_app.
Qed.

(** The segments of the pieces [splits] from number [i] and position [pos] on. *)
Fixpoint segments_of (pt ft stamp total fseed T Pk i : Z) (splits : list Z) (videos : list (list Z)) :
    list sim_segment_t :=
  match splits, videos with
  | n :: ns, v :: vs =>
      segment pt ft stamp total fseed T (u32 Pk) i n v ::
      segments_of pt ft stamp total fseed (T + 1) (Pk + 1) (i + 1) ns vs
  | _, _ => []
  end.

Lemma segments_of_length pt ft stamp total fseed splits : forall T Pk i videos, length videos = length splits ->
  length (segments_of pt ft stamp total fseed T Pk i splits videos) = length splits.
Proof.
  induction splits as [|n ns IH]; intros T Pk i [|v vs] Hl; [done..|].
  cbn [segments_of length]. f_equal. apply IH. by injection Hl.
Qed.

Lemma queued_queued s a b T Pk T' Pk' :
  queued (queued s a T Pk) b T' Pk' = queued s (a ++ b) T' Pk'.
Proof. unfold queued. cbn. by rewrite app_assoc. Qed.

Lemma add_segments_ok pt ft stamp total buf splits : forall i pos (s : sender) T Pk m,
  bytes_ok buf -> in_u 8 pt -> in_u 32 stamp -> in_u 16 total -> in_u 32 (frame_seed_ s) ->
  0 <= pos -> Forall (fun n => 0 <= n <= SIM_VIDEO_SIZE) splits -> pos + zsum splits <= zlen buf ->
  0 <= i -> i + zlen splits <= 65536 -> 0 <= T -> T + zlen splits <= 65536 ->
  trans_seq_ s = u16 T -> packet_seed_ s = u32 Pk -> below T (pending_buf_ s) -> below T m ->
  exists videos, let segs := segments_of pt ft stamp total (frame_seed_ s) T Pk i splits videos in
    length videos = length splits /\
    add_segments pt ft stamp total buf i pos splits m s =
      (Ok (m ++ (entry <$> segs)), queued s (numbered segs) (T + zlen splits) (Pk + zlen splits)) /\
    Forall (fun seg => body_ok (BSegment seg)) segs /\
    mjoin (seg_bytes <$> segs) = ztake (zsum splits) (zdrop pos buf).
Proof.
  induction splits as [|n splits IH]; intros i pos s T Pk m Hbuf Hpt Hst Htot Hfs Hpos Hsp Hfit Hi Hi2 HT HT2 Et Ep Hb Hm.
  - exists []. cbn. split; [done|]. rewrite app_nil_r, !Z.add_0_r. split; [|done].
    unfold queued, mret, M_ret. rewrite app_nil_r, <- Et, <- Ep. by destruct s.
  - apply Forall_cons in Hsp as [Hn Hsp]. rewrite zlen_cons in *. pose proof (zlen_nonneg splits).
    change (zsum (n :: splits)) with (n + zsum splits) in *.
    assert (0 <= zsum splits) as Hsum.
    { clear - Hsp. induction Hsp as [|x l Hx _ IH]; [done|]. unfold zsum in *. cbn [foldr]. lia. }
    destruct (add_segment_ok pt ft stamp total buf i pos n s T Pk) as (v & E & Hok & Hby); [done|done|done|done|done|lia|done|lia|lia|lia|done|done|done|].
    set (seg := segment pt ft stamp total (frame_seed_ s) T (u32 Pk) i n v) in *.
    set (s1 := queued s [(T, seg)] (T + 1) (Pk + 1)) in *.
    destruct (IH (i + 1) (pos + n) s1 (T + 1) (Pk + 1) (m ++ [entry seg])) as (vs & Hlen & E2 & Hok2 & Hby2);
      [done|done|done|done|done|lia|done|lia|lia|lia|lia|lia|done|done|by apply below_snoc|by apply below_snoc|].
    exists (v :: vs). cbn [segments_of]. fold seg. split; [cbn; by rewrite Hlen|].
    change (frame_seed_ s1) with (frame_seed_ s) in *.
    split; [|split; [by constructor|]].
    + cbn [add_segments]. rewrite (M_bind_ok _ _ _ _ _ E). unfold entry at 1.
      change (transport_seq seg) with T. rewrite (insert_last T _ m Hm).
      change [(T, u16 (data_size seg + SIM_SEGMENT_HEADER_SIZE))] with [entry seg]. rewrite E2.
      unfold s1. rewrite queued_queued, <- app_assoc. cbn [fmap list_fmap numbered app].
      replace (T + 1 + zlen splits) with (T + (1 + zlen splits)) by lia.
      by replace (Pk + 1 + zlen splits) with (Pk + (1 + zlen splits)) by lia.
    + match goal with |- mjoin (_ <$> ?x :: ?l) = _ => change (seg_bytes x ++ mjoin (seg_bytes <$> l) = ztake (n + zsum splits) (zdrop pos buf)) end.
      rewrite Hby, Hby2. unfold ztake, zdrop.
      rewrite (Z2Nat.inj_add pos n), (Z2Nat.inj_add n) by lia. rewrite <- drop_drop. apply take_take_drop.
Qed.

(** C16: A frame of [1 <= len < 1,024,000] bytes is queued whole: [SendVideo]
    cuts it into the fewest segments of at most 1000 bytes, appends them to
    [pending_buf_] under consecutive transport numbers, well formed and with
    their index, count and frame number, so that their data, end to end, is the
    frame; and it announces them to the pacer in that order.  (The numbers must
    not wrap around within the frame, and those pending be lower.) *)
Theorem video_queued pt ft buf len (s : sender) :
  running_ s = true -> 0 < len < 1024000 -> len <= zlen buf -> bytes_ok buf -> in_u 8 pt ->
  in_u 32 (frame_seed_ s) -> in_u 32 (packet_seed_ s) -> 0 <= trans_seq_ s ->
  trans_seq_ s + (len + 999) / 1000 <= 65536 -> below (trans_seq_ s) (pending_buf_ s) ->
  let '(now, w) := TimeMillis (ep_world (s_end s)) in
  exists stamp splits videos s1,
    let segs := segments_of pt ft stamp (zlen splits) (frame_seed_ s) (trans_seq_ s) (packet_seed_ s) 0 splits videos in
    SendVideo pt ft buf len s = (Ok tt, s1) /\
    length segs = Z.to_nat ((len + 999) / 1000) /\
    pending_buf_ s1 = pending_buf_ s ++ numbered segs /\
    Forall (fun seg => body_ok (BSegment seg)) segs /\
    mjoin (seg_bytes <$> segs) = ztake len buf /\
    ep_world (s_end s1) = foldl (fun w '(seq, size) => InsertPacket sender_uid seq now size w) w (entry <$> segs) /\
    frame_seed_ s1 = u32 (frame_seed_ s + 1).
Proof.
  intros Hrun Hlen Hbuf Hby Hpt Hfs Hps HT HT2 Hb.
  pose proof (s_now_eq s) as En. destruct (TimeMillis (ep_world (s_end s))) as [now w].
  destruct (split_frame_ok len Hlen) as (splits & Esp & Hsum & Hall & Hn & _). rewrite <- Hn in HT2.
  assert (split_video len = Ok splits) as Esv.
  { unfold split_frame in Esp. rewrite Z.quot_div_nonneg in Esp by (unfold QUIC_MAX_VIDEO_SIZE; lia). exact Esp. }
  set (s0 := s_set_end (ep_upd_world w (s_end s)) s) in *.
  set (first := if first_ts_ s =? -1 then now else first_ts_ s).
  set (s1 := mkSender (s_end s0) (running_ s) (pending_buf_ s) (frame_seed_ s) (packet_seed_ s) (trans_seq_ s)
    (has_encoder s) first (s_rtt s) (update_ping_ts_ s)).
  pose proof (zlen_nonneg splits).
  assert ((len + 999) / 1000 < 1025) as Hlt by (apply Z.div_lt_upper_bound; lia).
  assert (1 <= (len + 999) / 1000) as Hge by (apply Z.div_le_lower_bound; lia).
  destruct (add_segments_ok pt ft (u32 (now - first)) (zlen splits) buf splits 0 0 s1 (trans_seq_ s) (packet_seed_ s) [])
    as (videos & Hl & E & Hok & Hjoin); [done|done|by apply wrap_range|unfold_int; lia|done|done|done|
      change (0 + zsum splits) with (zsum splits); unfold zsum; rewrite Hsum; lia|done|lia|done|lia| | |done| |].
  - symmetry. apply wrap_id. unfold_int. cbn. lia.
  - symmetry. by apply wrap_id.
  - by intros ? ? ?%not_elem_of_nil.
  - exists (u32 (now - first)), splits, videos. cbn [app] in E. change (frame_seed_ s1) with (frame_seed_ s) in *.
    set (segs := segments_of pt ft (u32 (now - first)) (zlen splits) (frame_seed_ s) (trans_seq_ s) (packet_seed_ s) 0
      splits videos) in *. eexists. cbv zeta. split; [|split; [|split; [|split; [|split; [|split]]]]].
    + unfold SendVideo. rewrite (M_bind_ok mget _ _ s s) by done. cbv beta.
      rewrite Hrun, (proj2 (Z.eqb_neq _ _)) by lia. cbn [negb]. cbv iota.
      rewrite (M_bind_ok _ _ _ _ _ En). cbv beta.
      rewrite (M_bind_ok (if first_ts_ s =? -1 then s_upd_first now else mret tt) _ s0 tt s1);
        [|unfold s1, first; destruct (first_ts_ s =? -1); [done|by destruct s]].
      rewrite (M_bind_ok mget _ _ s1 s1) by done. cbv beta zeta. rewrite Esv.
      rewrite (M_bind_ok _ _ _ _ _ E). reflexivity.
    + rewrite <- Hn. unfold zlen. rewrite Nat2Z.id. by apply segments_of_length.
    + done.
    + done.
    + by rewrite Hjoin, <- Hsum.
    + done.
    + done.
Qed.

End Video.
