(* ===== verification/MininetSafe.v ===== *)
(** * The emulation's end points survive

    Every method of the two ends completes, in any order of calls, whatever
    bytes the network brings - provided a datagram has the four bytes of a
    checksum and a feedback message parses.  [safe I Q m]: from states in [I],
    [m] returns, in [I], a value in [Q]. *)

From S2P Require Import Prelude Stream Crc32 SimProto StdMap Platform AppHeader Mininet MininetMsgs MininetProps MininetVideo.
Open Scope Z_scope.

Create HintDb survive.

(** ** Computations that return *)

Definition safe {S X} (I : S -> Prop) (Q : X -> Prop) (m : M S X) : Prop :=
  forall s, I s -> exists x s', m s = (Ok x, s') /\ I s' /\ Q x.

Section Safe.
Context {S : Type} (I : S -> Prop).

Lemma safe_bind {X Y} Q R (m : M S X) (f : X -> M S Y) :
  safe I Q m -> (forall x, Q x -> safe I R (f x)) -> safe I R (m ≫= f).
Proof.
  intros Hm Hf s Hs. destruct (Hm s Hs) as (x & s1 & E1 & H1 & Hx). destruct (Hf x Hx s1 H1) as (y & s2 & E2 & H2).
  exists y, s2. by rewrite (M_bind_ok _ _ _ _ _ E1).
Qed.

(** A value one need not know about. *)
Lemma safe_then {X Y} R (m : M S X) (f : X -> M S Y) :
  safe I (fun _ => True) m -> (forall x, safe I R (f x)) -> safe I R (m ≫= f).
Proof. intros Hm Hf. eapply safe_bind; [exact Hm|auto]. Qed.

Lemma safe_ret {X} (Q : X -> Prop) x : Q x -> safe I Q (mret x).
Proof. intros Hx s Hs. by exists x, s. Qed.

Lemma safe_mget : safe I I mget.
Proof. intros s Hs. by exists s, s. Qed.

Lemma safe_mmodify f : (forall s, I s -> I (f s)) -> safe I (fun _ => True) (mmodify f).
Proof. intros Hf s Hs. exists tt, (f s). auto. Qed.

Lemma safe_weaken {X} (Q R : X -> Prop) (m : M S X) : safe I Q m -> (forall x, Q x -> R x) -> safe I R m.
Proof. intros Hm HQ s Hs. destruct (Hm s Hs) as (x & s1 & ? & ? & ?). exists x, s1. auto. Qed.

End Safe.

Section Ends.
Context `{PO : PlatformOk} (be : Z).
Context {W : Type} `{ML : Millis W} `{SO : SocketsOk W} `{RTC : Webrtc W} `{SRC : VideoSource W}
  `{ST : Stack} `{STO : !StackOk ST}.

Local Abbreviation endpoint := (@Endpoint W).
Local Abbreviation sender := (@Sender W).
Local Abbreviation receiver := (@Receiver W).

(** ** The surroundings *)

(** What a received datagram must be: long enough, and, when it is a feedback
    message, one WebRTC can parse. *)
Definition acceptable (bs : list Z) : Prop :=
  4 <= zlen bs /\
  forall r h r1 fb r2, holds r bs -> sim_decode_header be r = (Ok h, r1) -> mid h = SIM_FEEDBACK ->
    sim_decode_msg be h (BFeedback stack_feedback) r1 = (Ok (BFeedback fb), r2) ->
    ParseFrom (ztake (feedback_size fb) (feedback fb)) <> None.

Definition network_ok : Prop := forall fd w n a bs w',
  su_udp_recv fd DEFAULT_PACKET_SIZE 0 w = (n, Some (a, bs), w') -> 0 < n -> acceptable bs.

Definition clock_64 : Prop := forall w : W, in_s 64 (TimeMillis w).1.

Context (memory : has_memory) (network : network_ok) (clock : clock_64)
  (segment_bytes : bytes_ok (seg_data stack_segment)).

(** ** What both ends do *)

Definition end_ok (e : endpoint) : Prop := readable (ep_stream e).

(** A stream with an acceptable datagram in it. *)
Definition filled_stream (r : bin_stream_t) : Prop := exists bs, holds r bs /\ acceptable bs.

Lemma now_safe : safe end_ok (in_s 64) ep_now.
Proof.
  intros e He. unfold ep_now. pose proof (clock (ep_world e)). destruct (TimeMillis (ep_world e)) as [t w].
  by exists t, (ep_upd_world w e).
Qed.

Lemma do_safe f : safe end_ok (fun _ => True) (ep_do f).
Proof. by apply safe_mmodify. Qed.

Lemma send_safe uid id b : in_u 32 uid -> in_u 8 id -> body_ok b -> body_matches id b = true ->
  safe end_ok (fun _ => True) (send_msg be uid id b).
Proof.
  intros Hu Hi Hb Mb e He. destruct (send_msg_ok be e uid id b He Hu Hi Hb Mb) as (s1 & [Hs1 _] & E).
  eexists tt, _. split; [exact E|]. by split.
Qed.

Lemma ping_yields id o : id = SIM_PING \/ id = SIM_PONG -> forall h, mid h = id ->
  yields (sim_decode_msg be h (BPing o)) (fun b => exists p, b = BPing p /\ in_s 64 (ts p)).
Proof.
  intros Hid h Eh. assert (yields (BPing <$> sim_ping_decode be o) (fun b => exists p, b = BPing p /\ in_s 64 (ts p))) as Hy.
  { apply (yields_map _ (fun p => in_s 64 (ts p))); [|eauto]. unfold sim_ping_decode.
    eapply yields_bind; [apply yields_i64|]. intros t Ht. by apply yields_ret. }
  unfold sim_decode_msg. rewrite Eh. by destruct Hid as [-> | ->].
Qed.

Lemma answer_safe uid h r : in_u 32 uid -> mid h = SIM_PING -> readable r ->
  safe end_ok (fun _ => True) (answer_ping be uid h r).
Proof.
  intros Hu Eh Hr e He. unfold answer_ping.
  destruct (ping_yields SIM_PING stack_ping ltac:(by left) h Eh r Hr) as (b & r1 & E & (p & -> & Hp) & Hr1 & _). rewrite E.
  destruct (datagram_spec be uid SIM_PONG (BPing p) (BPing stack_ping)) as (Hl & _ & Henc & _); [done|done|done|done|done|done|].
  destruct (Henc r1 Hr1) as (s1 & E1 & Hs1 & Hc). rewrite E1.
  rewrite (send_stream_ok e s1 _ Hs1 Hc); [|by apply body_small]. by eexists tt, _.
Qed.

Lemma pong_ts_safe h r : mid h = SIM_PONG -> readable r -> exists t, pong_ts be h r = Ok t.
Proof.
  intros Eh Hr. unfold pong_ts.
  destruct (ping_yields SIM_PONG stack_ping ltac:(by right) h Eh r Hr) as (b & r1 & E & (p & -> & Hp) & _). rewrite E. eauto.
Qed.

Lemma receive_safe : safe end_ok (fun got => match got with Some (_, r) => filled_stream r | None => True end) receive.
Proof.
  intros e He. pose proof (init_stream memory) as (_ & Hsz & _). cbv zeta in Hsz.
  pose proof (udp_recv_ok (ep_fd e) DEFAULT_PACKET_SIZE 0 (ep_world e)) as Hd.
  pose proof (network (ep_fd e) (ep_world e)) as Hn.
  destruct (su_udp_recv (ep_fd e) DEFAULT_PACKET_SIZE 0 (ep_world e)) as [[n d] w] eqn:E.
  destruct (Z.ltb_spec 0 n) as [Hpos|Hneg].
  - destruct (Hd Hpos) as (a & bs & -> & Hl & Hle & Hb).
    destruct (receive_ok e a bs w memory) as (r & Er & Hh); [by rewrite E, Hl|intros ->; change (zlen (@nil Z)) with 0 in Hl; lia|lia|done|].
    exists (Some (a, r)), (ep_upd_world w e). split; [exact Er|]. split; [exact He|]. exists bs. split; [exact Hh|].
    by eapply Hn.
  - exists None, (ep_upd_world w e). split; [|by split]. unfold receive.
    destruct (bin_stream_init stack_stream) as [code s]. cbn [snd] in Hsz. rewrite Hsz, E.
    by rewrite (proj2 (Z.ltb_ge _ _)) by lia.
Qed.

(** The header of a datagram that arrived. *)
Lemma header_safe r : filled_stream r ->
  (exists h r1, sim_decode_header be r = (Ok h, r1) /\ readable r1) \/ sim_decode_header be r = (Fail, r).
Proof.
  intros (bs & (Hr & _ & Hc) & Hl & _). pose proof (content_len r Hr) as Hu. rewrite Hc in Hu.
  pose proof (sim_decode_header_cases be r (ztake (zlen bs - 4) bs) (zdrop (zlen bs - 4) bs) Hr) as Hcases.
  rewrite ztake_drop, zlen_zdrop, <- Hu in Hcases by lia. specialize (Hcases Hc ltac:(lia)).
  rewrite (proj2 (Z.ltb_ge _ _)) in Hcases by lia. destruct (_ =? _); [left|by right].
  destruct Hcases as (h & r1 & E & Hr1 & _). eauto.
Qed.

(** ** The receiver *)

Definition rx_ok (r : receiver) : Prop := end_ok (r_end r).

Lemma r_on_end_safe {X} Q (m : M endpoint X) : safe end_ok Q m -> safe rx_ok Q (r_on_end m).
Proof. intros Hm r Hr. destruct (Hm _ Hr) as (x & e & E & He & Hx). exists x, (r_set_end e r). by rewrite (r_on_end_ok _ _ _ _ E). Qed.

Lemma r_now_safe : safe rx_ok (fun _ => True) r_now.
Proof. eapply safe_weaken; [apply r_on_end_safe, now_safe|done]. Qed.

Lemma r_do_safe f : safe rx_ok (fun _ => True) (r_do f).
Proof. apply r_on_end_safe, do_safe. Qed.

Lemma r_get_safe : safe rx_ok (fun _ => True) mget.
Proof. eapply safe_weaken; [apply safe_mget|done]. Qed.

Lemma r_modify_safe f : (forall r, r_end (f r) = r_end r) -> safe rx_ok (fun _ => True) (mmodify f).
Proof. intros Hf. apply safe_mmodify. intros r Hr. unfold rx_ok. by rewrite Hf. Qed.

Lemma unit_safe {S} (I : S -> Prop) : safe I (fun _ => True) (mret tt).
Proof. by apply safe_ret. Qed.

#[local] Hint Resolve r_now_safe r_do_safe r_get_safe unit_safe : survive.

Ltac survives := repeat first
  [ solve [auto with survive]
  | apply r_modify_safe; intros; reflexivity
  | eapply safe_then; [|intros]
  | match goal with |- safe _ _ (match ?x with _ => _ end) => destruct x end
  | by apply safe_ret ].

Lemma Receiver_SendPing_safe now : in_s 64 now -> safe rx_ok (fun _ => True) (Receiver_SendPing be now).
Proof.
  intros Hn. unfold Receiver_SendPing. eapply safe_then; [|intros; unfold r_upd_ping; survives].
  apply r_on_end_safe, send_safe; [done|done|by apply ping_ok|done].
Qed.

Lemma ConfigureCongestion_safe : safe rx_ok (fun _ => True) ConfigureCongestion.
Proof. unfold ConfigureCongestion. survives. Qed.

#[local] Hint Resolve ConfigureCongestion_safe : survive.

Lemma OnRecvSegment_safe h seg : safe rx_ok (fun _ => True) (OnRecvSegment h seg).
Proof. unfold OnRecvSegment, r_upd_stop. survives. Qed.

Lemma OnRecvPad_safe h pad : safe rx_ok (fun _ => True) (OnRecvPad h pad).
Proof. unfold OnRecvPad. survives. Qed.

Lemma Receiver_UpdateRtt_safe t : safe rx_ok (fun _ => True) (Receiver_UpdateRtt t).
Proof.
  unfold Receiver_UpdateRtt, r_upd_rtt. eapply safe_then; [survives|]. intros r.
  destruct (Receiver_rtt_step t (r_rtt r)) as [[average max] q]. survives.
Qed.

#[local] Hint Resolve OnRecvSegment_safe OnRecvPad_safe Receiver_UpdateRtt_safe : survive.

Lemma decoded_safe {S X} (I : S -> Prop) (Q : X -> Prop) h o r (m : M S X) (k : sim_body -> M S X) :
  readable r -> body_init o -> body_matches (mid h) o = true ->
  (forall b, body_bounded b -> safe I Q (k b)) ->
  safe I Q (match sim_decode_msg be h o r with (Ok b, _) => k b | (Stuck, _) => mstuck | _ => m end).
Proof.
  intros Hr Ho Mo Hk. destruct (sim_decode_safe be h o r Hr Ho Mo) as (b & r' & E & Hb & _). rewrite E. by apply Hk.
Qed.

Lemma Receiver_ProcessingMsg_safe r : filled_stream r -> safe rx_ok (fun _ => True) (Receiver_ProcessingMsg be r).
Proof.
  intros Hr. unfold Receiver_ProcessingMsg.
  destruct (header_safe r Hr) as [(h & r1 & E & Hr1)|E]; rewrite E; [|survives].
  destruct (_ || _); [survives|]. eapply safe_then; [unfold r_upd_connected; survives|]. intros _.
  destruct (Z.eqb_spec (mid h) SIM_PING) as [Em|_]; [by apply r_on_end_safe, answer_safe|].
  destruct (Z.eqb_spec (mid h) SIM_PONG) as [Em|_].
  { destruct (pong_ts_safe h r1 Em Hr1) as [t ->]. survives. }
  destruct (Z.eqb_spec (mid h) SIM_SEG) as [Em|_].
  { eapply (decoded_safe _ _ h (BSegment stack_segment) r1 _ (fun b => match b with BSegment seg => OnRecvSegment h seg | _ => mret tt end));
      [done|by split; [apply stack_segment_ok|]|by rewrite Em|]. intros b _. survives. }
  destruct (Z.eqb_spec (mid h) SIM_PAD) as [Em|_]; [|survives].
  eapply (decoded_safe _ _ h (BPad _) r1 _ (fun b => match b with BPad pad => OnRecvPad h pad | _ => mret tt end));
    [done|by split; apply stack_pad_ok|by rewrite Em|]. intros b _. survives.
Qed.

#[local] Hint Resolve Receiver_ProcessingMsg_safe : survive.

Lemma u32_s64 t : in_s 64 (u32 t).
Proof.
  pose proof (wrap_range 32 t ltac:(lia)) as Ht. unfold in_u in Ht. unfold in_s. change (2 ^ (64 - 1)) with 9223372036854775808.
  change (2 ^ 32) with 4294967296 in Ht. lia.
Qed.

Lemma Receiver_Process_safe : safe rx_ok (fun _ => True) (Receiver_Process be).
Proof.
  unfold Receiver_Process. eapply safe_then; [survives|]. intros r. eapply safe_then.
  { destruct (session_connected_ r); [|survives]. eapply safe_then; [survives|]. intros t. cbv zeta.
    destruct (_ <? _); [|survives]. apply Receiver_SendPing_safe.
    by apply u32_s64. }
  intros _. eapply safe_bind; [apply r_on_end_safe, receive_safe|]. intros [[remote st]|] Hst; [|survives].
  eapply safe_then; [survives|]. intros r1. eapply safe_then; [|intros; by apply Receiver_ProcessingMsg_safe].
  unfold r_upd_connected. destruct (session_connected_ r1); survives. apply r_on_end_safe, safe_mmodify. by intros.
Qed.

Lemma IsStop_safe : safe rx_ok (fun _ => True) IsStop.
Proof. unfold IsStop. survives. Qed.

Lemma SendTransportFeedback_safe packet : builds_bytes -> zlen (Build receiver_uid packet) < 2 ^ 32 ->
  safe rx_ok (fun _ => True) (SendTransportFeedback be packet).
Proof.
  intros Hb Hl r Hr. destruct (Z.leb_spec (zlen (Build receiver_uid packet)) SIM_FEEDBACK_SIZE) as [Hle|Hgt].
  - destruct (feedback_sent be r packet Hr Hb Hle) as (st & [Hst _] & E). eexists true, _. split; [exact E|]. by split.
  - exists false, r. split; [by apply feedback_not_sent|]. by split.
Qed.

(** The calls made of a receiver, by [main] and by WebRTC. *)
Inductive rx_event :=
  | rx_process | rx_is_stop | rx_duration (delta : Z) | rx_stop | rx_feedback (packet : TransportFeedback).

Definition rx_event_ok (e : rx_event) : Prop :=
  match e with rx_feedback packet => zlen (Build receiver_uid packet) < 2 ^ 32 | _ => True end.

Definition rx_call (e : rx_event) : M receiver unit :=
  match e with
  | rx_process => Receiver_Process be
  | rx_is_stop => IsStop;; mret tt
  | rx_duration delta => SetRunDuration delta
  | rx_stop => Receiver_Stop
  | rx_feedback packet => SendTransportFeedback be packet;; mret tt
  end.

Fixpoint run_calls {E S} (call : E -> M S unit) (es : list E) : M S unit :=
  match es with [] => mret tt | e :: es => call e;; run_calls call es end.

Lemma run_calls_safe {E S} (I : S -> Prop) (call : E -> M S unit) (ok : E -> Prop) es :
  (forall e, ok e -> safe I (fun _ => True) (call e)) -> Forall ok es -> safe I (fun _ => True) (run_calls call es).
Proof. intros Hc. induction 1 as [|e es He _ IH]; cbn; [by apply safe_ret|]. eapply safe_then; [by apply Hc|done]. Qed.

Lemma rx_call_safe e : builds_bytes -> rx_event_ok e -> safe rx_ok (fun _ => True) (rx_call e).
Proof.
  intros Hb. destruct e; intros He; cbn.
  - apply Receiver_Process_safe.
  - eapply safe_then; [apply IsStop_safe|]. survives.
  - unfold SetRunDuration. survives.
  - unfold Receiver_Stop. survives.
  - eapply safe_then; [by apply SendTransportFeedback_safe|]. survives.
Qed.

(** ** The sender *)

Record tx_ok (s : sender) : Prop := {
  ok_end : end_ok (s_end s);
  ok_pending k seg : (k, seg) ∈ pending_buf_ s -> body_ok (BSegment seg);
  ok_trans : in_u 16 (trans_seq_ s);
  ok_frame : in_u 32 (frame_seed_ s);
  ok_packet : in_u 32 (packet_seed_ s)
}.

Lemma s_on_end_safe {X} Q (m : M endpoint X) : safe end_ok Q m -> safe tx_ok Q (s_on_end m).
Proof.
  intros Hm s [He H2 H3 H4 H5]. destruct (Hm _ He) as (x & e & E & He' & Hx).
  exists x, (s_set_end e s). rewrite (s_on_end_ok _ _ _ _ E). split; [done|]. split; [by split|done].
Qed.

Lemma s_now_safe : safe tx_ok (in_s 64) s_now.
Proof. apply s_on_end_safe, now_safe. Qed.

Lemma s_now_safe' : safe tx_ok (fun _ => True) s_now.
Proof. by eapply safe_weaken; [apply s_now_safe|]. Qed.

Lemma s_do_safe f : safe tx_ok (fun _ => True) (s_do f).
Proof. apply s_on_end_safe, do_safe. Qed.

Lemma s_get_safe : safe tx_ok (fun _ => True) mget.
Proof. eapply safe_weaken; [apply safe_mget|done]. Qed.

(** A change of what [tx_ok] does not speak of. *)
Lemma s_modify_safe f : (forall s, s_end (f s) = s_end s) -> (forall s, pending_buf_ (f s) = pending_buf_ s) ->
  (forall s, trans_seq_ (f s) = trans_seq_ s) -> (forall s, frame_seed_ (f s) = frame_seed_ s) ->
  (forall s, packet_seed_ (f s) = packet_seed_ s) -> safe tx_ok (fun _ => True) (mmodify f).
Proof. intros E1 E2 E3 E4 E5. apply safe_mmodify. intros s []. split; rewrite ?E1, ?E2, ?E3, ?E4, ?E5; done. Qed.

#[local] Hint Resolve s_now_safe' s_do_safe s_get_safe : survive.

Ltac sends := repeat first
  [ solve [auto with survive]
  | apply s_modify_safe; intros; reflexivity
  | eapply safe_then; [|intros]
  | match goal with |- safe _ _ (match ?x with _ => _ end) => destruct x end
  | by apply safe_ret ].

Lemma seeds_safe f p t : in_u 32 f -> in_u 32 p -> in_u 16 t -> safe tx_ok (fun _ => True) (s_upd_seeds f p t).
Proof. intros Hf Hp Ht. apply safe_mmodify. intros s []. by split. Qed.

(** *** Frames *)

Definition frame_ok (pt : Z) (buf : list Z) (len : Z) : Prop :=
  0 <= len < 1024000 /\ len <= zlen buf /\ bytes_ok buf /\ in_u 8 pt.

Lemma add_segment_safe pt ft stamp total buf i pos n :
  bytes_ok buf -> in_u 8 pt -> in_u 32 stamp -> in_u 16 total ->
  0 <= pos -> 0 <= n <= SIM_VIDEO_SIZE -> pos + n <= zlen buf ->
  safe tx_ok (fun _ => True) (add_segment pt ft stamp total buf i pos n).
Proof.
  intros Hbuf Hpt Hst Htot Hpos Hn Hfit s Hs. unfold add_segment. rewrite (M_bind_ok mget _ _ s s) by done. cbv beta.
  assert (load buf pos n = Some (ztake n (zdrop pos buf))) as -> by (unfold load; by rewrite !(proj2 (Z.leb_le _ _)) by lia).
  set (bytes := ztake n (zdrop pos buf)). set (zeros := replicate (Z.to_nat SIM_VIDEO_SIZE) 0).
  assert (zlen bytes = n) as Hl by (unfold bytes; rewrite zlen_ztake; [done|rewrite zlen_zdrop; lia]).
  assert (zlen zeros = SIM_VIDEO_SIZE) as Hz by (unfold zlen, zeros; by rewrite length_replicate).
  assert (bytes_ok bytes) as Hb by (unfold bytes; by apply Forall_take, Forall_drop).
  pose proof (store_prefix (zlen bytes) bytes zeros ltac:(lia) ltac:(lia)) as Es. rewrite ztake_zlen in Es. rewrite Es.
  destruct (overwrite_ok (zlen bytes) bytes zeros) as [Hob Hol]; [lia|lia|done|apply zeros_ok|].
  fold (overwrite (zlen bytes) bytes zeros). set (video := overwrite (zlen bytes) bytes zeros) in *.
  eexists _, _. split; [reflexivity|]. split; [|done]. destruct Hs as [H1 H2 H3 H4 H5].
  split; cbn [s_end pending_buf_ trans_seq_ frame_seed_ packet_seed_ s_upd_pending s_upd_seeds]; try (by apply wrap_range); try done.
  intros k seg [[-> ->]|Hk]%elem_insert; [|by eapply H2].
  split; [by cbn [body_shape seg_data]; rewrite Hol|].
  cbn [packet_id fid timestamp index SimProto.total ftype payload_type send_ts transport_seq data_size seg_data].
  split_and!; try done; try (by apply wrap_range); unfold_int; lia.
Qed.

Lemma add_segments_safe pt ft stamp total buf splits : forall i pos m,
  bytes_ok buf -> in_u 8 pt -> in_u 32 stamp -> in_u 16 total ->
  0 <= pos -> Forall (fun n => 0 <= n <= SIM_VIDEO_SIZE) splits -> pos + zsum splits <= zlen buf ->
  safe tx_ok (fun _ => True) (add_segments pt ft stamp total buf i pos splits m).
Proof.
  induction splits as [|n splits IH]; intros i pos m Hbuf Hpt Hst Htot Hpos Hsp Hfit; cbn [add_segments]; [by apply safe_ret|].
  apply Forall_cons in Hsp as [Hn Hsp]. change (zsum (n :: splits)) with (n + zsum splits) in Hfit.
  assert (0 <= zsum splits) as Hsum.
  { clear - Hsp. induction Hsp as [|x l Hx _ IHl]; [done|]. unfold zsum in *. cbn [foldr]. lia. }
  eapply safe_then; [apply add_segment_safe; try done; lia|]. intros [seq overhead]. apply IH; try done; lia.
Qed.

Lemma SendVideo_safe pt ft buf len : frame_ok pt buf len -> safe tx_ok (fun _ => True) (SendVideo pt ft buf len).
Proof.
  intros (Hlen & Hbuf & Hby & Hpt). unfold SendVideo. eapply safe_then; [sends|]. intros s.
  destruct (running_ s); [|by apply safe_ret]. cbn [negb]. cbv iota.
  destruct (Z.eqb_spec len 0) as [|Hne]; [by apply safe_ret|].
  eapply safe_then; [sends|]. intros now. eapply safe_then; [unfold s_upd_first; sends|]. intros _.
  eapply safe_then; [sends|]. intros s1.
  destruct (split_frame_ok len ltac:(lia)) as (splits & Esp & Hsum & Hall & Hn & _).
  assert (split_video len = Ok splits) as ->.
  { unfold split_frame in Esp. rewrite Z.quot_div_nonneg in Esp by (unfold QUIC_MAX_VIDEO_SIZE; lia). exact Esp. }
  assert ((len + 999) / 1000 < 1025) as Hlt by (apply Z.div_lt_upper_bound; lia).
  eapply safe_then.
  - apply add_segments_safe; try done; [by apply wrap_range|pose proof (zlen_nonneg splits); unfold_int; lia|].
    change (0 + zsum splits) with (zsum splits). unfold zsum. rewrite Hsum. lia.
  - intros m. eapply safe_bind; [apply safe_mget|]. intros s2 [_ _ H3 H4 H5].
    eapply safe_then; [apply seeds_safe; [by apply wrap_range|done|done]|]. intros _. unfold insert_packets. sends.
Qed.

Definition frames_ok (fs : list video_frame) : Prop :=
  Forall (fun f => frame_ok (vf_payload_type f) (vf_data f) (vf_len f)) fs.

Lemma send_frames_safe fs : frames_ok fs -> safe tx_ok (fun _ => True) (send_frames fs).
Proof.
  induction 1 as [|f fs Hf _ IH]; cbn [send_frames]; [by apply safe_ret|].
  eapply safe_then; [by apply SendVideo_safe|]. intros _. exact IH.
Qed.

Lemma Start_ends s : tx_ok s ->
  (has_encoder s = true -> frames_ok (src_Start (src_SetMinRate kInitialBitrateBps (ep_world (s_end s)))).1) ->
  exists s', Start s = (Ok tt, s') /\ tx_ok s'.
Proof.
  intros Hs Hf. unfold Start. set (s1 := (s_upd_running true s).2).
  assert (tx_ok s1) as H1 by (destruct Hs; by split). rewrite (M_bind_ok (s_upd_running true) _ s tt s1) by done.
  rewrite (M_bind_ok mget _ _ s1 s1) by done. cbv beta. change (has_encoder s1) with (has_encoder s).
  destruct (has_encoder s); [|by exists s1]. specialize (Hf eq_refl).
  set (s2 := (s_do (src_SetMinRate kInitialBitrateBps) s1).2).
  assert (tx_ok s2) as H2 by (destruct H1; by split). rewrite (M_bind_ok (s_do _) _ s1 tt s2) by done.
  rewrite (M_bind_ok mget _ _ s2 s2) by done. cbv beta.
  change (ep_world (s_end s2)) with (src_SetMinRate kInitialBitrateBps (ep_world (s_end s))).
  destruct (src_Start _) as [frames w].
  pose proof (safe_then tx_ok (fun _ => True) (s_do (fun _ => w)) (fun _ => send_frames frames)) as Hd.
  destruct (Hd ltac:(sends) ltac:(intros; by apply send_frames_safe) s2 H2) as ([] & s4 & E4 & H4 & _).
  by exists s4.
Qed.

Definition starts_well : Prop := forall w, frames_ok (src_Start (src_SetMinRate kInitialBitrateBps w)).1.

Lemma Start_safe : starts_well -> safe tx_ok (fun _ => True) Start.
Proof. intros Hf s Hs. destruct (Start_ends s Hs) as (s' & E & Hok); [by intros _|]. by exists tt, s'. Qed.

(** *** What the pacer calls *)

Lemma TimeToSendPacket_safe n info : safe tx_ok (fun _ => True) (TimeToSendPacket be n info).
Proof.
  unfold TimeToSendPacket. apply (safe_bind _ (fun o => forall seg, o = Some seg -> body_ok (BSegment seg))).
  - intros s Hs. unfold get_segment_t. rewrite (M_bind_ok mget _ _ s s) by done. cbv beta.
    destruct (find n (pending_buf_ s)) as [seg|] eqn:E; [|by exists None, s].
    eexists (Some seg), _. split; [reflexivity|]. destruct Hs as [H1 H2 H3 H4 H5]. split.
    + split; try done. intros k sg Hk. eapply H2. by eapply elem_erase.
    + intros ? [= <-]. eapply H2. by apply find_elem.
  - intros o Ho. eapply safe_then; [sends|]. intros now. destruct o as [seg|]; [|by apply safe_ret].
    eapply safe_then; [|intros; cbv zeta; sends]. unfold SendSegment. eapply safe_then; [sends|]. intros s.
    apply s_on_end_safe, send_safe; [done|done|by apply stamp_ok, Ho|done].
Qed.

Lemma SendPadding_safe n ts info : in_u 32 ts -> 0 <= n <= 500 ->
  safe tx_ok (fun r => r = 516 + n) (SendPadding be n ts info).
Proof.
  intros Hts Hn s [H1 H2 H3 H4 H5]. destruct (SendPadding_ok be n ts info s H1 H3 Hts Hn) as (st & [Hst _] & E).
  eexists _, _. split; [exact E|]. split; [|done]. split; cbn; try done. by apply wrap_range.
Qed.

Lemma pads_safe now info fuel : forall remain, (length (padding_sizes remain) < fuel)%nat ->
  safe tx_ok (fun _ => True) (padding_loop be fuel remain now info).
Proof.
  induction fuel as [|fuel IH]; intros remain Hf; [lia|]. cbn [padding_loop]. unfold MAX_PAD_SIZE.
  destruct (0 <? remain); [|by apply safe_ret].
  destruct (Z.leb_spec 500 remain) as [Hbig|Hsmall].
  - eapply safe_bind; [apply SendPadding_safe; [by apply wrap_range|lia]|]. intros r ->.
    rewrite padding_sizes_step in Hf by done. cbn [length] in Hf. apply IH.
    change (516 + 500) with 1016. lia.
  - assert (safe tx_ok (fun _ => True) (padding_loop be fuel 0 now info)) as Hend by (destruct fuel; by apply safe_ret).
    destruct (Z.leb_spec 100 remain).
    + eapply safe_then; [|intros; exact Hend]. eapply safe_bind; [|intros; by apply safe_ret].
      apply SendPadding_safe; [by apply wrap_range|lia].
    + eapply safe_then; [by apply safe_ret|intros; exact Hend].
Qed.

Lemma TimeToSendPadding_safe bytes info : 0 <= bytes < 2 ^ 31 ->
  safe tx_ok (fun _ => True) (TimeToSendPadding be (S (length (padding_sizes bytes))) bytes info).
Proof.
  intros Hb. unfold TimeToSendPadding. eapply safe_then; [sends|]. intros now. cbv zeta.
  assert (s32 bytes = bytes) as ->.
  { apply swrap_id; [lia|]. unfold in_s. change (2 ^ (32 - 1)) with 2147483648. change (2 ^ 31) with 2147483648 in Hb. lia. }
  eapply safe_then; [|intros; by apply safe_ret]. destruct (bytes <? 100); [by apply safe_ret|]. apply pads_safe. lia.
Qed.

(** *** Messages *)

Lemma Sender_UpdateRtt_safe t : safe tx_ok (fun _ => True) (Sender_UpdateRtt t).
Proof.
  unfold Sender_UpdateRtt, s_upd_rtt. eapply safe_then; [sends|]. intros s.
  destruct (Sender_rtt_step t (s_rtt s)) as [[average max] q]. sends.
Qed.

Lemma Sender_SendPing_safe now : in_s 64 now -> safe tx_ok (fun _ => True) (Sender_SendPing be now).
Proof.
  intros Hn. unfold Sender_SendPing. eapply safe_then; [|intros; unfold s_upd_ping; sends].
  apply s_on_end_safe, send_safe; [done|done|by apply ping_ok|done].
Qed.

#[local] Hint Resolve Sender_UpdateRtt_safe : survive.

Lemma InnerProcessFeedback_safe fb : body_bounded (BFeedback fb) ->
  ParseFrom (ztake (feedback_size fb) (feedback fb)) <> None -> safe tx_ok (fun _ => True) (InnerProcessFeedback fb).
Proof.
  intros [Hsh Hsz] Hp. cbn [body_shape] in Hsh. unfold InnerProcessFeedback.
  assert (load (feedback fb) 0 (feedback_size fb) = Some (ztake (feedback_size fb) (feedback fb))) as ->.
  { unfold load. by rewrite !(proj2 (Z.leb_le _ _)) by (rewrite ?Hsh; lia). }
  destruct (ParseFrom _) as [p|]; [sends|done].
Qed.

Lemma Sender_ProcessingMsg_safe r : filled_stream r -> safe tx_ok (fun _ => True) (Sender_ProcessingMsg be r).
Proof.
  intros Hr. unfold Sender_ProcessingMsg.
  destruct (header_safe r Hr) as [(h & r1 & E & Hr1)|E]; rewrite E; [|sends].
  destruct (_ || _); [sends|].
  destruct (Z.eqb_spec (mid h) SIM_PING) as [Em|_]; [by apply s_on_end_safe, answer_safe|].
  destruct (Z.eqb_spec (mid h) SIM_PONG) as [Em|_].
  { destruct (pong_ts_safe h r1 Em Hr1) as [t ->]. eapply safe_then; [sends|]. intros now. cbv zeta. sends. }
  destruct (Z.eqb_spec (mid h) SIM_FEEDBACK) as [Em|_]; [|sends].
  destruct (stack_feedback_ok (ST := ST)) as [Hsf Hbf].
  destruct (sim_decode_safe be h (BFeedback stack_feedback) r1 Hr1) as (b & r2 & E2 & Hb & _); [by split|by rewrite Em|].
  rewrite E2. destruct b as [| | | | | |fb| |]; try (by apply safe_ret). apply InnerProcessFeedback_safe; [done|].
  destruct Hr as (bs & Hh & _ & Hparse). by eapply Hparse.
Qed.

Lemma Sender_Process_safe : safe tx_ok (fun _ => True) (Sender_Process be).
Proof.
  unfold Sender_Process. eapply safe_then; [sends|]. intros s. destruct (running_ s); [|sends]. cbn [negb]. cbv iota.
  eapply safe_bind; [apply s_now_safe|]. intros now Hn. cbv zeta.
  eapply safe_then; [destruct (_ <? _); [by apply Sender_SendPing_safe|sends]|]. intros _.
  eapply safe_bind; [apply s_on_end_safe, receive_safe|]. intros [[remote st]|] Hst; [|sends].
  eapply safe_then; [|intros; by apply Sender_ProcessingMsg_safe]. apply s_on_end_safe, safe_mmodify. by intros.
Qed.

(** The calls made of a sender: by [main], by the encoder, by WebRTC's pacer and
    its controller. *)
Inductive tx_event :=
  | tx_process | tx_start | tx_stop | tx_encoder
  | tx_video (payload_type ftype : Z) (buf : list Z) (len : Z)
  | tx_packet (n : Z) (info : PacedPacketInfo) | tx_padding (bytes : Z) (info : PacedPacketInfo) | tx_rate (bps : Z)
  | tx_start_rate (bps : Z).

Definition tx_event_ok (e : tx_event) : Prop :=
  match e with
  | tx_video pt _ buf len => frame_ok pt buf len
  | tx_padding bytes _ => 0 <= bytes < 2 ^ 31
  | _ => True
  end.

Definition tx_call (e : tx_event) : M sender unit :=
  match e with
  | tx_process => Sender_Process be
  | tx_start => Start
  | tx_stop => Stop
  | tx_encoder => SetEncoder
  | tx_video pt ft buf len => SendVideo pt ft buf len
  | tx_packet n info => TimeToSendPacket be n info;; mret tt
  | tx_padding bytes info => TimeToSendPadding be (S (length (padding_sizes bytes))) bytes info;; mret tt
  | tx_rate bps => OnTargetTransferRate bps
  | tx_start_rate bps => OnStartRateUpdate bps
  end.

Lemma tx_call_safe e : (e = tx_start -> starts_well) -> tx_event_ok e -> safe tx_ok (fun _ => True) (tx_call e).
Proof.
  intros Hf He. destruct e; cbn in He |- *.
  - apply Sender_Process_safe.
  - by apply Start_safe, Hf.
  - unfold Stop, s_upd_running. sends.
  - unfold SetEncoder. sends.
  - by apply SendVideo_safe.
  - eapply safe_then; [apply TimeToSendPacket_safe|sends].
  - eapply safe_then; [by apply TimeToSendPadding_safe|sends].
  - unfold OnTargetTransferRate. sends.
  - unfold OnStartRateUpdate. sends.
Qed.

(** C7: Neither end of the emulation comes to grief over what the network brings:
    whatever calls [main], the encoder and WebRTC make, in whatever order, and
    whatever the datagrams hold - provided they have the four bytes of a
    checksum, and what claims to be feedback parses -, every call completes, and
    leaves the streams in order, the numbers in range and the segments pending
    fit to be sent.  A datagram of three bytes or less makes the decoder read
    outside the buffer. *)
Theorem ends_survive es ess w v fd fd' dst dst' :
  builds_bytes -> starts_well -> Forall rx_event_ok es -> Forall tx_event_ok ess ->
  (exists r, run_calls rx_call es (new_receiver v fd' dst') = (Ok tt, r) /\ rx_ok r) /\
  (exists s, run_calls tx_call ess (new_sender w fd dst) = (Ok tt, s) /\ tx_ok s) /\
  (forall q (r : receiver) (s : sender), readable q -> used q < 4 ->
     Receiver_ProcessingMsg be q r = (Stuck, r) /\ Sender_ProcessingMsg be q s = (Stuck, s)).
Proof.
  intros Hb Hf Hes Hess. destruct (init_stream memory) as ([Hs _] & _). split; [|split].
  - destruct (run_calls_safe rx_ok rx_call rx_event_ok es) with (new_receiver v fd' dst') as ([] & r & E & Hr & _);
      [intros; by apply rx_call_safe|done|exact Hs|]. by exists r.
  - destruct (run_calls_safe tx_ok tx_call tx_event_ok ess) with (new_sender w fd dst) as ([] & s & E & Hok & _);
      [intros; by apply tx_call_safe|done| |by exists s].
    split; [exact Hs|by intros ? ? ?%not_elem_of_nil|done..].
  - intros q r s Hq Hu.
    pose proof (sim_decode_header_cases be q [] (content q) Hq eq_refl) as Hc. pose proof (content_len q Hq) as Hl.
    rewrite Hl, (proj2 (Z.ltb_lt _ _)) in Hc by done. specialize (Hc ltac:(lia)).
    unfold Receiver_ProcessingMsg, Sender_ProcessingMsg. rewrite Hc. done.
Qed.

End Ends.
