(* ===== verification/FakeRtp.v ===== *)
(** * The RTP module: [mininet-webrtc/fake_rtp_rtcp_impl.{h,cc}], [sendinterface.h]

    What WebRTC's pacer takes for an RTP module: it hands three calls to a
    [SendInterface] - the emulation's [Sender] -, keeps two identifiers, and
    answers everything else with a constant after printing the method's name.
    The arguments of those methods, which none looks at, are left out; so are
    the locations some of them are to fill, which none writes. *)

From S2P Require Import Prelude Stream SimProto StdMap Platform AppHeader Mininet.
Open Scope Z_scope.

(** ** What a method answers *)

(** [Default]: a value made by a constructor without arguments; [Nothing]:
    [absl::nullopt]. *)
Inductive answer := Void | Bool (b : bool) | Num (n : Z) | Null | Nothing | Default | kCompound.

(** The methods that do nothing: what they print and answer. *)

(** The module and the receiver part. *)
Inductive process_call :=
  | TimeUntilNextProcess | Process | IncomingRtcpPacket.

Definition run_process_call (c : process_call) : option string * answer :=
  match c with
  | TimeUntilNextProcess => (Some "TimeUntilNextProcess", Num 0)
  | Process => (Some "Process", Void)
  | IncomingRtcpPacket => (Some "IncomingRtcpPacket", Void)
  end.

(** The sender part: payloads and states. *)
Inductive sender_call :=
  | RegisterAudioSendPayload | RegisterVideoSendPayload | DeRegisterSendPayload | SetExtmapAllowMixed
  | RegisterSendRtpHeaderExtension | RegisterRtpHeaderExtension | DeregisterSendRtpHeaderExtension
  | HasBweExtensions | StartTimestamp | SetStartTimestamp | SequenceNumber | SetSequenceNumber | SetRtpState
  | SetRtxState | GetRtpState | GetRtxState.

Definition run_sender_call (c : sender_call) : option string * answer :=
  match c with
  | RegisterAudioSendPayload => (Some "RegisterAudioSendPayload", Void)
  | RegisterVideoSendPayload => (Some "RegisterVideoSendPayload", Void)
  | DeRegisterSendPayload => (Some "DeRegisterSendPayload", Num 0)
  | SetExtmapAllowMixed => (Some "SetExtmapAllowMixed", Void)
  | RegisterSendRtpHeaderExtension => (Some "RegisterSendRtpHeaderExtension", Num 0)
  | RegisterRtpHeaderExtension => (Some "RegisterRtpHeaderExtension", Bool true)
  | DeregisterSendRtpHeaderExtension => (Some "DeregisterSendRtpHeaderExtension", Num 0)
  | HasBweExtensions => (Some "HasBweExtensions", Bool true)
  | StartTimestamp => (Some "StartTimestamp", Num 0)
  | SetStartTimestamp => (Some "SetStartTimestamp", Void)
  | SequenceNumber => (Some "SequenceNumber", Num 0)
  | SetSequenceNumber => (Some "SetSequenceNumber", Void)
  | SetRtpState => (Some "SetRtpState", Void)
  | SetRtxState => (Some "SetRtxState", Void)
  | GetRtpState => (Some "GetRtpState", Default)
  | GetRtxState => (Some "GetRtxState", Default)
  end.

(** The sender part: identities and sending. *)
Inductive sending_call :=
  | SetRid | SetMid | SetCsrcs | GetFeedbackState | SetRtxSendStatus | RtxSendStatus | SetRtxSsrc
  | SetRtxSendPayloadType | FlexfecSsrc | SetSendingStatus | Sending | SetSendingMediaStatus | SendingMedia
  | SetAsPartOfAllocation | SendOutgoingData.

Definition run_sending_call (c : sending_call) : option string * answer :=
  match c with
  | SetRid => (Some "SetRid", Void)
  | SetMid => (Some "SetMid", Void)
  | SetCsrcs => (Some "SetCsrcs", Void)
  | GetFeedbackState => (Some "GetFeedbackState", Default)
  | SetRtxSendStatus => (Some "SetRtxSendStatus", Void)
  | RtxSendStatus => (None, Num 0)
  | SetRtxSsrc => (Some "SetRtxSsrc", Void)
  | SetRtxSendPayloadType => (Some "SetRtxSendPayloadType", Void)
  | FlexfecSsrc => (Some "FlexfecSsrc", Nothing)
  | SetSendingStatus => (Some "SetSendingStatus", Num 0)
  | Sending => (Some "Sending", Bool true)
  | SetSendingMediaStatus => (Some "SetSendingMediaStatus", Void)
  | SendingMedia => (None, Bool true)
  | SetAsPartOfAllocation => (Some "SetAsPartOfAllocation", Void)
  | SendOutgoingData => (Some "SendOutgoingData", Bool true)
  end.

(** The RTCP part. *)
Inductive rtcp_call :=
  | RTCP | SetRTCPStatus | SetCNAME | RemoteCNAME | RemoteNTP | AddMixedCNAME | RemoveMixedCNAME | SendRTCP
  | SendCompoundRTCP | DataCountersRTP | GetSendStreamDataCounters | GetRtpPacketLossStats | RemoteRTCPStat
  | SetRemb | UnsetRemb.

Definition run_rtcp_call (c : rtcp_call) : option string * answer :=
  match c with
  | RTCP => (Some "RTCP", kCompound)
  | SetRTCPStatus => (Some "SetRTCPStatus", Void)
  | SetCNAME => (Some "SetCNAME", Num 0)
  | RemoteCNAME => (Some "RemoteCNAME", Num 0)
  | RemoteNTP => (Some "RemoteNTP", Num 0)
  | AddMixedCNAME => (Some "AddMixedCNAME", Num 0)
  | RemoveMixedCNAME => (Some "RemoveMixedCNAME", Num 0)
  | SendRTCP => (Some "SendRTCP", Num 0)
  | SendCompoundRTCP => (Some "SendCompoundRTCP", Num 0)
  | DataCountersRTP => (Some "DataCountersRTP", Num 0)
  | GetSendStreamDataCounters => (Some "GetSendStreamDataCounters", Void)
  | GetRtpPacketLossStats => (Some "GetRtpPacketLossStats", Void)
  | RemoteRTCPStat => (Some "RemoteRTCPStat", Num 0)
  | SetRemb => (Some "SetRemb", Void)
  | UnsetRemb => (Some "UnsetRemb", Void)
  end.

(** Bit rates, negative acknowledgements and reports. *)
Inductive nack_call :=
  | TMMBR | SetTMMBRStatus | MaxRtpPacketSize | SetMaxRtpPacketSize | SelectiveRetransmissions
  | SetSelectiveRetransmissions | SendNACK | SendNack | SetStorePacketsStatus | StorePackets
  | RegisterRtcpStatisticsCallback | GetRtcpStatisticsCallback | SendFeedbackPacket
  | SetRTCPApplicationSpecificData | SetRtcpXrRrtrStatus | RtcpXrRrtrStatus.

Definition run_nack_call (c : nack_call) : option string * answer :=
  match c with
  | TMMBR => (Some "TMMBR", Bool true)
  | SetTMMBRStatus => (Some "SetTMMBRStatus", Void)
  | MaxRtpPacketSize => (Some "MaxRtpPacketSize", Num 0)
  | SetMaxRtpPacketSize => (Some "SetMaxRtpPacketSize", Void)
  | SelectiveRetransmissions => (Some "SelectiveRetransmissions", Num 0)
  | SetSelectiveRetransmissions => (Some "SetSelectiveRetransmissions", Num 0)
  | SendNACK => (Some "SendNACK", Num 0)
  | SendNack => (Some "SendNack", Void)
  | SetStorePacketsStatus => (Some "SetStorePacketsStatus", Void)
  | StorePackets => (Some "StorePackets", Bool true)
  | RegisterRtcpStatisticsCallback => (Some "RegisterRtcpStatisticsCallback", Void)
  | GetRtcpStatisticsCallback => (Some "GetRtcpStatisticsCallback", Null)
  | SendFeedbackPacket => (Some "SendFeedbackPacket", Bool false)
  | SetRTCPApplicationSpecificData => (Some "SetRTCPApplicationSpecificData", Num 0)
  | SetRtcpXrRrtrStatus => (Some "SetRtcpXrRrtrStatus", Void)
  | RtcpXrRrtrStatus => (Some "RtcpXrRrtrStatus", Bool true)
  end.

(** The audio and the video part. *)
Inductive media_call :=
  | SendTelephoneEventOutband | SetAudioLevel | SetKeyFrameRequestMethod | RequestKeyFrame | SetUlpfecConfig
  | SetFecParameters | BitrateSent | RegisterSendChannelRtpStatisticsCallback
  | GetSendChannelRtpStatisticsCallback | SetVideoBitrateAllocation.

Definition run_media_call (c : media_call) : option string * answer :=
  match c with
  | SendTelephoneEventOutband => (Some "SendTelephoneEventOutband", Num 0)
  | SetAudioLevel => (Some "SetAudioLevel", Num 0)
  | SetKeyFrameRequestMethod => (Some "SetKeyFrameRequestMethod", Num 0)
  | RequestKeyFrame => (Some "RequestKeyFrame", Num 0)
  | SetUlpfecConfig => (Some "SetUlpfecConfig", Void)
  | SetFecParameters => (Some "SetFecParameters", Bool true)
  | BitrateSent => (Some "BitrateSent", Void)
  | RegisterSendChannelRtpStatisticsCallback => (Some "RegisterSendChannelRtpStatisticsCallback", Void)
  | GetSendChannelRtpStatisticsCallback => (Some "GetSendChannelRtpStatisticsCallback", Null)
  | SetVideoBitrateAllocation => (Some "SetVideoBitrateAllocation", Void)
  end.

(** ** The module *)

(** [SendInterface], implemented by objects with state [S]. *)
Class SendInterface (Info S : Type) := {
  si_TimeToSendPacket : Z -> Z -> Z -> bool -> Info -> M S bool;
  si_TimeToSendPadding : Z -> Info -> M S Z;
  si_RTT : S -> Z * Z * Z * Z
}.

(** What is printed: a name, or the line about padding. *)
Inductive printed := Name (n : string) | PaddingLine (bytes : Z).

Section Module.
Context {Info S : Type} `{SI : SendInterface Info S}.

(** [sender_] points to an object that belongs to somebody else. *)
Record FakeRtpRtcpImpl := mkRtp {
  sender_ : option S;
  remote_ssrc_ : Z;
  ssrc_ : Z;
  cout : list printed
}.

Local Abbreviation F := (M FakeRtpRtcpImpl).

Definition new_rtp (sender : option S) : FakeRtpRtcpImpl := mkRtp sender 0 0 [].

Definition print (p : printed) : F unit := mmodify (fun m =>
  mkRtp (sender_ m) (remote_ssrc_ m) (ssrc_ m) (cout m ++ [p])).

(** A call through [sender_], or what to do without one. *)
Definition with_sender {X} (call : M S X) (otherwise : F X) : F X := fun m =>
  match sender_ m with
  | Some s => let '(r, s) := call s in (r, mkRtp (Some s) (remote_ssrc_ m) (ssrc_ m) (cout m))
  | None => otherwise m
  end.

Definition SetRemoteSSRC (ssrc : Z) : F unit :=
  print (Name "SetRemoteSSRC");;
  mmodify (fun m => mkRtp (sender_ m) ssrc (ssrc_ m) (cout m)).

Definition SSRC : F Z := m ← mget; mret (ssrc_ m).

Definition SetSSRC (ssrc : Z) : F unit := mmodify (fun m => mkRtp (sender_ m) (remote_ssrc_ m) ssrc (cout m)).

Definition TimeToSendPacket (ssrc sequence_number capture_time_ms : Z) (retransmission : bool) (pacing_info : Info) : F bool :=
  with_sender (si_TimeToSendPacket ssrc sequence_number capture_time_ms retransmission pacing_info) (mret true).

Definition TimeToSendPadding (bytes : Z) (pacing_info : Info) : F Z :=
  m ← mget;
  (match sender_ m with Some _ => print (PaddingLine bytes) | None => mret tt end);;
  with_sender (si_TimeToSendPadding bytes pacing_info) (mret bytes).

(** The four locations and the result. *)
Definition RTT (out : Z * Z * Z * Z) : F (Z * (Z * Z * Z * Z)) :=
  print (Name "RTT");;
  out ← with_sender (s ← mget; mret (si_RTT s)) (mret out);
  mret (0, out).

(** ** A call of any method *)

Inductive rtp_call :=
  | CallProcess (c : process_call) | CallSender (c : sender_call) | CallSending (c : sending_call)
  | CallRtcp (c : rtcp_call) | CallNack (c : nack_call) | CallMedia (c : media_call)
  | CallSetRemoteSSRC (ssrc : Z) | CallSSRC | CallSetSSRC (ssrc : Z)
  | CallPacket (ssrc sequence_number capture_time_ms : Z) (retransmission : bool) (pacing_info : Info)
  | CallPadding (bytes : Z) (pacing_info : Info)
  | CallRTT (out : Z * Z * Z * Z).

Inductive outcome := Answer (a : answer) | Times (r : Z) (out : Z * Z * Z * Z).

Definition run_stub (r : option string * answer) : F outcome :=
  (match r.1 with Some n => print (Name n) | None => mret tt end);;
  mret (Answer r.2).

Definition run_call (c : rtp_call) : F outcome :=
  match c with
  | CallProcess c => run_stub (run_process_call c)
  | CallSender c => run_stub (run_sender_call c)
  | CallSending c => run_stub (run_sending_call c)
  | CallRtcp c => run_stub (run_rtcp_call c)
  | CallNack c => run_stub (run_nack_call c)
  | CallMedia c => run_stub (run_media_call c)
  | CallSetRemoteSSRC ssrc => SetRemoteSSRC ssrc;; mret (Answer Void)
  | CallSSRC => n ← SSRC; mret (Answer (Num n))
  | CallSetSSRC ssrc => SetSSRC ssrc;; mret (Answer Void)
  | CallPacket ssrc sq t re info => b ← TimeToSendPacket ssrc sq t re info; mret (Answer (Bool b))
  | CallPadding bytes info => n ← TimeToSendPadding bytes info; mret (Answer (Num n))
  | CallRTT out => '(r, out) ← RTT out; mret (Times r out)
  end.

Fixpoint run_rtp (cs : list rtp_call) : F (list outcome) :=
  match cs with
  | [] => mret []
  | c :: cs => o ← run_call c; os ← run_rtp cs; mret (o :: os)
  end.

(** ** What it is for *)

(** The same calls made to the sender itself. *)
Definition direct (c : rtp_call) : option (M S outcome) :=
  match c with
  | CallPacket ssrc sq t re info => Some (b ← si_TimeToSendPacket ssrc sq t re info; mret (Answer (Bool b)))
  | CallPadding bytes info => Some (n ← si_TimeToSendPadding bytes info; mret (Answer (Num n)))
  | CallRTT _ => Some (s ← mget; mret (Times 0 (si_RTT s)))
  | _ => None
  end.

(** The outcome of any other call, when [ssrc] was last set. *)
Definition constant (ssrc : Z) (c : rtp_call) : outcome :=
  Answer (match c with
  | CallProcess c => (run_process_call c).2
  | CallSender c => (run_sender_call c).2
  | CallSending c => (run_sending_call c).2
  | CallRtcp c => (run_rtcp_call c).2
  | CallNack c => (run_nack_call c).2
  | CallMedia c => (run_media_call c).2
  | CallSSRC => Num ssrc
  | _ => Void
  end).

Definition ssrc_after (ssrc : Z) (c : rtp_call) : Z := match c with CallSetSSRC n => n | _ => ssrc end.

(** The abstract module: a sender and the last identifier set. *)
Fixpoint run_spec (ssrc : Z) (cs : list rtp_call) : M S (list outcome) :=
  match cs with
  | [] => mret []
  | c :: cs =>
      o ← (match direct c with Some m => m | None => mret (constant ssrc c) end);
      os ← run_spec (ssrc_after ssrc c) cs;
      mret (o :: os)
  end.

(** The module with sender [s] and identifier [ssrc]. *)
Definition represents (s : S) (ssrc : Z) (m : FakeRtpRtcpImpl) : Prop := sender_ m = Some s /\ ssrc_ m = ssrc.

Lemma run_stub_ok r s ssrc m : represents s ssrc m ->
  exists m', run_stub r m = (Ok (Answer r.2), m') /\ represents s ssrc m'.
Proof. intros Hm. destruct r as [[n|] a]; eexists; (split; [reflexivity|done]). Qed.

Lemma run_call_spec c s ssrc m : represents s ssrc m ->
  let '(r, s') := (match direct c with Some d => d | None => mret (constant ssrc c) end) s in
  exists m', run_call c m = (r, m') /\ represents s' (ssrc_after ssrc c) m'.
Proof.
  intros Hm. destruct c; try (by apply run_stub_ok); destruct Hm as [Es Ei]; destruct m as [sn rs sr lines];
    cbn in Es, Ei; subst.
  - by eexists.
  - by eexists.
  - by eexists.
  - cbn [direct run_call]. unfold TimeToSendPacket, with_sender, mbind, M_bind. cbn [sender_].
    destruct (si_TimeToSendPacket _ _ _ _ _ s) as [[b| |] s']; by eexists.
  - cbn [direct run_call]. unfold TimeToSendPadding, with_sender, print, mbind, M_bind, mget, mmodify, mret, M_ret. cbn [sender_].
    destruct (si_TimeToSendPadding _ _ s) as [[b| |] s']; by eexists.
  - by eexists.
Qed.

(** C38: The module is what the pacer needs of one: whatever methods WebRTC calls
    in whatever order, the sender sees the packets, padding and round-trip
    requests, and those alone, with their arguments and in their order, its
    results are returned unchanged, and every other answer is a constant or the
    identifier last set.  Without a sender, packets are reported sent and all
    padding done, and nothing happens. *)
Theorem rtp_forwards cs s ssrc m : represents s ssrc m ->
  (let '(r, s') := run_spec ssrc cs s in
   exists m' ssrc', run_rtp cs m = (r, m') /\ represents s' ssrc' m') /\
  (forall sq n t re info bytes m0, sender_ m0 = None ->
     TimeToSendPacket sq n t re info m0 = (Ok true, m0) /\ TimeToSendPadding bytes info m0 = (Ok bytes, m0)).
Proof.
  intros Hm. split.
  - revert s ssrc m Hm. induction cs as [|c cs IH]; intros s ssrc m Hm; [by exists m, ssrc|].
    cbn [run_spec run_rtp]. pose proof (run_call_spec c s ssrc m Hm) as Hc. unfold mbind, M_bind.
    destruct (match direct c with Some d => d | None => mret (constant ssrc c) end s) as [[o| |] s1];
      destruct Hc as (m1 & -> & Hm1); [|by exists m1, (ssrc_after ssrc c)..].
    specialize (IH _ _ _ Hm1). destruct (run_spec (ssrc_after ssrc c) cs s1) as [[os| |] s2];
      destruct IH as (m2 & i2 & -> & Hm2); by exists m2, i2.
  - intros sq n t re info bytes m0 H0. unfold TimeToSendPacket, TimeToSendPadding, with_sender.
    unfold mbind, M_bind, mget, mret, M_ret. rewrite !H0. split; reflexivity.
Qed.

End Module.

(** ** The emulation's sender behind the module *)

#[export] Instance sender_interface `{P : Platform} (be : Z) {W : Type} `{ML : Millis W} `{SK : Sockets W}
    `{RTC : Webrtc W} `{ST : Stack} (fuel : nat) : SendInterface PacedPacketInfo (@Sender W) := {
  si_TimeToSendPacket _ sequence_number _ _ info := Mininet.TimeToSendPacket be sequence_number info;
  si_TimeToSendPadding bytes info := Mininet.TimeToSendPadding be fuel bytes info;
  si_RTT := Mininet.RTT
}.
