(* ===== verification/VideoGen.v ===== *)
(** * The video generator: [mininet-webrtc/fakevideosource.{h,cc}]

    [VideoGenerator] hands its target a frame of [rate_ / (8 fs_)] bytes every
    [1000 / fs_] ms.  The quotient is one of single-precision floats, modelled
    with its roundings; the timer is a delayed task, which belongs to the world.
    The generator implements the interface [VideoSource] of [Mininet.v]. *)

From S2P Require Import Prelude Stream Crc32 SimProto StdMap Platform AppHeader Mininet MininetMsgs MininetProps.
Open Scope Z_scope.

(** ** Single precision *)

(** To the nearest integer, ties to even. *)
Definition round_even (n d : Z) : Z :=
  let q := n / d in
  let r := n mod d in
  if 2 * r <? d then q else if d <? 2 * r then q + 1 else if Z.even q then q else q + 1.

(** [n * 2 ^ (- e) / d] as a fraction. *)
Definition scaled (n d e : Z) : Z * Z := if 0 <=? e then (n, d * 2 ^ e) else (n * 2 ^ (- e), d).

(** The float nearest to the positive [n / d]: a significand of 24 bits and an
    exponent.  (The values here are far from over- and underflow.) *)
Definition f32_exponent (n d : Z) : Z :=
  let e := Z.log2 n - Z.log2 d - 24 in
  let p := scaled n d e in
  if p.1 / p.2 <? 2 ^ 24 then e else e + 1.

Definition f32_of (n d : Z) : Z * Z :=
  let e := f32_exponent n d in
  let p := scaled n d e in
  (round_even p.1 p.2, e).

(** A float as a fraction. *)
Definition f32_num (x : Z * Z) : Z := if 0 <=? x.2 then x.1 * 2 ^ x.2 else x.1.
Definition f32_den (x : Z * Z) : Z := if 0 <=? x.2 then 1 else 2 ^ (- x.2).

Definition f32_div (x y : Z * Z) : Z * Z := f32_of (f32_num x * f32_den y) (f32_den x * f32_num y).

(** The conversion to an integer drops the fraction. *)
Definition f32_trunc (x : Z * Z) : Z := f32_num x / f32_den x.

(** [(float)rate_ / (fs_ * 8.f)] as a [uint32_t]. *)
Definition frame_bytes (rate fs : Z) : Z :=
  f32_trunc (f32_div (f32_of rate 1) (let '(m, e) := f32_of fs 1 in (m, e + 3))).

(** ** The generator *)

(** The task queue: [Generate] after so many milliseconds, [WriteToFile] of a
    record soon. *)
Class TaskQueue (W : Type) := {
  PostGenerate : Z -> W -> W;
  PostWrite : Z -> Z -> W -> W
}.

(** [new uint8_t[n]]: what it holds. *)
Class Heap := heap_bytes : Z -> list Z.

Record VideoGenerator := mkVideoGenerator {
  fs_ : Z; vg_rate_ : Z; minR_ : Z; vg_running_ : bool; has_target : bool;
  log_enable_ : bool; vg_first_ : Z; vg_f_rate_ : log_file }.

(** The world together with the generator in it. *)
Record vg_world (W : Type) := mkVg { vg_base : W; vg : VideoGenerator }.
Arguments mkVg {W}.
Arguments vg_base {W}.
Arguments vg {W}.

Section Generator.
Context {W : Type} `{ML : Millis W} `{TQ : TaskQueue W} `{FS : Files W} `{HP : Heap}.

Local Abbreviation G := (vg_world W).

(** [minR_] is not initialised. *)
Definition new_video_generator (fs garbage : Z) : VideoGenerator :=
  mkVideoGenerator fs 0 garbage false false false 0 closed_log.

Definition vg_upd (f : VideoGenerator -> VideoGenerator) (w : G) : G := mkVg (vg_base w) (f (vg w)).
Definition vg_do (f : W -> W) (w : G) : G := mkVg (f (vg_base w)) (vg w).

Definition vg_set_rates (rate min : Z) (g : VideoGenerator) : VideoGenerator :=
  mkVideoGenerator (fs_ g) rate min (vg_running_ g) (has_target g) (log_enable_ g) (vg_first_ g) (vg_f_rate_ g).

Definition vg_set_running (b : bool) (g : VideoGenerator) : VideoGenerator :=
  mkVideoGenerator (fs_ g) (vg_rate_ g) (minR_ g) b (has_target g) (log_enable_ g) (vg_first_ g) (vg_f_rate_ g).

Definition vg_set_log (enable : bool) (first : Z) (file : log_file) (g : VideoGenerator) : VideoGenerator :=
  mkVideoGenerator (fs_ g) (vg_rate_ g) (minR_ g) (vg_running_ g) (has_target g) enable first file.

Definition vg_RegisterVideoTarget : G -> G := vg_upd (fun g =>
  mkVideoGenerator (fs_ g) (vg_rate_ g) (minR_ g) (vg_running_ g) true (log_enable_ g) (vg_first_ g) (vg_f_rate_ g)).

Definition vg_SetMinRate (minR : Z) : G -> G := vg_upd (vg_set_rates minR minR).

Definition SetLogFile (name : string) (w : G) : G :=
  let '(granted, b) := grant_open (name ++ "_rate.txt") (vg_base w) in
  mkVg b (vg_set_log true (vg_first_ (vg w)) (log_open granted (vg_f_rate_ (vg w))) (vg w)).

(** Without a log file the record is printed. *)
Definition LogRate (bitrate : Z) (w : G) : G :=
  let '(now, b) := TimeMillis (vg_base w) in
  let now := u32 now in
  let g := vg w in
  let first := if vg_first_ g =? 0 then now else vg_first_ g in
  let abs := u32 (now - first) in
  mkVg (if log_enable_ g then PostWrite abs bitrate b else b)
    (vg_set_log (log_enable_ g) first (vg_f_rate_ g) g).

(** The rate is printed in kbit/s as a float; the line keeps the bit/s. *)
Definition WriteToFile (abs bps : Z) : G -> G := vg_upd (fun g =>
  if is_open (vg_f_rate_ g)
  then vg_set_log (log_enable_ g) (vg_first_ g) (log_line [s32 abs; bps] (vg_f_rate_ g)) g
  else g).

Definition vg_ChangeRate (bitrate : Z) (w : G) : G :=
  let g := vg w in
  let w := vg_upd (vg_set_rates (if minR_ g <? bitrate then bitrate else minR_ g) (minR_ g)) w in
  LogRate (vg_rate_ (vg w)) w.

(** What the target is handed. *)
Definition SendFrame (g : VideoGenerator) : list video_frame :=
  if vg_rate_ g =? 0 then []
  else
    let bytesToSend := frame_bytes (vg_rate_ g) (fs_ g) in
    if has_target g then [mkFrame 0 0 (heap_bytes bytesToSend) bytesToSend] else [].

(** The target's reaction to the frame comes before the next task is posted;
    neither looks at what the other does. *)
Definition Generate (w : G) : list video_frame * G :=
  if vg_running_ (vg w) then
    let frames := SendFrame (vg w) in
    let duration := 1000 / fs_ (vg w) in
    (frames, vg_do (PostGenerate duration) w)
  else ([], w).

Definition vg_Start (w : G) : list video_frame * G := Generate (vg_upd (vg_set_running true) w).
Definition vg_Stop : G -> G := vg_upd (vg_set_running false).

#[export] Instance generator_source : VideoSource G := {|
  src_RegisterVideoTarget := vg_RegisterVideoTarget;
  src_SetMinRate := vg_SetMinRate;
  src_Start := vg_Start;
  src_Stop := vg_Stop;
  src_ChangeRate := vg_ChangeRate
|}.

(** *** The rest of the world is as before *)

#[export] Instance vg_millis : Millis G := fun w =>
  let '(now, b) := TimeMillis (vg_base w) in (now, mkVg b (vg w)).

Context `{SK : Sockets W} `{RTC : Webrtc W}.

#[export] Instance vg_sockets : Sockets G := {|
  sys_recvfrom fd n w := let '(r, b) := sys_recvfrom fd n (vg_base w) in (r, mkVg b (vg w));
  sys_sendto fd buf a w := let '(r, b) := sys_sendto fd buf a (vg_base w) in (r, mkVg b (vg w));
  sys_select fd us w := let '(r, b) := sys_select fd us (vg_base w) in (r, mkVg b (vg w))
|}.

#[export] Instance vg_webrtc : Webrtc G := {|
  PacedPacketInfo := PacedPacketInfo (W := W);
  TransportFeedback := TransportFeedback (W := W);
  ParseFrom := ParseFrom (W := W);
  Build := Build (W := W);
  new_controller a b c := vg_do (new_controller a b c);
  InsertPacket a b c d := vg_do (InsertPacket a b c d);
  AddPacket a b c i := vg_do (AddPacket a b c i);
  OnSentPacket a b := vg_do (OnSentPacket a b);
  ctl_OnRttUpdate a b := vg_do (ctl_OnRttUpdate a b);
  OnTransportFeedback fb := vg_do (OnTransportFeedback fb);
  new_receive_side_cc := vg_do new_receive_side_cc;
  stop_receive_side_cc := vg_do stop_receive_side_cc;
  OnReceivedPacket a b c d := vg_do (OnReceivedPacket a b c d);
  cc_OnRttUpdate a b := vg_do (cc_OnRttUpdate a b)
|}.

End Generator.

(** ** The size of a frame *)

Lemma round_even_bounds n d : 0 < d -> n / d <= round_even n d /\ 2 * d * round_even n d <= 2 * n + d.
Proof.
  intros Hd. unfold round_even. pose proof (Z.div_mod n d ltac:(lia)) as E. pose proof (Z.mod_pos_bound n d Hd).
  set (q := n / d) in *. set (r := n mod d) in *.
  destruct (Z.ltb_spec (2 * r) d); [nia|]. destruct (Z.ltb_spec d (2 * r)); [nia|]. destruct (Z.even q); nia.
Qed.

Lemma round_even_exact q d : 0 < d -> round_even (q * d) d = q.
Proof.
  intros Hd. unfold round_even. rewrite Z.div_mul, Z.mod_mul by lia. by rewrite (proj2 (Z.ltb_lt _ _)) by lia.
Qed.

Lemma round_even_cancel n d c : 0 < d -> 0 < c -> round_even (n * c) (d * c) = round_even n d.
Proof.
  intros Hd Hc. unfold round_even. rewrite Z.div_mul_cancel_r, Z.mul_mod_distr_r by lia.
  replace (2 * (n mod d * c)) with (2 * (n mod d) * c) by lia.
  assert (forall x y, (x * c <? y * c) = (x <? y)) as Hlt
    by (intros x y; destruct (Z.ltb_spec x y), (Z.ltb_spec (x * c) (y * c)); nia).
  by rewrite !Hlt.
Qed.

Lemma scaled_eq n d e : scaled n d e = (n * 2 ^ Z.max 0 (- e), d * 2 ^ Z.max 0 e).
Proof.
  unfold scaled. destruct (Z.leb_spec 0 e).
  - rewrite (Z.max_l 0 (- e)), (Z.max_r 0 e) by lia. change (2 ^ 0) with 1. by rewrite Z.mul_1_r.
  - rewrite (Z.max_r 0 (- e)), (Z.max_l 0 e) by lia. change (2 ^ 0) with 1. by rewrite Z.mul_1_r.
Qed.

Lemma pow_pos e : 0 < 2 ^ Z.max 0 e.
Proof. apply Z.pow_pos_nonneg; lia. Qed.

(** The significand has 24 bits. *)
Lemma f32_significand n d : 0 < n -> 0 < d ->
  let e := f32_exponent n d in 2 ^ 23 * (d * 2 ^ Z.max 0 e) <= n * 2 ^ Z.max 0 (- e).
Proof.
  intros Hn Hd. unfold f32_exponent. set (e := Z.log2 n - Z.log2 d - 24). rewrite scaled_eq. cbn [fst snd].
  pose proof (Z.log2_spec n Hn) as [Hn1 _]. pose proof (Z.log2_spec d Hd) as [_ Hd2].
  pose proof (Z.log2_nonneg n). pose proof (Z.log2_nonneg d). pose proof (pow_pos e). pose proof (pow_pos (- e)).
  cbv zeta. destruct (Z.ltb_spec (n * 2 ^ Z.max 0 (- e) / (d * 2 ^ Z.max 0 e)) (2 ^ 24)) as [_|Hge].
  - assert (2 ^ 23 * 2 ^ Z.succ (Z.log2 d) * 2 ^ Z.max 0 e = 2 ^ Z.log2 n * 2 ^ Z.max 0 (- e)) as E
      by (rewrite <- !Z.pow_add_r by lia; f_equal; lia). nia.
  - assert (2 ^ 24 * (d * 2 ^ Z.max 0 e) <= n * 2 ^ Z.max 0 (- e)) as Hb.
    { pose proof (Z.mul_div_le (n * 2 ^ Z.max 0 (- e)) (d * 2 ^ Z.max 0 e) ltac:(nia)). nia. }
    change (2 ^ 24) with (2 ^ 23 * 2) in Hb. destruct (Z.leb_spec 0 e) as [He|He].
    + rewrite (Z.max_r 0 e), (Z.max_l 0 (- e)) in Hb by lia.
      rewrite (Z.max_r 0 (e + 1)), (Z.max_l 0 (- (e + 1))), Z.pow_add_r by lia. lia.
    + rewrite (Z.max_l 0 e), (Z.max_r 0 (- e)) in Hb by lia.
      rewrite (Z.max_l 0 (e + 1)), (Z.max_r 0 (- (e + 1))) by lia.
      assert (2 ^ (- e) = 2 ^ (- (e + 1)) * 2) as E
        by (replace (- e) with (- (e + 1) + 1) by lia; by rewrite Z.pow_add_r by lia).
      rewrite E in Hb. lia.
Qed.

(** Integers of up to 24 bits are exact. *)
Lemma f32_of_int n : 0 < n < 2 ^ 24 -> let x := f32_of n 1 in
  f32_num x = n * f32_den x /\ 0 < f32_den x.
Proof.
  intros Hn. unfold f32_of. pose proof (f32_significand n 1 ltac:(lia) ltac:(lia)) as Hs. cbv zeta in *.
  set (e := f32_exponent n 1) in *. rewrite scaled_eq. cbn [fst snd].
  assert (e <= 0) as He.
  { destruct (Z.leb_spec e 0) as [|He]; [done|]. rewrite (Z.max_r 0 e), (Z.max_l 0 (- e)) in Hs by lia.
    assert (2 ^ 1 <= 2 ^ e) by (apply Z.pow_le_mono_r; lia). change (2 ^ 24) with (2 ^ 23 * 2) in Hn.
    change (2 ^ 1) with 2 in *. change (2 ^ 0) with 1 in *. lia. }
  rewrite (Z.max_l 0 e), (Z.max_r 0 (- e)) by lia. change (2 ^ 0) with 1. rewrite Z.mul_1_r.
  rewrite <- (Z.mul_1_r (n * _)), round_even_exact by lia. unfold f32_num, f32_den. cbn [fst snd].
  destruct (Z.leb_spec 0 e).
  - assert (e = 0) as -> by lia. change (2 ^ 0) with 1. change (2 ^ (- 0)) with 1. lia.
  - split; [done|]. apply Z.pow_pos_nonneg; lia.
Qed.

(** Eight times a float is exact. *)
Lemma f32_times_8 m e n : f32_num (m, e) = n * f32_den (m, e) ->
  f32_num (m, e + 3) = 8 * n * f32_den (m, e + 3) /\ 0 < f32_den (m, e + 3).
Proof.
  unfold f32_num, f32_den. cbn [fst snd]. destruct (Z.leb_spec 0 e), (Z.leb_spec 0 (e + 3)); try lia; intros E.
  - rewrite Z.pow_add_r by lia. change (2 ^ 3) with 8. lia.
  - subst m. split; [|lia]. rewrite <- Z.mul_assoc, <- Z.pow_add_r by lia.
    replace (- e + (e + 3)) with 3 by lia. change (2 ^ 3) with 8. lia.
  - subst m. replace (- e) with (- (e + 3) + 3) by lia. rewrite Z.pow_add_r by lia. change (2 ^ 3) with 8.
    split; [lia|]. apply Z.pow_pos_nonneg; lia.
Qed.

(** Rounding never reaches the next integer: the numerator has 24 bits. *)
Lemma floor_rounded a b s : 0 < b -> 0 < s -> 2 ^ 23 * b <= a * s -> 0 <= a < 2 ^ 24 ->
  round_even (a * s) b / s = a / b.
Proof.
  intros Hb Hs Hlo Ha. destruct (round_even_bounds (a * s) b Hb) as [H1 H2].
  set (m := round_even (a * s) b) in *. pose proof (Z.div_mod a b ltac:(lia)) as E.
  pose proof (Z.mod_pos_bound a b Hb). set (q := a / b) in *.
  assert (q * s <= m).
  { etransitivity; [|exact H1]. apply Z.div_le_lower_bound; [done|]. nia. }
  change (2 ^ 24) with (2 ^ 23 * 2) in Ha. assert (b < 2 * s) by nia.
  assert (a * s <= (q + 1) * s * b - s) by nia.
  assert (m < (q + 1) * s) by (apply (Z.mul_lt_mono_pos_l (2 * b)); lia).
  symmetry. apply Z.div_unique with (m - s * q); [|lia]. left. lia.
Qed.

Lemma f32_div_floor x y a b : f32_num x = a * f32_den x -> 0 < f32_den x -> f32_num y = b * f32_den y ->
  0 < f32_den y -> 0 < a < 2 ^ 24 -> 2 <= b -> f32_trunc (f32_div x y) = a / b.
Proof.
  intros Ex Hx Ey Hy Ha Hb. unfold f32_div. rewrite Ex, Ey. set (c := f32_den x * f32_den y).
  replace (a * f32_den x * f32_den y) with (a * c) by (unfold c; lia).
  replace (f32_den x * (b * f32_den y)) with (b * c) by (unfold c; lia).
  assert (0 < c) as Hc by (unfold c; nia). unfold f32_of.
  pose proof (f32_significand (a * c) (b * c) ltac:(nia) ltac:(nia)) as Hs. cbv zeta in *.
  set (e := f32_exponent (a * c) (b * c)) in *. rewrite scaled_eq. cbn [fst snd].
  pose proof (pow_pos e) as Hp.
  assert (e < 0) as He.
  { destruct (Z.ltb_spec e 0) as [|He]; [done|]. rewrite (Z.max_l 0 (- e)) in Hs by lia.
    change (2 ^ 0) with 1 in Hs. change (2 ^ 24) with (2 ^ 23 * 2) in Ha.
    assert (2 ^ 23 * (b * c) <= a * c) by nia. nia. }
  rewrite (Z.max_l 0 e), (Z.max_r 0 (- e)) in * by lia. change (2 ^ 0) with 1 in *. rewrite Z.mul_1_r in *.
  replace (a * c * 2 ^ (- e)) with (a * 2 ^ (- e) * c) in * by lia. rewrite round_even_cancel by lia.
  unfold f32_trunc, f32_num, f32_den. cbn [fst snd]. rewrite (proj2 (Z.leb_gt 0 e)) by done.
  apply floor_rounded; [lia|apply Z.pow_pos_nonneg; lia|nia|lia].
Qed.

Lemma frame_bytes_floor rate fs : 0 < rate < 2 ^ 24 -> 0 < fs < 2 ^ 24 -> frame_bytes rate fs = rate / (8 * fs).
Proof.
  intros Hr Hf. unfold frame_bytes. destruct (f32_of_int rate Hr) as [Er Hr2].
  destruct (f32_of_int fs Hf) as [Ef _]. destruct (f32_of fs 1) as [m e].
  destruct (f32_times_8 m e fs Ef) as [E8 H8]. apply f32_div_floor; [done..|lia].
Qed.

(** ** The generator feeds the sender *)

Section Feeding.
Context {W : Type} `{ML : Millis W} `{TQ : TaskQueue W} `{HP : Heap}.

Local Abbreviation G := (vg_world W).

(** The frame of a rate. *)
Definition frame_of (rate fs : Z) : video_frame :=
  let n := rate / (8 * fs) in mkFrame 0 0 (heap_bytes n) n.

Lemma SendFrame_of (g : VideoGenerator) : has_target g = true -> 0 < vg_rate_ g < 2 ^ 24 -> 0 < fs_ g < 2 ^ 24 ->
  SendFrame g = [frame_of (vg_rate_ g) (fs_ g)].
Proof.
  intros Ht Hr Hf. unfold SendFrame. rewrite (proj2 (Z.eqb_neq _ _)) by lia.
  by rewrite Ht, frame_bytes_floor.
Qed.

Lemma ChangeRate_eq bitrate (w : G) :
  let g := vg (vg_ChangeRate bitrate w) in
  vg_rate_ g = Z.max (minR_ (vg w)) bitrate /\ minR_ g = minR_ (vg w) /\ fs_ g = fs_ (vg w) /\
  has_target g = has_target (vg w) /\ vg_running_ g = vg_running_ (vg w).
Proof.
  unfold vg_ChangeRate, LogRate. cbn [vg_upd vg vg_base]. destruct (TimeMillis (vg_base w)). cbn.
  split; [|done]. destruct (Z.ltb_spec (minR_ (vg w)) bitrate); lia.
Qed.

(** The rates WebRTC asks for, one after the other. *)
Definition change_rates (rates : list Z) (w : G) : G := foldl (fun w r => vg_ChangeRate r w) w rates.

Lemma change_rates_eq rates : forall (w : G),
  let g := vg (change_rates rates w) in
  vg_rate_ g = match last rates with Some r => Z.max (minR_ (vg w)) r | None => vg_rate_ (vg w) end /\
  minR_ g = minR_ (vg w) /\ fs_ g = fs_ (vg w) /\ has_target g = has_target (vg w) /\
  vg_running_ g = vg_running_ (vg w).
Proof.
  unfold change_rates. induction rates as [|r rates IH] using rev_ind; intros w; [done|].
  rewrite foldl_snoc, last_snoc. destruct (IH w) as (_ & Hm & Hf & Ht & Hr).
  destruct (ChangeRate_eq r (foldl (fun w r => vg_ChangeRate r w) w rates)) as (E1 & E2 & E3 & E4 & E5).
  rewrite E1, E2, E3, E4, E5. by rewrite Hm.
Qed.

Context `{SK : Sockets W} `{RTC : Webrtc W}.

(** C34: The generator and the sender together.  Starting a sender with a
    registered generator of [fs] frames a second sends one frame at once, of the
    initial 500,000 bit/s for one frame time; and after any rates WebRTC asks
    for each frame [Generate] hands over has the last one's bits, but never
    fewer than the initial rate's.  The quotient of two floats is the integer
    one: rates below 2^24 lose nothing. *)
Theorem generator_feeds_sender (s : Sender (W := G)) rates :
  let g := vg (ep_world (s_end s)) in
  has_encoder s = true -> has_target g = true -> 0 < fs_ g < 2 ^ 24 -> Forall (fun r => r < 2 ^ 24) rates ->
  exists s1, Start s = SendVideo 0 0 (heap_bytes (500000 / (8 * fs_ g))) (500000 / (8 * fs_ g)) s1 /\
    running_ s1 = true /\ vg_running_ (vg (ep_world (s_end s1))) = true /\
    let w := change_rates rates (ep_world (s_end s1)) in
    let rate := match last rates with Some r => Z.max 500000 r | None => 500000 end in
    (Generate w).1 = [frame_of rate (fs_ g)] /\
    vg_base (Generate w).2 = PostGenerate (1000 / fs_ g) (vg_base w).
Proof.
  intros g Henc Htgt Hfs Hrates.
  set (g1 := vg_set_running true (vg_set_rates 500000 500000 g)).
  assert (SendFrame g1 = [frame_of 500000 (fs_ g)]) as Ef by (apply (SendFrame_of g1); done).
  set (s0 := (s_upd_running true s).2).
  set (s1 := s_set_end (ep_upd_world (vg_do (PostGenerate (1000 / fs_ g))
    (mkVg (vg_base (ep_world (s_end s))) g1)) (s_end s)) s0).
  exists s1. split; [|split; [done|split; [done|]]].
  - unfold Start. rewrite (M_bind_ok (s_upd_running true) _ s tt s0) by done.
    rewrite (M_bind_ok mget _ _ s0 s0) by done. cbv beta. change (has_encoder s0) with (has_encoder s). rewrite Henc.
    set (s0' := s_set_end (ep_upd_world (vg_SetMinRate kInitialBitrateBps (ep_world (s_end s))) (s_end s)) s0).
    rewrite (M_bind_ok (s_do _) _ s0 tt s0') by done. rewrite (M_bind_ok mget _ _ s0' s0') by done. cbv beta.
    assert (src_Start (ep_world (s_end s0')) = ([frame_of 500000 (fs_ g)], ep_world (s_end s1))) as ->.
    { change (src_Start ?w) with (Generate (vg_upd (vg_set_running true) w)). unfold Generate.
      change (vg (vg_upd _ (ep_world (s_end s0')))) with g1. change (vg_running_ g1) with true. cbv iota zeta.
      by rewrite Ef. }
    rewrite (M_bind_ok (s_do _) _ s0' tt s1) by done. cbn [send_frames frame_of vf_payload_type vf_ftype vf_data vf_len].
    unfold mbind, M_bind. by destruct (SendVideo _ _ _ _ s1) as [[[]| |] ?].
  - cbv zeta. destruct (change_rates_eq rates (ep_world (s_end s1))) as (E1 & _ & E3 & E4 & E5).
    change (minR_ (vg (ep_world (s_end s1)))) with 500000 in E1.
    change (vg_rate_ (vg (ep_world (s_end s1)))) with 500000 in E1.
    change (fs_ (vg (ep_world (s_end s1)))) with (fs_ g) in E3.
    change (has_target (vg (ep_world (s_end s1)))) with (has_target g) in E4. rewrite Htgt in E4.
    change (vg_running_ (vg (ep_world (s_end s1)))) with true in E5.
    set (w := change_rates rates (ep_world (s_end s1))) in *.
    unfold Generate. rewrite E5. cbv zeta. cbn [fst snd vg_do vg_base]. rewrite E3. split; [|done].
    rewrite SendFrame_of, E1, E3; [done|done| |by rewrite E3].
    rewrite E1. change (2 ^ 24) with 16777216 in *. destruct (last rates) as [r|] eqn:El; [|lia].
    apply last_Some in El as [pre ->]. apply Forall_app in Hrates as [_ Hr]. apply Forall_inv in Hr. lia.
Qed.

End Feeding.
