(* ===== verification/MininetDemo.v ===== *)
(** * The emulation's end points on a concrete world

    The clock stands at a given time, what is sent is collected, and WebRTC
    keeps a list of what it was told. *)

From S2P Require Import Prelude Stream Crc32 SimProto StdMap Platform AppHeader Mininet MininetMsgs MininetProps MininetVideo VideoGen.
Open Scope Z_scope.

Inductive rtc_event :=
  | Inserted (seq now size : Z) | Added (seq size : Z) | SentPacket (seq now : Z)
  | Rtt (average max : Z) | Feedback (bytes : list Z) | Received (now size seq : Z) | Started.

Record mini_world := mkMini { now_ms : Z; out : list (list Z); told : list rtc_event }.

Definition tell (e : rtc_event) (w : mini_world) : mini_world := mkMini (now_ms w) (out w) (told w ++ [e]).

#[export] Instance mini_millis : Millis mini_world := fun w => (now_ms w, w).

#[export] Instance mini_sockets : Sockets mini_world := {|
  sys_recvfrom _ _ w := (-1, None, w);
  sys_sendto _ buf _ w := (zlen buf, mkMini (now_ms w) (out w ++ [buf]) (told w));
  sys_select _ _ w := (0, false, w)
|}.

(** A feedback packet is its bytes; one of an odd length does not parse. *)
#[export] Instance mini_webrtc : Webrtc mini_world := {|
  PacedPacketInfo := unit;
  TransportFeedback := list Z;
  ParseFrom bs := if Nat.even (length bs) then Some bs else None;
  Build ssrc fb := u8 ssrc :: (u8 <$> fb);
  new_controller _ _ _ w := w;
  InsertPacket _ seq now size := tell (Inserted seq now size);
  AddPacket _ seq size _ := tell (Added seq size);
  OnSentPacket seq now := tell (SentPacket seq now);
  ctl_OnRttUpdate average max := tell (Rtt average max);
  OnTransportFeedback fb := tell (Feedback fb);
  new_receive_side_cc := tell Started;
  stop_receive_side_cc w := w;
  OnReceivedPacket now size _ seq := tell (Received now size seq);
  cc_OnRttUpdate average max := tell (Rtt average max)
|}.

Definition zeros (n : nat) : list Z := replicate n 0.

#[export] Instance mini_stack : Stack := {|
  stack_stream := fresh_stream;
  stack_ping := {| ts := 0 |};
  stack_segment := {| packet_id := 0; fid := 0; timestamp := 0; index := 0; total := 0; ftype := 0;
    payload_type := 0; remb := 0; send_ts := 0; transport_seq := 0; data_size := 0; seg_data := zeros 1000 |};
  stack_feedback := {| fb_base_packet_id := 0; feedback_size := 0; feedback := zeros 1000 |};
  stack_pad := zeros 500
|}.

#[export] Instance mini_stack_ok : StackOk mini_stack.
Proof. split; [reflexivity|..]; (split; [reflexivity|apply zeros_ok]). Defined.

Definition there : su_addr := mkAddr AF_INET (htons 4321) 7.
Definition demo_sender : Sender (W := mini_world) := new_sender (P := le_platform) (mkMini 5000 [] []) 3 there.
Definition demo_receiver : Receiver (W := mini_world) := new_receiver (P := le_platform) (mkMini 5040 [] []) 4 there.

Lemma demo_sender_ready : readable (ep_stream (s_end demo_sender)).
Proof. apply fresh_stream_wf. Qed.

(** A stream with a datagram in it. *)
Definition stream_of (d : list Z) : bin_stream_t :=
  mkStream (d ++ zeros (1024 - length d)) 1024 0 0 0 (zlen d) 0.

Lemma stream_of_holds d : zlen d <= 1024 -> bytes_ok d -> holds (stream_of d) d.
Proof.
  intros Hl Hb. pose proof (zlen_nonneg d). split; [|split; [done|apply ztake_app]].
  split; cbn [stream_of data size rptr rsize used]; try lia.
  - rewrite zlen_app. unfold zeros, zlen in *. rewrite length_replicate. lia.
  - apply Forall_app. split; [done|apply zeros_ok].
Qed.

Lemma ping_measures_witness :
  (exists s1, Sender_SendPing (P := le_platform) 0 5000 demo_sender = (Ok tt, s1) /\ update_ping_ts_ s1 = 5000) /\
  Sender_ProcessingMsg (P := le_platform) 0 (stream_of (pong (P := le_platform) 0 receiver_uid 4970)) demo_sender =
    Sender_UpdateRtt 30 demo_sender.
Proof.
  split.
  - destruct (ping_measures (P := le_platform) 0 demo_sender demo_receiver 5000 demo_sender_ready) as ((s1 & E & H & _) & _ & _).
    + split; vm_compute; congruence.
    + by exists s1.
  - destruct (ping_measures (P := le_platform) 0 demo_sender demo_receiver 4970 demo_sender_ready) as (_ & _ & H).
    + split; vm_compute; congruence.
    + rewrite H; [reflexivity|]. apply stream_of_holds; [vm_compute; congruence|].
      apply datagram_bytes; [split; [discriminate|reflexivity]..| |reflexivity].
      apply ping_ok. split; vm_compute; congruence.
Defined.

(** A full segment, number 9, waiting to be sent. *)
Definition full_segment : sim_segment_t :=
  segment 0 0 0 1 1 9 1 0 1000 (replicate 1000 77).

Definition sender_with (seg : sim_segment_t) : Sender (W := mini_world) :=
  (s_upd_pending [(transport_seq seg, seg)] demo_sender).2.

Definition full_datagram : list Z :=
  datagram (P := le_platform) 0 sender_uid SIM_SEG (BSegment (stamp_segment (-1) 5000 full_segment)).

Lemma segment_transport_witness :
  (exists s1, TimeToSendPacket (RTC := mini_webrtc) (P := le_platform) 0 9 tt (sender_with full_segment) = (Ok true, s1) /\
     pending_buf_ s1 = []) /\
  zlen full_datagram = 1028 /\
  Receiver_ProcessingMsg (P := le_platform) 0 (stream_of (ztake 1024 full_datagram)) demo_receiver = (Ok tt, demo_receiver).
Proof.
  assert (body_ok (BSegment full_segment)) as Hb.
  { split; [reflexivity|]. cbn -[replicate]. split_and!; try (vm_compute; repeat split; congruence).
    apply Forall_replicate. split; [discriminate|reflexivity]. }
  destruct (segment_transport (RTC := mini_webrtc) (P := le_platform) 0 (sender_with full_segment) demo_receiver 9 tt full_segment)
    as (s1 & E & Hp & _ & _ & _ & Hlost); [apply fresh_stream_wf|reflexivity|exact Hb|].
  split; [exists s1; split; [exact E|exact Hp]|]. split; [vm_compute; reflexivity|].
  apply Hlost.
  - vm_compute. reflexivity.
  - apply stream_of_holds; [vm_compute; congruence|]. apply Forall_take.
    apply datagram_bytes; [split; [discriminate|reflexivity]..|by apply stamp_ok|reflexivity].
  - vm_compute. congruence.
Defined.

Lemma feedback_delivered_witness :
  exists r1 d, SendTransportFeedback (RTC := mini_webrtc) (P := le_platform) 0 [1; 2; 3] demo_receiver = (Ok true, r1) /\
    out (ep_world (r_end r1)) = [d] /\
    (forall q, holds q d -> exists s', Sender_ProcessingMsg (P := le_platform) 0 q demo_sender = (Ok tt, s') /\
       told (ep_world (s_end s')) = [Feedback [225; 1; 2; 3]]).
Proof.
  destruct (feedback_delivered (RTC := mini_webrtc) (P := le_platform) 0 demo_receiver demo_sender [1; 2; 3]) as (r1 & d & E & Hw & _ & Hq).
  - apply fresh_stream_wf.
  - intros ssrc fb. constructor; [by apply wrap_range|]. apply Forall_fmap, Forall_true. intros b. by apply wrap_range.
  - reflexivity.
  - exists r1, d. split; [exact E|]. split; [rewrite Hw; reflexivity|]. intros q Hh. rewrite (Hq q Hh).
    eexists. split; reflexivity.
Defined.

Lemma padding_accounting_witness :
  exists s', TimeToSendPadding (RTC := mini_webrtc) (P := le_platform) 0 4 2000 tt demo_sender = (Ok 2000, s') /\
    told (ep_world (s_end s')) = [Added 1 1016; SentPacket 1 5000; Added 2 1016; SentPacket 2 5000] /\
    zlen (pad_datagram (P := le_platform) 0 1 500 5000) = 518.
Proof.
  destruct (padding_accounting (RTC := mini_webrtc) (P := le_platform) 0 demo_sender 2000 tt 4) as (s' & E & Hw & Hlen & _).
  - apply demo_sender_ready.
  - split; vm_compute; congruence.
  - split; vm_compute; congruence.
  - vm_compute. lia.
  - exists s'. split; [exact E|]. split; [rewrite Hw; vm_compute; reflexivity|].
    apply (proj2 (Forall_inv Hlen)). split; [discriminate|reflexivity].
Defined.

(** After a trip of 10 ms one of 100 ms: the sender reports an average of 55 and
    a maximum of 10. *)
Lemma rtt_statistics_witness :
  (Sender_rtt_step 100 (rtt_run [10])).1 = (55, 10) /\ (Receiver_rtt_step 100 (recv_rtt_run [10])).1 = (55, 100).
Proof.
  destruct (rtt_statistics [10] 100) as (_ & _ & _ & _ & _ & _ & _ & E1 & E2 & _).
  - discriminate.
  - constructor; [split; [discriminate|reflexivity]|constructor].
  - split; [discriminate|reflexivity].
  - reflexivity.
  - split; [exact E1|exact E2].
Defined.

Definition running_sender : Sender (W := mini_world) := (s_upd_running true demo_sender).2.

Lemma video_queued_witness :
  exists s1, SendVideo 0 0 (replicate 2500 9) 2500 running_sender = (Ok tt, s1) /\
    length (pending_buf_ s1) = 3%nat /\
    told (ep_world (s_end s1)) = [Inserted 1 5000 1030; Inserted 2 5000 1030; Inserted 3 5000 530].
Proof.
  destruct (video_queued 0 0 (replicate 2500 9) 2500 running_sender) as (stamp & splits & videos & s1 & E & Hl & Hp & _ & _ & Hw & _).
  - reflexivity.
  - split; vm_compute; congruence.
  - vm_compute. congruence.
  - apply Forall_replicate. split; [discriminate|reflexivity].
  - split; [discriminate|reflexivity].
  - split; [discriminate|reflexivity].
  - split; [discriminate|reflexivity].
  - discriminate.
  - vm_compute. congruence.
  - by intros ? ? ?%not_elem_of_nil.
  - assert (s1 = (SendVideo 0 0 (replicate 2500 9) 2500 running_sender).2) as E1 by (by rewrite E).
    exists s1. split; [exact E|]. split.
    + rewrite Hp. unfold numbered. cbn [pending_buf_ app]. rewrite length_app, length_fmap, Hl. reflexivity.
    + rewrite E1. vm_compute. reflexivity.
Defined.

(** ** The generator *)

(** The queue's tasks are seen as segments inserted by nobody. *)
#[export] Instance mini_tasks : TaskQueue mini_world := {|
  PostGenerate ms := tell (Inserted 0 ms 0);
  PostWrite abs bps := tell (Inserted 0 abs bps)
|}.

#[export] Instance mini_heap : Heap := fun n => replicate (Z.to_nat n) 0.

(** A sender with a generator of 25 frames a second. *)
Definition generator_sender : Sender (W := vg_world mini_world) :=
  (SetEncoder (new_sender (P := le_platform) (mkVg (mkMini 5000 [] []) (new_video_generator 25 77)) 3 there)).2.

Lemma generator_feeds_sender_witness :
  exists s1, Start generator_sender = SendVideo 0 0 (heap_bytes 2500) 2500 s1 /\
    (Generate (change_rates [300000; 900000] (ep_world (s_end s1)))).1 = [mkFrame 0 0 (heap_bytes 4500) 4500].
Proof.
  destruct (generator_feeds_sender generator_sender [300000; 900000]) as (s1 & E & _ & _ & F & _);
    [reflexivity|reflexivity|split; reflexivity|repeat constructor|].
  exists s1. split; [exact E|exact F].
Defined.
