(* ===== verification/Programs.v ===== *)
(** * The main programs of [quic-test/test_fun]

    Each declares its options, parses the command line, binds a socket, sets up
    one of the senders or receivers and calls its [Process] until it returns
    [false] or a signal has come.  The world is behind the interfaces of the
    earlier files and [Signals], the variable the handler clears.  The loops
    take fuel and end in [Stuck] without it.  An object's world is the
    program's while it runs ([run_object]).

    [t_bbr_sender.cc] calls [SetRecordPrefix] and [EnableLossRecord], which
    [MyBbrSenderApp] does not declare; it does not compile and is not modelled.
    [t_recv_packet_manager.cc] prints what the framer makes of one ack frame. *)

From Stdlib Require Import Ascii.
From Stdlib Require String.
From S2P Require Import Prelude QuicTime Clock StdMap Bbr Platform Posix FramerTypes FramerWire AppHeader BbrApps QuicReceiver QuicSender QuicVideo Cmdline.
Open Scope Z_scope.

(** ** Exceptions in sequence *)

Definition try {A B} (m : string + A) (f : A -> string + B) : string + B :=
  match m with inl e => inl e | inr a => f a end.

Notation "x <~ m ; f" := (try m (fun x => f)) (at level 100, m at next level, f at level 200, right associativity) : net_scope.

(** How [main] ends: a status, or an exception nobody catches. *)
Inductive ended :=
  | exited (status : Z)
  | threw (msg : string).

(** ** The command lines *)

(** The characters of a string, and the memory [c_str()] points to. *)
Definition chars (s : string) : list Z := Z.of_nat ∘ Ascii.nat_of_ascii <$> String.list_ascii_of_string s.

Definition c_memory (s : string) (beyond : list Z) : list Z := chars s ++ 0 :: beyond.

Record SenderArgs := mkSenderArgs {
  client_ip : string; serv_ip : string; c_port : Z; s_port : Z; test_case : string;
  arg_duration : Z; arg_offset : Z }.

(** The options of the senders; [t_video_sender] has no [offset]. *)
Definition sender_options (duration : Z) (has_offset : bool) : string + parser :=
  p <~ @add_value TString "client" (ch 104) "host name" false "10.0.0.1" new_parser;
  p <~ @add_value TInt "cp" (ch 99) "client port" false 1234 p;
  p <~ @add_value TString "server" (ch 115) "host name" false "10.0.4.2" p;
  p <~ @add_value TInt "sp" (ch 112) "server port" false 4321 p;
  p <~ @add_value TString "log" (ch 108) "log" false "1" p;
  p <~ @add_value TInt "duration" (ch 100) "duration" false duration p;
  if has_offset then @add_value TInt "offset" (ch 111) "time offset, MilliSeconds" false 0 p else inr p.

(** The values [main] takes out of the parser, or the exit of [parse_check]. *)
Definition sender_args (duration : Z) (has_offset : bool) (argv : list string) : string + (Z + SenderArgs) :=
  p <~ sender_options duration has_offset;
  r <~ parse_check argv p;
  match r with
  | (exits status _, _) => inr (inl status)
  | (returns, p) =>
      client_ip <~ get TString "client" p;
      serv_ip <~ get TString "server" p;
      c_port <~ get TInt "cp" p;
      s_port <~ get TInt "sp" p;
      test_case <~ get TString "log" p;
      duration <~ get TInt "duration" p;
      offset <~ (if has_offset then get TInt "offset" p else inr 0);
      inr (inr (mkSenderArgs client_ip serv_ip (u16 c_port) (u16 s_port) test_case duration offset))
  end.

Record ReceiverArgs := mkReceiverArgs {
  host_ip : string; host_port : Z; ra_duration : Z; ra_offset : Z; ra_test_case : string }.

Definition receiver_options (duration : Z) : string + parser :=
  p <~ @add_value TString "host" (ch 104) "host name" false "10.0.4.2" new_parser;
  p <~ @add_reader TInt "port" (ch 112) "port number" false 4321 (@range TInt 1 65535) p;
  p <~ @add_value TInt "duration" (ch 100) "duration" false duration p;
  p <~ @add_value TInt "offset" (ch 111) "time offset, MilliSeconds" false 0 p;
  @add_value TString "log" (ch 108) "log" false "1" p.

Definition receiver_args (duration : Z) (argv : list string) : string + (Z + ReceiverArgs) :=
  p <~ receiver_options duration;
  r <~ parse_check argv p;
  match r with
  | (exits status _, _) => inr (inl status)
  | (returns, p) =>
      serv_ip <~ get TString "host" p;
      serv_port <~ get TInt "port" p;
      duration <~ get TInt "duration" p;
      offset <~ get TInt "offset" p;
      test_case <~ get TString "log" p;
      inr (inr (mkReceiverArgs serv_ip (u16 serv_port) duration offset test_case))
  end.

(** [t_command]: what it prints. *)
Definition t_command_options : string + parser :=
  p <~ @add_value TString "client" (ch 104) "host name" false "127.0.0.1" new_parser;
  p <~ @add_value TInt "cp" (ch 99) "client port" false 1234 p;
  p <~ @add_value TString "server" (ch 115) "host name" false "127.0.0.1" p;
  p <~ @add_value TInt "sp" (ch 112) "server port" false 4321 p;
  @add_value TString "log" (ch 108) "log" false "1" p.

Definition t_command (argv : list string) : string + (Z + string) :=
  p <~ t_command_options;
  r <~ parse_check argv p;
  match r with
  | (exits status _, _) => inr (inl status)
  | (returns, p) =>
      client_ip <~ get TString "client" p;
      serv_ip <~ get TString "server" p;
      c_port <~ get TInt "cp" p;
      s_port <~ get TInt "sp" p;
      inr (inr (client_ip +:+ ":" +:+ to_string (u16 c_port) +:+ " " +:+ serv_ip +:+ ":" +:+ to_string (u16 s_port) +:+ endl))
  end.

(** ** Running an object *)

(** [run_status], zero once the handler has run. *)
Class Signals (W : Type) := run_status : W -> Z * W.

Section Running.
Context {W : Type} `{SG : Signals W} `{KN : Kernel W} `{IN : Inet}.

(** The object [s] is built in the world and holds it. *)
Definition run_object {S A} (s : W -> S) (world : S -> W) (m : M S A) : M W A := fun w =>
  let '(r, s) := m (s w) in (r, world s).

Definition object_run_status {S} (world : S -> W) (upd_world : W -> S -> S) : M S Z := fun s =>
  let '(r, w) := run_status (world s) in (Ok r, upd_world w s).

(** [while(sender.Process()&&run_status){}] *)
Fixpoint while_process {S} (Process : M S bool) (run_status : M S Z) (fuel : nat) : M S unit :=
  match fuel with
  | O => mstuck
  | S fuel =>
      go ← Process;
      if go : bool then
        status ← run_status;
        if status =? 0 then mret tt else while_process Process run_status fuel
      else mret tt
  end.

(** [main] once the options are parsed. *)
Definition with_args {A} (args : string + (Z + A)) (body : A -> M W unit) : M W ended :=
  match args with
  | inl e => mret (threw e)
  | inr (inl status) => mret (exited status)
  | inr (inr args) => body args;; mret (exited 0)
  end.

(** [UdpSocket socket; socket.Bind(ip, port); ...]: the destructor closes it.  A
    descriptor [Bind] did not set has no value to use. *)
Definition with_socket (ip : string) (port : Z) (body : Z -> M W unit) : M W unit :=
  fd ← UdpSocket_Bind (Some (c_string (chars ip))) port None;
  match fd with
  | None => mstuck
  | Some fd => body fd;; UdpSocket_destroy (Some fd)
  end.

(** [serv_ip+":"+std::to_string(s_port)] parsed by [su_string_to_addr]. *)
Definition peer_address (serv_ip : string) (s_port : Z) (beyond : list Z) : option su_addr :=
  net_su_string_to_addr (c_memory (serv_ip +:+ ":" +:+ to_string s_port) beyond).

Definition with_peer (a : SenderArgs) (beyond : list Z) (body : Z -> su_addr -> M W unit) : M W unit :=
  with_socket (client_ip a) (c_port a) (fun fd =>
    match peer_address (serv_ip a) (s_port a) beyond with
    | None => mstuck
    | Some peer => body fd peer
    end).

End Running.

(** ** The programs over the congestion controller *)

Section BbrPrograms.
Context `{T : QuicTypes} `{L : BbrLib} `{K : !BandwidthKbps} `{R : ReaderOps} `{WO : WriterOps}.
Context {W : Type} `{TD : TimeOfDay W} `{SK : Sockets W} `{F : Files W}
  `{SG : Signals W} `{KN : Kernel W} `{IN : Inet}.
Context (beyond_buffer beyond_string : list Z) (random : QuicRandom).

Definition video_app_world (s : @MyBbrVideoSenderApp L W) : W := app_world (va_app s).
Definition video_app_upd_world (w : W) (s : @MyBbrVideoSenderApp L W) : @MyBbrVideoSenderApp L W :=
  mkVideoApp (app_upd_world w (va_app s)) (source_ s) (pending_queue_ s).

(** [t_bbr_video_sender.cc] *)
Definition bbr_video_sender_main (fuel : nat) (argv : list string) : M W ended :=
  with_args (sender_args 200000 true argv) (fun a =>
    with_peer a beyond_string (fun fd peer =>
      match new_generator 30 500000 with
      | None => mstuck
      | Some source =>
          run_object (fun w => new_video_app w peer 500000 1000000 2000000 random source)
            video_app_world
            (Video_set_duration (u32 (arg_duration a));;
             on_app (SetTimeOffset (arg_offset a));;
             Video_EnableRateRecord (test_case a +:+ "-my-bbr-video");;
             while_process (Video_Process (SK := UdpSocket fd) beyond_buffer)
               (object_run_status video_app_world video_app_upd_world) fuel)
      end)).

(** [t_bbr_receiver.cc]; [peer] is what the receiver's peer is before it has
    one. *)
Definition bbr_receiver_main (peer : su_addr) (fuel : nat) (argv : list string) : M W ended :=
  with_args (receiver_args 210000 argv) (fun a =>
    with_socket (host_ip a) (host_port a) (fun fd =>
      run_object (fun w => new_receiver w peer) rx_world
        (Receiver_set_duration (u32 (ra_duration a));;
         Receiver_SetTimeOffset (ra_offset a);;
         SetRecordPrefix (ra_test_case a +:+ "-my-recv-bbr");;
         Receiver_EnableRateRecord;;
         while_process (Receiver_Process (SK := UdpSocket fd)) (object_run_status rx_world rx_upd_world) fuel))).

End BbrPrograms.

(** ** The QUIC programs *)

Section QuicPrograms.
Context `{T : QuicTypes} `{Q : PacketQueueOps} `{A : !AckOps} `{C : CryptoOps} `{F : QuicFunctions}
  `{R : ReaderOps} `{WO : WriterOps} `{P : !ProducerOps} `{AV : AppVersion} `{SP : !SentPackets} `{RM : !ReceivedPackets}.
Context {W : Type} `{TD : TimeOfDay W} `{SK : Sockets W} `{FS : Files W}
  `{SG : Signals W} `{KN : Kernel W} `{IN : Inet}.
Context (beyond_string : list Z).

(** [t_sender.cc]; [retrans_fuel] is for the loop inside [Process]. *)
Definition quic_sender_main (retrans_fuel fuel : nat) (argv : list string) : M W ended :=
  with_args (sender_args 100000 true argv) (fun a =>
    with_peer a beyond_string (fun fd peer =>
      run_object (fun w => new_quic_sender w peer IS_CLIENT) qs_world
        (Quic_set_duration (u32 (arg_duration a));;
         Quic_SetTimeOffset (arg_offset a);;
         Quic_EnableRateRecord (test_case a +:+ "-quic-bbr");;
         while_process (Quic_Process (SK := UdpSocket fd) retrans_fuel) (object_run_status qs_world qs_upd_world) fuel))).

Definition vs_world (s : MyQuicVideoSender) : W := qs_world (vs_sender s).
Definition vs_upd_world (w : W) (s : MyQuicVideoSender) : MyQuicVideoSender :=
  mkVideoSender (qs_upd_world w (vs_sender s)) (vs_source s) (vs_pending_queue s) (sent_queue_ s)
    (next_rate_update_ s) (rate_updata_gap_ s).

(** [t_video_sender.cc] *)
Definition quic_video_sender_main (retrans_fuel fuel : nat) (argv : list string) : M W ended :=
  with_args (sender_args 100000 false argv) (fun a =>
    with_peer a beyond_string (fun fd peer =>
      match new_generator 30 500000 with
      | None => mstuck
      | Some source =>
          run_object (fun w => new_video_sender w peer IS_CLIENT source) vs_world
            (QuicVideo_set_duration (u32 (arg_duration a));;
             QuicVideo_EnableRateRecord (test_case a +:+ "-quic-video-bbr");;
             while_process (QuicVideo_Process (SK := UdpSocket fd) retrans_fuel)
               (object_run_status vs_world vs_upd_world) fuel)
      end)).

Definition qr_object_world (s : MyQuicReceiver) : W := qr_world (net s).
Definition qr_upd_world (w : W) (s : MyQuicReceiver) : MyQuicReceiver :=
  mkQuicReceiver (set_world w (net s)) (recv_packet_manager_ s) (acking s) (qr_seq s) (qr_base_seq s) (log s).

(** [t_receiver.cc] *)
Definition quic_receiver_main (peer : su_addr) (fuel : nat) (argv : list string) : M W ended :=
  with_args (receiver_args 110000 argv) (fun a =>
    with_socket (host_ip a) (host_port a) (fun fd =>
      run_object (fun w => new_quic_receiver w peer) qr_object_world
        (Quic_receiver_set_duration (u32 (ra_duration a));;
         Quic_receiver_SetTimeOffset (ra_offset a);;
         Quic_SetRecordPrefix (ra_test_case a +:+ "-recv-bbr");;
         Quic_receiver_EnableRateRecord;;
         Quic_EnableLossRecord;;
         EnableOwdRecord;;
         while_process (Quic_receiver_Process (SK := UdpSocket fd))
           (object_run_status qr_object_world qr_upd_world) fuel;;
         Quic_receiver_destroy))).

End QuicPrograms.
