(* ===== verification/ProgramsProps.v ===== *)
(** * What the command line makes of a program, and when it ends

    The options given on the command line arrive in the program; the text of
    the peer's address becomes the peer's address; ports are in range, or
    reduced to 16 bits.  The video sender over the congestion controller ends
    when its time is up, with status zero, whatever it receives. *)

From Stdlib Require Import Ascii.
From Stdlib Require String.
From stdpp Require Import gmap.
From S2P Require Import Prelude QuicTime Clock StdMap Bbr BbrInv Platform Posix FramerTypes FramerWire AppHeader BbrApps BbrAppProps Cmdline CmdlineProps Programs.
Open Scope Z_scope.

(** ** Decimal text *)

Lemma chars_app a b : chars (a +:+ b) = chars a ++ chars b.
Proof. induction a as [|c a IH]; [done|]. rewrite app_String. cbn. by f_equal. Qed.

Definition digit_char (d : Z) : ascii := Ascii.ascii_of_nat (Z.to_nat (48 + d)).

Lemma chars_digit d s : 0 <= d < 10 -> chars (String (digit_char d) s) = 48 + d :: chars s.
Proof. intros Hd. cbn. f_equal. unfold digit_char. rewrite Ascii.nat_ascii_embedding by lia. lia. Qed.

Lemma digit_val_char d : 0 <= d < 10 -> digit_val (digit_char d) = Some d.
Proof.
  intros Hd. unfold digit_val, digit_char. rewrite Ascii.nat_ascii_embedding by lia.
  rewrite (proj2 (Nat.leb_le _ _)), (proj2 (Nat.leb_le _ _)) by lia. cbn. f_equal. lia.
Qed.

Lemma digit_is_char n d : 0 <= d < 10 -> (n < 48)%nat -> is_char n (digit_char d) = false.
Proof. intros Hd Hn. unfold is_char, digit_char. rewrite Ascii.nat_ascii_embedding by lia. apply Nat.eqb_neq. lia. Qed.

Lemma digit_is_space d : 0 <= d < 10 -> is_space (digit_char d) = false.
Proof.
  intros Hd. unfold is_space, digit_char. rewrite Ascii.nat_ascii_embedding by lia.
  rewrite (proj2 (Nat.eqb_neq _ _)), (proj2 (Nat.leb_gt _ 13)) by lia. apply andb_false_r.
Qed.

(** The digits printed, as a list of values. *)
Fixpoint digit_list (n : nat) (v : Z) (rest : list Z) : list Z :=
  match n with
  | O => v mod 10 :: rest
  | S n => if v / 10 =? 0 then v mod 10 :: rest else digit_list n (v / 10) (v mod 10 :: rest)
  end.

Definition spell (ds : list Z) (s : string) : string := foldr (fun d s => String (digit_char d) s) s ds.

Lemma digits_spell n : forall v ds s, digits n v (spell ds s) = spell (digit_list n v ds) s.
Proof. induction n as [|n IH]; intros v ds s; cbn; [done|]. destruct (_ =? 0); [done|]. apply (IH _ (v mod 10 :: ds)). Qed.

Definition number (acc : Z) (ds : list Z) : Z := foldl (fun a d => a * 10 + d) acc ds.

Lemma digit_list_ok n : forall v rest, 0 <= v < 10 ^ (Z.of_nat n + 1) -> Forall (fun d => 0 <= d < 10) rest ->
  Forall (fun d => 0 <= d < 10) (digit_list n v rest) /\ digit_list n v rest <> [] /\
  number 0 (digit_list n v rest) = number v rest.
Proof.
  induction n as [|n IH]; intros v rest Hv Hr; cbn [digit_list];
    pose proof (Z.mod_pos_bound v 10 ltac:(lia)) as Hm; pose proof (Z.div_mod v 10 ltac:(lia)) as Hd.
  - change (10 ^ (Z.of_nat 0 + 1)) with 10 in Hv. split; [by constructor|]. split; [done|].
    cbn. by rewrite Z.mod_small by lia.
  - destruct (Z.eqb_spec (v / 10) 0) as [E|E].
    + split; [by constructor|]. split; [done|]. cbn. f_equal. lia.
    + destruct (IH (v / 10) (v mod 10 :: rest)) as (H1 & H2 & H3); [|by constructor|].
      * split; [by apply Z.div_pos; lia|]. apply Z.div_lt_upper_bound; [lia|].
        rewrite <- Z.pow_succ_r by lia. replace (Z.succ (Z.of_nat n + 1)) with (Z.of_nat (S n) + 1) by lia. lia.
      * split; [done|]. split; [done|]. rewrite H3. cbn. f_equal. lia.
Qed.

(** [std::to_string] of a number that is not negative. *)
Lemma to_string_digits v : 0 <= v < 2 ^ 31 ->
  exists ds, to_string v = spell ds "" /\ ds <> [] /\ Forall (fun d => 0 <= d < 10) ds /\ number 0 ds = v.
Proof.
  intros Hv. unfold to_string. rewrite (proj2 (Z.ltb_ge _ _)) by lia. exists (digit_list 9 v []).
  pose proof (digit_list_ok 9 v []) as (H1 & H2 & H3); [|constructor|].
  - change (10 ^ (Z.of_nat 9 + 1)) with 10000000000. change (2 ^ 31) with 2147483648 in Hv. lia.
  - split; [by apply (digits_spell 9 v [] "")|]. done.
Qed.

Lemma take_spelled ds : forall acc some, Forall (fun d => 0 <= d < 10) ds ->
  take_digits acc some (spell ds "") = (number acc ds, some || negb (bool_decide (ds = [])), "").
Proof.
  induction ds as [|d ds IH]; intros acc some Hds; cbn.
  - by rewrite orb_false_r.
  - apply Forall_cons in Hds as [Hd Hds]. change (foldr _ "" ds) with (spell ds "").
    rewrite digit_val_char, IH by done. by rewrite orb_true_r.
Qed.

(** What [std::to_string] prints of a value that is not negative, the parser of
    options reads as that value. *)
Lemma cast_to_string v : 0 <= v < 2 ^ 31 -> lexical_cast TInt (to_string v) = Some v.
Proof.
  intros Hv. destruct (to_string_digits v Hv) as (ds & -> & Hn & Hds & E). destruct ds as [|d ds]; [done|].
  pose proof (Forall_inv Hds) as Hd. cbn in Hd.
  assert (skip_spaces (spell (d :: ds) "") = spell (d :: ds) "") as Es by (cbn; by rewrite digit_is_space).
  pose proof (digit_is_char 45 d Hd ltac:(lia)) as E1. pose proof (digit_is_char 43 d Hd ltac:(lia)) as E2.
  unfold lexical_cast, extract_int. cbn zeta. rewrite Es. unfold spell at 1. cbn [foldr]. rewrite E1, E2.
  change (String (digit_char d) (foldr _ "" ds)) with (spell (d :: ds) "").
  rewrite take_spelled by done. cbn [orb negb bool_decide]. rewrite E.
  change (2 ^ 31) with 2147483648 in *. change (bool_decide (d :: ds = [])) with false. cbn [negb andb].
  rewrite (proj2 (Z.leb_le _ _)), (proj2 (Z.ltb_lt _ _)) by lia. done.
Qed.

Lemma chars_spell ds : Forall (fun d => 0 <= d < 10) ds ->
  Forall digit (chars (spell ds "")) /\ (chars (spell ds "") = [] -> ds = []) /\
  decimal (chars (spell ds "")) = number 0 ds.
Proof.
  intros Hds. assert (chars (spell ds "") = (fun d => 48 + d) <$> ds) as ->.
  { induction Hds as [|d ds Hd _ IH]; [done|]. cbn [spell foldr]. rewrite chars_digit by done. cbn. by f_equal. }
  split; [|split].
  - apply Forall_fmap. eapply Forall_impl; [exact Hds|]. intros d Hd. unfold compose, digit. cbv beta in Hd |- *. lia.
  - by destruct ds.
  - unfold decimal, number. clear Hds. generalize 0 as acc. induction ds as [|d ds IH]; intros acc; [done|].
    cbn [fmap list_fmap foldl]. rewrite IH. by replace (48 + d - 48) with d by lia.
Qed.

(** ** The senders' command line *)

(** The parser of a sender before it parses. *)
Definition sender_parser (duration : Z) (has_offset : bool) : parser :=
  match sender_options duration has_offset with
  | inr p => match add_help p with inr p => p | inl _ => new_parser end
  | inl _ => new_parser
  end.

Definition declared {T} (q : parser) (n : string) (def : val T) (read : reader T) : Prop :=
  exists sn desc, options q !! n = Some (option_with_value T n sn false desc false def def read).

(** The programs' durations and whether they have an offset. *)
Definition a_program (duration : Z) (has_offset : bool) : Prop :=
  (duration, has_offset) ∈ [(100000, true); (100000, false); (200000, true)].

(** Checked by evaluation: the parser is made, its short names are distinct,
    nothing is required, and help was not asked for. *)
Definition ready (m : string + parser) : bool :=
  match m with
  | inl _ => false
  | inr q =>
      bool_decide (all_given (options q)) &&
      match short_names (iterate (options q)) ∅ with inr _ => true | inl _ => false end &&
      match exist "help" q with inr false => true | _ => false end
  end.

Lemma ready_ok m : ready m = true -> exists q, m = inr q /\
  unambiguous (options q) /\ all_given (options q) /\ exist "help" q = inr false.
Proof.
  destruct m as [|q]; [done|]. cbn. intros [[Hg Hs]%andb_true_iff He]%andb_true_iff. exists q. split; [done|].
  split; [apply table_made; destruct (short_names _ _) as [|l]; [done|by exists l]|].
  split; [by apply bool_decide_eq_true in Hg|]. by destruct (exist _ _) as [|[]].
Qed.

Lemma sender_ready duration has_offset : a_program duration has_offset ->
  ready (p <~ sender_options duration has_offset; add_help p) = true.
Proof.
  unfold a_program. rewrite !elem_of_cons. intros [[= -> ->]|[[= -> ->]|[[= -> ->]|[]%not_elem_of_nil]]];
    vm_compute; reflexivity.
Qed.

Lemma add_table o p p' : add_option o p = inr p' -> options p' = <[name o := o]> (options p).
Proof. unfold add_option. destruct (options p !! name o); [done|]. by intros [= <-]. Qed.

Definition help_option : option_base := new_option_without_value "help" (ch 63) "print this message".

Lemma add_help_table p q : add_help p = inr q ->
  options q = options p \/ options q = <["help" := help_option]> (options p).
Proof.
  unfold add_help. destruct (options p !! "help"); [intros [= ->]; by left|]. intros E. right. by apply add_table in E.
Qed.

(** [E]: a sequence of [add]s and [add_help] succeeded; afterwards, what the
    table holds. *)
Ltac tables_of E :=
  unfold add_value, add_reader, add in E;
  repeat (match type of E with context [try (add_option ?o ?p) _] =>
    let E1 := fresh "E" in destruct (add_option o p) eqn:E1; [discriminate E|cbn [try] in E; apply add_table in E1] end);
  apply add_help_table in E; destruct E as [E|E];
  rewrite E; clear E;
  repeat match goal with E1 : options ?p = _ |- context [options ?p] => rewrite E1; clear E1 end;
  cbn [name new_option_with_value new_option_without_value help_option].

Ltac look := repeat first [apply lookup_insert_eq|rewrite lookup_insert_ne by discriminate].

Lemma sender_declared duration has_offset q : (p <~ sender_options duration has_offset; add_help p) = inr q ->
  @declared TString q "client" "10.0.0.1" default_reader /\ @declared TString q "server" "10.0.4.2" default_reader /\
  @declared TInt q "cp" 1234 default_reader /\ @declared TInt q "sp" 4321 default_reader /\
  @declared TString q "log" "1" default_reader /\ @declared TInt q "duration" duration default_reader /\
  (has_offset = true -> @declared TInt q "offset" 0 default_reader).
Proof.
  intros E. unfold declared. destruct has_offset; unfold sender_options in E; tables_of E;
    (split; [|split; [|split; [|split; [|split; [|split; [|intros Ho; try discriminate Ho]]]]]]); eexists _, _; look.
Qed.

Lemma accepted_check argc arg0 items q : Forall (item_ok (options q)) items -> exist "help" q = inr false ->
  mentions "help" (items ≫= settings) = false -> check argc true (accepted arg0 items q) = inr returns.
Proof.
  intros Hi Hh Hm. unfold check. rewrite andb_false_r. unfold exist in Hh.
  destruct (options q !! "help") as [o|] eqn:Ho; [|done]. injection Hh as Hh.
  by rewrite (accepted_exist _ _ _ _ o), Hh, Hm.
Qed.

(** [parse_check] of a line that gives settings only. *)
Lemma parse_check_items (m : string + parser) q arg0 items p : ready (p <~ m; add_help p) = true ->
  m = inr p -> add_help p = inr q -> Forall (item_ok (options q)) items -> mentions "help" (items ≫= settings) = false ->
  parse_check (arg0 :: (items ≫= render (options q))) p = inr (returns, accepted arg0 items q).
Proof.
  intros Hr -> Hq Hi Hm. apply ready_ok in Hr as (q' & Hq' & Hu & Hg & Hh). cbn in Hq'. rewrite Hq in Hq'. injection Hq' as <-.
  unfold parse_check. rewrite Hq, given_parse; [by rewrite accepted_check|done|done|].
  intros n o Ho. by rewrite (Hg _ _ Ho).
Qed.

Lemma declared_get {T} q n (def : val T) read arg0 items : declared q n def read -> Forall (item_ok (options q)) items ->
  get T n (accepted arg0 items q) = inr (last_value read n def (items ≫= settings)).
Proof. intros (sn & desc & Ho) Hi. by eapply accepted_get. Qed.

(** The address [ip:port] printed by [main] and parsed again. *)
Lemma peer_address_ok `{Inet} ip port beyond : ip <> "" -> Forall plain (chars ip) ->
  (String.length ip <= 31)%nat -> in_u 16 port ->
  peer_address ip port beyond = Some (mkAddr AF_INET (htons port) (inet_addr (chars ip))).
Proof.
  intros Hne Hp Hl Hport. destruct (to_string_digits port) as (ds & Es & Hn & Hds & Ev).
  { unfold in_u in Hport. change (2 ^ 31) with 2147483648. change (2 ^ 16) with 65536 in Hport. lia. }
  destruct (chars_spell ds Hds) as (Hd & Hnil & Hdec). rewrite <- Es in Hd, Hnil, Hdec.
  unfold peer_address, c_memory. rewrite !chars_app. change (chars ":") with [colon].
  assert (length (chars ip) <= 31)%nat as Hlen.
  { unfold chars. rewrite length_fmap. clear -Hl. revert Hl. generalize 31%nat. induction ip; intros [|n]; cbn; try lia. intros. apply le_n_S, IHip. lia. }
  destruct (chars ip) as [|c text] eqn:Ec; [by destruct ip|]. cbn [length] in Hlen.
  destruct (plain_go text (Forall_inv_tail Hp)) as [_ G].
  replace ((c :: text) ++ [colon] ++ chars (to_string port)) with (c :: text ++ colon :: chars (to_string port)) by done.
  rewrite <- app_comm_cons, <- app_assoc, <- app_comm_cons. unfold net_su_string_to_addr.
  rewrite (string_to_addr_eval _ _ _ _ _ port); try done; [|lia|].
  - unfold su_set_addr. by rewrite (wrap_id 16).
  - cbn match. replace (colon =? colon) with true by done.
    rewrite (atoi_ok (chars (to_string port)) 0 beyond); [by rewrite Hdec, Ev|by intros E%Hnil|done|unfold digit; lia].
Qed.

(** C23: What a sender does with its command line.  Whatever options are given,
    in whatever style, the values last given and else the defaults reach the
    program, the ports as 16-bit numbers; and the peer it sends to is the host
    and port of the options, when the host's text is not longer than the
    parser's buffer. *)
Theorem sender_command_line `{Inet} duration has_offset arg0 items q :
  a_program duration has_offset ->
  (p <~ sender_options duration has_offset; add_help p) = inr q ->
  Forall (item_ok (options q)) items ->
  let ss := items ≫= settings in
  mentions "help" ss = false ->
  let str n d := @last_value TString default_reader n d ss in
  let int n d := @last_value TInt default_reader n d ss in
  let port := u16 (int "sp" 4321) in
  sender_args duration has_offset (arg0 :: (items ≫= render (options q))) =
    inr (inr (mkSenderArgs (str "client" "10.0.0.1") (str "server" "10.0.4.2") (u16 (int "cp" 1234)) port
      (str "log" "1") (int "duration" duration) (if has_offset then int "offset" 0 else 0))) /\
  (forall beyond, str "server" "10.0.4.2" <> "" -> Forall plain (chars (str "server" "10.0.4.2")) ->
     (String.length (str "server" "10.0.4.2") <= 31)%nat ->
     peer_address (str "server" "10.0.4.2") port beyond =
       Some (mkAddr AF_INET (htons port) (inet_addr (chars (str "server" "10.0.4.2"))))).
Proof.
  intros Ha Hq Hi ss Hm str int port. split.
  - pose proof (sender_declared _ _ _ Hq) as (D1 & D2 & D3 & D4 & D5 & D6 & D7).
    pose proof (sender_ready _ _ Ha) as Hr. unfold sender_args.
    destruct (sender_options duration has_offset) as [|p] eqn:Eo; [done|]. cbn [try] in Hq |- *.
    rewrite (parse_check_items (inr p) q) by done. cbn [try].
    rewrite (declared_get _ _ _ _ _ _ D1 Hi), (declared_get _ _ _ _ _ _ D2 Hi). cbn [try].
    rewrite (declared_get _ _ _ _ _ _ D3 Hi), (declared_get _ _ _ _ _ _ D4 Hi). cbn [try].
    rewrite (declared_get _ _ _ _ _ _ D5 Hi), (declared_get _ _ _ _ _ _ D6 Hi). cbn [try].
    destruct has_offset; [by rewrite (declared_get _ _ _ _ _ _ (D7 eq_refl) Hi)|done].
  - intros beyond. intros. apply peer_address_ok; try done. by apply (wrap_range 16).
Qed.

(** ** The receivers' port *)

Lemma settle_pred (P : option_base -> Prop) n ss : (forall v o, P o -> P (setting_on v o).2) ->
  forall m o, m !! n = Some o -> P o -> exists o', settle ss m !! n = Some o' /\ P o'.
Proof.
  intros HP. induction ss as [|[k v] ss IH]; intros m o Hm Ho; [by exists o|]. rewrite settle_cons.
  destruct (decide (k = n)) as [->|Hk].
  - apply (IH _ (setting_on v o).2); [|by apply HP]. unfold apply_setting. cbn. by rewrite lookup_alter_eq, Hm.
  - apply (IH _ o); [|done]. unfold apply_setting. by rewrite lookup_alter_ne.
Qed.

(** A port one can listen on. *)
Definition a_port (p : Z) : Prop := 1 <= p <= 65535.

Definition port_option (o : option_base) : Prop :=
  exists nam sn need desc has def v,
    o = option_with_value TInt nam sn need desc has def v (@range TInt 1 65535) /\ a_port v.

Lemma port_option_setting v o : port_option o -> port_option (setting_on v o).2.
Proof.
  intros (nam & sn & need & desc & has & def & x & -> & Hx). destruct v as [v|]; cbn [setting_on set set_value snd];
    [|by exists nam, sn, need, desc, has, def, x].
  destruct (@range TInt 1 65535 v) as [y|] eqn:E; cbn [snd]; [|by exists nam, sn, need, desc, has, def, x].
  exists nam, sn, need, desc, true, def, y. split; [done|].
  unfold range, range_reader in E. destruct (default_reader v) as [z|]; [|done]. cbn in E.
  destruct (_ && _) eqn:Eb; [|done]. injection E as <-. apply andb_true_iff in Eb as [?%Z.leb_le ?%Z.leb_le]. done.
Qed.

Lemma receiver_declared duration q : (p <~ receiver_options duration; add_help p) = inr q ->
  exists o, options q !! "port" = Some o /\ port_option o.
Proof.
  intros E. unfold receiver_options in E. tables_of E; eexists; (split; [look|]);
    eexists _, _, _, _, _, _, _; (split; [reflexivity|unfold a_port; lia]).
Qed.

(** The receivers listen on the port they are told: whatever the command
    line, a receiver that gets past its options has a port from 1 to 65535, which
    the conversion to 16 bits leaves as it is. *)
Theorem receiver_port duration argv a : receiver_args duration argv = inr (inr a) ->
  a_port (host_port a) /\
  exists p q, receiver_options duration = inr p /\ parse_check argv p = inr (returns, q) /\
    get TInt "port" q = inr (host_port a).
Proof.
  unfold receiver_args. destruct (receiver_options duration) as [|p] eqn:Eo; [done|]. cbn [try].
  destruct (parse_check argv p) as [|[[status cerr|] q]] eqn:Ep; [done|done|]. cbn [try].
  destruct (get TString "host" q) as [|host]; [done|]. cbn [try].
  destruct (get TInt "port" q) as [|port] eqn:Eg; [done|]. cbn [try].
  destruct (get TInt "duration" q) as [|dur]; [done|]. cbn [try].
  destruct (get TInt "offset" q) as [|off]; [done|]. cbn [try].
  destruct (get TString "log" q) as [|log]; [done|]. intros [= <-]. cbn [host_port].
  assert (a_port port) as Hp.
  { pose proof Ep as Ep'. unfold parse_check in Ep'. destruct (add_help p) as [|q0] eqn:Eh; [done|].
    pose proof (evolves_parse argv q0) as [_ [ss Es]]. destruct (parse argv q0) as [ok q1]. cbn [snd] in Es.
    assert (q1 = q) as -> by (destruct (check _ _ _); by simplify_eq).
    destruct (receiver_declared duration q0) as (o & Ho & Po); [by rewrite Eo|].
    destruct (settle_pred port_option "port" ss port_option_setting _ _ Ho Po) as (o' & Ho' & Po').
    rewrite <- Es in Ho'. destruct Po' as (nam & sn & need & desc & has & def & v & -> & Hv).
    unfold get in Eg. rewrite Ho' in Eg. destruct (decide _) as [E|]; [|done].
    rewrite (proof_irrel E eq_refl) in Eg. cbn in Eg. by injection Eg as <-. }
  rewrite (wrap_id 16) by (unfold in_u, a_port in *; lia). split; [done|]. by exists p, q.
Qed.
