(* ===== verification/ProgramsLive.v ===== *)
(** * When a sender's main program ends

    [while(sender.Process()&&run_status)] of the BBR video sender comes to its
    end when the clock passes the time set by the duration, whatever arrives;
    the measure is what the clock has left ([left]). *)

From S2P Require Import Prelude QuicTime Clock StdMap Bbr BbrInv BbrProps Platform Posix FramerTypes FramerWire AppHeader BbrApps BbrAppProps Cmdline Programs.
Open Scope Z_scope.

(** ** The loop *)

(** [I j]: an invariant that allows [j] more iterations. *)
Lemma while_ends {S} (Process : M S bool) (poll : M S Z) (I : nat -> S -> Prop) (left : S -> nat) :
  (forall j s, I (Datatypes.S j) s -> exists b s', Process s = (Ok b, s') /\ I j s' /\ (b = true -> (left s' < left s)%nat)) ->
  (forall j s, I j s -> exists z s', poll s = (Ok z, s') /\ I j s' /\ (left s' <= left s)%nat) ->
  forall fuel s, I fuel s -> (left s < fuel)%nat -> exists s', while_process Process poll fuel s = (Ok tt, s').
Proof.
  intros Hp Hr. induction fuel as [|fuel IH]; intros s Hs Hl; [lia|]. cbn [while_process].
  destruct (Hp _ _ Hs) as (b & s1 & E1 & H1 & Hb). rewrite (M_bind_ok _ _ _ _ _ E1).
  destruct b; [|by exists s1]. specialize (Hb eq_refl).
  destruct (Hr _ _ H1) as (z & s2 & E2 & H2 & Hz). rewrite (M_bind_ok _ _ _ _ _ E2).
  destruct (z =? 0); [by exists s2|]. apply IH; [done|lia].
Qed.

Create HintDb calm.

Section Live.
Context `{T : QuicTypes} `{TOk : !QuicTypesOk T} `{Q : QuicFunctions}
  `{L : BbrLib} `{K : !BandwidthKbps}
  `{R : ReaderOps} `{RV : !ReaderView} `{ROk : !ReaderOk}
  `{WO : WriterOps} `{WV : !WriterView} `{WOk : !WriterOk}.
Context {W : Type} `{TD : TimeOfDay W} `{SK : Sockets W} `{F : Files W}
  `{SG : Signals W} `{KN : Kernel W} `{IN : Inet}.
Context (beyond beyond_string : list Z) (random : QuicRandom).
Local Abbreviation sapp := (@MyBbrSenderApp L W).
Local Abbreviation vapp := (@MyBbrVideoSenderApp L W).

(** The clock runs: each reading is past [stop], or leaves less until it is; the
    other calls give nothing back. *)
Record runs_out (stop : Z) (left : W -> nat) (fd : Z) : Prop := {
  clock_left w : (left (SysClock_Now w).2 <= left w)%nat;
  clock_ticks w : stop < time_ (SysClock_Now w).1 \/ (left (SysClock_Now w).2 < left w)%nat;
  recv_left n w : (left (RecvFrom (Socket := UdpSocket fd) n w).2 <= left w)%nat;
  send_left a buf w : (left (SendTo (Socket := UdpSocket fd) a buf w).2 <= left w)%nat;
  open_left name w : (left (grant_open name w).2 <= left w)%nat;
  status_left w : (left (run_status w).2 <= left w)%nat
}.

Section Fd.
Context (stop : Z) (left : W -> nat) (fd : Z) (Hrun : runs_out stop left fd).
#[local] Instance fd_socket : Socket W := UdpSocket fd.

Definition less (s s' : sapp) : Prop := (left (app_world s') <= left (app_world s))%nat /\ app_stop s' = app_stop s.

#[local] Instance less_preorder : PreOrder less.
Proof. split; [by split|]. intros s s1 s2 [H1 E1] [H2 E2]. split; [lia|congruence]. Qed.

Definition calm {X} (m : M sapp X) : Prop := forall s, less s (m s).2.

Lemma calm_bind {X Y} (m : M sapp X) (f : X -> M sapp Y) : calm m -> (forall x, calm (f x)) -> calm (m ≫= f).
Proof.
  intros Hm Hf s. unfold mbind, M_bind. specialize (Hm s).
  destruct (m s) as [[x| |] s1]; [|done..]. etrans; [exact Hm|apply Hf].
Qed.

Lemma calm_here {X} (m : M sapp X) : (forall s, (m s).2 = s) -> calm m.
Proof. intros Hm s. rewrite Hm. reflexivity. Qed.

Lemma calm_modify f : (forall s, less s (f s)) -> calm (mmodify f).
Proof. done. Qed.

Lemma calm_ret {X} (x : X) : calm (mret x).
Proof. by apply calm_here. Qed.

Lemma calm_get : calm mget.
Proof. by apply calm_here. Qed.

Lemma calm_same f : (forall s : sapp, app_world (f s) = app_world s) -> (forall s : sapp, app_stop (f s) = app_stop s) ->
  calm (mmodify f).
Proof. intros H1 H2 s. split; cbn; [by rewrite H1|apply H2]. Qed.

Lemma calm_now : calm app_now.
Proof.
  intros s. unfold app_now, mbind, M_bind, mget, mmodify, mret, M_ret.
  pose proof (clock_left _ _ _ Hrun (app_world s)). destruct (SysClock_Now (app_world s)). by split.
Qed.

Lemma calm_recv n : calm (app_recv n).
Proof.
  intros s. unfold app_recv, mbind, M_bind, mget, mmodify, mret, M_ret.
  pose proof (recv_left _ _ _ Hrun n (app_world s)) as Hl.
  change (@RecvFrom W fd_socket) with (@RecvFrom W (UdpSocket fd)).
  destruct (RecvFrom n (app_world s)) as [[r d] w]. by split.
Qed.

Lemma calm_send buf : calm (app_send buf).
Proof. intros s. split; [apply (send_left _ _ _ Hrun)|done]. Qed.

Lemma calm_on_pacing {X} (m : M MyPacingSender X) : calm (app_on_pacing m).
Proof. intros s. unfold app_on_pacing. by destruct (m (app_pacing s)). Qed.

#[local] Hint Resolve calm_ret calm_get calm_now calm_recv calm_send calm_on_pacing : calm.

Ltac calmed := repeat first
  [ solve [auto with calm]
  | apply calm_bind; [|intros]
  | apply calm_same; intros; reflexivity
  | match goal with |- calm (match ?x with _ => _ end) => destruct x end
  | (apply calm_here; reflexivity) ].

Lemma calm_record_rate est now : calm (record_rate est now).
Proof. unfold record_rate, app_on_cc. cbv zeta. calmed. Qed.

Lemma calm_send_packet type now : calm (send_packet beyond type now).
Proof. unfold send_packet. cbv zeta. calmed. Qed.

Lemma calm_ack now data : calm (ProcessAckFrame now data).
Proof. unfold ProcessAckFrame. calmed. Qed.

#[local] Hint Resolve calm_record_rate calm_send_packet calm_ack : calm.

Lemma calm_finish est now : calm (receive_and_finish est now).
Proof. unfold receive_and_finish. cbv zeta. calmed. Qed.

Lemma calm_open name : calm (EnableRateRecord name).
Proof.
  intros s. unfold EnableRateRecord, mbind, M_bind, mget, mmodify, mret, M_ret.
  pose proof (open_left _ _ _ Hrun (name +:+ "-rate.txt") (app_world s)).
  destruct (grant_open _ _). by split.
Qed.

(** ** One round of the video sender *)

Lemma calm_ok {X} (m : M sapp X) s x s' : calm m -> m s = (Ok x, s') -> less s s'.
Proof. intros Hm E. specialize (Hm s). by rewrite E in Hm. Qed.

Lemma on_app_eq {X} (m : M sapp X) (s : vapp) x a : m (va_app s) = (Ok x, a) ->
  on_app m s = (Ok x, mkVideoApp a (source_ s) (pending_queue_ s)).
Proof. intros E. unfold on_app. by rewrite E. Qed.

(** The generator [main] makes: 30 frames per second at 500000 bits per second. *)
Definition source_ok (g : FakeVideoGenerator) : Prop := rate_ g = 500000 /\ duration_ g = 33.

Lemma PollSource_ok now (s : vapp) : source_ok (source_ s) ->
  exists g q, PollSource now s = (Ok tt, mkVideoApp (va_app s) g q) /\ source_ok g.
Proof.
  intros [Hr Hd]. unfold PollSource. rewrite (M_bind_ok mget _ _ s s) by done. cbv beta.
  assert (exists len g, GetFrame now (source_ s) = (len, g) /\ source_ok g /\ len < 1024000) as (len & g & E & Hg & Hlen).
  { unfold GetFrame. rewrite Hr, Hd. change (Z.quot (s64 (500000 * 33)) (1000 * 8)) with 2062.
    destruct (time_gt _ _); eexists _, _; (split; [reflexivity|]); by (split; [|lia]). }
  rewrite E. rewrite (M_bind_ok _ _ _ tt (mkVideoApp (va_app s) g (pending_queue_ s))) by done.
  destruct (Z.ltb_spec 0 len) as [H0|]; [|by exists g, (pending_queue_ s)].
  destruct (split_frame_ok len (conj H0 Hlen)) as (v & -> & _). by eexists g, _.
Qed.

Context (clock_runs : forall w, (SysClock_Now w).1 <> Time_Zero) (beyond_ok : enough_beyond beyond)
  (short : short_datagrams).

Definition budget (N k j : Z) : Prop := 0 <= k /\ 0 <= N /\ k + 3 * j < 2 ^ 64 /\ N + j < 2 ^ 32.

Lemma SendDataOrPadding_ok now N k j (s : vapp) : app_ok N k (va_app s) -> budget N k (j + 1) -> 0 <= j ->
  exists s' N', SendDataOrPadding beyond now s = (Ok tt, s') /\ app_ok N' (k + 1) (va_app s') /\
    N <= N' <= N + 1 /\ source_ s' = source_ s /\ less (va_app s) (va_app s').
Proof.
  intros Hs (? & ? & ? & ?) Hj. unfold SendDataOrPadding. rewrite (M_bind_ok mget _ _ s s) by done. cbv beta.
  assert (forall type (s : vapp), app_ok N k (va_app s) -> exists s' N',
    on_app (send_packet beyond type now) s = (Ok tt, s') /\ app_ok N' (k + 1) (va_app s') /\
    N <= N' <= N + 1 /\ source_ s' = source_ s /\ less (va_app s) (va_app s')) as Hsend.
  { intros type s0 Hs0. destruct (send_packet_ok beyond type now N k (va_app s0)) as (a & E & Ha); [done|done|lia..|].
    eexists _, (N + 1). split; [by apply on_app_eq|]. split; [done|]. split; [lia|]. split; [done|].
    by eapply calm_ok; [apply calm_send_packet|]. }
  destruct (pending_queue_ s); [|by apply Hsend].
  pose proof Hs as (c & Ec & Hc & Hn). destruct (on_cc_ok ShouldSendProbePacket (va_app s) c Ec) as (a & E & Ea & Eca).
  rewrite (M_bind_ok _ _ _ _ _ (on_app_eq _ _ _ _ E)).
  assert (less (va_app s) a) as Hl by (by eapply calm_ok; [unfold app_on_cc; apply calm_on_pacing|]).
  assert (app_ok N k a) as Ha by (exists c; split; [done|]; split; [done|congruence]).
  destruct (ShouldSendProbePacket c).
  - destruct (Hsend test_proto_padding (mkVideoApp a (source_ s) (pending_queue_ s)) Ha) as (s' & N' & Es & P1 & P2 & P3 & P4).
    exists s', N'. split; [exact Es|]. split; [done|]. split; [done|]. split; [done|]. by etrans.
  - eexists _, N. split; [reflexivity|]. cbn. split; [apply (app_ok_more _ k); [lia|done]|]. split; [lia|]. done.
Qed.

Lemma finish_result est now (s : sapp) b s' : receive_and_finish est now s = (Ok b, s') ->
  app_stop s <> Time_Zero -> b = negb (time_gt now (app_stop s)).
Proof.
  unfold receive_and_finish. intros E Hn.
  apply M_bind_inv in E as (recv & s1 & E1 & E). apply M_bind_inv in E as ([] & s2 & E2 & E).
  rewrite (M_bind_ok mget _ _ s2 s2) in E by done. cbv beta zeta in E.
  apply M_bind_inv in E as ([] & s3 & E3 & E). injection E as <- _.
  apply (calm_ok _ _ _ _ (calm_recv _)) in E1 as [_ Es1].
  assert (less s1 s2) as [_ Es2].
  { destruct recv; [by eapply calm_ok; [apply calm_ack|]|]. by eapply calm_ok; [apply calm_ret|]. }
  rewrite Es2, Es1. unfold time_ne, time_eq. destruct (Z.eqb_spec (time_ (app_stop s)) (time_ Time_Zero)) as [Ez|]; [|done].
  exfalso. apply Hn. destruct (app_stop s). cbn in Ez. by subst.
Qed.

(** The invariant of the loop, with [j] rounds to go. *)
Definition video_running (j : nat) (s : vapp) : Prop :=
  exists N k, app_ok N k (va_app s) /\ budget N k (Z.of_nat j) /\
    app_stop (va_app s) = mkTime stop /\ source_ok (source_ s).

Lemma Video_Process_round (Hstop : stop <> 0) j (s : vapp) : video_running (S j) s ->
  exists b s', Video_Process beyond s = (Ok b, s') /\ video_running j s' /\
    (b = true -> (left (app_world (va_app s')) < left (app_world (va_app s)))%nat).
Proof.
  intros (N & k & Hs & (P1 & P2 & P3 & P4) & Est & Hg). unfold Video_Process.
  destruct (start_process_ok clock_runs N k (va_app s) Hs) as (now & a & E & Ha & Hnow).
  assert (less (va_app s) a /\ (stop < time_ now \/ (left (app_world a) < left (app_world (va_app s)))%nat)) as [Hl Ht].
  { revert E. unfold start_process. intros E. apply M_bind_inv in E as (t & s1 & E1 & E).
    rewrite (M_bind_ok mget _ _ s1 s1) in E by done. cbv beta in E. apply M_bind_inv in E as ([] & s2 & E2 & E).
    injection E as <- <-. assert (app_world s2 = app_world s1 /\ app_stop s2 = app_stop s1) as [W2 S2].
    { by destruct (time_eq _ _); injection E2 as <-. }
    unfold less. rewrite W2, S2. pose proof (calm_ok _ _ _ _ calm_now E1) as [Hl1 Hs1]. split; [by split|].
    pose proof (clock_ticks _ _ _ Hrun (app_world (va_app s))) as Htick.
    unfold app_now, mbind, M_bind, mget, mmodify, mret, M_ret in E1.
    destruct (SysClock_Now (app_world (va_app s))). injection E1 as <- <-. exact Htick. }
  rewrite (M_bind_ok _ _ _ _ _ (on_app_eq _ _ _ _ E)).
  destruct (PollSource_ok now (mkVideoApp a (source_ s) (pending_queue_ s)) Hg) as (g & q & Ep & Hg').
  rewrite (M_bind_ok _ _ _ _ _ Ep). rewrite (M_bind_ok mget _ _ (mkVideoApp a g q) (mkVideoApp a g q)) by done. cbv beta.
  assert (exists s2 N', (if delta_eq (TimeUntilSend now (app_pacing a)) Delta_Zero
      then SendDataOrPadding beyond now else mret tt) (mkVideoApp a g q) = (Ok tt, s2) /\
    app_ok N' (k + 1) (va_app s2) /\ N <= N' <= N + 1 /\ source_ s2 = g /\ less a (va_app s2))
    as (s2 & N' & E2 & A2 & HN & Hg2 & Hl2).
  { destruct (delta_eq _ _).
    - apply (SendDataOrPadding_ok now N k (Z.of_nat j) (mkVideoApp a g q)); [done| |lia].
      unfold budget. lia.
    - eexists _, N. split; [reflexivity|]. cbn. split; [apply (app_ok_more _ k); [lia|done]|]. split; [lia|done]. }
  cbn [va_app] in E2 |- *. rewrite (M_bind_ok _ _ _ _ _ E2).
  destruct (receive_and_finish_ok short BandwidthEstimate now N' (k + 1) (va_app s2)) as (b & s3 & E3 & A3); [done|lia..|done|].
  pose proof (calm_ok _ _ _ _ (calm_finish _ _) E3) as Hl3. rewrite (on_app_eq _ _ _ _ E3).
  eexists _, _. split; [reflexivity|].
  assert (app_stop (va_app s2) = mkTime stop) as Es2 by (destruct Hl, Hl2; congruence).
  split.
  - exists N', (k + 1 + 2). cbn. split; [done|]. split; [unfold budget; lia|]. split; [destruct Hl3; congruence|]. by rewrite Hg2.
  - intros ->. cbn. apply finish_result in E3; [|rewrite Es2; intros [=]; done].
    rewrite Es2 in E3. unfold time_gt, time_lt in E3. cbn in E3. destruct (Z.ltb_spec stop (time_ now)); [done|].
    destruct Ht as [Ht|Ht]; [lia|]. destruct Hl, Hl2, Hl3. lia.
Qed.

(** What [main] does before the loop. *)
Lemma set_duration_eq ms (s : sapp) : BbrApps.set_duration ms s =
  let '(t, w) := SysClock_Now (app_world s) in
  (Ok tt, app_upd_stop (time_add t (FromMilliseconds ms)) (app_upd_world w s)).
Proof.
  unfold BbrApps.set_duration, app_now, mbind, M_bind, mget, mmodify, mret, M_ret.
  by destruct (SysClock_Now (app_world s)).
Qed.

Lemma EnableRateRecord_eq name (s : sapp) : BbrApps.EnableRateRecord name s =
  let '(granted, w) := grant_open (name +:+ "-rate.txt") (app_world s) in
  (Ok tt, app_upd_log true (log_open granted (app_f_rate s)) (app_upd_world w s)).
Proof.
  unfold BbrApps.EnableRateRecord, mbind, M_bind, mget, mmodify, mret, M_ret. by destruct (grant_open _ _).
Qed.

Lemma set_up w peer ms offset name g : source_ok g ->
  time_add (SysClock_Now w).1 (FromMilliseconds ms) = mkTime stop ->
  exists s, (Video_set_duration ms;; on_app (SetTimeOffset offset);; Video_EnableRateRecord name)
      (mkVideoApp (new_app w peer 500000 1000000 2000000 random) g [] : vapp) = (Ok tt, s) /\
    (left (app_world (va_app s)) <= left w)%nat /\ app_ok 1 0 (va_app s) /\
    app_stop (va_app s) = mkTime stop /\ source_ok (source_ s).
Proof.
  intros Hg Ht. pose proof (clock_left _ _ _ Hrun w) as Hc.
  set (s0 := new_app w peer 500000 1000000 2000000 random).
  pose proof (set_duration_eq ms s0) as E1. change (app_world s0) with w in E1.
  destruct (SysClock_Now w) as [t w1]. cbn [fst snd] in *. rewrite Ht in E1.
  rewrite (M_bind_ok _ _ _ _ _ (on_app_eq _ (mkVideoApp s0 g []) _ _ E1)).
  set (s1 := app_upd_stop (mkTime stop) (app_upd_world w1 s0)) in *.
  rewrite (M_bind_ok _ _ _ _ _ (on_app_eq (SetTimeOffset offset) (mkVideoApp s1 g []) tt _ eq_refl)).
  match goal with |- context [Video_EnableRateRecord name ?v] => set (s2 := va_app v) end.
  pose proof (EnableRateRecord_eq name s2) as E2. change (app_world s2) with w1 in E2.
  pose proof (open_left _ _ _ Hrun (name +:+ "-rate.txt") w1) as Ho. destruct (grant_open _ w1) as [granted w2].
  cbn [snd] in Ho. eexists. split; [apply (on_app_eq _ _ _ _ E2)|]. cbn [va_app source_]. split; [cbn; lia|]. split; [|by split].
  eexists. split; [reflexivity|]. split; [apply new_sender_ok|done].
Qed.

Lemma video_loop_ends (Hstop : stop <> 0) fuel (s : vapp) : video_running fuel s -> (left (app_world (va_app s)) < fuel)%nat ->
  exists s', while_process (Video_Process beyond) (object_run_status video_app_world video_app_upd_world) fuel s = (Ok tt, s').
Proof.
  intros Hs Hl. apply (while_ends _ _ video_running (fun s => left (app_world (va_app s)))); [|clear s Hs Hl|done|done].
  - intros j s0. by apply Video_Process_round.
  - intros j s Hs. unfold object_run_status, video_app_world.
    pose proof (status_left _ _ _ Hrun (app_world (va_app s))) as Hl. destruct (run_status _) as [z w]. cbn in Hl.
    eexists _, _. split; [reflexivity|]. split; [|done].
    destruct Hs as (N & k & Ha & Hb & Hst & Hg). exists N, k. split; [|done]. by apply (app_ok_same _ _ (va_app s)).
Qed.

End Fd.

(** C14: [t_bbr_video_sender] ends.  Once its options are parsed, its socket bound
    and the peer's address read, it returns with status zero after the first
    round whose reading of the clock is past the end of its duration, or
    earlier on a signal - whatever datagrams arrive, as long as none is longer
    than the sender's buffer.  The fuel that is enough is what the clock has
    left, and one round. *)
Theorem bbr_video_sender_ends argv a fd w w1 peer stop left fuel :
  (forall w, (SysClock_Now w).1 <> Time_Zero) -> enough_beyond beyond -> short_datagrams (SK := UdpSocket fd) ->
  sender_args 200000 true argv = inr (inr a) ->
  UdpSocket_Bind (Some (c_string (chars (client_ip a)))) (c_port a) None w = (Ok (Some fd), w1) ->
  peer_address (serv_ip a) (s_port a) beyond_string = Some peer ->
  runs_out stop left fd ->
  time_add (SysClock_Now w1).1 (FromMilliseconds (u32 (arg_duration a))) = mkTime stop -> stop <> 0 ->
  (left w1 < fuel)%nat -> Z.of_nat fuel < 2 ^ 31 ->
  exists w', bbr_video_sender_main beyond beyond_string random fuel argv w = (Ok (exited 0), w').
Proof.
  intros Hc Hb Hs Ha Hbind Hpeer Hrun Ht Hstop Hl Hfuel. change (2 ^ 31) with 2147483648 in Hfuel.
  unfold bbr_video_sender_main, with_args. rewrite Ha. unfold with_peer, with_socket.
  rewrite Hpeer. destruct (new_generator 30 500000) as [g|] eqn:Eg; [|done].
  assert (source_ok g) as Hg by (injection Eg as <-; done).
  destruct (set_up stop left fd Hrun w1 peer (u32 (arg_duration a)) (arg_offset a)
    (test_case a +:+ "-my-bbr-video") g Hg Ht) as (s & Es & Hls & Has & Hst & Hgs).
  destruct (video_loop_ends stop left fd Hrun Hc Hb Hs Hstop fuel s) as (s' & El);
    [exists 1, 0; split; [done|]; split; [unfold budget; change (2 ^ 64) with 18446744073709551616; change (2 ^ 32) with 4294967296; lia|done]|lia|].
  unfold fd_socket in El.
  unfold run_object.
  match goal with |- exists _, (?m ≫= _) w = _ => assert (exists w', m w = (Ok tt, w')) as [w' E] end.
  { eexists. rewrite (M_bind_ok _ _ _ _ _ Hbind). cbv beta iota.
    match goal with |- (?m ≫= _) w1 = _ => assert (m w1 = (Ok tt, video_app_world s')) as E1 end.
    { cbv beta. revert Es. unfold mbind, M_bind. intros Es.
      destruct (Video_set_duration _ _) as [[[]| |] s1]; [|done..].
      destruct (on_app (SetTimeOffset _) s1) as [[[]| |] s2]; [|done..].
      rewrite Es. by rewrite El. }
    rewrite (M_bind_ok _ _ _ _ _ E1). reflexivity. }
  exists w'. by rewrite (M_bind_ok _ _ _ _ _ E).
Qed.

End Live.
