(* ===== verification/ProgramsDemo.v ===== *)
(** * The option parser and the programs on concrete inputs

    A world whose clock advances by a millisecond per reading and stops at
    2^30 of them, whose system has one descriptor to give, and whose network
    brings datagrams of at most 1400 bytes. *)

From Stdlib Require Import Ascii.
From Stdlib Require String.
From stdpp Require Import gmap.
From S2P Require Import Prelude QuicTime Clock StdMap Bbr BbrInv BbrProps BbrDemo Platform Posix FramerTypes FramerWire FramerCodec FramerConcrete AppHeader BbrApps BbrAppProps BbrAppDemo Cmdline CmdlineProps Programs ProgramsProps ProgramsLive.
Open Scope Z_scope.

Record prog_world := mkProg { tick : nat; arrivals : list (list Z); departures : list (list Z); signalled : Z }.

Definition prog_ms (w : prog_world) : Z := 1 + Z.min (Z.of_nat (tick w)) (2 ^ 30).

#[export] Instance prog_clock : TimeOfDay prog_world := fun w =>
  ((prog_ms w / 1000, prog_ms w mod 1000 * 1000), mkProg (S (tick w)) (arrivals w) (departures w) (signalled w)).

#[export] Instance prog_sockets : Sockets prog_world := {
  sys_recvfrom fd n w :=
    match arrivals w with
    | [] => ((-1, None), w)
    | d :: ds =>
        let d := ztake (Z.min n MaxPacketSize) d in
        ((zlen d, Some (here, d)), mkProg (tick w) ds (departures w) (signalled w))
    end;
  sys_sendto fd buf a w := (zlen buf, mkProg (tick w) (arrivals w) (departures w ++ [buf]) (signalled w));
  sys_select _ _ w := ((1, true), w)
}.

#[export] Instance prog_files : Files prog_world := fun _ w => (true, w).
#[export] Instance prog_signals : Signals prog_world := fun w => (signalled w, w).
#[export] Instance prog_inet : Inet := fun ip => zlen ip.

#[export] Instance prog_kernel : Kernel prog_world := {
  sys_socket _ _ _ w := (3, w);
  sys_setsockopt _ _ _ _ w := (0, w);
  sys_bind _ _ w := (0, w);
  sys_listen _ _ w := (0, w);
  sys_getfl _ w := (2, w);
  sys_setfl _ _ w := (0, w);
  sys_close _ w := w;
  sys_pause _ _ w := w
}.

Lemma prog_now w : SysClock_Now w =
  (mkTime (prog_ms w * 1000), mkProg (S (tick w)) (arrivals w) (departures w) (signalled w)).
Proof.
  unfold SysClock_Now, iclock64, gettimeofday, prog_clock. cbn [fst snd].
  assert (1 <= prog_ms w <= 1 + 2 ^ 30) as Hr by (unfold prog_ms; lia). change (2 ^ 30) with 1073741824 in Hr.
  set (n := prog_ms w) in *. pose proof (Z.mod_pos_bound n 1000 ltac:(lia)) as Hm. pose proof (Z.div_mod n 1000 ltac:(lia)) as Hd.
  rewrite Z.quot_div_nonneg, Z.div_mul by lia.
  assert (forall z, 0 <= z < 9223372036854775808 -> s64 z = z) as Hid
    by (intros z Hz; apply swrap_id; [lia|]; unfold in_s; change (2 ^ (64 - 1)) with 9223372036854775808; lia).
  unfold time_add, FromMilliseconds, Time_Zero. cbn [time_ time_offset_].
  replace (n / 1000 * 1000 + n mod 1000) with n by lia. rewrite (Hid n), (Hid (n * 1000)), Hid by lia. done.
Qed.

(** The milliseconds left until 1006 on the clock. *)
Definition prog_left (w : prog_world) : nat := Z.to_nat (1007 - prog_ms w).

Lemma prog_runs_out : runs_out (TD := prog_clock) (F := prog_files) 1006000 prog_left 3.
Proof.
  assert (forall w w', tick w' = tick w -> prog_left w' = prog_left w) as Hsame.
  { intros w w' E. unfold prog_left, prog_ms. by rewrite E. }
  assert (forall t a b c, prog_ms (mkProg (S t) a b c) = 1 + Z.min (Z.of_nat (S t)) (2 ^ 30)) as Hms by done.
  split; intros.
  - rewrite prog_now. unfold prog_left. cbn [fst snd]. rewrite Hms. unfold prog_ms. lia.
  - rewrite prog_now. unfold prog_left. cbn [fst snd time_]. rewrite Hms. unfold prog_ms.
    change (2 ^ 30) with 1073741824. lia.
  - cbn. unfold su_udp_recv. cbn. destruct (arrivals w); [done|]. destruct (_ <=? 0); cbn; by apply Nat.eq_le_incl, Hsame.
  - cbn. by apply Nat.eq_le_incl, Hsame.
  - done.
  - done.
Qed.

Lemma prog_short : short_datagrams (SK := UdpSocket 3).
Proof.
  intros n w a bs. cbn. unfold su_udp_recv. cbn. destruct (arrivals w) as [|d ds]; [done|].
  destruct (_ <=? 0); [done|]. cbn. intros [= _ <-].
  unfold zlen, ztake. rewrite length_take. unfold MaxPacketSize. lia.
Qed.

Definition demo_argv : list string := ["prog"; "--duration=5"; "-p"; "70000"; "-s"; "10.0.0.9"].

(** Started at one second with five milliseconds to run, and an acknowledgement
    of a packet not sent waiting. *)
Lemma bbr_video_sender_ends_witness :
  exists w', bbr_video_sender_main demo_beyond [] 1 10 demo_argv
    (mkProg (Z.to_nat 1000) [packet test_proto_ack 7] [] 1) = (Ok (exited 0), w').
Proof.
  refine (bbr_video_sender_ends demo_beyond [] 1 demo_argv
    (mkSenderArgs "10.0.0.1" "10.0.0.9" 1234 4464 "1" 5 0) 3 (mkProg (Z.to_nat 1000) [packet test_proto_ack 7] [] 1)
    (mkProg (Z.to_nat 1000) [packet test_proto_ack 7] [] 1) (mkAddr AF_INET (htons 4464) 8) 1006000 prog_left 10 _ _ _ _ _ _ _ _ _ _ _).
  - intros w. rewrite prog_now. cbn. unfold Time_Zero, prog_ms. intros [= E]. lia.
  - exact demo_beyond_ok.
  - exact prog_short.
  - vm_compute. reflexivity.
  - reflexivity.
  - vm_compute. reflexivity.
  - exact prog_runs_out.
  - vm_compute. reflexivity.
  - discriminate.
  - vm_compute. lia.
  - vm_compute. reflexivity.
Defined.

(** ** The option parser *)

Definition size_option : option_base :=
  @new_option_with_value TInt "size" (ch 115) true 7 "bytes" (@range TInt 1 100).
Definition verbose_option : option_base := new_option_without_value "verbose" (ch 118) "say more".

Definition demo_parser : parser :=
  mkParser (<["verbose" := verbose_option]> (<["size" := size_option]> ∅)) ["size"; "verbose"] "" "" [] [].

Example demo_parser_made :
  (p <~ @add_reader TInt "size" (ch 115) "bytes" true 7 (@range TInt 1 100) new_parser;
   add "verbose" (ch 118) "say more" p) = inr demo_parser.
Proof. reflexivity. Qed.

Definition demo_items : list item := [Word "a"; Equals "size" "42"; Shorts ["verbose"] "size" (Some "43"); Word "b"].

Example demo_rendered : demo_items ≫= render (options demo_parser) = ["a"; "--size=42"; "-vs"; "43"; "b"].
Proof. vm_compute. reflexivity. Qed.

Lemma demo_unambiguous : unambiguous (options demo_parser).
Proof. apply table_made. eexists. vm_compute. reflexivity. Qed.

(** Items are checked by evaluation. *)
Definition setting_check (m : gmap string option_base) (s : setting) : bool :=
  match m !! s.1 with Some o => (setting_on s.2 o).1 | None => false end.

Definition spelled_check (m : gmap string option_base) (it : item) : bool :=
  match it with
  | Word w => bool_decide (after_dash w = None)
  | Dash => true
  | Equals n _ | Long n _ => bool_decide (split_equals n = None)
  | Shorts ns n _ =>
      forallb (fun n => bool_decide (n <> "") && bool_decide (short_char m n <> ch 0)) (ns ++ [n]) &&
      bool_decide (head (short_char m <$> ns ++ [n]) <> Some (ch 45))
  end.

Definition items_check (m : gmap string option_base) (items : list item) : bool :=
  forallb (fun it => forallb (setting_check m) (settings it) && spelled_check m it) items.

Lemma items_checked m items : items_check m items = true -> Forall (item_ok m) items.
Proof.
  unfold items_check. rewrite forallb_forall, <- List.Forall_forall. intros H. eapply Forall_impl; [exact H|].
  intros it [Hs Hp]%andb_true_iff. split.
  - rewrite forallb_forall, <- List.Forall_forall in Hs. eapply Forall_impl; [exact Hs|]. intros st. unfold setting_check, setting_ok.
    destruct (m !! st.1) as [o|]; [|done]. intros E. by exists o.
  - destruct it as [w| |n v|n v|ns n v]; cbn in Hp |- *; try done; [by apply bool_decide_eq_true in Hp..|].
    apply andb_true_iff in Hp as [Hn Hh]. rewrite forallb_forall, <- List.Forall_forall in Hn. split; [|by apply bool_decide_eq_true in Hh].
    eapply Forall_impl; [exact Hn|]. intros x [H1%bool_decide_eq_true H2%bool_decide_eq_true]%andb_true_iff. by split.
Qed.

(** Every option has its value, or [ss] sets it. *)
Definition given_check (m : gmap string option_base) (ss : list setting) : bool :=
  forallb (fun no => valid no.2 || mentions no.1 ss) (map_to_list m).

Lemma given_checked m ss : given_check m ss = true -> forall n o, m !! n = Some o -> valid o || mentions n ss = true.
Proof.
  unfold given_check. rewrite forallb_forall. intros H n o Ho%elem_of_map_to_list. apply list_elem_of_In in Ho.
  exact (H _ Ho).
Qed.

Example demo_items_ok : items_check (options demo_parser) demo_items = true.
Proof. vm_compute. reflexivity. Qed.

Example demo_items_given : given_check (options demo_parser) (demo_items ≫= settings) = true.
Proof. vm_compute. reflexivity. Qed.

Lemma assigned_values_witness :
  let '(ok, p) := parse ("prog" :: (demo_items ≫= render (options demo_parser))) demo_parser in
  ok = true /\ rest p = ["a"; "b"] /\ get TInt "size" p = inr 43 /\ exist "verbose" p = inr true.
Proof.
  pose proof (assigned_values "prog" demo_items demo_parser demo_unambiguous
    (items_checked _ _ demo_items_ok) (given_checked _ _ demo_items_given)) as H.
  destruct (parse _ demo_parser) as [ok p]. destruct H as (H1 & H2 & H3 & H4). split; [exact H1|]. split; [exact H2|].
  split; [|rewrite (H4 "verbose" verbose_option) by look; vm_compute; reflexivity].
  rewrite (H3 "size" TInt "size" (ch 115) true
    (full_description TInt true 7 "bytes") false 7 7 (@range TInt 1 100)); [vm_compute; reflexivity|].
  etrans; [apply lookup_insert_ne; discriminate|]. reflexivity.
Defined.

(** Started with nothing set, set twice on a line. *)
Lemma values_typed_witness :
  let p := (parse ["prog"; "--size=42"; "-vs"; "43"] demo_parser).2 in
  exists sn need desc has def read,
    options p !! "size" = Some (option_with_value TInt "size" sn need desc has def 43 read) /\
    (if has then exists s, read s = Some 43 else 43 = def) /\
    (forall low high, read = @range TInt low high -> has = true -> val_leb (T := TInt) low 43 = true /\ val_leb (T := TInt) 43 high = true).
Proof.
  assert (reachable_parser (parse ["prog"; "--size=42"; "-vs"; "43"] demo_parser).2) as Hr.
  { eapply rtc_l.
    - eapply (step_add_reader _ TInt "size" (ch 115) "bytes" true 7 (@range TInt 1 100)). reflexivity.
    - eapply rtc_l; [eapply (step_add _ "verbose" (ch 118) "say more" demo_parser); reflexivity|].
      apply rtc_once. apply step_parse. }
  cbv zeta. apply (values_typed _ TInt "size" 43 Hr). vm_compute. reflexivity.
Defined.

Lemma quoted_line_parsed_witness :
  (let '(_, (ok, p)) := parse_string (String (ch 34) "prog a") (push_error "first" demo_parser) in
   ok = Ok false /\ options p = options demo_parser /\ error p = "first") /\
  parse_string (quoted_line ["prog"; "a b"; ""]) (push_error "first" demo_parser) =
    ([String (ch 34) ("prog" +:+ String (ch 34) ""); String (ch 34) ("a b" +:+ String (ch 34) "")],
     let '(ok, p) := parse ["prog"; "a b"] (push_error "first" demo_parser) in (Ok ok, p)).
Proof.
  destruct (quoted_line_parsed "prog" ["a b"; ""] (push_error "first" demo_parser)) as [E H]. split.
  - exact (H (String (ch 34) "prog a") "quote is not closed" eq_refl).
  - rewrite E. reflexivity.
Defined.

(** ** The programs' options *)

Definition sent_items : list item :=
  [Equals "server" "10.0.0.9"; Long "sp" (Some "70000"); Shorts [] "duration" (Some "5")].

(** The port 70000 becomes 4464. *)
Lemma sender_command_line_witness :
  sender_args 100000 true ["prog"; "--server=10.0.0.9"; "--sp"; "70000"; "-d"; "5"] =
    inr (inr (mkSenderArgs "10.0.0.1" "10.0.0.9" 1234 4464 "1" 5 0)) /\
  peer_address "10.0.0.9" 4464 [] = Some (mkAddr AF_INET (htons 4464) 8).
Proof.
  assert (a_program 100000 true) as Ha by (unfold a_program; left).
  assert ((p <~ sender_options 100000 true; add_help p) = inr (sender_parser 100000 true)) as Hq by reflexivity.
  assert (items_check (options (sender_parser 100000 true)) sent_items = true) as Hi by (vm_compute; reflexivity).
  assert (sent_items ≫= render (options (sender_parser 100000 true)) = ["--server=10.0.0.9"; "--sp"; "70000"; "-d"; "5"])
    as Er by (vm_compute; reflexivity).
  destruct (sender_command_line 100000 true "prog" sent_items (sender_parser 100000 true) Ha Hq (items_checked _ _ Hi) eq_refl)
    as [H1 H2]. rewrite Er in H1. split; [exact H1|].
  refine (H2 [] _ _ _); [discriminate| |vm_compute; lia].
  vm_compute. repeat constructor; discriminate.
Defined.

(** A port out of range on the line leaves none: this line has one in range. *)
Lemma receiver_port_witness :
  let a := mkReceiverArgs "10.0.4.2" 7777 210000 0 "1" in
  receiver_args 210000 ["prog"; "-p"; "7777"] = inr (inr a) /\ a_port (host_port a).
Proof.
  assert (receiver_args 210000 ["prog"; "-p"; "7777"] = inr (inr (mkReceiverArgs "10.0.4.2" 7777 210000 0 "1"))) as H
    by (vm_compute; reflexivity).
  split; [exact H|]. exact (proj1 (receiver_port 210000 ["prog"; "-p"; "7777"] _ H)).
Defined.

(** The exit status of a program that does not get past its options. *)
Definition exit_status {A B C} (r : A + (B + C)) : option B := match r with inr (inl b) => Some b | _ => None end.

Example receiver_port_rejected :
  exit_status (receiver_args 210000 ["prog"; "-p"; "70000"]) = Some 1.
Proof. vm_compute. reflexivity. Qed.
