(* ===== verification/MininetPrograms.v ===== *)
(** * The emulation's main programs: [mininet-webrtc/t_{sender,receiver}.cc]

    Each builds its end point, binds it and calls [Process] until the time is up
    or a signal has come.  WebRTC's threads and the generator's call the end
    point meanwhile: [others], a list of computations, says what they do after
    each round (a computation between two rounds, since every method locks what
    it shares), and its length bounds the rounds. *)

From Stdlib Require Import Ascii.
From S2P Require Import Prelude Stream Crc32 SimProto StdMap Platform Posix RazorPosix AppHeader Mininet MininetMsgs MininetProps MininetVideo MininetSafe VideoGen Programs.
Open Scope Z_scope.

(** ** The kernel and the signals of a world with a generator in it *)

Definition vg_call {B A} (f : B -> A * B) (w : vg_world B) : A * vg_world B :=
  let '(r, b) := f (vg_base w) in (r, mkVg b (vg w)).

#[export] Instance vg_kernel {B} `{Kernel B} : Kernel (vg_world B) := {|
  sys_socket d t p := vg_call (sys_socket d t p);
  sys_setsockopt s l n v := vg_call (sys_setsockopt s l n v);
  sys_bind s a := vg_call (sys_bind s a);
  sys_listen s n := vg_call (sys_listen s n);
  sys_getfl s := vg_call (sys_getfl s);
  sys_setfl s n := vg_call (sys_setfl s n);
  sys_close s := vg_do (sys_close s);
  sys_pause s us := vg_do (sys_pause s us)
|}.

#[export] Instance vg_signals {B} `{Signals B} : Signals (vg_world B) := vg_call run_status.

(** ** The programs *)

Section Programs.
Context `{P : Platform} (be : Z).
Context {B : Type} `{ML : Millis B} `{TQ : TaskQueue B} `{FS : Files B} `{HP : Heap} `{SK : Sockets B} `{RTC : Webrtc B}.

Local Abbreviation G := (vg_world B).
Context `{KN : Kernel B} `{SG : Signals B} `{IN : Inet} `{ST : Stack}.

Local Abbreviation endpoint := (@Endpoint G).
Local Abbreviation sender := (@Sender G).
Local Abbreviation receiver := (@Receiver G).

Definition runTime : Z := 200000.

(** [su_udp_create(ip, port, &fd_)], its result unused. *)
Definition bind_end (ip : list Z) (port : Z) : M endpoint unit := fun e =>
  match RazorPosix.su_udp_create (Some ip) port (ep_world e) with
  | (Ok fd, w) => (Ok tt, mkEndpoint w fd (ep_dst e) (ep_stream e))
  | (Fail, w) => (Ok tt, ep_upd_world w e)
  | (Stuck, w) => (Stuck, ep_upd_world w e)
  end.

Definition Sender_Bind (ip : list Z) (port : Z) : M sender unit := s_on_end (bind_end ip port).
Definition Receiver_Bind (ip : list Z) (port : Z) : M receiver unit := r_on_end (bind_end ip port).

Definition end_run_status {S} (world : S -> endpoint) (upd : endpoint -> S -> S) : M S Z := fun s =>
  let '(r, w) := run_status (ep_world (world s)) in (Ok r, upd (ep_upd_world w (world s)) s).

Definition sender_status : M sender Z := end_run_status s_end s_set_end.
Definition receiver_status : M receiver Z := end_run_status r_end r_set_end.

(** [while(run_status){ sender.Process(); ... }] *)
Fixpoint sender_loop (stop : Z) (others : list (M sender unit)) : M sender unit :=
  match others with
  | [] => mstuck
  | other :: others =>
      status ← sender_status;
      if status =? 0 then mret tt
      else
        Sender_Process be;;
        now ← s_now;
        let now := u32 now in
        if stop <? now then mret tt else other;; sender_loop stop others
  end.

(** Up to the reading of the clock. *)
Definition sender_ready : M sender Z :=
  SetEncoder;;
  Sender_Bind (chars "10.0.0.1") 1234;;
  SetPeer (chars "10.0.4.2:4321" ++ [0]);;
  now ← s_now;
  mret (u32 now).

Definition sender_started : M sender unit :=
  s_do (SetLogFile "webrtc");;
  Start.

Definition sender_main (others : list (M sender unit)) : M sender unit :=
  now ← sender_ready;
  let stop := u32 (now + runTime) in
  sender_started;;
  sender_loop stop others;;
  Stop;;
  s_do (sys_pause 1 0);;
  Sender_destroy.

(** [dst] is what the sender's peer was before it had one; [minR] what the
    generator's smallest rate was. *)
Definition sender_object (dst : su_addr) (minR : Z) (b : B) : sender :=
  new_sender (mkVg b (new_video_generator 25 minR)) 0 dst.

(** [while(run_status&&!receiver.IsStop()) receiver.Process();] *)
Fixpoint receiver_loop (others : list (M receiver unit)) : M receiver unit :=
  match others with
  | [] => mstuck
  | other :: others =>
      status ← receiver_status;
      if status =? 0 then mret tt
      else
        stop ← IsStop;
        if stop : bool then mret tt
        else Receiver_Process be;; other;; receiver_loop others
  end.

Definition receiver_main (others : list (M receiver unit)) : M receiver unit :=
  Receiver_Bind (chars "10.0.4.2") 4321;;
  SetRunDuration runTime;;
  receiver_loop others;;
  Receiver_Stop;;
  Receiver_destroy.

End Programs.

(** ** How long they run *)

#[export] Instance vg_sockets_ok {B} `{SO : SocketsOk B} : SocketsOk (vg_world B) (H := vg_sockets).
Proof.
  intros fd n w. cbn. pose proof (recvfrom_ok fd n (vg_base w)) as Hr.
  destruct (sys_recvfrom fd n (vg_base w)) as [[r d] b]. exact Hr.
Qed.

Section Runs.
Context `{PO : PlatformOk} (be : Z).
Context {B : Type} `{ML : Millis B} `{TQ : TaskQueue B} `{FS : Files B} `{HP : Heap} `{SO : SocketsOk B} `{RTC : Webrtc B}
  `{KN : Kernel B} `{SG : Signals B} `{IN : Inet} `{ST : Stack} `{STO : !StackOk ST}.

Local Abbreviation G := (vg_world B).
Local Abbreviation endpoint := (@Endpoint G).
Local Abbreviation sender := (@Sender G).
Local Abbreviation receiver := (@Receiver G).

Context (memory : has_memory) (network : network_ok (W := G) be) (clock : clock_64 (W := G))
  (segment_bytes : bytes_ok (seg_data stack_segment))
  (heap : forall n, 0 <= n -> zlen (heap_bytes n) = n /\ bytes_ok (heap_bytes n)).

(** No signal comes. *)
Definition quiet : Prop := forall b : B, (run_status b).1 <> 0.

Lemma vg_call_vg {A} (f : B -> A * B) (w : G) : vg (vg_call f w).2 = vg w.
Proof. unfold vg_call. by destruct (f (vg_base w)). Qed.

Lemma noblocking_vg fd (w : G) : exists w', Posix.su_socket_noblocking fd w = (Ok tt, w') /\ vg w' = vg w.
Proof.
  unfold Posix.su_socket_noblocking, call, ignore, mbind, M_bind. cbn [sys_getfl sys_setfl vg_kernel].
  pose proof (vg_call_vg (sys_getfl fd) w) as Hv. destruct (vg_call (sys_getfl fd) w) as [v w1].
  eexists. split; [reflexivity|]. by rewrite vg_call_vg.
Qed.

Lemma bind_end_ok ip port (e : endpoint) :
  exists e', bind_end ip port e = (Ok tt, e') /\ ep_stream e' = ep_stream e /\ vg (ep_world e') = vg (ep_world e).
Proof.
  unfold bind_end, RazorPosix.su_udp_create.
  pose proof (udp_create_eq (128 * 1024) (Some ip) port (ep_world e)) as Hc.
  cbn [sys_socket sys_setsockopt sys_bind vg_kernel] in Hc.
  pose proof (vg_call_vg (sys_socket AF_INET SOCK_DGRAM 0) (ep_world e)) as H1.
  destruct (vg_call _ (ep_world e)) as [s w1]. cbv zeta in Hc.
  set (w2 := (vg_call _ (vg_call _ w1).2).2) in Hc.
  assert (vg w2 = vg w1) as H2 by (unfold w2; by rewrite !vg_call_vg).
  pose proof (vg_call_vg (sys_bind s (mkAddr AF_INET (htons port) (bind_address (Some ip)))) w2) as H3.
  destruct (vg_call _ w2) as [b w3]. cbn [snd] in *. rewrite Hc.
  destruct (b <? 0); [eexists; split; [reflexivity|]; split; [done|cbn; congruence]|].
  destruct (noblocking_vg s w3) as (w4 & E & H4). rewrite (M_bind_ok _ _ _ _ _ E).
  eexists. split; [reflexivity|]. split; [done|cbn; congruence].
Qed.

(** *** The sender's loop *)

(** What the clock reads in each round when all are run. *)
Fixpoint readings (others : list (M sender unit)) : M sender (list Z) :=
  match others with
  | [] => mret []
  | other :: others =>
      sender_status;;
      Sender_Process be;;
      now ← s_now;
      other;;
      ts ← readings others;
      mret (u32 now :: ts)
  end.

Lemma status_ok s : quiet -> tx_ok s -> exists n s', sender_status s = (Ok n, s') /\ tx_ok s' /\ n <> 0.
Proof.
  intros Hq [H1 H2 H3 H4 H5]. unfold sender_status, end_run_status. pose proof (Hq (vg_base (ep_world (s_end s)))) as Hn.
  unfold run_status at 1, vg_signals, vg_call. destruct (run_status _) as [n b]. exists n. eexists. split; [reflexivity|]. by split.
Qed.

Lemma loop_readings stop others : quiet -> Forall (safe tx_ok (fun _ => True)) others ->
  forall s, tx_ok s -> exists ts s1 s2, readings others s = (Ok ts, s1) /\ length ts = length others /\ Forall (in_u 32) ts /\
    sender_loop be stop others s = (if existsb (Z.ltb stop) ts then Ok tt else Stuck, s2).
Proof.
  intros Hq. induction 1 as [|other others Ho _ IH]; intros s Hs; [by exists [], s, s|].
  destruct (status_ok s Hq Hs) as (n & s1 & E1 & H1 & Hn).
  destruct (Sender_Process_safe be memory network clock s1 H1) as ([] & s2 & E2 & H2 & _).
  destruct (s_now_safe clock s2 H2) as (now & s3 & E3 & H3 & _).
  destruct (Ho s3 H3) as ([] & s4 & E4 & H4 & _).
  destruct (IH s4 H4) as (ts & s5 & s6 & E5 & Hl & Hts & El).
  exists (u32 now :: ts), s5. cbn [readings sender_loop].
  rewrite !(M_bind_ok _ _ _ _ _ E1), (proj2 (Z.eqb_neq _ _) Hn), !(M_bind_ok _ _ _ _ _ E2), !(M_bind_ok _ _ _ _ _ E3),
    (M_bind_ok _ _ _ _ _ E4), (M_bind_ok _ _ _ _ _ E5). cbn [existsb length]. cbv zeta.
  assert (in_u 32 (u32 now)) as Hu by (by apply wrap_range).
  destruct (stop <? u32 now).
  - exists s3. split_and!; [done|by rewrite Hl|by constructor|done].
  - exists s6. rewrite (M_bind_ok _ _ _ _ _ E4). split_and!; [done|by rewrite Hl|by constructor|done].
Qed.

(** *** What precedes it *)

(** The sender has its generator. *)
Definition set_up (s : sender) : Prop :=
  tx_ok s /\ has_target (vg (ep_world (s_end s))) = true /\ fs_ (vg (ep_world (s_end s))) = 25.

Lemma sender_ready_ok dst minR b : exists now s,
  sender_ready (sender_object dst minR b) = (Ok now, s) /\ set_up s /\ in_u 32 now.
Proof.
  destruct (init_stream memory) as ([Hs _] & _).
  set (s0 := sender_object dst minR b). assert (tx_ok s0) as H0 by (split; [exact Hs|by intros ? ? ?%not_elem_of_nil|done..]).
  set (s1 := (SetEncoder s0).2). assert (tx_ok s1) as H1 by (destruct H0; by split).
  unfold sender_ready. rewrite (M_bind_ok SetEncoder _ s0 tt s1) by done.
  destruct (bind_end_ok (chars "10.0.0.1") 1234 (s_end s1)) as (e & Eb & Est & Evg).
  unfold Sender_Bind. rewrite (M_bind_ok _ _ _ _ _ (s_on_end_ok _ _ _ _ Eb)).
  set (s2 := s_set_end e s1). assert (tx_ok s2) as H2.
  { destruct H1 as [He ? ? ? ?]. split; try done. unfold s2, end_ok. cbn. by rewrite Est. }
  destruct (razor_su_string_to_addr (chars "10.0.4.2:4321" ++ [0])) as [a|] eqn:Ea; [|vm_compute in Ea; discriminate].
  unfold SetPeer. rewrite Ea. set (s3 := s_set_end (ep_upd_dst a e) s2).
  assert (tx_ok s3) as H3 by (destruct H2; by split).
  rewrite (M_bind_ok _ _ s2 tt s3) by done.
  pose proof (s_now_eq s3) as En. unfold TimeMillis, vg_millis in En. destruct (TimeMillis _) as [t w] in En.
  cbv zeta in En. rewrite (M_bind_ok _ _ _ _ _ En). eexists _, _. split; [reflexivity|]. split; [|by apply wrap_range].
  destruct H3. split; [by split|]. cbn. by rewrite Evg.
Qed.

Lemma started_ok s : set_up s -> exists s', sender_started s = (Ok tt, s') /\ tx_ok s'.
Proof.
  intros (Hs & Ht & Hf). unfold sender_started. set (s1 := (s_do (SetLogFile "webrtc") s).2).
  assert (tx_ok s1) as H1 by (destruct Hs; by split). rewrite (M_bind_ok (s_do _) _ s tt s1) by done.
  apply Start_ends; try assumption. intros _.
  assert (exists file, vg (ep_world (s_end s1)) = vg_set_log true (vg_first_ (vg (ep_world (s_end s)))) file
    (vg (ep_world (s_end s)))) as [file Ev] by (unfold s1; cbn; unfold SetLogFile; destruct (grant_open _ _); by eexists).
  set (w1 := ep_world (s_end s1)) in *. set (w2 := vg_SetMinRate kInitialBitrateBps w1).
  change (src_Start _) with (Generate (vg_upd (vg_set_running true) w2)). unfold Generate. cbn [vg vg_upd vg_running_ vg_set_running].
  rewrite SendFrame_of; cbn [has_target vg_set_running vg_rate_ fs_ w2 vg_SetMinRate vg_upd vg vg_set_rates]; rewrite ?Ev;
    cbn [has_target vg_set_log fs_]; rewrite ?Hf; try done.
  apply Forall_singleton. unfold frame_of, frame_ok. cbn [vf_payload_type vf_data vf_len].
  change (kInitialBitrateBps / (8 * 25)) with 2500. destruct (heap 2500) as [Hl Hb]; [lia|]. rewrite Hl. split_and!; [lia..|exact Hb|done].
Qed.

(** The calls other threads make. *)
Definition other_ok (es : list (tx_event (W := G))) : Prop := Forall (fun e => tx_event_ok e /\ e <> tx_start) es.

Lemma other_safe es : other_ok es -> safe tx_ok (fun _ => True) (run_calls (tx_call be) es).
Proof.
  intros Hes. apply (run_calls_safe tx_ok (tx_call be) (fun e => tx_event_ok e /\ e <> tx_start)); [|done].
  intros e [He Hn]. apply tx_call_safe; try assumption; [apply vg_sockets_ok|congruence].
Qed.

(** The clock before the run and in each round. *)
Definition main_readings (others : list (M sender unit)) : M sender (Z * list Z) :=
  now ← sender_ready;
  sender_started;;
  ts ← readings others;
  mret (now, ts).

Lemma sender_main_ok ess dst minR b : quiet -> Forall other_ok ess ->
  let others := run_calls (tx_call be) <$> ess in
  exists now ts s1 s2, main_readings others (sender_object dst minR b) = (Ok (now, ts), s1) /\
    in_u 32 now /\ length ts = length ess /\ Forall (in_u 32) ts /\
    sender_main be others (sender_object dst minR b) =
      (if existsb (Z.ltb (u32 (now + runTime))) ts then Ok tt else Stuck, s2).
Proof.
  intros Hq Hess others. destruct (sender_ready_ok dst minR b) as (now & s & E & Hs & Hn).
  destruct (started_ok s Hs) as (s1 & E1 & H1).
  assert (Forall (safe tx_ok (fun _ => True)) others) as Ho.
  { apply Forall_fmap. eapply Forall_impl; [exact Hess|]. intros es. apply other_safe. }
  destruct (loop_readings (u32 (now + runTime)) _ Hq Ho s1 H1) as (ts & s2 & s3 & Er & Hl & Hts & El).
  exists now, ts, s2. unfold others in Hl. rewrite length_fmap in Hl. unfold main_readings, sender_main.
  rewrite !(M_bind_ok _ _ _ _ _ E). cbv zeta. rewrite !(M_bind_ok _ _ _ _ _ E1), (M_bind_ok _ _ _ _ _ Er).
  destruct (existsb _ ts).
  - rewrite (M_bind_ok _ _ _ _ _ El). set (s4 := (Stop s3).2).
    assert (Stop s3 = (Ok tt, s4)) as Es
      by (unfold s4, Stop, s_upd_running, mbind, M_bind; cbn; by destruct (has_encoder s3)).
    rewrite (M_bind_ok _ _ _ _ _ Es). eexists. by split_and!.
  - exists s3. rewrite (M_bind_stuck _ _ _ _ El). by split_and!.
Qed.

(** *** The receiver's loop *)

(** Nothing arrives. *)
Definition silent : Prop := forall fd n ms (w : G), (Platform.su_udp_recv fd n ms w).1.1 <= 0.

Definition unheard (r : receiver) : Prop := session_connected_ r = false.

Lemma receive_silent (e : endpoint) : silent -> exists w, receive e = (Ok None, ep_upd_world w e).
Proof.
  intros Hsil. unfold receive. destruct (bin_stream_init stack_stream) as [c st].
  pose proof (Hsil (ep_fd e) (size st) 0 (ep_world e)) as Hle. destruct (Platform.su_udp_recv _ _ _ _) as [[n d] w]. cbn in Hle.
  rewrite (proj2 (Z.ltb_ge _ _)) by lia. by exists w.
Qed.

Lemma Receiver_Process_silent (r : receiver) : silent -> unheard r -> exists w,
  Receiver_Process be r = (Ok tt, r_set_end (ep_upd_world w (r_end r)) r).
Proof.
  intros Hsil Hu. unfold Receiver_Process. rewrite (M_bind_ok mget _ _ r r) by done. cbv beta. rewrite Hu.
  rewrite (M_bind_ok (mret tt) _ r tt r) by done. destruct (receive_silent (r_end r) Hsil) as [w E]. exists w.
  by rewrite (M_bind_ok _ _ _ _ _ (r_on_end_ok _ _ _ _ E)).
Qed.

Lemma receiver_status_ok r : quiet -> unheard r -> exists n r', receiver_status r = (Ok n, r') /\ unheard r' /\ n <> 0.
Proof.
  intros Hq Hu. unfold receiver_status, end_run_status. pose proof (Hq (vg_base (ep_world (r_end r)))) as Hn.
  unfold run_status at 1, vg_signals, vg_call. destruct (run_status _) as [n b]. exists n. by eexists.
Qed.

Lemma receiver_loop_silent others : quiet -> silent -> Forall (safe unheard (fun _ => True)) others ->
  forall r, unheard r -> exists r', receiver_loop be others r = (Stuck, r').
Proof.
  intros Hq Hsil. induction 1 as [|other others Ho _ IH]; intros r Hr; [by exists r|]. cbn [receiver_loop].
  destruct (receiver_status_ok r Hq Hr) as (n & r1 & E1 & H1 & Hn).
  rewrite (M_bind_ok _ _ _ _ _ E1), (proj2 (Z.eqb_neq _ _) Hn).
  rewrite (M_bind_ok IsStop _ r1 false r1) by (unfold IsStop; rewrite (M_bind_ok mget _ _ r1 r1) by done; cbv beta; by rewrite H1).
  destruct (Receiver_Process_silent r1 Hsil H1) as [w E2]. rewrite (M_bind_ok _ _ _ _ _ E2).
  destruct (Ho (r_set_end (ep_upd_world w (r_end r1)) r1) H1) as ([] & r2 & E3 & H2 & _).
  rewrite (M_bind_ok _ _ _ _ _ E3). by apply IH.
Qed.

(** C37: How long the emulation's programs run when no signal comes, whatever the
    encoder and WebRTC call meanwhile and whatever datagrams arrive, provided
    none is shorter than four bytes and no feedback in them is unparsable
    ([network_ok]; such a datagram stops the program).  Every round of the
    sender completes, and it leaves the loop, and then returns, in the first
    round whose reading of the clock exceeds [Stop], the 32-bit sum of the
    reading before the run and 200000.  That is 200 s later as long as the sum
    fits.  In the last 200 s before the clock's lower 32 bits wrap (every 49.7
    days) [Stop] is smaller than the reading before the run, and the sender ends
    after one round; when the sum is the largest 32-bit value it never ends.  A
    receiver that hears nothing never ends. *)
Theorem emulation_run_time ess dst minR b : quiet -> Forall other_ok ess ->
  let others := run_calls (tx_call be) <$> ess in
  (exists now ts s1 s2,
    let stop := u32 (now + runTime) in
    main_readings others (sender_object dst minR b) = (Ok (now, ts), s1) /\ length ts = length ess /\
    sender_main be others (sender_object dst minR b) = (if existsb (Z.ltb stop) ts then Ok tt else Stuck, s2) /\
    (now + runTime < 2 ^ 32 -> stop = now + runTime) /\
    (2 ^ 32 <= now + runTime -> forall t, head ts = Some t -> now <= t -> existsb (Z.ltb stop) ts = true) /\
    (now + runTime = 2 ^ 32 - 1 -> existsb (Z.ltb stop) ts = false)) /\
  (forall fd r_dst r_others, silent -> Forall (safe unheard (fun _ => True)) r_others -> exists r,
    receiver_main be r_others (new_receiver (mkVg b (new_video_generator 25 minR)) fd r_dst) = (Stuck, r)).
Proof.
  intros Hq Hess others. split.
  - destruct (sender_main_ok ess dst minR b Hq Hess) as (now & ts & s1 & s2 & E1 & Hn & Hl & Hts & E2).
    exists now, ts, s1, s2. cbv zeta. split_and!; [done..| | |].
    + intros Hlt. apply wrap_id. unfold in_u, runTime in *. lia.
    + intros Hge t Ht Hle. destruct ts as [|t' ts]; [done|]. injection Ht as ->. cbn [existsb].
      assert (u32 (now + runTime) = now + runTime - 2 ^ 32) as ->.
      { unfold u32, wrap. unfold in_u, runTime in *. symmetry. apply (Z.mod_unique_pos _ _ 1); lia. }
      unfold runTime. by rewrite (proj2 (Z.ltb_lt _ _)) by (change (2 ^ 32) with 4294967296; lia).
    + intros Heq. rewrite Heq, wrap_id by (unfold in_u; lia). clear - Hts.
      induction Hts as [|t ts Ht _ IH]; [done|]. cbn [existsb]. rewrite IH. unfold in_u in Ht.
      by rewrite (proj2 (Z.ltb_ge _ _)) by lia.
  - intros fd r_dst r_others Hsil Ho. set (r0 := new_receiver _ fd r_dst). unfold receiver_main, Receiver_Bind.
    destruct (bind_end_ok (chars "10.0.4.2") 4321 (r_end r0)) as (e & Eb & _).
    rewrite (M_bind_ok _ _ _ _ _ (r_on_end_ok _ _ _ _ Eb)). set (r1 := r_set_end e r0).
    rewrite (M_bind_ok (SetRunDuration runTime) _ r1 tt (SetRunDuration runTime r1).2) by done.
    destruct (receiver_loop_silent r_others Hq Hsil Ho (SetRunDuration runTime r1).2) as [r2 El]; [done|].
    exists r2. by rewrite (M_bind_stuck _ _ _ _ El).
Qed.

End Runs.
