(* ===== verification/MininetSafeDemo.v ===== *)
(** * The emulation's end points under noise, and behind the RTP module

    The network of [MininetDemo], bringing the same ten bytes whenever it is
    asked. *)

From S2P Require Import Prelude Stream Crc32 SimProto StdMap Platform AppHeader Mininet MininetMsgs MininetProps MininetVideo VideoGen MininetDemo MininetSafe FakeRtp Posix Programs MininetPrograms.
Open Scope Z_scope.

Definition noise : list Z := [1; 2; 3; 4; 5; 6; 7; 8; 9; 10].

Definition noisy_sockets : Sockets mini_world := {|
  sys_recvfrom _ n w := if 10 <=? n then (10, Some (there, noise), w) else (-1, None, w);
  sys_sendto _ buf _ w := (zlen buf, mkMini (now_ms w) (out w ++ [buf]) (told w));
  sys_select _ _ w := (0, false, w)
|}.

Lemma noisy_sockets_ok : SocketsOk mini_world (H := noisy_sockets).
Proof.
  intros fd n w. cbn. destruct (Z.leb_spec 10 n) as [Hn|Hn]; [|by intros ?]. intros _. exists there, noise.
  split; [done|]. split; [done|]. split; [done|]. repeat constructor; vm_compute; congruence.
Defined.

(** The clock of [MininetDemo], kept to 64 bits. *)
Definition clock64 : Millis mini_world := fun w => (s64 (now_ms w), w).

#[export] Instance mini_source : VideoSource mini_world := {|
  src_RegisterVideoTarget w := w;
  src_SetMinRate _ w := w;
  src_Start w := ([mkFrame 0 0 (replicate 2500 9) 2500], w);
  src_Stop w := w;
  src_ChangeRate _ w := w
|}.

Lemma noise_acceptable {W} {RTC : Webrtc W} : acceptable (P := le_platform) (RTC := RTC) 0 noise.
Proof.
  split; [vm_compute; discriminate|]. intros r h r1 fb r2 (Hr & _ & Hc) E.
  pose proof (sim_decode_header_cases (P := le_platform) 0 r (ztake 6 noise) (zdrop 6 noise) Hr Hc) as Hd.
  pose proof (content_len r Hr) as Hl. rewrite Hc in Hl. change (zlen noise) with 10 in Hl. rewrite <- Hl in Hd.
  specialize (Hd eq_refl). change (10 <? 4) with false in Hd. cbv iota in Hd.
  destruct (_ =? _) eqn:Eq in Hd; [vm_compute in Eq; discriminate|congruence].
Qed.

Lemma ends_survive_witness :
  let _ := noisy_sockets in
  exists s, run_calls (tx_call (P := le_platform) (ML := clock64) (RTC := mini_webrtc) 0)
      [tx_encoder; tx_start; tx_process; tx_packet 1 tt; tx_padding 2000 tt; tx_process; tx_stop]
      (new_sender (P := le_platform) (mkMini 5000 [] []) 3 there) = (Ok tt, s) /\ tx_ok s.
Proof.
  refine (proj1 (proj2 (@ends_survive le_platform _ 0 mini_world clock64 noisy_sockets noisy_sockets_ok mini_webrtc mini_source
    mini_stack mini_stack_ok _ _ _ _ [rx_process; rx_feedback [1; 2; 3]; rx_is_stop]
    [tx_encoder; tx_start; tx_process; tx_packet 1 tt; tx_padding 2000 tt; tx_process; tx_stop]
    (mkMini 5000 [] []) (mkMini 5040 [] []) 3 4 there there _ _ _ _))).
  - eexists. reflexivity.
  - intros fd w n a bs w'. cbn. intros [= <- <- <- <-] _. apply noise_acceptable.
  - intros w. by apply swrap_range.
  - apply zeros_ok.
  - intros ssrc fb. constructor; [by apply wrap_range|]. apply Forall_fmap, Forall_true. intros b. by apply wrap_range.
  - intros w. apply Forall_singleton. split; [split; [discriminate|reflexivity]|]. split; [vm_compute; discriminate|].
    split; [apply Forall_replicate; split; [discriminate|reflexivity]|split; [discriminate|reflexivity]].
  - repeat constructor.
  - repeat constructor; vm_compute; congruence.
Defined.

(** ** A run in the last second before the clock wraps *)

#[local] Instance mini_kernel_ops : Kernel mini_world := {|
  sys_socket _ _ _ w := (3, w);
  sys_setsockopt _ _ _ _ w := (0, w);
  sys_bind _ _ w := (0, w);
  sys_listen _ _ w := (0, w);
  sys_getfl _ w := (2, w);
  sys_setfl _ _ w := (0, w);
  sys_close _ w := w;
  sys_pause _ _ w := w
|}.

#[local] Instance mini_signals : Signals mini_world := fun w => (1, w).
#[local] Instance mini_files : Files mini_world := fun _ w => (true, w).
#[local] Instance mini_inet : Inet := fun ip => zlen ip.

Definition late_world : mini_world := mkMini (2 ^ 32 - 1000) [] [].

Example late_readings :
  let _ := noisy_sockets in let _ := clock64 in
  (main_readings (P := le_platform) (B := mini_world) (RTC := mini_webrtc) 0 [mret tt]
    (sender_object (P := le_platform) there 77 late_world)).1 = Ok (4294966296, [4294966296]).
Proof. vm_compute. reflexivity. Qed.

Lemma emulation_run_time_witness :
  let _ := noisy_sockets in let _ := clock64 in
  exists s, sender_main (P := le_platform) (B := mini_world) (RTC := mini_webrtc) 0
    [mret tt] (sender_object (P := le_platform) there 77 late_world) = (Ok tt, s).
Proof.
  destruct (@emulation_run_time le_platform _ 0 mini_world clock64 mini_tasks mini_files mini_heap noisy_sockets noisy_sockets_ok
    mini_webrtc mini_kernel_ops mini_signals mini_inet mini_stack mini_stack_ok) with (ess := [[]] : list (list (@tx_event _ (vg_webrtc (RTC := mini_webrtc)))))
    (dst := there) (minR := 77) (b := late_world) as [(now & ts & s1 & s2 & E & Hl & Em & _ & Hw & _) _].
  - eexists. reflexivity.
  - intros fd w n a bs w'. cbn. intros [= <- <- <- <-] _. apply noise_acceptable.
  - intros w. by apply swrap_range.
  - intros n Hn. unfold heap_bytes, mini_heap. rewrite zlen_replicate. split; [lia|]. apply zeros_ok.
  - by intros b.
  - repeat constructor.
  - exists s2. pose proof (f_equal fst E) as Er. pose proof late_readings as Hr. cbv zeta in Hr.
    assert (Ok (now, ts) = Ok (4294966296, [4294966296])) as [= -> ->] by (rewrite <- Hr; symmetry; exact Er).
    rewrite (Hw ltac:(by vm_compute) 4294966296 eq_refl (Z.le_refl _)) in Em. exact Em.
Defined.

(** ** The sender behind the module *)

#[local] Existing Instance le_platform.
#[local] Instance demo_interface : SendInterface unit (Sender (W := mini_world)) :=
  sender_interface (P := le_platform) (RTC := mini_webrtc) 0 4.

Definition pacer_calls : list (@rtp_call unit) :=
  [CallSetSSRC 1234; CallSSRC; CallSending SendingMedia; CallPacket 1234 9 5000 false tt; CallRTT (7, 7, 7, 7)].

Lemma rtp_forwards_witness :
  exists m s, run_rtp pacer_calls (new_rtp (Some (sender_with full_segment))) =
      (Ok [Answer Void; Answer (Num 1234); Answer (Bool true); Answer (Bool true); Times 0 (0, 0, 0, 0)], m) /\
    FakeRtp.sender_ m = Some s /\ told (ep_world (s_end s)) = [Added 9 1030; SentPacket 9 5000].
Proof.
  destruct (rtp_forwards pacer_calls (sender_with full_segment) 0 (new_rtp (Some (sender_with full_segment)))
    (conj eq_refl eq_refl)) as [Hr _].
  assert ((run_spec 0 pacer_calls (sender_with full_segment)).1 =
    Ok [Answer Void; Answer (Num 1234); Answer (Bool true); Answer (Bool true); Times 0 (0, 0, 0, 0)]) as E1
    by (vm_compute; reflexivity).
  assert (told (ep_world (s_end (run_spec 0 pacer_calls (sender_with full_segment)).2)) = [Added 9 1030; SentPacket 9 5000]) as E2
    by (vm_compute; reflexivity).
  destruct (run_spec 0 pacer_calls (sender_with full_segment)) as [r s]. cbn [fst snd] in E1, E2.
  destruct Hr as (m & ssrc & Em & Es & _). exists m, s. subst r. split; [exact Em|]. split; [exact Es|exact E2].
Defined.
