(* ===== verification/TestPrograms.v ===== *)
(** * Demonstration programs: [scoped_ptr/main.cpp], [test_thread_module.cc],
      [mininet-webrtc/test]

    The program of the [scoped_ptr] library moves an owning pointer through two
    functions and polls an alarm on the system clock for 200 ms.  [TestModule]
    and [TestSender] report the milliseconds between the calls they get, from
    WebRTC's process thread and from the video generator; the loops of their
    programs do nothing but watch the clock. *)

From stdpp Require Import gmap.
From S2P Require Import Prelude QuicTime Alarm Clock ArenaPtr Platform AppHeader Mininet VideoGen Programs MininetPrograms.
Import NullAlarm.
Open Scope Z_scope.

(** ** The pointers of [main.cpp]

    The variables are numbered: the global [g_alarm] is 0, [alarm] of
    [test_fun] 1, the parameter of [test_move2] 2, the argument of the alarm's
    constructor 3, the alarm's member 4; the two objects lie at [a] and [d]. *)

Definition test_move2 : list stmt := [MoveAssign 0 2].

Definition test_fun (a : Z) : list stmt :=
  [New 1 a kHeap; MoveConstruct 2 1] ++ test_move2 ++ [Destruct 2; Destruct 1].

Definition main_pointers (a d : Z) : list stmt :=
  [Empty 0] ++ test_fun a ++ [New 3 d kHeap; MoveConstruct 4 3; Destruct 3] ++ [Destruct 4; Destruct 0].

(** ** The alarm of [main.cpp] *)

Record poller (W : Type) := mkPoller { pl_world : W; pl_alarm : QuicAlarm NullDelegate unit }.
Arguments mkPoller {W}.
Arguments pl_world {W}.
Arguments pl_alarm {W}.

Section Polling.
Context {W : Type} `{TD : TimeOfDay W} `{SG : Signals W}.

Definition run_duration : Z := 200.

Definition on_alarm (m : M (QuicAlarm NullDelegate unit) unit) : M (poller W) unit := fun s =>
  let '(r, a) := m (pl_alarm s) in (r, mkPoller (pl_world s) a).

Definition clock_Now : M (poller W) QuicTime := fun s =>
  let '(t, w) := Now (pl_world s) in (Ok t, mkPoller w (pl_alarm s)).

Definition running : M (poller W) Z := fun s =>
  let '(r, w) := run_status (pl_world s) in (Ok r, mkPoller w (pl_alarm s)).

(** [while(running)]; the fuel bounds the rounds. *)
Fixpoint poll_loop (fuel : nat) (Stop : QuicTime) : M (poller W) unit :=
  match fuel with
  | O => mstuck
  | S fuel =>
      r ← running;
      if r =? 0 then mret tt
      else
        now ← clock_Now;
        if time_gt now Stop then mret tt
        else
          s ← mget;
          (if IsSet (pl_alarm s) && time_gt now (deadline (pl_alarm s)) then
             on_alarm Trigger;;
             on_alarm (Set_ (time_add now (FromMilliseconds 10)))
           else mret tt);;
          poll_loop fuel Stop
  end.

Definition new_poller (w : W) : poller W := mkPoller w (new_alarm (Some (mkNull 0)) tt).

Definition main_alarm (fuel : nat) : M (poller W) unit :=
  now ← clock_Now;
  let Stop := time_add now (FromMilliseconds run_duration) in
  on_alarm (Set_ (time_add now (FromMilliseconds 10)));;
  poll_loop fuel Stop.

(** *** When it fires *)

(** The times of the rounds up to [stop], whether the loop ended, the world
    then. *)
Fixpoint polled (fuel : nat) (stop : Z) (w : W) : list Z * bool * W :=
  match fuel with
  | O => ([], false, w)
  | S fuel =>
      let '(r, w) := run_status w in
      if r =? 0 then ([], true, w)
      else
        let '(now, w) := Now w in
        if stop <? time_ now then ([], true, w)
        else let '(ts, ended, w) := polled fuel stop w in (time_ now :: ts, ended, w)
  end.

(** The first time after the deadline, and so on from 10 ms after it. *)
Fixpoint firings (deadline : Z) (ts : list Z) : list Z :=
  match ts with
  | [] => []
  | t :: ts => if deadline <? t then t :: firings (t + 10000) ts else firings deadline ts
  end.

(** The deadline that is left. *)
Definition next_deadline (deadline : Z) (fs : list Z) : Z :=
  match last fs with Some t => t + 10000 | None => deadline end.

Hypothesis time_of_day_ok : forall w, let '((s, u), _) := gettimeofday w in 0 < s < 2 ^ 43 /\ 0 <= u < 1000000.

(** A reading of the clock: whole milliseconds. *)
Definition reading (t : Z) : Prop := 0 < t < 2 ^ 63 - 1000000 /\ t mod 1000 = 0.

Lemma Now_reading w : exists t w', Now w = (mkTime t, w') /\ reading t.
Proof.
  pose proof (time_of_day_ok w) as H. destruct (gettimeofday w) as [[s u] w'] eqn:E. destruct H as [Hs Hu].
  destruct (sys_clock_value w s u w' E ltac:(lia) Hu) as (t & E' & _ & Ht & _). exists t, w'. split; [done|].
  unfold reading. change (2 ^ 43) with 8796093022208 in Hs. change (2 ^ 63) with 9223372036854775808.
  rewrite Ht. split; [|by apply Z.mod_mul].
  pose proof (Z.div_mod (s * 1000000 + u) 1000 ltac:(lia)). pose proof (Z.mod_pos_bound (s * 1000000 + u) 1000 ltac:(lia)). lia.
Qed.

Lemma polled_readings fuel stop : forall w, Forall (fun t => reading t /\ t <= stop) (polled fuel stop w).1.1.
Proof.
  induction fuel as [|fuel IH]; intros w; [constructor|]. cbn [polled].
  destruct (run_status w) as [r w1]. destruct (r =? 0); [constructor|].
  destruct (Now_reading w1) as (t & w2 & -> & Ht). cbn [time_].
  destruct (Z.ltb_spec stop t); [constructor|]. specialize (IH w2).
  destruct (polled fuel stop w2) as [[ts ended] w3]. constructor; [done|exact IH].
Qed.

(** Eleven milliseconds apart at least: the clock counts whole ones. *)
Lemma firings_spaced stop ts : forall deadline, Forall (fun t => reading t /\ t <= stop) ts ->
  deadline mod 1000 = 0 -> deadline - 10000 <= stop ->
  11000 * zlen (firings deadline ts) <= stop - (deadline - 10000).
Proof.
  induction ts as [|t ts IH]; intros deadline H Hd Hs; [change (zlen _) with 0; lia|].
  apply Forall_cons in H as [[[Ht Hm] Hle] H]. cbn [firings]. destruct (Z.ltb_spec deadline t) as [Hlt|]; [|by apply IH].
  rewrite zlen_cons. assert ((t + 10000) mod 1000 = 0) as Hm' by (Z.to_euclidean_division_equations; lia).
  specialize (IH (t + 10000) H Hm' ltac:(lia)). Z.to_euclidean_division_equations. lia.
Qed.

Lemma next_deadline_cons d t fs : next_deadline d (t :: fs) = next_deadline (t + 10000) fs.
Proof. unfold next_deadline. rewrite last_cons. by destruct (last fs). Qed.

Lemma time_id t d : 0 <= t < 2 ^ 63 - 1000000 -> 0 <= d <= 1000 -> 
  time_add (mkTime t) (FromMilliseconds d) = mkTime (t + d * 1000).
Proof.
  intros Ht Hd. unfold time_add, FromMilliseconds. cbn [time_ time_offset_]. change (2 ^ 63) with 9223372036854775808 in Ht.
  rewrite !swrap_id; [done|lia| |lia|]; unfold in_s; change (2 ^ (64 - 1)) with 9223372036854775808; [|rewrite swrap_id]; try lia.
  unfold in_s. change (2 ^ (64 - 1)) with 9223372036854775808. lia.
Qed.

Definition alarm_at (n deadline : Z) : QuicAlarm NullDelegate unit := mkAlarm (Some (mkNull n)) (mkTime deadline) tt.

Lemma trigger_set w n deadline t : 0 < t < 2 ^ 63 - 1000000 -> 0 < deadline -> 0 <= n -> n + 1 < 2 ^ 31 ->
  (on_alarm Trigger;; on_alarm (Set_ (time_add (mkTime t) (FromMilliseconds 10)))) (mkPoller w (alarm_at n deadline)) =
    (Ok tt, mkPoller w (alarm_at (n + 1) (t + 10000))).
Proof.
  intros Ht Hd Hn Hn'. rewrite time_id by lia. unfold on_alarm, Trigger, Fire, Set_, set_deadline, alarm_at.
  unfold mbind, M_bind, mget, mmodify, mret, M_ret. cbn [pl_alarm pl_world].
  unfold IsSet, IsInitialized. cbn [deadline_ time_]. rewrite (proj2 (Z.eqb_neq 0 deadline)) by lia.
  cbn [negb delegate_ subclass OnAlarm null_delegate counter_ SetImpl null_alarm]. unfold mmodify.
  cbn [pl_alarm pl_world delegate_ deadline_ subclass]. rewrite swrap_id; [done|lia|].
  unfold in_s. change (2 ^ (32 - 1)) with (2 ^ 31). lia.
Qed.

(** The loop fires the alarm at the times of [firings]. *)
Lemma poll_loop_fires fuel stop : forall w n deadline, 0 < deadline -> 0 <= n -> n + Z.of_nat fuel < 2 ^ 31 ->
  let '(ts, ended, w') := polled fuel stop w in
  let fs := firings deadline ts in
  poll_loop fuel (mkTime stop) (mkPoller w (alarm_at n deadline)) =
    (if ended then Ok tt else Stuck, mkPoller w' (alarm_at (n + zlen fs) (next_deadline deadline fs))).
Proof.
  induction fuel as [|fuel IH]; intros w n deadline Hd Hn Hf; [cbn; by rewrite Z.add_0_r|].
  cbn [polled poll_loop]. unfold running at 1, mbind at 1, M_bind at 1. cbn [pl_world].
  destruct (run_status w) as [r w1]. destruct (r =? 0); [cbn; by rewrite Z.add_0_r|].
  unfold clock_Now, mbind at 1, M_bind at 1. cbn [pl_world pl_alarm].
  destruct (Now_reading w1) as (t & w2 & -> & Ht). unfold time_gt, time_lt. cbn [time_].
  destruct (Z.ltb_spec stop t); [cbn; by rewrite Z.add_0_r|].
  rewrite (M_bind_ok mget _ _ (mkPoller w2 (alarm_at n deadline)) (mkPoller w2 (alarm_at n deadline))) by done.
  cbv beta zeta. cbn [pl_alarm]. unfold IsSet, IsInitialized, Alarm.deadline. cbn [deadline_ alarm_at time_].
  rewrite (proj2 (Z.eqb_neq 0 deadline)) by lia. cbn [negb andb firings].
  destruct (deadline <? t) eqn:Edue.
  - rewrite (M_bind_ok _ _ _ tt (mkPoller w2 (alarm_at (n + 1) (t + 10000)))) by (apply trigger_set; [by destruct Ht|lia..]).
    specialize (IH w2 (n + 1) (t + 10000) ltac:(unfold reading in Ht; lia) ltac:(lia) ltac:(lia)).
    destruct (polled fuel stop w2) as [[ts ended] w3]. rewrite IH. cbn [firings]. rewrite Edue. cbv zeta.
    by rewrite zlen_cons, next_deadline_cons, Z.add_assoc.
  - rewrite (M_bind_ok _ _ _ tt (mkPoller w2 (alarm_at n deadline))) by done.
    specialize (IH w2 n deadline Hd Hn ltac:(lia)). destruct (polled fuel stop w2) as [[ts ended] w3].
    rewrite IH. cbn [firings]. by rewrite Edue.
Qed.

(** The program of [main.cpp]: the alarm fires at the first reading of the
    clock more than 10 ms after it was set, every time until the reading passes
    200 ms; at most 18 times, since the clock counts whole milliseconds.  The
    program ends when a reading passes them or a signal has come, within the
    rounds it is given. *)
Theorem alarm_polled fuel w : Z.of_nat fuel < 2 ^ 31 ->
  let '(now, w1) := Now w in
  let '(ts, ended, w2) := polled fuel (time_ now + 200000) w1 in
  let fs := firings (time_ now + 10000) ts in
  main_alarm fuel (new_poller w) =
    (if ended then Ok tt else Stuck, mkPoller w2 (alarm_at (zlen fs) (next_deadline (time_ now + 10000) fs))) /\
  zlen fs <= 18.
Proof.
  intros Hf. destruct (Now_reading w) as (t & w1 & E & Ht). rewrite E. cbn [time_].
  pose proof (poll_loop_fires fuel (t + 200000) w1 0 (t + 10000)) as H.
  pose proof (polled_readings fuel (t + 200000) w1) as Hr.
  destruct (polled fuel (t + 200000) w1) as [[ts ended] w2]. destruct Ht as [Ht Hm]. split.
  - unfold main_alarm, clock_Now. unfold mbind at 1, M_bind at 1. cbn [pl_world new_poller]. rewrite E. cbv beta zeta.
    change run_duration with 200. rewrite !time_id by lia.
    change (t + 200 * 1000) with (t + 200000). change (t + 10 * 1000) with (t + 10000).
    rewrite (M_bind_ok _ _ _ tt (mkPoller w1 (alarm_at 0 (t + 10000)))) by done. apply H; lia.
  - pose proof (firings_spaced (t + 200000) ts (t + 10000) Hr
      ltac:(Z.to_euclidean_division_equations; lia) ltac:(lia)). lia.
Qed.
End Polling.

(** The object moved into the global lives until the program ends; then none
    does. *)
Example main_pointers_end :
  live (run_stmts ([Empty 0] ++ test_fun 4096) (mkMemory ∅ ∅)).2 = {[ 4096 := kHeap ]} /\
  (run_stmts (main_pointers 4096 8192) (mkMemory ∅ ∅)).1 = Ok tt /\
  live (run_stmts (main_pointers 4096 8192) (mkMemory ∅ ∅)).2 = ∅.
Proof. by vm_compute. Qed.

(** ** Gaps *)

(** What a class that keeps the last reading of the clock, 0 before the first
    one, makes of a series of readings. *)
Fixpoint gaps (last : Z) (ts : list Z) : list Z :=
  match ts with
  | [] => []
  | t :: ts => u32 (t - (if last =? 0 then t else last)) :: gaps t ts
  end.

(** [n] readings of the clock. *)
Fixpoint millis `{Millis W} (n : nat) (w : W) : list Z * W :=
  match n with
  | O => ([], w)
  | S n => let '(t, w) := TimeMillis w in let '(ts, w) := millis n w in (t :: ts, w)
  end.

(** ** [TestModule] *)

Record TestModule (W : Type) := mkTestModule { tm_world : W; first_ : bool; tm_last_ : Z; tm_printed : list Z }.
Arguments mkTestModule {W}.
Arguments tm_world {W}.
Arguments first_ {W}.
Arguments tm_last_ {W}.
Arguments tm_printed {W}.

Section Module_.
Context {W : Type} `{ML : Millis W} `{SG : Signals W}.

Definition new_test_module (w : W) : TestModule W := mkTestModule w true 0 [].

Definition TimeUntilNextProcess : M (TestModule W) Z := fun s =>
  (Ok (if first_ s then 0 else 10), mkTestModule (tm_world s) false (tm_last_ s) (tm_printed s)).

(** [clock_] is the real-time clock, never null; [%d] prints the unsigned
    difference as a signed one. *)
Definition Process : M (TestModule W) unit := fun s =>
  let '(now, w) := TimeMillis (tm_world s) in
  let last := if tm_last_ s =? 0 then now else tm_last_ s in
  let delta := u32 (now - last) in
  (Ok tt, mkTestModule w (first_ s) now (tm_printed s ++ [s32 delta])).

(** [while(run_status)]: the process thread's calls of the module are [others],
    one between two rounds. *)
Definition tm_call {A} (f : W -> A * W) : M (TestModule W) A := fun s =>
  let '(r, w) := f (tm_world s) in (Ok r, mkTestModule w (first_ s) (tm_last_ s) (tm_printed s)).

Fixpoint module_loop (stop : Z) (others : list (M (TestModule W) unit)) : M (TestModule W) unit :=
  match others with
  | [] => mstuck
  | other :: others =>
      status ← tm_call run_status;
      if status =? 0 then mret tt
      else
        now ← tm_call TimeMillis;
        if stop <? u32 now then mret tt else other;; module_loop stop others
  end.

Definition module_runTime : Z := 100.

Definition module_main (others : list (M (TestModule W) unit)) : M (TestModule W) unit :=
  now ← tm_call TimeMillis;
  module_loop (u32 (u32 now + module_runTime)) others.

(** The module prints the gaps between its calls. *)
Lemma module_prints n : forall s,
  mfor n 0 (fun _ => Process) s =
    (Ok tt, let '(ts, w) := millis n (tm_world s) in
            mkTestModule w (first_ s) (default (tm_last_ s) (last ts)) (tm_printed s ++ map s32 (gaps (tm_last_ s) ts))).
Proof.
  generalize 0%nat as i. induction n as [|n IH]; intros i s; cbn [mfor millis].
  { cbn. rewrite app_nil_r. by destruct s. }
  destruct (TimeMillis (tm_world s)) as [t w] eqn:E.
  rewrite (M_bind_ok _ _ _ tt (mkTestModule w (first_ s) t
    (tm_printed s ++ [s32 (u32 (t - (if tm_last_ s =? 0 then t else tm_last_ s)))]))) by (unfold Process; by rewrite E).
  rewrite IH. cbn [tm_world first_ tm_last_ tm_printed]. destruct (millis n w) as [ts w'].
  f_equal. cbn [gaps map]. rewrite last_cons, <- app_assoc. by destruct (last ts).
Qed.
End Module_.

(** ** [TestSender] and [t_video.cc] *)

(** [s_], the source, is part of the world. *)
Record TestSender (W : Type) := mkTestSender {
  tsd_world : W; tsd_last_ : Z; tsd_running_ : bool; tsd_printed : list (Z * Z) }.
Arguments mkTestSender {W}.
Arguments tsd_world {W}.
Arguments tsd_last_ {W}.
Arguments tsd_running_ {W}.
Arguments tsd_printed {W}.

Section Sender_.
Context {W : Type} `{ML : Millis W} `{SG : Signals W} `{SRC : VideoSource W}.

Local Abbreviation TS := (M (TestSender W)).

Definition tsd_call {A} (f : W -> A * W) : TS A := fun s =>
  let '(r, w) := f (tsd_world s) in (Ok r, mkTestSender w (tsd_last_ s) (tsd_running_ s) (tsd_printed s)).

Definition tsd_do (f : W -> W) : TS unit := tsd_call (fun w => (tt, f w)).

(** The gap and the length are printed. *)
Definition TestSender_SendVideo (frame : video_frame) : TS unit := fun s =>
  let '(now, w) := TimeMillis (tsd_world s) in
  let last := if tsd_last_ s =? 0 then now else tsd_last_ s in
  let delta := u32 (now - last) in
  (Ok tt, mkTestSender w now (tsd_running_ s) (tsd_printed s ++ [(delta, vf_len frame)])).

Definition send_each (frames : list video_frame) : TS unit :=
  foldr (fun frame m => TestSender_SendVideo frame;; m) (mret tt) frames.

(** The source hands its target a frame when it starts. *)
Definition TestSender_Start : TS unit := frames ← tsd_call src_Start; send_each frames.
Definition TestSender_Stop : TS unit := tsd_do src_Stop.

Definition new_test_sender : TS unit :=
  tsd_do src_RegisterVideoTarget;;
  mmodify (fun s => mkTestSender (tsd_world s) (tsd_last_ s) true (tsd_printed s));;
  TestSender_Start.

(** [while(run_status)]; [others] is what the task queue runs meanwhile. *)
Fixpoint video_loop (stop : Z) (others : list (TS unit)) : TS unit :=
  match others with
  | [] => mstuck
  | other :: others =>
      status ← tsd_call run_status;
      if status =? 0 then mret tt
      else
        now ← tsd_call TimeMillis;
        if stop <? u32 now then mret tt else other;; video_loop stop others
  end.

Definition video_runTime : Z := 500.
Definition video_bw : Z := 1000000.

Definition video_main (others : list (TS unit)) : TS unit :=
  tsd_do (src_SetMinRate video_bw);;
  new_test_sender;;
  now ← tsd_call TimeMillis;
  video_loop (u32 (u32 now + video_runTime)) others;;
  TestSender_Stop.

(** What is sent is printed with the gaps between the calls. *)
Lemma test_sender_prints frames : forall s,
  send_each frames s =
    (Ok tt, let '(ts, w) := millis (length frames) (tsd_world s) in
            mkTestSender w (default (tsd_last_ s) (last ts)) (tsd_running_ s)
              (tsd_printed s ++ zip (gaps (tsd_last_ s) ts) (map vf_len frames))).
Proof.
  induction frames as [|frame frames IH]; intros s; cbn [send_each foldr length millis].
  { cbn. rewrite app_nil_r. by destruct s. }
  destruct (TimeMillis (tsd_world s)) as [t w] eqn:E.
  rewrite (M_bind_ok _ _ _ tt (mkTestSender w t (tsd_running_ s)
    (tsd_printed s ++ [(u32 (t - (if tsd_last_ s =? 0 then t else tsd_last_ s)), vf_len frame)])))
    by (unfold TestSender_SendVideo; by rewrite E).
  change (foldr _ _ frames) with (send_each frames). rewrite IH. cbn [tsd_world tsd_last_ tsd_running_ tsd_printed].
  destruct (millis (length frames) w) as [ts w']. f_equal. cbn [gaps map zip zip_with]. rewrite last_cons, <- app_assoc.
  by destruct (last ts).
Qed.
End Sender_.

(** *** The program with the generator *)

Lemma gaps_snoc ts t : forall l,
  gaps l (ts ++ [t]) = gaps l ts ++ [let l := default l (last ts) in u32 (t - (if l =? 0 then t else l))].
Proof.
  induction ts as [|u ts IH]; intros l; [done|]. cbn [app gaps]. rewrite IH, last_cons. by destruct (last ts).
Qed.

Section Video.
Context {B : Type} `{ML : Millis B} `{TQ : TaskQueue B} `{FS : Files B} `{HP : Heap} `{SG : Signals B}.

Local Abbreviation G := (vg_world B).

(** The task the generator posts: its target gets the frame. *)
Definition generator_task : M (TestSender G) unit := frames ← tsd_call Generate; send_each frames.

(** [VideoGenerator source(&task_queue, 25)]; [garbage]: its smallest rate. *)
Definition video_object (garbage : Z) (b : B) : TestSender G :=
  mkTestSender (mkVg b (new_video_generator 25 garbage)) 0 false [].

(** The generator has the program's rate; [k] lines at least were printed, one
    for each frame. *)
Record filming (k : nat) (s : TestSender G) : Prop := {
  filming_rate : vg_rate_ (vg (tsd_world s)) = 1000000;
  filming_fs : fs_ (vg (tsd_world s)) = 25;
  filming_target : has_target (vg (tsd_world s)) = true;
  filming_lines : exists ts, tsd_last_ s = default 0 (last ts) /\
    tsd_printed s = zip (gaps 0 ts) (replicate (length ts) 5000) /\ length (gaps 0 ts) = length ts /\
    (k <= length ts)%nat;
}.

(** A computation that keeps it so and does not fail. *)
Definition films (k k' : nat) {A} (m : M (TestSender G) A) : Prop :=
  forall s, filming k s -> exists r s', m s = (r, s') /\ r <> Fail /\ filming k' s'.

Lemma films_bind k1 k2 {A C} (m : M (TestSender G) A) (f : A -> M (TestSender G) C) :
  films k1 k2 m -> (forall a, films k2 k2 (f a)) -> films k1 k2 (m ≫= f).
Proof.
  intros Hm Hk s Hs. destruct (Hm s Hs) as (r & s1 & E & Hr & H1). unfold mbind, M_bind. rewrite E.
  destruct r as [a| |]; [by apply Hk|done|]. by exists Stuck, s1.
Qed.

Lemma films_ret k {A} (a : A) : films k k (mret a).
Proof. intros s Hs. by exists (Ok a), s. Qed.

Lemma films_stuck k {A} : films k k (mstuck (A := A)).
Proof. intros s Hs. by exists Stuck, s. Qed.

(** The world's other calls leave the generator's settings alone. *)
Lemma films_call k {A} (f : G -> A * G) :
  (forall w, exists b, vg (f w).2 = vg_set_running b (vg w)) -> films k k (tsd_call f).
Proof.
  intros Hf [w l r o] [H1 H2 H3 H4]. unfold tsd_call. cbn [tsd_world]. destruct (Hf w) as [b Hb].
  destruct (f w) as [a w']. do 2 eexists. split; [done|]. split; [done|]. cbn in *. by constructor; cbn; rewrite ?Hb.
Qed.

Lemma same_running (g : VideoGenerator) : g = vg_set_running (vg_running_ g) g.
Proof. by destruct g. Qed.

Lemma millis_same (w : G) : vg (TimeMillis w).2 = vg w.
Proof. change (TimeMillis w) with (vg_millis w). unfold vg_millis. by destruct (TimeMillis (vg_base w)). Qed.

Lemma status_same (w : G) : vg (run_status w).2 = vg w.
Proof. change (run_status w) with (vg_signals w). unfold vg_signals, vg_call. by destruct (run_status (vg_base w)). Qed.

Lemma films_millis k : films k k (tsd_call TimeMillis).
Proof. apply films_call. intros w. rewrite millis_same. eexists. apply same_running. Qed.

Lemma films_send k frame : vf_len frame = 5000 -> films k (S k) (TestSender_SendVideo frame).
Proof.
  intros Hl s [H1 H2 H3 (ts & E1 & E2 & E3 & Hk)]. unfold TestSender_SendVideo.
  destruct (TimeMillis (tsd_world s)) as [t w] eqn:E. do 2 eexists. split; [done|]. split; [done|].
  pose proof (millis_same (tsd_world s)) as Hw. rewrite E in Hw. cbn [snd] in Hw.
  constructor; cbn [tsd_world tsd_last_ tsd_printed]; rewrite ?Hw; try done.
  exists (ts ++ [t]). rewrite last_snoc, gaps_snoc, E1, E2, Hl, !length_app, replicate_add. cbn [length replicate].
  split; [done|]. split; [|lia]. rewrite zip_with_app; [done|]. by rewrite length_replicate.
Qed.

(** [Generate] while the generator runs. *)
Lemma films_generate k s : filming k s -> vg_running_ (vg (tsd_world s)) = true ->
  exists r s', generator_task s = (r, s') /\ r <> Fail /\ filming (S k) s'.
Proof.
  intros [H1 H2 H3 H4] Hrun. unfold generator_task, tsd_call, mbind, M_bind, Generate.
  rewrite Hrun. unfold SendFrame. rewrite H1, H2, H3. change (frame_bytes 1000000 25) with 5000. cbn [Z.eqb].
  match goal with |- context [send_each _ ?s1] => set (s' := s1) end.
  assert (filming k s') as Hs' by (by constructor).
  destruct (films_send k (mkFrame 0 0 (heap_bytes 5000) 5000) eq_refl s' Hs') as (r & s2 & E & Hr & H).
  cbn [send_each foldr]. unfold mbind, M_bind. rewrite E. destruct r as [[]| |]; [|done|].
  - by exists (Ok tt), s2.
  - by exists Stuck, s2.
Qed.

Lemma filming_less k s : filming (S k) s -> filming k s.
Proof. intros [H1 H2 H3 (ts & E1 & E2 & E3 & Hk)]. constructor; [done..|]. exists ts. split_and!; [done..|lia]. Qed.

Lemma films_task k : films k k generator_task.
Proof.
  intros s Hs. destruct (vg_running_ (vg (tsd_world s))) eqn:Hrun.
  - destruct (films_generate k s Hs Hrun) as (r & s' & E & Hr & H). exists r, s'. by apply filming_less in H.
  - unfold generator_task, tsd_call, mbind, M_bind, Generate. rewrite Hrun. exists (Ok tt). destruct s. by eexists.
Qed.

Lemma films_loop k stop others : Forall (films k k) others -> films k k (video_loop stop others).
Proof.
  induction 1 as [|other others Ho _ IH]; cbn [video_loop]; [apply films_stuck|].
  apply films_bind; [apply films_call; intros w; rewrite status_same; eexists; apply same_running|].
  intros status. destruct (status =? 0); [apply films_ret|]. apply films_bind; [apply films_millis|]. intros now. destruct (stop <? u32 now); [apply films_ret|]. by apply films_bind.
Qed.

(** [t_video.cc]: the program never fails; whatever the clock says and however
    often the generator's timer runs, it prints a line for every frame, the
    first at once: the gap since the frame before, and 5000, the bytes of a
    frame's time at one million bits a second. *)
Theorem video_prints garbage b others : Forall (fun m => m = generator_task \/ m = mret tt) others ->
  exists r s' ts, video_main others (video_object garbage b) = (r, s') /\ r <> Fail /\
    tsd_printed s' = zip (gaps 0 ts) (replicate (length ts) 5000) /\ (1 <= length ts)%nat.
Proof.
  intros Ho. assert (Forall (films 1 1) others) as Hof.
  { eapply Forall_impl; [exact Ho|]. intros m [-> | ->]; [apply films_task|apply films_ret]. }
  assert (films 1 1 (now ← tsd_call TimeMillis; video_loop (u32 (u32 now + video_runTime)) others;; TestSender_Stop)) as Hrest.
  { apply films_bind; [apply films_millis|].
    intros now. apply films_bind; [by apply films_loop|]. intros _. apply films_call. intros w. by exists false. }
  set (s1 := mkTestSender (vg_upd (vg_set_running true) (vg_RegisterVideoTarget (vg_SetMinRate video_bw
    (mkVg b (new_video_generator 25 garbage))))) 0 true []).
  destruct (films_generate 0 s1) as (r & s2 & E & Hr & H2); [constructor; try done; by exists []|done|].
  assert (forall k : unit -> M (TestSender G) unit,
    (tsd_do (src_SetMinRate video_bw);; new_test_sender ≫= k) (video_object garbage b) = (generator_task ≫= k) s1) as E1.
  { intros k. unfold generator_task. reflexivity. }
  unfold video_main. rewrite E1. unfold mbind at 1, M_bind at 1. rewrite E. destruct r as [[]| |]; [|done|].
  - destruct (Hrest s2 H2) as (r & s3 & E3 & Hr3 & [_ _ _ (ts & _ & Hp & _ & Hk)]). by exists r, s3, ts.
  - destruct H2 as [_ _ _ (ts & _ & Hp & _ & Hk)]. by exists Stuck, s2, ts.
Qed.
End Video.

(** ** A run: a clock that advances by 300 us per reading *)

Module Polled.
#[export] Instance ticks : TimeOfDay Z := fun us => ((1 + us / 1000000 mod 1000000000, us mod 1000000), us + 300).
#[export] Instance never_signalled : Signals Z := fun us => (1, us).
End Polled.
Import Polled.

Lemma ticks_ok (w : Z) : let '((s, u), _) := gettimeofday w in 0 < s < 2 ^ 43 /\ 0 <= u < 1000000.
Proof.
  cbn. pose proof (Z.mod_pos_bound (w / 1000000) 1000000000 ltac:(lia)). pose proof (Z.mod_pos_bound w 1000000 ltac:(lia)).
  change (2 ^ 43) with 8796093022208. lia.
Qed.

(** The bound on the firings is reached. *)
Lemma alarm_polled_witness : exists w a,
  main_alarm 1000 (new_poller 0) = (Ok tt, mkPoller w a) /\ delegate_ a = Some (mkNull 18).
Proof.
  assert ((let '(now, w) := Now 0 in
           let '(ts, ended, _) := polled 1000 (time_ now + 200000) w in
           (ended, zlen (firings (time_ now + 10000) ts))) = (true, 18)) as Hc by by vm_compute.
  pose proof (alarm_polled ticks_ok 1000 0 ltac:(vm_compute; reflexivity)) as H. revert H Hc.
  destruct (Now 0) as [now w1]. destruct (polled 1000 (time_ now + 200000) w1) as [[ts ended] w2].
  intros [E _] [= -> Hl]. do 2 eexists. split; [exact E|]. cbn [delegate_ alarm_at]. by rewrite Hl.
Defined.
