(* ===== verification/TestReceived.v ===== *)
(** * The test of the received-packet manager: [test_fun/t_recv_packet_manager.cc]

    Packets 1 to 19 but 5 and 8 are recorded, the manager's ack frame is
    written by one framer and read by another. *)

From S2P Require Import Prelude QuicTime Clock Platform FramerTypes FramerNumbers FramerAppend FramerProcess FramerPacket FramerWire FramerCodec FramerAck AppHeader QuicReceiver QuicProps.
Open Scope Z_scope.

Section TestReceived.
Context `{T : QuicTypes} `{Q : PacketQueueOps} `{A : !AckOps} `{C : CryptoOps} `{F : QuicFunctions}
  `{R : ReaderOps} `{W' : WriterOps} `{P : !ProducerOps} `{AV : AppVersion} `{RM : !ReceivedPackets}.

Definition delta : Z := 10.

Definition test_after (t : QuicTime) (n : Z) : QuicTime := time_add t (FromMilliseconds (u32 (n * delta))).

Definition start_time : QuicTime := time_add Time_Zero (FromMilliseconds 1234).

(** [for(i=1;i<20;i++)], but 5 and 8. *)
Definition test_recorded : list Z := filter (fun i => i <> 5 /\ i <> 8) (seqZ 1 19).

Definition test_manager : RPM :=
  foldl (fun m i => RecordPacketReceived i (test_after start_time i) m) new_rpm test_recorded.

(** [approx] *)
Definition approx : QuicTime := test_after start_time 11.

(** The bytes the first framer wrote: [length] and [rbuf]. *)
Definition test_written (ackframe : QuicAckFrame) : option (list Z) :=
  ack_payload (test_after approx 5) kMaxPacketSize ackframe.

(** The second framer reads them; [header] is the one that was recorded last. *)
Definition test_read (header : QuicPacketHeader) (rbuf : list Z) : option (res unit * option QuicAckFrame) :=
  f ← new_framer app_versions (test_after approx 20) IS_CLIENT;
  let e := mkEnv (V := AckFrameVisitor) (put_visitor true f) None (new_reader rbuf NETWORK_BYTE_ORDER)
    (new_writer 0 NETWORK_BYTE_ORDER) in
  let '(r, e') := ProcessFrameData (V := AckFrameVisitor) header e in Some (r, vs e').

Definition recv_manager_main (header : QuicPacketHeader) : option (res unit * option QuicAckFrame) :=
  let '(ackframe, _) := GetUpdatedAckFrame approx test_manager in
  rbuf ← test_written ackframe;
  test_read header rbuf.

Context `{RV : !ReaderView} `{WV : !WriterView} `{RO : !ReaderOk} `{WO : !WriterOk}
  `{PV : !ProducerView} `{PO : !ProducerOk P} `{TO : !QuicTypesOk T} `{FO : !QuicFunctionsOk F}
  `{QO : !PacketQueueOk Q} `{AO : !AckOk A}.

(** If the manager's frame fits a packet, it is written in the bytes it is
    said to take and read back whole: the frames end with it. *)
Theorem recv_manager_reads header : let a := (GetUpdatedAckFrame approx test_manager).1 in
  (exists lo l, ack_ok QUIC_VERSION_43 a lo l) -> num_ack_blocks (GetAckFrameInfo a) < 255 ->
  ack_size a <= kMaxPacketSize ->
  recv_manager_main header = Some (Ok tt, None) /\
  exists rbuf, test_written a = Some rbuf /\ zlen rbuf = ack_size a.
Proof.
  intros a (lo & l & Ha) Hn Hs. unfold recv_manager_main. subst a.
  destruct (GetUpdatedAckFrame approx test_manager) as [a m]. cbn [fst] in *.
  assert (0 < kMaxPacketSize < 65536) as Hk by apply size_values.
  destruct (ack_payload_room (test_after approx 5) kMaxPacketSize a lo l) as [Ew Hz]; [done..| |].
  { change (2 ^ 31) with 2147483648. lia. }
  split; [|by eexists]. unfold test_written. rewrite Ew. cbn [mbind option_bind]. unfold test_read.
  destruct (new_framer app_versions (test_after approx 20) IS_CLIENT) as [f|] eqn:Ef; [|done].
  cbn [mbind option_bind]. set (e := mkEnv (put_visitor true f) _ _ _).
  assert (transport_version (version_ (fr e)) = QUIC_VERSION_43) as Et by (injection Ef as <-; done).
  assert (polite (V := AckFrameVisitor)) as Hpol by (split; done).
  assert (use_incremental_ack_processing_ (fr e) = true) as Hinc by (by injection Ef as <-).
  pose proof (process_ack_ok (V := AckFrameVisitor) (fr e) NETWORK_BYTE_ORDER header a lo l []) as Hp.
  rewrite Et in Hp. specialize (Hp eq_refl Hpol Hinc Ha Hn).
  edestruct (one_frame (V := AckFrameVisitor) header e) as [r E]; [| | |rewrite E].
  - apply (sh_type _ _ _ _ _ (ack_shape_ok QUIC_VERSION_43 a lo l _ Ha (Z.le_refl _) ltac:(lia))).
  - cbn [rd e]. by rewrite new_reader_remaining.
  - cbn [rd e]. rewrite new_reader_endian. exact Hp.
  - cbn [vs put_vs put_rd e]. do 2 f_equal. generalize (marked (rev_intervals (packets a))). intros ms.
    cbn. clear. induction ms as [|[[s t] b] ms IH]; [done|]. exact IH.
Qed.
End TestReceived.
